(* ===== verification/_CoqProject ===== *)
-Q . S2P
Prelude.v
GoStrings.v
Encoding.v
GoNet.v
GoFloat.v
Types.v
Spiffe.v
RegTypes.v
Store.v
Json.v
GoParse.v
Classification.v
Lifecycle.v
CapIndex.v
Registration.v
RegInvariant.v
RegProps.v
RegLiveness.v
RegSweep.v
RegWitness.v
RegHandlers.v
Resilience.v
ResilienceProps.v
RateLimit.v
RateLimitProps.v
Regex.v
Policy.v
PolicyProps.v
AccessStore.v
Auth.v
AuthProps.v
Routing.v
RoutingProps.v
Search.v
SearchProps.v
Discovery.v
DiscoveryProps.v
Gateway.v
GatewayProps.v
Document.v
JsonText.v
Codec.v
Orchestrator.v
OrchestratorProps.v
Events.v
EventsProps.v
Config.v
ConfigProps.v
AdminStore.v
AdminAuth.v
AdminAuthProps.v
AdminOps.v
AdminAPI.v
Dashboard.v
AdminProps.v
AdminData.v
AdminWitness.v
Listings.v
ListingsProps.v
Forms.v
DeviceFlow.v
Client.v
DeviceFlowProps.v
ClientProps.v
Flags.v
RemoteKeys.v
Commands.v
CommandsProps.v
RemoteProps.v
Health.v
HealthProps.v
Backend.v
BackendProps.v
Serve.v
ServeProps.v
