(* ===== verification/Prelude.v ===== *)
(** * MCP gateway: a verification development

    The program is a gateway in front of servers of the Model Context Protocol
    (MCP). Servers register themselves and send heartbeats; clients call their
    tools through one endpoint. A call passes authentication, the rate limit and
    the policy, is routed to a server that has the tool and that the caller may
    use, and is made through a circuit breaker with retries. Around this: a
    search over the tools, a meta tool that lets a language model plan calls, the
    configuration that a platform pushes over NATS, the administration, as a
    dashboard or as an API of the platform, lists of what the gateway has, and a
    command line that logs in, passes calls on and manages the tables.

    The development is a shallow embedding. A Go function is a Rocq function with
    the name it has in the source; code that changes state and can fail is in the
    monad [ST] of this file, where an error keeps the changes made before it;
    handlers map a request and a state to a reply and a state. Strings are
    sequences of bytes, [int] is a [Z] with its wrap-around written out
    ([wrap_i64]) wherever a value can leave the range, [float64] is IEEE 754
    binary64 ([spec_float]), times and durations are nanoseconds, maps are [gmap]
    where their order is not observed. Code that is not part of the repository is
    a class of operations, with a class of the laws its documentation states
    where a theorem needs them: [Postgres], [PgText], [Bcrypt], [OIDCVerifier],
    [AEAD], [TokenEndpoint], [TokenBuckets], [KeyValue], [SortedSets],
    [UnicodeTables]; every theorem that uses laws is applied to an instance that
    satisfies them.

    ** The files

    The Go language and its library. [Prelude]: machine integers, errors, the
    monad, and the tactics for preservation. [GoStrings], [Encoding], [GoNet],
    [GoFloat], [GoParse], [Codec]: the parts of strings, unicode/utf8,
    encoding/hex, encoding/base64, crypto/sha256, net, net/url, math, strconv and
    time the sources use; [Forms]: the forms of net/url and net/http; [Flags]:
    package flag. [Json], [Document], [JsonText]: dynamic values, typed decoding,
    and the scanner and printer of encoding/json. [Regex]: the part of regexp the
    policy uses, with its meaning.

    Data and stores. [Types]: internal/types. [Store], [AccessStore],
    [AdminStore]: the tables of the migrations and one function per method of
    internal/store, with the meaning of its SQL. Any statement may fail, on a
    schedule that is part of the state, so that the theorems hold with failures.

    Registration (internal/registration, internal/identity). [Spiffe],
    [RegTypes], [Lifecycle], [Classification], [CapIndex]: identities, requests,
    the table of transitions, the classifier of tools, the routing index.
    [Registration], [RegHandlers]: the service on its [World] of database, index,
    settings and what it emitted; heartbeats, acknowledgement, refresh, the
    subscriber, the sweeper, and the HTTP handlers.

    The path of a call. [Resilience] (internal/resilience), [RateLimit]
    (internal/ratelimit, with the Lua script), [Policy] (internal/policy), [Auth]
    (internal/auth and the key endpoints of internal/server), [Routing]
    (internal/proxy), and [Gateway], which composes them in the order in which
    internal/server/server.go and cmd/mcpgw/serve.go mount them. [Backend]
    (internal/proxy/client.go): the session with a server, with the MCP library as
    the parameter [McpLibrary]. [Serve] (cmd/mcpgw/serve.go and the mounts of
    internal/server/server.go): what a start builds from a configuration, with what
    the outside answers as a [StartEnv].

    Search and planning. [Search] (internal/search), [Discovery]
    (internal/proxy/discovery.go and its meta tools), [Orchestrator]
    (internal/orchestrator, internal/llm).

    The platform and the operator. [Events] (internal/events and its wiring),
    [Config] (internal/config), [AdminAuth], [AdminOps], [AdminAPI], [Dashboard]
    (internal/admin, and the bus between gateways). The state of the
    administration, [AdminWorld], contains the [World] of the registration, the
    database of [AccessStore] and the index of [Discovery], so that what an
    administrator changes is what the other parts read.

    What clients see. [Listings] (internal/proxy/server_list.go,
    discovery_doc.go, catalog.go, resources.go, internal/server/catalog_api.go
    and middleware.go): the lists of servers, tools and resources, from the
    index of [CapIndex] and the list of [Routing]. [DeviceFlow]
    (internal/auth/device_flow.go and token_cache.go, cmd/mcpgw/auth.go):
    logging in from the command line, on a [ClientWorld] of clock, file of
    tokens and gateway. [Client] (cmd/mcpgw/proxy.go,
    internal/proxy/stream.go): the command that passes calls on, and the events
    it reads. [Health] (the public endpoints of internal/server/server.go,
    cmd/mcpgw/health.go): /healthz, /readyz and /meta with its limiter, and the
    command that asks them.

    The command line of the operator. [RemoteKeys] (the list and the JSON of
    internal/server/apikey_api.go, cmd/mcpgw/apikey_remote.go): keys of a gateway
    elsewhere, on a [ClientWorld] whose gateway is the endpoint itself. [Commands]
    (main.go, db_helpers.go, apikey.go, server.go, tool.go, policy.go and
    migrate.go of cmd/mcpgw): the commands on a [Cli] of environment, tables,
    client and what was printed; the standard input, the clock and the random
    draws are an [Outside].

    ** What the theorems show

    Registration ([RegInvariant], [RegProps], [RegLiveness], [RegSweep],
    [RegWitness]): after any calls, failures and passage of time the table and
    the index keep their invariant; the rows a registration and a sweep leave; the
    exact answer and world after a heartbeat and a deregistration, on each branch;
    what a lookup in the index returns after any operations, and when this is the
    map of live servers ([CapIndex]).

    Calls ([ResilienceProps], [RateLimitProps], [PolicyProps], [AuthProps],
    [RoutingProps], [GatewayProps]): the breaker under any interleaving of
    callers around its mutex, the exact result of the retry loop and that it ends,
    what the sliding window and the compare-and-set of the shared rate limits bound
    under any interleaving of gateways, with failures and late requests, and what
    they leave to the fallback, when the policy
    allows a call in terms of the meaning of its patterns, that every request
    that is let through was authenticated, that keys round-trip and stay revoked,
    that calls reach only servers the caller may use, and that a result on the
    composed endpoint has passed every check. Some theorems state where the
    composition does less than intended; the findings of the manifest refer to
    them. [BackendProps]: the calls of the MCP library follow the automaton of
    sessions whatever is done with a client, and answers arrive whole.
    [ServeProps]: which checks every route of a gateway that started has in front of
    it, and when a start succeeds.

    Search and planning ([SearchProps], [DiscoveryProps], [OrchestratorProps]):
    the answers of BM25, with the documents they hold and their scores, and of the
    fusion by rank against their definitions, the cache of
    embeddings as a least-recently-used cache, pages that show each match once,
    and which tools an orchestration calls.

    Platform ([EventsProps], [ConfigProps]): no setting that looks like a secret
    reaches a backend and versions only grow, policy messages are applied whole
    or not at all, what survives a restart, when the gateway is ready; a
    configuration that loads satisfies exactly what the checks ask for, and its
    values come from the environment or are the defaults.

    Administration ([AdminAuthProps], [AdminProps], [AdminData],
    [AdminWitness]): a request that reaches a handler of the dashboard carries an
    unexpired session of a verified login, outside the development mode, and a CSRF
    token if it can change something; a request to the API that changes anything
    has the token of the platform and a role that suffices, and leaves one audit
    entry if the log can be written; the audit query answers exactly the entries asked
    for, with search texts taken literally; the CSV export is read back by a CSV
    reader; a client that follows cursors sees everything; and what an
    administrative deregistration leaves in the routing index.

    Clients ([ListingsProps], [DeviceFlowProps], [ClientProps]): each list has
    exactly the live servers, tools and resources, where the advertised addresses
    lead, how old the well-known document can be under concurrent requests, and what the catalogue does not
    see; a login through the gateway ends with the tokens of the provider, stops
    in time whatever happens, and changes the file in one step; a call becomes at
    most three requests, events are read back, and where the token goes.

    Commands ([CommandsProps], [RemoteProps], [HealthProps]): the flags that were
    written are the flags that are read ([Flags]); nothing is revoked or deregistered
    on the spot without consent, while a key elsewhere is; profiles are read back as they were stored, and
    which gateways notice; what a classification of all tools changes; a key that is
    created or listed remotely against the same command on the spot; the limiter of
    /meta keeps a bounded number of addresses, and whom it limits; what the health
    command says about a gateway.

    The comments and documents of the repository and the code do not always agree.
    The theorems are about the code; where a document says otherwise, the comment of
    the theorem says so: on destructive tools ([policy_decision]), on the status of a
    new registration ([register_correct]), on the expiry of a stale server
    ([sweep_correct]), on the list of servers ([start_guarded]), on the levels of
    safety ([orchestrate_confined]), and on the cache of the well-known document
    ([well_known_document]).

    ** Fuel and bounds

    Recursion that is not structural has fuel that is a function of the input:
    the length of the text for the decoders of UTF-8, durations and addresses,
    the number of blocks for SHA-256, the bits of the exponent for powers, the
    rest of the text for repetition in [Regex], and twice the length plus two for
    the JSON scanner ([enough]; [parsers_fuel] shows that more fuel changes
    nothing). The matcher and the scanner are related to specifications without
    fuel, and walks through pages are shown to end within the number of rows.
    Retries run as many rounds as their configuration says. The polling of a login
    has fuel for its lifetime in steps of five seconds ([login_terminates] shows
    that more changes nothing). Nesting of JSON is
    bounded by 10000, as in the library.

    ** Not modelled

    Goroutines and timers: what they repeat is a function, and the theorems hold
    for any number and order of its runs; concurrency is modelled where the code
    relies on it, in the breaker, in the shared rate limits and in the cache of the
    well-known document, as steps that interleave. Logging, tracing,
    metrics other than the gauges the code reads back, HTML templates, static
    files, and the bodies of error answers of the proxy. The network clients:
    the MCP library, NATS, DragonflyDB, the embedders and the language model are parameters.
    Reading certificates, the shutdown, opening the migrations, and reverse
    proxying are input and output around these parts. Of what commands print, the
    alignment of tables, the indentation of JSON and the standard error are left
    out.
    Matching of paths is the chi library, so that routes are values. The rounding
    of timestamps to microseconds by the database is left out. *)

From stdpp Require Export base gmap strings list sorting fin_maps.
From Stdlib Require Export ZArith Lia Bool Wf_nat.
From Stdlib Require Export Ascii.
From Stdlib Require String.
Export Stdlib.Lists.List.ListNotations.

#[export] Set Default Goal Selector "!".

(** ** Scopes *)

Declare Scope go_scope.
Delimit Scope go_scope with go.

(** ** Machine integers *)

(** [int64], and [int] on the 64-bit targets the gateway is built for, wrap
    around modulo 2^64 into the signed range; [uint64] into the unsigned one. *)
Definition max_int64 : Z := 9223372036854775807.
Definition min_int64 : Z := -9223372036854775808.
Definition two64 : Z := 18446744073709551616.

Definition wrap_i64 (z : Z) : Z := ((z - min_int64) mod two64 + min_int64)%Z.
Definition wrap_u64 (z : Z) : Z := (z mod two64)%Z.

Definition int64_range (z : Z) : Prop := (min_int64 <= z <= max_int64)%Z.

Lemma wrap_i64_range z : int64_range (wrap_i64 z).
Proof.
  unfold int64_range, wrap_i64.
  pose proof (Z.mod_pos_bound (z - min_int64) two64).
  unfold min_int64, max_int64, two64 in *. lia.
Qed.

Lemma wrap_i64_id z : int64_range z → wrap_i64 z = z.
Proof.
  unfold int64_range, wrap_i64. intros H.
  rewrite Z.mod_small; unfold min_int64, max_int64, two64 in *; lia.
Qed.

Lemma wrap_u64_range z : (0 <= wrap_u64 z < two64)%Z.
Proof. apply Z.mod_pos_bound. unfold two64. lia. Qed.

Lemma wrap_u64_id z : (0 <= z < two64)%Z → wrap_u64 z = z.
Proof. apply Z.mod_small. Qed.

(** ** Time

    [time.Time] is a number of nanoseconds; the zero value [time.Time{}] (the
    year 1) is [zero_time], which no clock reading of the gateway equals.
    [time.Duration] is an [int64] number of nanoseconds. *)
Definition nanosecond : Z := 1.
Definition microsecond : Z := 1000.
Definition millisecond : Z := 1000000.
Definition second : Z := 1000000000.
Definition minute : Z := 60000000000.
Definition zero_time : Z := -62135596800000000000.

(** [t.Sub u]: the difference, saturating at the bounds of [int64]. *)
Definition time_sub (t u : Z) : Z := Z.max min_int64 (Z.min max_int64 (t - u)).

Lemma time_sub_small t u : int64_range (t - u) → time_sub t u = (t - u)%Z.
Proof. unfold time_sub, int64_range. lia. Qed.

(** ** Errors

    A Go error value: a sentinel declared with [errors.New], or an error built
    by [fmt.Errorf]: [Wrap] when its format has a [%w] verb ([ctx] is the text
    around it), [Opaque] when it has none. The errors of the network stack are
    told apart by what they implement: a [net.Error] with its [Timeout()], an
    error with a [StatusCode()], a [*url.Error] around another error, a
    [syscall.Errno]. *)
Inductive error :=
| Sentinel (name : string)
| Wrap (ctx : string) (inner : error)
| Opaque (msg : string)
| NetError (timeout : bool) (msg : string)
| StatusError (code : Z) (msg : string)
| URLError (op : string) (inner : error)
| Errno (number : Z).

#[export] Instance error_eq_dec : EqDecision error.
Proof. solve_decision. Defined.

(** [errors.Is err target], the targets being sentinels or error numbers. *)
Fixpoint errors_is (e target : error) : bool :=
  bool_decide (e = target) ||
  match e with
  | Wrap _ inner | URLError _ inner => errors_is inner target
  | _ => false
  end.

Lemma errors_is_refl e : errors_is e e = true.
Proof. destruct e; simpl; by rewrite bool_decide_eq_true_2. Qed.

Lemma errors_is_wrap ctx e n :
  errors_is (Wrap ctx e) (Sentinel n) = errors_is e (Sentinel n).
Proof. done. Qed.

Lemma errors_is_opaque m n : errors_is (Opaque m) (Sentinel n) = false.
Proof. done. Qed.

Lemma errors_is_sentinel m n :
  errors_is (Sentinel m) (Sentinel n) = bool_decide (m = n).
Proof.
  simpl. rewrite orb_false_r. apply bool_decide_ext. split; congruence.
Qed.

(** A call that returns [(value, error)]. *)
Abbreviation result A := (error + A)%type.
Abbreviation Ok x := (inr x) (only parsing).
Abbreviation Err e := (inl e) (only parsing).

Definition is_ok {A} (r : result A) : bool :=
  match r with inr _ => true | inl _ => false end.

(** ** Stateful, fallible code

    A call that may change a state [S] and returns [(value, error)]. The state
    changes made before an error stay, as in the code: there is no roll back. *)
Definition ST (S A : Type) : Type := S → result A * S.

Section state.
Context {S : Type}.

Definition ret {A} (x : A) : ST S A := λ s, (Ok x, s).
Definition throw {A} (e : error) : ST S A := λ s, (Err e, s).
Definition bind {A B} (m : ST S A) (k : A → ST S B) : ST S B := λ s,
  match m s with
  | (Ok x, s') => k x s'
  | (Err e, s') => (Err e, s')
  end.
(** The error of a call as a value: [x, err := m]. *)
Definition attempt {A} (m : ST S A) : ST S (result A) := λ s,
  let '(r, s') := m s in (Ok r, s').
Definition gets {A} (f : S → A) : ST S A := λ s, (Ok (f s), s).
Definition modify (f : S → S) : ST S () := λ s, (Ok (), f s).
Definition of_result {A} (r : result A) : ST S A := λ s, (r, s).

(** Runs a call for every element, in order. *)
Fixpoint for_each {A} (f : A → ST S ()) (l : list A) : ST S () :=
  match l with
  | [] => ret ()
  | x :: l' => bind (f x) (λ _, for_each f l')
  end.

End state.

Notation "'let*' x ':=' m 'in' k" := (bind m (λ x, k))
  (at level 200, x pattern, m at level 100, k at level 200, right associativity) : go_scope.
Notation "m ';;' k" := (bind m (λ _, k))
  (at level 100, k at level 200, right associativity) : go_scope.

(** ** A hint database for the development, and its tactics *)

Create HintDb gateway.

(** *** Calls that preserve a predicate of the state

    Proved once for the combinators, so that a call preserves what its parts
    preserve. *)
Section preserves.
Context {S : Type} (P : S → Prop).

Definition preserves {A} (m : ST S A) : Prop := ∀ s, P s → P (m s).2.

Lemma preserves_ret {A} (x : A) : preserves (ret x).
Proof. by intros s. Qed.

Lemma preserves_throw {A} e : preserves (@throw S A e).
Proof. by intros s. Qed.

Lemma preserves_gets {A} (f : S → A) : preserves (gets f).
Proof. by intros s. Qed.

Lemma preserves_read {A} (f : S → result A) : preserves (λ s, (f s, s)).
Proof. by intros s. Qed.

Lemma preserves_modify f : (∀ s, P s → P (f s)) → preserves (modify f).
Proof. intros Hf s. apply Hf. Qed.

Lemma preserves_bind {A B} (m : ST S A) (k : A → ST S B) :
  preserves m → (∀ x, preserves (k x)) → preserves (bind m k).
Proof.
  intros Hm Hk s Hs. unfold bind. specialize (Hm s Hs). destruct (m s) as [[|x] s']; [done|].
  by apply Hk.
Qed.

Lemma preserves_attempt {A} (m : ST S A) : preserves m → preserves (attempt m).
Proof. intros Hm s Hs. unfold attempt. specialize (Hm s Hs). by destruct (m s). Qed.

Lemma preserves_for_each {A} (f : A → ST S ()) l : (∀ x, preserves (f x)) → preserves (for_each f l).
Proof.
  intros Hf. induction l as [|x l IH]; [apply preserves_ret|]. by apply preserves_bind.
Qed.

Lemma preserves_if {A} (b : bool) (m n : ST S A) :
  preserves m → preserves n → preserves (if b then m else n).
Proof. by destruct b. Qed.

End preserves.

#[export] Hint Resolve preserves_ret preserves_throw preserves_gets preserves_read
  preserves_attempt preserves_if : gateway.
#[export] Hint Extern 1 (preserves _ (bind _ _)) =>
  (apply preserves_bind; [|intros ?]) : gateway.
#[export] Hint Extern 1 (preserves _ (for_each _ _)) =>
  (apply preserves_for_each; intros ?) : gateway.

(** Proves that a call preserves a predicate, by the shape of its code. *)
Ltac preserve :=
  repeat match goal with
  | |- preserves _ (bind _ _) => apply preserves_bind; [|intros ?]
  | |- preserves _ (for_each _ _) => apply preserves_for_each; intros ?
  | |- preserves _ (attempt _) => apply preserves_attempt
  | |- preserves _ (if ?b then _ else _) => destruct b
  | |- preserves _ (match ?x with _ => _ end) => destruct x
  | |- preserves _ (ret _) => apply preserves_ret
  | |- preserves _ (throw _) => apply preserves_throw
  | |- preserves _ (gets _) => apply preserves_gets
  | |- preserves _ (let _ := _ in _) => cbv zeta
  | _ => solve [auto with gateway]
  end.

(** Case analysis on the [if]s and [match]es of the goal or of [H], keeping
    the equations. *)
Ltac case_split :=
  repeat match goal with
  | |- context [if ?b then _ else _] => destruct b eqn:?
  | |- context [match ?x with _ => _ end] => destruct x eqn:?
  end.

Ltac case_split_in H :=
  repeat match type of H with
  | context [if ?b then _ else _] => destruct b eqn:?
  | context [match ?x with _ => _ end] => destruct x eqn:?
  end.

(** Turns the boolean tests of the code into propositions. *)
Ltac reflect_bools :=
  repeat match goal with
  | H : andb _ _ = true |- _ => apply andb_true_iff in H as [? ?]
  | H : andb _ _ = false |- _ => apply andb_false_iff in H
  | H : orb _ _ = true |- _ => apply orb_true_iff in H
  | H : orb _ _ = false |- _ => apply orb_false_iff in H as [? ?]
  | H : negb _ = true |- _ => apply negb_true_iff in H
  | H : negb _ = false |- _ => apply negb_false_iff in H
  | H : bool_decide _ = true |- _ => apply bool_decide_eq_true in H
  | H : bool_decide _ = false |- _ => apply bool_decide_eq_false in H
  | H : String.eqb _ _ = true |- _ => apply String.eqb_eq in H
  | H : String.eqb _ _ = false |- _ => apply String.eqb_neq in H
  | H : Z.ltb _ _ = true |- _ => apply Z.ltb_lt in H
  | H : Z.ltb _ _ = false |- _ => apply Z.ltb_ge in H
  | H : Z.leb _ _ = true |- _ => apply Z.leb_le in H
  | H : Z.leb _ _ = false |- _ => apply Z.leb_gt in H
  | H : Z.eqb _ _ = true |- _ => apply Z.eqb_eq in H
  | H : Z.eqb _ _ = false |- _ => apply Z.eqb_neq in H
  end.

(** Decides a closed proposition by evaluating its decision procedure. *)
Ltac by_evaluation :=
  match goal with |- ?P => apply (bool_decide_unpack P); vm_compute; exact I end.
