(* ===== verification/GoStrings.v ===== *)
(** * The string functions of Go's standard library the gateway uses

    A Go string is a sequence of bytes: [string] here, byte by byte. The
    functions below are those of the packages [strings], [sort] and [unicode]
    the sources call. White space is exact on every byte string: Go decodes
    UTF-8, and the encodings of the code points for which [unicode.IsSpace]
    holds are listed in [space1], [space2] and [space3]; since none of them
    starts with a continuation byte, they match byte by byte exactly where the
    decoder finds them. Case mapping is exact on ASCII, which is the fast path
    of [strings.ToLower] and [strings.EqualFold]; beyond ASCII it is given by
    the tables of the package [unicode], a parameter ([UnicodeTables]). *)

From S2P Require Import Prelude.

Abbreviation bytes := (list ascii).

Definition to_bytes : string → bytes := String.list_ascii_of_string.
Definition of_bytes : bytes → string := String.string_of_list_ascii.

Lemma of_to_bytes s : of_bytes (to_bytes s) = s.
Proof. apply String.string_of_list_ascii_of_string. Qed.
Lemma to_of_bytes b : to_bytes (of_bytes b) = b.
Proof. apply String.list_ascii_of_string_of_list_ascii. Qed.

#[export] Hint Rewrite of_to_bytes to_of_bytes : gateway.

#[export] Instance to_bytes_inj : Inj (=) (=) to_bytes.
Proof. intros s t H. by rewrite <- (of_to_bytes s), H, of_to_bytes. Qed.

Lemma to_bytes_app s t : to_bytes (s +:+ t) = to_bytes s ++ to_bytes t.
Proof. induction s; simpl; [done|]. by f_equal. Qed.

Lemma of_bytes_app b c : of_bytes (b ++ c) = of_bytes b +:+ of_bytes c.
Proof. apply (inj to_bytes). by rewrite to_bytes_app, !to_of_bytes. Qed.

Lemma to_bytes_nil s : to_bytes s = [] ↔ s = ""%string.
Proof. by destruct s. Qed.

Definition code (a : ascii) : N := N_of_ascii a.

(** ** White space *)

Definition in_range (lo x hi : N) : bool := (lo <=? x)%N && (x <=? hi)%N.

(** U+0009..U+000D and U+0020. *)
Definition space1 (a : ascii) : bool := in_range 9 (code a) 13 || (code a =? 32)%N.
(** U+0085 and U+00A0. *)
Definition space2 (a b : ascii) : bool :=
  (code a =? 194)%N && ((code b =? 133)%N || (code b =? 160)%N).
(** U+1680, U+2000..U+200A, U+2028, U+2029, U+202F, U+205F and U+3000. *)
Definition space3 (a b c : ascii) : bool :=
  ((code a =? 225)%N && (code b =? 154)%N && (code c =? 128)%N) ||
  ((code a =? 226)%N && (code b =? 128)%N &&
     (in_range 128 (code c) 138 || in_range 168 (code c) 169 || (code c =? 175)%N)) ||
  ((code a =? 226)%N && (code b =? 129)%N && (code c =? 159)%N) ||
  ((code a =? 227)%N && (code b =? 128)%N && (code c =? 128)%N).

Section drop_space.
Context (sp1 : ascii → bool) (sp2 : ascii → ascii → bool)
  (sp3 : ascii → ascii → ascii → bool).

(** Removes the white space a byte sequence starts with. *)
Fixpoint drop_space (l : bytes) : bytes :=
  match l with
  | [] => []
  | a :: l1 =>
      if sp1 a then drop_space l1 else
      match l1 with
      | [] => l
      | b :: l2 =>
          if sp2 a b then drop_space l2 else
          match l2 with
          | [] => l
          | c :: l3 => if sp3 a b c then drop_space l3 else l
          end
      end
  end.

Definition leading (l : bytes) : bool :=
  match l with
  | [] => false
  | a :: l1 => sp1 a ||
      match l1 with
      | [] => false
      | b :: l2 => sp2 a b || match l2 with [] => false | c :: _ => sp3 a b c end
      end
  end.

Lemma drop_space_strong (P : bytes → bytes → Prop) :
  (∀ l, leading l = false → P l l) →
  (∀ p l, P l (drop_space l) → P (p ++ l) (drop_space l)) →
  ∀ l, P l (drop_space l).
Proof.
  intros Hstop Hskip l.
  induction l as [l IH] using (induction_ltof1 _ length). unfold ltof in IH.
  destruct l as [|a l1]; [by apply Hstop|].
  specialize (Hstop (a :: l1)). simpl in Hstop |- *.
  destruct (sp1 a); [apply (Hskip [a]), IH; simpl; lia|].
  destruct l1 as [|b l2]; [by apply Hstop|].
  destruct (sp2 a b); [apply (Hskip [a; b]), IH; simpl; lia|].
  destruct l2 as [|c l3]; [by apply Hstop|].
  destruct (sp3 a b c); [apply (Hskip [a; b; c]), IH; simpl; lia|].
  by apply Hstop.
Qed.

Lemma drop_space_leading l : leading (drop_space l) = false.
Proof. by apply (drop_space_strong (λ _ r, leading r = false)). Qed.

Lemma drop_space_suffix l : ∃ p, l = p ++ drop_space l.
Proof.
  apply (drop_space_strong (λ l r, ∃ p, l = p ++ r)).
  - intros l' _. by exists [].
  - intros p l' [q Hq]. exists (p ++ q). by rewrite <- app_assoc, <- Hq.
Qed.

Lemma drop_space_id l : leading l = false → drop_space l = l.
Proof.
  destruct l as [|a [|b [|c l]]]; simpl; intros H; reflect_bools;
    try done; by repeat match goal with H : _ = false |- _ => rewrite H end.
Qed.

Lemma leading_app l k : leading l = true → leading (l ++ k) = true.
Proof.
  destruct l as [|a [|b [|c l]]]; simpl; rewrite ?orb_true_iff; try done;
    destruct k as [|d [|e k]]; simpl; rewrite ?orb_true_iff; naive_solver.
Qed.
End drop_space.

Definition flip3 (f : ascii → ascii → ascii → bool) : ascii → ascii → ascii → bool :=
  λ a b c, f c b a.

Definition trim_left (l : bytes) : bytes := drop_space space1 space2 space3 l.
Definition trim_right (l : bytes) : bytes :=
  reverse (drop_space space1 (flip space2) (flip3 space3) (reverse l)).

(** [strings.TrimSpace]. *)
Definition TrimSpace (s : string) : string :=
  of_bytes (trim_right (trim_left (to_bytes s))).

Lemma trim_right_prefix l : ∃ q, l = trim_right l ++ q.
Proof.
  destruct (drop_space_suffix space1 (flip space2) (flip3 space3) (reverse l)) as [p Hp].
  exists (reverse p). unfold trim_right. rewrite <- reverse_app, <- Hp.
  by rewrite reverse_involutive.
Qed.

Lemma trim_left_id l : leading space1 space2 space3 l = false → trim_left l = l.
Proof. apply drop_space_id. Qed.

Lemma trim_right_idemp l : trim_right (trim_right l) = trim_right l.
Proof.
  unfold trim_right. rewrite reverse_involutive. f_equal.
  apply drop_space_id, drop_space_leading.
Qed.

Lemma TrimSpace_idemp s : TrimSpace (TrimSpace s) = TrimSpace s.
Proof.
  unfold TrimSpace. rewrite to_of_bytes. f_equal.
  set (l := trim_left (to_bytes s)).
  rewrite (trim_left_id (trim_right l)); [apply trim_right_idemp|].
  destruct (trim_right_prefix l) as [q Hq].
  destruct (leading _ _ _ (trim_right l)) eqn:E; [|done].
  apply (leading_app _ _ _ _ q) in E. rewrite <- Hq in E.
  unfold l, trim_left in E. by rewrite drop_space_leading in E.
Qed.
#[export] Hint Rewrite TrimSpace_idemp : gateway.

(** Printable ASCII other than the space. *)
Definition graphic (a : ascii) : bool := in_range 33 (code a) 126.

Lemma graphic_not_space a : graphic a = true →
  space1 a = false ∧ (∀ b, space2 a b = false) ∧ (∀ b c, space3 a b c = false).
Proof.
  unfold graphic, space1, space2, space3, in_range. rewrite andb_true_iff, !N.leb_le. intros [Hlo Hhi].
  assert (∀ k, (126 < k)%N → (code a =? k)%N = false) as Hk by (intros k Hk; apply N.eqb_neq; lia).
  split_and!.
  - apply orb_false_iff. split; [|apply N.eqb_neq; lia].
    apply andb_false_iff. right. apply N.leb_gt. lia.
  - intros b. by rewrite !Hk by lia.
  - intros b c. by rewrite !Hk by lia.
Qed.

(** A string of printable characters has nothing to trim. *)
Lemma TrimSpace_graphic s : forallb graphic (to_bytes s) = true → TrimSpace s = s.
Proof.
  intros Hg. unfold TrimSpace. rewrite <- (of_to_bytes s) at 2. f_equal.
  assert (Hfor : Forall (λ a, graphic a = true) (to_bytes s)).
  { apply Forall_forall. intros a Ha. eapply forallb_forall; [exact Hg|]. by apply list_elem_of_In. }
  assert (Hrev : Forall (λ a, graphic a = true) (reverse (to_bytes s))) by by apply Forall_reverse.
  rewrite trim_left_id.
  - unfold trim_right. rewrite drop_space_id; [apply reverse_involutive|].
    destruct Hrev as [|a l Ha Hl]; [done|]. simpl. destruct (graphic_not_space a Ha) as (-> & _ & _).
    destruct Hl as [|b l Hb Hl]; [done|]. simpl. destruct (graphic_not_space b Hb) as (_ & H2 & _).
    unfold flip, flip3. rewrite H2. destruct Hl as [|c l Hc Hl]; [done|].
    by destruct (graphic_not_space c Hc) as (_ & _ & ->).
  - destruct Hfor as [|a l Ha Hl]; [done|]. simpl.
    destruct (graphic_not_space a Ha) as (-> & H2 & H3).
    destruct l as [|b l]; [done|]. rewrite H2. destruct l as [|c l]; [done|]. by rewrite H3.
Qed.

Lemma TrimSpace_empty : TrimSpace "" = ""%string.
Proof. done. Qed.

(** A string that [TrimSpace] leaves as it is. *)
Definition trimmed (s : string) : Prop := TrimSpace s = s.

#[export] Instance trimmed_dec s : Decision (trimmed s).
Proof. unfold trimmed. apply _. Defined.

Lemma TrimSpace_trimmed s : trimmed (TrimSpace s).
Proof. apply TrimSpace_idemp. Qed.
#[export] Hint Resolve TrimSpace_trimmed : gateway.

(** ** Prefixes, suffixes and substrings *)

Fixpoint strip_prefix (p l : bytes) : option bytes :=
  match p, l with
  | [], _ => Some l
  | a :: p', b :: l' => if bool_decide (a = b) then strip_prefix p' l' else None
  | _ :: _, [] => None
  end.

Lemma strip_prefix_Some p l r : strip_prefix p l = Some r ↔ l = p ++ r.
Proof.
  revert l. induction p as [|a p IH]; intros [|b l]; simpl; [naive_solver..|].
  case_bool_decide; subst; rewrite ?IH; naive_solver.
Qed.

Lemma strip_prefix_None p l : strip_prefix p l = None ↔ ∀ r, l ≠ p ++ r.
Proof.
  split.
  - intros H r Hr. apply strip_prefix_Some in Hr. congruence.
  - intros H. destruct (strip_prefix p l) as [r|] eqn:E; [|done].
    apply strip_prefix_Some in E. by destruct (H r).
Qed.

(** [strings.HasPrefix s p]. *)
Definition HasPrefix (s p : string) : bool :=
  match strip_prefix (to_bytes p) (to_bytes s) with Some _ => true | None => false end.

(** [strings.TrimPrefix s p]. *)
Definition TrimPrefix (s p : string) : string :=
  match strip_prefix (to_bytes p) (to_bytes s) with Some r => of_bytes r | None => s end.

(** [strings.HasSuffix s p]. *)
Definition HasSuffix (s p : string) : bool :=
  match strip_prefix (reverse (to_bytes p)) (reverse (to_bytes s)) with
  | Some _ => true | None => false end.

Lemma HasPrefix_spec s p : HasPrefix s p = true ↔ ∃ r, s = p +:+ r.
Proof.
  unfold HasPrefix. destruct (strip_prefix _ _) as [r|] eqn:E.
  - apply strip_prefix_Some in E. split; [intros _|done]. exists (of_bytes r).
    apply (inj to_bytes). by rewrite to_bytes_app, to_of_bytes.
  - split; [done|]. intros [r ->]. rewrite to_bytes_app in E.
    rewrite strip_prefix_None in E. by destruct (E (to_bytes r)).
Qed.

Lemma TrimPrefix_app p r : TrimPrefix (p +:+ r) p = r.
Proof.
  unfold TrimPrefix. rewrite to_bytes_app.
  destruct (strip_prefix _ _) as [q|] eqn:E.
  - apply strip_prefix_Some, app_inv_head in E as <-. apply of_to_bytes.
  - rewrite strip_prefix_None in E. by destruct (E (to_bytes r)).
Qed.

Lemma TrimPrefix_no s p : HasPrefix s p = false → TrimPrefix s p = s.
Proof. unfold HasPrefix, TrimPrefix. by destruct (strip_prefix _ _). Qed.

(** Cuts a byte sequence at the first occurrence of [sep]. *)
Fixpoint cut (sep l : bytes) : option (bytes * bytes) :=
  match strip_prefix sep l with
  | Some r => Some ([], r)
  | None =>
      match l with
      | [] => None
      | a :: l' =>
          match cut sep l' with
          | Some (x, y) => Some (a :: x, y)
          | None => None
          end
      end
  end.

Lemma cut_Some sep l x y : cut sep l = Some (x, y) → l = x ++ sep ++ y.
Proof.
  revert x y. induction l as [|a l IH]; intros x y; simpl;
    destruct (strip_prefix sep _) as [r|] eqn:E;
    try (intros [= <- <-]; by apply strip_prefix_Some in E).
  destruct (cut sep l) as [[x' y']|]; [|done].
  intros [= <- <-]. simpl. f_equal. by apply IH.
Qed.

Lemma cut_first sep l x y x' y' :
  cut sep l = Some (x, y) → l = x' ++ sep ++ y' → length x ≤ length x'.
Proof.
  revert x x'. induction l as [|a l IH]; intros x x'; simpl;
    destruct (strip_prefix sep _) as [r|] eqn:E;
    try (intros [= <- <-]; simpl; lia).
  destruct (cut sep l) as [[z w]|]; [|done]. intros [= <- <-] H.
  destruct x' as [|b x']; simpl in *.
  - rewrite strip_prefix_None in E. by destruct (E y').
  - simplify_eq. apply le_n_S. by apply IH.
Qed.

Lemma cut_None sep l x y : cut sep l = None → l ≠ x ++ sep ++ y.
Proof.
  revert x. induction l as [|a l IH]; intros x; simpl;
    destruct (strip_prefix sep _) as [r|] eqn:E; try done;
    rewrite strip_prefix_None in E.
  - intros _ H. destruct x; [|done]. by destruct (E y).
  - destruct (cut sep l) as [[z w]|]; [done|]. intros _ H.
    destruct x as [|b x]; [by destruct (E y)|]. simpl in H. simplify_eq.
    by apply (IH x).
Qed.

(** Cutting at a byte. *)
Lemma cut_absent (a : ascii) l : a ∉ l → cut [a] l = None.
Proof.
  intros Ha. destruct (cut [a] l) as [[x y]|] eqn:E; [|done]. apply cut_Some in E. subst l.
  set_solver.
Qed.

Lemma cut_at (c : ascii) n t : c ∉ n → cut [c] (n ++ c :: t) = Some (n, t).
Proof.
  induction n as [|a n IH]; intros Hn; cbn [app cut strip_prefix].
  - by rewrite bool_decide_eq_true_2.
  - apply not_elem_of_cons in Hn as [Ha Hn]. rewrite bool_decide_eq_false_2 by done. by rewrite IH.
Qed.

(** [strings.Index s sep], -1 when [sep] does not occur. *)
Definition Index (s sep : string) : Z :=
  match cut (to_bytes sep) (to_bytes s) with
  | Some (x, _) => Z.of_nat (length x)
  | None => -1
  end.

(** [strings.Contains s sep]. *)
Definition Contains (s sep : string) : bool :=
  match cut (to_bytes sep) (to_bytes s) with Some _ => true | None => false end.

Lemma Contains_spec s sep : Contains s sep = true ↔ ∃ x y, s = x +:+ sep +:+ y.
Proof.
  unfold Contains. destruct (cut _ _) as [[x y]|] eqn:E.
  - apply cut_Some in E. split; [intros _|done]. exists (of_bytes x), (of_bytes y).
    apply (inj to_bytes). by rewrite !to_bytes_app, !to_of_bytes.
  - split; [done|]. intros (x & y & ->). rewrite !to_bytes_app in E.
    by apply (cut_None _ _ (to_bytes x) (to_bytes y)) in E.
Qed.

(** [s\[:i\]] and [s\[i:\]], for [i] between 0 and [len(s)]. *)
Definition slice_to (s : string) (i : nat) : string := of_bytes (take i (to_bytes s)).
Definition slice_from (s : string) (i : nat) : string := of_bytes (drop i (to_bytes s)).
(** [len(s)]. *)
Definition len (s : string) : nat := length (to_bytes s).

(** [strings.SplitN s sep n] for [n > 0] and [sep] not empty. *)
Fixpoint split_n (sep l : bytes) (n : nat) : list bytes :=
  match n with
  | 0 | 1 => [l]
  | S n' =>
      match cut sep l with
      | Some (x, y) => x :: split_n sep y n'
      | None => [l]
      end
  end.
Definition SplitN (s sep : string) (n : nat) : list string :=
  of_bytes <$> split_n (to_bytes sep) (to_bytes s) n.

(** [strings.Split s sep]: at most [len(s) + 1] parts. *)
Definition Split (s sep : string) : list string := SplitN s sep (S (len s)).

(** [strings.Count s sep] for [sep] not empty. *)
Definition Count (s sep : string) : nat := length (Split s sep) - 1.

(** [strings.TrimRight s c], for a cutset of one byte. *)
Fixpoint drop_byte (c : ascii) (l : bytes) : bytes :=
  match l with
  | [] => []
  | a :: l' => if bool_decide (a = c) then drop_byte c l' else l
  end.
Definition TrimRightByte (s : string) (c : ascii) : string :=
  of_bytes (reverse (drop_byte c (reverse (to_bytes s)))).

(** ** Fields *)

Section fields.
(** [sp1] is the test of single bytes: ASCII white space and what else the
    caller's function accepts. *)
Context (sp1 : ascii → bool).

Definition flush (cur : bytes) (rest : list bytes) : list bytes :=
  match cur with [] => rest | _ => reverse cur :: rest end.

(** [strings.FieldsFunc]: the maximal runs of non-separators; [cur] is the
    current field, last byte first. *)
Fixpoint fields_go (cur l : bytes) : list bytes :=
  match l with
  | [] => flush cur []
  | a :: l1 =>
      if sp1 a then flush cur (fields_go [] l1) else
      match l1 with
      | [] => flush (a :: cur) []
      | b :: l2 =>
          if space2 a b then flush cur (fields_go [] l2) else
          match l2 with
          | [] => fields_go (a :: cur) l1
          | c :: l3 =>
              if space3 a b c then flush cur (fields_go [] l3)
              else fields_go (a :: cur) l1
          end
      end
  end.
End fields.

Definition FieldsBy (sp1 : ascii → bool) (s : string) : list string :=
  of_bytes <$> fields_go sp1 [] (to_bytes s).
(** [strings.Fields]. *)
Definition Fields : string → list string := FieldsBy space1.

(** ** Case *)

Definition is_ascii (l : bytes) : bool := forallb (λ a, (code a <? 128)%N) l.

Definition lower_byte (a : ascii) : ascii :=
  if in_range 65 (code a) 90 then ascii_of_N (code a + 32) else a.

Definition upper_byte (a : ascii) : ascii :=
  if in_range 97 (code a) 122 then ascii_of_N (code a - 32) else a.

(** Case mapping, folding and printing beyond ASCII: the tables of Go's
    [unicode] package. *)
Class UnicodeTables := {
  wide_to_lower : bytes → bytes;
  wide_to_upper : bytes → bytes;
  wide_equal_fold : bytes → bytes → bool;
  (** [unicode.IsPrint] of a rune beyond ASCII. *)
  wide_is_print : N → bool;
}.

(** What their documentation says of them and the proofs use: simple folding is
    an equivalence, and lower-casing a lower-cased string changes nothing. *)
Class UnicodeLaws (U : UnicodeTables) : Prop := {
  wide_fold_refl l : wide_equal_fold l l = true;
  wide_fold_sym l k : wide_equal_fold l k = wide_equal_fold k l;
}.

(** Tables that map nothing beyond ASCII, for evaluation. *)
Definition ascii_tables : UnicodeTables := {|
  wide_to_lower := map lower_byte;
  wide_to_upper := map upper_byte;
  wide_equal_fold l k := bool_decide (map lower_byte l = map lower_byte k);
  wide_is_print _ := false;
|}.

Lemma ascii_tables_laws : UnicodeLaws ascii_tables.
Proof.
  split.
  - intros l. by apply bool_decide_eq_true_2.
  - intros l k. simpl. apply bool_decide_ext. split; congruence.
Qed.

Section case.
Context `{U : UnicodeTables}.

(** [strings.ToLower]. *)
Definition ToLower (s : string) : string :=
  let l := to_bytes s in
  of_bytes (if is_ascii l then map lower_byte l else wide_to_lower l).

(** [strings.ToUpper]. *)
Definition ToUpper (s : string) : string :=
  let l := to_bytes s in
  of_bytes (if is_ascii l then map upper_byte l else wide_to_upper l).

(** [strings.EqualFold]. *)
Definition EqualFold (s t : string) : bool :=
  let l := to_bytes s in
  let k := to_bytes t in
  if is_ascii l && is_ascii k
  then bool_decide (map lower_byte l = map lower_byte k)
  else wide_equal_fold l k.

Lemma EqualFold_refl `{!UnicodeLaws U} s : EqualFold s s = true.
Proof.
  unfold EqualFold. case_match; [by apply bool_decide_eq_true_2|apply wide_fold_refl].
Qed.

Lemma EqualFold_sym `{!UnicodeLaws U} s t : EqualFold s t = EqualFold t s.
Proof.
  unfold EqualFold. rewrite (andb_comm (is_ascii (to_bytes t))).
  case_match; [|apply wide_fold_sym].
  apply bool_decide_ext. split; congruence.
Qed.

Lemma EqualFold_trans_ascii s t u :
  is_ascii (to_bytes s) = true → is_ascii (to_bytes t) = true →
  is_ascii (to_bytes u) = true →
  EqualFold s t = true → EqualFold t u = true → EqualFold s u = true.
Proof.
  unfold EqualFold. intros -> -> ->. simpl.
  rewrite !bool_decide_eq_true. congruence.
Qed.
End case.

(** ** Order *)

(** [s < t] on strings: bytewise, the order [sort.Strings] sorts by. *)
Definition string_lt (s t : string) : bool := String.ltb s t.

Definition sort_strings (l : list string) : list string := merge_sort String.le l.

Lemma sort_strings_sorted l : StronglySorted String.le (sort_strings l).
Proof. apply StronglySorted_merge_sort; apply _. Qed.

Lemma sort_strings_perm l : sort_strings l ≡ₚ l.
Proof. apply merge_sort_Permutation. Qed.

(** The sorted list depends only on the elements: the order in which a map is
    ranged over before sorting does not show. *)
Lemma sort_strings_ext l k : l ≡ₚ k → sort_strings l = sort_strings k.
Proof.
  intros H. apply (StronglySorted_unique String.le).
  - apply sort_strings_sorted.
  - apply sort_strings_sorted.
  - by rewrite !sort_strings_perm.
Qed.

(** ** Tests by evaluation *)

Example trim_ascii : TrimSpace " 	k8s " = "k8s"%string.
Proof. reflexivity. Qed.
Example trim_nbsp :
  TrimSpace (of_bytes [ascii_of_N 194; ascii_of_N 160; "a"%char; " "%char; "b"%char;
                       ascii_of_N 226; ascii_of_N 128; ascii_of_N 175]) = "a b"%string.
Proof. reflexivity. Qed.
Example split3 : SplitN "mcp.k8s.list.pods" "." 3 = ["mcp"; "k8s"; "list.pods"]%string.
Proof. reflexivity. Qed.
Example fields_ex : Fields " a  bc	d" = ["a"; "bc"; "d"]%string.
Proof. reflexivity. Qed.
Example index_ex : Index "k8s.list_pods" "." = 3%Z.
Proof. reflexivity. Qed.
