(* ===== verification/Encoding.v ===== *)
(** * Encodings of the Go standard library that the gateway uses

    UTF-8 decoding (unicode/utf8), lower-case hexadecimal (encoding/hex), the
    JSON text of strings (encoding/json, with its HTML escapes) and SHA-256
    (crypto/sha256). All are executable; the test vectors at the end are
    evaluated by the kernel. *)

From S2P Require Import Prelude GoStrings.

#[local] Open Scope N_scope.

(** ** UTF-8 *)

Definition RuneError : N := 65533.

Definition cont (a : ascii) : bool := in_range 128 (code a) 191.
Definition low6 (a : ascii) : N := N.land (code a) 63.

(** [utf8.DecodeRune] on a non-empty input: the rune and the number of bytes it
    takes; an invalid encoding is [RuneError] with width 1. *)
Definition DecodeRune (l : bytes) : N * nat :=
  match l with
  | [] => (RuneError, 0%nat)
  | a :: rest =>
      let c := code a in
      if c <? 128 then (c, 1%nat)
      else
        match rest with
        | b :: rest' =>
            if in_range 194 c 223 && cont b then
              (N.lor (N.shiftl (N.land c 31) 6) (low6 b), 2%nat)
            else
              match rest' with
              | d :: rest'' =>
                  if (in_range 224 c 239 && cont b && cont d)
                     && ((negb (c =? 224) || (160 <=? code b))
                         && (negb (c =? 237) || (code b <=? 159)))
                  then (N.lor (N.shiftl (N.land c 15) 12) (N.lor (N.shiftl (low6 b) 6) (low6 d)), 3%nat)
                  else
                    match rest'' with
                    | e :: _ =>
                        if (in_range 240 c 244 && cont b && cont d && cont e)
                           && ((negb (c =? 240) || (144 <=? code b))
                               && (negb (c =? 244) || (code b <=? 143)))
                        then
                          (N.lor (N.shiftl (N.land c 7) 18)
                             (N.lor (N.shiftl (low6 b) 12)
                                (N.lor (N.shiftl (low6 d) 6) (low6 e))), 4%nat)
                        else (RuneError, 1%nat)
                    | [] => (RuneError, 1%nat)
                    end
              | [] => (RuneError, 1%nat)
              end
        | [] => (RuneError, 1%nat)
        end
  end.

(** The runes of a string, as [range] over it yields them, each with the bytes
    it was read from. The fuel is the length of the input. *)
Fixpoint runes_fuel (fuel : nat) (l : bytes) : list (N * bytes) :=
  match fuel, l with
  | S fuel', _ :: _ =>
      let '(r, w) := DecodeRune l in (r, take w l) :: runes_fuel fuel' (drop w l)
  | _, _ => []
  end.

Definition runes (l : bytes) : list (N * bytes) := runes_fuel (length l) l.

Lemma DecodeRune_width a l : (1 <= (DecodeRune (a :: l)).2 <= length (a :: l))%nat.
Proof.
  unfold DecodeRune.
  repeat first [progress simpl; lia | match goal with
    | |- context [if ?b then _ else _] => destruct b
    | |- context [match ?x with [] => _ | _ :: _ => _ end] => destruct x
    end].
Qed.

Lemma runes_fuel_concat fuel l :
  (length l <= fuel)%nat → mjoin (runes_fuel fuel l).*2 = l.
Proof.
  revert l. induction fuel as [|fuel IH]; intros [|a l] Hl; simpl in Hl; [done|lia|done|].
  pose proof (DecodeRune_width a l) as Hw.
  cbn [runes_fuel]. destruct (DecodeRune (a :: l)) as [r w] eqn:E. cbn [snd length] in Hw.
  rewrite fmap_cons. cbn [snd]. change (take w (a :: l) ++ mjoin (runes_fuel fuel (drop w (a :: l))).*2 = a :: l).
  rewrite IH; [apply take_drop|]. rewrite length_drop. simpl. lia.
Qed.

(** Decoding splits the string: the pieces concatenate to it. *)
Lemma runes_concat l : mjoin (runes l).*2 = l.
Proof. by apply runes_fuel_concat. Qed.

(** ** Hexadecimal *)

Definition hex_digit (n : N) : ascii :=
  if n <? 10 then ascii_of_N (48 + n) else ascii_of_N (87 + n).

Definition hex_byte (a : ascii) : bytes :=
  [hex_digit (N.shiftr (code a) 4); hex_digit (N.land (code a) 15)].

(** [hex.EncodeToString], and [%x] of a byte slice. *)
Definition hex_encode (l : bytes) : bytes := mjoin (hex_byte <$> l).

Lemma length_hex_encode l : length (hex_encode l) = (2 * length l)%nat.
Proof.
  unfold hex_encode. induction l as [|a l IH]; [done|].
  change (mjoin (hex_byte <$> a :: l)) with (hex_byte a ++ mjoin (hex_byte <$> l)).
  rewrite length_app, IH. simpl. lia.
Qed.

Definition hex_value (a : ascii) : option N :=
  let c := code a in
  if in_range 48 c 57 then Some (c - 48)
  else if in_range 97 c 102 then Some (c - 87)
  else if in_range 65 c 70 then Some (c - 55)
  else None.

Lemma hex_roundtrip n : (n < 16)%N → hex_value (hex_digit n) = Some n.
Proof.
  intros Hn. assert (Hf : Forall (λ n, hex_value (hex_digit (N.of_nat n)) = Some (N.of_nat n)) (seq 0 16)) by by_evaluation.
  rewrite Forall_forall in Hf. rewrite <- (N2Nat.id n). apply Hf, elem_of_seq. lia.
Qed.

(** [hex.DecodeString]: digits of either case, an even number of them. *)
Fixpoint hex_decode (l : bytes) : option bytes :=
  match l with
  | [] => Some []
  | a :: b :: l' =>
      x ← hex_value a; y ← hex_value b; r ← hex_decode l';
      Some (ascii_of_N (x * 16 + y) :: r)
  | [_] => None
  end.

Lemma hex_decode_encode l : hex_decode (hex_encode l) = Some l.
Proof.
  induction l as [|a l IH]; [done|].
  change (hex_encode (a :: l)) with (hex_byte a ++ hex_encode l). unfold hex_byte. cbn [app hex_decode].
  assert (Ha : code a < 256) by apply N_ascii_bounded.
  rewrite !hex_roundtrip.
  - cbn [mbind option_bind]. rewrite IH. cbn [mbind option_bind]. do 2 f_equal.
    change 15 with (N.ones 4). rewrite N.land_ones, N.shiftr_div_pow2. change (2 ^ 4) with 16.
    rewrite (N.mul_comm _ 16), <- N.div_mod by done. apply ascii_N_embedding.
  - rewrite N.shiftr_div_pow2. apply N.Div0.div_lt_upper_bound. change (2 ^ 4) with 16. lia.
  - change 15 with (N.ones 4). rewrite N.land_ones. by apply N.mod_lt.
Qed.

(** ** [base64.RawURLEncoding] *)

Definition url_digit (n : N) : ascii :=
  ascii_of_N (if n <? 26 then 65 + n
              else if n <? 52 then 97 + (n - 26)
              else if n <? 62 then 48 + (n - 52)
              else if n =? 62 then 45 else 95).

(** Six bits of a group of three bytes, the [i]-th from the left. *)
Definition sextet (x : N) (i : nat) : ascii := url_digit (N.land (N.shiftr x (18 - 6 * N.of_nat i)) 63).

Fixpoint base64url (l : bytes) : bytes :=
  match l with
  | a :: b :: c :: l' =>
      (sextet (code a * 65536 + code b * 256 + code c) <$> seq 0 4) ++ base64url l'
  | [a; b] => sextet (code a * 65536 + code b * 256) <$> seq 0 3
  | [a] => sextet (code a * 65536) <$> seq 0 2
  | [] => []
  end.

(** The characters of the encoding. *)
Definition url_char (a : ascii) : bool :=
  in_range 48 (code a) 57 || in_range 65 (code a) 90 || in_range 97 (code a) 122
  || (code a =? 45) || (code a =? 95).

Lemma url_digit_char n : (n < 64)%N → url_char (url_digit n) = true.
Proof.
  intros Hn. assert (Hf : Forall (λ n, url_char (url_digit (N.of_nat n)) = true) (seq 0 64)) by by_evaluation.
  rewrite Forall_forall in Hf. rewrite <- (N2Nat.id n). apply Hf, elem_of_seq. lia.
Qed.

Lemma sextet_char x i : url_char (sextet x i) = true.
Proof. apply url_digit_char. change 63%N with (N.ones 6). rewrite N.land_ones. by apply N.mod_lt. Qed.

Lemma base64url_chars l : Forall (λ a, url_char a = true) (base64url l).
Proof.
  induction l as [l IH] using (induction_ltof1 _ (@length ascii)). unfold ltof in IH.
  destruct l as [|a [|b [|c l]]]; cbn [base64url]; [constructor| | |];
    repeat apply Forall_app_2; try (apply Forall_fmap, Forall_true; intros; apply sextet_char).
  apply IH. simpl. lia.
Qed.

(** ** JSON strings *)

(** The escape of a rune below 0x80 that is not written as itself. *)
Definition json_escape (c : N) : option bytes :=
  if c =? 34 then Some (to_bytes "\" ++ [ascii_of_N 34])
  else if c =? 92 then Some (to_bytes "\\")
  else if c =? 8 then Some (to_bytes "\b")
  else if c =? 12 then Some (to_bytes "\f")
  else if c =? 10 then Some (to_bytes "\n")
  else if c =? 13 then Some (to_bytes "\r")
  else if c =? 9 then Some (to_bytes "\t")
  else if (c <? 32) || (c =? 60) || (c =? 62) || (c =? 38) then
    Some (to_bytes "\u00" ++ hex_byte (ascii_of_N c))
  else None.

(** A rune of a JSON string, as [encoding/json] writes it. *)
Definition json_rune (p : N * bytes) : bytes :=
  let '(r, raw) := p in
  if r <? 128 then default raw (json_escape r)
  else if (r =? RuneError) && (length raw =? 1)%nat then to_bytes "\ufffd"
  else if r =? 8232 then to_bytes "\u2028"
  else if r =? 8233 then to_bytes "\u2029"
  else raw.

Definition quote_byte : ascii := ascii_of_N 34.

Definition json_string (s : string) : bytes :=
  quote_byte :: mjoin (json_rune <$> runes (to_bytes s)) ++ [quote_byte].

(** The JSON of a [[]string]: [null] for the nil slice, which is also what
    appending nothing to a nil slice gives. *)
Fixpoint json_strings_tail (l : list string) : bytes :=
  match l with
  | [] => to_bytes "]"
  | s :: l' => to_bytes "," ++ json_string s ++ json_strings_tail l'
  end.

Definition json_nil_or_strings (l : list string) : bytes :=
  match l with
  | [] => to_bytes "null"
  | s :: l' => to_bytes "[" ++ json_string s ++ json_strings_tail l'
  end.

(** ** Quoted strings *)

(** The four or eight hexadecimal digits of a rune. *)
Definition hex_rune (digits : nat) (r : N) : bytes :=
  (λ i, hex_digit (N.land (N.shiftr r (4 * N.of_nat i)) 15)) <$> reverse (seq 0 digits).

Section quote.
Context `{UnicodeTables}.

Definition is_print (r : N) : bool := if r <? 128 then (32 <=? r) && (r <? 127) else wide_is_print r.

(** A rune as [strconv.Quote] writes it. *)
Definition quote_rune (p : N * bytes) : bytes :=
  let '(r, raw) := p in
  if (r =? RuneError) && (length raw =? 1)%nat then to_bytes "\x" ++ mjoin (hex_byte <$> raw)
  else if (r =? 34) || (r =? 92) then to_bytes "\" ++ raw
  else if is_print r then raw
  else if r =? 7 then to_bytes "\a"
  else if r =? 8 then to_bytes "\b"
  else if r =? 12 then to_bytes "\f"
  else if r =? 10 then to_bytes "\n"
  else if r =? 13 then to_bytes "\r"
  else if r =? 9 then to_bytes "\t"
  else if r =? 11 then to_bytes "\v"
  else if (r <? 32) || (r =? 127) then to_bytes "\x" ++ hex_byte (ascii_of_N r)
  else if r <? 65536 then to_bytes "\u" ++ hex_rune 4 r
  else to_bytes "\U" ++ hex_rune 8 r.

(** [strconv.Quote], the [%q] of a string. *)
Definition Quote (s : string) : string :=
  of_bytes (quote_byte :: mjoin (quote_rune <$> runes (to_bytes s)) ++ [quote_byte]).

End quote.

(** ** SHA-256 *)

Definition w32 (x : N) : N := N.land x 0xffffffff.
Definition rotr (n x : N) : N := w32 (N.lor (N.shiftr x n) (N.shiftl x (32 - n))).
Definition add32 (x y : N) : N := w32 (x + y).
Definition not32 (x : N) : N := N.lxor x 0xffffffff.

(** The constants by their definition in FIPS 180-4: the first 32 bits of the
    fractional parts of the cube roots of the first 64 primes, and of the square
    roots of the first 8. *)
Definition is_prime (n : N) : bool :=
  forallb (λ d, negb (n mod N.of_nat d =? 0)) (seq 2 (N.to_nat n - 2)).

Definition primes : list N := List.filter is_prime (N.of_nat <$> seq 2 310).

(** The largest [r] below [2^bits] with [r^k <= x], bit by bit. *)
Fixpoint nth_root (k : N) (bits : nat) (x r : N) : N :=
  match bits with
  | O => r
  | S b =>
      let r' := r + N.shiftl 1 (N.of_nat b) in
      nth_root k b x (if r' ^ k <=? x then r' else r)
  end.

Definition root_fraction (k p : N) : N := w32 (nth_root k 40 (N.shiftl p (32 * k)) 0).

Definition sha_k : list N := Eval vm_compute in root_fraction 3 <$> primes.
Definition sha_init : list N := Eval vm_compute in root_fraction 2 <$> take 8 primes.

(** The message with its padding: a one bit, zeros, and the bit length on 64
    bits, up to a multiple of 64 bytes. *)
Definition byte_be (x : N) (i : nat) : ascii := ascii_of_N (N.land (N.shiftr x (8 * N.of_nat i)) 255).

Definition sha_pad (l : bytes) : bytes :=
  let n := length l in
  let zeros := ((119 - n mod 64) mod 64)%nat in
  l ++ [ascii_of_N 128] ++ replicate zeros (ascii_of_N 0) ++
  (byte_be (8 * N.of_nat n) <$> [7; 6; 5; 4; 3; 2; 1; 0]%nat).

Fixpoint be_words (l : bytes) : list N :=
  match l with
  | a :: b :: c :: d :: l' =>
      N.lor (N.shiftl (code a) 24)
        (N.lor (N.shiftl (code b) 16) (N.lor (N.shiftl (code c) 8) (code d))) :: be_words l'
  | _ => []
  end.

(** The message schedule, most recent word first. *)
Fixpoint sha_schedule (n : nat) (w : list N) : list N :=
  match n with
  | O => w
  | S n' =>
      let x15 := nth 14 w 0 in
      let x2 := nth 1 w 0 in
      let s0 := N.lxor (rotr 7 x15) (N.lxor (rotr 18 x15) (N.shiftr x15 3)) in
      let s1 := N.lxor (rotr 17 x2) (N.lxor (rotr 19 x2) (N.shiftr x2 10)) in
      sha_schedule n' (add32 (add32 (nth 15 w 0) s0) (add32 (nth 6 w 0) s1) :: w)
  end.

Definition sha_round (st : list N) (kw : N * N) : list N :=
  match st with
  | [a; b; c; d; e; f; g; h] =>
      let s1 := N.lxor (rotr 6 e) (N.lxor (rotr 11 e) (rotr 25 e)) in
      let ch := N.lxor (N.land e f) (N.land (not32 e) g) in
      let t1 := add32 h (add32 s1 (add32 ch (add32 kw.1 kw.2))) in
      let s0 := N.lxor (rotr 2 a) (N.lxor (rotr 13 a) (rotr 22 a)) in
      let maj := N.lxor (N.land a b) (N.lxor (N.land a c) (N.land b c)) in
      [add32 t1 (add32 s0 maj); a; b; c; add32 d t1; e; f; g]
  | _ => st
  end.

Definition sha_block (st : list N) (block : bytes) : list N :=
  let w := rev (sha_schedule 48 (rev (be_words block))) in
  zip_with add32 st (foldl sha_round st (zip sha_k w)).

Fixpoint sha_blocks (fuel : nat) (st : list N) (l : bytes) : list N :=
  match fuel, l with
  | S fuel', _ :: _ => sha_blocks fuel' (sha_block st (take 64 l)) (drop 64 l)
  | _, _ => st
  end.

(** [sha256.Sum256]. The fuel is the length of the padded message, more than
    its number of blocks. *)
Definition Sum256 (l : bytes) : bytes :=
  let p := sha_pad l in
  mjoin ((λ x, byte_be x <$> [3; 2; 1; 0]%nat) <$> sha_blocks (length p) sha_init p).

(** ** Test vectors *)

Example sha_constants : length sha_k = 64%nat ∧ length sha_init = 8%nat.
Proof. done. Qed.

Example sha_empty :
  of_bytes (hex_encode (Sum256 [])) =
    "e3b0c44298fc1c149afbf4c8996fb92427ae41e4649b934ca495991b7852b855"%string.
Proof. by vm_compute. Qed.

Example sha_abc :
  of_bytes (hex_encode (Sum256 (to_bytes "abc"))) =
    "ba7816bf8f01cfea414140de5dae2223b00361a396177a9cb410ff61f20015ad"%string.
Proof. by vm_compute. Qed.

(** Two blocks. *)
Example sha_two_blocks :
  of_bytes (hex_encode (Sum256 (to_bytes "abcdbcdecdefdefgefghfghighijhijkijkljklmklmnlmnomnopnopq"))) =
    "248d6a61d20638b8e5c026930c3e6039a33ce45964ff2167f6ecedd419db06c1"%string.
Proof. by vm_compute. Qed.

Example json_escapes : of_bytes (json_string "a<b\c") = of_bytes (quote_byte :: to_bytes "a\u003cb\\c" ++ [quote_byte]).
Proof. by vm_compute. Qed.
