(* ===== verification/GoNet.v ===== *)
(** * Addresses, URLs and paths of the Go standard library

    net/netip.ParseAddr, net.ParseIP and the address classes of net.IP;
    net/url.Parse as far as SPIFFE ids use it (scheme, host and escaped path);
    path.Clean. They are translated from the documented algorithms of the
    library at the Go version of go.mod (1.25). *)

From S2P Require Import Prelude GoStrings.

#[local] Open Scope N_scope.

(** ** IP addresses *)

Definition digit (a : ascii) : option N :=
  if in_range 48 (code a) 57 then Some (code a - 48) else None.

Definition hex_value (a : ascii) : option N :=
  if in_range 48 (code a) 57 then Some (code a - 48)
  else if in_range 97 (code a) 102 then Some (code a - 87)
  else if in_range 65 (code a) 70 then Some (code a - 55)
  else None.

(** A decimal field of an IPv4 address: digits only, at most 255, no leading
    zero. *)
Fixpoint dec_value (acc : N) (l : bytes) : option N :=
  match l with
  | [] => Some acc
  | a :: l' => match digit a with Some d => dec_value (10 * acc + d) l' | None => None end
  end.

Definition ipv4_field (l : bytes) : option N :=
  match l with
  | [] => None
  | a :: rest =>
      if (code a =? 48) && negb (bool_decide (rest = [])) then None
      else match dec_value 0 l with
           | Some v => if v <=? 255 then Some v else None
           | None => None
           end
  end.

Definition dot : bytes := to_bytes ".".

(** [parseIPv4Fields]: exactly four fields. *)
Definition parseIPv4Fields (l : bytes) : option (list N) :=
  match split_n dot l (S (length l)) with
  | [a; b; c; d] =>
      match ipv4_field a, ipv4_field b, ipv4_field c, ipv4_field d with
      | Some a, Some b, Some c, Some d => Some [a; b; c; d]
      | _, _, _, _ => None
      end
  | _ => None
  end.

(** The hexadecimal digits at the head of the input: their number, their value
    and the rest. *)
Fixpoint hex_run (l : bytes) (n : nat) (acc : N) : nat * N * bytes :=
  match l with
  | [] => (n, acc, [])
  | a :: l' =>
      match hex_value a with
      | Some d => hex_run l' (S n) (16 * acc + d)
      | None => (n, acc, l)
      end
  end.

(** The loop of [parseIPv6]: [ip] holds the bytes read so far, [ell] the
    position of the ellipsis. It ends with the bytes, the ellipsis and the
    unread input. Each round reads two bytes of the address or ends, so eight
    rounds are enough for its sixteen bytes. *)
Fixpoint ipv6_groups (fuel : nat) (ip : list N) (ell : option nat) (s : bytes) :
    option (list N * option nat * bytes) :=
  match fuel with
  | O => Some (ip, ell, s)
  | S fuel' =>
      let '(n, acc, rest) := hex_run s 0 0 in
      if (n =? 0)%nat || (4 <? n)%nat then None
      else
        match rest with
        | c :: rest' =>
            if code c =? 46 then
              if bool_decide (ell = None) && negb (length ip =? 12)%nat then None
              else if (16 <? length ip + 4)%nat then None
              else match parseIPv4Fields s with
                   | Some q => Some (ip ++ q, ell, [])
                   | None => None
                   end
            else
              let ip := ip ++ [N.shiftr acc 8; N.land acc 255] in
              if negb (code c =? 58) then None
              else
                match rest' with
                | [] => None
                | c' :: rest'' =>
                    if code c' =? 58 then
                      match ell with
                      | Some _ => None
                      | None =>
                          match rest'' with
                          | [] => Some (ip, Some (length ip), [])
                          | _ => ipv6_groups fuel' ip (Some (length ip)) rest''
                          end
                      end
                    else ipv6_groups fuel' ip ell rest'
                end
        | [] => Some (ip ++ [N.shiftr acc 8; N.land acc 255], ell, [])
        end
  end.

Definition percent : bytes := to_bytes "%".

(** [parseIPv6]: the sixteen bytes and the zone. *)
Definition parseIPv6 (l : bytes) : option (list N * bytes) :=
  let zoned :=
    match cut percent l with
    | Some (_, []) => None
    | Some (s, zone) => Some (s, zone)
    | None => Some (l, [])
    end in
  match zoned with
  | None => None
  | Some (s, zone) =>
      let '(ell, s) :=
        match strip_prefix (to_bytes "::") s with Some s' => (Some 0%nat, s') | None => (None, s) end in
      if bool_decide (ell = Some 0%nat) && bool_decide (s = []) then Some (replicate 16 0, zone)
      else
        match ipv6_groups 8 [] ell s with
        | Some (ip, ell, []) =>
            if (length ip <? 16)%nat then
              match ell with
              | None => None
              | Some e => Some (take e ip ++ replicate (16 - length ip) 0 ++ drop e ip, zone)
              end
            else if bool_decide (ell = None) then Some (ip, zone) else None
        | _ => None
        end
  end.

(** A parsed address: [ParseAddr]. *)
Inductive Addr := V4 (b : list N) | V6 (b : list N) (zone : bytes).

Fixpoint parse_addr_go (all l : bytes) : option Addr :=
  match l with
  | [] => None
  | a :: l' =>
      if code a =? 46 then V4 <$> parseIPv4Fields all
      else if code a =? 58 then (λ p, V6 p.1 p.2) <$> parseIPv6 all
      else if code a =? 37 then None
      else parse_addr_go all l'
  end.

Definition ParseAddr (s : string) : option Addr := parse_addr_go (to_bytes s) (to_bytes s).

Definition v4_prefix : list N := [0; 0; 0; 0; 0; 0; 0; 0; 0; 0; 255; 255].

(** [net.ParseIP]: sixteen bytes, an IPv4 address in its mapped form; addresses
    with a zone are refused. *)
Definition ParseIP (s : string) : option (list N) :=
  match ParseAddr s with
  | Some (V4 b) => Some (v4_prefix ++ b)
  | Some (V6 b []) => Some b
  | _ => None
  end.

(** [IP.To4] of a sixteen-byte address. *)
Definition To4 (ip : list N) : option (list N) :=
  if bool_decide (take 12 ip = v4_prefix) then Some (drop 12 ip) else None.

Definition octet (ip : list N) (i : nat) : N := nth i ip 0.
Definition IPv6loopback : list N := replicate 15 0 ++ [1].
Definition IPv6unspecified : list N := replicate 16 0.

Definition IsLoopback (ip : list N) : bool :=
  match To4 ip with
  | Some ip4 => octet ip4 0 =? 127
  | None => bool_decide (ip = IPv6loopback)
  end.

Definition IsLinkLocalUnicast (ip : list N) : bool :=
  match To4 ip with
  | Some ip4 => (octet ip4 0 =? 169) && (octet ip4 1 =? 254)
  | None => (octet ip 0 =? 254) && (N.land (octet ip 1) 192 =? 128)
  end.

Definition IsLinkLocalMulticast (ip : list N) : bool :=
  match To4 ip with
  | Some ip4 => (octet ip4 0 =? 224) && (octet ip4 1 =? 0) && (octet ip4 2 =? 0)
  | None => (octet ip 0 =? 255) && (N.land (octet ip 1) 15 =? 2)
  end.

Definition IsUnspecified (ip : list N) : bool :=
  bool_decide (ip = v4_prefix ++ [0; 0; 0; 0]) || bool_decide (ip = IPv6unspecified).

Example parse_v4 : ParseIP "10.0.12.255" = Some (v4_prefix ++ [10; 0; 12; 255]).
Proof. by vm_compute. Qed.
Example parse_v4_zero : ParseIP "010.0.0.1" = None.
Proof. by vm_compute. Qed.
Example parse_v6 : ParseIP "fe80::1:2" = Some (254 :: 128 :: replicate 11 0 ++ [1; 0; 2]).
Proof. by vm_compute. Qed.
Example parse_v6_mapped : ParseIP "::ffff:127.0.0.1" = Some (v4_prefix ++ [127; 0; 0; 1]).
Proof. by vm_compute. Qed.
Example parse_v6_loopback : ParseIP "::1" = Some IPv6loopback.
Proof. by vm_compute. Qed.
Example parse_v6_zone : ParseIP "::1%lo" = None.
Proof. by vm_compute. Qed.

(** ** URLs *)

Inductive encoding := encodePath | encodeUserPassword | encodeHost | encodeZone.

Definition one_of (chars : string) (a : ascii) : bool := bool_decide (a ∈ to_bytes chars).
Definition alnum (a : ascii) : bool :=
  in_range 97 (code a) 122 || in_range 65 (code a) 90 || in_range 48 (code a) 57.

Definition host_mode (mode : encoding) : bool :=
  match mode with encodeHost | encodeZone => true | _ => false end.

Definition quote_char : ascii := ascii_of_N 34.

(** [shouldEscape], for the modes that parsing uses. *)
Definition shouldEscape (a : ascii) (mode : encoding) : bool :=
  if alnum a then false
  else if host_mode mode && (one_of "!$&'()*+,;=:[]<>" a || bool_decide (a = quote_char)) then false
  else if one_of "-_.~" a then false
  else if one_of "$&+,/:;=?@" a then
    match mode with
    | encodePath => one_of "?" a
    | encodeUserPassword => one_of "@/?:" a
    | _ => true
    end
  else true.

(** [unescape]: percent escapes decoded; an incomplete escape, or in a host a
    byte that may not be written there, is an error. *)
Fixpoint unescape (mode : encoding) (l : bytes) : option bytes :=
  match l with
  | [] => Some []
  | a :: l' =>
      if code a =? 37 then
        match l' with
        | h1 :: h2 :: l'' =>
            match hex_value h1, hex_value h2 with
            | Some v1, Some v2 =>
                let v := ascii_of_N (16 * v1 + v2) in
                let is25 := (v1 =? 2) && (v2 =? 5) in
                let bad :=
                  match mode with
                  | encodeHost => (v1 <? 8) && negb is25
                  | encodeZone => negb is25 && negb (code v =? 32) && shouldEscape v encodeHost
                  | _ => false
                  end in
                if bad then None else cons v <$> unescape mode l''
            | _, _ => None
            end
        | _ => None
        end
      else if host_mode mode && (code a <? 128) && shouldEscape a mode then None
      else cons a <$> unescape mode l'
  end.

Definition upper_hex_digit (n : N) : ascii :=
  if n <? 10 then ascii_of_N (48 + n) else ascii_of_N (55 + n).

(** [escape]. *)
Definition escape (mode : encoding) (l : bytes) : bytes :=
  mjoin ((λ a, if shouldEscape a mode
               then percent ++ [upper_hex_digit (N.shiftr (code a) 4); upper_hex_digit (N.land (code a) 15)]
               else [a]) <$> l).

(** [validEncoded]. *)
Definition validEncoded (mode : encoding) (l : bytes) : bool :=
  forallb (λ a, one_of "!$&'()*+,;=:@[]%" a || negb (shouldEscape a mode)) l.

(** [getScheme]: the scheme and the rest, the empty scheme when there is none;
    an input that starts with a colon is an error. *)
Fixpoint getScheme_go (seen l : bytes) : option (bytes * bytes) :=
  match l with
  | [] => Some ([], seen)
  | a :: l' =>
      if in_range 97 (code a) 122 || in_range 65 (code a) 90 then getScheme_go (seen ++ [a]) l'
      else if in_range 48 (code a) 57 || one_of "+-." a then
        if bool_decide (seen = []) then Some ([], l) else getScheme_go (seen ++ [a]) l'
      else if code a =? 58 then
        if bool_decide (seen = []) then None else Some (seen, l')
      else Some ([], seen ++ l)
  end.

Definition getScheme (l : bytes) : option (bytes * bytes) := getScheme_go [] l.

(** [validOptionalPort]. *)
Definition validOptionalPort (l : bytes) : bool :=
  match l with
  | [] => true
  | a :: l' => (code a =? 58) && forallb (λ d, in_range 48 (code d) 57) l'
  end.

(** The last occurrence of a byte: what precedes it and what follows it. *)
Definition cut_last (c : ascii) (l : bytes) : option (bytes * bytes) :=
  match cut [c] (rev l) with
  | Some (after, before) => Some (rev before, rev after)
  | None => None
  end.

Definition colon : ascii := ascii_of_N 58.
Definition slash : ascii := ascii_of_N 47.
Definition open_bracket : ascii := ascii_of_N 91.
Definition close_bracket : ascii := ascii_of_N 93.
Definition at_sign : ascii := ascii_of_N 64.

(** [parseHost]: a bracketed IPv6 literal, or a name with an optional port. *)
Definition parseHost (host : bytes) : option bytes :=
  match cut_last open_bracket host with
  | Some (before, _) =>
      match cut_last close_bracket host with
      | None => None
      | Some (until_close, colonPort) =>
          if negb (validOptionalPort colonPort) then None
          else
            let hostname := drop (length before + 1) until_close in
            let name :=
              match cut (to_bytes "%25") hostname with
              | Some (h, _) =>
                  match unescape encodeHost h, unescape encodeZone (drop (length h) hostname) with
                  | Some h, Some z => Some (h ++ z)
                  | _, _ => None
                  end
              | None => unescape encodeHost hostname
              end in
            match unescape encodeHost colonPort, name with
            | Some port, Some name =>
                match ParseAddr (of_bytes name) with
                | Some (V6 _ _) => Some ([open_bracket] ++ name ++ [close_bracket] ++ port)
                | _ => None
                end
            | _, _ => None
            end
      end
  | None =>
      match cut_last colon host with
      | Some (_, port) =>
          if validOptionalPort (colon :: port) then unescape encodeHost host else None
      | None => unescape encodeHost host
      end
  end.

(** [validUserinfo]. *)
Definition validUserinfo (l : bytes) : bool :=
  forallb (λ a, alnum a || one_of "-._:~!$&'()*+,;=%@" a) l.

(** [parseAuthority]: the host; the user is only checked. *)
Definition parseAuthority (authority : bytes) : option bytes :=
  match cut_last at_sign authority with
  | None => parseHost authority
  | Some (userinfo, host) =>
      match parseHost host with
      | None => None
      | Some host =>
          if negb (validUserinfo userinfo) then None
          else
            match cut [colon] userinfo with
            | None => if bool_decide (unescape encodeUserPassword userinfo = None) then None else Some host
            | Some (u, p) =>
                if bool_decide (unescape encodeUserPassword u = None)
                   || bool_decide (unescape encodeUserPassword p = None) then None
                else Some host
            end
      end
  end.

(** The parts of a URL the gateway reads. *)
Record URL := mkURL { url_Scheme : string; url_Host : string; url_EscapedPath : string }.

(** [setPath] followed by [EscapedPath]. *)
Definition escaped_path (p : bytes) : option bytes :=
  match unescape encodePath p with
  | None => None
  | Some path =>
      if bool_decide (p = escape encodePath path) || validEncoded encodePath p then Some p
      else if bool_decide (path = to_bytes "*") then Some path
      else Some (escape encodePath path)
  end.

Definition has_ctl (l : bytes) : bool := existsb (λ a, (code a <? 32) || (code a =? 127)) l.

(** The reading of the authority and of the path, after the query is cut off. *)
Definition parse_hierarchy (scheme rest : bytes) : option URL :=
  let finish host rest :=
    match escaped_path rest with
    | None => None
    | Some p => Some (mkURL (of_bytes scheme) (of_bytes host) (of_bytes p))
    end in
  match strip_prefix (to_bytes "//") rest with
  | Some authority =>
      if bool_decide (scheme = []) && bool_decide (is_Some (strip_prefix (to_bytes "///") rest))
      then finish [] rest
      else
        let '(authority, rest) :=
          match cut [slash] authority with
          | Some (a, r) => (a, slash :: r)
          | None => (authority, [])
          end in
        match parseAuthority authority with
        | None => None
        | Some host => finish host rest
        end
  | None => finish [] rest
  end.

Definition cut_before (sep l : bytes) : bytes :=
  match cut sep l with Some (a, _) => a | None => l end.

(** [url.Parse]. A fragment only matters by being unescapable. *)
Definition url_Parse (raw : string) : option URL :=
  let l := to_bytes raw in
  let u := cut_before (to_bytes "#") l in
  let frag_ok :=
    match cut (to_bytes "#") l with
    | Some (_, frag) => bool_decide (is_Some (unescape encodePath frag))
    | None => true
    end in
  if has_ctl u then None
  else if bool_decide (u = to_bytes "*") then Some (mkURL "" "" "*")
  else
    match getScheme u with
    | None => None
    | Some (scheme, rest) =>
        let scheme := lower_byte <$> scheme in
        let rest := cut_before (to_bytes "?") rest in
        let url :=
          match strip_prefix (to_bytes "/") rest with
          | Some _ => parse_hierarchy scheme rest
          | None =>
              if negb (bool_decide (scheme = [])) then Some (mkURL (of_bytes scheme) "" "")
              else if bool_decide (is_Some (cut (to_bytes ":") (cut_before (to_bytes "/") rest))) then None
              else parse_hierarchy scheme rest
          end in
        if frag_ok then url else None
    end.

(** ** Slash-separated paths *)

(** [path.Clean]: elements are pushed on a stack, [.] and empty ones dropped,
    [..] pops an element that is not itself [..]. *)
Definition clean_push (rooted : bool) (stack : list bytes) (elem : bytes) : list bytes :=
  if bool_decide (elem = []) || bool_decide (elem = to_bytes ".") then stack
  else if bool_decide (elem = to_bytes "..") then
    match stack with
    | top :: rest => if bool_decide (top = to_bytes "..") then elem :: stack else rest
    | [] => if rooted then [] else [elem]
    end
  else elem :: stack.

Fixpoint join_bytes (sep : bytes) (l : list bytes) : bytes :=
  match l with
  | [] => []
  | [x] => x
  | x :: l' => x ++ sep ++ join_bytes sep l'
  end.

Definition path_Clean (p : string) : string :=
  let l := to_bytes p in
  let rooted := bool_decide (is_Some (strip_prefix [slash] l)) in
  let elems := rev (foldl (clean_push rooted) [] (split_n [slash] l (S (length l)))) in
  let body := join_bytes [slash] elems in
  if rooted then of_bytes (slash :: body)
  else if bool_decide (body = []) then "."%string else of_bytes body.

Example url_spiffe :
  url_Parse "SPIFFE://td.example/ns/a%20b?q#f" = Some (mkURL "spiffe" "td.example" "/ns/a%20b").
Proof. by vm_compute. Qed.
Example url_userinfo :
  url_Parse "https://a@127.0.0.1:8080/mcp" = Some (mkURL "https" "127.0.0.1:8080" "/mcp").
Proof. by vm_compute. Qed.
Example url_zone :
  url_Parse "http://[::1%25lo]:80/mcp" = Some (mkURL "http" "[::1%lo]:80" "/mcp").
Proof. by vm_compute. Qed.
Example url_bad_port : url_Parse "http://h:x/" = None.
Proof. by vm_compute. Qed.
Example clean_1 : path_Clean "/a/./b//../c/" = "/a/c"%string.
Proof. by vm_compute. Qed.
Example clean_2 : path_Clean "../a/../.." = "../.."%string.
Proof. by vm_compute. Qed.
