(* ===== verification/GoFloat.v ===== *)
(** * Floating point

    Go's [float64] is IEEE 754 binary64, here Stdlib's [spec_float] at
    precision 53 with round to nearest even. [Pow] is the algorithm of Go's
    [math] package for exponents that are natural numbers. *)

From Stdlib Require Export Floats.SpecFloat.
From S2P Require Import Prelude.

#[local] Open Scope Z_scope.

Definition f_prec : Z := 53.
Definition f_emax : Z := 1024.

(** [float64(z)] of an integer. *)
Definition f_of_Z (z : Z) : spec_float := binary_normalize f_prec f_emax z 0 false.
(** The float nearest to [m * 2^e]. *)
Definition f_lit (m e : Z) : spec_float := binary_normalize f_prec f_emax m e false.
Definition f_add : spec_float → spec_float → spec_float := SFadd f_prec f_emax.
Definition f_mul : spec_float → spec_float → spec_float := SFmul f_prec f_emax.
Definition f_div : spec_float → spec_float → spec_float := SFdiv f_prec f_emax.

(** [int64(x)]: truncation toward zero. The language leaves the result open
    when it does not fit; amd64 gives the least integer. *)
Definition f_to_i64 (x : spec_float) : Z :=
  match x with
  | S754_zero _ => 0
  | S754_finite s m e =>
      let v := if 0 <=? e then Z.pos m * 2 ^ e else Z.pos m / 2 ^ (- e) in
      let v := if s then - v else v in
      if (min_int64 <=? v) && (v <=? max_int64) then v else min_int64
  | _ => min_int64
  end.

(** [int(math.Floor(x))] and [int(math.Ceil(x))]. *)
Definition f_round_i64 (up : bool) (x : spec_float) : Z :=
  match x with
  | S754_finite s m e =>
      if 0 <=? e then f_to_i64 x
      else
        let v := (if s then - Z.pos m else Z.pos m) in
        let v := if up then - ((- v) / 2 ^ (- e)) else v / 2 ^ (- e) in
        if (min_int64 <=? v) && (v <=? max_int64) then v else min_int64
  | _ => f_to_i64 x
  end.

Definition f_zero : spec_float := S754_zero false.
Definition f_sub : spec_float → spec_float → spec_float := SFsub f_prec f_emax.

Definition f_one : spec_float := f_of_Z 1.
Definition f_half : spec_float := f_lit 1 (-1).
Definition f_is_nan (x : spec_float) : bool :=
  match x with S754_nan => true | _ => false end.

(** The loop of [math.Pow]; [fuel] bounds the bits of the exponent [i]. *)
Fixpoint pow_loop (fuel : nat) (i : Z) (x1 : spec_float) (xe : Z) (a1 : spec_float) (ae : Z) :
    spec_float * Z :=
  match fuel with
  | O => (a1, ae)
  | S fuel' =>
      if i =? 0 then (a1, ae)
      else if (xe <? - 4096) || (4096 <? xe) then (a1, ae + xe)
      else
        let '(a1, ae) := if Z.odd i then (f_mul a1 x1, ae + xe) else (a1, ae) in
        let x1 := f_mul x1 x1 in
        let xe := 2 * xe in
        let '(x1, xe) := if SFltb x1 f_half then (f_add x1 x1, xe - 1) else (x1, xe) in
        pow_loop fuel' (i / 2) x1 xe a1 ae
  end.

(** [math.Pow(x, float64(n))] for [0 <= n] and [x] positive, infinite or NaN. *)
Definition f_pow (x : spec_float) (n : Z) : spec_float :=
  if (n =? 0) || SFeqb x f_one then f_one
  else if n =? 1 then x
  else
    match x with
    | S754_finite _ _ _ =>
        let '(x1, xe) := SFfrexp f_prec f_emax x in
        let '(a1, ae) := pow_loop 64 n x1 xe f_one 0 in
        SFldexp f_prec f_emax a1 ae
    | x => x
    end.

Example pow_ex : f_pow (f_of_Z 3) 5 = f_of_Z 243 ∧ f_pow (f_of_Z 2) 10 = f_of_Z 1024.
Proof. by vm_compute. Qed.

Example pow_overflow : f_pow (f_of_Z 2) 2000 = S754_infinity false.
Proof. by vm_compute. Qed.

Example floor_ceil :
  (λ x, (f_round_i64 false x, f_round_i64 true x)) <$> [f_lit (-3) (-1); f_lit 5 (-1); f_of_Z 7; f_zero] =
  [(-2, -1); (2, 3); (7, 7); (0, 0)].
Proof. by vm_compute. Qed.
