(* ===== verification/Types.v ===== *)
(** * The data model: package [internal/types] and the caller identities

    Go's string-backed enumerations are inductive types whose last constructor
    holds any other text (the columns they are read from are plain TEXT).
    Pointers to optional scalars are options; [time.Time] is a [Z] of
    nanoseconds. Field names are the source's. *)

From S2P Require Import Prelude GoStrings.

(** ** Lifecycle status *)

Inductive ServerStatus :=
| StatusPending
| StatusApproved
| StatusActive
| StatusStale
| StatusExpired
| StatusRaw (text : string).

#[export] Instance ServerStatus_eq_dec : EqDecision ServerStatus.
Proof. solve_decision. Defined.

Definition ServerStatus_String (s : ServerStatus) : string :=
  match s with
  | StatusPending => "pending"
  | StatusApproved => "approved"
  | StatusActive => "active"
  | StatusStale => "stale"
  | StatusExpired => "expired"
  | StatusRaw t => t
  end.

Definition IsTerminal (s : ServerStatus) : bool := bool_decide (s = StatusExpired).
Definition IsRoutable (s : ServerStatus) : bool := bool_decide (s = StatusActive).

Lemma IsRoutable_true s : IsRoutable s = true ↔ s = StatusActive.
Proof. apply bool_decide_eq_true. Qed.

(** ** Platform sync state of a lease *)

Inductive RegistrationSyncState :=
| SyncStateUnacked
| SyncStateAcked
| SyncStateStale
| SyncStateRaw (text : string).

#[export] Instance RegistrationSyncState_eq_dec : EqDecision RegistrationSyncState.
Proof. solve_decision. Defined.

(** ** Policy enforcement mode *)

Inductive EnforcementMode :=
| ModeEnforce
| ModeAudit
| ModeRaw (text : string).

#[export] Instance EnforcementMode_eq_dec : EqDecision EnforcementMode.
Proof. solve_decision. Defined.

(** ** Risk levels and user roles *)

Inductive RiskLevel := RiskReadOnly | RiskWrite | RiskDestructive | RiskUnknown.

#[export] Instance RiskLevel_eq_dec : EqDecision RiskLevel.
Proof. solve_decision. Defined.

Definition RiskLevel_String (r : RiskLevel) : string :=
  match r with
  | RiskReadOnly => "read_only"
  | RiskWrite => "write"
  | RiskDestructive => "destructive"
  | RiskUnknown => "unknown"
  end.

Inductive UserRole := RoleAdmin | RoleUser | RoleViewer | RoleBlocked | RoleRaw (text : string).

#[export] Instance UserRole_eq_dec : EqDecision UserRole.
Proof. solve_decision. Defined.

(** ** Server records *)

Record Capability := mkCapability {
  Tools : list string;
  Resources : list string;
  Prompts : list string;
}.

#[export] Instance Capability_eq_dec : EqDecision Capability.
Proof. solve_decision. Defined.

Record ServerRecord := mkServerRecord {
  ID : string;
  Name : string;
  SPIFFEID : string;
  Version : string;
  Host : string;
  Port : Z;
  Protocol : string;
  Capabilities : Capability;
  Status : ServerStatus;
  PolicyProfileName : string;
  LastHeartbeat : option Z;
  LeaseEpoch : Z;
  CapabilityHash : string;
  SyncState : RegistrationSyncState;
  LastPlatformAckVersion : string;
  LastPlatformAckAt : option Z;
  RateLimit : option Z;
  RateBurst : option Z;
  RoutingStrategy : string;
  CreatedAt : Z;
  UpdatedAt : Z;
}.

#[export] Instance ServerRecord_eq_dec : EqDecision ServerRecord.
Proof. solve_decision. Defined.

(** Assignments to fields of a record. *)
Definition set_id (v : string) (r : ServerRecord) : ServerRecord :=
  mkServerRecord
    v r.(Name) r.(SPIFFEID) r.(Version) r.(Host) r.(Port) r.(Protocol)
    r.(Capabilities) r.(Status) r.(PolicyProfileName) r.(LastHeartbeat) r.(LeaseEpoch)
    r.(CapabilityHash) r.(SyncState) r.(LastPlatformAckVersion) r.(LastPlatformAckAt)
    r.(RateLimit) r.(RateBurst) r.(RoutingStrategy) r.(CreatedAt) r.(UpdatedAt).

Definition set_status (v : ServerStatus) (r : ServerRecord) : ServerRecord :=
  mkServerRecord
    r.(ID) r.(Name) r.(SPIFFEID) r.(Version) r.(Host) r.(Port) r.(Protocol)
    r.(Capabilities) v r.(PolicyProfileName) r.(LastHeartbeat) r.(LeaseEpoch)
    r.(CapabilityHash) r.(SyncState) r.(LastPlatformAckVersion) r.(LastPlatformAckAt)
    r.(RateLimit) r.(RateBurst) r.(RoutingStrategy) r.(CreatedAt) r.(UpdatedAt).

Definition set_last_heartbeat (v : option Z) (r : ServerRecord) : ServerRecord :=
  mkServerRecord
    r.(ID) r.(Name) r.(SPIFFEID) r.(Version) r.(Host) r.(Port) r.(Protocol)
    r.(Capabilities) r.(Status) r.(PolicyProfileName) v r.(LeaseEpoch)
    r.(CapabilityHash) r.(SyncState) r.(LastPlatformAckVersion) r.(LastPlatformAckAt)
    r.(RateLimit) r.(RateBurst) r.(RoutingStrategy) r.(CreatedAt) r.(UpdatedAt).

Definition set_updated_at (v : Z) (r : ServerRecord) : ServerRecord :=
  mkServerRecord
    r.(ID) r.(Name) r.(SPIFFEID) r.(Version) r.(Host) r.(Port) r.(Protocol)
    r.(Capabilities) r.(Status) r.(PolicyProfileName) r.(LastHeartbeat) r.(LeaseEpoch)
    r.(CapabilityHash) r.(SyncState) r.(LastPlatformAckVersion) r.(LastPlatformAckAt)
    r.(RateLimit) r.(RateBurst) r.(RoutingStrategy) r.(CreatedAt) v.

Definition set_capabilities (v : Capability) (r : ServerRecord) : ServerRecord :=
  mkServerRecord
    r.(ID) r.(Name) r.(SPIFFEID) r.(Version) r.(Host) r.(Port) r.(Protocol) v
    r.(Status) r.(PolicyProfileName) r.(LastHeartbeat) r.(LeaseEpoch)
    r.(CapabilityHash) r.(SyncState) r.(LastPlatformAckVersion) r.(LastPlatformAckAt)
    r.(RateLimit) r.(RateBurst) r.(RoutingStrategy) r.(CreatedAt) r.(UpdatedAt).

Definition set_capability_hash (v : string) (r : ServerRecord) : ServerRecord :=
  mkServerRecord
    r.(ID) r.(Name) r.(SPIFFEID) r.(Version) r.(Host) r.(Port) r.(Protocol)
    r.(Capabilities) r.(Status) r.(PolicyProfileName) r.(LastHeartbeat) r.(LeaseEpoch)
    v r.(SyncState) r.(LastPlatformAckVersion) r.(LastPlatformAckAt) r.(RateLimit)
    r.(RateBurst) r.(RoutingStrategy) r.(CreatedAt) r.(UpdatedAt).

Definition set_rate (l b : option Z) (r : ServerRecord) : ServerRecord :=
  mkServerRecord
    r.(ID) r.(Name) r.(SPIFFEID) r.(Version) r.(Host) r.(Port) r.(Protocol)
    r.(Capabilities) r.(Status) r.(PolicyProfileName) r.(LastHeartbeat) r.(LeaseEpoch)
    r.(CapabilityHash) r.(SyncState) r.(LastPlatformAckVersion) r.(LastPlatformAckAt)
    l b r.(RoutingStrategy) r.(CreatedAt) r.(UpdatedAt).

Definition set_ack (st : RegistrationSyncState) (ver : string) (at_ : option Z) (r : ServerRecord) : ServerRecord :=
  mkServerRecord
    r.(ID) r.(Name) r.(SPIFFEID) r.(Version) r.(Host) r.(Port) r.(Protocol)
    r.(Capabilities) r.(Status) r.(PolicyProfileName) r.(LastHeartbeat) r.(LeaseEpoch)
    r.(CapabilityHash) st ver at_ r.(RateLimit) r.(RateBurst) r.(RoutingStrategy)
    r.(CreatedAt) r.(UpdatedAt).

(** ** Tool classifications, policy profiles, users, API keys *)

Record ToolClassification := mkToolClassification {
  tc_ToolName : string;
  tc_RiskLevel : RiskLevel;
  tc_Reason : string;
  tc_AutoClassified : bool;
  tc_UpdatedBy : string;
  tc_UpdatedAt : Z;
}.

#[export] Instance ToolClassification_eq_dec : EqDecision ToolClassification.
Proof. solve_decision. Defined.

Record PolicyProfile := mkPolicyProfile {
  pp_Name : string;
  pp_RateLimit : Z;
  pp_RateBurst : Z;
  pp_ToolAllowlist : list string;
  pp_ToolDenylist : list string;
  pp_EnforcementMode : EnforcementMode;
}.

(** [UserRole.IsValid]. *)
Definition UserRole_IsValid (r : UserRole) : bool :=
  match r with RoleRaw _ => false | _ => true end.

Record User := mkUser {
  u_ID : string;
  u_OIDCSub : string;
  u_Email : string;
  u_DisplayName : string;
  u_Role : UserRole;
  u_CreatedAt : Z;
  u_UpdatedAt : Z;
}.

Record UserToolPermission := mkUserToolPermission {
  up_UserID : string;
  up_ToolName : string;
  up_GrantedBy : string;
  up_GrantedAt : Z;
}.

Record APIKey := mkAPIKey {
  ak_ID : string;
  ak_KeyLookupHash : string;
  ak_KeyBcryptHash : string;
  ak_Name : string;
  ak_Scopes : list string;
  ak_ClientID : string;
  ak_PolicyProfile : string;
  ak_ServerScope : list string;
  ak_ExpiresAt : option Z;
  ak_CreatedAt : Z;
}.

(** ** Caller identity (package [internal/identity]) *)

Inductive IdentityType := IdentityMTLS | IdentityAPIKey | IdentityOIDC.

#[export] Instance IdentityType_eq_dec : EqDecision IdentityType.
Proof. solve_decision. Defined.

Definition ScopeRead : string := "read".
Definition ScopeWrite : string := "write".
Definition ScopeAdmin : string := "admin".

Record Identity := mkIdentity {
  id_Type : IdentityType;
  id_ID : string;
  id_Scopes : list string;
  id_Metadata : gmap string string;
}.

(** [id.Metadata\[k\]]: the zero value when [k] is absent. *)
Definition metadata (id : Identity) (k : string) : string :=
  default ""%string (id_Metadata id !! k).

(** [Identity.HasScope]; a nil identity has none. *)
Definition HasScope (id : option Identity) (scope : string) : bool :=
  match id with
  | None => false
  | Some id => existsb (λ s, bool_decide (s = scope)) (id_Scopes id)
  end.

Lemma HasScope_spec id scope : HasScope (Some id) scope = true ↔ scope ∈ id_Scopes id.
Proof.
  simpl. rewrite existsb_exists. setoid_rewrite bool_decide_eq_true.
  setoid_rewrite <- list_elem_of_In. naive_solver.
Qed.

(** A record for evaluating examples: the fields that matter to an example, the
    others at fixed values. *)
Definition example_server (id name : string) (st : ServerStatus) (tools resources : list string) :
    ServerRecord :=
  mkServerRecord id name ("spiffe://td/" +:+ name)%string "1.0.0" "10.0.0.1" 8080 "http"
    (mkCapability tools resources []) st "default" None 1 "" SyncStateUnacked "" None None None
    "" zero_time zero_time.
