(* ===== verification/Spiffe.v ===== *)
(** * SPIFFE identities: [internal/identity/spiffe.go] and [middleware.go]

    Parsing and authorisation of SPIFFE ids, and the mTLS middleware that turns
    a verified client certificate into an identity. *)

From S2P Require Import Prelude GoStrings GoNet Types.

#[local] Open Scope string_scope.
#[local] Open Scope list_scope.
#[local] Open Scope nat_scope.

(** ** Parsing *)

Section spiffe.
Context `{UnicodeTables}.

(** [ParseSPIFFEID]: the trust domain and the workload path. *)
Definition ParseSPIFFEID (raw : string) : result (string * string) :=
  if bool_decide (TrimSpace raw = "") then Err (Opaque "parse spiffe id: empty id")
  else
    match url_Parse raw with
    | None => Err (Wrap "parse spiffe id" (Opaque "parse"))
    | Some parsed =>
        if negb (EqualFold parsed.(url_Scheme) "spiffe") then
          Err (Opaque "parse spiffe id: invalid scheme")
        else if bool_decide (TrimSpace parsed.(url_Host) = "") then
          Err (Opaque "parse spiffe id: missing trust domain")
        else
          let workloadPath := TrimSpace parsed.(url_EscapedPath) in
          if bool_decide (workloadPath = "") || bool_decide (workloadPath = "/") then
            Err (Opaque "parse spiffe id: missing workload path")
          else
            let cleanPath := path_Clean workloadPath in
            if bool_decide (cleanPath = ".") || bool_decide (cleanPath = "/")
               || Contains cleanPath ".." then
              Err (Opaque "parse spiffe id: invalid workload path")
            else
              let cleanPath := TrimPrefix cleanPath "/" in
              if bool_decide (cleanPath = "") then
                Err (Opaque "parse spiffe id: missing workload path")
              else Ok (parsed.(url_Host), cleanPath)
    end.

(** The loop of [ValidateSPIFFEID] over the allowed prefixes. *)
Definition prefix_allows (id prefix : string) : bool :=
  let trimmed := TrimSpace prefix in
  if bool_decide (trimmed = "") then false else HasPrefix id trimmed.

(** [ValidateSPIFFEID]. *)
Definition ValidateSPIFFEID (id : string) (allowedPrefixes : list string) : result () :=
  match ParseSPIFFEID id with
  | Err err => Err (Wrap "validate spiffe id" err)
  | Ok _ =>
      if bool_decide (allowedPrefixes = []) then Ok ()
      else if existsb (prefix_allows id) allowedPrefixes then Ok ()
      else Err (Opaque "validate spiffe id: does not match allowed prefixes")
  end.

(** A URI SAN of a certificate: its scheme and its text ([URL.String]). *)
Record CertURI := mkCertURI { uri_Scheme : string; uri_String : string }.

(** [ExtractSPIFFEID]; a certificate is its list of URI SANs. *)
Fixpoint first_spiffe (uris : list (option CertURI)) : result string :=
  match uris with
  | [] => Err (Opaque "extract spiffe id: no spiffe URI SAN found")
  | Some uri :: rest =>
      if EqualFold uri.(uri_Scheme) "spiffe" then
        match ParseSPIFFEID uri.(uri_String) with
        | Err err => Err (Wrap "extract spiffe id" err)
        | Ok _ => Ok uri.(uri_String)
        end
      else first_spiffe rest
  | None :: rest => first_spiffe rest
  end.

Definition ExtractSPIFFEID (certs : list (list (option CertURI))) : result string :=
  match certs with
  | [] => Err (Opaque "extract spiffe id: no certificates provided")
  | leaf :: _ => first_spiffe leaf
  end.

(** ** The mTLS middleware *)

(** [MTLSMiddleware]: an HTTP error with its status, or the identity the next
    handler runs with. [chains] is [r.TLS.VerifiedChains], [None] without TLS. *)
Definition MTLSMiddleware (allowedPrefixes : list string)
    (chains : option (list (list (list (option CertURI))))) : Z + Identity :=
  match chains with
  | None | Some [] | Some ([] :: _) => inl 401%Z
  | Some (chain :: _) =>
      match ExtractSPIFFEID chain with
      | Err _ => inl 401%Z
      | Ok spiffeID =>
          match ValidateSPIFFEID spiffeID allowedPrefixes with
          | Err _ => inl 403%Z
          | Ok _ =>
              inr (mkIdentity IdentityMTLS spiffeID [ScopeAdmin] {["auth_method" := "mtls"]})
          end
      end
  end.

(** ** Properties *)

Lemma ValidateSPIFFEID_ok id allowed :
  ValidateSPIFFEID id allowed = Ok () ↔
  is_ok (ParseSPIFFEID id) = true ∧
  (allowed = [] ∨ ∃ p, p ∈ allowed ∧ TrimSpace p ≠ "" ∧ HasPrefix id (TrimSpace p) = true).
Proof.
  unfold ValidateSPIFFEID. destruct (ParseSPIFFEID id) as [|pq] eqn:E; simpl; [naive_solver|].
  assert (Hex : existsb (prefix_allows id) allowed = true ↔
    ∃ p, p ∈ allowed ∧ TrimSpace p ≠ "" ∧ HasPrefix id (TrimSpace p) = true).
  { rewrite existsb_exists. setoid_rewrite list_elem_of_In. unfold prefix_allows.
    split; intros (p & Hp & Hx); exists p; [case_bool_decide; naive_solver|].
    rewrite bool_decide_eq_false_2; naive_solver. }
  case_bool_decide; [naive_solver|].
  destruct (existsb _ _); naive_solver.
Qed.

(** Whoever passes the mTLS middleware was verified by TLS and carries a
    well-formed SPIFFE id that starts with one of the configured prefixes; the
    identity is of type mTLS, with that id. *)
Theorem mtls_identity_allowed allowed chains identity :
  allowed ≠ [] → MTLSMiddleware allowed chains = inr identity →
  identity.(id_Type) = IdentityMTLS ∧
  is_ok (ParseSPIFFEID identity.(id_ID)) = true ∧
  (∃ p, p ∈ allowed ∧ TrimSpace p ≠ "" ∧ HasPrefix identity.(id_ID) (TrimSpace p) = true) ∧
  ∃ leaf rest more, chains = Some ((leaf :: rest) :: more) ∧
    ∃ uri, Some uri ∈ leaf ∧ uri.(uri_String) = identity.(id_ID).
Proof.
  intros Hne. unfold MTLSMiddleware.
  destruct chains as [[|[|leaf rest] more]|]; try done. simpl.
  destruct (first_spiffe leaf) as [|sid] eqn:Hs; [done|].
  destruct (ValidateSPIFFEID sid allowed) as [|[]] eqn:Hv; [done|].
  intros [= <-]. simpl. apply ValidateSPIFFEID_ok in Hv as [Hp Hor].
  split_and!; [done..|naive_solver|]. exists leaf, rest, more. split; [done|].
  clear -Hs. induction leaf as [|[uri|] leaf IH]; simpl in Hs; [done| |].
  - destruct (EqualFold _ _).
    + destruct (ParseSPIFFEID _); [done|]. exists uri. split; [left|naive_solver].
    + destruct (IH Hs) as (u & Hu & ?). exists u. split; [by right|done].
  - destruct (IH Hs) as (u & Hu & ?). exists u. split; [by right|done].
Qed.

End spiffe.

#[local] Existing Instance ascii_tables.

Lemma mtls_identity_allowed_witness :
  ∃ identity,
    MTLSMiddleware ["spiffe://td/ns/"]
      (Some [[[Some (mkCertURI "spiffe" "spiffe://td/ns/a")]]]) = inr identity ∧
    identity.(id_Type) = IdentityMTLS.
Proof.
  eexists. split; [by vm_compute|].
  refine (proj1 (mtls_identity_allowed ["spiffe://td/ns/"]
    (Some [[[Some (mkCertURI "spiffe" "spiffe://td/ns/a")]]]) _ _ _)); [done|by vm_compute].
Defined.
