(* ===== verification/RegTypes.v ===== *)
(** * Registration payloads: [internal/registration/types.go]

    The request and response of the registration handshake and the validation
    of untrusted requests, with the address the backend client later dials
    (internal/proxy/client.go). *)

From stdpp Require Export pretty.
From S2P Require Import Prelude GoStrings GoNet Types.

#[local] Open Scope string_scope.
#[local] Open Scope list_scope.
#[local] Open Scope nat_scope.

(** [ListenConfig] and [RegistrationRequest]; the labels are decoded but never
    read by the gateway. *)
Record ListenConfig := mkListenConfig { lc_Host : string; lc_Port : Z; lc_Protocol : string }.

Record RegistrationRequest := mkRegistrationRequest {
  rq_ServiceName : string;
  rq_Version : string;
  rq_Listen : ListenConfig;
  rq_Capabilities : Capability;
}.

(** [serviceNamePattern]: a letter or digit, then at most 62 letters, digits,
    underscores, dots and dashes. *)
Definition name_char (a : ascii) : bool := alnum a || one_of "_.-" a.

Definition matches_service_name (s : string) : bool :=
  match to_bytes s with
  | [] => false
  | a :: rest => alnum a && (length rest <=? 62) && forallb name_char rest
  end.

(** ** Hosts *)

(** [validateIP]. *)
Definition validateIP (ip : list N) : result () :=
  if IsLoopback ip || IsLinkLocalUnicast ip || IsLinkLocalMulticast ip then
    Err (Opaque "loopback and link-local addresses not allowed")
  else if IsUnspecified ip then Err (Opaque "unspecified address not allowed")
  else if bool_decide (ParseIP "169.254.169.254" = Some ip) then
    Err (Opaque "cloud metadata endpoint not allowed")
  else Ok ().

(** The normalisation at the top of [validateHost]: brackets stripped, then
    trailing dots. *)
Definition strip_brackets (host : string) : string :=
  let l := to_bytes host in
  match l with
  | a :: rest =>
      if (2 <? length l) && bool_decide (a = open_bracket)
         && bool_decide (last l = Some close_bracket)
      then of_bytes (removelast rest)
      else host
  | [] => host
  end.

Definition normalize_host (host : string) : string :=
  TrimRightByte (strip_brackets host) "."%char.

Definition metadataHosts : list string :=
  ["169.254.169.254"; "metadata.google.internal"; "metadata.goog"].

Section validate.
Context `{UnicodeTables}.

(** [validateHost]. *)
Definition validateHost (host : string) : result () :=
  let host := normalize_host host in
  let lower := ToLower host in
  if existsb (λ m, bool_decide (lower = m)) metadataHosts then
    Err (Opaque "cloud metadata endpoint not allowed")
  else
    match match ParseIP host with Some ip => validateIP ip | None => Ok () end with
    | Err err => Err err
    | Ok _ =>
        if bool_decide (lower = "localhost") || HasSuffix lower ".localhost" then
          Err (Opaque "localhost not allowed")
        else Ok ()
    end.

(** [validateCapabilityNames]. *)
Definition validateCapabilityNames (names : list string) : result () :=
  if existsb (λ n, bool_decide (TrimSpace n = "")) names then
    Err (Opaque "capabilities cannot contain empty names")
  else Ok ().

(** [Validate]. *)
Definition Validate (r : RegistrationRequest) : result () :=
  if negb (matches_service_name (TrimSpace r.(rq_ServiceName))) then
    Err (Opaque "invalid service_name format")
  else
    let host := TrimSpace r.(rq_Listen).(lc_Host) in
    if bool_decide (host = "") then Err (Opaque "listen.host is required")
    else
      match validateHost host with
      | Err err => Err (Wrap "listen.host" err)
      | Ok _ =>
          if (r.(rq_Listen).(lc_Port) <? 1)%Z || (65535 <? r.(rq_Listen).(lc_Port))%Z then
            Err (Opaque "listen.port must be between 1 and 65535")
          else
            let protocol := TrimSpace (ToLower r.(rq_Listen).(lc_Protocol)) in
            if negb (bool_decide (protocol = "")) && negb (bool_decide (protocol = "http"))
               && negb (bool_decide (protocol = "https")) then
              Err (Opaque "listen.protocol must be http or https when provided")
            else
              let c := r.(rq_Capabilities) in
              if bool_decide (c.(Tools) = []) && bool_decide (c.(Resources) = [])
                 && bool_decide (c.(Prompts) = []) then
                Err (Opaque "at least one capability must be provided")
              else
                match validateCapabilityNames c.(Tools) with
                | Err err => Err err
                | Ok _ =>
                    match validateCapabilityNames c.(Resources) with
                    | Err err => Err err
                    | Ok _ => validateCapabilityNames c.(Prompts)
                    end
                end
      end.

(** ** The address dialled (internal/proxy/client.go) *)

(** [backendScheme]. *)
Definition backendScheme (protocol : string) : string :=
  if bool_decide (ToLower (TrimSpace protocol) = "http") then "http" else "https".

(** [baseURL] of [NewBackendClient]. *)
Definition baseURL (protocol host : string) (port : Z) : string :=
  backendScheme protocol +:+ "://" +:+ TrimSpace host +:+ ":" +:+ pretty port +:+ "/mcp".

(** ** Properties of validation *)

Lemma validateCapabilityNames_ok l :
  validateCapabilityNames l = Ok () ↔ Forall (λ n, TrimSpace n ≠ "") l.
Proof.
  unfold validateCapabilityNames. destruct (existsb _ l) eqn:E.
  - apply existsb_exists in E as (n & Hn & Hb%bool_decide_eq_true).
    split; [done|]. rewrite Forall_forall. intros Hall. by destruct (Hall n); [apply list_elem_of_In|].
  - split; [intros _|done]. apply Forall_forall. intros n Hn Hb.
    apply not_true_iff_false in E. apply E, existsb_exists.
    exists n. split; [by apply list_elem_of_In|by apply bool_decide_eq_true].
Qed.

(** What a validated request satisfies. *)
Record valid_request (r : RegistrationRequest) : Prop := {
  vr_name : matches_service_name (TrimSpace r.(rq_ServiceName)) = true;
  vr_host : validateHost (TrimSpace r.(rq_Listen).(lc_Host)) = Ok ();
  vr_host_ne : TrimSpace r.(rq_Listen).(lc_Host) ≠ "";
  vr_port : (1 <= r.(rq_Listen).(lc_Port) <= 65535)%Z;
  vr_protocol : TrimSpace (ToLower r.(rq_Listen).(lc_Protocol)) ∈ [""; "http"; "https"];
  vr_some : r.(rq_Capabilities).(Tools) ++ r.(rq_Capabilities).(Resources)
              ++ r.(rq_Capabilities).(Prompts) ≠ [];
  vr_names : Forall (λ n, TrimSpace n ≠ "")
    (r.(rq_Capabilities).(Tools) ++ r.(rq_Capabilities).(Resources)
       ++ r.(rq_Capabilities).(Prompts));
}.

Lemma protocol_allowed p :
  negb (bool_decide (p = "")) && negb (bool_decide (p = "http")) && negb (bool_decide (p = "https"))
    = false ↔ p ∈ [""; "http"; "https"].
Proof.
  rewrite !elem_of_cons, elem_of_nil. repeat case_bool_decide; simpl; naive_solver.
Qed.

Lemma no_capabilities (t r p : list string) :
  bool_decide (t = []) && bool_decide (r = []) && bool_decide (p = []) = false ↔ t ++ r ++ p ≠ [].
Proof. destruct t, r, p; simpl; naive_solver. Qed.

Lemma Validate_ok r : Validate r = Ok () ↔ valid_request r.
Proof.
  unfold Validate. destruct (matches_service_name _) eqn:Hn; cbn [negb];
    [|split; [discriminate|intros []; congruence]].
  case_bool_decide as Hh; [split; [discriminate|intros []; congruence]|].
  destruct (validateHost _) as [|[]] eqn:Hv; [split; [discriminate|intros []; congruence]|].
  destruct ((_ <? 1)%Z || _) eqn:Hp; [split; [discriminate|intros [_ _ _ ? _ _ _]; lia]|].
  destruct (negb _ && _ && _) eqn:Hpr.
  { split; [discriminate|intros [_ _ _ _ Hin%protocol_allowed _ _]; congruence]. }
  destruct (bool_decide _ && _ && _) eqn:Hc.
  { split; [discriminate|intros [_ _ _ _ _ Hne%no_capabilities _]; congruence]. }
  apply protocol_allowed in Hpr. apply no_capabilities in Hc.
  transitivity (Forall (λ n, TrimSpace n ≠ "")
    (r.(rq_Capabilities).(Tools) ++ r.(rq_Capabilities).(Resources) ++ r.(rq_Capabilities).(Prompts))).
  - rewrite !Forall_app, <- !validateCapabilityNames_ok.
    destruct (validateCapabilityNames (Tools _)) as [|[]]; [naive_solver|].
    destruct (validateCapabilityNames (Resources _)) as [|[]]; naive_solver.
  - split; [|by intros []]. intros Hf. split; try assumption. lia.
Qed.

(** The addresses that must not be dialled: loopback, link-local (which
    contains the metadata address), and the unspecified address, also in their
    IPv4-mapped form. *)
Definition blocked_address (ip : list N) : Prop :=
  (∃ b c d, ip = v4_prefix ++ [127; b; c; d]%N) ∨ ip = IPv6loopback ∨
  (∃ c d, ip = v4_prefix ++ [169; 254; c; d]%N) ∨
  (∃ b rest, ip = 254%N :: b :: rest ∧ (128 <= b < 192)%N) ∨
  ip = v4_prefix ++ [0; 0; 0; 0]%N ∨ ip = IPv6unspecified.

Lemma land_fe80 b : (128 <= b < 192)%N → N.land b 192 = 128%N.
Proof.
  intros Hb. assert (Hall : Forall (λ x, N.land x 192 = 128%N) (N.of_nat <$> seq 128 64)).
  { by_evaluation. }
  rewrite Forall_forall in Hall. apply Hall, list_elem_of_fmap. exists (N.to_nat b).
  split; [lia|]. apply elem_of_seq. lia.
Qed.

Lemma validateIP_blocks ip : blocked_address ip → validateIP ip ≠ Ok ().
Proof.
  intros [(b&c&d&->) | [-> | [(c&d&->) | [(b&rest&->&Hb) | [-> | ->] ] ] ] ] Hok;
    try (vm_compute in Hok; discriminate Hok).
  revert Hok. unfold validateIP, IsLoopback, IsLinkLocalUnicast, IsLinkLocalMulticast, To4.
  rewrite bool_decide_eq_false_2 by discriminate. unfold octet. cbn [nth].
  rewrite (land_fe80 b Hb), !N.eqb_refl, orb_true_r. discriminate.
Qed.

(** No request that passes validation names, as an IP literal, a loopback,
    link-local, metadata or unspecified address, in IPv4, IPv6 or IPv4-mapped
    form, with or without brackets and trailing dots; its port is a TCP port
    and its protocol http or https when given. *)
Theorem validated_host_safe r ip :
  Validate r = Ok () →
  ParseIP (normalize_host (TrimSpace r.(rq_Listen).(lc_Host))) = Some ip →
  ¬ blocked_address ip ∧ (1 <= r.(rq_Listen).(lc_Port) <= 65535)%Z ∧
  TrimSpace (ToLower r.(rq_Listen).(lc_Protocol)) ∈ [""; "http"; "https"].
Proof.
  intros [_ Hh _ Hp Hpr _ _]%Validate_ok Hip. split; [|done]. intros Hb%validateIP_blocks.
  apply Hb. revert Hh. unfold validateHost. rewrite Hip.
  destruct (existsb _ _); [done|]. by destruct (validateIP ip) as [|[]].
Qed.

End validate.

#[local] Existing Instance ascii_tables.

Definition example_request (host : string) : RegistrationRequest :=
  mkRegistrationRequest "files" "1.0.0" (mkListenConfig host 8080 "http")
    (mkCapability ["read_file"] [] []).

Lemma validated_host_safe_witness :
  Validate (example_request "10.1.2.3") = Ok () ∧
  ¬ blocked_address (v4_prefix ++ [10; 1; 2; 3]%N).
Proof.
  split; [by vm_compute|].
  refine (proj1 (validated_host_safe (example_request "10.1.2.3") _ _ _)); by vm_compute.
Defined.

(** The check is on the text of the host, which is then pasted into a URL:
    a host with user information, or an IPv6 literal with a zone, is accepted
    although the URL the backend client builds from it names a loopback
    address. *)
Theorem host_check_bypass :
  (Validate (example_request "x@127.0.0.1") = Ok () ∧
   url_Parse (baseURL "http" "x@127.0.0.1" 8080) =
     Some (mkURL "http" "127.0.0.1:8080" "/mcp") ∧
   validateHost "127.0.0.1" ≠ Ok ()) ∧
  (Validate (example_request "[::1%25lo]") = Ok () ∧
   url_Parse (baseURL "http" "[::1%25lo]" 8080) =
     Some (mkURL "http" "[::1%lo]:8080" "/mcp") ∧
   validateHost "[::1]" ≠ Ok ()).
Proof. split_and!; by vm_compute. Qed.
