(* ===== verification/Store.v ===== *)
(** * The database: [internal/store/server_store.go], [tool_classification_store.go]

    The tables [mcp_servers] and [tool_classifications] of the migrations, and
    one function per method of the Postgres stores, with the semantics of its
    SQL statement: which rows it matches, which columns it writes, and the
    values the scan reads back from them. PostgreSQL itself is a parameter
    ([Postgres]) where its answer is not determined by the statement: how it
    reads a UUID and which UUIDs it generates. Any statement can also fail
    without effect: [db_faults] schedules the failures.

    Texts are those PostgreSQL stores (valid UTF-8 without NUL). Timestamps are
    kept at nanoseconds; the microsecond rounding of the columns is left out. *)

From S2P Require Import Prelude GoStrings GoNet Types.

#[local] Open Scope string_scope.
#[local] Open Scope list_scope.
#[local] Open Scope nat_scope.
#[local] Open Scope go_scope.

(** ** PostgreSQL *)

Class Postgres := {
  (** The canonical form of a text read as a UUID; [None] when the text is not
      one, which makes the statement fail. *)
  uuid_in : string → option string;
  (** The n-th value of [gen_random_uuid()]. *)
  gen_random_uuid : nat → string;
}.

(** The documented behaviour the code relies on: the canonical form reads as
    itself and is a non-empty text without white space, and generated ids are
    canonical and do not repeat. *)
Class PostgresLaws `(Postgres) : Prop := {
  uuid_in_canonical : ∀ s c, uuid_in s = Some c → uuid_in c = Some c;
  uuid_in_gen : ∀ n, uuid_in (gen_random_uuid n) = Some (gen_random_uuid n);
  gen_inj : ∀ m n, gen_random_uuid m = gen_random_uuid n → m = n;
  uuid_in_nonblank : ∀ s c, uuid_in s = Some c → TrimSpace c = c ∧ c ≠ "";
}.

Record DB := mkDB {
  db_now : Z;
  db_servers : gmap string ServerRecord;
  db_classifications : gmap string ToolClassification;
  db_faults : list bool;
  db_next : nat;
}.

Definition set_servers (t : gmap string ServerRecord) (db : DB) : DB :=
  mkDB db.(db_now) t db.(db_classifications) db.(db_faults) db.(db_next).
Definition set_classifications (t : gmap string ToolClassification) (db : DB) : DB :=
  mkDB db.(db_now) db.(db_servers) t db.(db_faults) db.(db_next).
Definition set_faults (f : list bool) (db : DB) : DB :=
  mkDB db.(db_now) db.(db_servers) db.(db_classifications) f db.(db_next).
Definition set_next (n : nat) (db : DB) : DB :=
  mkDB db.(db_now) db.(db_servers) db.(db_classifications) db.(db_faults) n.

(** [sql.ErrNoRows]. *)
Definition ErrNoRows : error := Sentinel "sql: no rows in result set".

(** One statement: it fails without effect when the schedule says so. *)
Definition statement {A} (f : ST DB A) : ST DB A := λ db,
  match db.(db_faults) with
  | true :: fs => (Err (Opaque "connection failed"), set_faults fs db)
  | false :: fs => f (set_faults fs db)
  | [] => f db
  end.

Definition wrap_error {A} (ctx : string) (m : ST DB A) : ST DB A := λ db,
  match m db with
  | (Err e, db') => (Err (Wrap ctx e), db')
  | r => r
  end.

(** ** Helpers of server_store.go *)

Definition maxInt64 (value minimum : Z) : Z := if (value <? minimum)%Z then minimum else value.

Definition RegistrationSyncState_String (s : RegistrationSyncState) : string :=
  match s with
  | SyncStateUnacked => "unacked"
  | SyncStateAcked => "acked"
  | SyncStateStale => "stale"
  | SyncStateRaw t => t
  end.

Definition normalizedSyncState (state : RegistrationSyncState) : string :=
  match state with
  | SyncStateAcked | SyncStateStale => RegistrationSyncState_String state
  | _ => RegistrationSyncState_String SyncStateUnacked
  end.

Definition routingStrategyOrDefault (s : string) : string :=
  let s := TrimSpace s in if bool_decide (s = "") then "round_robin" else s.

Definition protocol_or_https (protocol : string) : string :=
  let p := TrimSpace protocol in if bool_decide (p = "") then "https" else p.

Section store.
Context `{UnicodeTables} `{Postgres}.

Definition parseSyncState (raw : string) : RegistrationSyncState :=
  let normalized := ToLower (TrimSpace raw) in
  if bool_decide (normalized = "acked") then SyncStateAcked
  else if bool_decide (normalized = "stale") then SyncStateStale
  else SyncStateUnacked.

(** ** Server rows *)

(** A row is kept as the record the scan reads from it. These are the columns
    that [Create] and [Update] both write. *)
Definition written (record : ServerRecord) (id : string) (status : ServerStatus)
    (profile : string) (limit burst : option Z) (created updated : Z) : ServerRecord :=
  mkServerRecord id record.(Name) record.(SPIFFEID) record.(Version) record.(Host)
    record.(Port) (protocol_or_https record.(Protocol)) record.(Capabilities) status profile
    record.(LastHeartbeat) (maxInt64 record.(LeaseEpoch) 1)
    (TrimSpace record.(CapabilityHash))
    (parseSyncState (normalizedSyncState record.(SyncState)))
    (TrimSpace record.(LastPlatformAckVersion)) record.(LastPlatformAckAt)
    limit burst (routingStrategyOrDefault record.(RoutingStrategy)) created updated.

(** The row with a SPIFFE id: the column is unique. *)
Definition find_spiffe (t : gmap string ServerRecord) (sid : string) : option ServerRecord :=
  snd <$> head (filter (λ p, p.2.(SPIFFEID) = sid) (map_to_list t)).

(** The unique constraint, for writing [sid] to the row [id]. *)
Definition spiffe_taken (t : gmap string ServerRecord) (id sid : string) : bool :=
  match find_spiffe t sid with
  | Some r => negb (bool_decide (r.(ID) = id))
  | None => false
  end.

(** The column [port] is a 32-bit integer. *)
Definition int32_range (z : Z) : bool := (-2147483648 <=? z)%Z && (z <=? 2147483647)%Z.

(** [Create]. The statement does not name the column [id]: the row gets the
    default of the column, a generated UUID. *)
Definition Create (record : ServerRecord) : ST DB () :=
  let status := if bool_decide (record.(Status) = StatusRaw "") then StatusPending
                else record.(Status) in
  let profile := if bool_decide (record.(PolicyProfileName) = "") then "default"
                 else record.(PolicyProfileName) in
  wrap_error "server store" $ statement $ λ db,
    let id := gen_random_uuid db.(db_next) in
    let db := set_next (S db.(db_next)) db in
    if negb (int32_range record.(Port)) then (Err (Opaque "integer out of range"), db)
    else if bool_decide (is_Some (find_spiffe db.(db_servers) record.(SPIFFEID))) then
      (Err (Opaque "duplicate key value violates unique constraint"), db)
    else
      let row := written record id status profile None None db.(db_now) db.(db_now) in
      (Ok (), set_servers (<[id := row]> db.(db_servers)) db).

(** Runs an [UPDATE] or [DELETE] on the row with the given id, if there is one;
    returns the number of rows. *)
Definition on_row (id : string) (f : DB → ServerRecord → result (option ServerRecord)) : ST DB Z :=
  statement $ λ db,
    match uuid_in id with
    | None => (Err (Opaque "invalid input syntax for type uuid"), db)
    | Some c =>
        match db.(db_servers) !! c with
        | None => (Ok 0%Z, db)
        | Some row =>
            match f db row with
            | Err e => (Err e, db)
            | Ok None => (Ok 1%Z, set_servers (delete c db.(db_servers)) db)
            | Ok (Some row') => (Ok 1%Z, set_servers (<[c := row']> db.(db_servers)) db)
            end
        end
    end.

(** [Get]. *)
Definition Get (id : string) : ST DB ServerRecord :=
  wrap_error "server store" $ statement $ λ db,
    match uuid_in id with
    | None => (Err (Opaque "invalid input syntax for type uuid"), db)
    | Some c =>
        match db.(db_servers) !! c with
        | Some row => (Ok row, db)
        | None => (Err ErrNoRows, db)
        end
    end.

(** [GetBySPIFFEID]. *)
Definition GetBySPIFFEID (spiffeID : string) : ST DB ServerRecord :=
  wrap_error "server store" $ statement $ λ db,
    match find_spiffe db.(db_servers) spiffeID with
    | Some row => (Ok row, db)
    | None => (Err ErrNoRows, db)
    end.

(** [Update]; a record whose id matches no row is not an error. *)
Definition Update (record : ServerRecord) : ST DB () :=
  wrap_error "server store" $
    on_row record.(ID) (λ db row,
      if negb (int32_range record.(Port)) then Err (Opaque "integer out of range")
      else if spiffe_taken db.(db_servers) row.(ID) record.(SPIFFEID) then
        Err (Opaque "duplicate key value violates unique constraint")
      else Ok (Some (written record row.(ID) record.(Status) record.(PolicyProfileName)
                       row.(RateLimit) row.(RateBurst) row.(CreatedAt) db.(db_now)))) ;;
    ret ().

(** [UpdateStatus]. *)
Definition UpdateStatus (id : string) (status : ServerStatus) : ST DB () :=
  wrap_error "server store" $
    on_row id (λ db row, Ok (Some (set_updated_at db.(db_now) (set_status status row)))) ;;
    ret ().

(** [UpdateHeartbeat]. *)
Definition UpdateHeartbeat (id : string) : ST DB () :=
  wrap_error "server store" $
    on_row id (λ db row,
      Ok (Some (set_updated_at db.(db_now) (set_last_heartbeat (Some db.(db_now)) row)))) ;;
    ret ().

(** [UpdateRateLimit]; the check constraints of the columns make it fail. *)
Definition rate_ok (limit burst : option Z) : bool :=
  (match limit with Some l => (0 <=? l)%Z && int32_range l | None => true end) &&
  (match burst with
   | Some b => (0 <=? b)%Z && int32_range b && bool_decide (is_Some limit)
   | None => true
   end).

Definition UpdateRateLimit (id : string) (rateLimit rateBurst : option Z) : ST DB () :=
  wrap_error "server store" $
    on_row id (λ db row,
      if rate_ok rateLimit rateBurst
      then Ok (Some (set_updated_at db.(db_now) (set_rate rateLimit rateBurst row)))
      else Err (Opaque "check constraint")) ;;
    ret ().

(** [Delete]. *)
Definition Delete (id : string) : ST DB () :=
  wrap_error "server store" $ on_row id (λ _ _, Ok None) ;; ret ().

(** The statement of [AcknowledgeRegistration]: the row must carry the lease
    epoch and, when one is given, the capability hash. *)
Definition ack_statement (id : string) (leaseEpoch : Z) (hash version : string) (ackedAt : Z) :
    ST DB Z :=
  statement $ λ db,
    match uuid_in id with
    | None => (Err (Opaque "invalid input syntax for type uuid"), db)
    | Some c =>
        match db.(db_servers) !! c with
        | None => (Ok 0%Z, db)
        | Some row =>
            if (row.(LeaseEpoch) =? leaseEpoch)%Z
               && (bool_decide (hash = "") || bool_decide (row.(CapabilityHash) = hash)) then
              let row' := set_updated_at db.(db_now)
                (set_ack (parseSyncState (RegistrationSyncState_String SyncStateAcked))
                   version (Some ackedAt) row) in
              (Ok 1%Z, set_servers (<[c := row']> db.(db_servers)) db)
            else (Ok 0%Z, db)
        end
    end.

(** [AcknowledgeRegistration]; no row is [ErrNoRows], not wrapped. *)
Definition AcknowledgeRegistration (id : string) (leaseEpoch : Z)
    (capabilityHash ackVersion : string) (ackedAt : Z) : ST DB () :=
  let* affected := wrap_error "server store"
    (ack_statement (TrimSpace id) leaseEpoch (TrimSpace capabilityHash) (TrimSpace ackVersion) ackedAt) in
  if (affected =? 0)%Z then throw ErrNoRows else ret ().

(** The rows a query returns, by [last_heartbeat]; a null heartbeat compares
    with nothing. *)
Definition heartbeat_le (a b : ServerRecord) : Prop :=
  match a.(LastHeartbeat), b.(LastHeartbeat) with
  | Some x, Some y => (x <= y)%Z
  | None, _ => True
  | Some _, None => False
  end.

#[export] Instance heartbeat_le_dec : RelDecision heartbeat_le.
Proof.
  unfold RelDecision, heartbeat_le. intros a b.
  destruct (LastHeartbeat a), (LastHeartbeat b); apply _.
Defined.

Definition older_than (db : DB) (age : Z) (r : ServerRecord) : bool :=
  match r.(LastHeartbeat) with
  | Some h => (h <? db.(db_now) - age)%Z
  | None => false
  end.

Definition select_servers (p : DB → ServerRecord → bool) : ST DB (list ServerRecord) :=
  wrap_error "server store" $ statement $ λ db,
    (Ok (merge_sort heartbeat_le (filter (λ r, p db r = true) (map_to_list db.(db_servers)).*2)), db).

(** The conditions of [ListStale] and [ListExpired]: active servers whose
    heartbeat is older than the threshold; active or stale servers whose
    heartbeat is older than three times the threshold. *)
Definition stale_row (threshold : Z) (db : DB) (r : ServerRecord) : bool :=
  older_than db threshold r && bool_decide (r.(Status) = StatusActive).
Definition expired_row (threshold : Z) (db : DB) (r : ServerRecord) : bool :=
  older_than db (threshold * 3) r &&
  (bool_decide (r.(Status) = StatusActive) || bool_decide (r.(Status) = StatusStale)).

(** [ListStale]. *)
Definition ListStale (threshold : Z) : ST DB (list ServerRecord) :=
  if (threshold <=? 0)%Z then throw (Opaque "server store: threshold must be positive")
  else select_servers (stale_row threshold).

(** [ListExpired]. *)
Definition ListExpired (threshold : Z) : ST DB (list ServerRecord) :=
  if (threshold <=? 0)%Z then throw (Opaque "server store: threshold must be positive")
  else select_servers (expired_row threshold).

(** ** Tool classifications *)

(** [PostgresToolClassificationStore.Get]: no row is not an error. *)
Definition ClassificationGet (toolName : string) : ST DB (option ToolClassification) :=
  wrap_error "tool classification store: get" $ statement $ λ db,
    (Ok (db.(db_classifications) !! TrimSpace toolName), db).

(** [Upsert]. *)
Definition ClassificationUpsert (c : ToolClassification) : ST DB () :=
  let name := TrimSpace c.(tc_ToolName) in
  wrap_error "tool classification store: upsert" $ statement $ λ db,
    let row := mkToolClassification name c.(tc_RiskLevel) c.(tc_Reason) c.(tc_AutoClassified)
                 c.(tc_UpdatedBy) c.(tc_UpdatedAt) in
    (Ok (), set_classifications (<[name := row]> db.(db_classifications)) db).

(** [Delete]. *)
Definition ClassificationDelete (toolName : string) : ST DB () :=
  wrap_error "tool classification store: delete" $ statement $ λ db,
    (Ok (), set_classifications (delete (TrimSpace toolName) db.(db_classifications)) db).

(** [DeleteNotIn]: with no active tool left after trimming, everything goes. *)
Definition DeleteNotIn (activeToolNames : list string) : ST DB Z :=
  let normalized := filter (λ n, n ≠ "") (TrimSpace <$> activeToolNames) in
  wrap_error "tool classification store: delete not in" $ statement $ λ db,
    let kept := filter (λ p, p.1 ∈ normalized) db.(db_classifications) in
    (Ok (Z.of_nat (size db.(db_classifications) - size kept)), set_classifications kept db).

End store.

(** ** The table invariant *)

Section invariant.
Context `{UnicodeTables} `{PostgresLaws}.

(** Rows are filed under their own canonical id, SPIFFE ids are unique, lease
    epochs are positive, and ids still to be generated are free. *)
Record db_ok (db : DB) : Prop := {
  ok_key : ∀ id r, db.(db_servers) !! id = Some r → r.(ID) = id ∧ uuid_in id = Some id;
  ok_spiffe : ∀ i j r s, db.(db_servers) !! i = Some r → db.(db_servers) !! j = Some s →
    r.(SPIFFEID) = s.(SPIFFEID) → i = j;
  ok_lease : ∀ id r, db.(db_servers) !! id = Some r → (1 <= r.(LeaseEpoch))%Z;
  ok_fresh : ∀ n, db.(db_next) <= n → db.(db_servers) !! gen_random_uuid n = None;
}.

Lemma find_spiffe_Some t sid r :
  find_spiffe t sid = Some r → ∃ id, t !! id = Some r ∧ r.(SPIFFEID) = sid.
Proof.
  unfold find_spiffe. intros Hf.
  destruct (filter _ _) as [|[id r'] l] eqn:E; simpl in Hf; [done|]. simplify_eq.
  assert (Hin : (id, r) ∈ filter (λ p : string * ServerRecord, p.2.(SPIFFEID) = sid) (map_to_list t)).
  { rewrite E. left. }
  apply list_elem_of_filter in Hin as [Hs Hin%elem_of_map_to_list]. eauto.
Qed.

Lemma find_spiffe_None t sid :
  find_spiffe t sid = None ↔ ∀ id r, t !! id = Some r → r.(SPIFFEID) ≠ sid.
Proof.
  unfold find_spiffe. split.
  - intros Hf id r Hr Hs. destruct (filter _ _) as [|? l] eqn:E; [|done].
    assert (Hin : (id, r) ∈ filter (λ p : string * ServerRecord, p.2.(SPIFFEID) = sid) (map_to_list t)).
    { apply list_elem_of_filter. by rewrite elem_of_map_to_list. }
    rewrite E in Hin. by apply not_elem_of_nil in Hin.
  - intros Hn. destruct (filter _ _) as [|[id r] l] eqn:E; [done|].
    assert (Hin : (id, r) ∈ filter (λ p : string * ServerRecord, p.2.(SPIFFEID) = sid) (map_to_list t)).
    { rewrite E. left. }
    apply list_elem_of_filter in Hin as [Hs Hin%elem_of_map_to_list]. by destruct (Hn id r).
Qed.

Lemma find_spiffe_unique db id r :
  db_ok db → db.(db_servers) !! id = Some r → find_spiffe db.(db_servers) r.(SPIFFEID) = Some r.
Proof.
  intros Hok Hr. destruct (find_spiffe _ _) as [r'|] eqn:E.
  - apply find_spiffe_Some in E as (id' & Hr' & Hs).
    rewrite (ok_spiffe _ Hok _ _ _ _ Hr' Hr Hs) in Hr'. congruence.
  - by destruct (proj1 (find_spiffe_None _ _) E id r Hr).
Qed.

(** Only the tables and the generator matter to the invariant. *)
Lemma db_ok_faults f db : db_ok (set_faults f db) ↔ db_ok db.
Proof. split; intros [? ? ? ?]; by split. Qed.

Lemma db_ok_classifications t db : db_ok (set_classifications t db) ↔ db_ok db.
Proof. split; intros [? ? ? ?]; by split. Qed.

Lemma db_ok_next n db : db.(db_next) <= n → db_ok db → db_ok (set_next n db).
Proof. intros Hn [? ? ? Hf]. split; try done. intros m Hm. simpl in *. apply Hf. lia. Qed.

(** Replacing a row by one with the same id. *)
Lemma db_ok_replace db id r r' :
  db_ok db → db.(db_servers) !! id = Some r → r'.(ID) = id → (1 <= r'.(LeaseEpoch))%Z →
  (∀ j s, db.(db_servers) !! j = Some s → s.(SPIFFEID) = r'.(SPIFFEID) → j = id) →
  db_ok (set_servers (<[id := r']> db.(db_servers)) db).
Proof.
  intros [Hk Hs Hl Hf] Hr Hid Hle Hu. split; simpl.
  - intros j s. destruct (decide (j = id)) as [->|].
    + rewrite lookup_insert_eq. intros [= <-]. by destruct (Hk _ _ Hr).
    + rewrite lookup_insert_ne by done. apply Hk.
  - intros i j a b. rewrite !lookup_insert_Some.
    intros [[<- <-]|[??]] [[<- <-]|[??]] Heq; eauto using eq_sym.
  - intros j s. rewrite lookup_insert_Some. naive_solver.
  - intros n Hn. rewrite lookup_insert_ne; [by apply Hf|].
    intros ->. by rewrite Hf in Hr.
Qed.

Lemma db_ok_delete id db : db_ok db → db_ok (set_servers (delete id db.(db_servers)) db).
Proof.
  intros [Hk Hs Hl Hf]. split; simpl.
  - intros j s [? ?]%lookup_delete_Some. by apply Hk.
  - intros i j a b [? Ha]%lookup_delete_Some [? Hb]%lookup_delete_Some. eauto.
  - intros j s [? ?]%lookup_delete_Some. eauto.
  - intros n Hn. apply lookup_delete_None. auto.
Qed.

Lemma db_ok_insert db r :
  db_ok db → r.(ID) = gen_random_uuid db.(db_next) → (1 <= r.(LeaseEpoch))%Z →
  find_spiffe db.(db_servers) r.(SPIFFEID) = None →
  db_ok (set_servers (<[r.(ID) := r]> db.(db_servers)) (set_next (S db.(db_next)) db)).
Proof.
  intros [Hk Hs Hl Hf] Hid Hle Hnone. pose proof (proj1 (find_spiffe_None _ _) Hnone) as Hn.
  split; simpl.
  - intros j s. rewrite lookup_insert_Some. intros [[<- <-]|[??]]; [|by apply Hk].
    split; [done|]. rewrite Hid. apply uuid_in_gen.
  - intros i j a b. rewrite !lookup_insert_Some.
    intros [[<- <-]|[??]] [[<- <-]|[??]] Heq; eauto; [by destruct (Hn j b)|by destruct (Hn i a)].
  - intros j s. rewrite lookup_insert_Some. naive_solver.
  - intros n Hge. rewrite lookup_insert_ne; [apply Hf; lia|].
    rewrite Hid. intros Heq%gen_inj. lia.
Qed.

(** A call keeps the invariant. *)
Abbreviation keeps := (preserves db_ok).

Lemma keeps_statement {A} (m : ST DB A) : keeps m → keeps (statement m).
Proof.
  intros Hm db Hdb. unfold statement. destruct (db_faults db) as [|[] fs]; [by apply Hm|..].
  - simpl. by apply db_ok_faults.
  - apply Hm. by apply db_ok_faults.
Qed.

Lemma keeps_wrap {A} ctx (m : ST DB A) : keeps m → keeps (wrap_error ctx m).
Proof.
  intros Hm db Hdb. unfold wrap_error. specialize (Hm db Hdb). by destruct (m db) as [[|] ?].
Qed.

Lemma keeps_on_row id f :
  (∀ db row, db_ok db → db.(db_servers) !! row.(ID) = Some row →
     match f db row with
     | Ok (Some row') =>
         row'.(ID) = row.(ID) ∧ (1 <= row'.(LeaseEpoch))%Z ∧
         (row'.(SPIFFEID) = row.(SPIFFEID) ∨ spiffe_taken db.(db_servers) row.(ID) row'.(SPIFFEID) = false)
     | _ => True
     end) → keeps (on_row id f).
Proof.
  intros Hf. apply keeps_statement. intros db Hdb. simpl.
  destruct (uuid_in id) as [c|]; simpl; [|done].
  destruct (db_servers db !! c) as [row|] eqn:Hr; simpl; [|done].
  destruct (ok_key _ Hdb _ _ Hr) as [<- _]. specialize (Hf db row Hdb Hr).
  destruct (f db row) as [|[row'|]]; simpl; [done| |by apply db_ok_delete].
  destruct Hf as (Hid & Hle & Hsp). apply (db_ok_replace db _ row); try done.
  intros j s Hj Hs. destruct Hsp as [Hsp|Hsp].
  - eapply (ok_spiffe _ Hdb); eauto; congruence.
  - unfold spiffe_taken in Hsp. rewrite <- Hs in Hsp.
    rewrite (find_spiffe_unique _ _ _ Hdb Hj) in Hsp. reflect_bools.
    destruct (ok_key _ Hdb _ _ Hj). congruence.
Qed.

Lemma maxInt64_ge v : (1 <= maxInt64 v 1)%Z.
Proof. unfold maxInt64. destruct (Z.ltb_spec v 1); lia. Qed.
#[local] Hint Resolve maxInt64_ge : gateway.
#[local] Hint Resolve keeps_statement keeps_wrap : gateway.

Lemma keeps_Create r : keeps (Create r).
Proof.
  apply keeps_wrap, keeps_statement. intros db Hdb. simpl.
  destruct (int32_range _); simpl; [|apply db_ok_next; [lia|done]].
  case_bool_decide as Hf; simpl; [apply db_ok_next; [lia|done]|].
  apply (db_ok_insert db (written r _ _ _ _ _ _ _)); simpl; auto with gateway.
  by apply eq_None_not_Some.
Qed.

Lemma keeps_row_update {A} id f (x : A) :
  (∀ db row, match f db row with
     | Ok (Some row') =>
         row'.(ID) = row.(ID) ∧ row'.(LeaseEpoch) = row.(LeaseEpoch) ∧
         row'.(SPIFFEID) = row.(SPIFFEID)
     | _ => True
     end) → keeps (wrap_error "server store" (on_row id f) ;; ret x).
Proof.
  intros Hf. apply preserves_bind; [|intros; apply preserves_ret]. apply keeps_wrap, keeps_on_row.
  intros db row Hdb Hr. specialize (Hf db row). destruct (f db row) as [|[row'|]]; try done.
  destruct Hf as (-> & -> & ->). split_and!; [done| |by left]. by apply (ok_lease _ Hdb _ _ Hr).
Qed.

Lemma keeps_Update r : keeps (Update r).
Proof.
  apply preserves_bind; [|intros; apply preserves_ret]. apply keeps_wrap, keeps_on_row.
  intros db row Hdb Hr. destruct (int32_range _); simpl; [|done].
  destruct (spiffe_taken _ _ _) eqn:E; [done|]. simpl. auto with gateway.
Qed.

Lemma keeps_UpdateStatus id s : keeps (UpdateStatus id s).
Proof. by apply keeps_row_update. Qed.
Lemma keeps_UpdateHeartbeat id : keeps (UpdateHeartbeat id).
Proof. by apply keeps_row_update. Qed.
Lemma keeps_UpdateRateLimit id l b : keeps (UpdateRateLimit id l b).
Proof. apply keeps_row_update. intros. by destruct (rate_ok _ _). Qed.
Lemma keeps_Delete id : keeps (Delete id).
Proof. by apply keeps_row_update. Qed.

Lemma keeps_AcknowledgeRegistration id e h v t : keeps (AcknowledgeRegistration id e h v t).
Proof.
  apply preserves_bind; [|intros; destruct (_ =? _)%Z; auto with gateway].
  apply keeps_wrap, keeps_statement. intros db Hdb. simpl.
  destruct (uuid_in _) as [c|]; simpl; [|done].
  destruct (db_servers db !! c) as [row|] eqn:Hr; simpl; [|done].
  destruct (_ && _); simpl; [|done]. destruct (ok_key _ Hdb _ _ Hr) as [<- _].
  apply (db_ok_replace db _ row); simpl; try done; [by apply (ok_lease _ Hdb _ _ Hr)|].
  intros j s Hj Hs. by apply (ok_spiffe _ Hdb _ _ _ _ Hj Hr).
Qed.

End invariant.

#[export] Hint Resolve keeps_statement keeps_wrap keeps_Create
  keeps_Update keeps_UpdateStatus keeps_UpdateHeartbeat keeps_UpdateRateLimit keeps_Delete
  keeps_AcknowledgeRegistration : gateway.
