(* ===== verification/Json.v ===== *)
(** * Dynamic values

    The values Go decodes JSON into ([any]): [nil], [bool], [float64],
    [string], [\[\]any] and [map\[string\]any]. A map is the list of its entries
    in the order Go ranges over it, an order the language leaves open; what must
    not depend on that order is stated up to permutation. Numbers are IEEE 754
    doubles (Stdlib's [spec_float]). The text of a document has the same shape,
    with its members in the order they are written and its numbers as literals. *)

From Stdlib Require Export Floats.SpecFloat.
From S2P Require Import Prelude GoStrings.

Inductive json (N : Type) :=
| ANil
| ABool (b : bool)
| ANum (f : N)
| AStr (s : string)
| AArr (l : list (json N))
| AObj (m : list (string * json N)).
Arguments ANil {_}.
Arguments ABool {_}.
Arguments ANum {_}.
Arguments AStr {_}.
Arguments AArr {_}.
Arguments AObj {_}.

Abbreviation any := (json spec_float).
Abbreviation document := (json string).

(** Induction with hypotheses for the elements of arrays and objects. *)
Section any_ind.
Context {N : Type} (P : json N → Prop).
Context (Hnil : P ANil) (Hbool : ∀ b, P (ABool b)) (Hnum : ∀ f, P (ANum f)) (Hstr : ∀ s, P (AStr s)).
Context (Harr : ∀ l, Forall P l → P (AArr l)).
Context (Hobj : ∀ m, Forall (λ p, P p.2) m → P (AObj m)).

Fixpoint any_rect' (v : json N) : P v :=
  match v with
  | ANil => Hnil
  | ABool b => Hbool b
  | ANum f => Hnum f
  | AStr s => Hstr s
  | AArr l =>
      Harr l ((fix go l : Forall P l :=
        match l with [] => Forall_nil_2 _ | x :: l' => Forall_cons_2 _ _ _ (any_rect' x) (go l') end) l)
  | AObj m =>
      Hobj m ((fix go m : Forall (λ p, P p.2) m :=
        match m with
        | [] => Forall_nil_2 _
        | (k, x) :: m' => Forall_cons_2 _ (k, x) _ (any_rect' x) (go m')
        end) m)
  end.
End any_ind.

#[export] Instance spec_float_eq_dec : EqDecision spec_float.
Proof. solve_decision. Defined.

(** [m\[k\]] of a map with unique keys: the entry, if present. *)
Fixpoint lookup_key (m : list (string * any)) (k : string) : option any :=
  match m with
  | [] => None
  | (k', v) :: m' => if bool_decide (k' = k) then Some v else lookup_key m' k
  end.

(** [m\[k\] = v]. *)
Fixpoint assign {A} (m : list (string * A)) (k : string) (v : A) : list (string * A) :=
  match m with
  | [] => [(k, v)]
  | (k', v') :: m' => if bool_decide (k' = k) then (k, v) :: m' else (k', v') :: assign m' k v
  end.

Lemma assign_keys {A} (m : list (string * A)) k v x : x ∈ (assign m k v).*1 ↔ x = k ∨ x ∈ m.*1.
Proof.
  induction m as [|[k' v'] m IH]; simpl; [set_solver|].
  case_bool_decide; simpl; rewrite !elem_of_cons; [subst; naive_solver|]. rewrite IH. naive_solver.
Qed.

Lemma assign_NoDup {A} (m : list (string * A)) k v : NoDup m.*1 → NoDup (assign m k v).*1.
Proof.
  induction m as [|[k' v'] m IH]; simpl; intros H; [apply NoDup_singleton|].
  apply NoDup_cons in H as [Hk H]. case_bool_decide; simpl; apply NoDup_cons; subst.
  - done.
  - split; [|by apply IH]. rewrite assign_keys. naive_solver.
Qed.

(** ** Decoding into typed values

    [json.Unmarshal] decodes into a value that is there already: [null] leaves most
    values alone, the members of an object choose the fields of a struct up to case,
    an array is decoded element by element into the elements of the slice, and the
    entries of an object join those of the map. A value of the wrong type is skipped
    and makes the whole call fail in the end. A decoder returns the value it leaves
    behind, and whether it met no such error. *)

Abbreviation decoder_of N A := (json N → A → A * bool).
Abbreviation decoder A := (decoder_of spec_float A).

Definition d_string {N} : decoder_of N string := λ v cur,
  match v with AStr s => (s, true) | ANil => (cur, true) | _ => (cur, false) end.
Definition d_bool {N} : decoder_of N bool := λ v cur,
  match v with ABool b => (b, true) | ANil => (cur, true) | _ => (cur, false) end.
Definition d_map : decoder (list (string * any)) := λ v cur,
  match v with
  | AObj m => (foldl (λ acc p, assign acc p.1 p.2) cur m, true)
  | ANil => ([], true)
  | _ => (cur, false)
  end.

(** The elements past those of the slice start from [zero]. *)
Fixpoint d_elements {N A} (d : decoder_of N A) (zero : A) (l : list (json N)) (cur : list A) : list A * bool :=
  match l with
  | [] => ([], true)
  | v :: l' =>
      let '(x, ok) := d v (match cur with x :: _ => x | [] => zero end) in
      let '(xs, ok') := d_elements d zero l' (tail cur) in
      (x :: xs, ok && ok')
  end.
Definition d_slice {N A} (d : decoder_of N A) (zero : A) : decoder_of N (list A) := λ v cur,
  match v with AArr l => d_elements d zero l cur | ANil => ([], true) | _ => (cur, false) end.

Section structs.
Context `{UnicodeTables}.

(** The fields of a struct by the names of their keys. *)
Definition d_member {N A} (fields : list (string * decoder_of N A)) (acc : A * bool) (p : string * json N) : A * bool :=
  match List.find (λ f, EqualFold f.1 p.1) fields with
  | Some f => let '(x, ok) := f.2 p.2 acc.1 in (x, acc.2 && ok)
  | None => acc
  end.
Definition d_struct {N A} (fields : list (string * decoder_of N A)) : decoder_of N A := λ v cur,
  match v with
  | AObj m => foldl (d_member fields) (cur, true) m
  | ANil => (cur, true)
  | _ => (cur, false)
  end.

End structs.

(** A field: how to read it and how to put it back. *)
Definition field {N R A} (get : R → A) (set : A → R → R) (d : decoder_of N A) : decoder_of N R := λ v r,
  let '(x, ok) := d v (get r) in (set x r, ok).

(** What [json.Unmarshal] into a fresh value answers. *)
Definition unmarshal {N A} (d : decoder_of N A) (v : json N) (zero : A) : option A :=
  let '(x, ok) := d v zero in if ok then Some x else None.
