(* ===== verification/GoParse.v ===== *)
(** * Parsing numbers and durations

    [strconv.Atoi], [strconv.ParseBool], [strings.CutSuffix] and
    [time.ParseDuration], the last with its overflow checks and its [float64]
    fractions. *)

From S2P Require Import Prelude GoStrings GoNet GoFloat Json.

#[local] Open Scope string_scope.
#[local] Open Scope list_scope.
#[local] Open Scope nat_scope.
#[local] Open Scope go_scope.

(** [strconv.Atoi]: an optional sign and decimal digits, within [int64]. *)
Definition Atoi (s : string) : option Z :=
  let parse l := match l with [] => None | _ => Z.of_N <$> dec_value 0 l end in
  let v :=
    match to_bytes s with
    | a :: rest =>
        if bool_decide (a = "-"%char) then Z.opp <$> parse rest
        else if bool_decide (a = "+"%char) then parse rest
        else parse (a :: rest)
    | [] => None
    end in
  match v with
  | Some z => if (min_int64 <=? z)%Z && (z <=? max_int64)%Z then Some z else None
  | None => None
  end.

Lemma Atoi_range s z : Atoi s = Some z → int64_range z.
Proof.
  unfold Atoi. destruct (match to_bytes s with [] => _ | _ :: _ => _ end) as [v|]; [|done].
  destruct (_ && _) eqn:E; [|done]. intros [= <-]. apply andb_true_iff in E as [? ?].
  unfold int64_range. lia.
Qed.

(** [strconv.ParseBool]. *)
Definition ParseBool (s : string) : option bool :=
  if bool_decide (s ∈ ["1"; "t"; "T"; "TRUE"; "true"; "True"]) then Some true
  else if bool_decide (s ∈ ["0"; "f"; "F"; "FALSE"; "false"; "False"]) then Some false
  else None.

(** [strings.CutSuffix]. *)
Definition CutSuffix (s suffix : string) : option string :=
  if HasSuffix s suffix then Some (slice_to s (len s - len suffix)) else None.

(** ** [time.ParseDuration] *)

Definition is_digit (a : ascii) : bool := in_range 48 (code a) 57.
Definition dec_digit (a : ascii) : Z := Z.of_N (code a) - 48.
Definition two63 : Z := 9223372036854775808.

(** [leadingInt]: the digits at the front, [None] on overflow. *)
Fixpoint leadingInt (x : Z) (l : bytes) : option (Z * bytes) :=
  match l with
  | a :: l' =>
      if is_digit a then
        if (two63 / 10 <? x)%Z then None
        else
          let x := (x * 10 + dec_digit a)%Z in
          if (two63 <? x)%Z then None else leadingInt x l'
      else Some (x, l)
  | [] => Some (x, [])
  end.

(** [leadingFraction]: digits that would overflow are skipped. *)
Fixpoint leadingFraction (x : Z) (scale : spec_float) (overflow : bool) (l : bytes) : Z * spec_float * bytes :=
  match l with
  | a :: l' =>
      if is_digit a then
        if overflow then leadingFraction x scale true l'
        else if ((two63 - 1) / 10 <? x)%Z then leadingFraction x scale true l'
        else
          let y := (x * 10 + dec_digit a)%Z in
          if (two63 <? y)%Z then leadingFraction x scale true l'
          else leadingFraction y (f_mul scale (f_of_Z 10)) false l'
      else (x, scale, l)
  | [] => (x, scale, [])
  end.

(** The bytes up to the next digit or dot. *)
Fixpoint unit_text (l : bytes) : bytes * bytes :=
  match l with
  | a :: l' =>
      if is_digit a || bool_decide (a = "."%char) then ([], l)
      else let '(u, rest) := unit_text l' in (a :: u, rest)
  | [] => ([], [])
  end.

Lemma unit_text_length l : length (unit_text l).2 <= length l.
Proof.
  induction l as [|a l IH]; simpl; [done|]. destruct (_ || _); [done|].
  destruct (unit_text l). simpl in *. lia.
Qed.

(** [unitMap]; the two spellings of micro are U+00B5 and U+03BC. *)
Definition unit_of (u : bytes) : option Z :=
  let micro a b := [ascii_of_N a; ascii_of_N b; "s"%char] in
  if bool_decide (u = to_bytes "ns") then Some nanosecond
  else if bool_decide (u ∈ [to_bytes "us"; micro 194%N 181%N; micro 206%N 188%N]) then Some microsecond
  else if bool_decide (u = to_bytes "ms") then Some millisecond
  else if bool_decide (u = to_bytes "s") then Some second
  else if bool_decide (u = to_bytes "m") then Some minute
  else if bool_decide (u = to_bytes "h") then Some (60 * minute)%Z
  else None.

(** [v * unit + f * (unit / scale)], [None] on overflow. *)
Definition scaled (v unit f : Z) (scale : spec_float) : option Z :=
  if (two63 / unit <? v)%Z then None
  else
    let v := (v * unit)%Z in
    if (0 <? f)%Z then
      let v := wrap_u64 (v + f_to_i64 (f_mul (f_of_Z f) (f_div (f_of_Z unit) scale))) in
      if (two63 <? v)%Z then None else Some v
    else Some v.

(** One element of the duration and the rest of the text. *)
Definition duration_element (l : bytes) : option (Z * bytes) :=
  match l with
  | [] => None
  | a :: _ =>
      if negb (bool_decide (a = "."%char) || is_digit a) then None
      else
        match leadingInt 0 l with
        | None => None
        | Some (v, l1) =>
            let pre := negb (length l =? length l1) in
            let '(f, scale, l2, post) :=
              match l1 with
              | b :: l1' =>
                  if bool_decide (b = "."%char) then
                    let '(f, scale, l2) := leadingFraction 0 f_one false l1' in
                    (f, scale, l2, negb (length l1' =? length l2))
                  else (0%Z, f_one, l1, false)
              | [] => (0%Z, f_one, l1, false)
              end in
            if negb pre && negb post then None
            else
              match unit_text l2 with
              | ([], _) => None
              | (u, rest) =>
                  match unit_of u with
                  | None => None
                  | Some unit =>
                      match scaled v unit f scale with
                      | Some v => Some (v, rest)
                      | None => None
                      end
                  end
              end
        end
  end.

(** The loop over the elements; each takes at least one byte, so the length of
    the text is enough fuel. *)
Fixpoint duration_elements (fuel : nat) (d : Z) (l : bytes) : option Z :=
  match l, fuel with
  | [], _ => Some d
  | _, O => None
  | _, S fuel =>
      match duration_element l with
      | None => None
      | Some (v, rest) =>
          let d := wrap_u64 (d + v) in
          if (two63 <? d)%Z then None else duration_elements fuel d rest
      end
  end.

(** [time.ParseDuration]. *)
Definition ParseDuration (s : string) : option Z :=
  let l := to_bytes s in
  let '(neg, l) :=
    match l with
    | a :: l' =>
        if bool_decide (a = "-"%char) then (true, l')
        else if bool_decide (a = "+"%char) then (false, l')
        else (false, l)
    | [] => (false, [])
    end in
  if bool_decide (l = to_bytes "0") then Some 0%Z
  else
    match l with
    | [] => None
    | _ =>
        match duration_elements (length l) 0 l with
        | None => None
        | Some d =>
            if neg then Some (wrap_i64 (- wrap_i64 d))
            else if (two63 - 1 <? d)%Z then None else Some d
        end
    end.

Lemma duration_element_length l v rest :
  duration_element l = Some (v, rest) → length rest < length l.
Proof.
  assert (Hint : ∀ l x y r, leadingInt x l = Some (y, r) → length r <= length l).
  { clear. induction l as [|a l IH]; simpl; intros x y r; [intros [= <- <-]; done|].
    destruct (is_digit a); [|intros [= <- <-]; done].
    destruct (_ <? _)%Z; [done|]. destruct (_ <? _)%Z; [done|]. intros E%IH. simpl. lia. }
  assert (Hfrac : ∀ l x sc o, length (leadingFraction x sc o l).2 <= length l).
  { clear. induction l as [|a l IH]; simpl; intros x sc o; [done|].
    destruct (is_digit a); [|done]. destruct o; [specialize (IH x sc true); lia|].
    destruct (_ <? x)%Z; [specialize (IH x sc true); lia|].
    destruct (_ <? _)%Z; [specialize (IH x sc true); lia|].
    etrans; [apply IH|]. lia. }
  assert (Hunit : ∀ l u r, unit_text l = (u, r) → u ≠ [] → length r < length l).
  { clear. intros l u r E Hu. destruct l as [|a l]; [by injection E as <- <-|].
    simpl in E. destruct (_ || _); [by injection E as <- <-|].
    pose proof (unit_text_length l). destruct (unit_text l) as [u' r'].
    injection E as <- <-. simpl in *. lia. }
  unfold duration_element. destruct l as [|a l]; [done|]. destruct (negb _); [done|].
  destruct (leadingInt 0 (a :: l)) as [[x l1]|] eqn:E1; [|done]. apply Hint in E1.
  set (q := match l1 with [] => _ | _ :: _ => _ end).
  assert (Hq : length q.1.2 <= length l1).
  { subst q. destruct l1 as [|b l1]; [done|]. destruct (bool_decide _); [|done].
    pose proof (Hfrac l1 0%Z f_one false). destruct (leadingFraction 0 f_one false l1) as [[f sc] l2].
    simpl in *. lia. }
  destruct q as [[[f sc] l2] post]. simpl in Hq. destruct (negb _ && _); [done|].
  destruct (unit_text l2) as [[|u us] r] eqn:E2; [done|].
  apply Hunit in E2; [|done]. destruct (unit_of _) as [unit|]; [|done].
  destruct (scaled _ _ _ _); [|done]. intros [= <- <-]. lia.
Qed.

(** More fuel than the length changes nothing. *)
Lemma duration_elements_fuel n d l :
  length l <= n → duration_elements n d l = duration_elements (length l) d l.
Proof.
  revert d l. induction n as [n IH] using lt_wf_ind. intros d l Hn.
  destruct l as [|a l]; [by destruct n|]. destruct n as [|n]; [simpl in Hn; lia|].
  cbn [duration_elements length]. destruct (duration_element (a :: l)) as [[v rest]|] eqn:E; [|done].
  apply duration_element_length in E. cbn [length] in *. destruct (_ <? _)%Z; [done|].
  rewrite (IH n) by lia. destruct (decide (length l = n)) as [->|]; [rewrite (IH n) by lia; done|].
  rewrite (IH (length l)) by lia. done.
Qed.

(** Durations as the documentation writes them. *)
Example duration_examples :
  ParseDuration "300ms" = Some (300 * millisecond)%Z ∧
  ParseDuration "-1.5h" = Some (- 90 * minute)%Z ∧
  ParseDuration "2h45m" = Some (165 * minute)%Z ∧
  ParseDuration "1" = None ∧ ParseDuration "" = None ∧ ParseDuration "1d" = None.
Proof. by_evaluation. Qed.
