(* ===== verification/Classification.v ===== *)
(** * Risk classification: [internal/policy/classification.go], [classification_cache.go]

    The deterministic keyword classifier of tool names, and the cache of
    classifications in front of the database. *)

From S2P Require Import Prelude GoStrings Types.

#[local] Open Scope string_scope.
#[local] Open Scope list_scope.
#[local] Open Scope nat_scope.

(** ** The classifier *)

Definition destructiveKeywords : list string := [
  "delete"; "remove"; "destroy"; "drop"; "purge"; "erase"; "wipe"; "truncate";
  "kill"; "terminate"; "revoke"; "force"].

Definition writeKeywords : list string := [
  "create"; "update"; "set"; "put"; "post"; "write"; "add"; "insert";
  "modify"; "patch"; "upload"; "push"; "send"; "publish"; "assign";
  "enable"; "disable"; "configure"; "deploy"; "start"; "stop"; "restart"].

Definition readOnlyKeywords : list string := [
  "get"; "list"; "read"; "describe"; "show"; "fetch"; "query"; "search";
  "find"; "view"; "inspect"; "check"; "status"; "info"; "count"; "exists";
  "download"; "export"; "head"; "ping"; "health"; "version"].

(** [classifyByName]: the first keyword equal to a token, tokens first. *)
Fixpoint classifyByName (tokens keywords : list string) : string :=
  match tokens with
  | [] => ""
  | token :: rest =>
      if existsb (λ k, bool_decide (token = k)) keywords then token else classifyByName rest keywords
  end.

(** [classifyByDescription]. *)
Fixpoint classifyByDescription (desc : string) (keywords : list string) : string :=
  match keywords with
  | [] => ""
  | k :: rest => if Contains desc k then k else classifyByDescription desc rest
  end.

Definition nameClassificationRules : list (list string * RiskLevel * string) := [
  (destructiveKeywords, RiskDestructive, "destructive");
  (readOnlyKeywords, RiskReadOnly, "read-only");
  (writeKeywords, RiskWrite, "write")].

(** The first rule whose matcher returns a keyword. *)
Fixpoint first_rule (rules : list (list string * RiskLevel * string)) (matcher : list string → string)
    (what : string) : option (RiskLevel * string) :=
  match rules with
  | [] => None
  | (keywords, level, label) :: rest =>
      let keyword := matcher keywords in
      if bool_decide (keyword = "") then first_rule rest matcher what
      else Some (level, what +:+ " contains " +:+ label +:+ " keyword: " +:+ keyword)
  end.

(** The replacer of [splitToolName]. *)
Definition delimiter_to_space (a : ascii) : ascii :=
  if bool_decide (a ∈ [".";  "_"; "-"; "/"]%char) then " "%char else a.

Section classify.
Context `{UnicodeTables}.

(** [splitToolName]. *)
Definition splitToolName (name : string) : list string :=
  let normalized := ToLower (TrimSpace name) in
  let normalized := of_bytes (delimiter_to_space <$> to_bytes normalized) in
  filter (λ t, t ≠ "") (TrimSpace <$> Fields normalized).

(** [AutoClassify]. *)
Definition AutoClassify (toolName toolDescription : string) : RiskLevel * string :=
  let tokens := splitToolName toolName in
  match first_rule nameClassificationRules (classifyByName tokens) "name" with
  | Some r => r
  | None =>
      let desc := ToLower (TrimSpace toolDescription) in
      match (if bool_decide (desc = "") then None
             else first_rule nameClassificationRules (classifyByDescription desc) "description") with
      | Some r => r
      | None => (RiskUnknown, "no classification keywords found")
      end
  end.

(** *** Properties *)

(** A token of the list is one of the keywords. *)
Definition mentions (tokens keywords : list string) : Prop := ∃ t, t ∈ tokens ∧ t ∈ keywords.

Lemma classifyByName_empty tokens keywords :
  "" ∉ keywords → classifyByName tokens keywords = "" ↔ ¬ mentions tokens keywords.
Proof.
  intros Hne. unfold mentions. induction tokens as [|t ts IH]; simpl; [set_solver|].
  destruct (existsb _ _) eqn:E.
  - apply existsb_exists in E as (k & Hk%list_elem_of_In & ->%bool_decide_eq_true).
    split; [intros ->; done|]. intros Hn. destruct Hn. exists k. split; [left|done].
  - rewrite IH. apply not_true_iff_false in E. rewrite existsb_exists in E.
    setoid_rewrite <- list_elem_of_In in E. setoid_rewrite elem_of_cons.
    split; [|naive_solver]. intros Hn (x & [->|Hx] & Hk); [|naive_solver].
    apply E. exists t. by rewrite bool_decide_eq_true.
Qed.

(** The level the rules on the name give. *)
Definition name_level (tokens : list string) : option RiskLevel :=
  if bool_decide (classifyByName tokens destructiveKeywords = "") then
    if bool_decide (classifyByName tokens readOnlyKeywords = "") then
      if bool_decide (classifyByName tokens writeKeywords = "") then None
      else Some RiskWrite
    else Some RiskReadOnly
  else Some RiskDestructive.

Lemma classify_name_rules tokens :
  fst <$> first_rule nameClassificationRules (classifyByName tokens) "name" = name_level tokens.
Proof. unfold name_level. simpl. by repeat case_bool_decide. Qed.

Lemma name_level_spec tokens :
  (mentions tokens destructiveKeywords → name_level tokens = Some RiskDestructive) ∧
  (¬ mentions tokens destructiveKeywords → mentions tokens readOnlyKeywords →
     name_level tokens = Some RiskReadOnly) ∧
  (¬ mentions tokens destructiveKeywords → ¬ mentions tokens readOnlyKeywords →
     mentions tokens writeKeywords → name_level tokens = Some RiskWrite) ∧
  (name_level tokens = None ↔
     ¬ mentions tokens destructiveKeywords ∧ ¬ mentions tokens readOnlyKeywords ∧
     ¬ mentions tokens writeKeywords).
Proof.
  assert (Hd := classifyByName_empty tokens destructiveKeywords ltac:(by_evaluation)).
  assert (Hr := classifyByName_empty tokens readOnlyKeywords ltac:(by_evaluation)).
  assert (Hw := classifyByName_empty tokens writeKeywords ltac:(by_evaluation)).
  unfold name_level. generalize dependent (mentions tokens destructiveKeywords).
  generalize dependent (mentions tokens readOnlyKeywords).
  generalize dependent (mentions tokens writeKeywords). intros W Hw R Hr D Hd.
  repeat case_bool_decide; naive_solver.
Qed.

Lemma AutoClassify_level toolName desc :
  match name_level (splitToolName toolName) with
  | Some level => (AutoClassify toolName desc).1 = level
  | None => (AutoClassify toolName "").1 = RiskUnknown
  end.
Proof.
  rewrite <- classify_name_rules. unfold AutoClassify.
  by destruct (first_rule _ (classifyByName _) _) as [[level why]|].
Qed.

(** The classification of a name, whatever the description: a destructive
    keyword among its tokens always wins; without one a read-only keyword
    decides, then a write keyword. Only a name with no keyword at all is
    classified by its description, and without one it is unknown. *)
Theorem auto_classify_precedence toolName desc :
  let tokens := splitToolName toolName in
  let level := (AutoClassify toolName desc).1 in
  (mentions tokens destructiveKeywords → level = RiskDestructive) ∧
  (¬ mentions tokens destructiveKeywords → mentions tokens readOnlyKeywords →
     level = RiskReadOnly) ∧
  (¬ mentions tokens destructiveKeywords → ¬ mentions tokens readOnlyKeywords →
     mentions tokens writeKeywords → level = RiskWrite) ∧
  ((AutoClassify toolName "").1 = RiskUnknown ↔
     ¬ mentions tokens destructiveKeywords ∧ ¬ mentions tokens readOnlyKeywords ∧
     ¬ mentions tokens writeKeywords).
Proof.
  intros tokens level. destruct (name_level_spec tokens) as (Hd & Hr & Hw & Hn).
  pose proof (AutoClassify_level toolName desc) as Hl.
  pose proof (AutoClassify_level toolName "") as Hl0. fold tokens in Hl, Hl0. fold level in Hl.
  split_and!.
  - intros H1. by rewrite (Hd H1) in Hl.
  - intros H1 H2. by rewrite (Hr H1 H2) in Hl.
  - intros H1 H2 H3. by rewrite (Hw H1 H2 H3) in Hl.
  - rewrite <- Hn. destruct (name_level tokens) as [l|] eqn:E; [|done].
    split; [|done]. intros H1. exfalso. unfold name_level in E.
    repeat case_bool_decide; simplify_eq; congruence.
Qed.

End classify.

#[global] Arguments AutoClassify : simpl never.

(** ** The cache

    [entries] holds an expiry time with each classification; a nil
    classification is never stored by the gateway. [now] is the clock at the
    call. *)

Record CacheEntry := mkCacheEntry { ce_classification : ToolClassification; ce_expiresAt : Z }.

Record ClassificationCache := mkClassificationCache {
  cc_entries : gmap string CacheEntry;
  cc_ttl : Z;
}.

Definition defaultClassificationCacheTTL : Z := 5 * minute.

(** [NewClassificationCache]. *)
Definition NewClassificationCache (ttl : Z) : ClassificationCache :=
  mkClassificationCache ∅ (if (ttl <=? 0)%Z then defaultClassificationCacheTTL else ttl).

(** [Get]: an expired entry is dropped. *)
Definition CacheGet (now : Z) (c : ClassificationCache) (toolName : string) :
    option ToolClassification * ClassificationCache :=
  match c.(cc_entries) !! toolName with
  | None => (None, c)
  | Some entry =>
      if (entry.(ce_expiresAt) <? now)%Z
      then (None, mkClassificationCache (delete toolName c.(cc_entries)) c.(cc_ttl))
      else (Some entry.(ce_classification), c)
  end.

(** [Set]. *)
Definition CacheSet (now : Z) (c : ClassificationCache) (toolName : string)
    (classification : ToolClassification) : ClassificationCache :=
  mkClassificationCache
    (<[toolName := mkCacheEntry classification (now + c.(cc_ttl))]> c.(cc_entries)) c.(cc_ttl).

(** [Invalidate] and [InvalidateAll]. *)
Definition Invalidate (c : ClassificationCache) (toolName : string) : ClassificationCache :=
  mkClassificationCache (delete toolName c.(cc_entries)) c.(cc_ttl).
Definition InvalidateAll (c : ClassificationCache) : ClassificationCache :=
  mkClassificationCache ∅ c.(cc_ttl).

(** The operations on the cache, each at its time. *)
Inductive cache_op :=
  | CGet (tool : string)
  | CSet (tool : string) (tc : ToolClassification)
  | CInvalidate (tool : string)
  | CInvalidateAll.

Definition cache_exec (c : ClassificationCache) (p : Z * cache_op) : ClassificationCache :=
  match p.2 with
  | CGet tool => (CacheGet p.1 c tool).2
  | CSet tool tc => CacheSet p.1 c tool tc
  | CInvalidate tool => Invalidate c tool
  | CInvalidateAll => InvalidateAll c
  end.

(** The last write to a tool: its time and value, [None] once invalidated. *)
Fixpoint last_set (acc : option (Z * ToolClassification)) (ops : list (Z * cache_op)) (tool : string) :
    option (Z * ToolClassification) :=
  match ops with
  | [] => acc
  | (t, op) :: ops' =>
      let acc := match op with
        | CSet tool' tc => if bool_decide (tool' = tool) then Some (t, tc) else acc
        | CInvalidate tool' => if bool_decide (tool' = tool) then None else acc
        | CInvalidateAll => None
        | CGet _ => acc
        end in
      last_set acc ops' tool
  end.

Lemma cache_ttl c p : (cache_exec c p).(cc_ttl) = c.(cc_ttl).
Proof.
  destruct p as [t []]; try done. unfold cache_exec, CacheGet. simpl.
  destruct (_ !! _); [|done]. by destruct (_ <? _)%Z.
Qed.

(** An entry is the last write to the tool, with its expiry. *)
Lemma cache_exec_lookup tool ops c acc e :
  (∀ e, c.(cc_entries) !! tool = Some e →
     ∃ t, acc = Some (t, e.(ce_classification)) ∧ e.(ce_expiresAt) = (t + c.(cc_ttl))%Z) →
  (foldl cache_exec c ops).(cc_entries) !! tool = Some e →
  ∃ t, last_set acc ops tool = Some (t, e.(ce_classification)) ∧
    e.(ce_expiresAt) = (t + c.(cc_ttl))%Z.
Proof.
  revert c acc. induction ops as [|[t op] ops IH]; intros c acc Hc He; [by apply Hc|].
  change (foldl cache_exec c ((t, op) :: ops)) with (foldl cache_exec (cache_exec c (t, op)) ops) in He.
  rewrite <- (cache_ttl c (t, op)). cbn [last_set].
  eapply IH; [|exact He]. rewrite cache_ttl. intros e' He'.
  destruct op as [tool'|tool' tc|tool'|]; cbn in He' |- *.
  - apply Hc. unfold CacheGet in He'. destruct (cc_entries c !! tool') eqn:E; [|done].
    destruct (_ <? _)%Z; [|done]. simpl in He'. by apply lookup_delete_Some in He' as [_ ?].
  - case_bool_decide as E; [subst|].
    + rewrite lookup_insert_eq in He'. simplify_eq. eauto.
    + rewrite lookup_insert_ne in He' by done. by apply Hc.
  - case_bool_decide as E; [subst; by rewrite lookup_delete_eq in He'|].
    rewrite lookup_delete_ne in He' by done. by apply Hc.
  - by rewrite lookup_empty in He'.
Qed.

(** A cache hit, after any sequence of calls, returns the last value set
    for the tool since it was last invalidated, and that value was set at most
    the time to live ago. *)
Theorem cache_get_fresh ttl ops now tool tc :
  (CacheGet now (foldl cache_exec (NewClassificationCache ttl) ops) tool).1 = Some tc →
  ∃ t, last_set None ops tool = Some (t, tc) ∧
    (now <= t + (NewClassificationCache ttl).(cc_ttl))%Z.
Proof.
  unfold CacheGet. destruct (_ !! tool) as [e|] eqn:E; [|done].
  destruct (Z.ltb_spec e.(ce_expiresAt) now); cbn [fst]; [done|]. intros [= <-].
  apply (cache_exec_lookup _ _ _ None) in E as (t & Ht & Hexp); [|done].
  exists t. split; [done|]. lia.
Qed.

Lemma cache_get_fresh_witness :
  let tc := mkToolClassification "t" RiskWrite "" true "" 0 in
  ∃ t, last_set None [(1, CSet "t" tc); (2, CGet "t")]%Z "t" = Some (t, tc) ∧
    (10 <= t + (NewClassificationCache 100).(cc_ttl))%Z.
Proof.
  intros tc. apply (cache_get_fresh 100 [(1, CSet "t" tc); (2, CGet "t")]%Z 10 "t" tc). by vm_compute.
Defined.
