(* ===== verification/Lifecycle.v ===== *)
(** * Server lifecycle: [internal/registration/state.go]

    The transition table of a registration's status, the traces of events it
    accepts, and what a status says of the trace that led to it. *)

From S2P Require Import Prelude GoStrings Types.

Inductive Event :=
| EventHeartbeat
| EventHeartbeatMissed
| EventExpired
| EventApproved
| EventDeregistered.

#[export] Instance Event_eq_dec : EqDecision Event.
Proof. solve_decision. Defined.

(** The map literal of [Transition]. *)
Definition transitions : list ((ServerStatus * Event) * ServerStatus) := [
  ((StatusPending, EventApproved), StatusApproved);
  ((StatusPending, EventHeartbeat), StatusActive);
  ((StatusPending, EventExpired), StatusExpired);
  ((StatusApproved, EventHeartbeat), StatusActive);
  ((StatusApproved, EventExpired), StatusExpired);
  ((StatusActive, EventHeartbeat), StatusActive);
  ((StatusActive, EventHeartbeatMissed), StatusStale);
  ((StatusActive, EventExpired), StatusExpired);
  ((StatusStale, EventHeartbeat), StatusActive);
  ((StatusStale, EventHeartbeatMissed), StatusExpired);
  ((StatusStale, EventExpired), StatusExpired);
  ((StatusPending, EventDeregistered), StatusExpired);
  ((StatusApproved, EventDeregistered), StatusExpired);
  ((StatusActive, EventDeregistered), StatusExpired);
  ((StatusStale, EventDeregistered), StatusExpired);
  ((StatusExpired, EventDeregistered), StatusExpired);
  ((StatusExpired, EventHeartbeatMissed), StatusExpired);
  ((StatusExpired, EventExpired), StatusExpired) ].

Definition ErrTransition : error := Opaque "invalid transition".

(** [Transition]. *)
Definition Transition (current : ServerStatus) (event : Event) : result ServerStatus :=
  match list_find (λ e, e.1 = (current, event)) transitions with
  | Some (_, (_, next)) => Ok next
  | None => Err ErrTransition
  end.

(** ** Transitions by event *)

Lemma Transition_heartbeat s :
  Transition s EventHeartbeat =
    match s with
    | StatusPending | StatusApproved | StatusActive | StatusStale => Ok StatusActive
    | _ => Err ErrTransition
    end.
Proof. by destruct s. Qed.

Lemma Transition_missed s :
  Transition s EventHeartbeatMissed =
    match s with
    | StatusActive => Ok StatusStale
    | StatusStale | StatusExpired => Ok StatusExpired
    | _ => Err ErrTransition
    end.
Proof. by destruct s. Qed.

Lemma Transition_expired s :
  Transition s EventExpired =
    match s with
    | StatusRaw _ => Err ErrTransition
    | _ => Ok StatusExpired
    end.
Proof. by destruct s. Qed.

#[export] Hint Rewrite Transition_heartbeat Transition_missed Transition_expired : gateway.

Lemma Transition_active s e : Transition s e = Ok StatusActive → e = EventHeartbeat.
Proof. by destruct s, e. Qed.

Lemma Transition_from_expired e s : Transition StatusExpired e = Ok s → s = StatusExpired.
Proof. destruct e; vm_compute; congruence. Qed.

(** ** Traces

    A trace of events applied one after the other; an event the table has no
    entry for is refused and leaves the status, as every caller of [Transition]
    does. *)

Definition apply_event (s : ServerStatus) (e : Event) : ServerStatus :=
  match Transition s e with inr s' => s' | inl _ => s end.

Definition run (s : ServerStatus) (es : list Event) : ServerStatus := foldl apply_event s es.

Inductive lifecycle_step : ServerStatus → ServerStatus → Prop :=
| ls_event s e s' : Transition s e = Ok s' → lifecycle_step s s'.

Lemma run_steps s es : rtc lifecycle_step s (run s es).
Proof.
  revert s. induction es as [|e es IH]; intros s; [done|].
  change (run s (e :: es)) with (run (apply_event s e) es).
  unfold apply_event. destruct (Transition s e) as [|s'] eqn:E.
  - apply IH.
  - eapply rtc_l; [by econstructor|apply IH].
Qed.

Lemma run_snoc s es e : run s (es ++ [e]) = apply_event (run s es) e.
Proof. unfold run. by rewrite foldl_app. Qed.

(** An expired registration stays expired: along every sequence of lifecycle
    transitions no event leaves [expired], and a heartbeat is refused there, so
    only a new registration brings the server back. *)
Theorem expired_absorbing :
  (∀ s, rtc lifecycle_step StatusExpired s → s = StatusExpired) ∧
  Transition StatusExpired EventHeartbeat = Err ErrTransition.
Proof.
  split; [|done]. intros s H.
  remember StatusExpired as x eqn:Hx.
  induction H as [x|x y z [x' e y' E] _ IH]; [done|]. subst x'.
  pose proof (Transition_from_expired _ _ E). subst. by apply IH.
Qed.

(** The last event of a trace that the table accepted at its status. *)
Fixpoint last_accepted (s : ServerStatus) (es : list Event) (acc : option Event) : option Event :=
  match es with
  | [] => acc
  | e :: es' =>
      match Transition s e with
      | inr s' => last_accepted s' es' (Some e)
      | inl _ => last_accepted s es' acc
      end
  end.

Lemma last_accepted_active s es acc :
  (s = StatusActive ↔ acc = Some EventHeartbeat) →
  (run s es = StatusActive ↔ last_accepted s es acc = Some EventHeartbeat).
Proof.
  revert s acc. induction es as [|e es IH]; intros s acc H; [done|].
  change (run s (e :: es)) with (run (apply_event s e) es). simpl.
  unfold apply_event. destruct (Transition s e) as [|s'] eqn:E; apply IH; [done|].
  split.
  - intros ->. by rewrite (Transition_active _ _ E).
  - intros [= ->]. rewrite Transition_heartbeat in E. destruct s; congruence.
Qed.

(** A server is routable after a trace of events, from the status of a new
    pending registration, exactly when the last event the table accepted was a
    heartbeat: approval alone never makes a server routable, and neither does
    any event after a missed heartbeat but a new heartbeat. *)
Theorem routable_iff_last_heartbeat es :
  IsRoutable (run StatusPending es) = true ↔
  last_accepted StatusPending es None = Some EventHeartbeat.
Proof. rewrite IsRoutable_true. by apply last_accepted_active. Qed.
