(* ===== verification/CapIndex.v ===== *)
(** * The capability index: [internal/registration/index.go]

    The in-memory index from tool names and resource prefixes to the servers
    that expose them. Its abstract specification is the finite map of the live
    servers by id (a [view]); [represents] relates the two, every operation is
    shown to implement the corresponding operation on views, and the lookups to
    answer from the view.

    Records are values here: the index copies every record it stores and every
    record it hands out (cloneServerRecord), so a caller never shares a slice
    with it. The mutex makes each method atomic; each is one function below. *)

From S2P Require Import Prelude GoStrings Types.

(** The names of a capability list under which a server is indexed: trimmed,
    blank ones skipped. *)
Definition names (caps : list string) : list string :=
  filter (λ n, n ≠ ""%string) (TrimSpace <$> caps).

Lemma elem_of_names k caps :
  k ∈ names caps ↔ k ≠ ""%string ∧ ∃ c, k = TrimSpace c ∧ c ∈ caps.
Proof. unfold names. rewrite list_elem_of_filter, list_elem_of_fmap. done. Qed.

Lemma names_cons c caps :
  names (c :: caps) =
    if decide (TrimSpace c = ""%string) then names caps else TrimSpace c :: names caps.
Proof.
  unfold names. simpl. rewrite filter_cons. repeat case_decide; naive_solver.
Qed.

Lemma names_trimmed k caps : k ∈ names caps → trimmed k ∧ k ≠ ""%string.
Proof.
  rewrite elem_of_names. intros (Hne & c & -> & _). eauto with gateway.
Qed.

(** ** Entry lists *)

(** [upsertServer]. *)
Fixpoint upsertServer (servers : list ServerRecord) (server : ServerRecord) : list ServerRecord :=
  match servers with
  | [] => [server]
  | s :: rest =>
      if bool_decide (s.(ID) = server.(ID)) then server :: rest
      else s :: upsertServer rest server
  end.

(** [removeServer]. *)
Definition removeServer (servers : list ServerRecord) (serverID : string) : list ServerRecord :=
  filter (λ s, s.(ID) ≠ serverID) servers.

Lemma elem_of_upsertServer r l s :
  NoDup (ID <$> l) → r ∈ upsertServer l s ↔ r = s ∨ (r ∈ l ∧ r.(ID) ≠ s.(ID)).
Proof.
  induction l as [|x l IH]; simpl; intros Hnd.
  - rewrite list_elem_of_singleton. set_solver.
  - apply NoDup_cons in Hnd as [Hx Hnd]. case_bool_decide as E.
    + rewrite !elem_of_cons. split; [|naive_solver].
      intros [->|Hr]; [by left|]. right. split; [by right|].
      intros Heq. apply Hx, list_elem_of_fmap. exists r. split; [congruence|done].
    + rewrite !elem_of_cons, IH by done. naive_solver.
Qed.

Lemma upsertServer_ids l s x : x ∈ ID <$> upsertServer l s ↔ x = s.(ID) ∨ x ∈ ID <$> l.
Proof.
  induction l as [|y l IH]; simpl; [set_solver|].
  case_bool_decide as E; simpl; rewrite !elem_of_cons, ?IH; [|naive_solver].
  rewrite E. naive_solver.
Qed.

Lemma upsertServer_NoDup l s : NoDup (ID <$> l) → NoDup (ID <$> upsertServer l s).
Proof.
  induction l as [|x l IH]; simpl; intros Hnd; [apply NoDup_singleton|].
  apply NoDup_cons in Hnd as [Hx Hnd]. case_bool_decide as E; simpl; apply NoDup_cons.
  - by rewrite <- E.
  - split; [|by apply IH]. rewrite upsertServer_ids. naive_solver.
Qed.

Lemma upsertServer_idemp l s : upsertServer (upsertServer l s) s = upsertServer l s.
Proof.
  induction l as [|x l IH]; simpl; [by rewrite bool_decide_eq_true_2|].
  case_bool_decide as E; simpl; [by rewrite bool_decide_eq_true_2|].
  rewrite bool_decide_eq_false_2 by done. by rewrite IH.
Qed.

Lemma upsertServer_not_nil l s : upsertServer l s ≠ [].
Proof. destruct l; simpl; [done|]. by case_bool_decide. Qed.

Lemma elem_of_removeServer r l id : r ∈ removeServer l id ↔ r ∈ l ∧ r.(ID) ≠ id.
Proof. unfold removeServer. rewrite list_elem_of_filter. naive_solver. Qed.

Lemma removeServer_NoDup l id : NoDup (ID <$> l) → NoDup (ID <$> removeServer l id).
Proof.
  induction l as [|x l IH]; simpl; intros H; [constructor|].
  apply NoDup_cons in H as [Hx H]. unfold removeServer. rewrite filter_cons.
  case_decide; [|by apply IH]. simpl. apply NoDup_cons. split; [|by apply IH].
  intros [y [Hy Hin]]%list_elem_of_fmap. apply elem_of_removeServer in Hin as [Hin _].
  apply Hx, list_elem_of_fmap. eauto.
Qed.

(** ** One side of the index: tools, or resources *)

Abbreviation entries := (gmap string (list ServerRecord)).

(** The servers listed under a key; a missing key reads as the nil slice. *)
Definition under (m : entries) (k : string) : list ServerRecord := default [] (m !! k).

(** The body of the loops of [addLocked]. *)
Definition add_name (server : ServerRecord) (m : entries) (c : string) : entries :=
  let name := TrimSpace c in
  if bool_decide (name = ""%string) then m
  else <[name := upsertServer (under m name) server]> m.

Definition add_names (server : ServerRecord) (caps : list string) (m : entries) : entries :=
  foldl (add_name server) m caps.

(** The body of the loops of [removeLocked]. *)
Definition remove_id (serverID : string) (m : entries) : entries :=
  omap (λ servers, match removeServer servers serverID with [] => None | f => Some f end) m.

Lemma under_add_names server caps m k :
  under (add_names server caps m) k =
    if decide (k ∈ names caps) then upsertServer (under m k) server else under m k.
Proof.
  revert m. induction caps as [|c caps IH]; intros m; [done|].
  change (add_names server (c :: caps) m) with (add_names server caps (add_name server m c)).
  rewrite IH, names_cons. unfold add_name.
  destruct (decide (TrimSpace c = ""%string)) as [E|E].
  - by rewrite bool_decide_eq_true_2.
  - rewrite bool_decide_eq_false_2 by done.
    destruct (decide (k = TrimSpace c)) as [->|Hk].
    + unfold under at 1 3. rewrite lookup_insert_eq. simpl.
      rewrite (decide_True _ _ (P := _ ∈ _ :: _)) by left.
      rewrite upsertServer_idemp. by case_decide.
    + unfold under at 1 3. rewrite lookup_insert_ne by done.
      repeat case_decide; set_solver.
Qed.

Lemma lookup_add_names_is_Some server caps m k :
  is_Some (add_names server caps m !! k) ↔ k ∈ names caps ∨ is_Some (m !! k).
Proof.
  revert m. induction caps as [|c caps IH]; intros m; [set_solver|].
  change (add_names server (c :: caps) m) with (add_names server caps (add_name server m c)).
  rewrite IH, names_cons. unfold add_name.
  destruct (decide (TrimSpace c = ""%string)) as [E|E].
  - by rewrite bool_decide_eq_true_2.
  - rewrite bool_decide_eq_false_2 by done. rewrite lookup_insert_is_Some'.
    set_solver.
Qed.

Lemma under_remove_id id m k : under (remove_id id m) k = removeServer (under m k) id.
Proof.
  unfold under, remove_id. rewrite lookup_omap. destruct (m !! k) as [l|]; simpl; [|done].
  by destruct (removeServer l id).
Qed.

Lemma lookup_remove_id id m k l :
  remove_id id m !! k = Some l → ∃ l', m !! k = Some l' ∧ l = removeServer l' id ∧ l ≠ [].
Proof.
  unfold remove_id. rewrite lookup_omap. destruct (m !! k) as [l'|]; simpl; [|done].
  intros H. exists l'. destruct (removeServer l' id); naive_solver.
Qed.

Section side.
(** [caps] is the capability list of a record this side indexes. *)
Context (caps : ServerRecord → list string).

(** Well-formedness: keys are trimmed and not blank, no entry is empty, a
    server occurs once in an entry, and only under a name it declares. *)
Definition side_wf (m : entries) : Prop :=
  ∀ k l, m !! k = Some l →
    l ≠ [] ∧ NoDup (ID <$> l) ∧
    ∀ r, r ∈ l → r.(Status) = StatusActive ∧ k ∈ names (caps r).

(** The side lists exactly the servers of a view that declare the name. *)
Definition side_represents (m : entries) (view : gmap string ServerRecord) : Prop :=
  ∀ k r, r ∈ under m k ↔ view !! r.(ID) = Some r ∧ k ∈ names (caps r).

Lemma side_wf_under m k : side_wf m → NoDup (ID <$> under m k).
Proof.
  intros H. unfold under. destruct (m !! k) as [l|] eqn:E; simpl; [|constructor].
  by apply H in E as (_ & ? & _).
Qed.

Lemma side_wf_elem m k r :
  side_wf m → r ∈ under m k → r.(Status) = StatusActive ∧ k ∈ names (caps r).
Proof.
  intros H. unfold under. destruct (m !! k) as [l|] eqn:E; simpl; [|set_solver].
  apply H in E as (_ & _ & ?). auto.
Qed.

Lemma side_wf_empty : side_wf ∅.
Proof. intros k l. by rewrite lookup_empty. Qed.

Lemma side_wf_add server m :
  server.(Status) = StatusActive → side_wf m → side_wf (add_names server (caps server) m).
Proof.
  intros Hact Hm k l Hl.
  assert (Hu : under (add_names server (caps server) m) k = l) by (unfold under; by rewrite Hl).
  assert (Hs : is_Some (add_names server (caps server) m !! k)) by eauto.
  rewrite lookup_add_names_is_Some in Hs. rewrite under_add_names in Hu.
  pose proof (side_wf_under m k Hm) as Hnd. case_decide as Hk; subst l.
  - split_and!; [apply upsertServer_not_nil|by apply upsertServer_NoDup|].
    intros r. rewrite elem_of_upsertServer by done. intros [->|[Hr _]]; [done|].
    by apply (side_wf_elem m).
  - destruct Hs as [|[l Hm']]; [done|]. split_and!; [|done|intros r; by apply (side_wf_elem m)].
    unfold under. rewrite Hm'. by apply Hm in Hm' as (? & _).
Qed.

Lemma side_wf_remove id m : side_wf m → side_wf (remove_id id m).
Proof.
  intros Hm k l (l' & Hl' & -> & Hne)%lookup_remove_id.
  apply Hm in Hl' as (_ & Hnd & Hr). split_and!; [done|by apply removeServer_NoDup|].
  intros r [? _]%elem_of_removeServer. auto.
Qed.

Lemma side_represents_empty : side_represents ∅ ∅.
Proof. intros k r. unfold under. rewrite !lookup_empty. set_solver. Qed.

Lemma side_represents_add server m view :
  side_wf m → side_represents m view →
  (∀ old, view !! server.(ID) = Some old →
     ∀ k, k ∈ names (caps old) → k ∈ names (caps server)) →
  side_represents (add_names server (caps server) m) (<[server.(ID) := server]> view).
Proof.
  intros Hwf Hrep Hold k r. unfold side_represents in Hrep. rewrite under_add_names.
  destruct (decide (r.(ID) = server.(ID))) as [Hid|Hid].
  - rewrite Hid, lookup_insert_eq. case_decide as Hk.
    + rewrite elem_of_upsertServer by (by apply side_wf_under). naive_solver.
    + rewrite Hrep, Hid. split; [|naive_solver]. intros [Hv Hkr]. by destruct (Hk (Hold r Hv k Hkr)).
  - rewrite lookup_insert_ne by done. case_decide as Hk; [|apply Hrep].
    rewrite elem_of_upsertServer, Hrep by (by apply side_wf_under). naive_solver.
Qed.

Lemma side_represents_remove id m view :
  side_represents m view → side_represents (remove_id id m) (delete id view).
Proof.
  intros Hrep k r. unfold side_represents in Hrep.
  rewrite under_remove_id, elem_of_removeServer, Hrep.
  destruct (decide (r.(ID) = id)) as [->|].
  - rewrite lookup_delete_eq. naive_solver.
  - rewrite lookup_delete_ne by done. naive_solver.
Qed.
End side.

(** ** The index and its operations *)

(** [CapabilityIndex], with the value of the active-tool gauge its methods set
    (SetActiveToolCount). *)
Record CapabilityIndex := mkIndex {
  tools : entries;
  resources : entries;
  active_tools : nat;
}.

(** [NewCapabilityIndex]. *)
Definition NewCapabilityIndex : CapabilityIndex := mkIndex ∅ ∅ 0.

(** [ToolCount]. *)
Definition ToolCount (i : CapabilityIndex) : nat := size i.(tools).

Definition SetActiveToolCount (n : nat) (i : CapabilityIndex) : CapabilityIndex :=
  mkIndex i.(tools) i.(resources) n.

(** [addLocked]. *)
Definition addLocked (server : ServerRecord) (i : CapabilityIndex) : CapabilityIndex :=
  mkIndex (add_names server server.(Capabilities).(Tools) i.(tools))
          (add_names server server.(Capabilities).(Resources) i.(resources))
          i.(active_tools).

(** [removeLocked]. *)
Definition removeLocked (serverID : string) (i : CapabilityIndex) : CapabilityIndex :=
  let tools := remove_id serverID i.(tools) in
  let resources := remove_id serverID i.(resources) in
  SetActiveToolCount (size tools) (mkIndex tools resources i.(active_tools)).

(** [Add]. *)
Definition Add (server : ServerRecord) (i : CapabilityIndex) : CapabilityIndex :=
  if negb (IsRoutable server.(Status)) then i
  else let i := addLocked server i in SetActiveToolCount (size i.(tools)) i.

(** [Remove]. *)
Definition Remove (serverID : string) (i : CapabilityIndex) : CapabilityIndex :=
  if bool_decide (TrimSpace serverID = ""%string) then i else removeLocked serverID i.

(** [Rebuild]. *)
Definition Rebuild (servers : list ServerRecord) (i : CapabilityIndex) : CapabilityIndex :=
  let i :=
    foldl (λ i server, if negb (IsRoutable server.(Status)) then i else addLocked server i)
      (mkIndex ∅ ∅ i.(active_tools)) servers in
  SetActiveToolCount (size i.(tools)) i.

(** [RefreshServer]; [record] is what [serverStore.Get] answers. The nil index
    and the nil store are not represented. *)
Definition RefreshServer (serverID : string) (record : result (option ServerRecord))
    (i : CapabilityIndex) : result () * CapabilityIndex :=
  if bool_decide (TrimSpace serverID = ""%string) then
    (Err (Opaque "refresh server: invalid arguments"), i)
  else
    match record with
    | Err err => (Err (Wrap "refresh server" err), i)
    | Ok record =>
        let i := removeLocked serverID i in
        match record with
        | Some r => (Ok (), if IsRoutable r.(Status) then addLocked r i else i)
        | None => (Ok (), i)
        end
    end.

(** [LookupTool]. *)
Definition LookupTool (i : CapabilityIndex) (name : string) : list ServerRecord :=
  let key := TrimSpace name in
  if bool_decide (key = ""%string) then [] else under i.(tools) key.

(** The loop of [LookupResource] over the keys of the map, in the order Go
    ranges over them. *)
Definition longest_prefix (target : string) (keys : list string) : string :=
  foldl (λ m key, if HasPrefix target key && (len m <? len key) then key else m) ""%string keys.

(** [LookupResource], ranging over the map in the order [keys]. *)
Definition LookupResourceIn (keys : list string) (i : CapabilityIndex) (prefix : string) :
    list ServerRecord :=
  let target := TrimSpace prefix in
  if bool_decide (target = ""%string) then []
  else
    let m := longest_prefix target keys in
    if bool_decide (m = ""%string) then [] else under i.(resources) m.

Definition keys_of (m : entries) : list string := (map_to_list m).*1.

(** [LookupResource]. *)
Definition LookupResource (i : CapabilityIndex) (prefix : string) : list ServerRecord :=
  LookupResourceIn (keys_of i.(resources)) i prefix.

(** [ListTools] and [ListResources]. *)
Definition ListTools (i : CapabilityIndex) : list string := sort_strings (keys_of i.(tools)).
Definition ListResources (i : CapabilityIndex) : list string :=
  sort_strings (keys_of i.(resources)).

Section lookup_server.
Context `{UnicodeTables}.

(** The nested loops of [LookupServer] over the entries of the tools map, in
    the order Go ranges over them, flattened; [seen] holds the ids met. *)
Fixpoint lookup_server_go (seen : gset string) (target : string) (l : list ServerRecord) :
    option ServerRecord :=
  match l with
  | [] => None
  | srv :: l' =>
      if bool_decide (srv.(ID) ∈ seen) then lookup_server_go seen target l'
      else if EqualFold (TrimSpace srv.(Name)) target then Some srv
      else lookup_server_go ({[srv.(ID)]} ∪ seen) target l'
  end.

(** [LookupServer], ranging over the tools map in the order [order]. *)
Definition LookupServerIn (order : list (list ServerRecord)) (name : string) :
    option ServerRecord :=
  let target := TrimSpace name in
  if bool_decide (target = ""%string) then None
  else lookup_server_go ∅ target (mjoin order).

Definition LookupServer (i : CapabilityIndex) (name : string) : option ServerRecord :=
  LookupServerIn (map_to_list i.(tools)).*2 name.
End lookup_server.

(** [ServerStats] and [ListServers]: the loops fill a map from ids to counts. *)
Record ServerStats := mkStats { st_Record : ServerRecord; st_ToolCount : Z; st_ResourceCount : Z }.

Definition count_tool (seen : gmap string ServerStats) (srv : ServerRecord) : gmap string ServerStats :=
  let st := default (mkStats srv 0 0) (seen !! srv.(ID)) in
  <[srv.(ID) := mkStats st.(st_Record) (st.(st_ToolCount) + 1) st.(st_ResourceCount)]> seen.

Definition count_resource (seen : gmap string ServerStats) (srv : ServerRecord) : gmap string ServerStats :=
  let st := default (mkStats srv 0 0) (seen !! srv.(ID)) in
  <[srv.(ID) := mkStats st.(st_Record) st.(st_ToolCount) (st.(st_ResourceCount) + 1)]> seen.

Definition stats_name_le (a b : ServerStats) : Prop :=
  String.le a.(st_Record).(Name) b.(st_Record).(Name).

#[export] Instance stats_name_le_dec : RelDecision stats_name_le.
Proof. unfold RelDecision, stats_name_le. intros. apply _. Defined.

Definition server_stats (i : CapabilityIndex) : gmap string ServerStats :=
  foldl count_resource
    (foldl count_tool ∅ (mjoin (map_to_list i.(tools)).*2))
    (mjoin (map_to_list i.(resources)).*2).

Definition ListServers (i : CapabilityIndex) : list ServerStats :=
  merge_sort stats_name_le (map_to_list (server_stats i)).*2.

(** ** The invariant and the abstract specification *)

Definition tool_caps (r : ServerRecord) : list string := r.(Capabilities).(Tools).
Definition resource_caps (r : ServerRecord) : list string := r.(Capabilities).(Resources).

Definition wf (i : CapabilityIndex) : Prop :=
  side_wf tool_caps i.(tools) ∧ side_wf resource_caps i.(resources).

(** The abstract state: the live servers, by id. *)
Abbreviation view := (gmap string ServerRecord).

Definition represents (i : CapabilityIndex) (v : view) : Prop :=
  wf i ∧ side_represents tool_caps i.(tools) v ∧ side_represents resource_caps i.(resources) v.

Lemma IsRoutable_active st : IsRoutable st = true → st = StatusActive.
Proof. by destruct st. Qed.

Lemma wf_new n : wf (mkIndex ∅ ∅ n).
Proof. split; apply side_wf_empty. Qed.

Lemma wf_addLocked r i : IsRoutable r.(Status) = true → wf i → wf (addLocked r i).
Proof.
  intros Hr%IsRoutable_active [??]. split; simpl.
  - by apply (side_wf_add tool_caps).
  - by apply (side_wf_add resource_caps).
Qed.

Lemma wf_removeLocked id i : wf i → wf (removeLocked id i).
Proof. intros [??]. split; by apply side_wf_remove. Qed.

Lemma wf_gauge n i : wf (SetActiveToolCount n i) ↔ wf i.
Proof. done. Qed.

Definition view_add (r : ServerRecord) (v : view) : view :=
  if IsRoutable r.(Status) then <[r.(ID) := r]> v else v.

Lemma represents_new n : represents (mkIndex ∅ ∅ n) ∅.
Proof. split_and!; [apply wf_new|apply side_represents_empty..]. Qed.

Lemma represents_removeLocked id i v :
  represents i v → represents (removeLocked id i) (delete id v).
Proof.
  intros (?&?&?). split_and!; [by apply wf_removeLocked|by apply side_represents_remove..].
Qed.

(** [r] keeps every name of the record it replaces. *)
Definition keeps_names (r : ServerRecord) (v : view) : Prop :=
  ∀ old, v !! r.(ID) = Some old →
    (∀ k, k ∈ names (tool_caps old) → k ∈ names (tool_caps r)) ∧
    (∀ k, k ∈ names (resource_caps old) → k ∈ names (resource_caps r)).

Lemma represents_addLocked r i v :
  IsRoutable r.(Status) = true → keeps_names r v →
  represents i v → represents (addLocked r i) (<[r.(ID) := r]> v).
Proof.
  intros Hr Hk (Hwf & Ht & Hs). destruct (id Hwf) as [Hwt Hws].
  split_and!; [by apply wf_addLocked|..]; simpl.
  - apply (side_represents_add tool_caps); [done..|]. intros old Ho. by apply Hk.
  - apply (side_represents_add resource_caps); [done..|]. intros old Ho. by apply Hk.
Qed.

Lemma keeps_names_fresh r v : v !! r.(ID) = None → keeps_names r v.
Proof. intros H old. by rewrite H. Qed.
#[export] Hint Resolve wf_new wf_addLocked wf_removeLocked represents_new
  represents_removeLocked keeps_names_fresh : gateway.

(** *** Sequences of operations *)

(** The mutating methods, with the answer of the store for [RefreshServer]. *)
Inductive index_op :=
  | OpAdd (r : ServerRecord)
  | OpRemove (id : string)
  | OpRebuild (servers : list ServerRecord)
  | OpRefresh (id : string) (record : result (option ServerRecord)).

Definition exec (i : CapabilityIndex) (op : index_op) : CapabilityIndex :=
  match op with
  | OpAdd r => Add r i
  | OpRemove id => Remove id i
  | OpRebuild servers => Rebuild servers i
  | OpRefresh id record => (RefreshServer id record i).2
  end.

(** What the operations mean for the live servers. *)
Definition exec_view (v : view) (op : index_op) : view :=
  match op with
  | OpAdd r => view_add r v
  | OpRemove id => if bool_decide (TrimSpace id = ""%string) then v else delete id v
  | OpRebuild servers => foldl (λ v r, view_add r v) ∅ servers
  | OpRefresh id record =>
      if bool_decide (TrimSpace id = ""%string) then v
      else match record with
           | Err _ => v
           | Ok None => delete id v
           | Ok (Some r) => view_add r (delete id v)
           end
  end.

(** What the callers guarantee: a snapshot lists a server once, the store
    answers with the record asked for, and [Add] is called with a record that
    keeps the names of the one it replaces. *)
Definition op_ok (v : view) (op : index_op) : Prop :=
  match op with
  | OpAdd r => IsRoutable r.(Status) = true → keeps_names r v
  | OpRemove _ => True
  | OpRebuild servers => NoDup (ID <$> servers)
  | OpRefresh id (Ok (Some r)) => r.(ID) = id
  | OpRefresh _ _ => True
  end.

Lemma wf_rebuild servers i : wf i →
  wf (foldl (λ i server, if negb (IsRoutable server.(Status)) then i else addLocked server i) i servers).
Proof.
  revert i. induction servers as [|r servers IH]; intros i Hi; simpl; [done|].
  apply IH. destruct (IsRoutable _) eqn:E; simpl; auto with gateway.
Qed.

Lemma wf_exec i op : wf i → wf (exec i op).
Proof.
  intros Hi. destruct op as [r|id|servers|id record]; simpl.
  - unfold Add. destruct (IsRoutable _) eqn:E; simpl; [|done].
    apply wf_gauge. auto with gateway.
  - unfold Remove. case_bool_decide; auto with gateway.
  - apply wf_gauge, wf_rebuild, wf_new.
  - unfold RefreshServer. case_bool_decide; [done|].
    destruct record as [err|[r|]]; simpl; auto with gateway.
    destruct (IsRoutable _) eqn:E; auto with gateway.
Qed.

Lemma wf_run ops i : wf i → wf (foldl exec i ops).
Proof.
  revert i. induction ops as [|op ops IH]; intros i Hi; simpl; [done|]. by apply IH, wf_exec.
Qed.

Lemma represents_rebuild servers i v :
  NoDup (ID <$> servers) → (∀ r, r ∈ servers → v !! r.(ID) = None) → represents i v →
  represents
    (foldl (λ i server, if negb (IsRoutable server.(Status)) then i else addLocked server i) i servers)
    (foldl (λ v r, view_add r v) v servers).
Proof.
  revert i v. induction servers as [|r servers IH]; intros i v Hnd Hv Hi; simpl; [done|].
  apply NoDup_cons in Hnd as [Hr Hnd].
  apply IH; [done|..].
  - intros r' Hr'. unfold view_add. destruct (IsRoutable (Status r)); [|set_solver].
    rewrite lookup_insert_ne; [set_solver|].
    intros Heq. apply Hr, list_elem_of_fmap. eauto.
  - unfold view_add. destruct (IsRoutable _) eqn:E; simpl; [|done].
    apply represents_addLocked; [done| |done]. apply keeps_names_fresh, Hv. set_solver.
Qed.

Lemma represents_exec i v op :
  op_ok v op → represents i v → represents (exec i op) (exec_view v op).
Proof.
  intros Hok Hi. destruct op as [r|id|servers|id record]; simpl in *.
  - unfold Add, view_add. destruct (IsRoutable _) eqn:E; simpl; [|done].
    apply represents_addLocked; auto.
  - unfold Remove. case_bool_decide; auto with gateway.
  - apply (represents_rebuild _ (mkIndex ∅ ∅ _) ∅); auto with gateway.
  - unfold RefreshServer. case_bool_decide; [done|].
    destruct record as [err|[r|]]; simpl; auto with gateway. subst id.
    unfold view_add. destruct (IsRoutable _) eqn:E; auto with gateway.
    apply represents_addLocked; auto with gateway.
    apply keeps_names_fresh, lookup_delete_eq.
Qed.

(** Every operation of a sequence meets its callers' guarantee. *)
Fixpoint ops_ok (v : view) (ops : list index_op) : Prop :=
  match ops with
  | [] => True
  | op :: ops' => op_ok v op ∧ ops_ok (exec_view v op) ops'
  end.

Lemma represents_run ops i v :
  ops_ok v ops → represents i v → represents (foldl exec i ops) (foldl exec_view v ops).
Proof.
  revert i v. induction ops as [|op ops IH]; intros i v Hok Hi; simpl; [done|].
  destruct Hok. by apply IH, represents_exec.
Qed.

(** ** The lookups *)

Lemma LookupTool_under i name :
  LookupTool i name =
    if bool_decide (TrimSpace name = ""%string) then [] else under i.(tools) (TrimSpace name).
Proof. done. Qed.

Lemma represents_lookup_tool i v name r :
  represents i v →
  r ∈ LookupTool i name ↔ v !! r.(ID) = Some r ∧ TrimSpace name ∈ names (tool_caps r).
Proof.
  intros (_ & Ht & _). unfold side_represents in Ht. rewrite LookupTool_under.
  case_bool_decide as E; [|apply Ht]. rewrite E, elem_of_names. set_solver.
Qed.

Lemma elem_of_keys_of m k : k ∈ keys_of m ↔ is_Some (m !! k).
Proof.
  unfold keys_of. rewrite list_elem_of_fmap. split.
  - intros ([k' l] & -> & H%elem_of_map_to_list). eauto.
  - intros [l H]. exists (k, l). by rewrite elem_of_map_to_list.
Qed.

(** The result of the loop is one of the keys (or the initial value), and no
    key that is a prefix is longer. *)
Lemma longest_prefix_go target keys m0 :
  let m := foldl (λ m key, if HasPrefix target key && (len m <? len key) then key else m) m0 keys in
  (m = m0 ∨ (m ∈ keys ∧ HasPrefix target m = true)) ∧
  len m0 <= len m ∧
  ∀ key, key ∈ keys → HasPrefix target key = true → len key <= len m.
Proof.
  revert m0. induction keys as [|k keys IH]; intros m0; simpl.
  - split_and!; [by left|lia|]. intros key []%not_elem_of_nil.
  - destruct (HasPrefix target k && (len m0 <? len k)) eqn:E;
      match goal with |- context [foldl _ ?m keys] => destruct (IH m) as (H1 & H2 & H3) end.
    + apply andb_true_iff in E as [Hp Hlt%Nat.ltb_lt].
      split_and!; [|lia|].
      * right. destruct H1 as [->|[??]]; split; try done; [left|by right].
      * intros key [->|Hk]%elem_of_cons Hpk; auto with lia.
    + split_and!; [|lia|].
      * destruct H1 as [?|[??]]; [by left|right]. split; [by right|done].
      * intros key [->|Hk]%elem_of_cons Hpk; [|auto].
        rewrite Hpk in E. simpl in E. apply Nat.ltb_ge in E. lia.
Qed.

Lemma HasPrefix_same_len target k1 k2 :
  HasPrefix target k1 = true → HasPrefix target k2 = true → len k1 = len k2 → k1 = k2.
Proof.
  rewrite !HasPrefix_spec. intros [r1 ->] [r2 Heq] Hlen.
  apply to_bytes_inj. apply (f_equal to_bytes) in Heq.
  rewrite !to_bytes_app in Heq. unfold len in Hlen.
  apply app_inj_1 in Heq as [? _]; [done|lia].
Qed.

(** After any sequence of index operations, from any callers, every server a
    tool lookup returns is active and declares the tool, and no server is
    returned twice. *)
Theorem lookup_tool_sound ops name :
  let found := LookupTool (foldl exec NewCapabilityIndex ops) name in
  NoDup (ID <$> found) ∧
  Forall (λ r, r.(Status) = StatusActive ∧ TrimSpace name ∈ names (tool_caps r)) found.
Proof.
  destruct (wf_run ops NewCapabilityIndex (wf_new 0)) as [Hwf _]. cbv zeta.
  rewrite LookupTool_under. case_bool_decide; [repeat constructor|]. split.
  - by apply (side_wf_under tool_caps).
  - apply Forall_forall. intros r. by apply (side_wf_elem tool_caps).
Qed.

(** *** The latest word on a tool *)

(** What a sequence of operations tells the index: a routable record is offered,
    a server is dropped, or everything is forgotten. *)
Inductive index_event := Offer (r : ServerRecord) | Drop (id : string) | Clear.

Definition offer (r : ServerRecord) : list index_event :=
  if IsRoutable r.(Status) then [Offer r] else [].

Definition events_of (op : index_op) : list index_event :=
  match op with
  | OpAdd r => offer r
  | OpRemove id => if bool_decide (TrimSpace id = ""%string) then [] else [Drop id]
  | OpRebuild servers => Clear :: mjoin (offer <$> servers)
  | OpRefresh id record =>
      if bool_decide (TrimSpace id = ""%string) then []
      else match record with
           | Err _ => []
           | Ok None => [Drop id]
           | Ok (Some r) => Drop id :: offer r
           end
  end.

(** The event has something to say about the server [id] and the tool [k]. *)
Definition speaks_of (k id : string) (e : index_event) : Prop :=
  match e with
  | Offer r => r.(ID) = id ∧ k ∈ names (tool_caps r)
  | Drop id' => id' = id
  | Clear => True
  end.

(** Some event offers the record [r], which declares the tool [k], and no later
    one speaks of that server and that tool. *)
Fixpoint offered (es : list index_event) (k : string) (r : ServerRecord) : Prop :=
  match es with
  | [] => False
  | e :: es' => offered es' k r ∨
      (e = Offer r ∧ k ∈ names (tool_caps r) ∧ Forall (λ e, ¬ speaks_of k r.(ID) e) es')
  end.

Definition hear (m : entries) (e : index_event) : entries :=
  match e with
  | Offer r => add_names r (tool_caps r) m
  | Drop id => remove_id id m
  | Clear => ∅
  end.

Definition routable_event (e : index_event) : Prop :=
  match e with Offer r => r.(Status) = StatusActive | _ => True end.

Lemma hear_wf m e : routable_event e → side_wf tool_caps m → side_wf tool_caps (hear m e).
Proof.
  destruct e; simpl; intros Hr Hm; [by apply side_wf_add|by apply side_wf_remove|apply side_wf_empty].
Qed.

Lemma elem_of_hear m e k r :
  side_wf tool_caps m →
  r ∈ under (hear m e) k ↔
    (e = Offer r ∧ k ∈ names (tool_caps r)) ∨ (r ∈ under m k ∧ ¬ speaks_of k r.(ID) e).
Proof.
  intros Hm. destruct e as [s|id|]; simpl.
  - rewrite under_add_names. case_decide as Hk.
    + rewrite elem_of_upsertServer by (by apply (side_wf_under tool_caps)). naive_solver.
    + naive_solver.
  - rewrite under_remove_id, elem_of_removeServer. naive_solver.
  - unfold under. rewrite lookup_empty. simpl. set_solver.
Qed.

Lemma elem_of_heard es m k r :
  side_wf tool_caps m → Forall routable_event es →
  r ∈ under (foldl hear m es) k ↔
    offered es k r ∨ (r ∈ under m k ∧ Forall (λ e, ¬ speaks_of k r.(ID) e) es).
Proof.
  revert m. induction es as [|e es IH]; intros m Hm Hes; simpl.
  - split; [by right|]. by intros [[]|[? _]].
  - apply Forall_cons in Hes as [He Hes]. rewrite IH by eauto using hear_wf.
    rewrite elem_of_hear, Forall_cons by done. tauto.
Qed.

Lemma offer_routable r : Forall routable_event (offer r).
Proof. unfold offer. destruct (Status r) eqn:E; simpl; repeat constructor. exact E. Qed.

Lemma events_routable ops : Forall routable_event (ops ≫= events_of).
Proof.
  apply Forall_bind, Forall_true. intros op. destruct op as [r|id|servers|id [err|[r|]]]; simpl;
    try case_bool_decide; repeat constructor; auto using offer_routable.
  apply Forall_join, Forall_fmap, Forall_true. intros r. apply offer_routable.
Qed.

Lemma tools_rebuild servers i :
  (foldl (λ i server, if negb (IsRoutable server.(Status)) then i else addLocked server i) i servers).(tools)
  = foldl hear i.(tools) (mjoin (offer <$> servers)).
Proof.
  revert i. induction servers as [|r servers IH]; intros i; [done|]. cbn [foldl fmap list_fmap mjoin list_join].
  rewrite IH, foldl_app. unfold offer. by destruct (IsRoutable _).
Qed.

Lemma tools_exec i op : (exec i op).(tools) = foldl hear i.(tools) (events_of op).
Proof.
  destruct op as [r|id|servers|id record]; simpl.
  - unfold Add, offer. by destruct (IsRoutable _).
  - unfold Remove. by case_bool_decide.
  - apply (tools_rebuild _ (mkIndex ∅ ∅ _)).
  - unfold RefreshServer, offer. case_bool_decide; [done|].
    destruct record as [err|[r|]]; simpl; try done. by destruct (IsRoutable _).
Qed.

Lemma tools_run ops i : (foldl exec i ops).(tools) = foldl hear i.(tools) (ops ≫= events_of).
Proof.
  revert i. induction ops as [|op ops IH]; intros i; [done|].
  simpl. by rewrite IH, tools_exec, foldl_app.
Qed.

Lemma lookup_tool_offered ops name r :
  r ∈ LookupTool (foldl exec NewCapabilityIndex ops) name ↔ offered (ops ≫= events_of) (TrimSpace name) r.
Proof.
  assert (Hh : r ∈ under (foldl exec NewCapabilityIndex ops).(tools) (TrimSpace name) ↔
    offered (ops ≫= events_of) (TrimSpace name) r).
  { rewrite tools_run, elem_of_heard by (apply side_wf_empty || apply events_routable).
    unfold under at 1. simpl. rewrite lookup_empty. set_solver. }
  rewrite LookupTool_under. case_bool_decide as E; [|done]. split; [set_solver|].
  intros [_ Hr]%Hh%(side_wf_elem tool_caps).
  - rewrite E in Hr. by destruct (names_trimmed _ _ Hr).
  - apply (wf_run ops NewCapabilityIndex (wf_new 0)).
Qed.

(** C10: What a tool lookup returns after any sequence of operations: exactly the
    records offered under the tool (by Add, Rebuild or RefreshServer, routable)
    on which no later operation had a word for that server and that tool, that is
    removed the server, rebuilt the index, or offered another record of it that
    declares the tool. So Add, unlike RefreshServer, leaves the old record under
    the tools the new one no longer declares. And where every Add keeps the names
    of the record it replaces, every rebuilt list names a server once and the
    store answers with the record asked for ([ops_ok]), this is the map of the
    live servers: a server is returned exactly when the sequence, read as inserts
    and deletes by server id, leaves that record and it declares the tool. *)
Theorem lookup_tool_refines ops name r :
  let found := LookupTool (foldl exec NewCapabilityIndex ops) name in
  (r ∈ found ↔ offered (ops ≫= events_of) (TrimSpace name) r) ∧
  (ops_ok ∅ ops →
   r ∈ found ↔ foldl exec_view ∅ ops !! r.(ID) = Some r ∧ TrimSpace name ∈ names (tool_caps r)).
Proof.
  split; [apply lookup_tool_offered|].
  intros Hok. apply represents_lookup_tool, represents_run; [done|apply represents_new].
Qed.

(** The first server is registered, refreshed, and registered again with another
    tool; the second removed. Registered a third time without the tool [write],
    the first is still found under it. *)
Lemma lookup_tool_refines_witness :
  let a := example_server "1" "a" StatusActive ["read"; "write"] [] in
  let a' := example_server "1" "a" StatusActive ["read"; "write"; "list"] [] in
  let a'' := example_server "1" "a" StatusActive ["read"] [] in
  let b := example_server "2" "b" StatusActive ["read"] [] in
  let ops := [OpRebuild [b]; OpAdd a; OpRefresh "1" (Ok (Some a)); OpAdd a'; OpRemove "2"] in
  a' ∈ LookupTool (foldl exec NewCapabilityIndex ops) " read " ∧
  b ∉ LookupTool (foldl exec NewCapabilityIndex ops) "read" ∧
  a' ∈ LookupTool (foldl exec NewCapabilityIndex (ops ++ [OpAdd a''])) "write".
Proof.
  intros a a' a'' b ops.
  assert (H : ops_ok ∅ ops).
  { split; [apply NoDup_singleton|]. split; [intros _; by apply keeps_names_fresh|].
    split; [done|]. split; [|done].
    intros _ old Hold. vm_compute in Hold. injection Hold as <-.
    split; intros k Hk; vm_compute in Hk |- *; set_solver. }
  split; [|split].
  - apply (lookup_tool_refines ops " read " a'); [exact H|]. split; [by vm_compute|by_evaluation].
  - intros [Hv _]%(proj2 (lookup_tool_refines ops "read" b) H). vm_compute in Hv. done.
  - apply (proj1 (lookup_tool_refines (ops ++ [OpAdd a'']) "write" a')).
    do 5 left. right. split; [reflexivity|]. split; [by_evaluation|].
    constructor; [discriminate|]. constructor; [|constructor].
    intros [_ Hw]. vm_compute in Hw. set_solver.
Defined.

(** Adding a record for a server already in the index leaves the old record
    in place under every tool the new record no longer declares: the lookup of
    a dropped tool still returns the server. *)
Theorem add_keeps_dropped_tools i v old new name :
  represents i v → v !! new.(ID) = Some old → old.(ID) = new.(ID) →
  TrimSpace name ∈ names (tool_caps old) → TrimSpace name ∉ names (tool_caps new) →
  old ∈ LookupTool (Add new i) name.
Proof.
  intros Hi Hv Hid Hold Hnew.
  assert (Hin : old ∈ LookupTool i name).
  { apply (represents_lookup_tool i v); [done|]. by rewrite Hid. }
  rewrite LookupTool_under in Hin |- *. case_bool_decide; [done|].
  unfold Add. destruct (IsRoutable _); simpl; [|done].
  rewrite under_add_names. by rewrite decide_False.
Qed.

Lemma add_keeps_dropped_tools_witness :
  let old := example_server "1" "a" StatusActive ["read"; "write"] [] in
  let new := example_server "1" "a" StatusActive ["read"] [] in
  old ∈ LookupTool (Add new (Add old NewCapabilityIndex)) "write".
Proof.
  intros old new. apply (add_keeps_dropped_tools _ {["1"%string := old]} old new).
  - apply (represents_exec NewCapabilityIndex ∅ (OpAdd old)); [|apply represents_new].
    intros _. by apply keeps_names_fresh.
  - by vm_compute.
  - done.
  - apply (bool_decide_unpack _). by vm_compute.
  - apply (bool_decide_unpack _). by vm_compute.
Defined.

(** The resource lookup is by longest prefix and does not depend on the
    order in which Go ranges over the map: with the keys in any order, a server
    is found exactly when it is listed under a key that is a prefix of the URI
    and at least as long as every other such key. *)
Theorem lookup_resource_longest i keys uri r :
  wf i → keys ≡ₚ keys_of i.(resources) →
  r ∈ LookupResourceIn keys i uri ↔
  ∃ key, r ∈ under i.(resources) key ∧ HasPrefix (TrimSpace uri) key = true ∧
    ∀ key', is_Some (i.(resources) !! key') → HasPrefix (TrimSpace uri) key' = true →
      len key' <= len key.
Proof.
  intros [_ Hwf] Hperm. unfold LookupResourceIn, longest_prefix.
  set (target := TrimSpace uri).
  destruct (longest_prefix_go target keys "") as (Hm & _ & Hmax). cbv zeta in *.
  set (m := foldl _ _ _) in *.
  assert (Hkey : ∀ key, key ∈ keys ↔ is_Some (i.(resources) !! key)).
  { intros key. by rewrite Hperm, elem_of_keys_of. }
  assert (Hunder : ∀ key, r ∈ under i.(resources) key → key ∈ keys ∧ key ≠ ""%string).
  { intros key Hr. split.
    - apply Hkey. unfold under in Hr. destruct (_ !! key); [eauto|set_solver].
    - destruct (side_wf_elem _ _ _ _ Hwf Hr) as [_ Hn]. by destruct (names_trimmed _ _ Hn). }
  assert (Hlen : ∀ key, key ≠ ""%string → 0 < len key).
  { intros key Hk. unfold len. destruct key; [done|]. simpl. lia. }
  case_bool_decide as Ht; [|case_bool_decide as Hm0].
  - split; [set_solver|]. intros (key & [_ Hne]%Hunder & Hp & _).
    rewrite Ht in Hp. destruct key; done.
  - split; [set_solver|]. intros (key & [Hk Hne]%Hunder & Hp & _).
    pose proof (Hmax key Hk Hp). pose proof (Hlen key Hne).
    assert (len m = 0) by (by rewrite Hm0). lia.
  - destruct Hm as [|[Hmk Hmp]]; [done|]. split.
    + intros Hr. exists m. split_and!; [done..|]. intros key' Hk'. by apply Hmax, Hkey.
    + intros (key & Hr & Hp & Hle). destruct (Hunder key Hr) as [Hk _].
      replace m with key; [done|]. apply (HasPrefix_same_len target); [done..|].
      apply Nat.le_antisymm; [by apply Hmax|]. apply Hle; [by apply Hkey|done].
Qed.

Lemma lookup_resource_longest_witness :
  let a := example_server "1" "a" StatusActive [] ["file://"] in
  let b := example_server "2" "b" StatusActive [] ["file://data/"] in
  let i := exec NewCapabilityIndex (OpRebuild [a; b]) in
  b ∈ LookupResourceIn (keys_of i.(resources)) i "file://data/x".
Proof.
  intros a b i.
  apply (lookup_resource_longest i (keys_of i.(resources)) "file://data/x" b
           (wf_exec _ _ (wf_new 0)) (reflexivity _)).
  exists "file://data/"%string. split_and!; [by_evaluation..|].
  intros key Hkey _. apply elem_of_keys_of in Hkey.
  assert (Hall : Forall (λ k, len k <= len "file://data/") (keys_of i.(resources))) by by_evaluation.
  rewrite Forall_forall in Hall. auto.
Defined.

(** [ListTools] returns, strictly sorted and whatever the order of the map,
    exactly the tool names declared by some live server. *)
Theorem list_tools_correct i v keys :
  represents i v → keys ≡ₚ keys_of i.(tools) →
  sort_strings keys = ListTools i ∧
  NoDup (ListTools i) ∧ StronglySorted String.le (ListTools i) ∧
  ∀ k, k ∈ ListTools i ↔ ∃ r, v !! r.(ID) = Some r ∧ k ∈ names (tool_caps r).
Proof.
  intros ([Hwf _] & Hrep & _) Hkeys. unfold ListTools. split_and!.
  - by apply sort_strings_ext.
  - rewrite sort_strings_perm. apply NoDup_fst_map_to_list.
  - apply sort_strings_sorted.
  - intros k. rewrite sort_strings_perm, elem_of_keys_of. split.
    + intros [l Hl]. destruct (Hwf k l Hl) as (Hne & _ & _). destruct l as [|r l]; [done|].
      exists r. apply Hrep. unfold under. rewrite Hl. left.
    + intros [r Hr%Hrep]. unfold under in Hr. destruct (_ !! k); [eauto|set_solver].
Qed.

Lemma list_tools_correct_witness :
  let a := example_server "1" "a" StatusActive ["write"; "read"] [] in
  let i := exec NewCapabilityIndex (OpRebuild [a]) in
  ListTools i = sort_strings ["write"; "read"]%string ∧ "write"%string ∈ ListTools i.
Proof.
  intros a i.
  destruct (list_tools_correct i (exec_view ∅ (OpRebuild [a])) ["write"; "read"]%string)
    as (H1 & _ & _ & H4).
  - apply represents_exec; [apply NoDup_singleton|apply represents_new].
  - by_evaluation.
  - split; [done|]. apply H4. exists a. split; by_evaluation.
Defined.

(** *** Lookup by server name *)

Lemma lookup_server_go_Some `{UnicodeTables} seen target l r :
  lookup_server_go seen target l = Some r →
  r ∈ l ∧ r.(ID) ∉ seen ∧ EqualFold (TrimSpace r.(Name)) target = true.
Proof.
  revert seen. induction l as [|x l IH]; intros seen; simpl; [done|].
  case_bool_decide; [|destruct (EqualFold (TrimSpace x.(Name)) target) eqn:E].
  - intros (?&?&?)%IH. set_solver.
  - intros Heq. simplify_eq. split_and!; [left|done..].
  - intros (?&?&?)%IH. set_solver.
Qed.

Lemma lookup_server_go_None `{UnicodeTables} seen target l :
  lookup_server_go seen target l = None →
  ∀ r, r ∈ l → (∀ r', r' ∈ l → r'.(ID) = r.(ID) → r' = r) → r.(ID) ∉ seen →
  EqualFold (TrimSpace r.(Name)) target = false.
Proof.
  revert seen. induction l as [|x l IH]; intros seen; simpl; [set_solver|].
  intros Hnone r Hr Huniq Hseen.
  assert (Htail : ∀ seen', lookup_server_go seen' target l = None → r.(ID) ∉ seen' → r ≠ x →
    EqualFold (TrimSpace r.(Name)) target = false).
  { intros seen' Hn Hs Hne. apply (IH seen'); [done|set_solver|set_solver|done]. }
  case_bool_decide as Hx.
  - apply (Htail seen); [done..|]. by intros ->.
  - destruct (EqualFold (TrimSpace x.(Name)) target) eqn:E; [done|].
    destruct (decide (r = x)) as [->|Hne]; [done|].
    apply (Htail _ Hnone); [|done]. intros [Hid%elem_of_singleton|]%elem_of_union; [|done].
    apply Hne. symmetry. apply Huniq; [left|done].
Qed.

(** [LookupServer], whatever the order of the map: a result is a live server
    with at least one tool whose name matches, ignoring case; no result means
    there is no such server. *)
Theorem lookup_server_correct `{UnicodeTables} i v order name :
  represents i v → order ≡ₚ (map_to_list i.(tools)).*2 → TrimSpace name ≠ ""%string →
  match LookupServerIn order name with
  | Some r =>
      v !! r.(ID) = Some r ∧ names (tool_caps r) ≠ [] ∧
      EqualFold (TrimSpace r.(Name)) (TrimSpace name) = true
  | None =>
      ∀ r, v !! r.(ID) = Some r → names (tool_caps r) ≠ [] →
        EqualFold (TrimSpace r.(Name)) (TrimSpace name) = false
  end.
Proof.
  intros (_ & Hrep & _) Hord Hne. unfold LookupServerIn. rewrite bool_decide_eq_false_2 by done.
  assert (Hin : ∀ r, r ∈ mjoin order ↔ v !! r.(ID) = Some r ∧ names (tool_caps r) ≠ []).
  { intros r. rewrite list_elem_of_join. setoid_rewrite Hord.
    setoid_rewrite list_elem_of_fmap. split.
    - intros (l & Hr & [k l'] & -> & Hk%elem_of_map_to_list). simpl in *.
      assert (Hu : r ∈ under i.(tools) k) by (unfold under; by rewrite Hk).
      apply Hrep in Hu as [? Hk']. split; [done|]. by destruct (names _); [set_solver|].
    - intros [Hv Hn]. destruct (names (tool_caps r)) as [|k ks] eqn:E; [done|].
      assert (Hu : r ∈ under i.(tools) k) by (apply Hrep; rewrite E; split; [done|left]).
      unfold under in Hu. destruct (i.(tools) !! k) as [l|] eqn:Hk; simpl in Hu; [|set_solver].
      exists l. split; [done|]. exists (k, l). by rewrite elem_of_map_to_list. }
  destruct (lookup_server_go ∅ _ _) as [r|] eqn:E.
  - apply lookup_server_go_Some in E as (Hr & _ & ?). by apply Hin in Hr as [??].
  - intros r Hv Hn. apply (lookup_server_go_None _ _ _ E); [by apply Hin| |set_solver].
    intros r' [Hv' _]%Hin Hid. rewrite Hid in Hv'. congruence.
Qed.

#[local] Existing Instance ascii_tables.
Lemma lookup_server_correct_witness :
  let a := example_server "1" "Alpha" StatusActive ["read"] [] in
  let i := exec NewCapabilityIndex (OpRebuild [a]) in
  LookupServerIn (map_to_list i.(tools)).*2 " alpha" ≠ None.
Proof.
  intros a i Hnone.
  assert (Hi : represents i (exec_view ∅ (OpRebuild [a]))).
  { apply represents_exec; [apply NoDup_singleton|apply represents_new]. }
  pose proof (lookup_server_correct i _ _ " alpha" Hi (reflexivity _) ltac:(by_evaluation)) as Hl.
  rewrite Hnone in Hl. specialize (Hl a ltac:(by_evaluation) ltac:(by_evaluation)).
  vm_compute in Hl. done.
Defined.

(** The active-tool gauge equals the number of indexed tools after [Add] of
    a routable server, [Rebuild] and [Remove]; but after [RefreshServer] of a
    routable server it holds the number of tools without that server, so a
    refresh of the only server of a tool reports one tool too few. *)
Theorem active_tool_gauge :
  (∀ i r, IsRoutable r.(Status) = true → (Add r i).(active_tools) = ToolCount (Add r i)) ∧
  (∀ i l, (Rebuild l i).(active_tools) = ToolCount (Rebuild l i)) ∧
  (∀ i id, TrimSpace id ≠ ""%string → (Remove id i).(active_tools) = ToolCount (Remove id i)) ∧
  (∀ i id r, TrimSpace id ≠ ""%string →
     (RefreshServer id (Ok (Some r)) i).2.(active_tools) = ToolCount (Remove id i)) ∧
  ∃ i r, i.(active_tools) = ToolCount i ∧
    (RefreshServer r.(ID) (Ok (Some r)) i).2.(active_tools) = 0 ∧
    ToolCount (RefreshServer r.(ID) (Ok (Some r)) i).2 = 1.
Proof.
  split_and!.
  - intros i r Hr. unfold Add. by rewrite Hr.
  - done.
  - intros i id Hid. unfold Remove. by rewrite bool_decide_eq_false_2.
  - intros i id r Hid. unfold RefreshServer, Remove.
    rewrite bool_decide_eq_false_2 by done. simpl. by destruct (IsRoutable _).
  - set (r := example_server "1" "a" StatusActive ["read"] []).
    exists (Add r NewCapabilityIndex), r. by vm_compute.
Qed.
