(* ===== verification/Registration.v ===== *)
(** * The registration service: [internal/registration]

    Registration, heartbeat, acknowledgement, deregistration and capability
    refresh (service.go, heartbeat.go, refresh.go), and the wrapper that keeps
    the capability index in step (cmd/mcpgw/serve.go). A call runs on the
    [World]: the database, the index of this pod, the service's own settings,
    and the trace of what it emitted (audit entries, lifecycle events,
    broadcasts, the active-registration gauge). A call reads the clock once; the
    clock moves between calls. Errors of audit, publishing and broadcasting are
    logged and dropped by the code, so the trace records the attempts. *)

From S2P Require Import Prelude GoStrings Encoding GoNet Types Spiffe RegTypes Store Json.
From S2P Require Import Classification Lifecycle CapIndex.

#[local] Open Scope string_scope.
#[local] Open Scope list_scope.
#[local] Open Scope nat_scope.
#[local] Open Scope go_scope.

(** ** Errors of the service *)

Definition ErrInvalidRequest : error := Sentinel "invalid request".
Definition ErrUnauthorized : error := Sentinel "unauthorized".
Definition ErrForbidden : error := Sentinel "forbidden".
Definition ErrNotFound : error := Sentinel "not found".

(** ** The world *)

Record AuditEntry := mkAuditEntry {
  ae_EventType : string;
  ae_ClientID : string;
  ae_ServerName : string;
  ae_Details : list (string * string);
}.

(** [LifecycleEventPublisher]. *)
Inductive LifecycleEvent :=
| ServerRegistered (server : ServerRecord)
| ServerDeregistered (serverID name reason : string)
| ServerHealthChanged (serverID name : string) (oldStatus newStatus : ServerStatus).

(** The payloads broadcast to the other pods. *)
Inductive Broadcast :=
| RegistrationEvent (EventType ServerID : string) (Timestamp : Z)
| ClassificationEvent (ToolName RiskLevel UpdatedBy : string) (Timestamp : Z)
| CapabilitiesChanged (ServerID Hash : string) (ToolCount : Z).

Abbreviation settings := (list (string * any)).

Record World := mkWorld {
  w_db : DB;
  w_index : CapabilityIndex;
  w_spiffeAllowList : list string;
  w_settingsVersion : Z;
  w_effectiveSettings : gmap string settings;
  w_audit : list AuditEntry;
  w_events : list LifecycleEvent;
  w_broadcasts : list Broadcast;
  w_registrations : gmap string Z;
  w_rand : nat;
}.

Definition w_now (w : World) : Z := w.(w_db).(db_now).

Definition set_db (x : DB) (w : World) : World :=
  mkWorld x w.(w_index) w.(w_spiffeAllowList) w.(w_settingsVersion) w.(w_effectiveSettings)
    w.(w_audit) w.(w_events) w.(w_broadcasts) w.(w_registrations) w.(w_rand).
Definition set_index (x : CapabilityIndex) (w : World) : World :=
  mkWorld w.(w_db) x w.(w_spiffeAllowList) w.(w_settingsVersion) w.(w_effectiveSettings)
    w.(w_audit) w.(w_events) w.(w_broadcasts) w.(w_registrations) w.(w_rand).
Definition set_settings (v : Z) (x : gmap string settings) (w : World) : World :=
  mkWorld w.(w_db) w.(w_index) w.(w_spiffeAllowList) v x
    w.(w_audit) w.(w_events) w.(w_broadcasts) w.(w_registrations) w.(w_rand).
Definition set_allow (x : list string) (w : World) : World :=
  mkWorld w.(w_db) w.(w_index) x w.(w_settingsVersion) w.(w_effectiveSettings)
    w.(w_audit) w.(w_events) w.(w_broadcasts) w.(w_registrations) w.(w_rand).
Definition add_audit (x : AuditEntry) (w : World) : World :=
  mkWorld w.(w_db) w.(w_index) w.(w_spiffeAllowList) w.(w_settingsVersion) w.(w_effectiveSettings)
    (w.(w_audit) ++ [x]) w.(w_events) w.(w_broadcasts) w.(w_registrations) w.(w_rand).
Definition add_event (x : LifecycleEvent) (w : World) : World :=
  mkWorld w.(w_db) w.(w_index) w.(w_spiffeAllowList) w.(w_settingsVersion) w.(w_effectiveSettings)
    w.(w_audit) (w.(w_events) ++ [x]) w.(w_broadcasts) w.(w_registrations) w.(w_rand).
Definition add_broadcast (x : Broadcast) (w : World) : World :=
  mkWorld w.(w_db) w.(w_index) w.(w_spiffeAllowList) w.(w_settingsVersion) w.(w_effectiveSettings)
    w.(w_audit) w.(w_events) (w.(w_broadcasts) ++ [x]) w.(w_registrations) w.(w_rand).
Definition set_registrations (x : gmap string Z) (w : World) : World :=
  mkWorld w.(w_db) w.(w_index) w.(w_spiffeAllowList) w.(w_settingsVersion) w.(w_effectiveSettings)
    w.(w_audit) w.(w_events) w.(w_broadcasts) x w.(w_rand).
Definition next_rand (w : World) : World :=
  mkWorld w.(w_db) w.(w_index) w.(w_spiffeAllowList) w.(w_settingsVersion) w.(w_effectiveSettings)
    w.(w_audit) w.(w_events) w.(w_broadcasts) w.(w_registrations) (S w.(w_rand)).

(** A call of the database. *)
Definition on_db {A} (m : ST DB A) : ST World A := λ w,
  let '(r, db) := m w.(w_db) in (r, set_db db w).

(** [AddActiveRegistrations]. *)
Definition AddActiveRegistrations (status : string) (delta : Z) : ST World () :=
  modify (λ w, set_registrations
    (<[status := (default 0 (w.(w_registrations) !! status) + delta)%Z]> w.(w_registrations)) w).

(** The part of [config.Config] the service reads. *)
Record Config := mkConfig {
  HeartbeatTTL : Z;
  RateDefault : Z;
  ConfigRateBurst : Z;
  CapabilityRefreshEnabled : bool;
}.

(** [Service]: what it is wired with. Optional collaborators may be nil. *)
Record Service := mkService {
  svc_config : option Config;
  svc_classificationStore : bool;
  svc_auditStore : bool;
  svc_publisher : bool;
  svc_broadcaster : bool;
  svc_toolLister : option (ServerRecord → result (list string));
  svc_capabilityIndex : bool;
}.

(** The blocks that [crypto/rand] delivers. *)
Class Entropy := rand_block : nat → option bytes.

(** ** Helpers of service.go *)

(** [copyStringSlice]. *)
Definition copyStringSlice (values : list string) : list string :=
  filter (λ v, v ≠ "") (TrimSpace <$> values).

(** [defaultPolicyProfile]. *)
Definition defaultPolicyProfile (cfg : option Config) : PolicyProfile :=
  let rateLimit := match cfg with
    | Some c => if (0 <? c.(RateDefault))%Z then c.(RateDefault) else 10%Z
    | None => 10%Z
    end in
  let rateBurst := match cfg with
    | Some c => if (0 <? c.(ConfigRateBurst))%Z then c.(ConfigRateBurst) else 20%Z
    | None => 20%Z
    end in
  mkPolicyProfile "default" rateLimit rateBurst [] [] ModeEnforce.

(** [heartbeatIntervalSeconds]; durations are divided towards zero. *)
Definition heartbeatIntervalSeconds (cfg : option Config) : Z :=
  match cfg with
  | None => 30
  | Some c =>
      if (c.(HeartbeatTTL) <=? 0)%Z then 30
      else
        let seconds := Z.quot c.(HeartbeatTTL) second in
        if (seconds <=? 0)%Z then 1 else seconds
  end%Z.

(** [nextLeaseEpoch], on [int64]. *)
Definition nextLeaseEpoch (current : Z) : Z :=
  if (current <=? 0)%Z then 1%Z else wrap_i64 (current + 1).

(** The bytes of a version 4 UUID. *)
Definition uuid_bytes (b : bytes) : bytes :=
  let set i f l := match l !! i with Some x => <[i := f x]> l | None => l end in
  set 8 (λ x, ascii_of_N (N.lor (N.land (code x) 63) 128))
    (set 6 (λ x, ascii_of_N (N.lor (N.land (code x) 15) 64)) b).

Definition format_uuid (b : bytes) : string :=
  let dash := to_bytes "-" in
  let part i n := hex_encode (take n (drop i b)) in
  of_bytes (part 0 4 ++ dash ++ part 4 2 ++ dash ++ part 6 2 ++ dash ++ part 8 2 ++ dash
              ++ part 10 6).

(** [hashCapabilities]. *)
Definition capability_payload (c : Capability) : bytes :=
  to_bytes "{" ++ json_string "tools" ++ to_bytes ":" ++ json_nil_or_strings (sort_strings c.(Tools))
  ++ to_bytes "," ++ json_string "resources" ++ to_bytes ":"
  ++ json_nil_or_strings (sort_strings c.(Resources))
  ++ to_bytes "," ++ json_string "prompts" ++ to_bytes ":"
  ++ json_nil_or_strings (sort_strings c.(Prompts)) ++ to_bytes "}".

Definition hashCapabilities (c : Capability) : string :=
  of_bytes (hex_encode (Sum256 (capability_payload c))).

(** [cloneSettings], on the entries in the order Go ranges over them. *)
Fixpoint clone_value (v : any) : any :=
  match v with
  | AObj m =>
      AObj (foldl (λ out p, if bool_decide (p.1 = "") then out else assign out p.1 p.2) []
        ((fix go m := match m with
                      | [] => []
                      | (k, x) :: m' => (TrimSpace k, clone_value x) :: go m'
                      end) m))
  | AArr l =>
      AArr ((fix go l := match l with
                         | [] => []
                         | (AObj m as x) :: l' => clone_value x :: go l'
                         | x :: l' => x :: go l'
                         end) l)
  | v => v
  end.

Definition cloneSettings (input : settings) : settings :=
  match clone_value (AObj input) with AObj m => m | _ => [] end.

(** [UpdateEffectiveSettings]; [settingsByServer] in the order Go ranges over
    the map. *)
Definition next_settings (settingsByServer : list (string * settings)) : gmap string settings :=
  foldl (λ next p,
    let name := TrimSpace p.1 in
    if bool_decide (name = "") then next else <[name := cloneSettings p.2]> next) ∅ settingsByServer.

Definition UpdateEffectiveSettings (configVersion : Z) (settingsByServer : list (string * settings)) :
    ST World () :=
  if (configVersion <=? 0)%Z then
    throw (Opaque "update effective settings: config version must be positive")
  else
    let* version := gets w_settingsVersion in
    if (configVersion <? version)%Z then throw (Opaque "update effective settings: stale config version")
    else modify (set_settings configVersion (next_settings settingsByServer)).

(** [UpdateSPIFFEAllowList]. *)
Definition UpdateSPIFFEAllowList (prefixes : list string) : ST World () :=
  modify (set_allow (copyStringSlice prefixes)).

(** [effectiveSettingsForServer]. *)
Definition effectiveSettingsForServer (serverName : string) : ST World (Z * settings) :=
  let key := TrimSpace serverName in
  gets (λ w, (w.(w_settingsVersion),
    match w.(w_effectiveSettings) !! key with Some s => cloneSettings s | None => [] end)).

(** ** Responses *)

Record RegistrationResponse := mkRegistrationResponse {
  rr_InstanceID : string;
  rr_RegistrationID : string;
  rr_LeaseEpoch : Z;
  rr_CapabilityHash : string;
  rr_SyncState : RegistrationSyncState;
  rr_LastPlatformAckVersion : string;
  rr_PolicySnapshot : PolicyProfile;
  rr_HeartbeatInterval : Z;
  rr_HeartbeatIntervalSeconds : Z;
  rr_ConfigVersion : Z;
  rr_EffectiveSettings : settings;
  rr_Status : ServerStatus;
}.

Record HeartbeatRequest := mkHeartbeatRequest {
  hq_Status : string;
  hq_RegistrationID : string;
  hq_LeaseEpoch : Z;
  hq_CapabilityHash : string;
}.

Inductive HeartbeatAction :=
  HeartbeatActionNone | HeartbeatActionReRegister | HeartbeatActionResendCapabilities.

#[export] Instance HeartbeatAction_eq_dec : EqDecision HeartbeatAction.
Proof. solve_decision. Defined.

Record HeartbeatResponse := mkHeartbeatResponse {
  hr_ServerStatus : ServerStatus;
  hr_NextDeadline : Z;
  hr_LeaseEpoch : Z;
  hr_SyncState : RegistrationSyncState;
  hr_Action : HeartbeatAction;
  hr_CapabilityHash : string;
  hr_ConfigVersion : Z;
  hr_EffectiveSettings : settings;
}.

Record RefreshResult := mkRefreshResult {
  rf_ToolsCount : Z;
  rf_NewHash : string;
  rf_Reindexed : bool;
  rf_ToolNames : list string;
}.

(** ** The service *)

Section service.
Context `{UnicodeTables} `{Postgres} `{Entropy}.
Context (svc : Service).

(** [newUUID]; the fallback when the entropy source fails is named after the
    clock. *)
Definition newUUID : ST World string := λ w,
  match rand_block w.(w_rand) with
  | None => (Ok ("reg-" +:+ pretty (w_now w)), next_rand w)
  | Some b => (Ok (format_uuid (uuid_bytes b)), next_rand w)
  end.

(** [logAudit]. *)
Definition logAudit (entry : AuditEntry) : ST World () :=
  if svc.(svc_auditStore) then modify (add_audit entry) else ret ().

(** A call of the publisher, when there is one. *)
Definition publish (e : LifecycleEvent) : ST World () :=
  if svc.(svc_publisher) then modify (add_event e) else ret ().

Definition UnixMilli (t : Z) : Z := Z.div t millisecond.

(** [publishBroadcast] and [publishClassificationBroadcast]. *)
Definition publishBroadcast (eventType serverID : string) : ST World () :=
  if svc.(svc_broadcaster) then
    modify (λ w, add_broadcast (RegistrationEvent eventType serverID (UnixMilli (w_now w))) w)
  else ret ().

Definition publishClassificationBroadcast (toolName riskLevel updatedBy : string) : ST World () :=
  if svc.(svc_broadcaster) then
    modify (λ w, add_broadcast
      (ClassificationEvent toolName riskLevel updatedBy (UnixMilli (w_now w))) w)
  else ret ().

(** The body of the loop of [classifyNewTools]. *)
Definition classify_tool (callerID : string) (toolName : string) : ST World () :=
  let name := TrimSpace toolName in
  if bool_decide (name = "") then ret ()
  else
    let* r := attempt (on_db (ClassificationGet name)) in
    match r with
    | Err _ => ret ()
    | Ok existing =>
        if match existing with Some tc => negb tc.(tc_AutoClassified) | None => false end then ret ()
        else
          let '(riskLevel, reason) := AutoClassify name "" in
          let* now := gets w_now in
          let* u := attempt (on_db (ClassificationUpsert
            (mkToolClassification name riskLevel reason true callerID now))) in
          match u with
          | Err _ => ret ()
          | Ok _ => publishClassificationBroadcast name (RiskLevel_String riskLevel) callerID
          end
    end.

(** [classifyNewTools]. *)
Definition classifyNewTools (cap : Capability) (callerID : string) : ST World () :=
  if negb svc.(svc_classificationStore) || bool_decide (cap.(Tools) = []) then ret ()
  else for_each (classify_tool callerID) cap.(Tools).

(** [SyncClassifications]. *)
Definition SyncClassifications (servers : list ServerRecord) : ST World () :=
  if negb svc.(svc_classificationStore) then ret ()
  else for_each (λ srv, classifyNewTools srv.(Capabilities) srv.(SPIFFEID)) servers.

(** [postRegister]. *)
Definition postRegister (callerID : string) (record : ServerRecord) (capabilities : Capability) :
    ST World () :=
  logAudit (mkAuditEntry "server.registered" callerID record.(Name)
    [("server_id", record.(ID)); ("spiffe_id", record.(SPIFFEID))]) ;;
  publish (ServerRegistered record) ;;
  publishBroadcast "registered" record.(ID) ;;
  classifyNewTools capabilities callerID.

(** [normalizedListenProtocol]. *)
Definition normalizedListenProtocol (raw : string) : string :=
  let protocol := ToLower (TrimSpace raw) in
  if bool_decide (protocol = "http") || bool_decide (protocol = "https") then protocol else "https".

(** The record [Register] builds, before it looks for an existing one. *)
Definition new_record (id : string) (callerID : string) (req : RegistrationRequest) (now : Z) :
    ServerRecord :=
  mkServerRecord id (TrimSpace req.(rq_ServiceName)) callerID (TrimSpace req.(rq_Version))
    (TrimSpace req.(rq_Listen).(lc_Host)) req.(rq_Listen).(lc_Port)
    (normalizedListenProtocol req.(rq_Listen).(lc_Protocol)) req.(rq_Capabilities)
    StatusActive (defaultPolicyProfile svc.(svc_config)).(pp_Name) None 1
    (hashCapabilities req.(rq_Capabilities)) SyncStateUnacked "" None None None "" now now.

(** [record.ID = existing.ID] and the two assignments after it. *)
Definition renew (existing record : ServerRecord) : ServerRecord :=
  mkServerRecord existing.(ID) record.(Name) record.(SPIFFEID) record.(Version) record.(Host)
    record.(Port) record.(Protocol) record.(Capabilities) record.(Status)
    record.(PolicyProfileName) record.(LastHeartbeat) (nextLeaseEpoch existing.(LeaseEpoch))
    record.(CapabilityHash) record.(SyncState) record.(LastPlatformAckVersion)
    record.(LastPlatformAckAt) record.(RateLimit) record.(RateBurst) record.(RoutingStrategy)
    existing.(CreatedAt) record.(UpdatedAt).

(** [fmt.Errorf(ctx + "%w", err)] for a call that fails. *)
Definition wrapping {A} (ctx : string) (m : ST World A) : ST World A := λ w,
  match m w with
  | (Err e, w') => (Err (Wrap ctx e), w')
  | r => r
  end.

(** [Register]. *)
Definition Register (caller : option Identity) (req : RegistrationRequest) :
    ST World RegistrationResponse :=
  match caller with
  | None => throw (Wrap "register" ErrUnauthorized)
  | Some caller =>
      if negb (bool_decide (caller.(id_Type) = IdentityMTLS)) then
        throw (Wrap "register" ErrUnauthorized)
      else if negb (is_ok (Validate req)) then throw (Wrap "register" ErrInvalidRequest)
      else
        let* allowed := gets (λ w, copyStringSlice w.(w_spiffeAllowList)) in
        if negb (is_ok (ValidateSPIFFEID caller.(id_ID) allowed)) then
          throw (Wrap "register" ErrForbidden)
        else
          let* now := gets w_now in
          let* id := newUUID in
          let record := new_record id caller.(id_ID) req now in
          let* found := attempt (on_db (GetBySPIFFEID caller.(id_ID))) in
          let* record :=
            match found with
            | Ok existing =>
                let record := renew existing record in
                wrapping "register: update existing registration" (on_db (Update record)) ;;
                ret record
            | Err err =>
                if negb (errors_is err ErrNoRows) then throw (Wrap "register: lookup by spiffe id" err)
                else
                  wrapping "register: create registration" (on_db (Create record)) ;;
                  AddActiveRegistrations (ServerStatus_String record.(Status)) 1 ;;
                  ret record
            end in
          postRegister caller.(id_ID) record req.(rq_Capabilities) ;;
          let interval := heartbeatIntervalSeconds svc.(svc_config) in
          let* s := effectiveSettingsForServer record.(Name) in
          ret (mkRegistrationResponse record.(ID) record.(ID) record.(LeaseEpoch)
                 record.(CapabilityHash) record.(SyncState) record.(LastPlatformAckVersion)
                 (defaultPolicyProfile svc.(svc_config)) interval interval s.1 s.2 record.(Status))
  end.

(** [AcknowledgeServerRegistration]. *)
Definition AcknowledgeServerRegistration (registrationID : string) (leaseEpoch : Z)
    (capabilityHash ackVersion : string) (ackedAt : Z) : ST World () :=
  if bool_decide (TrimSpace registrationID = "") then throw (Wrap "ack registration" ErrInvalidRequest)
  else if (leaseEpoch <=? 0)%Z then throw (Wrap "ack registration" ErrInvalidRequest)
  else
    let* now := gets w_now in
    let ackedAt := if (ackedAt =? zero_time)%Z then now else ackedAt in
    let* r := attempt (on_db
      (AcknowledgeRegistration registrationID leaseEpoch capabilityHash ackVersion ackedAt)) in
    match r with
    | Err err =>
        if errors_is err ErrNoRows then throw (Wrap "ack registration" ErrNotFound)
        else throw (Wrap "ack registration" err)
    | Ok _ => ret ()
    end.

(** [Deregister]. *)
Definition Deregister (caller : option Identity) (id : string) : ST World () :=
  if bool_decide (TrimSpace id = "") then throw (Wrap "deregister" ErrInvalidRequest)
  else
    match caller with
    | None => throw (Wrap "deregister" ErrUnauthorized)
    | Some caller =>
        let* r := attempt (on_db (Get id)) in
        match r with
        | Err err =>
            if errors_is err ErrNoRows then throw (Wrap "deregister" ErrNotFound)
            else throw (Wrap "deregister: get registration" err)
        | Ok record =>
            let isAdmin := HasScope (Some caller) ScopeAdmin in
            let isSelf := bool_decide (caller.(id_Type) = IdentityMTLS)
                          && bool_decide (caller.(id_ID) = record.(SPIFFEID)) in
            if negb isAdmin && negb isSelf then throw (Wrap "deregister" ErrForbidden)
            else
              wrapping "deregister: delete registration" (on_db (Delete id)) ;;
              AddActiveRegistrations (ServerStatus_String record.(Status)) (-1) ;;
              logAudit (mkAuditEntry "server.deregistered" caller.(id_ID) record.(Name)
                [("server_id", record.(ID)); ("spiffe_id", record.(SPIFFEID))]) ;;
              publish (ServerDeregistered record.(ID) record.(Name) "deregistered") ;;
              publishBroadcast "deregistered" record.(ID)
        end
    end.

(** *** Capability refresh (refresh.go) *)

(** [RefreshServer] on the index of the world, asking the database. *)
Definition index_refresh (serverID : string) : ST World () := λ w,
  if bool_decide (TrimSpace serverID = "") then
    let '(r, i) := RefreshServer serverID (Ok None) w.(w_index) in (r, set_index i w)
  else
    let '(r, db) := Get serverID w.(w_db) in
    let record := match r with Ok rec => Ok (Some rec) | Err e => Err e end in
    let '(res, i) := RefreshServer serverID record w.(w_index) in
    (res, set_index i (set_db db w)).

(** [RefreshCapabilities], the function; [lister] is the tool lister given to
    it. An error of the index refresh is logged only. *)
Definition RefreshCapabilities (server : ServerRecord) (newHash : string)
    (lister : option (ServerRecord → result (list string))) : ST World RefreshResult :=
  match lister with
  | None => throw (Opaque "refresh capabilities: nil dependency")
  | Some lister =>
      if negb svc.(svc_capabilityIndex) then throw (Opaque "refresh capabilities: nil dependency")
      else
        let serverID := TrimSpace server.(ID) in
        match lister server with
        | Err err => throw (Wrap "refresh capabilities: list tools" err)
        | Ok toolNames =>
            let server := set_capability_hash newHash server in
            let caps := server.(Capabilities) in
            let server := set_capabilities (mkCapability toolNames caps.(Resources) caps.(Prompts)) server in
            wrapping "refresh capabilities: update server" (on_db (Update server)) ;;
            let* _ := attempt (index_refresh serverID) in
            (if svc.(svc_broadcaster) then
               modify (add_broadcast (CapabilitiesChanged serverID newHash (Z.of_nat (length toolNames))))
             else ret ()) ;;
            ret (mkRefreshResult (Z.of_nat (length toolNames)) newHash true toolNames)
        end
  end.

(** [Service.RefreshCapabilities]. *)
Definition ServiceRefreshCapabilities (serverID : string) : ST World RefreshResult :=
  let* record := wrapping "refresh capabilities: get server" (on_db (Get serverID)) in
  RefreshCapabilities record record.(CapabilityHash) svc.(svc_toolLister).

(** *** Heartbeat (heartbeat.go) *)

(** [lookupHeartbeatRecord]. *)
Definition lookupHeartbeatRecord (caller : Identity) (id : string) : ST World ServerRecord :=
  let* r := attempt (on_db (Get id)) in
  match r with
  | Err err =>
      if errors_is err ErrNoRows then throw (Wrap "heartbeat" ErrNotFound)
      else throw (Wrap "heartbeat: get registration" err)
  | Ok record =>
      if negb (bool_decide (caller.(id_ID) = record.(SPIFFEID))) then
        throw (Wrap "heartbeat" ErrForbidden)
      else ret record
  end.

(** [resolveHeartbeatAction]. *)
Definition resolveHeartbeatAction (req : HeartbeatRequest) (record : ServerRecord) : HeartbeatAction :=
  let requestedRegistrationID := TrimSpace req.(hq_RegistrationID) in
  let action :=
    if negb (bool_decide (requestedRegistrationID = ""))
       && negb (bool_decide (requestedRegistrationID = record.(ID)))
    then HeartbeatActionReRegister else HeartbeatActionNone in
  if (0 <? req.(hq_LeaseEpoch))%Z && negb (req.(hq_LeaseEpoch) =? record.(LeaseEpoch))%Z
  then HeartbeatActionReRegister else action.

(** [applyHeartbeatTransition]. *)
Definition applyHeartbeatTransition (id : string) (record : ServerRecord) : ST World ServerStatus :=
  match Transition record.(Status) EventHeartbeat with
  | Err _ => throw (Wrap "heartbeat" ErrInvalidRequest)
  | Ok nextStatus =>
      (if negb (bool_decide (nextStatus = record.(Status))) then
         wrapping "heartbeat: update status" (on_db (UpdateStatus id nextStatus)) ;;
         AddActiveRegistrations (ServerStatus_String record.(Status)) (-1) ;;
         AddActiveRegistrations (ServerStatus_String nextStatus) 1 ;;
         publish (ServerHealthChanged record.(ID) record.(Name) record.(Status) nextStatus) ;;
         publishBroadcast "status_changed" record.(ID)
       else ret ()) ;;
      ret nextStatus
  end.

Definition refresh_enabled : bool :=
  match svc.(svc_config) with Some c => c.(CapabilityRefreshEnabled) | None => false end.

(** [Heartbeat]. *)
Definition Heartbeat (caller : option Identity) (id : string) (req : HeartbeatRequest) :
    ST World HeartbeatResponse :=
  if bool_decide (TrimSpace id = "") then throw (Wrap "heartbeat" ErrInvalidRequest)
  else
    match caller with
    | None => throw (Wrap "heartbeat" ErrUnauthorized)
    | Some caller =>
        if negb (bool_decide (caller.(id_Type) = IdentityMTLS)) then
          throw (Wrap "heartbeat" ErrUnauthorized)
        else
          let* record := lookupHeartbeatRecord caller id in
          let action := resolveHeartbeatAction req record in
          let* now := gets w_now in
          let nextDeadline :=
            (now + wrap_i64 (heartbeatIntervalSeconds svc.(svc_config) * second))%Z in
          let* s := effectiveSettingsForServer record.(Name) in
          if bool_decide (action = HeartbeatActionReRegister) then
            ret (mkHeartbeatResponse record.(Status) nextDeadline record.(LeaseEpoch)
                   record.(SyncState) action record.(CapabilityHash) s.1 s.2)
          else
            let reqHash := TrimSpace req.(hq_CapabilityHash) in
            let changed := negb (bool_decide (reqHash = ""))
              && negb (bool_decide (reqHash = TrimSpace record.(CapabilityHash))) in
            let action := if changed then HeartbeatActionResendCapabilities else action in
            let* nextStatus := applyHeartbeatTransition id record in
            wrapping "heartbeat: update heartbeat" (on_db (UpdateHeartbeat id)) ;;
            let* capabilityHash :=
              if changed && refresh_enabled && bool_decide (is_Some svc.(svc_toolLister)) then
                let* refreshed := attempt (RefreshCapabilities record reqHash svc.(svc_toolLister)) in
                ret (if is_ok refreshed then reqHash else record.(CapabilityHash))
              else ret record.(CapabilityHash) in
            let syncState :=
              if bool_decide (record.(SyncState) = SyncStateRaw "") then SyncStateUnacked
              else record.(SyncState) in
            ret (mkHeartbeatResponse nextStatus nextDeadline record.(LeaseEpoch) syncState action
                   capabilityHash s.1 s.2)
    end.

(** ** The indexed service (cmd/mcpgw/serve.go) *)

(** [syncServer]. *)
Definition syncServer (id : string) : ST World () :=
  if bool_decide (TrimSpace id = "") then ret ()
  else
    let* r := attempt (on_db (Get id)) in
    match r with
    | Err _ => ret ()
    | Ok record => modify (λ w, set_index (Add record w.(w_index)) w)
    end.

Definition indexRemove (id : string) : ST World () :=
  modify (λ w, set_index (Remove id w.(w_index)) w).

(** [indexedRegistrationService.Register]. *)
Definition IndexedRegister (caller : option Identity) (req : RegistrationRequest) :
    ST World RegistrationResponse :=
  let* resp := Register caller req in
  (if IsRoutable resp.(rr_Status) then syncServer resp.(rr_InstanceID) else ret ()) ;;
  ret resp.

(** [indexedRegistrationService.Heartbeat]. *)
Definition IndexedHeartbeat (caller : option Identity) (id : string) (req : HeartbeatRequest) :
    ST World HeartbeatResponse :=
  let* resp := Heartbeat caller id req in
  (if IsRoutable resp.(hr_ServerStatus) then syncServer id else indexRemove id) ;;
  ret resp.

(** [indexedRegistrationService.Deregister]. *)
Definition IndexedDeregister (caller : option Identity) (id : string) : ST World () :=
  Deregister caller id ;; indexRemove id.

(** ** The subscriber (subscriber.go) *)

(** [RegistrationSubscriber.handle], on a decoded event. *)
Definition SubscriberHandle (EventType ServerID : string) : ST World () :=
  let serverID := TrimSpace ServerID in
  if bool_decide (serverID = "") then ret ()
  else if bool_decide (EventType = "registered") || bool_decide (EventType = "status_changed") then
    let* _ := attempt (index_refresh serverID) in ret ()
  else if bool_decide (EventType = "deregistered") then indexRemove serverID
  else ret ().

(** ** The sweeper (sweeper.go) *)

(** [interval]. *)
Definition interval : Z :=
  match svc.(svc_config) with
  | Some c => if (0 <? c.(HeartbeatTTL))%Z then c.(HeartbeatTTL) else 30 * second
  | None => 30 * second
  end%Z.

(** [transitionServer]; its result tells whether the transition succeeded. *)
Definition transitionServer (server : ServerRecord) (event : Event) : ST World bool :=
  match Transition server.(Status) event with
  | Err _ => ret false
  | Ok nextStatus =>
      let* r := attempt (on_db (UpdateStatus server.(ID) nextStatus)) in
      match r with
      | Err _ => ret false
      | Ok _ =>
          AddActiveRegistrations (ServerStatus_String server.(Status)) (-1) ;;
          AddActiveRegistrations (ServerStatus_String nextStatus) 1 ;;
          publish (ServerHealthChanged server.(ID) server.(Name) server.(Status) nextStatus) ;;
          ret true
      end
  end.

(** [sweepStale] and [sweepExpired]; the counts are only logged. *)
Definition sweepStale (threshold : Z) : ST World () :=
  let* r := attempt (on_db (ListStale threshold)) in
  match r with
  | Err _ => ret ()
  | Ok servers => for_each (λ server, transitionServer server EventHeartbeatMissed ;; ret ()) servers
  end.

Definition sweepExpired (threshold : Z) : ST World () :=
  let* r := attempt (on_db (ListExpired threshold)) in
  match r with
  | Err _ => ret ()
  | Ok servers =>
      for_each (λ server,
        let* done := transitionServer server EventExpired in
        if (done : bool) && svc.(svc_capabilityIndex) then indexRemove server.(ID) else ret ()) servers
  end.

(** [sweep]. *)
Definition sweep : ST World () :=
  sweepStale interval ;; sweepExpired (wrap_i64 (3 * interval)).

End service.

(** ** A concrete environment, for evaluation *)

(** Ids are texts of hexadecimal digits and dashes, read without regard to case
    as PostgreSQL reads UUIDs, and generated as [d0], [d1], ... *)
Definition uuid_char (a : ascii) : bool :=
  in_range 48 (code a) 57 || in_range 97 (code a) 102 || bool_decide (a = "-"%char).

Definition example_pg : Postgres := {|
  uuid_in s :=
    let l := lower_byte <$> to_bytes s in
    if bool_decide (l ≠ []) && forallb uuid_char l then Some (of_bytes l) else None;
  gen_random_uuid n := "d" +:+ pretty n;
|}.

Lemma lower_byte_idemp a : lower_byte (lower_byte a) = lower_byte a.
Proof.
  assert (Hall : ∀ n, n < 256 →
    lower_byte (lower_byte (ascii_of_nat n)) = lower_byte (ascii_of_nat n)).
  { intros n Hn. assert (Hf : Forall (λ n, lower_byte (lower_byte (ascii_of_nat n))
      = lower_byte (ascii_of_nat n)) (seq 0 256)) by by_evaluation.
    rewrite Forall_forall in Hf. apply Hf, elem_of_seq. lia. }
  rewrite <- (ascii_nat_embedding a). apply Hall, nat_ascii_bounded.
Qed.

Lemma lower_byte_uuid a : uuid_char a = true → lower_byte a = a.
Proof.
  assert (Hf : Forall (λ n, uuid_char (ascii_of_nat n) = true →
    lower_byte (ascii_of_nat n) = ascii_of_nat n) (seq 0 256)) by by_evaluation.
  rewrite Forall_forall in Hf. rewrite <- (ascii_nat_embedding a). apply Hf, elem_of_seq.
  pose proof (nat_ascii_bounded a). lia.
Qed.

Lemma uuid_char_graphic a : uuid_char a = true → graphic a = true.
Proof.
  assert (Hf : Forall (λ n, uuid_char (ascii_of_nat n) = true → graphic (ascii_of_nat n) = true)
    (seq 0 256)) by by_evaluation.
  rewrite Forall_forall in Hf. rewrite <- (ascii_nat_embedding a). apply Hf, elem_of_seq.
  pose proof (nat_ascii_bounded a). lia.
Qed.

(** Decimal numerals are made of such characters. *)
Lemma pretty_N_go_uuid (x : N) (s : string) :
  forallb uuid_char (to_bytes s) = true → forallb uuid_char (to_bytes (pretty_N_go x s)) = true.
Proof.
  revert s. induction (N.lt_wf_0 x) as [x _ IH]. intros s Hs.
  destruct (decide (0 < x)%N) as [Hx|Hx].
  - rewrite pretty_N_go_step by done. apply IH; [apply N.div_lt; lia|].
    change (uuid_char (pretty_N_char (x mod 10)%N) && forallb uuid_char (to_bytes s) = true).
    rewrite Hs, andb_true_r.
    assert (Hf : Forall (λ n, uuid_char (pretty_N_char (N.of_nat n)) = true) (seq 0 10)) by by_evaluation.
    rewrite Forall_forall in Hf. pose proof (N.mod_lt x 10 ltac:(done)) as Hmod.
    generalize dependent (x mod 10)%N. intros d Hd. rewrite <- (N2Nat.id d).
    apply Hf, elem_of_seq. lia.
  - replace x with 0%N by lia. by rewrite pretty_N_go_0.
Qed.

#[export] Instance example_pg_laws : PostgresLaws example_pg.
Proof.
  split.
  - intros s c. cbn. destruct (_ && _) eqn:E; [|done]. intros [= <-].
    rewrite to_of_bytes. rewrite <- list_fmap_compose.
    rewrite (list_fmap_ext _ lower_byte) by (intros; apply lower_byte_idemp). by rewrite E.
  - intros n. cbn.
    assert (Hall : forallb uuid_char (to_bytes ("d" +:+ pretty n)) = true).
    { change (forallb uuid_char (to_bytes (pretty n)) = true).
      cbv [pretty pretty_nat pretty_N]. destruct (decide _); [done|]. by apply pretty_N_go_uuid. }
    assert (Hlow : lower_byte <$> to_bytes ("d" +:+ pretty n) = to_bytes ("d" +:+ pretty n)).
    { rewrite <- (list_fmap_id (to_bytes ("d" +:+ pretty n))) at 2. apply list_fmap_ext.
      intros i a Ha. apply lower_byte_uuid. apply forallb_forall with (x := a) in Hall; [done|].
      apply list_elem_of_In. by eapply list_elem_of_lookup_2. }
    rewrite Hlow, Hall. by rewrite of_to_bytes.
  - intros m n Heq. cbn in Heq. injection Heq as Heq. by apply (inj pretty).
  - intros s c. cbn. destruct (_ && _) eqn:E; [|done]. intros [= <-].
    apply andb_true_iff in E as [Hne%bool_decide_eq_true Hall]. split.
    + apply TrimSpace_graphic. rewrite to_of_bytes. apply forallb_forall. intros a Ha.
      apply uuid_char_graphic. eapply forallb_forall; [exact Hall|done].
    + intros Heq. apply (f_equal to_bytes) in Heq. by rewrite to_of_bytes in Heq.
Qed.

Definition example_entropy : Entropy := λ n, Some (replicate 16 (ascii_of_nat n)).

(** A pod just started: empty tables, no failures. *)
Definition start (now : Z) : World :=
  mkWorld (mkDB now ∅ ∅ [] 0) NewCapabilityIndex [] 0 ∅ [] [] [] ∅ 0.

Definition example_service : Service :=
  mkService (Some (mkConfig (30 * second) 10 20 true)) true true true true
    (Some (λ r, Ok r.(Capabilities).(Tools))) true.

Definition example_caller (name : string) : Identity :=
  mkIdentity IdentityMTLS ("spiffe://td/ns/" +:+ name) [ScopeAdmin] ∅.
