(* ===== verification/RegInvariant.v ===== *)
(** * Invariants of the registration service

    What holds after every sequence of calls of the service, its HTTP wrapper,
    the subscriber and the sweeper, in any order, with any database failures and
    any passage of time between them. *)

From S2P Require Import Prelude GoStrings Encoding GoNet Types Spiffe RegTypes Store Json.
From S2P Require Import Classification Lifecycle CapIndex Registration.

#[local] Open Scope string_scope.
#[local] Open Scope list_scope.
#[local] Open Scope nat_scope.
#[local] Open Scope go_scope.

(** ** Calls *)

Inductive service_call :=
| CallRegister (caller : option Identity) (req : RegistrationRequest)
| CallHeartbeat (caller : option Identity) (id : string) (req : HeartbeatRequest)
| CallAck (id : string) (lease : Z) (hash version : string) (ackedAt : Z)
| CallDeregister (caller : option Identity) (id : string)
| CallRefresh (id : string)
| CallSyncClassifications (servers : list ServerRecord)
| CallSubscriber (eventType serverID : string)
| CallSweep
| CallUpdateAllowList (prefixes : list string)
| CallUpdateSettings (version : Z) (byServer : list (string * settings))
| CallTick (elapsed : Z).

(** The clock moves forward between calls. *)
Definition tick (elapsed : Z) (w : World) : World :=
  let db := w.(w_db) in
  set_db (mkDB (db.(db_now) + Z.abs elapsed) db.(db_servers) db.(db_classifications)
            db.(db_faults) db.(db_next)) w.

Section calls.
Context `{UnicodeTables} `{Postgres} `{Entropy}.
Context (svc : Service).

Definition call (w : World) (c : service_call) : World :=
  match c with
  | CallRegister caller req => (IndexedRegister svc caller req w).2
  | CallHeartbeat caller id req => (IndexedHeartbeat svc caller id req w).2
  | CallAck id lease hash version at_ =>
      (AcknowledgeServerRegistration id lease hash version at_ w).2
  | CallDeregister caller id => (IndexedDeregister svc caller id w).2
  | CallRefresh id => (ServiceRefreshCapabilities svc id w).2
  | CallSyncClassifications servers => (SyncClassifications svc servers w).2
  | CallSubscriber ty id => (SubscriberHandle ty id w).2
  | CallSweep => (sweep svc w).2
  | CallUpdateAllowList prefixes => (UpdateSPIFFEAllowList prefixes w).2
  | CallUpdateSettings version byServer => (UpdateEffectiveSettings version byServer w).2
  | CallTick elapsed => tick elapsed w
  end.

(** ** Preservation, for predicates of the database and the index

    [Q] is about the database and [R] about the index: everything else of the
    world is free. *)
Context (Q : DB → Prop) (R : CapabilityIndex → Prop).

Definition both (w : World) : Prop := Q w.(w_db) ∧ R w.(w_index).

Lemma preserves_on_db {A} (m : ST DB A) : preserves Q m → preserves both (on_db m).
Proof.
  intros Hm w [Hq Hr]. unfold on_db. specialize (Hm _ Hq). destruct (m (w_db w)) as [r db].
  by split.
Qed.

Lemma preserves_wrapping {A} ctx (m : ST World A) : preserves both m → preserves both (wrapping ctx m).
Proof. intros Hm w Hw. unfold wrapping. specialize (Hm w Hw). by destruct (m w) as [[|] ?]. Qed.

Lemma preserves_emit f :
  (∀ w, (f w).(w_db) = w.(w_db)) → (∀ w, (f w).(w_index) = w.(w_index)) →
  preserves both (modify f).
Proof. intros Hdb Hix w [? ?]. split; simpl; [by rewrite Hdb|by rewrite Hix]. Qed.

Lemma preserves_logAudit e : preserves both (logAudit svc e).
Proof. unfold logAudit. preserve. by apply preserves_emit. Qed.
Lemma preserves_publish e : preserves both (publish svc e).
Proof. unfold publish. preserve. by apply preserves_emit. Qed.
Lemma preserves_publishBroadcast t id : preserves both (publishBroadcast svc t id).
Proof. unfold publishBroadcast. preserve. by apply preserves_emit. Qed.
Lemma preserves_publishClassificationBroadcast t r u :
  preserves both (publishClassificationBroadcast svc t r u).
Proof. unfold publishClassificationBroadcast. preserve. by apply preserves_emit. Qed.
Lemma preserves_gauge s d : preserves both (AddActiveRegistrations s d).
Proof. by apply preserves_emit. Qed.
Lemma preserves_newUUID : preserves both newUUID.
Proof. intros w [? ?]. unfold newUUID. by destruct (rand_block _). Qed.
Lemma preserves_effectiveSettings n : preserves both (effectiveSettingsForServer n).
Proof. apply preserves_gets. Qed.

(** What the database and the index must guarantee of their operations. *)
Record closed : Prop := {
  c_Create : ∀ r, preserves Q (Create r);
  c_Get : ∀ id, preserves Q (Get id);
  c_GetBySPIFFEID : ∀ id, preserves Q (GetBySPIFFEID id);
  c_Update : ∀ r, preserves Q (Update r);
  c_UpdateStatus : ∀ id s, preserves Q (UpdateStatus id s);
  c_UpdateHeartbeat : ∀ id, preserves Q (UpdateHeartbeat id);
  c_Delete : ∀ id, preserves Q (Delete id);
  c_Ack : ∀ id e h v t, preserves Q (AcknowledgeRegistration id e h v t);
  c_ListStale : ∀ t, preserves Q (ListStale t);
  c_ListExpired : ∀ t, preserves Q (ListExpired t);
  c_classify : ∀ caller name, preserves both (classify_tool svc caller name);
  c_tick : ∀ d w, both w → both (tick d w);
  c_exec : ∀ i op, R i → R (exec i op);
}.

Context (C : closed).

#[local] Hint Resolve preserves_on_db preserves_wrapping preserves_logAudit preserves_publish
  preserves_publishBroadcast preserves_publishClassificationBroadcast preserves_gauge
  preserves_newUUID preserves_effectiveSettings : gateway.
#[local] Hint Resolve c_Create c_Get c_GetBySPIFFEID c_Update c_UpdateStatus c_UpdateHeartbeat
  c_Delete c_Ack c_ListStale c_ListExpired c_classify : gateway.

Lemma preserves_index op f :
  (∀ w, (f w).(w_db) = w.(w_db)) → (∀ w, (f w).(w_index) = exec w.(w_index) (op w)) →
  preserves both (modify f).
Proof.
  intros Hdb Hix w [? ?]. split; simpl; [by rewrite Hdb|]. rewrite Hix. by apply (c_exec C).
Qed.

Lemma preserves_index_refresh id : preserves both (index_refresh id).
Proof.
  intros w [Hq Hr]. unfold index_refresh. case_bool_decide.
  - pose proof (c_exec C w.(w_index) (OpRefresh id (Ok None)) Hr) as Hx. simpl in Hx.
    destruct (RefreshServer _ _ _). by split.
  - pose proof (c_Get C id w.(w_db) Hq) as Hg. destruct (Get id (w_db w)) as [r db]. simpl in Hg.
    set (rec := match r with Ok x => Ok (Some x) | Err e => Err e end).
    pose proof (c_exec C w.(w_index) (OpRefresh id rec) Hr) as Hx. simpl in Hx.
    destruct (RefreshServer _ _ _). by split.
Qed.

Lemma preserves_indexRemove id : preserves both (indexRemove id).
Proof. by apply (preserves_index (λ _, OpRemove id)). Qed.

Lemma preserves_syncServer id : preserves both (syncServer id).
Proof.
  unfold syncServer. preserve. by apply (preserves_index (λ _, OpAdd s)).
Qed.
#[local] Hint Resolve preserves_index_refresh preserves_indexRemove preserves_syncServer : gateway.

Lemma preserves_classifyNewTools caps caller : preserves both (classifyNewTools svc caps caller).
Proof. unfold classifyNewTools. preserve. Qed.
#[local] Hint Resolve preserves_classifyNewTools : gateway.

Lemma preserves_Register caller req : preserves both (Register svc caller req).
Proof. unfold Register, postRegister. preserve. Qed.

Lemma preserves_RefreshCapabilities r h l : preserves both (RefreshCapabilities svc r h l).
Proof. unfold RefreshCapabilities. preserve. by apply preserves_emit. Qed.

Lemma preserves_applyHeartbeatTransition id r : preserves both (applyHeartbeatTransition svc id r).
Proof. unfold applyHeartbeatTransition. preserve. Qed.

Lemma preserves_lookupHeartbeatRecord caller id : preserves both (lookupHeartbeatRecord caller id).
Proof. unfold lookupHeartbeatRecord. preserve. Qed.
#[local] Hint Resolve preserves_Register preserves_RefreshCapabilities
  preserves_applyHeartbeatTransition preserves_lookupHeartbeatRecord : gateway.

Lemma preserves_Heartbeat caller id req : preserves both (Heartbeat svc caller id req).
Proof. unfold Heartbeat. preserve. Qed.

Lemma preserves_Deregister caller id : preserves both (Deregister svc caller id).
Proof. unfold Deregister. preserve. Qed.

Lemma preserves_transitionServer r e : preserves both (transitionServer svc r e).
Proof. unfold transitionServer. preserve. Qed.
#[local] Hint Resolve preserves_Heartbeat preserves_Deregister preserves_transitionServer : gateway.

Lemma preserves_sweep : preserves both (sweep svc).
Proof. unfold sweep, sweepStale, sweepExpired. preserve. Qed.

Lemma both_call w c : both w → both (call w c).
Proof.
  intros Hw. destruct c; cbn [call]; try exact (c_tick C _ _ Hw);
    match goal with |- both (?m w).2 => cut (preserves both m); [intros Hp; by apply Hp|clear w Hw] end.
  - unfold IndexedRegister. preserve.
  - unfold IndexedHeartbeat. preserve.
  - unfold AcknowledgeServerRegistration. preserve.
  - unfold IndexedDeregister. preserve.
  - unfold ServiceRefreshCapabilities. preserve.
  - unfold SyncClassifications. preserve.
  - unfold SubscriberHandle. preserve.
  - apply preserves_sweep.
  - by apply preserves_emit.
  - unfold UpdateEffectiveSettings. preserve. by apply preserves_emit.
Qed.

(** The calls preserve what their parts preserve. *)
Lemma both_calls cs w : both w → both (foldl call w cs).
Proof. revert w. induction cs as [|c cs IH]; intros w Hw; simpl; [done|]. by apply IH, both_call. Qed.

End calls.

(** ** The table and the index *)

(** Statements that read only, or touch only the classifications. *)
Lemma preserves_statement (Q : DB → Prop) {A} (m : ST DB A) :
  (∀ f db, Q db → Q (set_faults f db)) → preserves Q m → preserves Q (statement m).
Proof.
  intros Hf Hm db Hdb. unfold statement. destruct (db_faults db) as [|[] fs]; [by apply Hm|..].
  - by apply Hf.
  - by apply Hm, Hf.
Qed.

Lemma preserves_wrap_error (Q : DB → Prop) {A} ctx (m : ST DB A) :
  preserves Q m → preserves Q (wrap_error ctx m).
Proof.
  intros Hm db Hdb. unfold wrap_error. specialize (Hm db Hdb). by destruct (m db) as [[|] ?].
Qed.

(** An update of the server table. *)
Lemma preserves_on_row `{Postgres} (Q : DB → Prop) id f :
  (∀ fs db, Q db → Q (set_faults fs db)) → (∀ t db, Q db → Q (set_servers t db)) →
  preserves Q (on_row id f).
Proof.
  intros Hf Hs. apply preserves_statement; [done|]. intros db Hdb. simpl.
  destruct (uuid_in id) as [c|]; [|done]. destruct (_ !! c) as [row|]; [|done].
  destruct (f db row) as [|[row'|]]; by try apply Hs.
Qed.

Section db_index.
Context `{UnicodeTables} `{PostgresLaws} `{Entropy}.
Context (svc : Service).

Lemma classify_tool_db_ok caller name : preserves (both db_ok wf) (classify_tool svc caller name).
Proof.
  assert (Hget : preserves db_ok (ClassificationGet (TrimSpace name))).
  { apply keeps_wrap, keeps_statement, preserves_read. }
  assert (Hup : ∀ tc, preserves db_ok (ClassificationUpsert tc)).
  { intros tc. apply keeps_wrap, keeps_statement. intros db Hdb. simpl. by apply db_ok_classifications. }
  unfold classify_tool. preserve.
  all: by apply preserves_publishClassificationBroadcast || by apply preserves_on_db.
Qed.

Lemma closed_db_ok : closed svc db_ok wf.
Proof.
  assert (Hread : ∀ A ctx (f : DB → result A), preserves db_ok (wrap_error ctx (statement (λ db, (f db, db))))).
  { intros. by apply keeps_wrap, keeps_statement, preserves_read. }
  split; auto with gateway.
  - intros id. apply keeps_wrap, keeps_statement. intros db Hdb.
    destruct (uuid_in id); [|done]. by destruct (_ !! _).
  - intros id. apply keeps_wrap, keeps_statement. intros db Hdb. by destruct (find_spiffe _ _).
  - intros t. unfold ListStale. preserve. apply Hread.
  - intros t. unfold ListExpired. preserve. apply Hread.
  - apply classify_tool_db_ok.
  - intros d w [[? ? ? ?] Hi]. split; [by split|done].
  - intros i op. apply wf_exec.
Qed.

(** C1: After any sequence of calls, with any failures of the database and any
    passage of time, the server table still has one row per SPIFFE id, each
    under its own id with a positive lease epoch, and the capability index is
    well formed, so that a tool lookup only returns active servers that declare
    the tool. *)
Theorem service_invariant cs w :
  db_ok w.(w_db) → wf w.(w_index) →
  let w' := foldl (call svc) w cs in
  (∀ i j r s, w'.(w_db).(db_servers) !! i = Some r → w'.(w_db).(db_servers) !! j = Some s →
     r.(SPIFFEID) = s.(SPIFFEID) → i = j) ∧
  (∀ id r, w'.(w_db).(db_servers) !! id = Some r → r.(ID) = id ∧ (1 <= r.(LeaseEpoch))%Z) ∧
  (∀ name r, r ∈ LookupTool w'.(w_index) name →
     r.(Status) = StatusActive ∧ TrimSpace name ∈ names (tool_caps r)).
Proof.
  intros Hdb Hwf w'.
  assert (Hb : both db_ok wf w') by (apply both_calls; [apply closed_db_ok|by split]).
  clearbody w'. destruct Hb as [Hok [Ht _]]. split_and!.
  - apply (ok_spiffe _ Hok).
  - intros id r Hr. split; [by apply (ok_key _ Hok)|by apply (ok_lease _ Hok _ _ Hr)].
  - intros name r. rewrite LookupTool_under. case_bool_decide; [intros []%not_elem_of_nil|].
    intros Hr. exact (side_wf_elem _ _ _ _ Ht Hr).
Qed.

End db_index.


(** ** Manual classifications *)

(** A statement fails without effect, or runs. *)
Lemma statement_cases {A} (m : ST DB A) db :
  ∃ fs, statement m db = (Err (Opaque "connection failed"), set_faults fs db) ∨
        statement m db = m (set_faults fs db).
Proof.
  unfold statement. destruct (db_faults db) as [|[] fs] eqn:E; [exists []; right|eauto..].
  destruct db. simpl in *. by subst.
Qed.

Section manual.
Context `{UnicodeTables} `{Postgres} `{Entropy}.
Context (svc : Service) (tool : string) (tc : ToolClassification).

Definition classified (db : DB) : Prop := db.(db_classifications) !! tool = Some tc.
Definition any_index (i : CapabilityIndex) : Prop := True.
Abbreviation holds := (both classified any_index).

Lemma ClassificationGet_cases name db :
  ∃ fs r, ClassificationGet name db = (r, set_faults fs db) ∧
    (is_ok r = true → r = Ok (db.(db_classifications) !! TrimSpace name)).
Proof.
  unfold ClassificationGet, wrap_error.
  destruct (statement_cases (λ db, (Ok (db_classifications db !! TrimSpace name), db)) db)
    as (fs & [->| ->]); eauto.
  by eexists fs, (Err _).
Qed.

(** Writing the classification of another tool leaves this one. *)
Lemma ClassificationUpsert_other x :
  TrimSpace x.(tc_ToolName) ≠ tool → preserves classified (ClassificationUpsert x).
Proof.
  intros Hne. apply preserves_wrap_error, preserves_statement; [done|].
  intros db Hdb. unfold classified in *. simpl. by rewrite lookup_insert_ne.
Qed.

Lemma classify_tool_manual caller name :
  tc.(tc_AutoClassified) = false → preserves holds (classify_tool svc caller name).
Proof.
  intros Hm. unfold classify_tool. case_bool_decide; [apply preserves_ret|].
  destruct (decide (TrimSpace name = tool)) as [Hn|Hn].
  - intros w [Hc _]. unfold bind at 1, attempt at 1, on_db.
    destruct (ClassificationGet_cases (TrimSpace name) (w_db w)) as (fs & r & -> & Hr).
    destruct r as [e|ex]; [by split|]. specialize (Hr eq_refl). injection Hr as ->.
    unfold classified in Hc. rewrite TrimSpace_idemp, Hn, Hc, Hm. by split.
  - apply preserves_bind; [|intros r].
    + apply preserves_attempt, preserves_on_db, preserves_wrap_error, preserves_statement; [done|].
      apply preserves_read.
    + destruct r as [e|ex]; [apply preserves_ret|]. apply preserves_if; [apply preserves_ret|].
      destruct (AutoClassify _ _) as [lvl why]. apply preserves_bind; [apply preserves_gets|intros now].
      apply preserves_bind.
      * apply preserves_attempt, preserves_on_db, ClassificationUpsert_other. simpl.
        by rewrite TrimSpace_idemp.
      * intros []; [apply preserves_ret|apply preserves_publishClassificationBroadcast].
Qed.

Lemma closed_manual : tc.(tc_AutoClassified) = false → closed svc classified any_index.
Proof.
  intros Hm.
  assert (Hrow : ∀ ctx id f, preserves classified (wrap_error ctx (on_row id f) ;; ret ())).
  { intros. apply preserves_bind; [|intros; apply preserves_ret].
    by apply preserves_wrap_error, preserves_on_row. }
  assert (Hst : ∀ A ctx (m : ST DB A), preserves classified m →
    preserves classified (wrap_error ctx (statement m))).
  { intros. by apply preserves_wrap_error, preserves_statement. }
  split; try (intros; by apply Hrow); try (intros; by apply classify_tool_manual); try done.
  - intros r. apply Hst. intros db Hdb. cbv zeta.
    destruct (negb _); [|destruct (bool_decide (is_Some _))]; exact Hdb.
  - intros id. apply Hst. intros db Hdb. destruct (uuid_in id); [destruct (_ !! _)|]; exact Hdb.
  - intros id. apply Hst. intros db Hdb. destruct (find_spiffe _ _); exact Hdb.
  - intros id e h v t. apply preserves_bind; [|intros x; preserve].
    apply Hst. intros db Hdb.
    destruct (uuid_in _); [destruct (_ !! _); [destruct (_ && _)|]|]; exact Hdb.
  - intros t. unfold ListStale. preserve. by apply Hst, preserves_read.
  - intros t. unfold ListExpired. preserve. by apply Hst, preserves_read.
Qed.

(** A classification an administrator set by hand is never changed by the
    service: not by registrations, synchronisation, heartbeats, refreshes or
    sweeps, in any order and with any failures. *)
Theorem manual_classification_kept cs w :
  tc.(tc_AutoClassified) = false → w.(w_db).(db_classifications) !! tool = Some tc →
  (foldl (call svc) w cs).(w_db).(db_classifications) !! tool = Some tc.
Proof.
  intros Hm Hc. exact (proj1 (both_calls svc _ _ (closed_manual Hm) cs w (conj Hc Logic.I))).
Qed.

End manual.

(** ** Examples *)

Section witnesses.
#[local] Existing Instance ascii_tables.
#[local] Existing Instance example_pg.
#[local] Existing Instance example_entropy.

Lemma start_ok now : db_ok (start now).(w_db) ∧ wf (start now).(w_index).
Proof.
  split; [|apply wf_new]. split; simpl; intros *; rewrite ?lookup_empty; done.
Qed.

Lemma service_invariant_witness :
  let w := start second in
  let calls := [CallRegister (Some (example_caller "a")) (example_request "10.0.0.1");
                CallTick second;
                CallRegister (Some (example_caller "a")) (example_request "10.0.0.2")] in
  size (foldl (call example_service) w calls).(w_db).(db_servers) = 1 ∧
  ∀ id r, (foldl (call example_service) w calls).(w_db).(db_servers) !! id = Some r →
    r.(ID) = id ∧ (1 <= r.(LeaseEpoch))%Z.
Proof.
  intros w calls. split; [by vm_compute|].
  destruct (start_ok second) as [Hdb Hwf].
  exact (proj1 (proj2 (service_invariant example_service calls w Hdb Hwf))).
Defined.

Definition manual_read : ToolClassification :=
  mkToolClassification "read_file" RiskDestructive "reads secrets" false "root" 0.

Definition with_manual (w : World) : World :=
  set_db (set_classifications {["read_file" := manual_read]} w.(w_db)) w.

Lemma manual_classification_kept_witness :
  let calls := [CallRegister (Some (example_caller "a")) (example_request "10.0.0.1")] in
  (foldl (call example_service) (with_manual (start second)) calls).(w_db).(db_classifications)
    !! "read_file" = Some manual_read.
Proof. by apply manual_classification_kept. Defined.

End witnesses.
