(* ===== verification/RegProps.v ===== *)
(** * Behaviour of the registration service

    What each call does, on every branch that matters: registration,
    acknowledgement, heartbeat, deregistration and the sweep. *)

From S2P Require Import Prelude GoStrings Encoding GoNet Types Spiffe RegTypes Store Json.
From S2P Require Import Classification Lifecycle CapIndex Registration RegInvariant.

#[local] Open Scope string_scope.
#[local] Open Scope list_scope.
#[local] Open Scope nat_scope.
#[local] Open Scope go_scope.

(** ** The store without failures *)

Section store.
Context `{UnicodeTables} `{Postgres}.

Lemma statement_runs {A} (m : ST DB A) db : db.(db_faults) = [] → statement m db = m db.
Proof. unfold statement. by intros ->. Qed.

Lemma Get_found id c r db :
  db.(db_faults) = [] → uuid_in id = Some c → db.(db_servers) !! c = Some r →
  Get id db = (Ok r, db).
Proof.
  intros Hf Hu Hr. unfold Get, wrap_error. by rewrite statement_runs, Hu, Hr.
Qed.

Lemma Get_missing id c db :
  db.(db_faults) = [] → uuid_in id = Some c → db.(db_servers) !! c = None →
  Get id db = (Err (Wrap "server store" ErrNoRows), db).
Proof.
  intros Hf Hu Hr. unfold Get, wrap_error. by rewrite statement_runs, Hu, Hr.
Qed.

Lemma GetBySPIFFEID_runs sid db :
  db.(db_faults) = [] →
  GetBySPIFFEID sid db =
    (match find_spiffe db.(db_servers) sid with
     | Some r => Ok r | None => Err (Wrap "server store" ErrNoRows) end, db).
Proof.
  intros Hf. unfold GetBySPIFFEID, wrap_error. rewrite statement_runs by done.
  by destruct (find_spiffe _ _).
Qed.

Lemma on_row_replace id c row row' f db :
  db.(db_faults) = [] → uuid_in id = Some c → db.(db_servers) !! c = Some row →
  f db row = Ok (Some row') →
  on_row id f db = (Ok 1%Z, set_servers (<[c := row']> db.(db_servers)) db).
Proof. intros Hf Hu Hr Hrow. unfold on_row. by rewrite statement_runs, Hu, Hr, Hrow. Qed.

Lemma on_row_delete id c row f db :
  db.(db_faults) = [] → uuid_in id = Some c → db.(db_servers) !! c = Some row →
  f db row = Ok None →
  on_row id f db = (Ok 1%Z, set_servers (delete c db.(db_servers)) db).
Proof. intros Hf Hu Hr Hrow. unfold on_row. by rewrite statement_runs, Hu, Hr, Hrow. Qed.

End store.

(** ** Calls that only emit

    [quietly m]: the call succeeds and leaves the server table, the index, the
    clock and the settings as they are. *)

Record quiet (w w' : World) : Prop := {
  q_servers : w'.(w_db).(db_servers) = w.(w_db).(db_servers);
  q_now : w'.(w_db).(db_now) = w.(w_db).(db_now);
  q_faults : w.(w_db).(db_faults) = [] → w'.(w_db).(db_faults) = [];
  q_next : w'.(w_db).(db_next) = w.(w_db).(db_next);
  q_index : w'.(w_index) = w.(w_index);
  q_version : w'.(w_settingsVersion) = w.(w_settingsVersion);
  q_settings : w'.(w_effectiveSettings) = w.(w_effectiveSettings);
}.

Lemma quiet_refl w : quiet w w.
Proof. by split. Qed.
Lemma quiet_trans w1 w2 w3 : quiet w1 w2 → quiet w2 w3 → quiet w1 w3.
Proof. intros [] []. split; try congruence. auto. Qed.

Definition quietly {A} (m : ST World A) : Prop := ∀ w, ∃ x w', m w = (Ok x, w') ∧ quiet w w'.

Lemma quietly_ret {A} (x : A) : quietly (ret x).
Proof. intros w. exists x, w. split; [done|apply quiet_refl]. Qed.
Lemma quietly_gets {A} (f : World → A) : quietly (gets f).
Proof. intros w. exists (f w), w. split; [done|apply quiet_refl]. Qed.
Lemma quietly_bind {A B} (m : ST World A) (k : A → ST World B) :
  quietly m → (∀ x, quietly (k x)) → quietly (bind m k).
Proof.
  intros Hm Hk w. destruct (Hm w) as (x & w1 & E1 & Q1). destruct (Hk x w1) as (y & w2 & E2 & Q2).
  exists y, w2. unfold bind. rewrite E1. eauto using quiet_trans.
Qed.
Lemma quietly_for_each {A} (f : A → ST World ()) l : (∀ x, quietly (f x)) → quietly (for_each f l).
Proof. intros Hf. induction l; [apply quietly_ret|]. by apply quietly_bind. Qed.
Lemma quietly_modify f : (∀ w, quiet w (f w)) → quietly (modify f).
Proof. intros Hf w. by exists (), (f w). Qed.

(** A statement on the classifications, its error taken as a value. *)
Lemma quietly_classification {A} ctx (m : ST DB A) :
  (∀ db, ∃ x t, m db = (Ok x, set_classifications t db)) →
  quietly (attempt (on_db (wrap_error ctx (statement m)))).
Proof.
  intros Hm w. unfold attempt, on_db, wrap_error, statement.
  destruct (db_faults (w_db w)) as [|[] fs] eqn:E.
  - destruct (Hm (w_db w)) as (x & t & ->). eexists _, _. split; [done|]. by split.
  - eexists _, _. split; [done|]. split; simpl; try done. by rewrite E.
  - destruct (Hm (set_faults fs (w_db w))) as (x & t & ->). eexists _, _. split; [done|].
    split; simpl; try done. by rewrite E.
Qed.

Ltac quiet :=
  repeat match goal with
  | |- quietly (bind _ _) => apply quietly_bind; [|intros ?]
  | |- quietly (for_each _ _) => apply quietly_for_each; intros ?
  | |- quietly (ret _) => apply quietly_ret
  | |- quietly (gets _) => apply quietly_gets
  | |- quietly (modify _) => apply quietly_modify; intros ?; by split
  | |- quietly (if ?b then _ else _) => destruct b
  | |- quietly (match ?x with _ => _ end) => destruct x
  end.

Section emit.
Context `{UnicodeTables} (svc : Service).

Lemma quietly_ClassificationGet n : quietly (attempt (on_db (ClassificationGet n))).
Proof.
  apply quietly_classification. intros []. by eexists _, _.
Qed.

Lemma quietly_classify_tool caller name : quietly (classify_tool svc caller name).
Proof.
  unfold classify_tool. case_bool_decide; [apply quietly_ret|].
  apply quietly_bind; [apply quietly_ClassificationGet|intros r]. destruct r; [apply quietly_ret|].
  match goal with |- quietly (if ?b then _ else _) => destruct b end; [apply quietly_ret|].
  destruct (AutoClassify _ _).
  apply quietly_bind; [apply quietly_gets|intros now].
  apply quietly_bind; [apply quietly_classification; by eexists _, _|].
  intros []; [apply quietly_ret|].
  unfold publishClassificationBroadcast. quiet.
Qed.

Lemma quietly_classifyNewTools caps caller : quietly (classifyNewTools svc caps caller).
Proof. unfold classifyNewTools. quiet. apply quietly_classify_tool. Qed.

Lemma quietly_publish e : quietly (publish svc e).
Proof. unfold publish. quiet. Qed.
Lemma quietly_logAudit e : quietly (logAudit svc e).
Proof. unfold logAudit. quiet. Qed.
Lemma quietly_publishBroadcast t id : quietly (publishBroadcast svc t id).
Proof. unfold publishBroadcast. quiet. Qed.
Lemma quietly_gauge s d : quietly (AddActiveRegistrations s d).
Proof. apply quietly_modify. by split. Qed.

Lemma quietly_postRegister caller r caps : quietly (postRegister svc caller r caps).
Proof.
  unfold postRegister. quiet; [apply quietly_logAudit|apply quietly_publish
    |apply quietly_publishBroadcast|apply quietly_classifyNewTools].
Qed.

End emit.

(** ** Running calls step by step *)

Lemma no_rows_wrapped ctx : errors_is (Wrap ctx ErrNoRows) ErrNoRows = true.
Proof. done. Qed.

Lemma bind_ok {S A B} (m : ST S A) (k : A → ST S B) s x s' :
  m s = (Ok x, s') → bind m k s = k x s'.
Proof. unfold bind. by intros ->. Qed.

Lemma bind_err {S A B} (m : ST S A) (k : A → ST S B) s e s' :
  m s = (Err e, s') → bind m k s = (Err e, s').
Proof. unfold bind. by intros ->. Qed.

Lemma bind_gets {S A B} (f : S → A) (k : A → ST S B) s : bind (gets f) k s = k (f s) s.
Proof. done. Qed.

Lemma attempt_run {S A} (m : ST S A) s r s' : m s = (r, s') → attempt m s = (Ok r, s').
Proof. unfold attempt. by intros ->. Qed.

Lemma on_db_run {A} (m : ST DB A) w r db : m w.(w_db) = (r, db) → on_db m w = (r, set_db db w).
Proof. unfold on_db. by intros ->. Qed.

Lemma wrapping_ok {A} ctx (m : ST World A) w x w' :
  m w = (Ok x, w') → wrapping ctx m w = (Ok x, w').
Proof. unfold wrapping. by intros ->. Qed.

Lemma wrap_error_ok {A} ctx (m : ST DB A) db x db' :
  m db = (Ok x, db') → wrap_error ctx m db = (Ok x, db').
Proof. unfold wrap_error. by intros ->. Qed.

Lemma bind_quiet {A B} (m : ST World A) (k : A → ST World B) w :
  quietly m → ∃ x w', quiet w w' ∧ bind m k w = k x w'.
Proof. intros Hm. destruct (Hm w) as (x & w' & E & Q). exists x, w'. split; [done|by apply bind_ok]. Qed.

Lemma set_db_id w : set_db w.(w_db) w = w.
Proof. by destruct w. Qed.

(** A read of the database whose result is known. *)
Lemma attempt_read {A} (m : ST DB A) w r :
  m w.(w_db) = (r, w.(w_db)) → attempt (on_db m) w = (Ok r, w).
Proof. intros E. apply attempt_run. rewrite (on_db_run _ _ _ _ E). by rewrite set_db_id. Qed.

(** ** Registration *)

Section register.
Context `{UnicodeTables} `{PostgresLaws} `{Entropy}.
Context (svc : Service).

Definition authorized (w : World) (caller : Identity) (req : RegistrationRequest) : Prop :=
  caller.(id_Type) = IdentityMTLS ∧ valid_request req ∧
  ValidateSPIFFEID caller.(id_ID) (copyStringSlice w.(w_spiffeAllowList)) = Ok ().

(** The id the service draws for a registration. *)
Definition drawn_id (w : World) : string :=
  match rand_block w.(w_rand) with
  | None => "reg-" +:+ pretty (w_now w)
  | Some b => format_uuid (uuid_bytes b)
  end.

(** The row of a caller after it has registered: [old] is its row before. *)
Definition registered_row (w : World) (caller : Identity) (req : RegistrationRequest) : ServerRecord :=
  let record := new_record svc (drawn_id w) caller.(id_ID) req (w_now w) in
  match find_spiffe w.(w_db).(db_servers) caller.(id_ID) with
  | Some old =>
      written (renew old record) old.(ID) StatusActive "default" old.(RateLimit) old.(RateBurst)
        old.(CreatedAt) (w_now w)
  | None =>
      written record (gen_random_uuid w.(w_db).(db_next)) StatusActive "default" None None
        (w_now w) (w_now w)
  end.

(** The record the service answers from. *)
Definition answered_record (w : World) (caller : Identity) (req : RegistrationRequest) : ServerRecord :=
  let record := new_record svc (drawn_id w) caller.(id_ID) req (w_now w) in
  match find_spiffe w.(w_db).(db_servers) caller.(id_ID) with
  | Some old => renew old record
  | None => record
  end.

(** The outcome of the switch of [Register]: the record it goes on with and the
    database. *)
Definition next_after (w : World) (caller : Identity) : nat :=
  match find_spiffe w.(w_db).(db_servers) caller.(id_ID) with
  | Some _ => w.(w_db).(db_next)
  | None => S w.(w_db).(db_next)
  end.

Definition registered_db (w : World) (caller : Identity) (req : RegistrationRequest) : DB :=
  let row := registered_row w caller req in
  mkDB (w_now w) (<[row.(ID) := row]> w.(w_db).(db_servers)) w.(w_db).(db_classifications) []
    (next_after w caller).

Lemma valid_port req : valid_request req → int32_range req.(rq_Listen).(lc_Port) = true.
Proof. intros [_ _ _ Hp _ _ _]. unfold int32_range. apply andb_true_iff. rewrite !Z.leb_le. lia. Qed.

Lemma Update_renew w caller req old :
  db_ok w.(w_db) → w.(w_db).(db_faults) = [] → valid_request req →
  find_spiffe w.(w_db).(db_servers) caller.(id_ID) = Some old →
  Update (renew old (new_record svc (drawn_id w) caller.(id_ID) req (w_now w))) w.(w_db) =
    (Ok (), registered_db w caller req).
Proof.
  intros Hok Hf Hv Hs. destruct (find_spiffe_Some _ _ _ Hs) as (id & Hr & Hsid).
  destruct (ok_key _ Hok _ _ Hr) as [<- Hu].
  assert (Hrow : registered_row w caller req =
    written (renew old (new_record svc (drawn_id w) caller.(id_ID) req (w_now w))) old.(ID)
      StatusActive "default" old.(RateLimit) old.(RateBurst) old.(CreatedAt) (w_now w)).
  { unfold registered_row. by rewrite Hs. }
  unfold Update. erewrite bind_ok.
  2: { apply wrap_error_ok, (on_row_replace _ old.(ID) old (registered_row w caller req)); try done.
       cbn [renew new_record Port SPIFFEID Status PolicyProfileName].
       rewrite (valid_port _ Hv). unfold spiffe_taken. rewrite Hs, bool_decide_eq_true_2 by done.
       cbn [negb]. by rewrite Hrow. }
  unfold ret, registered_db, next_after. rewrite Hs, Hrow. destruct (w_db w) eqn:E. simpl in *.
  unfold w_now. by rewrite E, Hf.
Qed.

Lemma Create_new w caller req :
  w.(w_db).(db_faults) = [] → valid_request req →
  find_spiffe w.(w_db).(db_servers) caller.(id_ID) = None →
  Create (new_record svc (drawn_id w) caller.(id_ID) req (w_now w)) w.(w_db) =
    (Ok (), registered_db w caller req).
Proof.
  intros Hf Hv Hs. apply wrap_error_ok. rewrite statement_runs by done.
  cbn [new_record Port SPIFFEID]. rewrite (valid_port _ Hv). cbn [negb].
  cbn [set_next db_servers]. rewrite Hs. rewrite bool_decide_eq_false_2 by by intros [].
  unfold registered_db, registered_row, next_after. rewrite Hs. unfold w_now.
  destruct (w_db w). simpl in *. by rewrite Hf.
Qed.

(** What a successful call answers, and the world it leaves. *)
Lemma Register_runs caller req w :
  db_ok w.(w_db) → w.(w_db).(db_faults) = [] → authorized w caller req →
  ∃ resp w', Register svc (Some caller) req w = (Ok resp, w') ∧
    quiet (set_db (registered_db w caller req) w) w' ∧
    resp.(rr_InstanceID) = (answered_record w caller req).(ID) ∧
    resp.(rr_RegistrationID) = (answered_record w caller req).(ID) ∧
    resp.(rr_LeaseEpoch) = (answered_record w caller req).(LeaseEpoch) ∧
    resp.(rr_CapabilityHash) = hashCapabilities req.(rq_Capabilities) ∧
    resp.(rr_Status) = StatusActive.
Proof.
  intros Hok Hf (Ht & Hv & Hs). unfold Register.
  rewrite bool_decide_eq_true_2 by done. cbn [negb].
  rewrite (proj2 (Validate_ok req) Hv). cbn [is_ok negb].
  rewrite bind_gets, Hs. cbn [is_ok negb]. rewrite bind_gets.
  rewrite (bind_ok newUUID _ w (drawn_id w) (next_rand w)).
  2: { unfold newUUID, drawn_id. by destruct (rand_block _). }
  rewrite (bind_ok _ _ _ _ _ (attempt_read _ (next_rand w) _ (GetBySPIFFEID_runs _ _ Hf))).
  cbn [next_rand w_db]. set (rec := new_record _ _ _ _ _).
  assert (Hsw : ∃ w1, quiet (set_db (registered_db w caller req) w) w1 ∧
    (match match find_spiffe (db_servers (w_db w)) (id_ID caller) with
           | Some r => Ok r | None => Err (Wrap "server store" ErrNoRows) end with
     | Ok existing =>
         wrapping "register: update existing registration" (on_db (Update (renew existing rec))) ;;
         ret (renew existing rec)
     | Err err =>
         if negb (errors_is err ErrNoRows) then throw (Wrap "register: lookup by spiffe id" err)
         else
           wrapping "register: create registration" (on_db (Create rec)) ;;
           AddActiveRegistrations (ServerStatus_String rec.(Status)) 1 ;;
           ret rec
     end) (next_rand w) = (Ok (answered_record w caller req), w1)).
  { unfold answered_record. fold rec. destruct (find_spiffe _ _) as [old|] eqn:Ef.
    - exists (set_db (registered_db w caller req) (next_rand w)). split; [by split|].
      erewrite bind_ok by (apply wrapping_ok, on_db_run; exact (Update_renew w caller req old Hok Hf Hv Ef)).
      done.
    - eexists. split; [|rewrite no_rows_wrapped; cbn [negb]].
      2: { erewrite bind_ok by (apply wrapping_ok, on_db_run; exact (Create_new w caller req Hf Hv Ef)).
           done. }
      by split. }
  destruct Hsw as (w1 & Q1 & E1). rewrite (bind_ok _ _ _ _ _ E1).
  destruct (bind_quiet (postRegister svc (id_ID caller) (answered_record w caller req)
    (rq_Capabilities req)) (λ _, let* s := effectiveSettingsForServer
      (answered_record w caller req).(Name) in ret (mkRegistrationResponse
        (answered_record w caller req).(ID) (answered_record w caller req).(ID)
        (answered_record w caller req).(LeaseEpoch) (answered_record w caller req).(CapabilityHash)
        (answered_record w caller req).(SyncState)
        (answered_record w caller req).(LastPlatformAckVersion)
        (defaultPolicyProfile svc.(svc_config)) (heartbeatIntervalSeconds svc.(svc_config))
        (heartbeatIntervalSeconds svc.(svc_config)) s.1 s.2
        (answered_record w caller req).(Status))) w1) as (x & w2 & Q2 & E2);
    [apply quietly_postRegister|].
  eexists _, w2. split; [exact E2|]. split; [by eapply quiet_trans|].
  unfold answered_record. by destruct (find_spiffe _ _).
Qed.



(** Nobody else registers anything: a call of [Register] that answers
    without error, or changes anything at all in the world, comes from an mTLS
    caller whose SPIFFE id is well formed and allowed, with a valid request. *)
Theorem register_effects_authorized caller req w :
  is_ok (Register svc caller req w).1 = true ∨ (Register svc caller req w).2 ≠ w →
  ∃ c, caller = Some c ∧ authorized w c req.
Proof.
  unfold Register. destruct caller as [c|]; [|intros [?|?]; done].
  case_bool_decide as Ht; cbn [negb]; [|intros [?|?]; done].
  destruct (Validate req) as [e|[]] eqn:Hv; cbn [is_ok negb]; [intros [?|?]; done|].
  rewrite bind_gets. destruct (ValidateSPIFFEID _ _) as [e|[]] eqn:Hs; cbn [is_ok negb].
  - intros [?|?]; done.
  - intros _. exists c. split; [done|]. split_and!; [done|by apply Validate_ok|done].
Qed.

(** The id answered to a first registration is not the id of its row. The
    insert lets the database generate the id and the service answers with one
    it drew itself; as long as the two differ, the new server is not put in the
    index, and a heartbeat under the answered id is refused as not found. *)
Theorem first_registration_id_lost caller req w hreq :
  db_ok w.(w_db) → w.(w_db).(db_faults) = [] → authorized w caller req →
  find_spiffe w.(w_db).(db_servers) caller.(id_ID) = None →
  TrimSpace (drawn_id w) ≠ "" → uuid_in (drawn_id w) = Some (drawn_id w) →
  w.(w_db).(db_servers) !! drawn_id w = None → drawn_id w ≠ gen_random_uuid w.(w_db).(db_next) →
  ∃ resp w', IndexedRegister svc (Some caller) req w = (Ok resp, w') ∧
    resp.(rr_InstanceID) = drawn_id w ∧ resp.(rr_Status) = StatusActive ∧
    w'.(w_index) = w.(w_index) ∧
    Heartbeat svc (Some caller) resp.(rr_InstanceID) hreq w' =
      (Err (Wrap "heartbeat" ErrNotFound), w').
Proof.
  intros Hok Hf Ha Hn Htr Hu Hfree Hne.
  destruct (Register_runs caller req w Hok Hf Ha) as (resp & w' & E & Q & Hid & _ & _ & _ & Hst).
  unfold answered_record in Hid. rewrite Hn in Hid. cbn [new_record ID] in Hid.
  assert (Hget : Get (drawn_id w) w'.(w_db) = (Err (Wrap "server store" ErrNoRows), w'.(w_db))).
  { apply (Get_missing _ (drawn_id w)); [by apply (q_faults _ _ Q)|done|].
    rewrite (q_servers _ _ Q). simpl. unfold registered_row. rewrite Hn. simpl.
    by rewrite lookup_insert_ne. }
  exists resp, w'. split_and!; [|done..|by rewrite (q_index _ _ Q)|].
  - unfold IndexedRegister. rewrite (bind_ok _ _ _ _ _ E), Hst, Hid.
    change (IsRoutable StatusActive) with true. cbv iota.
    unfold syncServer. rewrite bool_decide_eq_false_2 by done.
    unfold bind at 1 2. by rewrite (attempt_read _ _ _ Hget).
  - rewrite Hid. destruct Ha as (Ht & _). unfold Heartbeat.
    rewrite bool_decide_eq_false_2 by done. rewrite bool_decide_eq_true_2 by done. cbn [negb].
    apply bind_err. unfold lookupHeartbeatRecord.
    rewrite (bind_ok _ _ _ _ _ (attempt_read _ _ _ Hget)), no_rows_wrapped. done.
Qed.

End register.
