(* ===== verification/RegLiveness.v ===== *)
(** * Liveness of registrations: heartbeats, sweeps, acknowledgement, removal *)

From S2P Require Import Prelude GoStrings Encoding GoNet Types Spiffe RegTypes Store Json.
From S2P Require Import Classification Lifecycle CapIndex Registration RegInvariant RegProps.

#[local] Open Scope string_scope.
#[local] Open Scope list_scope.
#[local] Open Scope nat_scope.
#[local] Open Scope go_scope.

Section liveness.
Context `{UnicodeTables} `{PostgresLaws} `{Entropy}.
Context (svc : Service).

(** ** Single statements *)

Lemma UpdateStatus_run id c row s db :
  db.(db_faults) = [] → uuid_in id = Some c → db.(db_servers) !! c = Some row →
  UpdateStatus id s db =
    (Ok (), set_servers (<[c := set_updated_at db.(db_now) (set_status s row)]> db.(db_servers)) db).
Proof.
  intros Hf Hu Hr. unfold UpdateStatus.
  erewrite bind_ok by (apply wrap_error_ok; by eapply on_row_replace). done.
Qed.

Lemma UpdateHeartbeat_run id c row db :
  db.(db_faults) = [] → uuid_in id = Some c → db.(db_servers) !! c = Some row →
  UpdateHeartbeat id db =
    (Ok (), set_servers (<[c := set_updated_at db.(db_now)
       (set_last_heartbeat (Some db.(db_now)) row)]> db.(db_servers)) db).
Proof.
  intros Hf Hu Hr. unfold UpdateHeartbeat.
  erewrite bind_ok by (apply wrap_error_ok; by eapply on_row_replace). done.
Qed.

Lemma Delete_run id c row db :
  db.(db_faults) = [] → uuid_in id = Some c → db.(db_servers) !! c = Some row →
  Delete id db = (Ok (), set_servers (delete c db.(db_servers)) db).
Proof.
  intros Hf Hu Hr. unfold Delete.
  erewrite bind_ok by (apply wrap_error_ok; by eapply on_row_delete). done.
Qed.

(** [Update] of a row by a record with the same SPIFFE id. *)
Lemma Update_run r c row db :
  db_ok db → db.(db_faults) = [] → uuid_in r.(ID) = Some c → db.(db_servers) !! c = Some row →
  int32_range r.(Port) = true → r.(SPIFFEID) = row.(SPIFFEID) →
  Update r db =
    (Ok (), set_servers (<[c := written r c r.(Status) r.(PolicyProfileName) row.(RateLimit)
       row.(RateBurst) row.(CreatedAt) db.(db_now)]> db.(db_servers)) db).
Proof.
  intros Hok Hf Hu Hr Hp Hs. destruct (ok_key _ Hok _ _ Hr) as [Hid _]. unfold Update.
  erewrite bind_ok.
  2: { apply wrap_error_ok, (on_row_replace _ c row (written r c r.(Status) r.(PolicyProfileName)
         row.(RateLimit) row.(RateBurst) row.(CreatedAt) db.(db_now))); try done.
       rewrite Hp. unfold spiffe_taken. rewrite Hs, (find_spiffe_unique _ _ _ Hok Hr).
       rewrite bool_decide_eq_true_2 by done. cbn [negb]. by rewrite Hid. }
  done.
Qed.

(** ** Heartbeats *)

(** A heartbeat that reaches its row: the id names it and the caller owns it. *)
Record reaches (w : World) (caller : Identity) (id c : string) (row : ServerRecord) : Prop := {
  re_id : TrimSpace id ≠ "";
  re_uuid : uuid_in id = Some c;
  re_row : w.(w_db).(db_servers) !! c = Some row;
  re_faults : w.(w_db).(db_faults) = [];
  re_mtls : caller.(id_Type) = IdentityMTLS;
  re_owner : caller.(id_ID) = row.(SPIFFEID);
}.

Lemma lookupHeartbeatRecord_run w caller id c row :
  reaches w caller id c row → lookupHeartbeatRecord caller id w = (Ok row, w).
Proof.
  intros [_ Hu Hr Hf _ Ho]. unfold lookupHeartbeatRecord.
  rewrite (bind_ok _ _ _ _ _ (attempt_read _ _ _ (Get_found _ _ _ _ Hf Hu Hr))).
  by rewrite bool_decide_eq_true_2.
Qed.

(** The row after a heartbeat. *)
Definition beaten (now : Z) (row : ServerRecord) : ServerRecord :=
  set_updated_at now (set_last_heartbeat (Some now) (set_status StatusActive row)).

Lemma beaten_active now row :
  row.(Status) = StatusActive →
  set_updated_at now (set_last_heartbeat (Some now) row) = beaten now row.
Proof. destruct row. simpl. by intros ->. Qed.

(** The world with another server table. *)
Definition with_servers (t : gmap string ServerRecord) (w : World) : World :=
  set_db (set_servers t w.(w_db)) w.

(** The gauge after a registration moved from one status to another. *)
Definition moved (old new : ServerStatus) (g : gmap string Z) : gmap string Z :=
  let g1 := <[ServerStatus_String old := (default 0 (g !! ServerStatus_String old) - 1)%Z]> g in
  <[ServerStatus_String new := (default 0 (g1 !! ServerStatus_String new) + 1)%Z]> g1.

(** The world after a change of status was announced: the gauge has moved, the
    publisher and the other pods have been told. *)
Definition status_announced (row : ServerRecord) (new : ServerStatus) (w : World) : World :=
  mkWorld w.(w_db) w.(w_index) w.(w_spiffeAllowList) w.(w_settingsVersion) w.(w_effectiveSettings)
    w.(w_audit)
    (w.(w_events) ++ (if svc.(svc_publisher)
       then [ServerHealthChanged row.(ID) row.(Name) row.(Status) new] else []))
    (w.(w_broadcasts) ++ (if svc.(svc_broadcaster)
       then [RegistrationEvent "status_changed" row.(ID) (UnixMilli (w_now w))] else []))
    (moved row.(Status) new w.(w_registrations)) w.(w_rand).

Lemma announce_run row new w :
  (AddActiveRegistrations (ServerStatus_String row.(Status)) (-1) ;;
   AddActiveRegistrations (ServerStatus_String new) 1 ;;
   publish svc (ServerHealthChanged row.(ID) row.(Name) row.(Status) new) ;;
   publishBroadcast svc "status_changed" row.(ID)) w = (Ok (), status_announced row new w).
Proof.
  unfold publish, publishBroadcast, status_announced.
  by destruct (svc_publisher svc), (svc_broadcaster svc), w; rewrite ?app_nil_r.
Qed.

(** The world after a heartbeat of a server with row [row]. *)
Definition beat_world (c : string) (row : ServerRecord) (w : World) : World :=
  let w1 := with_servers (<[c := beaten (w_now w) row]> w.(w_db).(db_servers)) w in
  if bool_decide (row.(Status) = StatusActive) then w1 else status_announced row StatusActive w1.

Lemma beat_world_db c row w :
  (beat_world c row w).(w_db) = set_servers (<[c := beaten (w_now w) row]> w.(w_db).(db_servers)) w.(w_db) ∧
  (beat_world c row w).(w_index) = w.(w_index).
Proof. unfold beat_world. by case_bool_decide. Qed.

(** The two statements of a heartbeat, and what is announced between them. *)
Lemma apply_and_beat {B} (k : ServerStatus → ST World B) w caller id c row :
  reaches w caller id c row → is_ok (Transition row.(Status) EventHeartbeat) = true →
  (let* st := applyHeartbeatTransition svc id row in
   wrapping "heartbeat: update heartbeat" (on_db (UpdateHeartbeat id)) ;; k st) w =
  k StatusActive (beat_world c row w).
Proof.
  intros [_ Hu Hr Hf _ _] Ht. unfold applyHeartbeatTransition.
  assert (Hok : Transition row.(Status) EventHeartbeat = Ok StatusActive).
  { revert Ht. rewrite !Transition_heartbeat. by destruct (Status row). }
  rewrite Hok. unfold beat_world. destruct (decide (row.(Status) = StatusActive)) as [Ha|Ha].
  - rewrite (bool_decide_eq_true_2 _ Ha), (bool_decide_eq_true_2 _ (eq_sym Ha)). cbn [negb].
    rewrite (bind_ok _ _ w StatusActive w) by done.
    erewrite bind_ok; [reflexivity|]. apply wrapping_ok, on_db_run.
    rewrite (UpdateHeartbeat_run _ _ _ _ Hf Hu Hr). by rewrite beaten_active.
  - rewrite (bool_decide_eq_false_2 _ Ha), bool_decide_eq_false_2 by congruence. cbn [negb].
    set (t1 := <[c := set_updated_at (w_now w) (set_status StatusActive row)]> w.(w_db).(db_servers)).
    rewrite (bind_ok _ _ w StatusActive (status_announced row StatusActive (with_servers t1 w))).
    2: { erewrite bind_ok; [done|]. erewrite bind_ok; [apply announce_run|].
         apply wrapping_ok, on_db_run. by rewrite (UpdateStatus_run _ _ _ _ _ Hf Hu Hr). }
    erewrite bind_ok; [reflexivity|]. apply wrapping_ok.
    erewrite on_db_run by exact (UpdateHeartbeat_run id c
      (set_updated_at (w_now w) (set_status StatusActive row)) (set_servers t1 w.(w_db)) Hf Hu
      (lookup_insert_eq _ _ _)).
    cbn. unfold t1. by rewrite insert_insert_eq.
Qed.

Lemma bind_settings {B} n (k : Z * settings → ST World B) w :
  bind (effectiveSettingsForServer n) k w =
  k (w.(w_settingsVersion), match w.(w_effectiveSettings) !! TrimSpace n with
                            | Some s => cloneSettings s | None => [] end) w.
Proof. done. Qed.

Lemma resolve_none req row :
  resolveHeartbeatAction req row = HeartbeatActionNone ∨
  resolveHeartbeatAction req row = HeartbeatActionReRegister.
Proof. unfold resolveHeartbeatAction. repeat case_match; auto. Qed.

(** The hash the request reports differs from the stored one. *)
Definition hash_changed (req : HeartbeatRequest) (row : ServerRecord) : bool :=
  negb (bool_decide (TrimSpace req.(hq_CapabilityHash) = ""))
  && negb (bool_decide (TrimSpace req.(hq_CapabilityHash) = TrimSpace row.(CapabilityHash))).

(** The answer to a heartbeat that was not asked to register again. *)
Definition beat_response (w : World) (req : HeartbeatRequest) (row : ServerRecord)
    (hash : string) : HeartbeatResponse :=
  mkHeartbeatResponse StatusActive
    (w_now w + wrap_i64 (heartbeatIntervalSeconds svc.(svc_config) * second))%Z
    row.(LeaseEpoch)
    (if bool_decide (row.(SyncState) = SyncStateRaw "") then SyncStateUnacked else row.(SyncState))
    (if hash_changed req row then HeartbeatActionResendCapabilities else HeartbeatActionNone)
    hash w.(w_settingsVersion)
    (match w.(w_effectiveSettings) !! TrimSpace row.(Name) with
     | Some s => cloneSettings s | None => [] end).

(** The answer that asks the server to register again. *)
Definition reregister_response (w : World) (row : ServerRecord) : HeartbeatResponse :=
  mkHeartbeatResponse row.(Status)
    (w_now w + wrap_i64 (heartbeatIntervalSeconds svc.(svc_config) * second))%Z
    row.(LeaseEpoch) row.(SyncState) HeartbeatActionReRegister row.(CapabilityHash)
    w.(w_settingsVersion)
    (match w.(w_effectiveSettings) !! TrimSpace row.(Name) with
     | Some s => cloneSettings s | None => [] end).

(** Whether the heartbeat asks the backend for its tools. *)
Definition refreshes (req : HeartbeatRequest) (row : ServerRecord) : bool :=
  hash_changed req row && refresh_enabled svc && bool_decide (is_Some svc.(svc_toolLister)).

(** [Heartbeat] up to the table update. *)
Lemma Heartbeat_prefix w caller id c row req :
  reaches w caller id c row → resolveHeartbeatAction req row = HeartbeatActionNone →
  is_ok (Transition row.(Status) EventHeartbeat) = true →
  Heartbeat svc (Some caller) id req w =
  (let* capabilityHash :=
     if refreshes req row then
       let* refreshed := attempt (RefreshCapabilities svc row (TrimSpace req.(hq_CapabilityHash))
         svc.(svc_toolLister)) in
       ret (if is_ok refreshed then TrimSpace req.(hq_CapabilityHash) else row.(CapabilityHash))
     else ret row.(CapabilityHash) in
   ret (beat_response w req row capabilityHash)) (beat_world c row w).
Proof.
  intros Hre Hact Ht. pose proof Hre as [Hne Hu Hr Hf Hm Ho].
  unfold Heartbeat. rewrite bool_decide_eq_false_2 by done.
  rewrite bool_decide_eq_true_2 by done. cbn [negb].
  rewrite (bind_ok _ _ _ _ _ (lookupHeartbeatRecord_run _ _ _ _ _ Hre)).
  rewrite Hact, bind_gets, bind_settings. rewrite bool_decide_eq_false_2 by done.
  by rewrite (apply_and_beat _ w caller id c row Hre Ht).
Qed.

(** The heartbeat names a lease epoch or a registration id that is not the row's. *)
Definition outdated (req : HeartbeatRequest) (row : ServerRecord) : Prop :=
  ((0 < req.(hq_LeaseEpoch))%Z ∧ req.(hq_LeaseEpoch) ≠ row.(LeaseEpoch)) ∨
  (TrimSpace req.(hq_RegistrationID) ≠ "" ∧ TrimSpace req.(hq_RegistrationID) ≠ row.(ID)).

Lemma resolve_outdated req row :
  (outdated req row → resolveHeartbeatAction req row = HeartbeatActionReRegister) ∧
  (¬ outdated req row → resolveHeartbeatAction req row = HeartbeatActionNone).
Proof.
  unfold outdated, resolveHeartbeatAction.
  destruct (Z.ltb_spec 0 req.(hq_LeaseEpoch)), (Z.eqb_spec req.(hq_LeaseEpoch) row.(LeaseEpoch));
    repeat case_bool_decide; simpl; (split; [|done || tauto]); try done; intros [[]|[]]; (done || lia).
Qed.

(** ** Heartbeats that trigger a capability refresh *)

(** The record a refresh writes. *)
Definition refreshed (row : ServerRecord) (hash : string) (toolNames : list string) : ServerRecord :=
  set_capabilities (mkCapability toolNames row.(Capabilities).(Resources) row.(Capabilities).(Prompts))
    (set_capability_hash hash row).

(** The row after a refresh of a server that had [row] when it was read and has
    [cur] when it is written. *)
Definition refreshed_row (now : Z) (c : string) (row cur : ServerRecord) (hash : string)
    (toolNames : list string) : ServerRecord :=
  written (refreshed row hash toolNames) c row.(Status) row.(PolicyProfileName) cur.(RateLimit)
    cur.(RateBurst) cur.(CreatedAt) now.

(** The world after a refresh: the row is written and indexed again if it is
    routable, and the other pods are told. *)
Definition refresh_world (c : string) (row' : ServerRecord) (hash : string) (count : nat)
    (w : World) : World :=
  let i := removeLocked c w.(w_index) in
  mkWorld (set_servers (<[c := row']> w.(w_db).(db_servers)) w.(w_db))
    (if IsRoutable row'.(Status) then addLocked row' i else i)
    w.(w_spiffeAllowList) w.(w_settingsVersion) w.(w_effectiveSettings) w.(w_audit) w.(w_events)
    (w.(w_broadcasts) ++ (if svc.(svc_broadcaster)
       then [CapabilitiesChanged c hash (Z.of_nat count)] else []))
    w.(w_registrations) w.(w_rand).

Lemma index_refresh_run w c row :
  w.(w_db).(db_faults) = [] → uuid_in c = Some c → w.(w_db).(db_servers) !! c = Some row →
  index_refresh c w = (Ok (), set_index (let i := removeLocked c w.(w_index) in
    if IsRoutable row.(Status) then addLocked row i else i) w).
Proof.
  intros Hf Hu Hr. destruct (uuid_in_nonblank _ _ Hu) as [Htr Hne]. unfold index_refresh, RefreshServer.
  rewrite Htr, bool_decide_eq_false_2 by done. rewrite (Get_found _ _ _ _ Hf Hu Hr).
  by rewrite set_db_id.
Qed.

Lemma RefreshCapabilities_run w row c cur lister toolNames hash :
  svc.(svc_capabilityIndex) = true → lister row = Ok toolNames →
  db_ok w.(w_db) → w.(w_db).(db_faults) = [] → row.(ID) = c → uuid_in c = Some c →
  w.(w_db).(db_servers) !! c = Some cur → int32_range row.(Port) = true →
  row.(SPIFFEID) = cur.(SPIFFEID) →
  RefreshCapabilities svc row hash (Some lister) w =
    (Ok (mkRefreshResult (Z.of_nat (length toolNames)) hash true toolNames),
     refresh_world c (refreshed_row (w_now w) c row cur hash toolNames) hash (length toolNames) w).
Proof.
  intros Hix Hl Hok Hf Hid Hu Hr Hp Hs. unfold RefreshCapabilities. rewrite Hix, Hl, Hid. cbn [negb].
  destruct (uuid_in_nonblank _ _ Hu) as [Htr _]. rewrite Htr.
  set (srv := set_capabilities _ _). assert (Hus : uuid_in srv.(ID) = Some c) by (by simpl; rewrite Hid).
  rewrite (bind_ok _ _ _ _ _ (wrapping_ok "refresh capabilities: update server" _ w _ _
    (on_db_run _ w _ _ (Update_run srv c cur _ Hok Hf Hus Hr Hp Hs)))).
  erewrite bind_ok.
  2: { apply attempt_run, (index_refresh_run _ c (refreshed_row (w_now w) c row cur hash toolNames));
         [exact Hf|exact Hu|apply lookup_insert_eq]. }
  unfold refresh_world. by destruct (svc_broadcaster svc), w; rewrite ?app_nil_r.
Qed.

(** *** The whole effect *)

Definition alive (st : ServerStatus) : Prop :=
  st ∈ [StatusPending; StatusApproved; StatusActive; StatusStale].

Lemma alive_beats st : alive st → is_ok (Transition st EventHeartbeat) = true.
Proof.
  intros Hst. rewrite Transition_heartbeat.
  repeat (apply elem_of_cons in Hst as [->|Hst]; [done|]). by apply elem_of_nil in Hst.
Qed.

(** A heartbeat that does not refresh, or whose refresh fails to list the tools. *)
Lemma Heartbeat_beats w caller id c row req :
  reaches w caller id c row → ¬ outdated req row → alive row.(Status) →
  (refreshes req row = true → svc.(svc_capabilityIndex) = false ∨
     ∃ lister e, svc.(svc_toolLister) = Some lister ∧ lister row = Err e) →
  Heartbeat svc (Some caller) id req w =
    (Ok (beat_response w req row row.(CapabilityHash)), beat_world c row w).
Proof.
  intros Hre Hact%resolve_outdated Hst%alive_beats Hno.
  rewrite (Heartbeat_prefix w caller id c row req Hre Hact Hst).
  destruct (refreshes req row) eqn:Href; [|done].
  assert (Hl : ∃ lister, svc.(svc_toolLister) = Some lister).
  { unfold refreshes in Href. apply andb_true_iff in Href as [_ [l Hl]%bool_decide_eq_true]. eauto. }
  destruct Hl as [lister Hl]. rewrite Hl. erewrite bind_ok; [reflexivity|]. unfold RefreshCapabilities.
  destruct (Hno eq_refl) as [-> | (lister' & e & Hl' & He)]; [done|].
  assert (lister' = lister) as -> by congruence. rewrite He. by destruct (svc_capabilityIndex svc).
Qed.

Lemma db_ok_beaten w c row :
  db_ok w.(w_db) → w.(w_db).(db_servers) !! c = Some row → db_ok (beat_world c row w).(w_db).
Proof.
  intros Hok Hr. rewrite (proj1 (beat_world_db c row w)). destruct (ok_key _ Hok _ _ Hr) as [Hid Hu].
  apply (db_ok_replace _ _ row); try done; [by apply (ok_lease _ Hok _ _ Hr)|].
  intros j s Hj Hjs. by apply (ok_spiffe _ Hok _ _ _ _ Hj Hr).
Qed.

(** A heartbeat whose refresh gets the tools of the backend. *)
Lemma Heartbeat_refreshes w caller id c row req lister toolNames :
  reaches w caller id c row → ¬ outdated req row → alive row.(Status) →
  refreshes req row = true → svc.(svc_capabilityIndex) = true →
  svc.(svc_toolLister) = Some lister → lister row = Ok toolNames →
  db_ok w.(w_db) → int32_range row.(Port) = true →
  let hash := TrimSpace req.(hq_CapabilityHash) in
  Heartbeat svc (Some caller) id req w =
    (Ok (beat_response w req row hash),
     refresh_world c (refreshed_row (w_now w) c row (beaten (w_now w) row) hash toolNames) hash
       (length toolNames) (beat_world c row w)).
Proof.
  intros Hre Hact%resolve_outdated Hst%alive_beats Href Hix Htl Hlist Hok Hp hash.
  rewrite (Heartbeat_prefix w caller id c row req Hre Hact Hst), Href, Htl.
  destruct Hre as [_ _ Hr Hf _ _]. destruct (ok_key _ Hok _ _ Hr) as [Hid Hcan].
  destruct (beat_world_db c row w) as [Hdb _]. erewrite bind_ok; [reflexivity|].
  assert (Hnow : w_now (beat_world c row w) = w_now w) by (unfold w_now; by rewrite Hdb).
  rewrite (bind_ok _ _ _ _ _ (attempt_run _ _ _ _ (RefreshCapabilities_run _ row c
    (beaten (w_now w) row) lister toolNames hash Hix Hlist (db_ok_beaten _ _ _ Hok Hr)
    ltac:(by rewrite Hdb) Hid Hcan ltac:(rewrite Hdb; apply lookup_insert_eq) Hp eq_refl))).
  by rewrite Hnow.
Qed.

(** C7: The answer and the world after a heartbeat that reaches its row, with a
    working database.

    With a lease epoch or registration id that is not the row's, it changes
    nothing and asks the server to register again. On an expired registration it
    fails and changes nothing: expired servers are not revived. Otherwise it
    answers active, with the next deadline, the lease, the settings, and a
    request for the capabilities when the reported hash is not the stored one.

    If no refresh is due, or it cannot list the tools, the row becomes active
    with a heartbeat now, a change of status moves the gauge and is published and
    broadcast, and nothing else changes. If the refresh gets the tools, the
    answer has the reported hash, and the record read before the heartbeat is
    written back with the new hash and tools, so the row has its old status and
    heartbeat again; it is indexed again if that status is routable, and the
    change of capabilities is broadcast. *)
Theorem heartbeat_correct w caller id c row req :
  reaches w caller id c row →
  (outdated req row →
     Heartbeat svc (Some caller) id req w = (Ok (reregister_response w row), w)) ∧
  (¬ outdated req row → row.(Status) = StatusExpired →
     Heartbeat svc (Some caller) id req w = (Err (Wrap "heartbeat" ErrInvalidRequest), w)) ∧
  (¬ outdated req row → alive row.(Status) →
     (refreshes req row = true → svc.(svc_capabilityIndex) = false ∨
        ∃ lister e, svc.(svc_toolLister) = Some lister ∧ lister row = Err e) →
     Heartbeat svc (Some caller) id req w =
       (Ok (beat_response w req row row.(CapabilityHash)), beat_world c row w)) ∧
  (¬ outdated req row → alive row.(Status) →
     ∀ lister toolNames, refreshes req row = true → svc.(svc_capabilityIndex) = true →
     svc.(svc_toolLister) = Some lister → lister row = Ok toolNames →
     db_ok w.(w_db) → int32_range row.(Port) = true →
     let hash := TrimSpace req.(hq_CapabilityHash) in
     Heartbeat svc (Some caller) id req w =
       (Ok (beat_response w req row hash),
        refresh_world c (refreshed_row (w_now w) c row (beaten (w_now w) row) hash toolNames) hash
          (length toolNames) (beat_world c row w))).
Proof.
  intros Hre. pose proof Hre as [Hne Hu Hr Hf Hm Ho].
  assert (Hpre : ∀ a, resolveHeartbeatAction req row = a →
    Heartbeat svc (Some caller) id req w = if bool_decide (a = HeartbeatActionReRegister)
      then (Ok (reregister_response w row), w) else Heartbeat svc (Some caller) id req w).
  { intros a <-. case_bool_decide as Ha; [|done]. unfold Heartbeat. rewrite bool_decide_eq_false_2 by done.
    rewrite bool_decide_eq_true_2 by done. cbn [negb].
    rewrite (bind_ok _ _ _ _ _ (lookupHeartbeatRecord_run _ _ _ _ _ Hre)).
    rewrite Ha, bind_gets, bind_settings. by rewrite bool_decide_eq_true_2 by done. }
  split_and!.
  - intros Hact%resolve_outdated. by rewrite (Hpre _ Hact).
  - intros Hact%resolve_outdated Hst. unfold Heartbeat. rewrite bool_decide_eq_false_2 by done.
    rewrite bool_decide_eq_true_2 by done. cbn [negb].
    rewrite (bind_ok _ _ _ _ _ (lookupHeartbeatRecord_run _ _ _ _ _ Hre)).
    rewrite Hact, bind_gets, bind_settings. rewrite bool_decide_eq_false_2 by done.
    apply bind_err. unfold applyHeartbeatTransition. by rewrite Hst, Transition_heartbeat.
  - by apply Heartbeat_beats.
  - intros ? ? lister toolNames **. by apply (Heartbeat_refreshes w caller id c row req lister).
Qed.

(** A refresh that gets the tools leaves the row with its old status and old
    heartbeat although the answer says active: a stale server stays stale, and
    is swept on its old heartbeat. *)
Theorem heartbeat_refresh_reverts w caller id c row req lister toolNames :
  reaches w caller id c row → db_ok w.(w_db) → int32_range row.(Port) = true →
  ¬ outdated req row → alive row.(Status) →
  hash_changed req row = true → refresh_enabled svc = true →
  svc.(svc_toolLister) = Some lister → svc.(svc_capabilityIndex) = true →
  lister row = Ok toolNames →
  ∃ resp w' row', Heartbeat svc (Some caller) id req w = (Ok resp, w') ∧
    resp.(hr_ServerStatus) = StatusActive ∧
    w'.(w_db).(db_servers) !! c = Some row' ∧
    row'.(Status) = row.(Status) ∧ row'.(LastHeartbeat) = row.(LastHeartbeat) ∧
    row'.(Capabilities).(Tools) = toolNames.
Proof.
  intros Hre Hok Hp Hact Hst Hh Hen Htl Hix Hlist. eexists _, _, _. split.
  - apply (Heartbeat_refreshes w caller id c row req lister toolNames); try done.
    unfold refreshes. by rewrite Hh, Hen, Htl.
  - split; [done|]. simpl. rewrite lookup_insert_eq. done.
Qed.

End liveness.

Section removal.
Context `{UnicodeTables} `{PostgresLaws} `{Entropy}.
Context (svc : Service).

(** ** Deregistration *)

Definition may_deregister (caller : Identity) (row : ServerRecord) : Prop :=
  HasScope (Some caller) ScopeAdmin = true ∨
  caller.(id_Type) = IdentityMTLS ∧ caller.(id_ID) = row.(SPIFFEID).

(** The world after the registration [row] was removed: the row is gone, the
    gauge has moved, and the removal is audited, published and broadcast. *)
Definition removed_world (caller : Identity) (c : string) (row : ServerRecord) (w : World) : World :=
  let st := ServerStatus_String row.(Status) in
  mkWorld (set_servers (delete c w.(w_db).(db_servers)) w.(w_db)) w.(w_index) w.(w_spiffeAllowList)
    w.(w_settingsVersion) w.(w_effectiveSettings)
    (w.(w_audit) ++ (if svc.(svc_auditStore)
       then [mkAuditEntry "server.deregistered" caller.(id_ID) row.(Name)
               [("server_id", row.(ID)); ("spiffe_id", row.(SPIFFEID))]] else []))
    (w.(w_events) ++ (if svc.(svc_publisher)
       then [ServerDeregistered row.(ID) row.(Name) "deregistered"] else []))
    (w.(w_broadcasts) ++ (if svc.(svc_broadcaster)
       then [RegistrationEvent "deregistered" row.(ID) (UnixMilli (w_now w))] else []))
    (<[st := (default 0 (w.(w_registrations) !! st) - 1)%Z]> w.(w_registrations)) w.(w_rand).

Lemma Deregister_allowed w caller id c row :
  w.(w_db).(db_faults) = [] → TrimSpace id ≠ "" → uuid_in id = Some c →
  w.(w_db).(db_servers) !! c = Some row → may_deregister caller row →
  Deregister svc (Some caller) id w = (Ok (), removed_world caller c row w).
Proof.
  intros Hf Hne Hu Hr Hall. unfold Deregister. rewrite bool_decide_eq_false_2 by done.
  rewrite (bind_ok _ _ _ _ _ (attempt_read _ _ _ (Get_found _ _ _ _ Hf Hu Hr))).
  destruct (negb (HasScope _ _) && _) eqn:Hb.
  { destruct Hall as [Ha|[Ht Ho]]; [by rewrite Ha in Hb|].
    rewrite !bool_decide_eq_true_2 in Hb by done. by rewrite andb_false_r in Hb. }
  rewrite (bind_ok _ _ w () (with_servers (delete c w.(w_db).(db_servers)) w)).
  2: { apply wrapping_ok, on_db_run. exact (Delete_run _ _ _ _ Hf Hu Hr). }
  unfold removed_world, logAudit, publish, publishBroadcast.
  by destruct (svc_auditStore svc), (svc_publisher svc), (svc_broadcaster svc), w; rewrite ?app_nil_r.
Qed.



(** Every identity the mTLS middleware issues may deregister every server:
    the middleware grants the admin scope to any allowed SPIFFE id, so the test
    that an mTLS caller only removes its own registration never applies. *)
Theorem mtls_caller_deregisters_any allowedPrefixes chains caller w id c row :
  MTLSMiddleware allowedPrefixes chains = inr caller →
  w.(w_db).(db_faults) = [] → TrimSpace id ≠ "" → uuid_in id = Some c →
  w.(w_db).(db_servers) !! c = Some row →
  ∃ w', Deregister svc (Some caller) id w = (Ok (), w') ∧ w'.(w_db).(db_servers) !! c = None.
Proof.
  intros Hm Hf Hne Hu Hr.
  assert (Hadm : HasScope (Some caller) ScopeAdmin = true).
  { revert Hm. unfold MTLSMiddleware. destruct chains as [[|[|leaf rest] more]|]; try done.
    destruct (ExtractSPIFFEID _); [done|]. destruct (ValidateSPIFFEID _ _); [done|].
    by intros [= <-]. }
  eexists. split; [apply (Deregister_allowed w caller id c row); try done; by left|].
  apply lookup_delete_eq.
Qed.

(** Deregistering under another spelling of the id (PostgreSQL reads UUIDs
    without regard to case) deletes the row but leaves the server in the index
    of this pod: it stays routable. *)
Theorem deregister_alias_keeps_index w caller id c row name r :
  w.(w_db).(db_faults) = [] → TrimSpace id ≠ "" → uuid_in id = Some c →
  w.(w_db).(db_servers) !! c = Some row → may_deregister caller row → id ≠ c →
  r ∈ LookupTool w.(w_index) name → r.(ID) = c →
  ∃ w', IndexedDeregister svc (Some caller) id w = (Ok (), w') ∧
    w'.(w_db).(db_servers) !! c = None ∧ r ∈ LookupTool w'.(w_index) name.
Proof.
  intros Hf Hne Hu Hr Hall Hid Hin Hrid.
  eexists. unfold IndexedDeregister.
  rewrite (bind_ok _ _ _ _ _ (Deregister_allowed w caller id c row Hf Hne Hu Hr Hall)). split; [done|].
  simpl. split; [apply lookup_delete_eq|].
  rewrite LookupTool_under in Hin |- *. case_bool_decide; [done|].
  unfold Remove. rewrite bool_decide_eq_false_2 by done. simpl.
  rewrite under_remove_id. apply elem_of_removeServer. split; [done|congruence].
Qed.

(** ** Acknowledgement *)

(** The row an acknowledgement matches. *)
Definition ack_matches (w : World) (id : string) (lease : Z) (hash : string) (c : string)
    (row : ServerRecord) : Prop :=
  uuid_in (TrimSpace id) = Some c ∧ w.(w_db).(db_servers) !! c = Some row ∧
  row.(LeaseEpoch) = lease ∧ (TrimSpace hash = "" ∨ row.(CapabilityHash) = TrimSpace hash).

(** An acknowledgement is recorded exactly when it names the row's current
    lease epoch and, if it gives one, its current capability hash; then the row
    becomes acked with that version and nothing else changes. An acknowledgement
    of an earlier lease, or of other capabilities, is answered not found and
    changes nothing. *)
Theorem ack_correct w id lease hash version ackedAt c :
  w.(w_db).(db_faults) = [] → TrimSpace id ≠ "" → (0 < lease)%Z → ackedAt ≠ zero_time →
  uuid_in (TrimSpace id) = Some c →
  (∀ row, ack_matches w id lease hash c row →
     AcknowledgeServerRegistration id lease hash version ackedAt w =
       (Ok (), with_servers (<[c := set_updated_at (w_now w)
          (set_ack SyncStateAcked (TrimSpace version) (Some ackedAt) row)]> w.(w_db).(db_servers)) w)) ∧
  ((∀ row, ¬ ack_matches w id lease hash c row) →
     AcknowledgeServerRegistration id lease hash version ackedAt w =
       (Err (Wrap "ack registration" ErrNotFound), w)).
Proof.
  intros Hf Hne Hl Hz Hu. unfold AcknowledgeServerRegistration.
  rewrite bool_decide_eq_false_2 by done. destruct (Z.leb_spec lease 0); [lia|].
  rewrite bind_gets. destruct (Z.eqb_spec ackedAt zero_time); [done|].
  assert (Hsync : parseSyncState (RegistrationSyncState_String SyncStateAcked) = SyncStateAcked)
    by by vm_compute.
  assert (Hrun : ∀ n db, ack_statement (TrimSpace id) lease (TrimSpace hash) (TrimSpace version)
      ackedAt w.(w_db) = (Ok n, db) →
    attempt (on_db (AcknowledgeRegistration id lease hash version ackedAt)) w =
      (Ok (if (n =? 0)%Z then Err ErrNoRows else Ok ()), set_db db w)).
  { intros k db E. apply attempt_run, on_db_run. unfold AcknowledgeRegistration.
    rewrite (bind_ok _ _ _ _ _ (wrap_error_ok _ _ _ _ _ E)). by destruct (k =? 0)%Z. }
  split.
  - intros row (_ & Hr & Hle & Hh). 
    rewrite (bind_ok _ _ w (Ok ()) (with_servers (<[c := set_updated_at (w_now w)
      (set_ack SyncStateAcked (TrimSpace version) (Some ackedAt) row)]> w.(w_db).(db_servers)) w));
      [done|]. apply (Hrun 1%Z). unfold ack_statement. rewrite statement_runs, Hu, Hr, Hle, Z.eqb_refl, Hsync by done.
    cbn [andb]. destruct Hh as [Hh|Hh]; rewrite (bool_decide_eq_true_2 _ Hh), ?orb_true_r; done.
  - intros Hno. rewrite (bind_ok _ _ w (Err ErrNoRows) w); [done|].
    rewrite <- (set_db_id w) at 2. apply (Hrun 0%Z).
    unfold ack_statement. rewrite statement_runs, Hu by done.
    destruct (_ !! c) as [row|] eqn:Hr; [|done]. destruct (_ && _) eqn:Hb; [|done].
    destruct (Hno row). apply andb_true_iff in Hb as [Hb1%Z.eqb_eq Hb2%orb_true_iff].
    split_and!; try done. by rewrite !bool_decide_eq_true in Hb2.
Qed.

End removal.
