(* ===== verification/RegSweep.v ===== *)
(** * The sweep: what one run of the sweeper does to the table and the index *)

From S2P Require Import Prelude GoStrings Encoding GoNet Types Spiffe RegTypes Store Json.
From S2P Require Import Classification Lifecycle CapIndex Registration RegInvariant RegProps.
From S2P Require Import RegLiveness.

#[local] Open Scope string_scope.
#[local] Open Scope list_scope.
#[local] Open Scope nat_scope.
#[local] Open Scope go_scope.

(** ** Marking a list of rows *)

(** A row given a new status now. *)
Definition mark (now : Z) (st : ServerStatus) (r : ServerRecord) : ServerRecord :=
  set_updated_at now (set_status st r).

Definition mark_all (now : Z) (st : ServerStatus) (l : list ServerRecord)
    (t : gmap string ServerRecord) : gmap string ServerRecord :=
  foldl (λ t r, <[r.(ID) := mark now st r]> t) t l.

(** Rows are filed under their id, and the rows [l] are among them, each once. *)
Record rows_of (t : gmap string ServerRecord) (l : list ServerRecord) : Prop := {
  ro_key : ∀ id r, t !! id = Some r → r.(ID) = id;
  ro_nodup : NoDup (ID <$> l);
  ro_in : ∀ r, r ∈ l → t !! r.(ID) = Some r;
}.

Lemma rows_of_cons t r l now st :
  rows_of t (r :: l) → t !! r.(ID) = Some r ∧ rows_of (<[r.(ID) := mark now st r]> t) l.
Proof.
  intros [Hkey Hnd Hin]. apply NoDup_cons in Hnd as [Hr Hnd]. split; [apply Hin; left|].
  split; [|done|].
  - intros id s. rewrite lookup_insert_Some. intros [[<- <-]|[_ ?]]; [done|by apply Hkey].
  - intros r' Hr'. rewrite lookup_insert_ne; [apply Hin; by right|].
    intros Heq. apply Hr, list_elem_of_fmap. eauto.
Qed.

Lemma lookup_mark_all now st l t id :
  rows_of t l →
  mark_all now st l t !! id = (λ r, if decide (r ∈ l) then mark now st r else r) <$> t !! id.
Proof.
  revert t. induction l as [|x l IH]; intros t Hl.
  - simpl. by destruct (t !! id).
  - destruct (rows_of_cons t x l now st Hl) as [Hx Hl'].
    change (mark_all now st (x :: l) t) with (mark_all now st l (<[x.(ID) := mark now st x]> t)).
    rewrite (IH _ Hl'). destruct Hl as [Hkey Hnd Hin]. apply NoDup_cons in Hnd as [Hnx Hnd].
    destruct (decide (id = x.(ID))) as [->|Hne].
    + rewrite lookup_insert_eq, Hx. simpl. rewrite (decide_True _ _ (P := x ∈ x :: l)) by left.
      rewrite decide_False; [done|]. intros Hm. apply Hnx, list_elem_of_fmap.
      by exists (mark now st x).
    + rewrite lookup_insert_ne by done. destruct (t !! id) as [r|] eqn:Er; [|done]. simpl. f_equal.
      assert (Hrx : r ≠ x) by (intros ->; apply Hne; symmetry; by apply Hkey).
      destruct (decide (r ∈ l)) as [Hl|Hl].
      * by rewrite decide_True by by right.
      * rewrite decide_False; [done|]. by intros [?|?]%elem_of_cons.
Qed.

Section sweep.
Context `{UnicodeTables} `{PostgresLaws}.
Context (svc : Service).

(** The body of a sweep loop: the row [r] is marked, and removed from the index
    when [rm] says so. *)
Definition marks (st : ServerStatus) (rm : bool) (body : ServerRecord → ST World ())
    (r : ServerRecord) : Prop :=
  ∀ w, w.(w_db).(db_faults) = [] → uuid_in r.(ID) = Some r.(ID) →
    w.(w_db).(db_servers) !! r.(ID) = Some r →
    ∃ w', body r w = (Ok (), w') ∧
      quiet (set_index (if rm then Remove r.(ID) w.(w_index) else w.(w_index))
        (with_servers (<[r.(ID) := mark (w_now w) st r]> w.(w_db).(db_servers)) w)) w'.

Definition remove_all (rm : bool) (l : list ServerRecord) (i : CapabilityIndex) : CapabilityIndex :=
  if rm then foldl (λ i r, Remove r.(ID) i) i l else i.

Lemma for_each_marks st rm body l w :
  w.(w_db).(db_faults) = [] → rows_of w.(w_db).(db_servers) l →
  Forall (λ r, uuid_in r.(ID) = Some r.(ID) ∧ marks st rm body r) l →
  ∃ w', for_each body l w = (Ok (), w') ∧
    quiet (set_index (remove_all rm l w.(w_index))
      (with_servers (mark_all (w_now w) st l w.(w_db).(db_servers)) w)) w'.
Proof.
  revert w. induction l as [|x l IH]; intros w Hf Hrows Hall.
  - exists w. split; [done|]. unfold remove_all. destruct w as [[]], rm; by split.
  - apply Forall_cons in Hall as [[Hu Hm] Hall].
    destruct (rows_of_cons _ _ _ (w_now w) st Hrows) as [Hx Hrows'].
    destruct (Hm w Hf Hu Hx) as (w1 & E1 & Q1).
    destruct (IH w1) as (w2 & E2 & Q2); try done.
    + by apply (q_faults _ _ Q1).
    + by rewrite (q_servers _ _ Q1).
    + exists w2. cbn [for_each]. rewrite (bind_ok _ _ _ _ _ E1). split; [done|].
      assert (Hnow : w_now w1 = w_now w) by apply (q_now _ _ Q1).
      destruct Q1 as [Hs Hn Hfl Hnx Hi Hv He], Q2 as [Hs' Hn' Hfl' Hnx' Hi' Hv' He'].
      simpl in *. split; simpl; try congruence; [auto|].
      rewrite Hi'. unfold remove_all. rewrite Hi. by destruct rm.
Qed.

Lemma transitionServer_run w r e st :
  w.(w_db).(db_faults) = [] → uuid_in r.(ID) = Some r.(ID) →
  w.(w_db).(db_servers) !! r.(ID) = Some r → Transition r.(Status) e = Ok st →
  ∃ w', transitionServer svc r e w = (Ok true, w') ∧
    quiet (with_servers (<[r.(ID) := mark (w_now w) st r]> w.(w_db).(db_servers)) w) w'.
Proof.
  intros Hf Hu Hr Ht. unfold transitionServer. rewrite Ht.
  rewrite (bind_ok _ _ _ _ _ (attempt_run _ _ _ _ (on_db_run _ w _ _
    (UpdateStatus_run _ _ _ st _ Hf Hu Hr)))).
  destruct (bind_quiet _ (λ _, AddActiveRegistrations (ServerStatus_String st) 1 ;;
    publish svc (ServerHealthChanged r.(ID) r.(Name) r.(Status) st) ;; ret true)
    (with_servers (<[r.(ID) := mark (w_now w) st r]> w.(w_db).(db_servers)) w)
    (quietly_gauge (ServerStatus_String r.(Status)) (-1))) as (? & w1 & Q1 & E1).
  destruct (bind_quiet _ (λ _, publish svc (ServerHealthChanged r.(ID) r.(Name) r.(Status) st) ;;
    ret true) w1 (quietly_gauge (ServerStatus_String st) 1)) as (? & w2 & Q2 & E2).
  destruct (bind_quiet _ (λ _, ret true) w2 (quietly_publish svc
    (ServerHealthChanged r.(ID) r.(Name) r.(Status) st))) as (? & w3 & Q3 & E3).
  exists w3. split; [|eauto using quiet_trans].
  etransitivity; [exact E1|]. etransitivity; [exact E2|]. exact E3.
Qed.

Lemma marks_stale r : r.(Status) = StatusActive →
  marks StatusStale false (λ r, transitionServer svc r EventHeartbeatMissed ;; ret ()) r.
Proof.
  intros Ha w Hf Hu Hr. destruct (transitionServer_run w r EventHeartbeatMissed StatusStale)
    as (w' & E & Q); try done; [by rewrite Ha|].
  exists w'. rewrite (bind_ok _ _ _ _ _ E). split; [done|]. destruct Q. by split.
Qed.

Lemma marks_expired r : r.(Status) = StatusActive ∨ r.(Status) = StatusStale →
  marks StatusExpired svc.(svc_capabilityIndex) (λ r,
    let* done := transitionServer svc r EventExpired in
    if (done : bool) && svc.(svc_capabilityIndex) then indexRemove r.(ID) else ret ()) r.
Proof.
  intros Ha w Hf Hu Hr. destruct (transitionServer_run w r EventExpired StatusExpired)
    as (w' & E & Q); try done; [by destruct Ha as [-> | ->]|].
  rewrite (bind_ok _ _ _ _ _ E). cbn [andb]. destruct (svc_capabilityIndex svc).
  - eexists. split; [done|]. destruct Q as [Hs Hn Hfl Hnx Hi Hv He]. simpl in *.
    split; simpl; try done. by rewrite Hi.
  - exists w'. split; [done|]. destruct Q. by split.
Qed.

(** ** The selected rows *)

Definition selected (p : DB → ServerRecord → bool) (db : DB) : list ServerRecord :=
  merge_sort heartbeat_le (filter (λ r, p db r = true) (map_to_list db.(db_servers)).*2).

Lemma elem_of_select db p r :
  r ∈ selected p db ↔ p db r = true ∧ ∃ id, db.(db_servers) !! id = Some r.
Proof.
  unfold selected. rewrite merge_sort_Permutation, list_elem_of_filter, list_elem_of_fmap.
  split; intros [Hp Hx]; split; try done.
  - destruct Hx as ([id r'] & -> & Hm%elem_of_map_to_list). eauto.
  - destruct Hx as [id Hm]. exists (id, r). by rewrite elem_of_map_to_list.
Qed.

Lemma select_rows_of db p :
  db_ok db → rows_of db.(db_servers) (selected p db).
Proof.
  intros Hok. split.
  - intros id r Hr. by apply (ok_key _ Hok).
  - unfold selected. rewrite merge_sort_Permutation.
    apply (sublist_NoDup _ (ID <$> (map_to_list db.(db_servers)).*2)).
    + rewrite <- list_fmap_compose.
      rewrite (list_fmap_ext (ID ∘ snd) fst); [apply NoDup_fst_map_to_list|].
      intros i [id r] Hi%list_elem_of_lookup_2%elem_of_map_to_list. by apply (ok_key _ Hok).
    + apply fmap_sublist, sublist_filter.
  - intros r (_ & id & Hr)%elem_of_select. by destruct (ok_key _ Hok _ _ Hr) as [-> _].
Qed.

(** ** One sweep *)

(** Whether a sweep at [now] with heartbeat interval [ttl] expires a row: the
    code asks for three times the interval, and the query for three times that. *)
Definition expires (now ttl : Z) (r : ServerRecord) : bool :=
  match r.(LastHeartbeat) with
  | None => false
  | Some h => (h <? now - 9 * ttl)%Z
  end && (bool_decide (r.(Status) = StatusActive) || bool_decide (r.(Status) = StatusStale)).

Definition goes_stale (now ttl : Z) (r : ServerRecord) : bool :=
  match r.(LastHeartbeat) with
  | None => false
  | Some h => (h <? now - ttl)%Z
  end && bool_decide (r.(Status) = StatusActive).

(** The row after a sweep. *)
Definition swept (now ttl : Z) (r : ServerRecord) : ServerRecord :=
  if expires now ttl r then mark now StatusExpired r
  else if goes_stale now ttl r then mark now StatusStale r
  else r.

Abbreviation stale_rows ttl db := (selected (stale_row ttl) db).
Abbreviation expired_rows threshold db := (selected (expired_row threshold) db).

Lemma select_servers_run p w :
  w.(w_db).(db_faults) = [] →
  attempt (on_db (select_servers p)) w = (Ok (Ok (selected p w.(w_db))), w).
Proof.
  intros Hf. apply attempt_read. unfold select_servers. apply wrap_error_ok. by rewrite statement_runs.
Qed.

Lemma sweepStale_run w ttl :
  db_ok w.(w_db) → w.(w_db).(db_faults) = [] → (0 < ttl)%Z →
  ∃ w', sweepStale svc ttl w = (Ok (), w') ∧
    quiet (with_servers (mark_all (w_now w) StatusStale (stale_rows ttl w.(w_db))
      w.(w_db).(db_servers)) w) w'.
Proof.
  intros Hok Hf Ht. unfold sweepStale, ListStale. destruct (Z.leb_spec ttl 0); [lia|].
  rewrite (bind_ok _ _ _ _ _ (select_servers_run _ w Hf)).
  destruct (for_each_marks StatusStale false
    (λ r, transitionServer svc r EventHeartbeatMissed ;; ret ()) (stale_rows ttl (w_db w)) w)
    as (w' & E & Q); [done|by apply select_rows_of| |].
  - apply Forall_forall. intros r (Hp & id & Hr)%elem_of_select.
    destruct (ok_key _ Hok _ _ Hr) as [-> ?]. split; [done|]. apply marks_stale.
    by apply andb_true_iff in Hp as [_ Hp%bool_decide_eq_true].
  - exists w'. split; [exact E|]. destruct Q. by split.
Qed.

Lemma sweepExpired_run w threshold :
  db_ok w.(w_db) → w.(w_db).(db_faults) = [] → (0 < threshold)%Z →
  ∃ w', sweepExpired svc threshold w = (Ok (), w') ∧
    quiet (set_index (remove_all svc.(svc_capabilityIndex) (expired_rows threshold w.(w_db)) w.(w_index))
      (with_servers (mark_all (w_now w) StatusExpired (expired_rows threshold w.(w_db))
        w.(w_db).(db_servers)) w)) w'.
Proof.
  intros Hok Hf Ht. unfold sweepExpired, ListExpired. destruct (Z.leb_spec threshold 0); [lia|].
  rewrite (bind_ok _ _ _ _ _ (select_servers_run _ w Hf)).
  apply for_each_marks; [done|by apply select_rows_of|].
  apply Forall_forall. intros r (Hp & id & Hr)%elem_of_select.
  destruct (ok_key _ Hok _ _ Hr) as [-> ?]. split; [done|]. apply marks_expired.
  apply andb_true_iff in Hp as [_ Hp%orb_true_iff]. by rewrite !bool_decide_eq_true in Hp.
Qed.

Lemma db_ok_quiet w w' : quiet w w' → db_ok w.(w_db) → db_ok w'.(w_db).
Proof.
  intros Q [Hk Hs Hl Hf]. split; intros *; rewrite ?(q_servers _ _ Q), ?(q_next _ _ Q); eauto.
Qed.

Lemma db_ok_mark_all now st l db :
  rows_of db.(db_servers) l → db_ok db → db_ok (set_servers (mark_all now st l db.(db_servers)) db).
Proof.
  intros Hl [Hk Hs Hle Hf].
  assert (Hlook : ∀ id r, mark_all now st l db.(db_servers) !! id = Some r →
    ∃ r0, db.(db_servers) !! id = Some r0 ∧ r.(ID) = r0.(ID) ∧ r.(SPIFFEID) = r0.(SPIFFEID) ∧
      r.(LeaseEpoch) = r0.(LeaseEpoch)).
  { intros id r. rewrite lookup_mark_all by done. intros (r0 & Hr0 & ->)%fmap_Some.
    exists r0. by case_decide. }
  split; simpl.
  - intros id r (r0 & Hr0 & -> & _)%Hlook. by apply Hk.
  - intros i j r s (r0 & Hr0 & _ & Hr1 & _)%Hlook (s0 & Hs0 & _ & Hs1 & _)%Hlook Heq.
    apply (Hs i j r0 s0); congruence.
  - intros id r (r0 & Hr0 & _ & _ & ->)%Hlook. eauto.
  - intros n Hn. rewrite lookup_mark_all by done. by rewrite Hf.
Qed.

Lemma interval_pos : (0 < interval svc)%Z.
Proof.
  unfold interval. destruct (svc_config svc); [|done]. by destruct (Z.ltb_spec 0 (HeartbeatTTL c)).
Qed.

Lemma elem_of_stale_rows db ttl id r :
  db.(db_servers) !! id = Some r → r ∈ stale_rows ttl db ↔ goes_stale db.(db_now) ttl r = true.
Proof. intros Hr. rewrite elem_of_select. split; [by intros [? _]|eauto]. Qed.

Lemma expired_row_expires db ttl r : expired_row (3 * ttl) db r = expires db.(db_now) ttl r.
Proof.
  unfold expired_row, expires, older_than. by replace (3 * ttl * 3)%Z with (9 * ttl)%Z by lia.
Qed.

(** Marking stale first does not change whether a row expires. *)
Lemma expires_mark_stale now ttl r :
  goes_stale now ttl r = true → expires now ttl (mark now StatusStale r) = expires now ttl r.
Proof.
  unfold goes_stale, expires. simpl. intros [_ Ha%bool_decide_eq_true]%andb_true_iff. by rewrite Ha.
Qed.

Lemma swept_two_passes now ttl r :
  let r1 := if goes_stale now ttl r then mark now StatusStale r else r in
  (if expires now ttl r1 then mark now StatusExpired r1 else r1) = swept now ttl r.
Proof.
  unfold swept. destruct (goes_stale now ttl r) eqn:Hs; [|done]. cbv zeta.
  by rewrite expires_mark_stale.
Qed.

Lemma decide_elem (A : Type) (l : list ServerRecord) (r : ServerRecord) (b : bool) (x y : A) :
  (r ∈ l ↔ b = true) → (if decide (r ∈ l) then x else y) = if b then x else y.
Proof. intros Hiff. destruct b; case_decide; naive_solver. Qed.

Lemma elem_of_remove_all l i name r :
  Forall (λ x, TrimSpace x.(ID) ≠ "") l →
  r ∈ LookupTool (foldl (λ i x, Remove x.(ID) i) i l) name ↔
  r ∈ LookupTool i name ∧ r.(ID) ∉ ID <$> l.
Proof.
  revert i. induction l as [|x l IH]; intros i Hl; simpl; [set_solver|].
  apply Forall_cons in Hl as [Hx Hl]. rewrite IH by done. rewrite elem_of_cons.
  rewrite !LookupTool_under. case_bool_decide; [set_solver|].
  unfold Remove. rewrite bool_decide_eq_false_2 by done. simpl.
  rewrite under_remove_id, elem_of_removeServer. naive_solver.
Qed.

(** The row after the first pass. *)
Definition after_stale (now ttl : Z) (r : ServerRecord) : ServerRecord :=
  if goes_stale now ttl r then mark now StatusStale r else r.

Lemma expires_after_stale now ttl r : expires now ttl (after_stale now ttl r) = expires now ttl r.
Proof.
  unfold after_stale. destruct (goes_stale now ttl r) eqn:E; [by apply expires_mark_stale|done].
Qed.

(** The second pass, on the table the first pass leaves. *)
Lemma expired_after_stale db db1 ttl :
  db_ok db1 → db1.(db_now) = db.(db_now) →
  (∀ id, db1.(db_servers) !! id = after_stale db.(db_now) ttl <$> db.(db_servers) !! id) →
  ∀ x, x ∈ ID <$> expired_rows (3 * ttl) db1 ↔
    ∃ row, db.(db_servers) !! x = Some row ∧ expires db.(db_now) ttl row = true.
Proof.
  intros Hok1 Hnow Hl x. rewrite list_elem_of_fmap. split.
  - intros (r & -> & (Hp & id & Hr)%elem_of_select).
    destruct (ok_key _ Hok1 _ _ Hr) as [-> _]. rewrite Hl in Hr.
    apply fmap_Some in Hr as (row & Hrow & ->). exists row. split; [done|].
    by rewrite expired_row_expires, Hnow, expires_after_stale in Hp.
  - intros (row & Hrow & He). exists (after_stale db.(db_now) ttl row).
    assert (Hr1 : db1.(db_servers) !! x = Some (after_stale db.(db_now) ttl row)) by (by rewrite Hl, Hrow).
    split; [symmetry; by apply (ok_key _ Hok1)|]. apply elem_of_select.
    rewrite expired_row_expires, Hnow, expires_after_stale. eauto.
Qed.

(** What one sweep does. *)
Lemma sweep_run w :
  db_ok w.(w_db) → w.(w_db).(db_faults) = [] → (3 * interval svc <= max_int64)%Z →
  ∃ w', sweep svc w = (Ok (), w') ∧
    (∀ id, w'.(w_db).(db_servers) !! id = swept (w_now w) (interval svc) <$> w.(w_db).(db_servers) !! id) ∧
    (svc.(svc_capabilityIndex) = true → ∀ name r,
       r ∈ LookupTool w'.(w_index) name ↔
       r ∈ LookupTool w.(w_index) name ∧
       ¬ ∃ row, w.(w_db).(db_servers) !! r.(ID) = Some row ∧
           expires (w_now w) (interval svc) row = true).
Proof.
  intros Hok Hf Hmax. pose proof interval_pos as Hpos. set (ttl := interval svc) in *.
  destruct (sweepStale_run w ttl Hok Hf Hpos) as (w1 & E1 & Q1).
  assert (Hrows1 : rows_of w.(w_db).(db_servers) (stale_rows ttl w.(w_db))) by by apply select_rows_of.
  assert (Hok1 : db_ok w1.(w_db)) by (eapply db_ok_quiet; [exact Q1|]; by apply db_ok_mark_all).
  assert (Hnow : w1.(w_db).(db_now) = w.(w_db).(db_now)) by apply (q_now _ _ Q1).
  destruct (sweepExpired_run w1 (3 * ttl)) as (w2 & E2 & Q2); [done|by apply (q_faults _ _ Q1)|lia|].
  assert (Hl1 : ∀ id, w1.(w_db).(db_servers) !! id =
    after_stale (w_now w) ttl <$> w.(w_db).(db_servers) !! id).
  { intros id. rewrite (q_servers _ _ Q1). simpl. rewrite lookup_mark_all by done.
    destruct (w.(w_db).(db_servers) !! id) as [r|] eqn:Hr; [|done]. simpl. f_equal.
    apply decide_elem. by apply (elem_of_stale_rows _ _ id). }
  exists w2. split_and!.
  - unfold sweep. rewrite (bind_ok _ _ _ _ _ E1). fold ttl.
    rewrite wrap_i64_id by (unfold int64_range, min_int64, max_int64 in *; lia). exact E2.
  - intros id. rewrite (q_servers _ _ Q2). simpl. rewrite lookup_mark_all by by apply select_rows_of.
    rewrite Hl1. destruct (w.(w_db).(db_servers) !! id) as [r|] eqn:Hr; [|done]. simpl. f_equal.
    rewrite <- swept_two_passes. fold (after_stale (w_now w) ttl r).
    replace (w_now w1) with (w_now w) by done. apply decide_elem. rewrite elem_of_select.
    rewrite expired_row_expires, Hnow. split; [by intros [? _]|]. intros He. split; [done|].
    exists id. by rewrite Hl1, Hr.
  - intros Hix name r. rewrite (q_index _ _ Q2). simpl. unfold remove_all. rewrite Hix.
    rewrite elem_of_remove_all, (q_index _ _ Q1).
    + simpl. by rewrite (expired_after_stale _ _ _ Hok1 Hnow Hl1).
    + apply Forall_forall. intros x (_ & id & Hx)%elem_of_select.
      destruct (ok_key _ Hok1 _ _ Hx) as [-> Hu]. destruct (uuid_in_nonblank _ _ Hu). congruence.
Qed.


(** A sweep removes exactly the expired servers from the index. A server it
    marks stale is no longer routable by its status, but stays in the index of
    this pod: tool lookups go on returning it until it expires. *)
Theorem sweep_stale_stays_routed w name r row :
  db_ok w.(w_db) → w.(w_db).(db_faults) = [] → (3 * interval svc <= max_int64)%Z →
  svc.(svc_capabilityIndex) = true → r ∈ LookupTool w.(w_index) name →
  w.(w_db).(db_servers) !! r.(ID) = Some row →
  goes_stale (w_now w) (interval svc) row = true → expires (w_now w) (interval svc) row = false →
  ∃ w' row', sweep svc w = (Ok (), w') ∧ w'.(w_db).(db_servers) !! r.(ID) = Some row' ∧
    IsRoutable row'.(Status) = false ∧ r ∈ LookupTool w'.(w_index) name.
Proof.
  intros Hok Hf Hm Hix Hin Hrow Hst Hex.
  destruct (sweep_run w Hok Hf Hm) as (w' & E & Ht & Hi).
  exists w', (swept (w_now w) (interval svc) row). split_and!; [done|by rewrite Ht, Hrow|..].
  - unfold swept. by rewrite Hex, Hst.
  - apply Hi; [done|]. split; [done|]. intros (row' & Hrow' & He). congruence.
Qed.

End sweep.
