(* ===== verification/RegWitness.v ===== *)
(** * Concrete runs of the registration service

    The properties of the previous files applied to runs of the example
    service, evaluated by the kernel; and two properties of its helpers. *)

From S2P Require Import Prelude GoStrings Encoding GoNet Types Spiffe RegTypes Store Json.
From S2P Require Import Classification Lifecycle CapIndex Registration RegInvariant RegProps.
From S2P Require Import RegLiveness RegSweep.

#[local] Open Scope string_scope.
#[local] Open Scope list_scope.
#[local] Open Scope nat_scope.

(** ** Ids and hashes *)

Lemma forall_bytes (P : ascii → Prop) `{!∀ a, Decision (P a)} :
  Forall (λ n, P (ascii_of_nat n)) (seq 0 256) → ∀ a, P a.
Proof.
  rewrite Forall_forall. intros Hall a. rewrite <- (ascii_nat_embedding a). apply Hall, elem_of_seq.
  pose proof (nat_ascii_bounded a). lia.
Qed.

(** The ids the service draws are version 4 UUIDs: thirty-six characters,
    dashes at the four standard places, version digit 4 and variant digit 8, 9,
    a or b, whatever the sixteen random bytes. *)
Theorem new_uuid_format b :
  length b = 16 →
  let s := to_bytes (format_uuid (uuid_bytes b)) in
  length s = 36 ∧
  Forall (λ i, s !! i = Some "-"%char) [8; 13; 18; 23] ∧
  s !! 14 = Some "4"%char ∧
  ∃ v, s !! 19 = Some v ∧ v ∈ to_bytes "89ab".
Proof.
  intros Hb. do 16 (destruct b as [|? b]; [discriminate Hb|]). destruct b; [|discriminate Hb].
  cbv zeta. unfold format_uuid. rewrite to_of_bytes. simpl.
  split; [done|]. split; [by repeat constructor|]. split.
  - f_equal. apply (forall_bytes (λ a, hex_digit (N.shiftr (code (ascii_of_N
      (N.lor (N.land (code a) 15) 64))) 4) = "4"%char)). by_evaluation.
  - eexists. split; [done|].
    apply (forall_bytes (λ a, hex_digit (N.shiftr (code (ascii_of_N
      (N.lor (N.land (code a) 63) 128))) 4) ∈ to_bytes "89ab")). by_evaluation.
Qed.

Lemma new_uuid_format_witness :
  to_bytes (format_uuid (uuid_bytes (replicate 16 "x"%char))) !! 14 = Some "4"%char.
Proof. exact (proj1 (proj2 (proj2 (new_uuid_format (replicate 16 "x"%char) eq_refl)))). Defined.

(** The capability hash does not depend on the order in which a server
    lists its tools, resources and prompts, so reordering them is not seen as a
    change of capabilities. *)
Theorem hash_order_insensitive c c' :
  c.(Tools) ≡ₚ c'.(Tools) → c.(Resources) ≡ₚ c'.(Resources) → c.(Prompts) ≡ₚ c'.(Prompts) →
  hashCapabilities c = hashCapabilities c'.
Proof.
  intros Ht Hr Hp. unfold hashCapabilities, capability_payload.
  by rewrite (sort_strings_ext _ _ Ht), (sort_strings_ext _ _ Hr), (sort_strings_ext _ _ Hp).
Qed.

Lemma hash_order_insensitive_witness :
  hashCapabilities (mkCapability ["a"; "b"] [] []) = hashCapabilities (mkCapability ["b"; "a"] [] []).
Proof. apply hash_order_insensitive; [by_evaluation|done|done]. Defined.

(** ** Runs *)

Section runs.
#[local] Existing Instance ascii_tables.
#[local] Existing Instance example_pg.
#[local] Existing Instance example_entropy.

Definition alice : Identity := example_caller "a".
Definition req_a : RegistrationRequest := example_request "10.0.0.1".
Definition w0 : World := start (100 * second).

Lemma w0_ok : db_ok w0.(w_db).
Proof. apply start_ok. Qed.

Lemma calls_ok cs : db_ok (foldl (call example_service) w0 cs).(w_db).
Proof.
  exact (proj1 (both_calls example_service _ _ (closed_db_ok example_service) cs w0 (start_ok _))).
Qed.

Lemma alice_authorized w :
  Forall (λ p, p = "spiffe://td/") w.(w_spiffeAllowList) → authorized w alice req_a.
Proof.
  intros Hall. split; [done|]. split; [apply Validate_ok; by vm_compute|].
  apply ValidateSPIFFEID_ok. split; [by vm_compute|].
  destruct Hall as [|p l -> _]; [by left|]. right. exists "spiffe://td/". split; [|split; by vm_compute].
  unfold copyStringSlice. apply list_elem_of_filter. split; [by vm_compute|]. left.
Qed.

(** A registered server, its row written out, and the world with that row. *)
Definition row_a : ServerRecord :=
  mkServerRecord "d0" "files" "spiffe://td/ns/a" "1.0.0" "10.0.0.1" 8080 "http"
    (mkCapability ["read_file"] [] []) StatusActive "default" None 1 "cafe" SyncStateUnacked "" None
    None None "round_robin" (100 * second) (100 * second).

Definition once : World :=
  set_db (set_servers (<["d0" := row_a]> w0.(w_db).(db_servers)) (set_next 1 w0.(w_db))) w0.

Lemma once_ok : db_ok once.(w_db).
Proof. apply (db_ok_insert w0.(w_db) row_a w0_ok); by vm_compute. Qed.


Lemma register_effects_authorized_witness :
  ∃ c, Some alice = Some c ∧ authorized w0 c req_a.
Proof. apply (register_effects_authorized example_service). left. by vm_compute. Defined.

Lemma first_registration_id_lost_witness :
  ∃ resp w', IndexedRegister example_service (Some alice) req_a w0 = (inr resp, w') ∧
    resp.(rr_InstanceID) = "00000000-0000-4000-8000-000000000000" ∧
    w'.(w_index) = w0.(w_index).
Proof.
  destruct (first_registration_id_lost example_service alice req_a w0 (mkHeartbeatRequest "" "" 0 "")
    w0_ok eq_refl (alice_authorized w0 (Forall_nil_2 _)))
    as (resp & w' & E & Hid & _ & Hi & _); try by vm_compute.
  exists resp, w'. split; [exact E|]. split; [rewrite Hid; by vm_compute|exact Hi].
Defined.

Lemma reaches_a : reaches once alice "D0" "d0" row_a.
Proof. split; by vm_compute. Qed.

(** The row marked stale by hand, and a heartbeat that reports another hash. *)
Definition stale_a : ServerRecord := set_last_heartbeat (Some 1%Z) (set_status StatusStale row_a).
Definition once_stale : World := with_servers {["d0" := stale_a]} once.

Lemma once_stale_ok : db_ok once_stale.(w_db).
Proof.
  replace (w_db once_stale) with
    (set_servers (<["d0" := stale_a]> once.(w_db).(db_servers)) once.(w_db)) by by vm_compute.
  apply (db_ok_replace _ _ row_a); [apply once_ok|by vm_compute..|].
  intros j s Hj Hs. apply (ok_spiffe _ once_ok j "d0" s row_a Hj); [by vm_compute|]. by rewrite Hs.
Qed.

Lemma reaches_stale : reaches once_stale alice "d0" "d0" stale_a.
Proof. split; by vm_compute. Qed.

(** A stale server is revived and its change of status announced; an old lease
    is turned away; and a new hash is refreshed from the backend. *)
Lemma heartbeat_correct_witness :
  Heartbeat example_service (Some alice) "D0" (mkHeartbeatRequest "" "" 7 "") once =
    (inr (reregister_response example_service once row_a), once) ∧
  (∃ resp w', Heartbeat example_service (Some alice) "d0" (mkHeartbeatRequest "" "" 1 "cafe") once_stale
       = (inr resp, w') ∧ resp.(hr_Action) = HeartbeatActionNone ∧
     w'.(w_db).(db_servers) = {["d0" := beaten (100 * second) stale_a]} ∧
     w'.(w_events) = [ServerHealthChanged "d0" "files" StatusStale StatusActive]) ∧
  (∃ resp w', Heartbeat example_service (Some alice) "d0" (mkHeartbeatRequest "" "" 1 "new") once_stale
       = (inr resp, w') ∧ resp.(hr_CapabilityHash) = "new" ∧
     (Status <$> w'.(w_db).(db_servers) !! "d0") = Some StatusStale).
Proof.
  split; [|split].
  - apply (proj1 (heartbeat_correct example_service once alice "D0" "d0" row_a
      (mkHeartbeatRequest "" "" 7 "") reaches_a)). left. by vm_compute.
  - eexists _, _. split; [|split; [|split]].
    + apply (proj1 (proj2 (proj2 (heartbeat_correct example_service once_stale alice "d0" "d0" stale_a
        (mkHeartbeatRequest "" "" 1 "cafe") reaches_stale)))); [|by_evaluation|done].
      intros [[_ Hl]|[Hr _]]; [by apply Hl|by apply Hr].
    + by vm_compute.
    + by vm_compute.
    + by vm_compute.
  - eexists _, _. split; [|split].
    + apply (proj2 (proj2 (proj2 (heartbeat_correct example_service once_stale alice "d0" "d0" stale_a
        (mkHeartbeatRequest "" "" 1 "new") reaches_stale)))) with
        (lister := λ r, inr r.(Capabilities).(Tools)) (toolNames := ["read_file"]);
        [|by_evaluation|by vm_compute|done|done|done|apply once_stale_ok|by vm_compute].
      intros [[_ Hl]|[Hr _]]; [by apply Hl|by apply Hr].
    + by vm_compute.
    + by vm_compute.
Defined.

Lemma heartbeat_refresh_reverts_witness :
  ∃ resp w' row', Heartbeat example_service (Some alice) "d0" (mkHeartbeatRequest "" "" 0 "new") once_stale
      = (inr resp, w') ∧
    resp.(hr_ServerStatus) = StatusActive ∧
    w'.(w_db).(db_servers) !! "d0" = Some row' ∧ row'.(Status) = StatusStale.
Proof.
  destruct (heartbeat_refresh_reverts example_service once_stale alice "d0" "d0" stale_a
    (mkHeartbeatRequest "" "" 0 "new") (λ r, inr r.(Capabilities).(Tools)) ["read_file"]
    reaches_stale once_stale_ok)
    as (resp & w' & row' & E & Hs & Hl & Hst & _); [by vm_compute| |
    by_evaluation|by vm_compute|by vm_compute|reflexivity|reflexivity|reflexivity|].
  { intros [[Hl _]|[Hr _]]; [vm_compute in Hl; discriminate Hl|by apply Hr]. }
  exists resp, w', row'. exact (conj E (conj Hs (conj Hl Hst))).
Defined.


(** Another backend, as the middleware authenticates it. *)
Definition carol : Identity :=
  mkIdentity IdentityMTLS "spiffe://td/other" [ScopeAdmin] {["auth_method" := "mtls"]}.

Lemma mtls_caller_deregisters_any_witness :
  ∃ w', Deregister example_service (Some carol) "d0" once = (inr (), w') ∧
    w'.(w_db).(db_servers) !! "d0" = None.
Proof.
  apply (mtls_caller_deregisters_any example_service []
    (Some [[[Some (mkCertURI "spiffe" "spiffe://td/other")]]]) carol once "d0" "d0" row_a).
  - by vm_compute.
  - by vm_compute.
  - by vm_compute.
  - by vm_compute.
  - by vm_compute.
Defined.

Definition once_indexed : World := set_index (Add row_a once.(w_index)) once.

Lemma deregister_alias_keeps_index_witness :
  ∃ w', IndexedDeregister example_service (Some alice) "D0" once_indexed = (inr (), w') ∧
    w'.(w_db).(db_servers) !! "d0" = None ∧ row_a ∈ LookupTool w'.(w_index) "read_file".
Proof.
  apply (deregister_alias_keeps_index example_service once_indexed alice "D0" "d0" row_a).
  - by vm_compute.
  - by vm_compute.
  - by vm_compute.
  - by vm_compute.
  - left. by vm_compute.
  - discriminate.
  - by_evaluation.
  - by vm_compute.
Defined.

Lemma ack_correct_witness :
  AcknowledgeServerRegistration "d0" 7 "" "v1" 5 once = (inl (Wrap "ack registration" ErrNotFound), once).
Proof.
  refine (proj2 (ack_correct once "d0" 7 "" "v1" 5 "d0" _ _ _ _ _) _); [by vm_compute..|].
  intros row (_ & Hr & Hl & _). replace (db_servers (w_db once) !! "d0") with (Some row_a) in Hr by by vm_compute.
  injection Hr as <-. vm_compute in Hl. discriminate Hl.
Defined.

(** An active row whose heartbeat is older than the interval. *)
Definition late_a : ServerRecord := set_last_heartbeat (Some (60 * second))%Z row_a.
Definition once_late : World :=
  set_index (Add late_a once.(w_index)) (with_servers {["d0" := late_a]} once).

Lemma once_late_ok : db_ok once_late.(w_db).
Proof.
  replace (w_db once_late) with
    (set_servers (<["d0" := late_a]> once.(w_db).(db_servers)) once.(w_db)) by by vm_compute.
  apply (db_ok_replace _ _ row_a); [apply once_ok|by vm_compute..|].
  intros j s Hj Hs. apply (ok_spiffe _ once_ok j "d0" s row_a Hj); [by vm_compute|]. by rewrite Hs.
Qed.




Lemma sweep_stale_stays_routed_witness :
  ∃ w' row', sweep example_service once_late = (inr (), w') ∧
    w'.(w_db).(db_servers) !! late_a.(ID) = Some row' ∧ IsRoutable row'.(Status) = false ∧
    late_a ∈ LookupTool w'.(w_index) "read_file".
Proof.
  apply (sweep_stale_stays_routed example_service once_late "read_file" late_a late_a).
  - apply once_late_ok.
  - by vm_compute.
  - by vm_compute.
  - by vm_compute.
  - by_evaluation.
  - by vm_compute.
  - by vm_compute.
  - by vm_compute.
Defined.

End runs.
