(* ===== verification/RegHandlers.v ===== *)
(** * HTTP handlers of registration: [handler.go], [refresh_handler.go]

    A handler maps a request, already decoded, to a status code and the next
    world. The refresh endpoint has its own rate limit, kept per server id. *)

From S2P Require Import Prelude GoStrings Encoding GoNet Types Spiffe RegTypes Store Json.
From S2P Require Import Classification Lifecycle CapIndex Registration GoParse.

#[local] Open Scope string_scope.
#[local] Open Scope list_scope.
#[local] Open Scope nat_scope.

(** ** Errors as status codes *)

(** [writeServiceError]. *)
Definition writeServiceError (err : error) : Z :=
  if errors_is err ErrInvalidRequest then 400
  else if errors_is err ErrUnauthorized then 401
  else if errors_is err ErrForbidden then 403
  else if errors_is err ErrNotFound then 404
  else 500.

(** ** Query parameters of the list endpoint *)

Record ServerFilter := mkServerFilter {
  sf_Status : option ServerStatus;
  sf_NamePattern : string;
  sf_Limit : Z;
  sf_Offset : Z;
}.

(** The five known statuses. *)
Definition parse_status (s : string) : option ServerStatus :=
  if bool_decide (s = "pending") then Some StatusPending
  else if bool_decide (s = "approved") then Some StatusApproved
  else if bool_decide (s = "active") then Some StatusActive
  else if bool_decide (s = "stale") then Some StatusStale
  else if bool_decide (s = "expired") then Some StatusExpired
  else None.

Definition parse_count (value : string) : option Z :=
  if bool_decide (value = "") then Some 0%Z
  else match Atoi value with
       | Some n => if (n <? 0)%Z then None else Some n
       | None => None
       end.

(** [parseServerFilter]; [query] is [query.Get]. *)
Definition parseServerFilter (query : string → string) : result ServerFilter :=
  let name := TrimSpace (query "name") in
  let statusValue := TrimSpace (query "status") in
  let limitValue := TrimSpace (query "limit") in
  let offsetValue := TrimSpace (query "offset") in
  let status :=
    if bool_decide (statusValue = "") then Some None
    else match parse_status statusValue with Some s => Some (Some s) | None => None end in
  match status with
  | None => Err (Opaque "invalid status filter")
  | Some status =>
      match parse_count limitValue with
      | None => Err (Opaque "invalid limit")
      | Some limit =>
          match parse_count offsetValue with
          | None => Err (Opaque "invalid offset")
          | Some offset => Ok (mkServerFilter status name limit offset)
          end
      end
  end.

(** ** The refresh rate limit *)

Definition refreshRateLimit : Z := 10.
Definition refreshRateWindow : Z := minute.

Record rateBucket := mkRateBucket { rb_count : Z; rb_windowEnd : Z }.

(** [allowRequest] at time [now]. *)
Definition allowRequest (now : Z) (counters : gmap string rateBucket) (serverID : string) :
    bool * gmap string rateBucket :=
  match counters !! serverID with
  | None => (true, <[serverID := mkRateBucket 1 (now + refreshRateWindow)]> counters)
  | Some bucket =>
      if (bucket.(rb_windowEnd) <? now)%Z then
        (true, <[serverID := mkRateBucket 1 (now + refreshRateWindow)]> counters)
      else if (refreshRateLimit <=? bucket.(rb_count))%Z then (false, counters)
      else (true, <[serverID := mkRateBucket (bucket.(rb_count) + 1) bucket.(rb_windowEnd)]> counters)
  end.

Section handlers.
Context `{UnicodeTables} `{Postgres} `{Entropy}.
Context (svc : Service).

(** [handleRegister]; [body] is [None] when it does not decode, [caller] when
    the context carries no identity. *)
Definition handleRegister (body : option RegistrationRequest) (caller : option Identity) (w : World) :
    Z * World :=
  match body with
  | None => (400%Z, w)
  | Some req =>
      match caller with
      | None => (401%Z, w)
      | Some caller =>
          match IndexedRegister svc (Some caller) req w with
          | (Ok _, w') => (201%Z, w')
          | (Err err, w') => (writeServiceError err, w')
          end
      end
  end.

(** [handleHeartbeat]; an empty body is an empty request. *)
Definition handleHeartbeat (param : string) (caller : option Identity) (body : option HeartbeatRequest)
    (w : World) : Z * World :=
  let id := TrimSpace param in
  if bool_decide (id = "") then (400%Z, w)
  else
    match caller with
    | None => (401%Z, w)
    | Some caller =>
        match body with
        | None => (400%Z, w)
        | Some req =>
            match IndexedHeartbeat svc (Some caller) id req w with
            | (Ok _, w') => (200%Z, w')
            | (Err err, w') => (writeServiceError err, w')
            end
        end
    end.

(** [handleDeregister]. *)
Definition handleDeregister (param : string) (caller : option Identity) (w : World) : Z * World :=
  let id := TrimSpace param in
  if bool_decide (id = "") then (400%Z, w)
  else
    match caller with
    | None => (401%Z, w)
    | Some caller =>
        match IndexedDeregister svc (Some caller) id w with
        | (Ok _, w') => (204%Z, w')
        | (Err err, w') => (writeServiceError err, w')
        end
    end.

(** [RefreshHandler.ServeHTTP]. *)
Definition RefreshServeHTTP (param : string) (caller : option Identity)
    (counters : gmap string rateBucket) (w : World) : Z * gmap string rateBucket * World :=
  let id := TrimSpace param in
  if bool_decide (id = "") then (400%Z, counters, w)
  else
    match caller with
    | None => (401%Z, counters, w)
    | Some caller =>
        match on_db (Get id) w with
        | (Err _, w) => (404%Z, counters, w)
        | (Ok record, w) =>
            if negb (bool_decide (caller.(id_ID) = record.(SPIFFEID))) then (403%Z, counters, w)
            else
              let '(ok, counters) := allowRequest (w_now w) counters id in
              if negb ok then (429%Z, counters, w)
              else
                match ServiceRefreshCapabilities svc id w with
                | (Err _, w') => (500%Z, counters, w')
                | (Ok _, w') => (200%Z, counters, w')
                end
        end
    end.

End handlers.

(** ** Properties of the rate limit *)

(** The requests for one server at the given times: how many are allowed. *)
Fixpoint allowed_count (counters : gmap string rateBucket) (id : string) (times : list Z) : Z :=
  match times with
  | [] => 0
  | t :: ts =>
      let '(ok, counters) := allowRequest t counters id in
      (if (ok : bool) then 1 else 0) + allowed_count counters id ts
  end%Z.

(** Buckets hold counts from one to the limit. *)
Definition buckets_ok (counters : gmap string rateBucket) : Prop :=
  ∀ id b, counters !! id = Some b → (1 <= b.(rb_count) <= refreshRateLimit)%Z.

Lemma buckets_ok_insert counters id b :
  buckets_ok counters → (1 <= b.(rb_count) <= refreshRateLimit)%Z →
  buckets_ok (<[id := b]> counters).
Proof. intros Hok Hb j c [[<- <-]|[_ ?]]%lookup_insert_Some; eauto. Qed.

Lemma allowRequest_ok now counters id :
  buckets_ok counters → buckets_ok (allowRequest now counters id).2.
Proof.
  intros Hok. unfold allowRequest. destruct (counters !! id) as [b|] eqn:E.
  - pose proof (Hok id b E). destruct (_ <? _)%Z; [|destruct (Z.leb_spec refreshRateLimit b.(rb_count))];
      cbn [snd]; [|done|]; apply buckets_ok_insert; simpl; unfold refreshRateLimit in *; auto; lia.
  - apply buckets_ok_insert; simpl; unfold refreshRateLimit; auto; lia.
Qed.

(** Inside a window only what is left of it is allowed. *)
Lemma allowed_in_window counters id b times bound :
  counters !! id = Some b → buckets_ok counters → (bound <= b.(rb_windowEnd))%Z →
  Forall (λ t, (t <= bound)%Z) times →
  (allowed_count counters id times <= refreshRateLimit - b.(rb_count))%Z.
Proof.
  revert counters b. induction times as [|t ts IH]; intros counters b Hb Hok Hend Hts; simpl.
  { pose proof (Hok _ _ Hb). lia. }
  apply Forall_cons in Hts as [Ht Hts]. pose proof (allowRequest_ok t counters id Hok) as Hok'.
  unfold allowRequest in *. rewrite Hb in *. destruct (Z.ltb_spec b.(rb_windowEnd) t); [lia|].
  destruct (Z.leb_spec refreshRateLimit b.(rb_count)); cbn [snd] in *.
  - specialize (IH counters b Hb Hok Hend Hts). lia.
  - specialize (IH _ (mkRateBucket (b.(rb_count) + 1) b.(rb_windowEnd))
      ltac:(apply lookup_insert_eq) Hok' Hend Hts). simpl in IH. lia.
Qed.

(** A request that opens a window: it and those after it, up to the end of
    that window, are at most the limit. *)
Lemma allowed_new_window counters id t times :
  buckets_ok counters → Forall (λ u, (u <= t + refreshRateWindow)%Z) times →
  (1 + allowed_count (<[id := mkRateBucket 1 (t + refreshRateWindow)]> counters) id times
     <= refreshRateLimit)%Z.
Proof.
  intros Hok Hts.
  pose proof (allowed_in_window _ id (mkRateBucket 1 (t + refreshRateWindow)) times
    (t + refreshRateWindow) ltac:(apply lookup_insert_eq)
    ltac:(apply buckets_ok_insert; [done|simpl; unfold refreshRateLimit; lia])
    ltac:(simpl; lia) Hts) as Hle. simpl in Hle. lia.
Qed.

(** What is left of the window in progress. *)
Definition window_left (counters : gmap string rateBucket) (id : string) : Z :=
  match counters !! id with Some b => refreshRateLimit - b.(rb_count) | None => 0 end.

Lemma allowed_in_period counters id start times :
  buckets_ok counters → Forall (λ t, (start <= t <= start + refreshRateWindow)%Z) times →
  (allowed_count counters id times <= window_left counters id + refreshRateLimit)%Z.
Proof.
  unfold window_left. revert counters. induction times as [|t ts IH]; intros counters Hok Hts; simpl.
  { destruct (counters !! id) as [b|] eqn:E; [pose proof (Hok _ _ E)|]; unfold refreshRateLimit in *; lia. }
  apply Forall_cons in Hts as [Ht Hts]. pose proof (allowRequest_ok t counters id Hok) as Hok'.
  assert (Hle : Forall (λ u, (u <= t + refreshRateWindow)%Z) ts)
    by (eapply Forall_impl; [exact Hts|simpl; lia]).
  pose proof (allowed_new_window counters id t ts Hok Hle) as Hnew.
  unfold allowRequest in *. destruct (counters !! id) as [b|] eqn:E; [|lia].
  pose proof (Hok _ _ E). destruct (_ <? _)%Z; [lia|].
  destruct (Z.leb_spec refreshRateLimit b.(rb_count)); cbn [snd] in *.
  - specialize (IH _ Hok Hts). rewrite E in IH. lia.
  - specialize (IH _ Hok' Hts). rewrite lookup_insert_eq in IH. simpl in IH. lia.
Qed.

(** However requests are timed, in any period as long as the window at most
    nineteen refresh requests of a server are allowed: what is left of a window
    in progress, and one new window. *)
Theorem refresh_rate_bound counters id start times :
  buckets_ok counters → Forall (λ t, (start <= t <= start + refreshRateWindow)%Z) times →
  (allowed_count counters id times <= 19)%Z.
Proof.
  intros Hok Hts. pose proof (allowed_in_period counters id start times Hok Hts) as Hle.
  unfold window_left in Hle. destruct (counters !! id) as [b|] eqn:E; [pose proof (Hok _ _ E)|];
    unfold refreshRateLimit in *; lia.
Qed.

(** The bound is reached: one request opens a window, nine come at its end and
    ten more an instant after it. *)
Lemma refresh_rate_bound_witness :
  let counters := (allowRequest 0 ∅ "a").2 in
  let times := replicate 9 refreshRateWindow ++ replicate 12 (refreshRateWindow + 1)%Z in
  allowed_count counters "a" times = 19%Z ∧ (allowed_count counters "a" times <= 19)%Z.
Proof.
  split; [vm_compute; reflexivity|].
  apply (refresh_rate_bound _ "a" refreshRateWindow).
  - apply allowRequest_ok. intros j b Hb. rewrite lookup_empty in Hb. discriminate.
  - apply Forall_app; split; apply Forall_replicate; vm_compute; split; discriminate.
Defined.
