(* ===== verification/Resilience.v ===== *)
(** * Calls to backends: [internal/resilience]

    The circuit breaker ([circuit.go]), the retry loop ([retry.go]), the
    registry of breakers ([registry.go]), the pool options ([pool.go]) and the
    client that composes them ([client.go]). The code under protection is any
    call on a state [S]; the clock, the context and the source of jitter are
    what the class [Env] gives for that state. *)

From stdpp Require Import pretty.
From S2P Require Import Prelude GoStrings GoFloat.

#[local] Open Scope string_scope.
#[local] Open Scope list_scope.
#[local] Open Scope nat_scope.
#[local] Open Scope go_scope.

(** The runtime a call runs in: [time.Now()], [ctx.Err()], a sleep that ends
    with [ctx.Err()] if the context is done before the timer fires, and
    [rand.Int(rand.Reader, 10001)], [None] when the reader fails. *)
Class Env (S : Type) := {
  clock : S → Z;
  ctx_err : S → option error;
  sleep : Z → S → option error * S;
  rand_10001 : S → option Z * S;
}.

(** Another component beside the state does not change its runtime. *)
#[export] Instance beside_env {S T} `{Env S} : Env (T * S) := {|
  clock p := clock p.2;
  ctx_err p := ctx_err p.2;
  sleep d p := let '(e, s) := sleep d p.2 in (e, (p.1, s));
  rand_10001 p := let '(n, s) := rand_10001 p.2 in (n, (p.1, s));
|}.

(** ** The circuit breaker *)

Definition ErrCircuitOpen : error := Sentinel "circuit breaker open".

Inductive CircuitState := StateClosed | StateOpen | StateHalfOpen.

#[export] Instance CircuitState_eq_dec : EqDecision CircuitState.
Proof. solve_decision. Defined.

(** [cb_gauge] is the state last given to [SetCircuitBreakerState]. *)
Record CircuitBreaker := mkCircuitBreaker {
  cb_name : string;
  cb_state : CircuitState;
  cb_failures : Z;
  cb_threshold : Z;
  cb_timeout : Z;
  cb_lastFailure : Z;
  cb_gauge : CircuitState;
}.

(** Sets the state, the counter and the time of the last failure, and
    publishes the state. *)
Definition enter (state : CircuitState) (failures lastFailure : Z) (cb : CircuitBreaker) : CircuitBreaker :=
  mkCircuitBreaker cb.(cb_name) state failures cb.(cb_threshold) cb.(cb_timeout) lastFailure state.

Definition set_failures (n : Z) (cb : CircuitBreaker) : CircuitBreaker :=
  mkCircuitBreaker cb.(cb_name) cb.(cb_state) n cb.(cb_threshold) cb.(cb_timeout)
    cb.(cb_lastFailure) cb.(cb_gauge).

(** [NewCircuitBreaker]. *)
Definition NewCircuitBreaker (name : string) (threshold timeout : Z) : CircuitBreaker :=
  mkCircuitBreaker name StateClosed 0
    (if (threshold <=? 0)%Z then 1 else threshold)%Z
    (if (timeout <=? 0)%Z then second else timeout)%Z
    zero_time StateClosed.

(** What [Execute] decides under the lock, before the function runs. *)
Inductive Admission := Rejected (err : error) | RunProbe | RunClosed.

Definition admission (now : Z) (cb : CircuitBreaker) : Admission * CircuitBreaker :=
  match cb.(cb_state) with
  | StateOpen =>
      if (time_sub now cb.(cb_lastFailure) <? cb.(cb_timeout))%Z then (Rejected ErrCircuitOpen, cb)
      else (RunProbe, enter StateHalfOpen cb.(cb_failures) cb.(cb_lastFailure) cb)
  | StateHalfOpen => (RunProbe, cb)
  | StateClosed => (RunClosed, cb)
  end.

(** The end of a probe, which ran with the lock held. *)
Definition probe_done (ok : bool) (now : Z) (cb : CircuitBreaker) : CircuitBreaker :=
  if ok then enter StateClosed 0 zero_time cb
  else enter StateOpen cb.(cb_threshold) now cb.

(** The end of a call of [executeClosed], which ran without the lock. *)
Definition closed_done (ok : bool) (now : Z) (cb : CircuitBreaker) : CircuitBreaker :=
  if ok then set_failures 0 cb
  else
    let failures := (cb.(cb_failures) + 1)%Z in
    if (cb.(cb_threshold) <=? failures)%Z then enter StateOpen failures now cb
    else set_failures failures cb.

(** [Reset]. *)
Definition Reset (cb : CircuitBreaker) : CircuitBreaker := enter StateClosed 0 zero_time cb.

Section execute.
Context {S : Type} `{Env S} {A : Type}.

(** [executeClosed]. *)
Definition executeClosed (fn : ST S A) : ST (CircuitBreaker * S) A := λ p,
  match ctx_err p.2 with
  | Some err => (Err err, p)
  | None =>
      let '(r, s) := fn p.2 in
      (r, (closed_done (is_ok r) (clock s) p.1, s))
  end.

(** [Execute], for one caller at a time. *)
Definition Execute (fn : ST S A) : ST (CircuitBreaker * S) A := λ p,
  let '(cb, s) := p in
  match admission (clock s) cb with
  | (Rejected err, cb) => (Err err, (cb, s))
  | (RunClosed, cb) => executeClosed fn (cb, s)
  | (RunProbe, cb) =>
      match ctx_err s with
      | Some err => (Err err, (cb, s))
      | None =>
          let '(r, s) := fn s in
          (r, (probe_done (is_ok r) (clock s) cb, s))
      end
  end.

End execute.

(** ** The registry of breakers *)

Abbreviation BreakerRegistry := (gmap string CircuitBreaker).

(** [GetOrCreate]: the breaker of a server, and the registry that has it. *)
Definition GetOrCreate (r : BreakerRegistry) (serverID : string) (threshold timeout : Z) :
    CircuitBreaker * BreakerRegistry :=
  match r !! serverID with
  | Some breaker => (breaker, r)
  | None =>
      let breaker := NewCircuitBreaker serverID threshold timeout in
      (breaker, <[serverID := breaker]> r)
  end.

(** [Remove] of [BreakerRegistry]. *)
Definition RemoveBreaker (r : BreakerRegistry) (serverID : string) : BreakerRegistry :=
  delete serverID r.

(** [ListOpen], in the order Go ranges over the map. *)
Definition ListOpen (order : list (string * CircuitBreaker)) : list string :=
  fst <$> filter (λ p, p.2.(cb_state) = StateOpen) order.

(** ** Retries *)

Record RetryConfig := mkRetryConfig {
  MaxAttempts : Z;
  InitialBackoff : Z;
  MaxBackoff : Z;
  BackoffMultiplier : spec_float;
  Jitter : bool;
}.

Definition defaultInitialBackoff : Z := 100 * millisecond.
Definition defaultMaxBackoff : Z := 2 * second.
Definition defaultBackoffMultiple : spec_float := f_of_Z 2.

(** [normalizeRetryConfig]. *)
Definition normalizeRetryConfig (cfg : RetryConfig) : RetryConfig :=
  mkRetryConfig
    (if (cfg.(MaxAttempts) <=? 0)%Z then 1 else cfg.(MaxAttempts))%Z
    (if (cfg.(InitialBackoff) <=? 0)%Z then defaultInitialBackoff else cfg.(InitialBackoff))
    (if (cfg.(MaxBackoff) <=? 0)%Z then defaultMaxBackoff else cfg.(MaxBackoff))
    (if SFltb cfg.(BackoffMultiplier) f_one then defaultBackoffMultiple else cfg.(BackoffMultiplier))
    cfg.(Jitter).

(** [DefaultRetryConfig]; [RetryMax] is that of the configuration, [None] when
    it does not load. *)
Definition DefaultRetryConfig (RetryMax : option Z) : RetryConfig :=
  let cfg := mkRetryConfig 3 defaultInitialBackoff defaultMaxBackoff defaultBackoffMultiple true in
  match RetryMax with
  | None => cfg
  | Some n =>
      normalizeRetryConfig (mkRetryConfig n defaultInitialBackoff defaultMaxBackoff
        defaultBackoffMultiple true)
  end.

(** [isRetryableStatus]. *)
Definition isRetryableStatus (statusCode : Z) : bool :=
  bool_decide (statusCode ∈ [408; 425; 429; 500; 502; 503; 504]%Z).

(** [context.Canceled] and [context.DeadlineExceeded]; the latter implements
    [net.Error]. *)
Definition Canceled : error := Sentinel "context canceled".
Definition DeadlineExceeded : error := Sentinel "context deadline exceeded".

(** The error numbers of Linux. *)
Definition EAGAIN : Z := 11.
Definition ENETUNREACH : Z := 101.
Definition ECONNRESET : Z := 104.
Definition ETIMEDOUT : Z := 110.
Definition ECONNREFUSED : Z := 111.
Definition EHOSTUNREACH : Z := 113.

(** [Timeout()] of an error that has it: a [*url.Error] asks the error it
    holds directly. *)
Fixpoint timeout_of (err : error) : option bool :=
  match err with
  | NetError t _ => Some t
  | URLError _ inner => Some (default false (timeout_of inner))
  | Errno n => Some (bool_decide (n = EAGAIN ∨ n = ETIMEDOUT))
  | Sentinel _ => if bool_decide (err = DeadlineExceeded) then Some true else None
  | _ => None
  end.

(** [errors.As] along the chain of wrapped errors. *)
Fixpoint errors_as {B} (view : error → option B) (err : error) : option B :=
  match view err with
  | Some b => Some b
  | None =>
      match err with
      | Wrap _ inner | URLError _ inner => errors_as view inner
      | _ => None
      end
  end.

Definition status_of (err : error) : option Z :=
  match err with StatusError code _ => Some code | _ => None end.

Definition url_timeout_of (err : error) : option bool :=
  match err with URLError _ _ => timeout_of err | _ => None end.

(** [IsRetryable], for an error that is not nil. *)
Definition IsRetryable (err : error) : bool :=
  if errors_is err Canceled || errors_is err DeadlineExceeded then false
  else if default false (errors_as timeout_of err) then true
  else
    match errors_as status_of err with
    | Some code => isRetryableStatus code
    | None =>
        if default false (errors_as url_timeout_of err) then true
        else errors_is err (Errno ECONNREFUSED) || errors_is err (Errno ECONNRESET)
             || errors_is err (Errno EHOSTUNREACH) || errors_is err (Errno ENETUNREACH)
    end.

(** [addJitter]; [n] is what the random source gave. *)
Definition addJitter (n : option Z) (base : Z) : Z :=
  if (base <=? 0)%Z then 0%Z
  else
    match n with
    | None => base
    | Some n =>
        let fraction := f_div (f_of_Z n) (f_of_Z 10000) in
        let factor := f_add (f_lit 3 (-2)) (f_mul f_half fraction) in
        f_to_i64 (f_mul (f_of_Z base) factor)
    end.

(** The delay before jitter. *)
Definition base_delay (cfg : RetryConfig) (attempt : Z) : Z :=
  let attempt := if (attempt <=? 0)%Z then 1%Z else attempt in
  let delay := f_mul (f_of_Z cfg.(InitialBackoff)) (f_pow cfg.(BackoffMultiplier) (attempt - 1)) in
  let max := f_of_Z cfg.(MaxBackoff) in
  f_to_i64 (if (0 <? cfg.(MaxBackoff))%Z && SFltb max delay then max else delay).

Section retry.
Context {S : Type} `{Env S}.

(** [calculateBackoff]. The random source is read only for a positive delay. *)
Definition calculateBackoff (cfg : RetryConfig) (attempt : Z) : S → Z * S := λ s,
  let out := base_delay cfg attempt in
  if cfg.(Jitter) then
    if (out <=? 0)%Z then (addJitter None out, s)
    else let '(n, s) := rand_10001 s in (addJitter n out, s)
  else (out, s).

(** [waitBackoff]. *)
Definition waitBackoff (cfg : RetryConfig) (attempt : Z) : ST S () := λ s,
  let '(delay, s) := calculateBackoff cfg attempt s in
  if (delay <=? 0)%Z then (Ok (), s)
  else
    match sleep delay s with
    | (Some err, s) => (Err (Wrap ("retry canceled after " +:+ pretty attempt +:+ " attempt(s)") err), s)
    | (None, s) => (Ok (), s)
    end.

(** The loop of [Retry], [n] attempts left and the next one [attempt]. *)
Fixpoint retry_loop {A} (cfg : RetryConfig) (fn : ST S A) (n : nat) (attempt : Z) : ST S A :=
  match n with
  | O => throw (Opaque "retry exhausted: no attempts executed")
  | Datatypes.S n' => λ s,
      match ctx_err s with
      | Some err => (Err (Wrap ("retry attempt " +:+ pretty attempt +:+ " canceled") err), s)
      | None =>
          match fn s with
          | (Ok x, s) => (Ok x, s)
          | (Err err, s) =>
              if negb (IsRetryable err) then
                (Err (Wrap ("retry aborted after " +:+ pretty attempt +:+ " attempt(s)") err), s)
              else if (attempt =? cfg.(MaxAttempts))%Z then
                (Err (Wrap ("retry failed after " +:+ pretty cfg.(MaxAttempts) +:+ " attempt(s)") err), s)
              else (waitBackoff cfg attempt ;; retry_loop cfg fn n' (attempt + 1)) s
          end
      end
  end.

(** [Retry]. *)
Definition Retry {A} (cfg : RetryConfig) (fn : ST S A) : ST S A :=
  let cfg := normalizeRetryConfig cfg in
  retry_loop cfg fn (Z.to_nat cfg.(MaxAttempts)) 1.

End retry.

(** ** The resilient client *)

Section client.
Context {S : Type} `{Env S} {A : Type}.

(** [ResilientClient.CallTool]; [backend] is the call of the backend, its
    result the variable [out] of the code. *)
Definition CallTool (retryCfg : RetryConfig) (backend : ST S A) (name : string) :
    ST (CircuitBreaker * S) A := λ p,
  match Retry (normalizeRetryConfig retryCfg) (Execute backend) p with
  | (Err err, p) => (Err (Wrap ("resilient call tool " +:+ name) err), p)
  | (Ok out, p) => (Ok out, p)
  end.

End client.

(** ** Pool options *)

Record PoolOptions := mkPoolOptions {
  MaxIdlePerHost : Z;
  IdleTimeout : Z;
  HandshakeTimeout : Z;
  ResponseTimeout : Z;
}.

Definition DefaultPoolOptions : PoolOptions :=
  mkPoolOptions 10 (90 * second) (10 * second) (30 * second).

(** [normalizePoolOptions]. *)
Definition normalizePoolOptions (opts : PoolOptions) : PoolOptions :=
  let pick v d := if (v <=? 0)%Z then d else v in
  mkPoolOptions
    (pick opts.(MaxIdlePerHost) DefaultPoolOptions.(MaxIdlePerHost))
    (pick opts.(IdleTimeout) DefaultPoolOptions.(IdleTimeout))
    (pick opts.(HandshakeTimeout) DefaultPoolOptions.(HandshakeTimeout))
    (pick opts.(ResponseTimeout) DefaultPoolOptions.(ResponseTimeout)).

(** ** Examples *)

Example backoff_doubles :
  base_delay (DefaultRetryConfig None) <$> [1; 2; 3; 4; 5; 6; 2000]%Z =
  [100 * millisecond; 200 * millisecond; 400 * millisecond; 800 * millisecond;
   1600 * millisecond; 2 * second; 2 * second]%Z.
Proof. by vm_compute. Qed.

Example jitter_range :
  (addJitter (Some 0%Z) second, addJitter (Some 10000%Z) second) =
  (750 * millisecond, 1250 * millisecond)%Z.
Proof. by vm_compute. Qed.

Example retryable_ex :
  IsRetryable <$> [Wrap "call tool" (URLError "Post" (Errno ECONNREFUSED)); StatusError 503 "";
    Wrap "x" DeadlineExceeded; ErrCircuitOpen; Opaque "backend call"; URLError "Post" (NetError true "")] =
  [true; true; false; false; false; true].
Proof. by vm_compute. Qed.
