(* ===== verification/ResilienceProps.v ===== *)
(** * Properties of retries and circuit breakers

    The breaker is treated twice: as it is used by one caller, through
    [Execute], and under any interleaving of concurrent callers, as a step
    relation in which each is at a point of the code and the mutex has a holder. *)

From S2P Require Import Prelude GoStrings GoFloat Resilience.

#[local] Open Scope string_scope.
#[local] Open Scope list_scope.
#[local] Open Scope nat_scope.

(** ** Concurrent callers

    The goroutines that use one breaker, at the granularity of its mutex: each
    is at a point of [Execute], [executeClosed] or [Reset], and takes its steps
    interleaved with the others in any way. A closed call gives the lock back
    before it runs, and takes it again to record its result; a probe keeps the
    lock. *)

Inductive caller_pc :=
| AtExecute                     (** before [cb.mu.Lock()] of [Execute] *)
| Deciding                      (** in the switch, with the lock *)
| ClosedAdmitted                (** in [executeClosed], before [ctx.Err()] *)
| ClosedRunning                 (** in [fn], without the lock *)
| ClosedReturned (ok : bool)    (** before [cb.mu.Lock()] of [executeClosed] *)
| ClosedRecording (ok : bool)   (** after it *)
| ProbeAdmitted                 (** after the switch, before [ctx.Err()], with the lock *)
| ProbeRunning                  (** in [fn], with the lock *)
| ProbeReturned (ok : bool)     (** after [fn], with the lock *)
| AtReset                       (** before [cb.mu.Lock()] of [Reset] *)
| Resetting.                    (** after it *)

(** The caller holds the mutex there. *)
Definition holds (pc : caller_pc) : bool :=
  match pc with
  | Deciding | ClosedRecording _ | ProbeAdmitted | ProbeRunning | ProbeReturned _ | Resetting => true
  | _ => false
  end.

Definition probing (pc : caller_pc) : bool :=
  match pc with ProbeAdmitted | ProbeRunning | ProbeReturned _ => true | _ => false end.

(** What a step does, as seen from outside. *)
Inductive Action :=
| ActLock | ActReject | ActAdmitClosed | ActAdmitProbe | ActCancelled | ActStart
| ActReturn (ok : bool) | ActRecord (ok : bool) | ActProbeEnd (ok : bool) | ActReset.

(** A step of one caller at time [t], on the shared breaker; without a next
    point, the call has returned. *)
Inductive caller_step (t : Z) (cb : CircuitBreaker) :
    caller_pc → Action → CircuitBreaker → option caller_pc → Prop :=
| c_lock : caller_step t cb AtExecute ActLock cb (Some Deciding)
| c_reject err cb' :
    admission t cb = (Rejected err, cb') → caller_step t cb Deciding ActReject cb' None
| c_admit_closed cb' :
    admission t cb = (RunClosed, cb') →
    caller_step t cb Deciding ActAdmitClosed cb' (Some ClosedAdmitted)
| c_admit_probe cb' :
    admission t cb = (RunProbe, cb') → caller_step t cb Deciding ActAdmitProbe cb' (Some ProbeAdmitted)
| c_closed_cancelled : caller_step t cb ClosedAdmitted ActCancelled cb None
| c_closed_start : caller_step t cb ClosedAdmitted ActStart cb (Some ClosedRunning)
| c_closed_return ok : caller_step t cb ClosedRunning (ActReturn ok) cb (Some (ClosedReturned ok))
| c_closed_lock ok : caller_step t cb (ClosedReturned ok) ActLock cb (Some (ClosedRecording ok))
| c_closed_record ok :
    caller_step t cb (ClosedRecording ok) (ActRecord ok) (closed_done ok t cb) None
| c_probe_cancelled : caller_step t cb ProbeAdmitted ActCancelled cb None
| c_probe_start : caller_step t cb ProbeAdmitted ActStart cb (Some ProbeRunning)
| c_probe_return ok : caller_step t cb ProbeRunning (ActReturn ok) cb (Some (ProbeReturned ok))
| c_probe_end ok : caller_step t cb (ProbeReturned ok) (ActProbeEnd ok) (probe_done ok t cb) None
| c_reset_lock : caller_step t cb AtReset ActLock cb (Some Resetting)
| c_reset : caller_step t cb Resetting ActReset (Reset cb) None.

Record BreakerConfig := mkBreakerConfig {
  bc_breaker : CircuitBreaker;
  bc_lock : option nat;
  bc_callers : gmap nat caller_pc;
  bc_now : Z;
}.

Record BreakerEvent := mkBreakerEvent { be_time : Z; be_caller : nat; be_action : option Action }.

Definition holds_opt (pc : option caller_pc) : bool := from_option holds false pc.

(** The holder of the mutex after caller [i] went from [pc] to [pc']. *)
Definition next_lock (i : nat) (pc : caller_pc) (pc' : option caller_pc) (lock : option nat) : option nat :=
  if holds_opt pc' then Some i else if holds pc then None else lock.

(** A step of the whole: a goroutine begins a call, or takes a step; the clock
    never goes back, and the mutex is only taken when it is free. *)
Inductive bstep (c : BreakerConfig) : BreakerEvent → BreakerConfig → Prop :=
| b_begin t i pc :
    (c.(bc_now) <= t)%Z → c.(bc_callers) !! i = None → pc = AtExecute ∨ pc = AtReset →
    bstep c (mkBreakerEvent t i None)
      (mkBreakerConfig c.(bc_breaker) c.(bc_lock) (<[i := pc]> c.(bc_callers)) t)
| b_step t i pc a cb' pc' :
    (c.(bc_now) <= t)%Z → c.(bc_callers) !! i = Some pc →
    caller_step t c.(bc_breaker) pc a cb' pc' →
    (holds_opt pc' = true → holds pc = true ∨ c.(bc_lock) = None) →
    bstep c (mkBreakerEvent t i (Some a))
      (mkBreakerConfig cb' (next_lock i pc pc' c.(bc_lock))
         (partial_alter (λ _, pc') i c.(bc_callers)) t).

Inductive bsteps : BreakerConfig → list BreakerEvent → BreakerConfig → Prop :=
| bs_nil c : bsteps c [] c
| bs_cons c ev c' evs c'' : bstep c ev c' → bsteps c' evs c'' → bsteps c (ev :: evs) c''.

(** A new breaker, nobody using it. *)
Definition breaker_start (name : string) (threshold timeout now : Z) : BreakerConfig :=
  mkBreakerConfig (NewCircuitBreaker name threshold timeout) None ∅ now.

(** A configuration some run reaches from a new breaker. *)
Definition breaker_reachable (c : BreakerConfig) : Prop :=
  ∃ name threshold timeout now evs, (zero_time <= now)%Z ∧
    bsteps (breaker_start name threshold timeout now) evs c.

(** The invariant of a breaker at time [now]. *)
Record breaker_ok (now : Z) (cb : CircuitBreaker) : Prop := {
  bo_threshold : (1 <= cb.(cb_threshold))%Z;
  bo_timeout : (0 < cb.(cb_timeout))%Z;
  bo_last : (cb.(cb_lastFailure) <= now)%Z;
  bo_nonneg : (0 <= cb.(cb_failures))%Z;
  bo_closed : cb.(cb_state) = StateClosed → (cb.(cb_failures) < cb.(cb_threshold))%Z;
  bo_gauge : cb.(cb_gauge) = cb.(cb_state);
}.

Lemma breaker_ok_new name threshold timeout now :
  (zero_time <= now)%Z → breaker_ok now (NewCircuitBreaker name threshold timeout).
Proof.
  intros Hz. unfold NewCircuitBreaker. split; simpl; try done; destruct (_ <=? _)%Z eqn:?;
    reflect_bools; unfold second; lia.
Qed.

Lemma breaker_ok_later now now' cb : (now <= now')%Z → breaker_ok now cb → breaker_ok now' cb.
Proof. intros Hle []. split; try done. lia. Qed.

Lemma admission_ok now cb a cb' :
  admission now cb = (a, cb') → breaker_ok now cb → breaker_ok now cb'.
Proof.
  unfold admission. intros E [H1 H2 H3 H4 H5 H6].
  destruct (cb_state cb) eqn:?; [|destruct (_ <? _)%Z|]; simplify_eq; split; simpl;
    intros; try done; try congruence; by apply H5.
Qed.

Lemma probe_done_ok ok now cb :
  (zero_time <= now)%Z → breaker_ok now cb → breaker_ok now (probe_done ok now cb).
Proof. intros Hz []. destruct ok; split; simpl; try done; lia. Qed.

Lemma closed_done_ok ok now cb :
  (zero_time <= now)%Z → breaker_ok now cb → breaker_ok now (closed_done ok now cb).
Proof.
  intros Hz []. unfold closed_done. destruct ok; [|destruct (_ <=? _)%Z eqn:?]; reflect_bools;
    split; simpl; try done; lia.
Qed.

Lemma Reset_ok now cb : (zero_time <= now)%Z → breaker_ok now cb → breaker_ok now (Reset cb).
Proof. intros Hz []. split; simpl; try done; lia. Qed.

Lemma caller_step_ok t cb pc a cb' pc' :
  caller_step t cb pc a cb' pc' → (zero_time <= t)%Z → breaker_ok t cb → breaker_ok t cb'.
Proof. destruct 1; eauto using admission_ok, probe_done_ok, closed_done_ok, Reset_ok. Qed.

(** Only the holder of the mutex touches the breaker. *)
Lemma caller_step_writes t cb pc a cb' pc' :
  caller_step t cb pc a cb' pc' → cb' = cb ∨ holds pc = true.
Proof. destruct 1; auto. Qed.

(** A probe is half-open from its admission. *)
Lemma caller_step_probing t cb pc a cb' pc' q :
  caller_step t cb pc a cb' pc' → pc' = Some q → probing q = true →
  (probing pc = true → cb.(cb_state) = StateHalfOpen) → cb'.(cb_state) = StateHalfOpen.
Proof.
  destruct 1; intros [= <-] Hq Hpc; simpl in *; try done; try (by apply Hpc).
  match goal with E : admission _ _ = _ |- _ => revert E end. unfold admission.
  destruct (cb_state cb) eqn:?; [done|destruct (_ <? _)%Z|]; intros; by simplify_eq.
Qed.

(** The invariant of a configuration: the mutex is held by the one caller that
    is where it is held, and a probe is half-open. *)
Record config_ok (c : BreakerConfig) : Prop := {
  co_time : (zero_time <= c.(bc_now))%Z;
  co_breaker : breaker_ok c.(bc_now) c.(bc_breaker);
  co_lock : ∀ i, c.(bc_lock) = Some i ↔ ∃ pc, c.(bc_callers) !! i = Some pc ∧ holds pc = true;
  co_probe : ∀ i pc, c.(bc_callers) !! i = Some pc → probing pc = true →
    c.(bc_breaker).(cb_state) = StateHalfOpen;
}.

Lemma probing_holds pc : probing pc = true → holds pc = true.
Proof. by destruct pc. Qed.

Lemma next_lock_ok c i pc pc' j :
  config_ok c → c.(bc_callers) !! i = Some pc →
  (holds_opt pc' = true → holds pc = true ∨ c.(bc_lock) = None) →
  next_lock i pc pc' c.(bc_lock) = Some j ↔
  ∃ q, partial_alter (λ _, pc') i c.(bc_callers) !! j = Some q ∧ holds q = true.
Proof.
  intros Hok Hi Hacq. pose proof (co_lock c Hok) as Hlock. unfold next_lock.
  assert (Hhold : holds pc = true → c.(bc_lock) = Some i) by (intros; apply Hlock; eauto).
  destruct (decide (j = i)) as [->|Hj].
  - rewrite lookup_partial_alter_eq.
    assert (Hnot : holds pc = false → c.(bc_lock) ≠ Some i).
    { intros Hp (q & Hq & Hh)%Hlock. congruence. }
    destruct pc' as [q|]; simpl; [destruct (holds q) eqn:Hq; [by split; eauto|]|];
      (destruct (holds pc); split; [done|by intros (? & [= <-] & ?); congruence|by intros ?%Hnot|
         by intros (? & [= <-] & ?); congruence]).
  - rewrite lookup_partial_alter_ne, <- Hlock by done. destruct (holds_opt pc') eqn:Hq.
    + destruct (Hacq eq_refl) as [Hp|Hn]; [rewrite (Hhold Hp)|rewrite Hn]; naive_solver.
    + destruct (holds pc) eqn:Hp; [|done]. rewrite (Hhold eq_refl). naive_solver.
Qed.

Lemma bstep_now c ev c' : bstep c ev c' → (c.(bc_now) <= ev.(be_time))%Z ∧ c'.(bc_now) = ev.(be_time).
Proof. by destruct 1. Qed.

Lemma bstep_ok c ev c' : bstep c ev c' → config_ok c → config_ok c'.
Proof.
  intros Hstep Hok. pose proof Hok as [Hz Hb Hl Hp].
  destruct Hstep as [t i pc Ht Hi Hpc|t i pc a cb' pc' Ht Hi Hs Hacq]; split; simpl; try lia.
  - by apply (breaker_ok_later c.(bc_now)).
  - intros j. rewrite Hl. destruct (decide (j = i)) as [->|].
    + rewrite lookup_insert_eq, Hi. destruct Hpc as [-> | ->]; naive_solver.
    + by rewrite lookup_insert_ne.
  - intros j q. rewrite lookup_insert_Some. intros [[<- <-]|[_ Hj]]; [by destruct Hpc as [-> | ->]|eauto].
  - apply (caller_step_ok _ _ _ _ _ _ Hs); [lia|by apply (breaker_ok_later c.(bc_now))].
  - intros j. by apply next_lock_ok.
  - intros j q. destruct (decide (j = i)) as [->|Hj].
    + rewrite lookup_partial_alter_eq. intros Hq Hqp.
      apply (caller_step_probing _ _ _ _ _ _ _ Hs Hq Hqp). by apply (Hp i).
    + rewrite lookup_partial_alter_ne by done. intros Hq Hqp.
      destruct (caller_step_writes _ _ _ _ _ _ Hs) as [->|Hh]; [by apply (Hp j q)|].
      assert (c.(bc_lock) = Some i) by (apply Hl; eauto).
      assert (c.(bc_lock) = Some j) by (apply Hl; eauto using probing_holds). congruence.
Qed.

Lemma bsteps_ok c evs c' : bsteps c evs c' → config_ok c → config_ok c'.
Proof. induction 1; eauto using bstep_ok. Qed.

Lemma reachable_ok c : breaker_reachable c → config_ok c.
Proof.
  intros (name & th & to & now & evs & Hz & Hs). apply (bsteps_ok _ _ _ Hs).
  split; simpl; [done|by apply breaker_ok_new| |]; intros i; rewrite lookup_empty; naive_solver.
Qed.

(** A breaker that is open with a last failure not before [t]. *)
Definition open_since (t : Z) (cb : CircuitBreaker) : Prop :=
  cb.(cb_state) = StateOpen ∧ (t <= cb.(cb_lastFailure))%Z.

(** The step lets a request through. *)
Definition admits (ev : BreakerEvent) : Prop :=
  ev.(be_action) = Some ActAdmitClosed ∨ ev.(be_action) = Some ActAdmitProbe.

(** Until [t] plus the timeout it stays so and admits nobody. *)
Lemma open_step t c ev c' :
  bstep c ev c' → config_ok c → open_since t c.(bc_breaker) →
  (ev.(be_time) < t + c.(bc_breaker).(cb_timeout))%Z → ev.(be_action) ≠ Some ActReset →
  ¬ admits ev ∧ open_since t c'.(bc_breaker) ∧
  c'.(bc_breaker).(cb_timeout) = c.(bc_breaker).(cb_timeout).
Proof.
  intros Hstep [Hz Hb _ Hp] [Ho Ht] Hev Hnr. pose proof (bo_last _ _ Hb) as Hl.
  destruct Hstep as [u i pc Hu Hi _|u i pc a cb' pc' Hu Hi Hs _]; simpl in *.
  { split_and!; try done. by intros []. }
  assert (Hadm : admission u c.(bc_breaker) = (Rejected ErrCircuitOpen, c.(bc_breaker))).
  { unfold admission. rewrite Ho.
    destruct (Z.ltb_spec (time_sub u (cb_lastFailure (bc_breaker c))) (cb_timeout (bc_breaker c)));
      [done|]. unfold time_sub, min_int64 in *. lia. }
  unfold admits. simpl. destruct Hs; rewrite ?Hadm in *; simplify_eq;
    try (split_and!; [naive_solver|done..]).
  - split; [naive_solver|]. unfold closed_done, open_since.
    destruct ok; [|destruct (_ <=? _)%Z]; simpl; split_and!; try done; lia.
  - specialize (Hp i _ Hi eq_refl). congruence.
Qed.

Lemma open_steps t c evs c' :
  bsteps c evs c' → config_ok c → open_since t c.(bc_breaker) →
  Forall (λ ev, (ev.(be_time) < t + c.(bc_breaker).(cb_timeout))%Z ∧
                ev.(be_action) ≠ Some ActReset) evs →
  Forall (λ ev, ¬ admits ev) evs ∧ c'.(bc_breaker).(cb_state) = StateOpen.
Proof.
  induction 1 as [c|c ev c1 evs c2 Hs _ IH]; intros Hok Hsince Hevs.
  { split; [done|apply Hsince]. }
  apply Forall_cons in Hevs as [[Hev Hnr] Hevs].
  destruct (open_step t c ev c1) as (Hr & Hs1 & Hto); try done.
  destruct IH as [IH Hend]; [by eapply bstep_ok|done|by rewrite Hto|]. split; [by constructor|done].
Qed.

(** An admission goes by the state: a closed call in the closed state, a probe
    in the half-open state or when the timeout of the open state has passed. *)
Lemma admission_allowed c ev c' :
  bstep c ev c' →
  (ev.(be_action) = Some ActAdmitClosed → c.(bc_breaker).(cb_state) = StateClosed) ∧
  (ev.(be_action) = Some ActAdmitProbe →
     c.(bc_breaker).(cb_state) = StateHalfOpen ∨
     (c.(bc_breaker).(cb_state) = StateOpen ∧
      (c.(bc_breaker).(cb_timeout) <= time_sub ev.(be_time) c.(bc_breaker).(cb_lastFailure))%Z)).
Proof.
  intros [t i pc ???|t i pc a cb' pc' ?? Hs ?]; [done|]; simpl.
  destruct Hs; split; intros [=];
    match goal with E : admission _ _ = _ |- _ => revert E end; unfold admission;
    (destruct (cb_state _) eqn:?; [|destruct (Z.ltb_spec (time_sub t (cb_lastFailure (bc_breaker c)))
       (cb_timeout (bc_breaker c)))|]); intros; simplify_eq; auto.
Qed.

(** While a probe runs, nobody else decides, records or resets. *)
Lemma probe_alone c ev c' i pc :
  bstep c ev c' → config_ok c → c.(bc_callers) !! i = Some pc → probing pc = true →
  ev.(be_caller) = i ∨ ¬ admits ev ∧ c'.(bc_breaker) = c.(bc_breaker).
Proof.
  intros Hstep Hok Hi Hpr. pose proof (co_lock c Hok) as Hl.
  assert (Hlock : c.(bc_lock) = Some i) by (apply Hl; eauto using probing_holds).
  destruct Hstep as [t j q ? Hj _|t j q a cb' pc' ? Hj Hs _]; simpl.
  { right. split; [by intros []|done]. }
  destruct (decide (j = i)) as [|Hne]; [by left|right].
  assert (Hq : holds q = false).
  { destruct (holds q) eqn:Hq; [|done].
    assert (c.(bc_lock) = Some j) by (apply Hl; eauto). congruence. }
  unfold admits. simpl. destruct Hs; simpl in Hq; try done; (split; [naive_solver|done]).
Qed.

(** The holder of the mutex can always go on. *)
Lemma holder_goes_on c i :
  config_ok c → c.(bc_lock) = Some i → ∃ ev c', bstep c ev c' ∧ ev.(be_caller) = i.
Proof.
  intros Hok Hlock. destruct (proj1 (co_lock c Hok i) Hlock) as (pc & Hi & Hh).
  assert (Hs : ∃ a cb' pc', caller_step c.(bc_now) c.(bc_breaker) pc a cb' pc').
  { destruct pc; try done.
    - destruct (admission c.(bc_now) c.(bc_breaker)) as [[] cb'] eqn:E; eauto using caller_step.
    - eauto using caller_step.
    - eauto using caller_step.
    - exists (ActReturn true). eauto using caller_step.
    - eauto using caller_step.
    - eauto using caller_step. }
  destruct Hs as (a & cb' & pc' & Hs). eexists _, _. split; [|].
  - eapply (b_step c c.(bc_now) i pc a cb' pc'); [lia|done..|by left].
  - done.
Qed.

(** ** Claims on the breaker *)

(** C11: Whatever the interleaving of the goroutines that call Execute and
    Reset on one breaker, step by step around its mutex. The published state is
    the state, and while closed the breaker has counted fewer failures than its
    threshold. At most one probe runs: the breaker is half-open, the probe holds
    the mutex, and until it ends no other caller is admitted or changes the
    breaker. A request is admitted as the state allows: in the closed state, or
    as a probe in the half-open state or when the timeout has passed since the
    last failure that left it open. After a failure that leaves it open, nobody
    is admitted and it stays open until the timeout has passed, unless someone
    resets it. And the holder of the mutex can always go on. *)
Theorem breaker_safe c :
  breaker_reachable c →
  c.(bc_breaker).(cb_gauge) = c.(bc_breaker).(cb_state) ∧
  (c.(bc_breaker).(cb_state) = StateClosed →
     (0 <= c.(bc_breaker).(cb_failures) < c.(bc_breaker).(cb_threshold))%Z) ∧
  (∀ i pc, c.(bc_callers) !! i = Some pc → probing pc = true →
     c.(bc_breaker).(cb_state) = StateHalfOpen ∧ c.(bc_lock) = Some i ∧
     (∀ j q, c.(bc_callers) !! j = Some q → probing q = true → j = i) ∧
     ∀ ev c', bstep c ev c' →
       ev.(be_caller) = i ∨ ¬ admits ev ∧ c'.(bc_breaker) = c.(bc_breaker)) ∧
  (∀ ev c', bstep c ev c' →
     (ev.(be_action) = Some ActAdmitClosed → c.(bc_breaker).(cb_state) = StateClosed) ∧
     (ev.(be_action) = Some ActAdmitProbe →
        c.(bc_breaker).(cb_state) = StateHalfOpen ∨
        (c.(bc_breaker).(cb_state) = StateOpen ∧
         (c.(bc_breaker).(cb_timeout) <= time_sub ev.(be_time) c.(bc_breaker).(cb_lastFailure))%Z))) ∧
  (∀ evs c', bsteps c evs c' → c.(bc_breaker).(cb_state) = StateOpen →
     Forall (λ ev, (ev.(be_time) < c.(bc_breaker).(cb_lastFailure) + c.(bc_breaker).(cb_timeout))%Z ∧
                   ev.(be_action) ≠ Some ActReset) evs →
     Forall (λ ev, ¬ admits ev) evs ∧ c'.(bc_breaker).(cb_state) = StateOpen) ∧
  (∀ i, c.(bc_lock) = Some i → ∃ ev c', bstep c ev c' ∧ ev.(be_caller) = i).
Proof.
  intros Hok%reachable_ok. pose proof Hok as [_ Hb Hl Hp].
  split_and!; [apply Hb|intros; split; by apply Hb| | | |].
  - intros i pc Hi Hpr. assert (Hlock : c.(bc_lock) = Some i) by (apply Hl; eauto using probing_holds).
    split_and!; [by apply (Hp i pc)|done| |].
    + intros j q Hj Hq. assert (c.(bc_lock) = Some j) by (apply Hl; eauto using probing_holds). congruence.
    + intros ev c' Hs. by apply (probe_alone c ev c' i pc).
  - intros ev c'. apply admission_allowed.
  - intros evs c' Hs Ho. by apply open_steps.
  - intros i. by apply holder_goes_on.
Qed.

(** ** A run *)

Ltac caller_does t i s :=
  eapply bs_cons; [eapply (b_step _ t i);
    [cbn; lia|reflexivity|eapply s; try reflexivity|cbn; intros; (by left) || (by right)]|].
Ltac caller_begins t i :=
  eapply bs_cons; [eapply (b_begin _ t i AtExecute); [cbn; lia|reflexivity|by left]|].

Lemma breaker_reachable_run c evs c' : breaker_reachable c → bsteps c evs c' → breaker_reachable c'.
Proof.
  intros (name & th & to & now & evs0 & Hz & Hs) Hs'. exists name, th, to, now, (evs0 ++ evs).
  split; [done|]. induction Hs; [done|]. econstructor; eauto.
Qed.

Definition breaker_s : CircuitBreaker := NewCircuitBreaker "s" 1 100.

(** Two closed calls overlap; the first fails, which opens the breaker, and the
    second still runs. *)
Definition opened : BreakerConfig :=
  mkBreakerConfig (enter StateOpen 1 20 breaker_s) None {[2 := ClosedRunning]} 20.

Lemma opened_reachable : breaker_reachable opened.
Proof.
  exists "s", 1%Z, 100%Z, 0%Z. eexists. split; [unfold zero_time; lia|].
  caller_begins 1%Z 1. caller_begins 1%Z 2.
  caller_does 2%Z 1 c_lock. caller_does 2%Z 1 c_admit_closed.
  caller_does 3%Z 2 c_lock. caller_does 3%Z 1 c_closed_start. caller_does 4%Z 2 c_admit_closed.
  caller_does 5%Z 2 c_closed_start. caller_does 10%Z 1 (c_closed_return 10 breaker_s false).
  caller_does 10%Z 1 (c_closed_lock 10 breaker_s false).
  caller_does 20%Z 1 (c_closed_record 20 breaker_s false). apply bs_nil.
Qed.

(** A third caller is turned away. *)
Definition turned_away : list BreakerEvent :=
  [mkBreakerEvent 30 3 None; mkBreakerEvent 30 3 (Some ActLock); mkBreakerEvent 31 3 (Some ActReject)].

Definition still_open : BreakerConfig :=
  mkBreakerConfig (enter StateOpen 1 20 breaker_s) None {[2 := ClosedRunning]} 31.

Lemma turned_away_run : bsteps opened turned_away still_open.
Proof.
  caller_begins 30%Z 3. caller_does 30%Z 3 c_lock. caller_does 31%Z 3 c_reject. apply bs_nil.
Qed.

(** After the timeout a fourth probes, while the second has returned and waits
    for the mutex. *)
Definition probed : BreakerConfig :=
  mkBreakerConfig (enter StateHalfOpen 1 20 breaker_s) (Some 4)
    {[2 := ClosedReturned false; 4 := ProbeRunning]} 140.

Lemma probed_reachable : breaker_reachable probed.
Proof.
  eapply breaker_reachable_run; [apply (breaker_reachable_run _ _ _ opened_reachable turned_away_run)|].
  caller_begins 120%Z 4. caller_does 125%Z 4 c_lock. caller_does 130%Z 4 c_admit_probe.
  caller_does 130%Z 2 (c_closed_return 130 (enter StateHalfOpen 1 20 breaker_s) false).
  caller_does 140%Z 4 c_probe_start. apply bs_nil.
Qed.

Lemma breaker_safe_witness :
  (Forall (λ ev, ¬ admits ev) turned_away ∧ still_open.(bc_breaker).(cb_state) = StateOpen) ∧
  (probed.(bc_breaker).(cb_state) = StateHalfOpen ∧ probed.(bc_lock) = Some 4 ∧
   ∀ ev c', bstep probed ev c' → ev.(be_caller) = 4 ∨ ¬ admits ev ∧ c'.(bc_breaker) = probed.(bc_breaker)).
Proof.
  split.
  - destruct (breaker_safe opened opened_reachable) as (_ & _ & _ & _ & Hopen & _).
    apply (Hopen _ _ turned_away_run); [done|]. repeat constructor; done.
  - destruct (breaker_safe probed probed_reachable) as (_ & _ & Hprobe & _).
    destruct (Hprobe 4 ProbeRunning) as (? & ? & _ & ?); [reflexivity|done|]. done.
Defined.

(** ** One caller *)

Section sequential.
Context {S : Type} `{Env S} {A : Type}.

(** Calls one after the other, and which of them succeeded. *)
Fixpoint run_calls (n : nat) (fn : ST S A) (p : CircuitBreaker * S) : list bool * (CircuitBreaker * S) :=
  match n with
  | O => ([], p)
  | Datatypes.S n' =>
      let '(r, p) := Execute fn p in
      let '(bs, p) := run_calls n' fn p in
      (is_ok r :: bs, p)
  end.

(** The number of failures at the end of a run that began after [n]. *)
Definition streak_from (n : nat) (bs : list bool) : nat :=
  foldl (λ n (ok : bool), if ok then 0 else Datatypes.S n) n bs.
Definition streak (bs : list bool) : nat := streak_from 0 bs.

Lemma execute_closed (fn : ST S A) cb s (r : result A) s' :
  cb.(cb_state) = StateClosed → ctx_err s = None → fn s = (r, s') →
  Execute fn (cb, s) = (r, (closed_done (is_ok r) (clock s') cb, s')).
Proof.
  intros Hc He Hf. unfold Execute, admission, executeClosed. rewrite Hc. simpl. by rewrite He, Hf.
Qed.

Lemma closed_done_streak ok now cb f :
  cb.(cb_state) = StateClosed → cb.(cb_failures) = Z.of_nat f → (1 <= cb.(cb_threshold))%Z →
  let cb' := closed_done ok now cb in
  let f' := streak_from f [ok] in
  cb'.(cb_threshold) = cb.(cb_threshold) ∧ cb'.(cb_failures) = Z.of_nat f' ∧
  if (Z.of_nat f' <? cb.(cb_threshold))%Z then cb'.(cb_state) = StateClosed
  else cb'.(cb_state) = StateOpen ∧ cb'.(cb_lastFailure) = now.
Proof.
  intros Hc Hf Hth. unfold closed_done. destruct ok; simpl.
  - change (Z.of_nat 0) with 0%Z. destruct (Z.ltb_spec 0 cb.(cb_threshold)); [by split_and!|lia].
  - rewrite Hf. destruct (Z.leb_spec cb.(cb_threshold) (Z.of_nat f + 1));
      destruct (Z.ltb_spec (Z.of_nat (Datatypes.S f)) cb.(cb_threshold)); simpl; split_and!; try done; lia.
Qed.

Lemma run_calls_closed (fn : ST S A) n cb s f bs cb' s' :
  (∀ s, ctx_err s = None) → cb.(cb_state) = StateClosed → cb.(cb_failures) = Z.of_nat f →
  (1 <= cb.(cb_threshold))%Z → (Z.of_nat f < cb.(cb_threshold))%Z →
  run_calls n fn (cb, s) = (bs, (cb', s')) →
  (∀ k, k < n → (Z.of_nat (streak_from f (take k bs)) < cb.(cb_threshold))%Z) →
  cb'.(cb_failures) = Z.of_nat (streak_from f bs) ∧
  if (Z.of_nat (streak_from f bs) <? cb.(cb_threshold))%Z then cb'.(cb_state) = StateClosed
  else cb'.(cb_state) = StateOpen ∧ cb'.(cb_lastFailure) = clock s'.
Proof.
  intros Hctx. revert cb s f bs. induction n as [|n IH]; intros cb s f bs Hc Hf Hth Hlt Hrun Hk; cbn [run_calls] in Hrun.
  { simplify_eq. simpl. split; [done|]. by destruct (Z.ltb_spec (Z.of_nat f) cb'.(cb_threshold)); [|lia]. }
  destruct (fn s) as [r s1] eqn:Hfn. rewrite (execute_closed fn cb s r s1) in Hrun by done.
  destruct (run_calls n fn _) as [bs1 p1] eqn:Hrun1. simplify_eq.
  destruct (closed_done_streak (is_ok r) (clock s1) cb f Hc Hf Hth) as (Hth1 & Hf1 & Hcase).
  change (streak_from f (is_ok r :: bs1)) with (streak_from (streak_from f [is_ok r]) bs1).
  destruct n as [|n].
  { cbn [run_calls] in Hrun1. simplify_eq. by split. }
  assert (H1 : (Z.of_nat (streak_from f [is_ok r]) < cb.(cb_threshold))%Z).
  { specialize (Hk 1 ltac:(lia)). by rewrite firstn_cons, take_0 in Hk. }
  rewrite (proj2 (Z.ltb_lt _ _) H1) in Hcase. rewrite <- Hth1 in *.
  apply (IH _ s1 _ bs1 Hcase Hf1 Hth); [done|exact Hrun1|].
  intros k Hkn. apply (Hk (Datatypes.S k)). lia.
Qed.

(** A new breaker used by one caller opens exactly at the end of a run of
    as many consecutive failures as its threshold: until then it is closed and
    counts the failures since the last success. *)
Theorem breaker_trips (fn : ST S A) name threshold timeout n s bs cb s' :
  (∀ s, ctx_err s = None) →
  run_calls n fn (NewCircuitBreaker name threshold timeout, s) = (bs, (cb, s')) →
  (∀ k, k < n → (Z.of_nat (streak (take k bs)) < Z.max 1 threshold)%Z) →
  cb.(cb_failures) = Z.of_nat (streak bs) ∧
  if (Z.of_nat (streak bs) <? Z.max 1 threshold)%Z then cb.(cb_state) = StateClosed
  else cb.(cb_state) = StateOpen ∧ cb.(cb_lastFailure) = clock s'.
Proof.
  intros Hctx Hrun Hk.
  assert (Hth : (NewCircuitBreaker name threshold timeout).(cb_threshold) = Z.max 1 threshold).
  { simpl. destruct (Z.leb_spec threshold 0); lia. }
  rewrite <- Hth in *. eapply (run_calls_closed fn n _ s 0); eauto; rewrite ?Hth; lia.
Qed.

End sequential.

(** ** Retries *)

Section retries.
Context {S : Type} `{Env S} {A : Type}.

(** The call with a log of its results, the latest first. *)
Definition logged (fn : ST S A) : ST (list (result A) * S) A := λ p,
  let '(r, s) := fn p.2 in (r, (r :: p.1, s)).

Definition retryable_failure (r : result A) : Prop :=
  match r with Ok _ => False | Err err => IsRetryable err = true end.

(** The error is that of the context, which ended before a call or a wait. *)
Definition cancelled (err : error) : Prop :=
  ∃ ctx c, err = Wrap ctx c ∧
    ((∃ s : S, ctx_err s = Some c) ∨ ∃ d (s : S), (sleep d s).1 = Some c).

(** What [Retry] with at most [max] attempts may do. *)
Definition retry_outcome (max : Z) (r : result A) (log : list (result A)) : Prop :=
  (Z.of_nat (length log) <= max)%Z ∧ Forall retryable_failure (tail log) ∧
  match r with
  | Ok x => head log = Some (Ok x)
  | Err err =>
      (cancelled err ∧ Forall retryable_failure log) ∨
      ∃ ctx err', err = Wrap ctx err' ∧ head log = Some (Err err') ∧
        (IsRetryable err' = false ∨ Z.of_nat (length log) = max)
  end.

Lemma waitBackoff_log cfg attempt (log : list (result A)) s :
  match waitBackoff cfg attempt (log, s) with
  | (Ok _, p) => p.1 = log
  | (Err err, p) => p.1 = log ∧ cancelled err
  end.
Proof.
  unfold waitBackoff.
  assert (Hc : (calculateBackoff cfg attempt (log, s)).2.1 = log).
  { unfold calculateBackoff. simpl. destruct (Jitter cfg); [|done]. destruct (_ <=? _)%Z; [done|].
    by destruct (rand_10001 s). }
  destruct (calculateBackoff cfg attempt (log, s)) as [delay [log' s']]. simpl in *. subst log'.
  destruct (_ <=? _)%Z; [done|]. destruct (sleep delay s') as [[c|] s''] eqn:Hs; [|done].
  split; [done|]. eexists _, c.
  split; [done|]. right. exists delay, s'. by rewrite Hs.
Qed.

Lemma retry_loop_outcome cfg fn n log s :
  0 < n → Z.of_nat (length log + n) = cfg.(MaxAttempts) → Forall retryable_failure log →
  let '(r, p) := retry_loop cfg (logged fn) n (Z.of_nat (length log) + 1) (log, s) in
  retry_outcome cfg.(MaxAttempts) r p.1.
Proof.
  revert log s. induction n as [|n IH]; intros log s Hn Hlen Hlog; [lia|].
  cbn [retry_loop]. change (ctx_err (log, s)) with (ctx_err s).
  assert (Htail : Forall retryable_failure (tail log)) by (destruct Hlog; [constructor|done]).
  destruct (ctx_err s) as [c|] eqn:Hc; simpl.
  { split_and!; [simpl; lia|done|]. left. split; [|done]. eexists _, c. eauto. }
  unfold logged at 1. simpl. destruct (fn s) as [[err|x] s1] eqn:Hfn; simpl;
    [|split_and!; simpl; [lia|done|done]].
  destruct (IsRetryable err) eqn:Hr; simpl.
  2:{ split_and!; simpl; [lia|done|]. right. eexists _, err. eauto. }
  destruct (Z.eqb_spec (Z.of_nat (length log) + 1) cfg.(MaxAttempts)) as [Heq|Hne].
  { split_and!; simpl; [lia|done|]. right. eexists _, err. split_and!; [done..|]. right. simpl. lia. }
  unfold bind. pose proof (waitBackoff_log cfg (Z.of_nat (length log) + 1) (inl err :: log) s1) as Hw.
  destruct (waitBackoff _ _ _) as [[e|[]] [log' s2]]; simpl in Hw.
  - destruct Hw as [-> Hcan]. split_and!; simpl; [lia|done|]. left. split; [done|]. by constructor.
  - subst log'. specialize (IH (inl err :: log) s2 ltac:(lia) ltac:(simpl; lia)
      ltac:(by constructor)).
    replace (Z.of_nat (length log) + 1 + 1)%Z with (Z.of_nat (length (inl err :: log)) + 1)%Z
      by (simpl; lia). done.
Qed.

(** C21: [Retry] always ends, after at most its configured number of calls, at
    least one. It goes on only after a retryable failure; it succeeds with the
    result of the last call when that succeeded; and it fails only with the
    error of a call that is not worth retrying, with that of the last allowed
    call, or because the context ended. *)
Theorem retry_correct cfg fn s :
  let '(r, p) := Retry cfg (logged fn) ([], s) in
  retry_outcome (Z.max 1 cfg.(MaxAttempts)) r p.1.
Proof.
  unfold Retry. set (c := normalizeRetryConfig cfg).
  assert (Hm : c.(MaxAttempts) = Z.max 1 cfg.(MaxAttempts)).
  { simpl. destruct (Z.leb_spec cfg.(MaxAttempts) 0); lia. }
  rewrite <- Hm. apply (retry_loop_outcome c fn (Z.to_nat c.(MaxAttempts)) []); [lia| |constructor].
  cbn [length Nat.add]. lia.
Qed.

(** ** The resilient client *)

Lemma circuit_open_not_retryable : IsRetryable ErrCircuitOpen = false.
Proof. done. Qed.

Lemma retry_first_aborts cfg (fn : ST S A) s err s' :
  ctx_err s = None → fn s = (Err err, s') → IsRetryable err = false →
  Retry cfg fn s = (Err (Wrap ("retry aborted after 1 attempt(s)") err), s').
Proof.
  intros Hc Hf Hr. unfold Retry.
  assert (Hm : (0 < (normalizeRetryConfig cfg).(MaxAttempts))%Z)
    by (simpl; destruct (Z.leb_spec cfg.(MaxAttempts) 0); lia).
  destruct (Z.to_nat _) as [|n] eqn:Hn; [lia|]. cbn [retry_loop]. rewrite Hc, Hf, Hr. done.
Qed.

Lemma retry_first_succeeds cfg (fn : ST S A) s x s' :
  ctx_err s = None → fn s = (Ok x, s') → Retry cfg fn s = (Ok x, s').
Proof.
  intros Hc Hf. unfold Retry.
  assert (Hm : (0 < (normalizeRetryConfig cfg).(MaxAttempts))%Z)
    by (simpl; destruct (Z.leb_spec cfg.(MaxAttempts) 0); lia).
  destruct (Z.to_nat _) as [|n] eqn:Hn; [lia|]. cbn [retry_loop]. by rewrite Hc, Hf.
Qed.

End retries.

(** A call through the resilient client while the breaker is open. Before
    the timeout it fails at once with [ErrCircuitOpen], is not retried and
    leaves the backend and the breaker alone. After it, the first call reaches
    the backend as a probe, and if the backend answers, the call returns the
    answer and the breaker is closed with no failures: an open breaker recovers
    with its backend. *)
Theorem open_breaker_call {S A} `{Env S} cfg (backend : ST S A) name cb s :
  ctx_err s = None → cb.(cb_state) = StateOpen → int64_range cb.(cb_timeout) →
  (0 <= clock s - cb.(cb_lastFailure))%Z →
  ((clock s - cb.(cb_lastFailure) < cb.(cb_timeout))%Z →
     ∃ err, CallTool cfg backend name (cb, s) = (Err err, (cb, s)) ∧
       errors_is err ErrCircuitOpen = true) ∧
  ((cb.(cb_timeout) <= clock s - cb.(cb_lastFailure))%Z →
     ∀ x s', backend s = (Ok x, s') →
     ∃ cb', CallTool cfg backend name (cb, s) = (Ok x, (cb', s')) ∧
       cb'.(cb_state) = StateClosed ∧ cb'.(cb_failures) = 0%Z).
Proof.
  intros Hc Ho Hto Hpos. split.
  - intros Hlt. unfold CallTool.
    assert (He : Execute backend (cb, s) = (inl ErrCircuitOpen, (cb, s))).
    { unfold Execute, admission. rewrite Ho.
      destruct (Z.ltb_spec (time_sub (clock s) cb.(cb_lastFailure)) cb.(cb_timeout)); [done|].
      unfold time_sub, min_int64 in *. lia. }
    rewrite (retry_first_aborts _ _ _ ErrCircuitOpen (cb, s)); [|exact Hc|exact He|done].
    eexists. split; [reflexivity|done].
  - intros Hle x s' Hb. unfold CallTool.
    rewrite (retry_first_succeeds _ _ (cb, s) x (enter StateClosed 0 zero_time
      (enter StateHalfOpen cb.(cb_failures) cb.(cb_lastFailure) cb), s')); [by eexists|exact Hc|].
    unfold Execute, admission. rewrite Ho.
    destruct (Z.ltb_spec (time_sub (clock s) cb.(cb_lastFailure)) cb.(cb_timeout)).
    + unfold time_sub, int64_range, max_int64, min_int64 in *. lia.
    + by rewrite Hc, Hb.
Qed.

(** ** A scripted backend *)

(** A clock and the answers still to come. *)
Definition Script : Type := Z * list (result Z).

Definition script_env : Env Script := {|
  clock p := p.1;
  ctx_err _ := None;
  sleep d p := (None, (p.1 + d, p.2))%Z;
  rand_10001 p := (Some 5000%Z, p);
|}.

Definition scripted : ST Script Z := λ p,
  match p.2 with
  | [] => (Err (Opaque "no answer"), p)
  | r :: rest => (r, (p.1 + second, rest)%Z)
  end.

Section witnesses.
#[local] Existing Instance script_env.

Lemma breaker_trips_witness :
  ∃ cb s', run_calls 3 scripted (NewCircuitBreaker "s" 2 0, (0%Z, [Ok 1%Z])) = ([true; false; false], (cb, s')) ∧
    cb.(cb_state) = StateOpen.
Proof.
  destruct (run_calls 3 scripted (NewCircuitBreaker "s" 2 0, (0%Z, [inr 1%Z]))) as [bs [cb s']] eqn:E.
  assert (Hbs : bs = [true; false; false]) by (vm_compute in E; congruence).
  assert (Hctx : ∀ s : Script, ctx_err s = None) by done.
  destruct (breaker_trips scripted "s" 2 0 3 (0%Z, [inr 1%Z]) bs cb s' Hctx E) as [_ Hst].
  - intros k Hk. subst bs. destruct k as [|[|[|k]]]; [by vm_compute..|lia].
  - subst bs. exists cb, s'. split; [done|]. exact (proj1 Hst).
Defined.

Lemma open_breaker_call_witness :
  ∃ cb', CallTool (DefaultRetryConfig None) scripted "t"
      (enter StateOpen 5 0 (NewCircuitBreaker "s" 5 second), (second, [Ok 7%Z])) = (Ok 7%Z, (cb', (2 * second, [])%Z)) ∧
    cb'.(cb_state) = StateClosed ∧ cb'.(cb_failures) = 0%Z.
Proof.
  apply (open_breaker_call (DefaultRetryConfig None) scripted "t"
    (enter StateOpen 5 0 (NewCircuitBreaker "s" 5 second)) (second, [inr 7%Z]));
    try done; vm_compute; split; discriminate.
Defined.

End witnesses.
