(* ===== verification/RateLimit.v ===== *)
(** * Rate limiting: [internal/ratelimit]

    The keys and the store of token buckets ([store.go]), the backends in
    memory, on NATS key-value buckets and on DragonflyDB ([memory_backend.go],
    [nats_backend.go], [dragonfly_backend.go] with [lua/sliding_window.lua]),
    and the middleware that asks them ([middleware.go], [resolver.go]).

    The token bucket of [golang.org/x/time/rate], the key-value store and the
    sorted sets are parameters, with the laws their documentation states. *)

From stdpp Require Import pretty.
From S2P Require Import Prelude GoStrings GoFloat Types.

#[local] Open Scope string_scope.
#[local] Open Scope list_scope.
#[local] Open Scope nat_scope.
#[local] Open Scope go_scope.

(** ** Keys *)

Record LimiterKey := mkLimiterKey { ClientID : string; Route : string }.

#[export] Instance LimiterKey_eq_dec : EqDecision LimiterKey.
Proof. solve_decision. Defined.

#[export] Program Instance LimiterKey_countable : Countable LimiterKey :=
  inj_countable' (λ k, (k.(ClientID), k.(Route))) (λ p, mkLimiterKey p.1 p.2) _.
Next Obligation. by intros []. Qed.

(** [LimiterKey.String]. *)
Definition LimiterKey_String (k : LimiterKey) : string := k.(ClientID) +:+ ":" +:+ k.(Route).

(** [normalizeKey]. *)
Definition normalizeKey (key : LimiterKey) : LimiterKey :=
  let clientID := TrimSpace key.(ClientID) in
  let route := TrimSpace key.(Route) in
  mkLimiterKey (if bool_decide (clientID = "") then "anonymous" else clientID)
    (if bool_decide (route = "") then "unknown" else route).

Definition defaultRateLimit : spec_float := f_of_Z 10.
Definition defaultRateBurst : Z := 20.

(** What [Allow] returns: allowed, remaining, retryAfter. *)
Record Verdict := mkVerdict { v_allowed : bool; v_remaining : Z; v_retryAfter : Z }.

(** [LimiterBackend], at a time given in nanoseconds. *)
Class LimiterBackend (S : Type) :=
  Allow : Z → LimiterKey → spec_float → Z → ST S Verdict.

Record RateLimitEntry := mkRateLimitEntry {
  re_ClientID : string;
  re_Route : string;
  re_Remaining : Z;
  re_Limit : spec_float;
  re_LastUsed : Z;
}.

(** [golang.org/x/time/rate]: [NewLimiter], [Allow], [Tokens] and [Limit] of a
    limiter, at a time. *)
Class TokenBuckets := {
  Limiter : Type;
  NewLimiter : spec_float → Z → Limiter;
  LimiterAllow : Z → Limiter → bool * Limiter;
  LimiterTokens : Z → Limiter → spec_float;
  LimiterLimit : Limiter → spec_float;
}.

Definition not_positive (x : spec_float) : bool := SFleb x f_zero.

(** ** In memory *)

Section memory.
Context `{TokenBuckets}.

Record memoryEntry := mkMemoryEntry { me_limiter : Limiter; me_lastUsed : Z }.

Record MemoryBackend := mkMemoryBackend {
  mb_limiters : gmap string memoryEntry;
  mb_defaultRate : spec_float;
  mb_defaultBurst : Z;
  mb_maxIdle : Z;
}.

Definition set_limiters (m : gmap string memoryEntry) (mb : MemoryBackend) : MemoryBackend :=
  mkMemoryBackend m mb.(mb_defaultRate) mb.(mb_defaultBurst) mb.(mb_maxIdle).

(** [NewMemoryBackend], without its cleanup goroutine. *)
Definition NewMemoryBackend (maxIdle : Z) : MemoryBackend :=
  mkMemoryBackend ∅ defaultRateLimit defaultRateBurst
    (if (maxIdle <=? 0)%Z then (5 * minute)%Z else maxIdle).

(** The tokens left, as a count. *)
Definition remaining_tokens (now : Z) (limiter : Limiter) : Z :=
  Z.max 0 (f_round_i64 false (LimiterTokens now limiter)).

(** [checkLimiter]: the verdict and the limiter after it. *)
Definition checkLimiter (now : Z) (limiter : Limiter) (limit : spec_float) : Verdict * Limiter :=
  let '(allowed, limiter) := LimiterAllow now limiter in
  let remaining := remaining_tokens now limiter in
  let retryAfter :=
    if allowed then 0%Z
    else
      let needed := f_sub f_one (LimiterTokens now limiter) in
      let needed := if not_positive needed then f_one else needed in
      if SFltb f_zero limit then
        let d := f_to_i64 (f_div (f_mul (f_of_Z second) needed) limit) in
        if (d <=? 0)%Z then second else d
      else second in
  (mkVerdict allowed remaining retryAfter, limiter).

(** [MemoryBackend.Allow]. *)
Definition MemoryAllow (now : Z) (key : LimiterKey) (limit : spec_float) (burst : Z) :
    ST MemoryBackend Verdict := λ mb,
  let limit := if not_positive limit then mb.(mb_defaultRate) else limit in
  let burst := if (burst <=? 0)%Z then mb.(mb_defaultBurst) else burst in
  let mapKey := LimiterKey_String (normalizeKey key) in
  let limiter :=
    match mb.(mb_limiters) !! mapKey with
    | Some current => current.(me_limiter)
    | None => NewLimiter limit burst
    end in
  let '(v, limiter) := checkLimiter now limiter limit in
  (Ok v, set_limiters (<[mapKey := mkMemoryEntry limiter now]> mb.(mb_limiters)) mb).

#[export] Instance memory_backend : LimiterBackend MemoryBackend := MemoryAllow.

(** [MemoryBackend.SetDefaults]. *)
Definition MemorySetDefaults (defaultRate : spec_float) (defaultBurst : Z) (mb : MemoryBackend) :
    MemoryBackend :=
  mkMemoryBackend mb.(mb_limiters)
    (if not_positive defaultRate then defaultRateLimit else defaultRate)
    (if (defaultBurst <=? 0)%Z then defaultRateBurst else defaultBurst) mb.(mb_maxIdle).

(** [MemoryBackend.Count]. *)
Definition MemoryCount (mb : MemoryBackend) : nat := size mb.(mb_limiters).

(** [MemoryBackend.Snapshot] of one entry: the key is split at its first colon. *)
Definition snapshot_entry (now : Z) (key : string) (entry : memoryEntry) : RateLimitEntry :=
  let '(clientID, route) :=
    match SplitN key ":" 2 with
    | [c; r] => (c, r)
    | _ => (key, "")
    end in
  mkRateLimitEntry clientID route (remaining_tokens now entry.(me_limiter))
    (LimiterLimit entry.(me_limiter)) entry.(me_lastUsed).

(** [MemoryBackend.Snapshot], in the order Go ranges over the map. *)
Definition MemorySnapshot (now : Z) (order : list (string * memoryEntry)) : list RateLimitEntry :=
  (λ p, snapshot_entry now p.1 p.2) <$> order.

(** [MemoryBackend.cleanup]. *)
Definition memory_cleanup (now : Z) (mb : MemoryBackend) : MemoryBackend :=
  let cutoff := (now - mb.(mb_maxIdle))%Z in
  set_limiters (filter (λ p, (cutoff <= p.2.(me_lastUsed))%Z) mb.(mb_limiters)) mb.

(** ** The store of limiters *)

Record LimiterStore := mkLimiterStore {
  ls_limiters : gmap LimiterKey memoryEntry;
  ls_defaultRate : spec_float;
  ls_defaultBurst : Z;
}.

(** [NewLimiterStore]. *)
Definition NewLimiterStore (defaultRate : spec_float) (defaultBurst : Z) : LimiterStore :=
  mkLimiterStore ∅
    (if not_positive defaultRate then defaultRateLimit else defaultRate)
    (if (defaultBurst <=? 0)%Z then defaultRateBurst else defaultBurst).

Definition set_store (m : gmap LimiterKey memoryEntry) (s : LimiterStore) : LimiterStore :=
  mkLimiterStore m s.(ls_defaultRate) s.(ls_defaultBurst).

(** The rate and burst of a new limiter. *)
Definition new_limits (s : LimiterStore) (profile : option PolicyProfile) : spec_float * Z :=
  let limit :=
    match profile with
    | Some p => if (0 <? p.(pp_RateLimit))%Z then f_of_Z p.(pp_RateLimit) else s.(ls_defaultRate)
    | None => s.(ls_defaultRate)
    end in
  let burst :=
    match profile with
    | Some p => if (0 <? p.(pp_RateBurst))%Z then p.(pp_RateBurst) else s.(ls_defaultBurst)
    | None => s.(ls_defaultBurst)
    end in
  (if not_positive limit then defaultRateLimit else limit, if (burst <=? 0)%Z then 1%Z else burst).

(** [LimiterStore.GetOrCreate]. *)
Definition StoreGetOrCreate (now : Z) (key : LimiterKey) (profile : option PolicyProfile)
    (s : LimiterStore) : Limiter * LimiterStore :=
  let normalized := normalizeKey key in
  match s.(ls_limiters) !! normalized with
  | Some current =>
      (current.(me_limiter),
       set_store (<[normalized := mkMemoryEntry current.(me_limiter) now]> s.(ls_limiters)) s)
  | None =>
      let '(limit, burst) := new_limits s profile in
      let limiter := NewLimiter limit burst in
      (limiter, set_store (<[normalized := mkMemoryEntry limiter now]> s.(ls_limiters)) s)
  end.

(** [LimiterStore.Remove]. *)
Definition StoreRemove (key : LimiterKey) (s : LimiterStore) : LimiterStore :=
  set_store (delete (normalizeKey key) s.(ls_limiters)) s.

(** [LimiterStore.Cleanup]: the number removed, and the store. *)
Definition StoreCleanup (now maxIdle : Z) (s : LimiterStore) : nat * LimiterStore :=
  let kept :=
    if (maxIdle <=? 0)%Z then ∅
    else filter (λ p, (now - maxIdle <= p.2.(me_lastUsed))%Z) s.(ls_limiters) in
  (size s.(ls_limiters) - size kept, set_store kept s).

(** [LimiterStore.SetDefaults]. *)
Definition StoreSetDefaults (defaultRate : spec_float) (defaultBurst : Z) (s : LimiterStore) : LimiterStore :=
  mkLimiterStore s.(ls_limiters)
    (if not_positive defaultRate then defaultRateLimit else defaultRate)
    (if (defaultBurst <=? 0)%Z then defaultRateBurst else defaultBurst).

End memory.

(** ** Windows *)

(** [int64(float64(time.Second.Microseconds()) * float64(burst) / limit)]. *)
Definition window_micros (limit : spec_float) (burst : Z) : Z :=
  f_to_i64 (f_div (f_mul (f_of_Z 1000000) (f_of_Z burst)) limit).

Definition limit_or_default (limit : spec_float) : spec_float :=
  if not_positive limit then defaultRateLimit else limit.
Definition burst_or_default (burst : Z) : Z :=
  if (burst <=? 0)%Z then defaultRateBurst else burst.

(** [handleUnavailable] of the distributed backends: the fallback if there is
    one, else the request is allowed. *)
Definition handleUnavailable {S T} (fallback : option (LimiterBackend T)) (now : Z) (key : LimiterKey)
    (limit : spec_float) (burst : Z) : ST (S * T) Verdict := λ p,
  match fallback with
  | Some fb => let '(r, t) := fb now key limit burst p.2 in (r, (p.1, t))
  | None => (Ok (mkVerdict true burst 0), p)
  end.

(** ** On NATS *)

Record natsWindowEntry := mkNatsWindowEntry { Count : Z; WindowStart : Z }.

Definition ErrKeyNotFound : error := Sentinel "nats: key not found".

(** A JetStream key-value bucket. The value of a key is the window its JSON
    decodes to, [None] when it does not decode; a revision is a stream
    sequence number. *)
Class KeyValue (S : Type) := {
  kv_Get : string → ST S (option natsWindowEntry * Z);
  kv_Create : string → natsWindowEntry → ST S Z;
  kv_Update : string → natsWindowEntry → Z → ST S Z;
}.

(** [loadWindow]. *)
Definition loadWindow {S} `{KeyValue S} (kvKey : string) (now windowMicros : Z) :
    ST S (natsWindowEntry * Z) := λ s,
  match kv_Get kvKey s with
  | (Err err, s) =>
      if bool_decide (err = ErrKeyNotFound) then (Ok (mkNatsWindowEntry 0 now, 0%Z), s) else (Err err, s)
  | (Ok (None, _), s) => (Err (Opaque "nats kv unmarshal failed"), s)
  | (Ok (Some window, revision), s) =>
      if (windowMicros <? now - window.(WindowStart))%Z then (Ok (mkNatsWindowEntry 0 now, 0%Z), s)
      else (Ok (window, revision), s)
  end.

(** [casWrite]. *)
Definition casWrite {S} `{KeyValue S} (kvKey : string) (window : natsWindowEntry) (revision : Z) (s : S) :
    bool * S :=
  let '(r, s) :=
    if (revision =? 0)%Z then kv_Create kvKey window s else kv_Update kvKey window revision s in
  (is_ok r, s).

(** [overLimitResult]. *)
Definition overLimitResult (window : natsWindowEntry) (windowMicros now : Z) : Verdict :=
  let retryAfter := ((window.(WindowStart) + windowMicros - now) * microsecond)%Z in
  mkVerdict false 0 (if (retryAfter <=? 0)%Z then second else retryAfter).

Definition natsCASMaxRetries : nat := 3.

Section nats.
Context {S T : Type} `{KeyValue S} (fallback : option (LimiterBackend T)).

(** The loop of [Allow], [attempts] of them left. *)
Fixpoint nats_loop (attempts : nat) (time : Z) (key : LimiterKey) (limit : spec_float) (burst : Z)
    (kvKey : string) (now windowMicros : Z) : ST (S * T) Verdict := λ p,
  match attempts with
  | O => handleUnavailable fallback time key limit burst p
  | Datatypes.S attempts' =>
      match loadWindow kvKey now windowMicros p.1 with
      | (Err _, s) => handleUnavailable fallback time key limit burst (s, p.2)
      | (Ok (window, revision), s) =>
          if (burst <=? window.(Count))%Z then (Ok (overLimitResult window windowMicros now), (s, p.2))
          else
            let window := mkNatsWindowEntry (window.(Count) + 1) window.(WindowStart) in
            match casWrite kvKey window revision s with
            | (true, s) => (Ok (mkVerdict true (Z.max 0 (burst - window.(Count))) 0), (s, p.2))
            | (false, s) =>
                nats_loop attempts' time key limit burst kvKey now windowMicros (s, p.2)
            end
      end
  end.

(** [NATSBackend.Allow]. *)
Definition NATSAllow (time : Z) (key : LimiterKey) (limit : spec_float) (burst : Z) : ST (S * T) Verdict :=
  let limit := limit_or_default limit in
  let burst := burst_or_default burst in
  let normalized := normalizeKey key in
  let kvKey := "rl." +:+ normalized.(ClientID) +:+ "." +:+ normalized.(Route) in
  nats_loop natsCASMaxRetries time key limit burst kvKey (time / 1000) (window_micros limit burst).

End nats.

(** ** On DragonflyDB *)

(** The commands of sorted sets: [ZREMRANGEBYSCORE key -inf max], [ZCARD],
    [ZADD], the first entry of [ZRANGE key 0 0 WITHSCORES], and [PEXPIRE]. *)
Class SortedSets (S : Type) := {
  zremrangebyscore : string → Z → S → S;
  zcard : string → S → Z;
  zadd : string → Z → string → S → S;
  zfirst : string → S → option (string * Z);
  pexpire : string → Z → S → S;
}.

(** [lua/sliding_window.lua], which the server runs atomically. *)
Definition sliding_window {S} `{SortedSets S} (key : string) (now window limit : Z) (member : string)
    (ttl_ms : Z) (s : S) : (Z * Z * Z) * S :=
  let window_start := (now - window)%Z in
  let s := zremrangebyscore key window_start s in
  let count := zcard key s in
  if (count <? limit)%Z then
    let s := zadd key now member s in
    let s := pexpire key ttl_ms s in
    ((1, limit - count - 1, 0)%Z, s)
  else
    let retry_after_ms :=
      match zfirst key s with
      | Some (_, oldest_score) => Z.max 0 (- ((- (oldest_score + window - now)) / 1000))
      | None => 0
      end%Z in
    ((0, 0, retry_after_ms)%Z, s).

(** A connection: [script_fails] says whether the next run of the script does. *)
Record Dragonfly (S : Type) := mkDragonfly {
  df_sets : S;
  df_healthy : bool;
  df_failures : list bool;
}.
Arguments mkDragonfly {S}.
Arguments df_sets {S}.
Arguments df_healthy {S}.
Arguments df_failures {S}.

Section dragonfly.
Context {S T : Type} `{SortedSets S} (keyPrefix : string) (fallback : option (LimiterBackend T)).

(** The time to live of a key, in milliseconds. *)
Definition ttl_ms (windowMicros : Z) : Z :=
  Z.max 1000 (f_round_i64 true (f_div (f_of_Z windowMicros) (f_of_Z 1000))).

(** [DragonflyBackend.Allow]. *)
Definition DragonflyAllow (time : Z) (key : LimiterKey) (limit : spec_float) (burst : Z) :
    ST (Dragonfly S * T) Verdict := λ p,
  let limit := limit_or_default limit in
  let burst := burst_or_default burst in
  let '(rb, t) := p in
  if negb rb.(df_healthy) then handleUnavailable fallback time key limit burst p
  else
    let normalized := normalizeKey key in
    let dfKey := keyPrefix +:+ "rl:" +:+ normalized.(ClientID) +:+ ":" +:+ normalized.(Route) in
    let nowMicros := (time / 1000)%Z in
    let windowMicros := window_micros limit burst in
    let member := pretty nowMicros +:+ ":" +:+ pretty (time mod 1000000)%Z in
    if default false (head rb.(df_failures)) then
      handleUnavailable fallback time key limit burst
        (mkDragonfly rb.(df_sets) false (tail rb.(df_failures)), t)
    else
      let '(result, sets) := sliding_window dfKey nowMicros windowMicros burst member
                               (ttl_ms windowMicros) rb.(df_sets) in
      let '(allowed, remaining, retryAfterMs) := result in
      let allowed := (allowed =? 1)%Z in
      (Ok (mkVerdict allowed remaining
             (if negb allowed && (0 <? retryAfterMs)%Z then retryAfterMs * millisecond else 0)%Z),
       (mkDragonfly sets true (tail rb.(df_failures)), t)).

(** One round of [healthCheck]: whether the ping answers. *)
Definition healthCheck (ping_ok : bool) (rb : Dragonfly S) : Dragonfly S :=
  mkDragonfly rb.(df_sets) ping_ok rb.(df_failures).

End dragonfly.

(** ** The middleware *)

(** [DefaultProfileResolver]. *)
Record DefaultProfileResolver := mkProfileResolver {
  pr_profiles : gmap string PolicyProfile;
  pr_defaultProfile : option PolicyProfile;
}.

(** [DefaultProfileResolver.Resolve]. *)
Definition ResolveProfile (r : DefaultProfileResolver) (id : option Identity) : option PolicyProfile :=
  let profileName := match id with Some id => TrimSpace (metadata id "policy_profile") | None => "" end in
  if bool_decide (profileName = "") then r.(pr_defaultProfile)
  else
    match r.(pr_profiles) !! profileName with
    | Some profile => Some profile
    | None => r.(pr_defaultProfile)
    end.

(** [resolveClientID]. *)
Definition resolveClientID (id : option Identity) : string :=
  match id with
  | Some id => if bool_decide (TrimSpace id.(id_ID) = "") then "anonymous" else TrimSpace id.(id_ID)
  | None => "anonymous"
  end.

(** [rateLimitEnforcer.resolveProfile]. *)
Definition resolveProfile (resolver : option DefaultProfileResolver) (id : option Identity) : spec_float * Z :=
  match resolver with
  | None => (f_zero, 0%Z)
  | Some r =>
      match ResolveProfile r id with
      | None => (f_zero, 0%Z)
      | Some p =>
          (if (0 <? p.(pp_RateLimit))%Z then f_of_Z p.(pp_RateLimit) else f_zero,
           if (0 <? p.(pp_RateBurst))%Z then p.(pp_RateBurst) else 0%Z)
      end
  end.

(** [Duration.Seconds]. *)
Definition Seconds (d : Z) : spec_float :=
  f_add (f_of_Z (Z.quot d second)) (f_div (f_of_Z (Z.rem d second)) (f_of_Z 1000000000)).

(** The seconds of [writeLimitedResponse]. *)
Definition retryAfterSecs (retryAfter : Z) : Z :=
  let s := f_round_i64 true (Seconds retryAfter) in
  if (s <=? 0)%Z then 1%Z else s.

(** A request as [resolveRouteKey] sees it: [body_method] is the [method] of
    its JSON body, the empty string when the body is empty or does not decode. *)
Record LimitedRequest := mkLimitedRequest {
  lr_Method : string;
  lr_ContentType : string;
  lr_body_method : string;
  lr_pattern : string;
  lr_path : string;
}.

Section middleware.
Context `{UnicodeTables}.

(** [readMCPMethod]. *)
Definition readMCPMethod (r : LimitedRequest) : string :=
  if negb (Contains (ToLower r.(lr_ContentType)) "application/json") then ""
  else if negb (bool_decide (r.(lr_Method) = "POST")) then ""
  else TrimSpace r.(lr_body_method).

(** [resolveRouteKey]. *)
Definition resolveRouteKey (r : LimitedRequest) : string :=
  let method := readMCPMethod r in
  if negb (bool_decide (method = "")) then "mcp/" +:+ method
  else if negb (bool_decide (TrimSpace r.(lr_pattern) = "")) then TrimSpace r.(lr_pattern)
  else if negb (bool_decide (TrimSpace r.(lr_path) = "")) then TrimSpace r.(lr_path)
  else "unknown".

(** What the middleware does with a request: hand it on, or answer 429 with a
    [Retry-After]. *)
Inductive LimitDecision := Forward | Limited (retry_after : Z).

(** [setBackendHeaders]: the values of [X-RateLimit-Limit], [-Remaining] and
    [-Reset], the first as the float the header prints. *)
Definition setBackendHeaders (now : Z) (limit : spec_float) (remaining : Z) : spec_float * Z * Z :=
  let limitPerSecond := limit_or_default limit in
  let remaining := Z.max 0 remaining in
  let resetAt :=
    if (remaining <? 1)%Z then (now + f_to_i64 (f_div (f_of_Z second) limitPerSecond))%Z else now in
  (limitPerSecond, remaining, (resetAt / second)%Z).

(** [rateLimitEnforcer.serve]: the decision, the rate limit headers, and the
    state of the backend. *)
Definition serve {S} (backend : option (LimiterBackend S)) (resolver : option DefaultProfileResolver)
    (now : Z) (id : option Identity) (r : LimitedRequest) (s : S) :
    LimitDecision * option (spec_float * Z * Z) * S :=
  match backend with
  | None => (Forward, None, s)
  | Some allow =>
      let clientID := resolveClientID id in
      let '(limit, burst) := resolveProfile resolver id in
      let key := mkLimiterKey clientID (resolveRouteKey r) in
      match allow now key limit burst s with
      | (Err _, s) => (Forward, None, s)
      | (Ok v, s) =>
          let headers := Some (setBackendHeaders now limit v.(v_remaining)) in
          if v.(v_allowed) then (Forward, headers, s)
          else (Limited (retryAfterSecs v.(v_retryAfter)), headers, s)
      end
  end.

End middleware.

Example retry_after_ex :
  retryAfterSecs <$> [0; 1; second; second + 1; 90 * second]%Z = [1; 1; 1; 2; 90]%Z.
Proof. by vm_compute. Qed.

Example window_ex : window_micros defaultRateLimit 20 = 2000000%Z ∧ ttl_ms 2000001 = 2001%Z.
Proof. by vm_compute. Qed.
