(* ===== verification/RateLimitProps.v ===== *)
(** * Properties of rate limiting

    The bound of the sliding window on sorted sets, the bound of the
    compare-and-set windows on NATS under any interleaving of gateways, what
    happens to such a window once it has expired, and the keys of the backend
    in memory. *)

From stdpp Require Import pretty.
From S2P Require Import Prelude GoStrings GoFloat Types RateLimit.

#[local] Open Scope string_scope.
#[local] Open Scope list_scope.
#[local] Open Scope nat_scope.

(** ** The sliding window *)

(** The documented behaviour of the commands, on the scores of the members of
    a set. *)
Class SortedSetsLaws (S : Type) `{SortedSets S} := {
  zset : S → string → gmap string Z;
  zset_rem : ∀ k max s, zset (zremrangebyscore k max s) k = filter (λ p, (max < p.2)%Z) (zset s k);
  zset_card : ∀ k s, zcard k s = Z.of_nat (size (zset s k));
  zset_add : ∀ k score m s, zset (zadd k score m s) k = <[m := score]> (zset s k);
  zset_expire : ∀ k ms s, zset (pexpire k ms s) k = zset s k;
}.

Lemma split_first_colon c r :
  Contains c ":" = false → SplitN (c +:+ ":" +:+ r) ":" 2 = [c; r].
Proof.
  intros Hc. unfold SplitN. rewrite !to_bytes_app. cbn [split_n].
  destruct (cut (to_bytes ":") _) as [[x y]|] eqn:E.
  - cut (x = to_bytes c ∧ y = to_bytes r); [intros [-> ->]; cbn; by rewrite !of_to_bytes|].
    pose proof (cut_first _ _ _ _ _ _ E eq_refl) as Hlen. apply cut_Some in E.
    apply app_eq_inv in E as [(k & Hk1 & Hk2)|(k & Hk1 & Hk2)].
    + destruct k as [|a k]; [rewrite app_nil_r in Hk1; subst x; by injection Hk2 as <-|].
      cbn in Hk2. injection Hk2 as <- Hk2. apply not_true_iff_false in Hc. destruct Hc.
      apply Contains_spec. exists (of_bytes x), (of_bytes k). apply (inj to_bytes).
      rewrite !to_bytes_app, !to_of_bytes. exact Hk1.
    + rewrite Hk1, length_app in Hlen. destruct k; [|simpl in Hlen; lia].
      rewrite app_nil_r in Hk1. subst x. by injection Hk2 as <-.
  - by apply (cut_None _ _ (to_bytes c) (to_bytes r)) in E.
Qed.

Definition no_colon (a : ascii) : bool := negb (bool_decide (a = ":"%char)).

Lemma pretty_N_go_no_colon (x : N) (s : string) :
  forallb no_colon (to_bytes s) = true → forallb no_colon (to_bytes (pretty_N_go x s)) = true.
Proof.
  revert s. induction (N.lt_wf_0 x) as [x _ IH]; intros s Hs. destruct (decide (0 < x)%N).
  - rewrite pretty_N_go_step by done. apply IH; [apply N.div_lt; lia|].
    change (no_colon (pretty_N_char (x mod 10)%N) && forallb no_colon (to_bytes s) = true).
    rewrite Hs, andb_true_r. unfold pretty_N_char. by repeat case_match.
  - replace x with 0%N by lia. by rewrite pretty_N_go_0.
Qed.

Lemma pretty_no_colon (z : Z) : Contains (pretty z) ":" = false.
Proof.
  assert (Hall : forallb no_colon (to_bytes (pretty z)) = true).
  { destruct z as [|p|p]; [done|by apply pretty_N_go_no_colon|].
    change (forallb no_colon (to_bytes (pretty_N_go (N.pos p) "")) = true).
    by apply pretty_N_go_no_colon. }
  apply not_true_iff_false. intros (a & b & Hab)%Contains_spec.
  rewrite Hab, !to_bytes_app, !forallb_app in Hall. simpl in Hall. by rewrite andb_false_r in Hall.
Qed.

(** The member names the nanosecond at which the request read the clock. *)
Lemma member_inj (T T' : Z) :
  pretty (T / 1000)%Z +:+ ":" +:+ pretty (T mod 1000000)%Z =
  pretty (T' / 1000)%Z +:+ ":" +:+ pretty (T' mod 1000000)%Z → T = T'.
Proof.
  intros Heq. apply (f_equal (λ s, SplitN s ":" 2)) in Heq.
  rewrite !split_first_colon in Heq by apply pretty_no_colon.
  injection Heq as H1%(inj pretty) H2%(inj pretty).
  assert (Hm : ∀ z, (z mod 1000000 mod 1000 = z mod 1000)%Z).
  { intros z. apply Z.mod_mod_divide. by exists 1000%Z. }
  pose proof (Hm T) as HT. pose proof (Hm T') as HT'. rewrite H2 in HT.
  rewrite (Z.div_mod T 1000), (Z.div_mod T' 1000) by done. rewrite H1. congruence.
Qed.

Section sliding.
Context {S T : Type} `{SortedSetsLaws S} (keyPrefix : string) (fallback : option (LimiterBackend T)).
Context (key : LimiterKey) (limit : spec_float) (burst : Z) (lag : Z).

(** The window of the key, and its name. *)
Definition df_window : Z := window_micros (limit_or_default limit) (burst_or_default burst).
Definition df_key : string :=
  keyPrefix +:+ "rl:" +:+ (normalizeKey key).(ClientID) +:+ ":" +:+ (normalizeKey key).(Route).
Definition df_member (time : Z) : string := pretty (time / 1000)%Z +:+ ":" +:+ pretty (time mod 1000000)%Z.

(** The sets and the clock of the server, in microseconds; the times, in
    nanoseconds, that the requests the script has allowed read on the clock of
    their gateway; and when the key is due to expire. *)
Record WindowConfig := mkWindowConfig {
  wc_sets : S;
  wc_now : Z;
  wc_grants : gset Z;
  wc_deadline : option Z;
}.

(** The script answers: the connection is healthy and does not fail. *)
Definition answers (rb : Dragonfly S) : bool :=
  rb.(df_healthy) && negb (default false (head rb.(df_failures))).

Definition allowed (r : result Verdict) : bool :=
  match r with Ok v => v.(v_allowed) | Err _ => false end.

(** A request of any gateway, whose connection is in any state: it read its
    clock at most [lag] before its script runs, and may be overtaken by others
    meanwhile. A script that allows a request sets the expiry of the key. Once
    that is due the key may expire at any time. Scripts of other keys leave this
    one alone. *)
Inductive wstep (c : WindowConfig) : WindowConfig → Prop :=
| w_request now time rb t r rb' t' :
    (c.(wc_now) <= now)%Z → (now - lag <= time / 1000 <= now)%Z → rb.(df_sets) = c.(wc_sets) →
    DragonflyAllow keyPrefix fallback time key limit burst (rb, t) = (r, (rb', t')) →
    wstep c (if answers rb && allowed r
             then mkWindowConfig rb'.(df_sets) now ({[time]} ∪ c.(wc_grants))
                    (Some (now + 1000 * ttl_ms df_window)%Z)
             else mkWindowConfig rb'.(df_sets) now c.(wc_grants) c.(wc_deadline))
| w_expire now sets' d :
    (c.(wc_now) <= now)%Z → c.(wc_deadline) = Some d → (d <= now)%Z → zset sets' df_key = ∅ →
    wstep c (mkWindowConfig sets' now c.(wc_grants) None)
| w_others now sets' :
    (c.(wc_now) <= now)%Z → zset sets' df_key = zset c.(wc_sets) df_key →
    wstep c (mkWindowConfig sets' now c.(wc_grants) c.(wc_deadline)).

(** The requests allowed that read the clock after [a] and not after [b]. *)
Definition grants_in (a b : Z) (grants : gset Z) : gset Z :=
  filter (λ time, (a < time / 1000 <= b)%Z) grants.

(** Every grant that no script can have dropped yet has its entry. *)
Record window_ok (c : WindowConfig) : Prop := {
  wo_past : ∀ time, time ∈ c.(wc_grants) → (time / 1000 <= c.(wc_now))%Z;
  wo_entries : ∀ time, time ∈ c.(wc_grants) → (c.(wc_now) - df_window < time / 1000)%Z →
    zset c.(wc_sets) df_key !! df_member time = Some (time / 1000)%Z ∧
    ∃ d, c.(wc_deadline) = Some d ∧ (time / 1000 + df_window <= d)%Z;
  wo_bound : ∀ u, (Z.of_nat (size (grants_in (u - (df_window - lag)) u c.(wc_grants)))
                   <= burst_or_default burst)%Z;
}.

(** One run of [Allow], as the script sees it. *)
Lemma DragonflyAllow_cases time rb t r rb' t' :
  DragonflyAllow keyPrefix fallback time key limit burst (rb, t) = (r, (rb', t')) →
  let z := filter (λ p, (time / 1000 - df_window < p.2)%Z) (zset rb.(df_sets) df_key) in
  if answers rb then
    if allowed r then (Z.of_nat (size z) < burst_or_default burst)%Z ∧
      zset rb'.(df_sets) df_key = <[df_member time := (time / 1000)%Z]> z
    else zset rb'.(df_sets) df_key = z
  else zset rb'.(df_sets) df_key = zset rb.(df_sets) df_key.
Proof.
  unfold DragonflyAllow, answers, handleUnavailable. fold df_window df_key. cbv zeta.
  destruct rb as [sets [] fs]; simpl.
  2: { destruct fallback as [fb|]; [destruct (fb _ _ _ _ _)|]; intros; by simplify_eq. }
  destruct (default false (head fs)); simpl.
  { destruct fallback as [fb|]; [destruct (fb _ _ _ _ _)|]; intros; by simplify_eq. }
  fold df_key df_window (df_member time). unfold sliding_window. rewrite zset_card, zset_rem.
  destruct (Z.ltb_spec (Z.of_nat (size (filter (λ p, (time / 1000 - df_window < p.2)%Z) (zset sets df_key))))
    (burst_or_default burst)); intros; simplify_eq/=.
  - split; [done|]. by rewrite zset_expire, zset_add, zset_rem.
  - by rewrite zset_rem.
Qed.

(** A set of grants whose entries are all there is no larger than the set. *)
Lemma grants_size (g : gset Z) (z : gmap string Z) :
  (∀ time, time ∈ g → is_Some (z !! df_member time)) → size g <= size z.
Proof.
  intros Hg. rewrite <- (size_dom (D := gset string) z). unfold size, set_size. simpl.
  rewrite <- (length_fmap df_member (elements g)). apply submseteq_length, NoDup_submseteq.
  - apply NoDup_fmap_2_strong; [|apply NoDup_elements]. intros x y _ _. apply member_inj.
  - intros m (time & -> & Ht)%list_elem_of_fmap. apply elem_of_elements, elem_of_dom, Hg.
    by apply elem_of_elements.
Qed.

Lemma window_ok_later c now' sets' d' :
  (c.(wc_now) <= now')%Z → window_ok c →
  (∀ time, time ∈ c.(wc_grants) → (now' - df_window < time / 1000)%Z →
     zset c.(wc_sets) df_key !! df_member time = Some (time / 1000)%Z →
     (∃ d, c.(wc_deadline) = Some d ∧ (time / 1000 + df_window <= d)%Z) →
     zset sets' df_key !! df_member time = Some (time / 1000)%Z ∧
     ∃ d, d' = Some d ∧ (time / 1000 + df_window <= d)%Z) →
  window_ok (mkWindowConfig sets' now' c.(wc_grants) d').
Proof.
  intros Hnow [Hp He Hb] Hkeep. split; simpl; [| |exact Hb].
  - intros time Ht. specialize (Hp time Ht). lia.
  - intros time Ht Hlt. destruct (He time Ht) as [He1 He2]; [lia|]. by apply Hkeep.
Qed.

(** A request the script allows. *)
Lemma window_ok_granted c now time sets' :
  let z := filter (λ p, (time / 1000 - df_window < p.2)%Z) (zset c.(wc_sets) df_key) in
  (0 <= lag)%Z → (df_window <= 1000 * ttl_ms df_window)%Z →
  (c.(wc_now) <= now)%Z → (now - lag <= time / 1000 <= now)%Z → window_ok c →
  (Z.of_nat (size z) < burst_or_default burst)%Z →
  zset sets' df_key = <[df_member time := (time / 1000)%Z]> z →
  window_ok (mkWindowConfig sets' now ({[time]} ∪ c.(wc_grants)) (Some (now + 1000 * ttl_ms df_window)%Z)).
Proof.
  intros z Hlag Httl Hnow Htime [Hp He Hb] Hroom Hz.
  assert (Hin : ∀ g, g ∈ c.(wc_grants) → (now - df_window < g / 1000)%Z →
    z !! df_member g = Some (g / 1000)%Z).
  { intros g Hg Hlt. apply map_lookup_filter_Some. split; [apply He; [done|lia]|simpl; lia]. }
  split; simpl.
  - intros g [->%elem_of_singleton|Hg]%elem_of_union; [lia|]. specialize (Hp g Hg). lia.
  - intros g Hg Hlt. rewrite Hz. split.
    + destruct (decide (df_member g = df_member time)) as [Hm|Hm].
      * rewrite Hm, lookup_insert_eq. by apply member_inj in Hm as ->.
      * rewrite lookup_insert_ne by done. apply Hin; [|done].
        apply elem_of_union in Hg as [->%elem_of_singleton|]; [by destruct Hm|done].
    + eexists. split; [done|]. apply elem_of_union in Hg as [->%elem_of_singleton|Hg]; [lia|].
      specialize (Hp g Hg). lia.
  - intros u. destruct (decide (u - (df_window - lag) < time / 1000 <= u)%Z) as [Hu|Hu].
    + assert (Hsz : size (grants_in (u - (df_window - lag)) u c.(wc_grants)) <= size z).
      { apply grants_size. intros g [Hgu Hg]%elem_of_filter. exists (g / 1000)%Z. apply Hin; [done|lia]. }
      assert (Hadd : grants_in (u - (df_window - lag)) u ({[time]} ∪ c.(wc_grants))
        = {[time]} ∪ grants_in (u - (df_window - lag)) u c.(wc_grants))
        by (apply leibniz_equiv; unfold grants_in; set_solver).
      rewrite Hadd, size_union_alt, size_singleton.
      assert (size (grants_in (u - (df_window - lag)) u c.(wc_grants) ∖ {[time]})
        <= size (grants_in (u - (df_window - lag)) u c.(wc_grants))) by (apply subseteq_size; set_solver). lia.
    + replace (grants_in (u - (df_window - lag)) u ({[time]} ∪ c.(wc_grants)))
        with (grants_in (u - (df_window - lag)) u c.(wc_grants)); [apply Hb|].
      apply leibniz_equiv; unfold grants_in; set_solver.
Qed.

Lemma wstep_ok c c' :
  (0 <= lag)%Z → (df_window <= 1000 * ttl_ms df_window)%Z → wstep c c' → window_ok c → window_ok c'.
Proof.
  intros Hlag Httl Hstep Hok.
  destruct Hstep as [now time rb t r rb' t' Hnow Htime Hsets Hrun|now sets' d Hnow Hd Hdue Hz|now sets' Hnow Hz].
  - apply DragonflyAllow_cases in Hrun. cbv zeta in Hrun. rewrite Hsets in Hrun.
    destruct (answers rb); [destruct (allowed r)|]; simpl.
    + destruct Hrun as [Hroom Hz]. by apply (window_ok_granted c).
    + apply window_ok_later; [done..|]. intros g Hg Hlt Hl Hd. split; [|done]. rewrite Hrun.
      apply map_lookup_filter_Some. split; [done|simpl; lia].
    + apply window_ok_later; [done..|]. intros g Hg Hlt Hl Hd. by rewrite Hrun.
  - apply window_ok_later; [done..|]. intros g Hg Hlt _ (d' & Hd' & Hle). simplify_eq. lia.
  - apply window_ok_later; [done..|]. intros g Hg Hlt Hl Hd. by rewrite Hz.
Qed.

(** C18: The sliding window bounds the rate. Over any run of Allow on a key by
    any number of gateways with one clock, with connections that fail, with
    requests that overtake each other, and with expiry of the key: in a period shorter than
    the window by the lag, the requests that the script allowed read the clock
    at no more different nanoseconds than the burst. The lag is the longest time
    a request takes from reading its clock to the run of its script; when there
    is none, the period is the whole window. The time to live of the key must
    cover the window. (Requests that read the same nanosecond share one entry;
    those for which the script does not answer are decided by the fallback, and
    not counted.) *)
Theorem sliding_window_bound sets now c u :
  (0 <= lag)%Z → (df_window <= 1000 * ttl_ms df_window)%Z → zset sets df_key = ∅ →
  rtc wstep (mkWindowConfig sets now ∅ None) c →
  (Z.of_nat (size (grants_in (u - (df_window - lag)) u c.(wc_grants))) <= burst_or_default burst)%Z.
Proof.
  intros Hlag Httl Hempty Hrun. apply wo_bound.
  assert (Hinit : window_ok (mkWindowConfig sets now ∅ None)).
  { split; simpl; [set_solver..|]. intros v. unfold grants_in. rewrite filter_empty_L, size_empty by apply _.
    unfold burst_or_default, defaultRateBurst. destruct (Z.leb_spec burst 0); lia. }
  revert Hinit. induction Hrun as [|c c' c'' Hs _ IH]; [done|]. intros Hok. by eapply IH, wstep_ok.
Qed.

End sliding.

(** ** Windows on NATS *)

(** The documented behaviour of a bucket: [Get] answers the value and revision
    of the key; [Create] succeeds only for a key without a value; [Update] only
    with the last revision of the key; what they write gets a revision greater
    than any before. A call may also fail, and then changes nothing. *)
Class KeyValueLaws (S : Type) `{KeyValue S} := {
  kv_entry : S → string → option (option natsWindowEntry * Z);
  kv_last : S → string → Z;
  kv_revisions : ∀ s k v r, kv_entry s k = Some (v, r) → (0 < r <= kv_last s k)%Z;
  kv_get_state : ∀ k s, (kv_Get k s).2 = s;
  kv_get_ok : ∀ k s e, (kv_Get k s).1 = inr e → kv_entry s k = Some e;
  kv_get_missing : ∀ k s, (kv_Get k s).1 = inl ErrKeyNotFound → kv_entry s k = None;
  kv_create : ∀ k w s,
    match kv_Create k w s with
    | (Ok r, s') => kv_entry s k = None ∧ kv_entry s' k = Some (Some w, r) ∧
                    (kv_last s k < r)%Z ∧ kv_last s' k = r
    | (Err _, s') => kv_entry s' k = kv_entry s k ∧ kv_last s' k = kv_last s k
    end;
  kv_update : ∀ k w rev s,
    match kv_Update k w rev s with
    | (Ok r, s') => (∃ v, kv_entry s k = Some (v, rev)) ∧ kv_entry s' k = Some (Some w, r) ∧
                    (kv_last s k < r)%Z ∧ kv_last s' k = r
    | (Err _, s') => kv_entry s' k = kv_entry s k ∧ kv_last s' k = kv_last s k
    end;
}.

Section nats.
Context {S : Type} `{KeyValueLaws S}.

(** What a load that succeeds has seen. *)
Lemma loadWindow_cases k now W s w rev s' :
  loadWindow k now W s = (Ok (w, rev), s') →
  s' = s ∧ ((rev = 0 ∧ w = mkNatsWindowEntry 0 now ∧
              (kv_entry s k = None ∨ ∃ w0 r, kv_entry s k = Some (Some w0, r) ∧ W < now - w0.(WindowStart))) ∨
            kv_entry s k = Some (Some w, rev) ∧ now - w.(WindowStart) <= W)%Z.
Proof.
  unfold loadWindow. pose proof (kv_get_state k s) as Hst. pose proof (kv_get_ok k s) as Hok.
  pose proof (kv_get_missing k s) as Hmiss.
  destruct (kv_Get k s) as [[err|[[w0|] r]] s0]; simpl in *; subst s0; [| |done].
  - case_bool_decide; [|done]. intros [= <- <- <-]. subst. split; [done|]. left. auto.
  - destruct (Z.ltb_spec W (now - w0.(WindowStart))); intros [= <- <- <-]; (split; [done|]).
    + left. split_and!; [done..|]. right. eauto.
    + right. auto.
Qed.

Section race.
Context {T : Type} (fallback : option (LimiterBackend T)).
Context (key : LimiterKey) (limit : spec_float) (burst : Z).

Definition nats_key : string :=
  "rl." +:+ (normalizeKey key).(ClientID) +:+ "." +:+ (normalizeKey key).(Route).
Definition nats_window : Z := window_micros (limit_or_default limit) (burst_or_default burst).

(** Where a request is in [Allow]: about to load the window with some attempts
    left (with none, about to ask the fallback), or about to write what it
    loaded. *)
Inductive nats_pc :=
| NTry (attempts : nat)
| NLoaded (attempts : nat) (window : natsWindowEntry) (revision : Z).

(** The bucket and the fallback; the requests in [Allow], with the time they
    read; and since the key last had no value: the requests admitted by a
    compare-and-set, those given to the fallback, and those it admitted. *)
Record NatsConfig := mkNatsConfig {
  nc_store : S;
  nc_fallback : T;
  nc_requests : gmap nat (Z * nats_pc);
  nc_granted : Z;
  nc_handed : Z;
  nc_passed : Z;
}.

Definition allowed_count (r : result Verdict) : Z := if allowed r then 1 else 0.

(** A request goes from a call of the bucket to the next, interleaved with the
    others in any way. *)
Inductive nstep (c : NatsConfig) : NatsConfig → Prop :=
| n_begin i time :
    c.(nc_requests) !! i = None →
    nstep c (mkNatsConfig c.(nc_store) c.(nc_fallback)
      (<[i := (time, NTry natsCASMaxRetries)]> c.(nc_requests)) c.(nc_granted) c.(nc_handed) c.(nc_passed))
| n_load_fails i time n e s' :
    c.(nc_requests) !! i = Some (time, NTry (Datatypes.S n)) →
    loadWindow nats_key (time / 1000) nats_window c.(nc_store) = (Err e, s') →
    nstep c (mkNatsConfig s' c.(nc_fallback) (<[i := (time, NTry 0)]> c.(nc_requests))
      c.(nc_granted) c.(nc_handed) c.(nc_passed))
| n_full i time n w rev s' :
    c.(nc_requests) !! i = Some (time, NTry (Datatypes.S n)) →
    loadWindow nats_key (time / 1000) nats_window c.(nc_store) = (Ok (w, rev), s') →
    (burst_or_default burst <= w.(Count))%Z →
    nstep c (mkNatsConfig s' c.(nc_fallback) (delete i c.(nc_requests))
      c.(nc_granted) c.(nc_handed) c.(nc_passed))
| n_load i time n w rev s' :
    c.(nc_requests) !! i = Some (time, NTry (Datatypes.S n)) →
    loadWindow nats_key (time / 1000) nats_window c.(nc_store) = (Ok (w, rev), s') →
    (w.(Count) < burst_or_default burst)%Z →
    nstep c (mkNatsConfig s' c.(nc_fallback) (<[i := (time, NLoaded n w rev)]> c.(nc_requests))
      c.(nc_granted) c.(nc_handed) c.(nc_passed))
| n_written i time n w rev s' :
    c.(nc_requests) !! i = Some (time, NLoaded n w rev) →
    casWrite nats_key (mkNatsWindowEntry (w.(Count) + 1) w.(WindowStart)) rev c.(nc_store) = (true, s') →
    nstep c (mkNatsConfig s' c.(nc_fallback) (delete i c.(nc_requests))
      (c.(nc_granted) + 1) c.(nc_handed) c.(nc_passed))
| n_conflict i time n w rev s' :
    c.(nc_requests) !! i = Some (time, NLoaded n w rev) →
    casWrite nats_key (mkNatsWindowEntry (w.(Count) + 1) w.(WindowStart)) rev c.(nc_store) = (false, s') →
    nstep c (mkNatsConfig s' c.(nc_fallback) (<[i := (time, NTry n)]> c.(nc_requests))
      c.(nc_granted) c.(nc_handed) c.(nc_passed))
| n_hand i time r s' t' :
    c.(nc_requests) !! i = Some (time, NTry 0) →
    handleUnavailable fallback time key (limit_or_default limit) (burst_or_default burst)
      (c.(nc_store), c.(nc_fallback)) = (r, (s', t')) →
    nstep c (mkNatsConfig s' t' (delete i c.(nc_requests))
      c.(nc_granted) (c.(nc_handed) + 1) (c.(nc_passed) + allowed_count r))
| n_drop s' :
    kv_entry s' nats_key = None → kv_last s' nats_key = kv_last c.(nc_store) nats_key →
    nstep c (mkNatsConfig s' c.(nc_fallback) c.(nc_requests) 0 0 0).

Record nats_ok (c : NatsConfig) : Prop := {
  no_entry : match kv_entry c.(nc_store) nats_key with
             | Some (Some w, _) =>
                 c.(nc_granted) = w.(Count) ∧ (0 <= w.(Count) <= burst_or_default burst)%Z
             | Some (None, _) => False
             | None => c.(nc_granted) = 0%Z
             end;
  no_loaded : ∀ i time n w rev, c.(nc_requests) !! i = Some (time, NLoaded n w rev) →
    (0 <= w.(Count) < burst_or_default burst)%Z ∧
    (rev <= Z.max 0 (kv_last c.(nc_store) nats_key))%Z ∧
    (rev = 0%Z → w.(Count) = 0%Z) ∧
    ∀ v, kv_entry c.(nc_store) nats_key = Some (v, rev) → v = Some w;
  no_passed : (0 <= c.(nc_passed) <= c.(nc_handed))%Z;
}.

(** The requests of [c] that have loaded a window are those of [rs]. *)
Definition no_more_loaded (c : NatsConfig) (rs : gmap nat (Z * nats_pc)) : Prop :=
  ∀ i time n w rev, rs !! i = Some (time, NLoaded n w rev) →
    c.(nc_requests) !! i = Some (time, NLoaded n w rev).

Lemma no_more_delete c i : no_more_loaded c (delete i c.(nc_requests)).
Proof. intros j time n w rev [_ Hj]%lookup_delete_Some. done. Qed.
Lemma no_more_try c i time n : no_more_loaded c (<[i := (time, NTry n)]> c.(nc_requests)).
Proof. intros j time' n' w rev [[_ ?]|[_ Hj]]%lookup_insert_Some; done. Qed.

(** A write that replaced the entry leaves the loads of the other requests
    behind. *)
Lemma nats_ok_written c s' rs w r :
  nats_ok c → no_more_loaded c rs → kv_entry s' nats_key = Some (Some w, r) →
  kv_last s' nats_key = r → (kv_last c.(nc_store) nats_key < r)%Z →
  (0 <= w.(Count) <= burst_or_default burst)%Z →
  nats_ok (mkNatsConfig s' c.(nc_fallback) rs w.(Count) c.(nc_handed) c.(nc_passed)).
Proof.
  intros [_ Hl Hp] Hrs He Hlast Hlt Hcount. pose proof (kv_revisions _ _ _ _ He) as Hpos.
  split; simpl; rewrite ?He; [done| |done]. intros j time n w' rev Hj%Hrs.
  destruct (Hl j time n w' rev Hj) as (Hc & Hrev & Hz & _). split; [exact Hc|]. split; [lia|].
  split; [exact Hz|]. intros v [= _ ->]. lia.
Qed.

Lemma nats_ok_same c s' t' rs h p :
  nats_ok c → no_more_loaded c rs → kv_entry s' nats_key = kv_entry c.(nc_store) nats_key →
  kv_last s' nats_key = kv_last c.(nc_store) nats_key → (0 <= p <= h)%Z →
  nats_ok (mkNatsConfig s' t' rs c.(nc_granted) h p).
Proof.
  intros [He Hl _] Hrs Hent Hlast Hp. split; simpl; rewrite ?Hent, ?Hlast; [done| |done].
  intros j time n w rev Hj%Hrs. by apply (Hl j time n).
Qed.

Lemma loadWindow_state s k now W r s' : loadWindow k now W s = (r, s') → s' = s.
Proof.
  unfold loadWindow. pose proof (kv_get_state k s) as Hst.
  destruct (kv_Get k s) as [[err|[[w0|] r0]] s0]; simpl in *; subst s0; repeat case_match;
    intros; by simplify_eq.
Qed.

(** A load whose window has room. *)
Lemma nats_ok_loaded c i time n w rev :
  nats_ok c → loadWindow nats_key (time / 1000) nats_window c.(nc_store) = (Ok (w, rev), c.(nc_store)) →
  (w.(Count) < burst_or_default burst)%Z →
  nats_ok (mkNatsConfig c.(nc_store) c.(nc_fallback) (<[i := (time, NLoaded n w rev)]> c.(nc_requests))
    c.(nc_granted) c.(nc_handed) c.(nc_passed)).
Proof.
  intros [He Hl Hp] Hload Hlt. destruct (loadWindow_cases _ _ _ _ _ _ _ Hload) as [_ Hcase].
  split; simpl; [done| |done].
  intros j time' n' w' rev' [[<- [= <- <- <- <-]]|[_ Hj]]%lookup_insert_Some; [|by apply (Hl j time' n')].
  destruct Hcase as [(-> & -> & _)|[Hent _]].
  - simpl in *. split; [lia|]. split; [lia|]. split; [done|]. intros v Hv. apply kv_revisions in Hv. lia.
  - pose proof (kv_revisions _ _ _ _ Hent). rewrite Hent in *.
    split; [lia|]. split; [lia|]. split; [lia|congruence].
Qed.

Lemma nats_ok_cas c i time n w rev ok s' :
  nats_ok c → c.(nc_requests) !! i = Some (time, NLoaded n w rev) →
  casWrite nats_key (mkNatsWindowEntry (w.(Count) + 1) w.(WindowStart)) rev c.(nc_store) = (ok, s') →
  ∀ rs, no_more_loaded c rs →
  nats_ok (mkNatsConfig s' c.(nc_fallback) rs
    (if ok then c.(nc_granted) + 1 else c.(nc_granted))%Z c.(nc_handed) c.(nc_passed)).
Proof.
  intros Hok Hi Hw rs Hrs. unfold casWrite in Hw.
  destruct (no_loaded _ Hok i time n w rev Hi) as (Hc & Hrev & Hz & Hsame).
  pose proof (no_entry _ Hok) as He. pose proof (no_passed _ Hok) as Hp.
  set (w' := mkNatsWindowEntry (w.(Count) + 1) w.(WindowStart)) in *.
  assert (Hdone : ∀ r, c.(nc_granted) = w.(Count) → kv_entry s' nats_key = Some (Some w', r) →
    (kv_last c.(nc_store) nats_key < r)%Z → kv_last s' nats_key = r →
    nats_ok (mkNatsConfig s' c.(nc_fallback) rs (c.(nc_granted) + 1) c.(nc_handed) c.(nc_passed))).
  { intros r Hg Hent Hlt Hlast. rewrite Hg. apply (nats_ok_written c s' rs w' r); simpl; done || lia. }
  destruct (Z.eqb_spec rev 0) as [->|Hne].
  - pose proof (kv_create nats_key w' c.(nc_store)) as Hk.
    destruct (kv_Create _ _ _) as [[e|r] s1]; simplify_eq/=; [destruct Hk; by apply nats_ok_same|].
    destruct Hk as (Hnone & Hent & ? & ?). rewrite Hnone in He. apply (Hdone r); done || lia.
  - pose proof (kv_update nats_key w' rev c.(nc_store)) as Hk.
    destruct (kv_Update _ _ _ _) as [[e|r] s1]; simplify_eq/=; [destruct Hk; by apply nats_ok_same|].
    destruct Hk as ([v Hv] & Hent & ? & ?). rewrite (Hsame v Hv) in Hv. rewrite Hv in He.
    apply (Hdone r); done || lia.
Qed.

Lemma handleUnavailable_store time r (s s' : S) t t' :
  handleUnavailable fallback time key (limit_or_default limit) (burst_or_default burst) (s, t)
    = (r, (s', t')) → s' = s.
Proof.
  unfold handleUnavailable. destruct fallback as [fb|]; [destruct (fb _ _ _ _ _)|]; intros; by simplify_eq.
Qed.

Lemma nstep_ok c c' : nstep c c' → nats_ok c → nats_ok c'.
Proof.
  intros Hstep Hok. pose proof (no_passed _ Hok) as Hp. destruct Hstep.
  - by apply nats_ok_same; auto using no_more_try.
  - erewrite (loadWindow_state _ _ _ _ _ s') by eassumption. by apply nats_ok_same; auto using no_more_try.
  - erewrite (loadWindow_state _ _ _ _ _ s') by eassumption. by apply nats_ok_same; auto using no_more_delete.
  - assert (s' = c.(nc_store)) as -> by (by eapply loadWindow_state). by apply nats_ok_loaded.
  - by apply (nats_ok_cas c i time n w rev true); auto using no_more_delete.
  - by apply (nats_ok_cas c i time n w rev false); auto using no_more_try.
  - assert (s' = c.(nc_store)) as -> by (by eapply handleUnavailable_store).
    apply nats_ok_same; auto using no_more_delete. unfold allowed_count. destruct (allowed r); lia.
  - destruct Hok as [_ Hl _]. split; simpl; [by rewrite H1| |lia].
    intros i time n w rev Hi. destruct (Hl i time n w rev Hi) as (Hc & Hrev & Hz & _).
    split; [exact Hc|]. split; [by rewrite H2|]. split; [exact Hz|]. rewrite H1. discriminate.
Qed.

Lemma nsteps_ok c c' : rtc nstep c c' → nats_ok c → nats_ok c'.
Proof. induction 1; eauto using nstep_ok. Qed.

(** An [Allow] that is not disturbed is a run of these steps with its answer. *)
Theorem nats_allow_is_run n i time c r s' t' :
  c.(nc_requests) !! i = Some (time, NTry n) →
  nats_loop fallback n time key (limit_or_default limit) (burst_or_default burst) nats_key
    (time / 1000) nats_window (c.(nc_store), c.(nc_fallback)) = (r, (s', t')) →
  ∃ c', rtc nstep c c' ∧ c'.(nc_store) = s' ∧ c'.(nc_fallback) = t' ∧
    c'.(nc_requests) = delete i c.(nc_requests) ∧
    (c'.(nc_granted) + c'.(nc_passed) = c.(nc_granted) + c.(nc_passed) + allowed_count r)%Z.
Proof.
  revert c. induction n as [|n IH]; intros c Hi Hrun; cbn [nats_loop fst snd] in Hrun.
  { eexists. split; [eapply rtc_once, n_hand; eassumption|]. simpl. split_and!; [done..|lia]. }
  destruct (loadWindow nats_key (time / 1000) nats_window c.(nc_store)) as [[e|[w rev]] s1] eqn:Hload.
  - eexists. split.
    + eapply rtc_l; [eapply n_load_fails; eassumption|]. eapply rtc_once, n_hand.
      * apply lookup_insert_eq.
      * exact Hrun.
    + simpl. split_and!; [done..| |lia]. by rewrite delete_insert_eq || by rewrite delete_insert_delete.
  - destruct (Z.leb_spec (burst_or_default burst) w.(Count)) as [Hfull|Hroom].
    { simplify_eq. eexists. split; [eapply rtc_once, n_full; eassumption|]. simpl.
      split_and!; [done..|unfold allowed_count; simpl; lia]. }
    destruct (casWrite _ _ _ s1) as [[] s2] eqn:Hw.
    + simplify_eq. eexists. split.
      * eapply rtc_l; [eapply n_load; eassumption|]. eapply rtc_once, n_written; [apply lookup_insert_eq|exact Hw].
      * simpl. split_and!; [done..| |unfold allowed_count; simpl; lia].
        by rewrite delete_insert_eq || by rewrite delete_insert_delete.
    + set (c0 := mkNatsConfig s1 c.(nc_fallback) (<[i := (time, NLoaded n w rev)]> c.(nc_requests))
        c.(nc_granted) c.(nc_handed) c.(nc_passed)).
      set (c1 := mkNatsConfig s2 c.(nc_fallback) (<[i := (time, NTry n)]> c0.(nc_requests))
        c.(nc_granted) c.(nc_handed) c.(nc_passed)).
      destruct (IH c1) as (c' & Hs & Hst & Hfb & Hrs & Hcount); [apply lookup_insert_eq|exact Hrun|].
      exists c'. split; [|split_and!; try done].
      * eapply rtc_l; [eapply n_load; eassumption|]. eapply rtc_l; [|exact Hs].
        apply (n_conflict c0 i time n w rev s2); [apply lookup_insert_eq|exact Hw].
      * rewrite Hrs. unfold c1. simpl. rewrite insert_insert_eq.
        by rewrite delete_insert_eq || by rewrite delete_insert_delete.
Qed.

(** C22: Any number of requests of any number of gateways run Allow on one key,
    their loads and compare-and-sets interleaved in any way, with calls of the
    bucket that fail. From when the key appears in the bucket until the bucket
    drops it, no more requests are admitted by a compare-and-set than the burst.
    A request that loses all its compare-and-sets, or whose load fails, is given
    to the fallback, and only those are admitted beyond that: together at most
    the burst and those given to the fallback. *)
Theorem nats_cas_bound s t c :
  kv_entry s nats_key = None → rtc nstep (mkNatsConfig s t ∅ 0 0 0) c →
  (0 <= c.(nc_granted) <= burst_or_default burst)%Z ∧
  (0 <= c.(nc_passed) <= c.(nc_handed))%Z ∧
  (c.(nc_granted) + c.(nc_passed) <= burst_or_default burst + c.(nc_handed))%Z.
Proof.
  intros Hnone Hrun.
  assert (Hinit : nats_ok (mkNatsConfig s t ∅ 0 0 0)) by (split; simpl; [by rewrite Hnone|done|done]).
  pose proof (nsteps_ok _ _ Hrun Hinit) as Hok. pose proof (no_passed _ Hok) as Hp.
  assert (Hb : (0 < burst_or_default burst)%Z).
  { unfold burst_or_default, defaultRateBurst. destruct (Z.leb_spec burst 0); lia. }
  pose proof (no_entry _ Hok) as He. destruct (kv_entry c.(nc_store) nats_key) as [[[w|] r]|]; [lia|done|lia].
Qed.

End race.

(** A pass over an expired window: the write is a [Create] of a key that has a
    value, and fails. *)
Lemma expired_pass {T} (fallback : option (LimiterBackend T)) n time key limit burst k now W s t w r :
  kv_entry s k = Some (Some w, r) → (W < now - w.(WindowStart))%Z → (0 < burst)%Z →
  ∃ s', kv_entry s' k = Some (Some w, r) ∧
    nats_loop fallback n time key limit burst k now W (s, t) =
    handleUnavailable fallback time key limit burst (s', t).
Proof.
  intros He Hexp Hb. revert s He. induction n as [|n IH]; intros s He; [by exists s|].
  cbn [nats_loop]. cbv beta. cbn [fst snd].
  destruct (loadWindow k now W s) as [[e|[w' rev]] s1] eqn:Hload.
  { exists s1. split; [|done]. unfold loadWindow in Hload. pose proof (kv_get_state k s) as Hst.
    destruct (kv_Get k s) as [[err|[[w0|] r0]] s0]; simpl in *; subst s0;
      repeat case_match; simplify_eq; done. }
  destruct (loadWindow_cases _ _ _ _ _ _ _ Hload) as [-> [(-> & -> & _)|[Hw Hle]]]; [|rewrite He in Hw].
  - cbn [Count WindowStart]. destruct (Z.leb_spec burst 0); [lia|]. unfold casWrite. simpl.
    pose proof (kv_create k (mkNatsWindowEntry 1 now) s) as Hk.
    change (0 + 1)%Z with 1%Z. destruct (kv_Create _ _ _) as [[e|r'] s2]; simpl.
    + apply IH. destruct Hk as [-> _]. done.
    + destruct Hk as [Hk _]. congruence.
  - simplify_eq. lia.
Qed.

(** Once the window of a key has expired, and until the bucket drops the
    key, the NATS backend no longer limits anything: it never gets to reset the
    window, all its attempts conflict, and every request is given to the
    fallback or, without one, allowed. *)
Theorem nats_expired_window_unlimited {T} (fallback : option (LimiterBackend T)) time key limit burst s t w r :
  let b := burst_or_default burst in
  let l := limit_or_default limit in
  let k := ("rl." +:+ (normalizeKey key).(ClientID) +:+ "." +:+ (normalizeKey key).(Route)) in
  kv_entry s k = Some (Some w, r) → (window_micros l b < time / 1000 - w.(WindowStart))%Z →
  ∃ s', kv_entry s' k = Some (Some w, r) ∧
    NATSAllow fallback time key limit burst (s, t) =
    match fallback with
    | Some fb => let '(v, t') := fb time key l b t in (v, (s', t'))
    | None => (inr (mkVerdict true b 0), (s', t))
    end.
Proof.
  intros b l k He Hexp. assert (Hb : (0 < b)%Z).
  { unfold b, burst_or_default, defaultRateBurst. destruct (Z.leb_spec burst 0); lia. }
  destruct (expired_pass fallback natsCASMaxRetries time key l b k (time / 1000) (window_micros l b)
    s t w r He Hexp Hb) as (s' & He' & Hrun).
  exists s'. split; [done|]. unfold NATSAllow. fold b l. cbv zeta. fold k. rewrite Hrun.
  unfold handleUnavailable. by destruct fallback as [fb|]; [destruct (fb _ _ _ _ _)|].
Qed.

End nats.

(** ** Keys in memory *)

(** The snapshot of the backend in memory, for the administrators, gives
    back the client and the route of a key when the client id has no colon.
    Otherwise it cuts the client id at its first colon: every SPIFFE client is
    shown as the client [spiffe]. *)
Theorem snapshot_client `{TokenBuckets} now key e :
  let k := normalizeKey key in
  let shown := snapshot_entry now (LimiterKey_String k) e in
  (Contains k.(ClientID) ":" = false →
     mkLimiterKey shown.(re_ClientID) shown.(re_Route) = k) ∧
  ∀ c rest, Contains c ":" = false → k.(ClientID) = c +:+ ":" +:+ rest →
    shown.(re_ClientID) = c ∧ shown.(re_Route) = rest +:+ ":" +:+ k.(Route).
Proof.
  intros k shown. unfold shown, snapshot_entry, LimiterKey_String. split.
  - intros Hc. rewrite split_first_colon by done. reflexivity.
  - intros c rest Hc Hk. rewrite Hk.
    replace ((c +:+ ":" +:+ rest) +:+ ":" +:+ k.(Route)) with (c +:+ ":" +:+ (rest +:+ ":" +:+ k.(Route)));
      [by rewrite split_first_colon|].
    apply (inj to_bytes). by rewrite !to_bytes_app, <- !app_assoc.
Qed.

(** ** Concrete stores *)

(** A step of a concrete run: to a configuration equal to the one the rule gives. *)
Lemma rtc_step_to {A} (R : relation A) x y y' z : R x y → y = y' → rtc R y' z → rtc R x z.
Proof. intros Hs <- Hr. by eapply rtc_l. Qed.

(** A bucket in memory: the values with the predecessors of their revisions,
    and the last sequence number. *)
Abbreviation Bucket := (gmap string (natsWindowEntry * nat) * nat)%type.

Definition bucket_last (b : Bucket) (k : string) : nat :=
  match b.1 !! k with Some (_, n) => Nat.max b.2 (S n) | None => b.2 end.

Definition bucket_write (k : string) (w : natsWindowEntry) (b : Bucket) : result Z * Bucket :=
  let n := bucket_last b k in (inr (Z.of_nat (S n)), (<[k := (w, n)]> b.1, S n)).

Definition bucket : KeyValue Bucket := {|
  kv_Get k b :=
    (match b.1 !! k with Some (w, n) => inr (Some w, Z.of_nat (S n)) | None => inl ErrKeyNotFound end, b);
  kv_Create k w b :=
    match b.1 !! k with Some _ => (inl (Opaque "nats: key exists"), b) | None => bucket_write k w b end;
  kv_Update k w rev b :=
    match b.1 !! k with
    | Some (_, n) =>
        if bool_decide (Z.of_nat (S n) = rev) then bucket_write k w b
        else (inl (Opaque "nats: wrong last sequence"), b)
    | None => (inl (Opaque "nats: wrong last sequence"), b)
    end;
|}.

Definition bucket_entry (b : Bucket) (k : string) : option (option natsWindowEntry * Z) :=
  match b.1 !! k with Some (w, n) => Some (Some w, Z.of_nat (S n)) | None => None end.

Section buckets.
#[local] Existing Instance bucket.

#[local] Program Instance bucket_laws : KeyValueLaws Bucket := {|
  kv_entry := bucket_entry;
  kv_last b k := Z.of_nat (bucket_last b k);
|}.
Next Obligation. intros s k v r. unfold bucket_entry, bucket_last. destruct (s.1 !! k) as [[w n]|]; [|done]. intros [= _ <-]. lia. Qed.
Next Obligation. done. Qed.
Next Obligation. intros k s e. unfold bucket_entry. simpl. destruct (s.1 !! k) as [[w n]|]; congruence. Qed.
Next Obligation. intros k s. unfold bucket_entry. simpl. by destruct (s.1 !! k) as [[w n]|]. Qed.
Next Obligation.
  intros k w s. unfold bucket_entry. simpl. destruct (s.1 !! k) as [[w0 n]|] eqn:E; [by rewrite E|]. simpl.
  unfold bucket_last. simpl. rewrite E, lookup_insert_eq. split_and!; [done|done|lia|lia].
Qed.
Next Obligation.
  intros k w rev s. unfold bucket_entry. simpl. destruct (s.1 !! k) as [[w0 n]|] eqn:E; [|by rewrite E].
  case_bool_decide as Hr; [|by rewrite E]. simpl.
  unfold bucket_last. simpl. rewrite E, lookup_insert_eq. split_and!; [|done|lia|lia].
  exists (Some w0). by subst.
Qed.

(** Two requests, on a key with a burst of one, load the same new window; the
    second write conflicts, and that request is refused when it tries again. A
    third, whose clock is past the window, loses three compare-and-sets, and is
    let through without a fallback. *)
Definition key_ab : LimiterKey := mkLimiterKey "a" "b".
Abbreviation ab_step := (nstep (S := Bucket) (T := ()) None key_ab (f_of_Z 10) 1).

Definition ab_raced : NatsConfig (S := Bucket) (T := ()) :=
  mkNatsConfig ({["rl.a.b" := (mkNatsWindowEntry 1 5, 0)]}, 1) () ∅ 1 1 1.

Definition bucket0 : Bucket := (∅, 0).
Definition bucket1 : Bucket := ({["rl.a.b" := (mkNatsWindowEntry 1 5, 0)]}, 1).

Definition ab_config (b : Bucket) (rs : gmap nat (Z * nats_pc)) (granted : Z) : NatsConfig :=
  mkNatsConfig b () rs granted 0 0.

Abbreviation ab_load := (loadWindow "rl.a.b").
Lemma ab_window : nats_window (f_of_Z 10) 1 = 100000%Z. Proof. reflexivity. Qed.
Lemma ab_load0 : ab_load (5000 / 1000) 100000 bucket0 = (inr (mkNatsWindowEntry 0 5, 0%Z), bucket0).
Proof. reflexivity. Qed.
Lemma ab_load1 : ab_load (5000 / 1000) 100000 bucket1 = (inr (mkNatsWindowEntry 1 5, 1%Z), bucket1).
Proof. reflexivity. Qed.
Lemma ab_load2 :
  ab_load (900000000 / 1000) 100000 bucket1 = (inr (mkNatsWindowEntry 0 900000, 0%Z), bucket1).
Proof. reflexivity. Qed.

Tactic Notation "ab_does" uconstr(s) uconstr(c) :=
  eapply (rtc_step_to _ _ _ c);
    [apply s; rewrite ?ab_window; solve [reflexivity | exact ab_load0 | exact ab_load1 | exact ab_load2
       | vm_compute; discriminate]|reflexivity|].

Lemma ab_raced_run : rtc ab_step (ab_config bucket0 ∅ 0) ab_raced.
Proof.
  set (t := 5000%Z). set (t' := 900000000%Z).
  set (w := mkNatsWindowEntry 0 5). set (w1 := mkNatsWindowEntry 1 5). set (w' := mkNatsWindowEntry 0 900000).
  ab_does (n_begin _ _ _ _ _ 0 t) (ab_config bucket0 {[0 := (t, NTry 3)]} 0).
  ab_does (n_begin _ _ _ _ _ 1 t) (ab_config bucket0 {[0 := (t, NTry 3); 1 := (t, NTry 3)]} 0).
  ab_does (n_load _ _ _ _ _ 0 t 2 w 0 bucket0)
    (ab_config bucket0 {[0 := (t, NLoaded 2 w 0); 1 := (t, NTry 3)]} 0).
  ab_does (n_load _ _ _ _ _ 1 t 2 w 0 bucket0)
    (ab_config bucket0 {[0 := (t, NLoaded 2 w 0); 1 := (t, NLoaded 2 w 0)]} 0).
  ab_does (n_written _ _ _ _ _ 1 t 2 w 0 bucket1) (ab_config bucket1 {[0 := (t, NLoaded 2 w 0)]} 1).
  ab_does (n_conflict _ _ _ _ _ 0 t 2 w 0 bucket1) (ab_config bucket1 {[0 := (t, NTry 2)]} 1).
  ab_does (n_full _ _ _ _ _ 0 t 1 w1 1 bucket1) (ab_config bucket1 ∅ 1).
  ab_does (n_begin _ _ _ _ _ 2 t') (ab_config bucket1 {[2 := (t', NTry 3)]} 1).
  ab_does (n_load _ _ _ _ _ 2 t' 2 w' 0 bucket1) (ab_config bucket1 {[2 := (t', NLoaded 2 w' 0)]} 1).
  ab_does (n_conflict _ _ _ _ _ 2 t' 2 w' 0 bucket1) (ab_config bucket1 {[2 := (t', NTry 2)]} 1).
  ab_does (n_load _ _ _ _ _ 2 t' 1 w' 0 bucket1) (ab_config bucket1 {[2 := (t', NLoaded 1 w' 0)]} 1).
  ab_does (n_conflict _ _ _ _ _ 2 t' 1 w' 0 bucket1) (ab_config bucket1 {[2 := (t', NTry 1)]} 1).
  ab_does (n_load _ _ _ _ _ 2 t' 0 w' 0 bucket1) (ab_config bucket1 {[2 := (t', NLoaded 0 w' 0)]} 1).
  ab_does (n_conflict _ _ _ _ _ 2 t' 0 w' 0 bucket1) (ab_config bucket1 {[2 := (t', NTry 0)]} 1).
  ab_does (n_hand _ _ _ _ _ 2 t' (inr (mkVerdict true 1 0)) bucket1 ()) ab_raced. apply rtc_refl.
Qed.

Lemma nats_cas_bound_witness :
  ab_raced.(nc_granted) = 1%Z ∧ ab_raced.(nc_handed) = 1%Z ∧
  (ab_raced.(nc_granted) + ab_raced.(nc_passed) <= 1 + ab_raced.(nc_handed))%Z.
Proof.
  split; [done|]. split; [done|].
  exact (proj2 (proj2 (nats_cas_bound None key_ab (f_of_Z 10) 1 bucket0 () ab_raced
    eq_refl ab_raced_run))).
Defined.

(** A window of two seconds, asked again a minute after. *)
Lemma nats_expired_window_unlimited_witness :
  ∃ s', NATSAllow (T := ()) None (60 * second) (mkLimiterKey "a" "b") f_zero 0
      (({["rl.a.b" := (mkNatsWindowEntry 20 0, 0)]}, 1) : Bucket, ()) = (inr (mkVerdict true 20 0), (s', ())).
Proof.
  destruct (nats_expired_window_unlimited (T := ()) None (60 * second) (mkLimiterKey "a" "b") f_zero 0
    (({["rl.a.b" := (mkNatsWindowEntry 20 0, 0)]}, 1) : Bucket) () (mkNatsWindowEntry 20 0) 1%Z)
    as (s' & _ & Hrun); [by vm_compute|by vm_compute|].
  exists s'. exact Hrun.
Defined.

End buckets.

(** Sorted sets in memory. *)
Abbreviation Sets := (gmap string (gmap string Z)).

Definition members (k : string) (s : Sets) : gmap string Z := default ∅ (s !! k).

Lemma members_insert k x (s : Sets) : members k (<[k := x]> s) = x.
Proof. unfold members. by rewrite lookup_insert_eq. Qed.

Definition sets : SortedSets Sets := {|
  zremrangebyscore k max s := <[k := filter (λ p, (max < p.2)%Z) (members k s)]> s;
  zcard k s := Z.of_nat (size (members k s));
  zadd k score m s := <[k := <[m := score]> (members k s)]> s;
  zfirst k s := foldr (λ p best,
    match best with Some q => if (p.2 <=? q.2)%Z then Some p else best | None => Some p end)
    None (map_to_list (members k s));
  pexpire _ _ s := s;
|}.

Section sets_laws.
#[local] Existing Instance sets.

#[local] Program Instance sets_laws : SortedSetsLaws Sets := {| zset s k := members k s |}.
Next Obligation. intros k max s. apply members_insert. Qed.
Next Obligation. done. Qed.
Next Obligation. intros k score m s. apply members_insert. Qed.
Next Obligation. done. Qed.

(** A burst of two in a window of a fifth of a second. Two requests are allowed;
    a third, read after they left the window; and a fourth, which read the clock
    three microseconds before the third and comes after it. The period from 2 to
    200002 microseconds, as long as the window, has three of them. *)
Abbreviation late_step :=
  (wstep (S := Sets) (T := ()) "mcpgw:" None key_ab f_zero 2 3).

Definition late_granted : WindowConfig (S := Sets) :=
  mkWindowConfig {["mcpgw:rl:a:b" := {["200005:5000" := 200005%Z; "200002:2000" := 200002%Z]}]}
    200005 {[3000; 4000; 200005000; 200002000]}%Z (Some 1200005)%Z.

Ltac late_request now time v z c :=
  eapply (rtc_step_to _ _ _ c); [eapply (w_request _ _ _ _ _ _ _ now time (mkDragonfly _ true []) ()
    (inr v) (mkDragonfly ({["mcpgw:rl:a:b" := z]} : Sets) true []) ());
    [cbn; lia|split; vm_compute; discriminate|reflexivity|reflexivity]|reflexivity|].

Lemma late_granted_run : rtc late_step (mkWindowConfig (∅ : Sets) 0 ∅ None) late_granted.
Proof.
  set (z1 := {["3:3000" := 3%Z]} : gmap string Z).
  set (z2 := {["3:3000" := 3%Z; "4:4000" := 4%Z]} : gmap string Z).
  set (z3 := {["200005:5000" := 200005%Z]} : gmap string Z).
  set (z4 := {["200005:5000" := 200005%Z; "200002:2000" := 200002%Z]} : gmap string Z).
  late_request 3%Z 3000%Z (mkVerdict true 1 0) z1
    (mkWindowConfig ({["mcpgw:rl:a:b" := z1]} : Sets) 3 {[3000]}%Z (Some 1000003)%Z).
  late_request 4%Z 4000%Z (mkVerdict true 0 0) z2
    (mkWindowConfig ({["mcpgw:rl:a:b" := z2]} : Sets) 4 {[3000; 4000]}%Z (Some 1000004)%Z).
  late_request 200005%Z 200005000%Z (mkVerdict true 1 0) z3
    (mkWindowConfig ({["mcpgw:rl:a:b" := z3]} : Sets) 200005 {[3000; 4000; 200005000]}%Z (Some 1200005)%Z).
  late_request 200005%Z 200002000%Z (mkVerdict true 0 0) z4 late_granted. apply rtc_refl.
Qed.

Lemma sliding_window_bound_witness :
  size (grants_in 2 200002 late_granted.(wc_grants)) = 3 ∧
  (Z.of_nat (size (grants_in (200002 - (df_window f_zero 2 - 3)) 200002 late_granted.(wc_grants))) <= 2)%Z.
Proof.
  split; [by vm_compute|].
  apply (sliding_window_bound "mcpgw:" (T := ()) None key_ab f_zero 2 3 (∅ : Sets) 0 late_granted 200002);
    [lia|by vm_compute|done|exact late_granted_run].
Defined.

End sets_laws.
