(* ===== verification/Regex.v ===== *)
(** * Regular expressions

    The part of Go's [regexp] the policy engine uses: an unanchored match of
    classes of runes, concatenation, alternation, repetition and ASCII word
    boundaries. [rx_match] is the executable matcher; [rmatch] says what it
    means for an expression to match a piece of a text, and the two agree. *)

From S2P Require Import Prelude GoStrings Encoding.

#[local] Open Scope string_scope.
#[local] Open Scope list_scope.
#[local] Open Scope nat_scope.

Inductive regex :=
| REps
| RClass (f : N → bool)
| RSeq (a b : regex)
| RAlt (a b : regex)
| RStar (a : regex)
| RWordBoundary.

(** [\[0-9A-Za-z_\]]. *)
Definition word_rune (c : N) : bool :=
  ((48 <=? c) && (c <=? 57) || (65 <=? c) && (c <=? 90) || (97 <=? c) && (c <=? 122) || (c =? 95))%N.

Definition starts_word (l : list N) : bool := match l with c :: _ => word_rune c | [] => false end.

(** [\b] between the runes [pre], the last first, and the runes [post]. *)
Definition boundary (pre post : list N) : bool := xorb (starts_word pre) (starts_word post).

(** ** Matching *)

Section star.
Context (body : (list N → list N → bool) → list N → list N → bool).

(** Repetition; every round consumes, so the length of the text is enough
    fuel. *)
Fixpoint star_loop (k : list N → list N → bool) (fuel : nat) (pre post : list N) : bool :=
  k pre post ||
  match fuel with
  | O => false
  | S fuel' =>
      body (λ pre' post', (length post' <? length post) && star_loop k fuel' pre' post') pre post
  end.

End star.

(** Whether [r] matches a prefix of [post], [pre] being behind it, and then [k]
    accepts. *)
Fixpoint rx (r : regex) (k : list N → list N → bool) (pre post : list N) : bool :=
  match r with
  | REps => k pre post
  | RClass f => match post with c :: post' => f c && k (c :: pre) post' | [] => false end
  | RSeq a b => rx a (rx b k) pre post
  | RAlt a b => rx a k pre post || rx b k pre post
  | RStar a => star_loop (rx a) k (length post) pre post
  | RWordBoundary => boundary pre post && k pre post
  end.

Fixpoint search (r : regex) (pre post : list N) : bool :=
  rx r (λ _ _, true) pre post ||
  match post with
  | [] => false
  | c :: post' => search r (c :: pre) post'
  end.

Definition rx_match (r : regex) (s : list N) : bool := search r [] s.

(** [MatchString]. *)
Definition MatchString (r : regex) (s : string) : bool := rx_match r (fst <$> runes (to_bytes s)).

(** ** Meaning *)

(** [r] matches the runes [w], between [pre], the last first, and [post]. *)
Inductive rmatch : regex → list N → list N → list N → Prop :=
| m_eps pre post : rmatch REps pre [] post
| m_class f c pre post : f c = true → rmatch (RClass f) pre [c] post
| m_seq a b pre w1 w2 post :
    rmatch a pre w1 (w2 ++ post) → rmatch b (reverse w1 ++ pre) w2 post →
    rmatch (RSeq a b) pre (w1 ++ w2) post
| m_alt_l a b pre w post : rmatch a pre w post → rmatch (RAlt a b) pre w post
| m_alt_r a b pre w post : rmatch b pre w post → rmatch (RAlt a b) pre w post
| m_star_nil a pre post : rmatch (RStar a) pre [] post
| m_star_cons a pre w1 w2 post :
    w1 ≠ [] → rmatch a pre w1 (w2 ++ post) → rmatch (RStar a) (reverse w1 ++ pre) w2 post →
    rmatch (RStar a) pre (w1 ++ w2) post
| m_boundary pre post : boundary pre post = true → rmatch RWordBoundary pre [] post.

(** Somewhere in the text. *)
Definition occurs_in (r : regex) (s : list N) : Prop :=
  ∃ a w b, s = a ++ w ++ b ∧ rmatch r (reverse a) w b.

Definition accepts (r : regex) (k : list N → list N → bool) (pre post : list N) : Prop :=
  ∃ w rest, post = w ++ rest ∧ rmatch r pre w rest ∧ k (reverse w ++ pre) rest = true.

Lemma accepts_seq a b k pre post :
  accepts (RSeq a b) k pre post ↔
  ∃ w rest, post = w ++ rest ∧ rmatch a pre w rest ∧ accepts b k (reverse w ++ pre) rest.
Proof.
  split.
  - intros (w & rest & -> & Hm & Hk). inversion Hm; subst.
    exists w1, (w2 ++ rest). rewrite <- app_assoc. split_and!; [done..|].
    exists w2, rest. split_and!; [done..|]. by rewrite app_assoc, <- reverse_app.
  - intros (w1 & rest1 & -> & Hm1 & w2 & rest & -> & Hm2 & Hk). exists (w1 ++ w2), rest.
    split_and!; [by rewrite <- app_assoc|by constructor|].
    by rewrite reverse_app, <- app_assoc.
Qed.

Lemma star_loop_spec a k fuel pre post :
  (∀ k pre post, rx a k pre post = true ↔ accepts a k pre post) → length post <= fuel →
  star_loop (rx a) k fuel pre post = true ↔ accepts (RStar a) k pre post.
Proof.
  intros IHa. revert pre post. induction fuel as [|fuel IH]; intros pre post Hlen.
  - destruct post; [|simpl in Hlen; lia]. simpl. rewrite orb_false_r. split.
    + intros Hk. exists [], []. split_and!; [done|constructor|done].
    + intros (w & rest & Hw & _ & Hk). by destruct w, rest.
  - cbn [star_loop]. rewrite orb_true_iff, IHa. split.
    + intros [Hk|(w & rest & -> & Hm & Hk)].
      { exists [], post. split_and!; [done|constructor|done]. }
      apply andb_true_iff in Hk as [Hlt%Nat.ltb_lt Hk]. rewrite length_app in *.
      apply IH in Hk as (w2 & rest2 & -> & Hm2 & Hk); [|lia]. exists (w ++ w2), rest2.
      split_and!; [by rewrite <- app_assoc| |by rewrite reverse_app, <- app_assoc].
      apply m_star_cons; [|done..]. intros ->. simpl in Hlt. lia.
    + intros (w & rest & -> & Hm & Hk). inversion Hm; subst; [by left|]. right.
      exists w1, (w2 ++ rest). rewrite <- app_assoc. split_and!; [done..|].
      apply andb_true_iff. split.
      { apply Nat.ltb_lt. rewrite !length_app. destruct w1; [done|simpl; lia]. }
      apply IH. { rewrite !length_app in *. destruct w1; [done|simpl in *; lia]. }
      exists w2, rest. split_and!; [done..|]. by rewrite reverse_app, <- app_assoc in Hk.
Qed.

Lemma rx_spec r k pre post : rx r k pre post = true ↔ accepts r k pre post.
Proof.
  revert k pre post. induction r as [|f|a IHa b IHb|a IHa b IHb|a IHa|]; intros k pre post; cbn [rx].
  - split; [intros Hk; exists [], post; split_and!; [done|constructor|done]|].
    intros (w & rest & -> & Hm & Hk). by inversion Hm; subst.
  - destruct post as [|c post]; (split; [|intros (w & rest & Hp & Hm & Hk); inversion Hm; subst; simplify_eq/=]).
    + done.
    + intros [Hf Hk]%andb_true_iff. exists [c], post. split_and!; [done|by constructor|done].
    + apply andb_true_iff. split; [done|exact Hk].
  - rewrite IHa, accepts_seq. unfold accepts at 1. by setoid_rewrite IHb.
  - rewrite orb_true_iff, IHa, IHb. split.
    + intros [(w & rest & ? & ? & ?)|(w & rest & ? & ? & ?)]; exists w, rest; split_and!; eauto using rmatch.
    + intros (w & rest & ? & Hm & ?). inversion Hm; subst; [left|right]; by exists w, rest.
  - by apply star_loop_spec.
  - rewrite andb_true_iff. split.
    + intros [Hb Hk]. exists [], post. split_and!; [done|by constructor|done].
    + intros (w & rest & -> & Hm & Hk). by inversion Hm; subst.
Qed.

Lemma search_spec r pre post :
  search r pre post = true ↔
  ∃ a w b, post = a ++ w ++ b ∧ rmatch r (reverse a ++ pre) w b.
Proof.
  revert pre. induction post as [|c post IH]; intros pre; cbn [search]; rewrite orb_true_iff, rx_spec.
  - split.
    + intros [(w & rest & Hp & Hm & _)|]; [|done]. exists [], w, rest. by split.
    + intros (a & w & b & Hp & Hm). symmetry in Hp. apply app_nil in Hp as [-> [-> ->]%app_nil].
      left. exists [], []. by split_and!.
  - rewrite IH. split.
    + intros [(w & rest & Hp & Hm & _)|(a & w & b & -> & Hm)].
      * exists [], w, rest. by split.
      * exists (c :: a), w, b. split; [done|]. by rewrite reverse_cons, <- app_assoc.
    + intros (a & w & b & Hp & Hm). destruct a as [|c' a]; simpl in Hp.
      * left. exists w, b. by split_and!.
      * right. simplify_eq. exists a, w, b. split; [done|]. by rewrite reverse_cons, <- app_assoc in Hm.
Qed.

Lemma rx_match_spec r s : rx_match r s = true ↔ occurs_in r s.
Proof. unfold rx_match, occurs_in. rewrite search_spec. by setoid_rewrite (right_id_L [] (++)). Qed.
