(* ===== verification/Policy.v ===== *)
(** * The policy engine: [internal/policy]

    Dangerous patterns ([dangerous.go]), the argument schema ([schema.go]), the
    audit of decisions ([audit.go]), the engine ([engine.go]) and its middleware
    ([middleware.go]). Arguments are what JSON decodes into, so the branches of
    the code for other Go types never run. *)

From S2P Require Import Prelude GoStrings Encoding GoFloat Types Store Json Classification Regex.

#[local] Open Scope string_scope.
#[local] Open Scope list_scope.
#[local] Open Scope nat_scope.
#[local] Open Scope go_scope.

(** ** Violations and decisions *)

Inductive ViolationType :=
| ViolationDenylist
| ViolationDangerousPattern
| ViolationSchemaViolation
| ViolationAllowlist
| ViolationDestructive.

Inductive ViolationSeverity := SeverityLow | SeverityMedium | SeverityHigh | SeverityCritical.

#[export] Instance ViolationType_eq_dec : EqDecision ViolationType.
Proof. solve_decision. Defined.

Record Violation := mkViolation {
  vi_Type : ViolationType;
  vi_Detail : string;
  vi_Severity : ViolationSeverity;
}.

Abbreviation args := (list (string * any)).

(** A JSON schema in a request: its text, and the object the text decodes to,
    [None] when it does not. *)
Record RawSchema := mkRawSchema { rs_text : string; rs_object : option args }.

Record PolicyRequest := mkPolicyRequest {
  pq_ToolName : string;
  pq_Arguments : args;
  pq_ClientID : string;
  pq_ProfileName : string;
  pq_Schema : RawSchema;
}.

Record PolicyDecision := mkPolicyDecision {
  pd_Allowed : bool;
  pd_Reason : string;
  pd_Violations : list Violation;
  pd_EnforcementMode : EnforcementMode;
}.

(** ** Dangerous patterns *)

(** Case folding of the ASCII letters: their other case, and the two other
    runes that fold to one, the Kelvin sign and the long s. *)
Definition fold_rune (c : N) : N :=
  (if (65 <=? c) && (c <=? 90) then c + 32
   else if c =? 8490 then 107
   else if c =? 383 then 115
   else c)%N.

(** A literal under [(?i)], written in lower case. *)
Fixpoint lits (l : bytes) : regex :=
  match l with
  | [] => REps
  | a :: l' => RSeq (RClass (λ c, (fold_rune c =? code a)%N)) (lits l')
  end.
Definition lit (s : string) : regex := lits (to_bytes s).

(** [\s], [\s*], [\s+], [.*]. *)
Definition space : regex :=
  RClass (λ c, (c =? 9) || (c =? 10) || (c =? 12) || (c =? 13) || (c =? 32))%N.
Definition spaces : regex := RStar space.
Definition spaces1 : regex := RSeq space spaces.
Definition anything : regex := RStar (RClass (λ c, negb (c =? 10)%N)).

Fixpoint rseq (l : list regex) : regex :=
  match l with [] => REps | r :: l' => RSeq r (rseq l') end.

(** [DefaultDangerousPatterns], each with its text. *)
Definition DefaultDangerousPatterns : list (string * regex) :=
  [("(?i)rm\s+-rf\s+/", rseq [lit "rm"; spaces1; lit "-rf"; spaces1; lit "/"]);
   ("(?i)\bsudo\s+", rseq [RWordBoundary; lit "sudo"; spaces1]);
   ("(?i);\s*(sh|bash)\b", rseq [lit ";"; spaces; RAlt (lit "sh") (lit "bash"); RWordBoundary]);
   ("(?i)curl.*\|\s*(sh|bash)", rseq [lit "curl"; anything; lit "|"; spaces; RAlt (lit "sh") (lit "bash")]);
   ("(?i)>(/dev/tcp|/dev/udp)", rseq [lit ">"; RAlt (lit "/dev/tcp") (lit "/dev/udp")]);
   ("(?i)chmod\s+777", rseq [lit "chmod"; spaces1; lit "777"]);
   ("(?i)eval\s*\(", rseq [lit "eval"; spaces; lit "("]);
   ("(?i)\bexec\b.*\bsh\b",
     rseq [RWordBoundary; lit "exec"; RWordBoundary; anything; RWordBoundary; lit "sh"; RWordBoundary])].

(** [collectStrings], on the values JSON decodes into. *)
Fixpoint collectStrings (value : any) : list string :=
  match value with
  | AStr s => [s]
  | AArr l => (fix go l := match l with [] => [] | x :: l' => collectStrings x ++ go l' end) l
  | AObj m => (fix go m := match m with [] => [] | (_, x) :: m' => collectStrings x ++ go m' end) m
  | _ => []
  end.

(** [CheckDangerous]. *)
Definition CheckDangerous (arguments : args) (patterns : list (string * regex)) : list Violation :=
  values ← (arguments ≫= λ p, collectStrings p.2);
  pattern ← patterns;
  if MatchString pattern.2 values
  then [mkViolation ViolationDangerousPattern ("dangerous pattern matched: " +:+ pattern.1) SeverityCritical]
  else [].

(** ** The argument schema *)

Definition schema_violation (detail : string) : Violation :=
  mkViolation ViolationSchemaViolation detail SeverityMedium.

(** [validateRequired]; [None] when the schema has no [required]. *)
Definition validateRequired (arguments : args) (requiredRaw : option any) : list Violation :=
  match requiredRaw with
  | Some (AArr required) =>
      item ← required;
      match item with
      | AStr field =>
          let name := TrimSpace field in
          if bool_decide (name = "") then []
          else
            match lookup_key arguments name with
            | Some _ => []
            | None => [schema_violation ("missing required argument: " +:+ name)]
            end
      | _ => []
      end
  | _ => []
  end.

(** [numericValue]: JSON numbers are [float64]. *)
Definition numericValue (value : any) : option spec_float :=
  match value with ANum f => Some f | _ => None end.

(** [number == math.Trunc(number)]. *)
Definition is_integral (f : spec_float) : bool :=
  match f with
  | S754_finite _ m e => if (0 <=? e)%Z then true else (Z.pos m mod 2 ^ (- e) =? 0)%Z
  | S754_zero _ | S754_infinity _ => true
  | S754_nan => false
  end.

(** [matchesJSONType]. *)
Definition matchesJSONType (value : any) (expectedType : string) : bool :=
  let t := TrimSpace expectedType in
  if bool_decide (t = "string") then match value with AStr _ => true | _ => false end
  else if bool_decide (t = "boolean") then match value with ABool _ => true | _ => false end
  else if bool_decide (t = "number") then match numericValue value with Some _ => true | None => false end
  else if bool_decide (t = "integer") then
    match numericValue value with Some f => is_integral f | None => false end
  else if bool_decide (t = "object") then match value with AObj _ => true | _ => false end
  else if bool_decide (t = "array") then match value with AArr _ => true | _ => false end
  else true.

(** [reflect.DeepEqual] on decoded values: numbers by [==], maps whatever the
    order of their entries. *)
Fixpoint deep_equal (v w : any) : bool :=
  match v, w with
  | ANil, ANil => true
  | ABool a, ABool b => Bool.eqb a b
  | ANum a, ANum b => SFeqb a b
  | AStr a, AStr b => bool_decide (a = b)
  | AArr l, AArr l' =>
      (fix go l l' :=
         match l, l' with
         | [], [] => true
         | x :: l, y :: l' => deep_equal x y && go l l'
         | _, _ => false
         end) l l'
  | AObj m, AObj m' =>
      (length m =? length m') &&
      (fix go m :=
         match m with
         | [] => true
         | (k, x) :: m =>
             match lookup_key m' k with Some y => deep_equal x y | None => false end && go m
         end) m
  | _, _ => false
  end.

(** [valueInEnum]. *)
Definition valueInEnum (value : any) (enumValues : list any) : bool :=
  existsb (λ candidate,
    deep_equal value candidate ||
    match numericValue value, numericValue candidate with
    | Some x, Some y => SFeqb x y
    | _, _ => false
    end ||
    match value, candidate with
    | AStr x, AStr y => bool_decide (x = y)
    | _, _ => false
    end) enumValues.

(** The checks of [validateProperties] on one argument. *)
Definition validate_property (name : string) (value : any) (prop : args) : list Violation :=
  match lookup_key prop "type" with
  | Some (AStr expectedType) =>
      if matchesJSONType value expectedType then []
      else [schema_violation ("argument " +:+ name +:+ " has wrong type, expected " +:+ expectedType)]
  | _ => []
  end ++
  match lookup_key prop "enum" with
  | Some (AArr ((_ :: _) as enumValues)) =>
      if valueInEnum value enumValues then []
      else [schema_violation ("argument " +:+ name +:+ " is not in enum")]
  | _ => []
  end.

(** [validateProperties]. *)
Definition validateProperties (arguments : args) (propertiesRaw : option any) : list Violation :=
  match propertiesRaw with
  | Some (AObj properties) =>
      p ← arguments;
      match lookup_key properties p.1 with
      | Some (AObj prop) => validate_property p.1 p.2 prop
      | _ => []
      end
  | _ => []
  end.

(** [ValidateArguments]; the text of a decoding error is left out of its
    violation. *)
Definition ValidateArguments (arguments : args) (schema : RawSchema) : list Violation :=
  let trimmed := TrimSpace schema.(rs_text) in
  if bool_decide (trimmed = "") || bool_decide (trimmed = "null") || bool_decide (trimmed = "{}") then []
  else
    match schema.(rs_object) with
    | None => [schema_violation "invalid schema"]
    | Some raw =>
        validateRequired arguments (lookup_key raw "required") ++
        validateProperties arguments (lookup_key raw "properties")
    end.

(** ** The audit of decisions *)

(** [isSensitiveKey]. *)
Definition isSensitiveKey (key : string) : bool :=
  negb (bool_decide (key = "")) &&
  (Contains key "password" || Contains key "secret" || Contains key "token" || HasSuffix key "key").

Section sanitize.
Context `{UnicodeTables}.

(** The key as [sanitizeValue] is given it. *)
Definition audit_key (k : string) : string := TrimSpace (ToLower k).

(** [sanitizeValue]. *)
Fixpoint sanitizeValue (key : string) (value : any) : any :=
  if isSensitiveKey key then AStr "[redacted]"
  else
    match value with
    | AObj m =>
        AObj ((fix go m :=
                 match m with [] => [] | (k, v) :: m' => (k, sanitizeValue (audit_key k) v) :: go m' end) m)
    | AArr l =>
        AArr ((fix go l := match l with [] => [] | x :: l' => sanitizeValue key x :: go l' end) l)
    | v => v
    end.

(** [sanitizeForAudit]. *)
Definition sanitizeForAudit (arguments : args) : args :=
  (λ p, (p.1, sanitizeValue (audit_key p.1) p.2)) <$> arguments.

End sanitize.

(** ** The engine *)

(** The audit entry of a decision. *)
Record PolicyAudit := mkPolicyAudit {
  pa_ClientID : string;
  pa_tool : string;
  pa_allowed : bool;
  pa_mode : EnforcementMode;
  pa_violations : list Violation;
  pa_arguments : args;
}.

(** A [PublishPolicyViolated] event. *)
Record PolicyEvent := mkPolicyEvent {
  pe_clientID : string;
  pe_toolName : string;
  pe_violations : list string;
  pe_decision : string;
}.

(** A profile in the map may be nil. *)
Record Engine := mkEngine {
  en_profiles : gmap string (option PolicyProfile);
  en_dangerousPatterns : list (string * regex);
  en_auditStore : bool;
  en_classificationStore : bool;
  en_publisher : bool;
}.

(** What an evaluation may change. The cache is there once a classification
    store is set. *)
Record PolicyWorld := mkPolicyWorld {
  pw_db : DB;
  pw_cache : option ClassificationCache;
  pw_audit : list PolicyAudit;
  pw_events : list PolicyEvent;
}.

Definition pw_set_db (db : DB) (w : PolicyWorld) : PolicyWorld :=
  mkPolicyWorld db w.(pw_cache) w.(pw_audit) w.(pw_events).
Definition pw_set_cache (c : option ClassificationCache) (w : PolicyWorld) : PolicyWorld :=
  mkPolicyWorld w.(pw_db) c w.(pw_audit) w.(pw_events).
Definition pw_add_audit (a : PolicyAudit) (w : PolicyWorld) : PolicyWorld :=
  mkPolicyWorld w.(pw_db) w.(pw_cache) (a :: w.(pw_audit)) w.(pw_events).
Definition pw_add_event (e : PolicyEvent) (w : PolicyWorld) : PolicyWorld :=
  mkPolicyWorld w.(pw_db) w.(pw_cache) w.(pw_audit) (e :: w.(pw_events)).

Definition default_profile : PolicyProfile := mkPolicyProfile "default" 0 0 [] [] ModeEnforce.

(** The profiles as [NewEngine] and [ReplaceProfiles] copy them, in the order Go
    ranges over the map. *)
Definition copy_profiles (profiles : list (string * option PolicyProfile)) :
    gmap string (option PolicyProfile) :=
  let copied := foldl (λ m p, <[TrimSpace p.1 := p.2]> m) ∅ profiles in
  match copied !! "default" with
  | Some _ => copied
  | None => <["default" := Some default_profile]> copied
  end.

(** [NewEngine]. *)
Definition NewEngine (profiles : list (string * option PolicyProfile)) (auditStore : bool) : Engine :=
  mkEngine (copy_profiles profiles) DefaultDangerousPatterns auditStore false false.

(** [ReplaceProfiles]. *)
Definition ReplaceProfiles (profiles : list (string * option PolicyProfile)) (e : Engine) : Engine :=
  mkEngine (copy_profiles profiles) e.(en_dangerousPatterns) e.(en_auditStore)
    e.(en_classificationStore) e.(en_publisher).

(** [SetAuditStore] and [SetViolationEventPublisher]: whether there is one. *)
Definition SetAuditStore (auditStore : bool) (e : Engine) : Engine :=
  mkEngine e.(en_profiles) e.(en_dangerousPatterns) auditStore e.(en_classificationStore) e.(en_publisher).
Definition SetViolationEventPublisher (publisher : bool) (e : Engine) : Engine :=
  mkEngine e.(en_profiles) e.(en_dangerousPatterns) e.(en_auditStore) e.(en_classificationStore) publisher.

(** [SetClassificationStore]. *)
Definition SetClassificationStore (e : Engine) (w : PolicyWorld) : Engine * PolicyWorld :=
  (mkEngine e.(en_profiles) e.(en_dangerousPatterns) e.(en_auditStore) true e.(en_publisher),
   pw_set_cache (Some (NewClassificationCache defaultClassificationCacheTTL)) w).

(** [contains]. *)
Definition contains (values : list string) (expected : string) : bool :=
  existsb (λ v, bool_decide (TrimSpace v = TrimSpace expected)) values.

(** [buildDecision]. *)
Definition buildDecision (violations : list Violation) (mode : EnforcementMode) : PolicyDecision :=
  let clean := match violations with [] => true | _ => false end in
  let audit := bool_decide (mode = ModeAudit) && negb clean in
  mkPolicyDecision (clean || audit)
    (if audit then "policy violations detected (audit mode)"
     else if clean then "allowed" else "policy violations detected")
    violations mode.

Section evaluate.
Context `{UnicodeTables}.
Context (e : Engine).

(** [resolveProfile]. *)
Definition resolve_profile (name : string) : PolicyProfile :=
  let profileName := TrimSpace name in
  match (if bool_decide (profileName = "") then None else mjoin (e.(en_profiles) !! profileName)) with
  | Some profile => profile
  | None => default default_profile (mjoin (e.(en_profiles) !! "default"))
  end.

(** [collectViolations]. *)
Definition collectViolations (profile : PolicyProfile) (toolName : string) (req : PolicyRequest) : list Violation :=
  (if negb (bool_decide (profile.(pp_ToolAllowlist) = [])) && negb (contains profile.(pp_ToolAllowlist) toolName)
   then [mkViolation ViolationAllowlist ("tool " +:+ Quote toolName +:+ " is not in allowlist") SeverityHigh] else []) ++
  (if contains profile.(pp_ToolDenylist) toolName
   then [mkViolation ViolationDenylist ("tool " +:+ Quote toolName +:+ " is in denylist") SeverityHigh] else []) ++
  CheckDangerous req.(pq_Arguments) e.(en_dangerousPatterns) ++
  ValidateArguments req.(pq_Arguments) req.(pq_Schema).

(** [LogDecision]: the insert may fail, and then there is no entry. *)
Definition LogDecision (req : PolicyRequest) (decision : PolicyDecision) : ST PolicyWorld () := λ w,
  if e.(en_auditStore) then
    let entry := mkPolicyAudit req.(pq_ClientID) req.(pq_ToolName) decision.(pd_Allowed)
                   decision.(pd_EnforcementMode) decision.(pd_Violations)
                   (sanitizeForAudit req.(pq_Arguments)) in
    match statement (ret ()) w.(pw_db) with
    | (Ok _, db) => (Ok (), pw_add_audit entry (pw_set_db db w))
    | (Err err, db) => (Err (Wrap "log policy decision" err), pw_set_db db w)
    end
  else (Ok (), w).

(** [resolveRiskLevel]. *)
Definition resolveRiskLevel (toolName : string) (w : PolicyWorld) : RiskLevel * PolicyWorld :=
  let now := w.(pw_db).(db_now) in
  let '(cached, w) :=
    match w.(pw_cache) with
    | Some cache => let '(c, cache) := CacheGet now cache toolName in (c, pw_set_cache (Some cache) w)
    | None => (None, w)
    end in
  match cached with
  | Some tc => (tc.(tc_RiskLevel), w)
  | None =>
      let '(r, db) := ClassificationGet toolName w.(pw_db) in
      let w := pw_set_db db w in
      match r with
      | Err _ => (RiskUnknown, w)
      | Ok None => ((AutoClassify toolName "").1, w)
      | Ok (Some tc) =>
          (tc.(tc_RiskLevel),
           match w.(pw_cache) with
           | Some cache => pw_set_cache (Some (CacheSet now cache toolName tc)) w
           | None => w
           end)
      end
  end.

Definition destructive_decision (toolName : string) : PolicyDecision :=
  mkPolicyDecision false "tool classified as destructive"
    [mkViolation ViolationDestructive ("tool " +:+ Quote toolName +:+ " is classified as destructive and is blocked")
       SeverityCritical] ModeEnforce.

(** [checkDestructiveRisk]. *)
Definition checkDestructiveRisk (toolName : string) (req : PolicyRequest) (w : PolicyWorld) :
    option PolicyDecision * PolicyWorld :=
  if negb e.(en_classificationStore) then (None, w)
  else
    let '(riskLevel, w) := resolveRiskLevel toolName w in
    if negb (bool_decide (riskLevel = RiskDestructive)) then (None, w)
    else
      let decision := destructive_decision toolName in
      (Some decision, (LogDecision req decision w).2).

(** [logAndPublishDecision]. *)
Definition logAndPublishDecision (req : PolicyRequest) (decision : PolicyDecision) (toolName : string)
    (violations : list Violation) (w : PolicyWorld) : PolicyWorld :=
  let w := (LogDecision req decision w).2 in
  match violations with
  | [] => w
  | _ =>
      if e.(en_publisher) then
        pw_add_event (mkPolicyEvent req.(pq_ClientID) toolName (vi_Detail <$> violations)
          (if decision.(pd_Allowed) then "allowed" else "denied")) w
      else w
  end.

(** [Evaluate]; it has no error once there is an engine. *)
Definition Evaluate (req : PolicyRequest) (w : PolicyWorld) : PolicyDecision * PolicyWorld :=
  let toolName := TrimSpace req.(pq_ToolName) in
  match checkDestructiveRisk toolName req w with
  | (Some decision, w) => (decision, w)
  | (None, w) =>
      let profile := resolve_profile req.(pq_ProfileName) in
      let mode :=
        if bool_decide (profile.(pp_EnforcementMode) = ModeRaw "") then ModeEnforce
        else profile.(pp_EnforcementMode) in
      let violations := collectViolations profile toolName req in
      let decision := buildDecision violations mode in
      (decision, logAndPublishDecision req decision toolName violations w)
  end.

End evaluate.

(** ** The middleware *)

(** The JSON-RPC envelope of a request body. *)
Record Envelope := mkEnvelope {
  ev_Method : string;
  ev_Name : string;
  ev_Arguments : args;
  ev_Schema : RawSchema;
  ev_InputSchema : RawSchema;
}.

(** [parsePolicyRequest]; the body is [None] when it does not decode. *)
Definition parsePolicyRequest (body : option Envelope) (id : option Identity) : option PolicyRequest :=
  match body with
  | None => None
  | Some envelope =>
      if negb (bool_decide (TrimSpace envelope.(ev_Method) = "tools/call")) then None
      else
        let clientID :=
          match id with
          | Some id => if bool_decide (TrimSpace id.(id_ID) = "") then "anonymous" else TrimSpace id.(id_ID)
          | None => "anonymous"
          end in
        let profile :=
          match id with
          | Some id =>
              let p := TrimSpace (metadata id "policy_profile") in
              if bool_decide (p = "") then "default" else p
          | None => "default"
          end in
        let schema :=
          if bool_decide (envelope.(ev_Schema).(rs_text) = "") then envelope.(ev_InputSchema)
          else envelope.(ev_Schema) in
        Some (mkPolicyRequest (TrimSpace envelope.(ev_Name)) envelope.(ev_Arguments) clientID profile schema)
  end.

(** What the middleware does: hand the request on, with the [X-Policy-Decision]
    header or without, or answer 403. *)
Inductive PolicyOutcome :=
| PassUnchecked
| PassAllowed
| DeniedFor (reason : option ViolationType).

Section middleware.
Context `{UnicodeTables}.

(** [policyEnforcer.serve]; without an engine or a body the request passes. *)
Definition policy_serve (engine : option Engine) (body : option Envelope) (id : option Identity)
    (w : PolicyWorld) : PolicyOutcome * PolicyWorld :=
  match engine with
  | None => (PassUnchecked, w)
  | Some e =>
      match parsePolicyRequest body id with
      | None => (PassUnchecked, w)
      | Some req =>
          let '(decision, w) := Evaluate e req w in
          if decision.(pd_Allowed) then (PassAllowed, w)
          else (DeniedFor (vi_Type <$> head decision.(pd_Violations)), w)
      end
  end.

End middleware.
