(* ===== verification/PolicyProps.v ===== *)
(** * Properties of the policy engine

    When a call is allowed, in terms of what its arguments contain and what the
    patterns mean; what blocks destructive tools, and when it does not; what the
    audit entries show of the arguments. *)

From S2P Require Import Prelude GoStrings Encoding GoFloat Types Store Json Classification Regex Policy.

#[local] Open Scope string_scope.
#[local] Open Scope list_scope.
#[local] Open Scope nat_scope.

(** ** Strings inside arguments *)

(** The string [s] occurs as a value in the value, at any depth. *)
Inductive within (s : string) : any → Prop :=
| within_str : within s (AStr s)
| within_arr l x : x ∈ l → within s x → within s (AArr l)
| within_obj m k x : (k, x) ∈ m → within s x → within s (AObj m).

Lemma collect_arr l : collectStrings (AArr l) = l ≫= collectStrings.
Proof. simpl. induction l as [|x l IH]; [done|]. rewrite bind_cons. by f_equal. Qed.

Lemma collect_obj m : collectStrings (AObj m) = m ≫= λ p, collectStrings p.2.
Proof. simpl. induction m as [|[k x] m IH]; [done|]. rewrite bind_cons. by f_equal. Qed.

Lemma elem_of_collect s v : s ∈ collectStrings v ↔ within s v.
Proof.
  induction v as [| | |t|l IH|m IH] using any_rect';
    try (split; [by intros ?%elem_of_nil|inversion 1]).
  - simpl. rewrite list_elem_of_singleton. split; [intros ->; constructor|by inversion 1].
  - rewrite collect_arr, list_elem_of_bind. rewrite Forall_forall in IH. split.
    + intros (x & Hs & Hx). apply (within_arr s l x); [done|by apply IH].
    + inversion 1 as [|? x Hx Hw|]; subst. exists x. split; [by apply IH|done].
  - rewrite collect_obj, list_elem_of_bind. rewrite Forall_forall in IH. split.
    + intros ([k x] & Hs & Hx). apply (within_obj s m k x); [done|by apply (IH (k, x))].
    + inversion 1 as [| |? k x Hx Hw]; subst. exists (k, x). split; [by apply (IH (k, x))|done].
Qed.

(** The text has a piece the pattern matches. *)
Definition dangerous (patterns : list (string * regex)) (s : string) : Prop :=
  ∃ p, p ∈ patterns ∧ occurs_in p.2 (fst <$> runes (to_bytes s)).

Lemma CheckDangerous_nil arguments patterns :
  CheckDangerous arguments patterns = [] ↔
  ∀ s, within s (AObj arguments) → ¬ dangerous patterns s.
Proof.
  unfold CheckDangerous. rewrite <- collect_obj. split.
  - intros Hnil s Hs%elem_of_collect (p & Hp & Ho).
    apply (not_elem_of_nil (mkViolation ViolationDangerousPattern
      ("dangerous pattern matched: " +:+ p.1) SeverityCritical)). rewrite <- Hnil.
    apply list_elem_of_bind. exists s. split; [|done]. apply list_elem_of_bind. exists p. split; [|done].
    rewrite (proj2 (rx_match_spec _ _) Ho : MatchString p.2 s = true). by left.
  - intros Hall. apply elem_of_nil_inv. intros v Hv.
    apply list_elem_of_bind in Hv as (s & Hv & Hs%elem_of_collect).
    apply list_elem_of_bind in Hv as (p & Hv & Hp). destruct (MatchString p.2 s) eqn:E.
    + apply (Hall s Hs). exists p. split; [done|]. by apply rx_match_spec.
    + by apply not_elem_of_nil in Hv.
Qed.

(** ** Argument schemas *)

(** The property schema accepts the value. *)
Definition property_ok (value : any) (prop : args) : Prop :=
  (∀ t, lookup_key prop "type" = Some (AStr t) → matchesJSONType value t = true) ∧
  (∀ x vs, lookup_key prop "enum" = Some (AArr (x :: vs)) → valueInEnum value (x :: vs) = true).

(** The arguments have what the schema requires, each of the right type and
    among its allowed values. *)
Definition schema_ok (arguments : args) (schema : RawSchema) : Prop :=
  TrimSpace schema.(rs_text) ∈ [""; "null"; "{}"] ∨
  ∃ raw, schema.(rs_object) = Some raw ∧
    (∀ required field, lookup_key raw "required" = Some (AArr required) → AStr field ∈ required →
       TrimSpace field ≠ "" → is_Some (lookup_key arguments (TrimSpace field))) ∧
    (∀ properties name value prop, lookup_key raw "properties" = Some (AObj properties) →
       (name, value) ∈ arguments → lookup_key properties name = Some (AObj prop) →
       property_ok value prop).

Lemma bind_nil {A B} (f : A → list B) l : l ≫= f = [] ↔ ∀ x, x ∈ l → f x = [].
Proof.
  induction l as [|x l IH]; [split; [by intros _ x ?%elem_of_nil|done]|].
  rewrite bind_cons, app_nil, IH. setoid_rewrite elem_of_cons. naive_solver.
Qed.

Lemma validate_property_nil name value prop :
  validate_property name value prop = [] ↔ property_ok value prop.
Proof.
  unfold validate_property, property_ok. rewrite app_nil. f_equiv.
  - destruct (lookup_key prop "type") as [[| | |t| |]|]; try (split; [intros _ ?; congruence|done]).
    destruct (matchesJSONType value t) eqn:E; split; try done; [congruence|].
    intros Hall. specialize (Hall t eq_refl). congruence.
  - destruct (lookup_key prop "enum") as [[| | | |[|x vs]|]|]; try (split; [intros _ ? ? ?; discriminate|done]).
    destruct (valueInEnum value (x :: vs)) eqn:E; split; try done.
    + intros _ x' vs' [= <- <-]. exact E.
    + intros Hall. specialize (Hall x vs eq_refl). congruence.
Qed.

Lemma validateRequired_nil arguments raw :
  validateRequired arguments raw = [] ↔
  ∀ required field, raw = Some (AArr required) → AStr field ∈ required → TrimSpace field ≠ "" →
    is_Some (lookup_key arguments (TrimSpace field)).
Proof.
  unfold validateRequired. destruct raw as [[| | | |required|]|]; try naive_solver. rewrite bind_nil. split.
  - intros Hall ? field [= <-] Hf Hne. specialize (Hall _ Hf). simpl in Hall.
    rewrite bool_decide_eq_false_2 in Hall by done. by destruct (lookup_key _ _); [eexists|].
  - intros Hall [| | |field| |] Hf; try done. case_bool_decide; [done|].
    destruct (Hall required field eq_refl Hf) as [v ->]; done.
Qed.

Lemma validateProperties_nil arguments raw :
  validateProperties arguments raw = [] ↔
  ∀ properties name value prop, raw = Some (AObj properties) → (name, value) ∈ arguments →
    lookup_key properties name = Some (AObj prop) → property_ok value prop.
Proof.
  unfold validateProperties. destruct raw as [[| | | | |properties]|]; try naive_solver. rewrite bind_nil. split.
  - intros Hall ? name value prop [= <-] Hin Hl. specialize (Hall _ Hin). simpl in Hall. rewrite Hl in Hall.
    by apply validate_property_nil in Hall.
  - intros Hall [name value] Hin. simpl. destruct (lookup_key properties name) as [[| | | | |prop]|] eqn:Hl; try done.
    apply validate_property_nil. by apply (Hall properties name value prop).
Qed.

Lemma ValidateArguments_nil arguments schema :
  ValidateArguments arguments schema = [] ↔ schema_ok arguments schema.
Proof.
  unfold ValidateArguments, schema_ok. set (t := TrimSpace schema.(rs_text)).
  destruct (bool_decide (t = "") || bool_decide (t = "null") || bool_decide (t = "{}")) eqn:E.
  - split; [intros _; left|done]. rewrite !orb_true_iff, !bool_decide_eq_true in E. set_solver.
  - rewrite !orb_false_iff, !bool_decide_eq_false in E. split.
    + destruct schema.(rs_object) as [raw|]; [|done]. intros [Hr Hp]%app_nil. right. exists raw.
      split; [done|]. split; [by apply validateRequired_nil|by apply validateProperties_nil].
    + intros [Ht|(raw & -> & Hr & Hp)]; [set_solver|]. apply app_nil.
      split; [by apply validateRequired_nil|by apply validateProperties_nil].
Qed.

(** ** Decisions *)

Lemma iff_and_true (P Q : Prop) : P → (Q ↔ P ∧ Q).
Proof. tauto. Qed.

Lemma contains_spec values tool :
  contains values tool = true ↔ ∃ v, v ∈ values ∧ TrimSpace v = TrimSpace tool.
Proof.
  unfold contains. rewrite existsb_exists. setoid_rewrite list_elem_of_In.
  by setoid_rewrite bool_decide_eq_true.
Qed.

Section decisions.
Context `{UnicodeTables}.

(** The call is within the profile: the tool is allowed and not denied, no
    string in the arguments has a dangerous piece, and the arguments fit the
    schema. *)
Definition compliant (e : Engine) (profile : PolicyProfile) (tool : string) (req : PolicyRequest) : Prop :=
  (profile.(pp_ToolAllowlist) = [] ∨ ∃ v, v ∈ profile.(pp_ToolAllowlist) ∧ TrimSpace v = tool) ∧
  (∀ v, v ∈ profile.(pp_ToolDenylist) → TrimSpace v ≠ tool) ∧
  (∀ s, within s (AObj req.(pq_Arguments)) → ¬ dangerous e.(en_dangerousPatterns) s) ∧
  schema_ok req.(pq_Arguments) req.(pq_Schema).

Lemma collectViolations_nil e profile name req :
  let tool := TrimSpace name in
  collectViolations e profile tool req = [] ↔ compliant e profile tool req.
Proof.
  intros tool. unfold collectViolations, compliant. rewrite !app_nil, CheckDangerous_nil, ValidateArguments_nil.
  assert (Ht : TrimSpace tool = tool) by apply TrimSpace_idemp. f_equiv; [|f_equiv].
  - case_bool_decide as Ha; simpl; [naive_solver|].
    destruct (contains _ tool) eqn:E; simpl.
    + apply contains_spec in E. rewrite Ht in E. naive_solver.
    + split; [done|]. intros [?|Hv]; [done|]. apply not_true_iff_false in E. destruct E.
      apply contains_spec. by rewrite Ht.
  - destruct (contains _ tool) eqn:E.
    + split; [done|]. intros Hd. apply contains_spec in E as (v & Hv & Heq). rewrite Ht in Heq.
      by destruct (Hd v Hv).
    + split; [|done]. intros _ v Hv Heq. apply not_true_iff_false in E. destruct E.
      apply contains_spec. exists v. by rewrite Ht.
Qed.

(** The mode a profile is evaluated in. *)
Definition mode_of (profile : PolicyProfile) : EnforcementMode :=
  if bool_decide (profile.(pp_EnforcementMode) = ModeRaw "") then ModeEnforce
  else profile.(pp_EnforcementMode).

Lemma buildDecision_allowed vs mode :
  (buildDecision vs mode).(pd_Allowed) = true ↔ mode = ModeAudit ∨ vs = [].
Proof.
  unfold buildDecision. simpl. destruct vs; simpl; [naive_solver|].
  rewrite andb_true_r, bool_decide_eq_true. naive_solver.
Qed.

(** The risk check does not touch the audit log, and fails no later statement. *)
Lemma resolveRiskLevel_frame tool w :
  let w' := (resolveRiskLevel tool w).2 in
  w'.(pw_audit) = w.(pw_audit) ∧ (w.(pw_db).(db_faults) = [] → w'.(pw_db).(db_faults) = []).
Proof.
  unfold resolveRiskLevel. generalize (AutoClassify tool "").1. intros auto.
  assert (Hget : ∀ db, db.(db_faults) = [] → (ClassificationGet tool db).2.(db_faults) = []).
  { intros db Hf. unfold ClassificationGet, wrap_error, statement. by rewrite Hf. }
  destruct w.(pw_cache) as [cache|] eqn:Hcache; [destruct (CacheGet _ _ _) as [[tc|] cache']; [by split|]|];
    cbn [pw_db pw_set_cache]; specialize (Hget w.(pw_db));
    destruct (ClassificationGet tool (pw_db w)) as [[err|[tc|]] db];
    cbn [snd pw_cache pw_set_db pw_set_cache]; rewrite ?Hcache; (split; [reflexivity|exact Hget]).
Qed.

Definition decision_entry (req : PolicyRequest) (d : PolicyDecision) : PolicyAudit :=
  mkPolicyAudit req.(pq_ClientID) req.(pq_ToolName) d.(pd_Allowed) d.(pd_EnforcementMode)
    d.(pd_Violations) (sanitizeForAudit req.(pq_Arguments)).

Lemma LogDecision_entry e req d w :
  e.(en_auditStore) = true → w.(pw_db).(db_faults) = [] →
  (LogDecision e req d w).2.(pw_audit) = decision_entry req d :: w.(pw_audit).
Proof. intros Ha Hf. unfold LogDecision, statement. by rewrite Ha, Hf. Qed.

(** C5: The decision of the engine, for every request and state. The call is
    allowed exactly when its tool was not found destructive and either the
    profile is in audit mode or the call is within the profile. A tool that was
    found destructive is so refused to everybody, an administrator included, and in
    the audit mode too: this is what the comments of the engine say, while
    [architecture.md] (lines 783 to 788) denies it only to others than
    administrators, and not at all in the audit mode. With a working audit store
    every decision leaves one entry, with its outcome and the sanitised arguments. *)
Theorem policy_decision e req w :
  let tool := TrimSpace req.(pq_ToolName) in
  let profile := resolve_profile e req.(pq_ProfileName) in
  let '(d, w') := Evaluate e req w in
  (d.(pd_Allowed) = true ↔
     ¬ (e.(en_classificationStore) = true ∧ (resolveRiskLevel tool w).1 = RiskDestructive) ∧
     (mode_of profile = ModeAudit ∨ compliant e profile tool req)) ∧
  (e.(en_auditStore) = true ∧ w.(pw_db).(db_faults) = [] →
     w'.(pw_audit) = decision_entry req d :: w.(pw_audit)).
Proof.
  intros tool profile. unfold Evaluate, checkDestructiveRisk. fold tool.
  pose proof (resolveRiskLevel_frame tool w) as [Hau Hfa].
  assert (Hmain : ∀ w1, w1.(pw_audit) = w.(pw_audit) →
    (w.(pw_db).(db_faults) = [] → w1.(pw_db).(db_faults) = []) →
    let vs := collectViolations e profile tool req in
    let d := buildDecision vs (mode_of profile) in
    (d.(pd_Allowed) = true ↔ mode_of profile = ModeAudit ∨ compliant e profile tool req) ∧
    (e.(en_auditStore) = true ∧ w.(pw_db).(db_faults) = [] →
     (logAndPublishDecision e req d tool vs w1).(pw_audit) = decision_entry req d :: w.(pw_audit))).
  { intros w1 Ha1 Hf1 vs d. split.
    { unfold d, vs. rewrite buildDecision_allowed.
      apply or_iff_compat_l. exact (collectViolations_nil e profile req.(pq_ToolName) req). }
    intros [He Hf]. unfold logAndPublishDecision. rewrite <- Ha1.
    pose proof (LogDecision_entry e req d w1 He (Hf1 Hf)) as Hl.
    destruct vs; [done|]. by destruct e.(en_publisher). }
  destruct e.(en_classificationStore) eqn:Hc; cbn [negb].
  2:{ destruct (Hmain w) as [H1 H2]; [done..|]. split; [|exact H2].
      apply (iff_trans H1), iff_and_true. intros [? _]. discriminate. }
  destruct (resolveRiskLevel tool w) as [risk w1] eqn:Hr. cbn [fst snd] in *.
  case_bool_decide as Hd; cbn [negb].
  - split; [|intros [He Hf]; rewrite <- Hau; by apply LogDecision_entry; [|apply Hfa] ].
    split; [discriminate|]. intros [Hn _]. by destruct Hn.
  - destruct (Hmain w1) as [H1 H2]; [done..|]. split; [|exact H2].
    apply (iff_trans H1), iff_and_true. intros [_ ?]. contradiction.
Qed.

(** The cache has no fresh entry for the tool. *)
Definition cache_misses (w : PolicyWorld) (tool : string) : Prop :=
  match w.(pw_cache) with
  | Some cache => (CacheGet w.(pw_db).(db_now) cache tool).1 = None
  | None => True
  end.

Lemma resolveRiskLevel_miss tool w :
  cache_misses w tool →
  (resolveRiskLevel tool w).1 =
  match (ClassificationGet tool w.(pw_db)).1 with
  | inl _ => RiskUnknown
  | inr None => (AutoClassify tool "").1
  | inr (Some tc) => tc.(tc_RiskLevel)
  end.
Proof.
  unfold cache_misses, resolveRiskLevel. generalize (AutoClassify tool "").1. intros auto.
  destruct w.(pw_cache) as [cache|]; [destruct (CacheGet _ _ _) as [c cache']; cbn [fst]; intros ->|intros _];
    cbn [pw_db pw_set_cache]; by destruct (ClassificationGet _ _) as [[err|[tc|]] db].
Qed.

Lemma checkDestructiveRisk_risk e tool req w :
  e.(en_classificationStore) = true →
  (checkDestructiveRisk e tool req w).1 =
  if bool_decide ((resolveRiskLevel tool w).1 = RiskDestructive) then Some (destructive_decision tool) else None.
Proof.
  intros Hc. unfold checkDestructiveRisk. rewrite Hc. cbn [negb].
  destruct (resolveRiskLevel tool w) as [risk w1]. cbn [fst]. by case_bool_decide.
Qed.

(** Destructive tools and the classification store. A tool that the store
    classifies as destructive, or that it does not know and whose name says so,
    is denied under every profile and in every mode. But when the lookup in the
    store fails, the risk is not known and the check is skipped: the decision
    is the one for a harmless tool, so in audit mode the destructive tool is
    allowed. *)
Theorem destructive_check e req w :
  let tool := TrimSpace req.(pq_ToolName) in
  let profile := resolve_profile e req.(pq_ProfileName) in
  e.(en_classificationStore) = true → cache_misses w tool →
  (w.(pw_db).(db_faults) = [] →
   match w.(pw_db).(db_classifications) !! tool with
   | Some tc => tc.(tc_RiskLevel)
   | None => (AutoClassify tool "").1
   end = RiskDestructive →
   (Evaluate e req w).1.(pd_Allowed) = false) ∧
  (head w.(pw_db).(db_faults) = Some true →
   (Evaluate e req w).1 = buildDecision (collectViolations e profile tool req) (mode_of profile)).
Proof.
  intros tool profile Hc Hm. pose proof (resolveRiskLevel_miss tool w Hm) as Hr.
  pose proof (checkDestructiveRisk_risk e tool req w Hc) as Hcheck.
  unfold Evaluate. fold tool profile.
  unfold ClassificationGet, wrap_error, statement in Hr. split.
  - intros Hf Hd. rewrite Hf in Hr. cbn [fst] in Hr.
    rewrite (TrimSpace_idemp req.(pq_ToolName) : TrimSpace tool = tool) in Hr.
    assert (Hr' : (resolveRiskLevel tool w).1 = RiskDestructive).
    { rewrite Hr, <- Hd. by destruct (_ !! tool). }
    rewrite bool_decide_eq_true_2 in Hcheck by done.
    destruct (checkDestructiveRisk e tool req w) as [[d|] w']; cbn [fst] in Hcheck; [|done].
    by injection Hcheck as ->.
  - intros Hf. destruct (db_faults (pw_db w)) as [|[] fs]; [done| |done]. cbn [fst] in Hr.
    rewrite Hr in Hcheck. rewrite bool_decide_eq_false_2 in Hcheck by done.
    by destruct (checkDestructiveRisk e tool req w) as [[d|] w'].
Qed.

(** ** What the audit shows *)

(** The value at a path of keys; the elements of an array are at its path. *)
Inductive at_path : any → list string → any → Prop :=
| at_here v : at_path v [] v
| at_elem l x p y : x ∈ l → at_path x p y → at_path (AArr l) p y
| at_key m k x p y : (k, x) ∈ m → at_path x p y → at_path (AObj m) (k :: p) y.

Definition scalar (v : any) : Prop := match v with AObj _ | AArr _ => False | _ => True end.
Definition sensitive (k : string) : bool := isSensitiveKey (audit_key k).
Definition redacted : any := AStr "[redacted]".

(** A value at a path is shown if no key on the path is sensitive; a sensitive
    key hides all there is below it. *)
Definition shown (v : any) (p : list string) (y : any) : Prop :=
  (Forall (λ k, sensitive k = false) p ∧ at_path v p y) ∨
  (y = redacted ∧ ∃ p' k x, p = p' ++ [k] ∧ Forall (λ k, sensitive k = false) p' ∧
     sensitive k = true ∧ at_path v p x).

Lemma sanitize_arr key l :
  isSensitiveKey key = false → sanitizeValue key (AArr l) = AArr (sanitizeValue key <$> l).
Proof. intros Hk. simpl. by rewrite Hk. Qed.

Lemma sanitize_obj key m :
  isSensitiveKey key = false →
  sanitizeValue key (AObj m) = AObj (sanitizeForAudit m).
Proof.
  intros Hk. simpl. rewrite Hk. f_equal. induction m as [|[k x] m IH]; [done|]. simpl. by f_equal.
Qed.

Lemma sanitize_sensitive key v : isSensitiveKey key = true → sanitizeValue key v = redacted.
Proof. intros Hk. by destruct v; simpl; rewrite Hk. Qed.

Lemma at_path_scalar v p y : scalar v → at_path v p y ↔ p = [] ∧ y = v.
Proof. intros Hs. split; [by destruct 1|intros [-> ->]; constructor]. Qed.

Lemma at_path_arr l p y : scalar y ∨ p ≠ [] → at_path (AArr l) p y ↔ ∃ x, x ∈ l ∧ at_path x p y.
Proof.
  intros Hs. split; [inversion 1; subst; [by destruct Hs|eauto]|]. intros (x & ? & ?). by eapply at_elem.
Qed.

Lemma at_path_obj m p y :
  scalar y ∨ p ≠ [] → at_path (AObj m) p y ↔ ∃ k x p', p = k :: p' ∧ (k, x) ∈ m ∧ at_path x p' y.
Proof.
  intros Hs. split; [inversion 1; subst; [by destruct Hs|eauto 10]|]. intros (k & x & p' & -> & ? & ?).
  by eapply at_key.
Qed.

Lemma shown_scalar v p y : scalar v → shown v p y ↔ p = [] ∧ y = v.
Proof.
  intros Hs. unfold shown. split.
  - intros [[_ Hat]|(_ & p' & k & x & -> & _ & _ & Hat)]; apply (at_path_scalar _ _ _ Hs) in Hat; [done|].
    by destruct Hat as [[_ ?]%app_nil _].
  - intros [-> ->]. left. split; constructor.
Qed.

Lemma shown_arr l p y : scalar y → shown (AArr l) p y ↔ ∃ x, x ∈ l ∧ shown x p y.
Proof.
  intros Hs. unfold shown. rewrite at_path_arr by (by left). split.
  - intros [(Hp & x & Hx & Hat)|(-> & p' & k & z & -> & Hp & Hk & Hat)]; [eauto|].
    apply at_path_arr in Hat as (x & Hx & Hat); [|right; by destruct p']. exists x. split; [done|].
    right. split; [done|]. exists p', k, z. by split_and!.
  - intros (x & Hx & [[Hp Hat]|(-> & p' & k & z & -> & Hp & Hk & Hat)]); [left; eauto|].
    right. split; [done|]. exists p', k, z. split_and!; [done..|]. by eapply at_elem.
Qed.

Lemma shown_obj m p y :
  scalar y →
  shown (AObj m) p y ↔
  ∃ k x p', p = k :: p' ∧ (k, x) ∈ m ∧
    if sensitive k then p' = [] ∧ y = redacted else shown x p' y.
Proof.
  intros Hs. unfold shown. rewrite at_path_obj by (by left). split.
  - intros [(Hp & k & x & p' & -> & Hx & Hat)|(-> & p' & k & z & -> & Hp & Hk & Hat)].
    + apply Forall_cons in Hp as [Hk Hp]. exists k, x, p'. split_and!; [done..|]. rewrite Hk. eauto.
    + apply at_path_obj in Hat as (k' & x & p1 & Heq & Hx & Hat); [|right; by destruct p'].
      exists k', x, p1. split_and!; [done..|]. destruct p' as [|k1 p']; simplify_eq/=.
      * by rewrite Hk.
      * apply Forall_cons in Hp as [Hk1 Hp]. rewrite Hk1. right. split; [done|]. exists p', k, z. by split_and!.
  - intros (k & x & p' & -> & Hx & Hrest). destruct (sensitive k) eqn:Hk.
    + destruct Hrest as [-> ->]. right. split; [done|]. exists [], k, x. split_and!; [done|constructor|done|].
      eapply at_key; [exact Hx|constructor].
    + destruct Hrest as [[Hp Hat]|(-> & p1 & k1 & z & -> & Hp & Hk1 & Hat)].
      * left. split; [by constructor|]. eauto 10.
      * right. split; [done|]. exists (k :: p1), k1, z. split_and!; [done|by constructor|done|].
        by eapply at_key.
Qed.

Lemma sanitize_shown v key p y :
  isSensitiveKey key = false → scalar y → at_path (sanitizeValue key v) p y ↔ shown v p y.
Proof.
  revert key p. induction v as [| | | |l IH|m IH] using any_rect'; intros key p Hk Hy;
    try (simpl; rewrite Hk, at_path_scalar, shown_scalar; done).
  - rewrite sanitize_arr, at_path_arr, shown_arr by (done || by left). rewrite Forall_forall in IH. split.
    + intros (x' & (x & -> & Hx)%list_elem_of_fmap & Hat). exists x. split; [done|]. by apply (IH x Hx key).
    + intros (x & Hx & Hsh). exists (sanitizeValue key x). split; [by apply list_elem_of_fmap_2|].
      by apply (IH x Hx key).
  - rewrite sanitize_obj, at_path_obj, shown_obj by (done || by left). rewrite Forall_forall in IH.
    assert (Hsub : ∀ k x p', (k, x) ∈ m → at_path (sanitizeValue (audit_key k) x) p' y ↔
      if sensitive k then p' = [] ∧ y = redacted else shown x p' y).
    { intros k x p' Hx. destruct (sensitive k) eqn:Hsk; [|by apply (IH (k, x) Hx)].
      by rewrite sanitize_sensitive, at_path_scalar. }
    split.
    + intros (k & x' & p' & -> & ([k0 x] & Heq & Hx)%list_elem_of_fmap & Hat). simplify_eq/=.
      exists k0, x, p'. split_and!; [done..|]. by apply Hsub.
    + intros (k & x & p' & -> & Hx & Hsh). exists k, (sanitizeValue (audit_key k) x), p'.
      split_and!; [done|by apply (list_elem_of_fmap_2 (λ p, (p.1, sanitizeValue (audit_key p.1) p.2)) m (k, x))|].
      by apply Hsub.
Qed.

(** The arguments in the audit log: every scalar under keys that are not
    sensitive is there unchanged, at every depth, and each value under a
    sensitive key, whatever it is, is one [\[redacted\]]; nothing else is. *)
Theorem sanitize_correct arguments p y :
  scalar y →
  at_path (AObj (sanitizeForAudit arguments)) p y ↔ shown (AObj arguments) p y.
Proof.
  intros Hy. rewrite <- (sanitize_obj "" arguments) by done. by apply sanitize_shown.
Qed.

End decisions.

(** ** Examples *)

Section witnesses.
#[local] Existing Instance ascii_tables.

Definition example_engine : Engine :=
  mkEngine (copy_profiles [("default", Some (mkPolicyProfile "default" 0 0 [] [] ModeAudit))])
    DefaultDangerousPatterns true true true.
Definition example_call (tool : string) (arguments : args) : PolicyRequest :=
  mkPolicyRequest tool arguments "c" "default" (mkRawSchema "" None).
Definition policy_start (faults : list bool) : PolicyWorld :=
  mkPolicyWorld (mkDB 0 ∅ ∅ faults 0) None [] [].

Example dangerous_ex :
  (λ s, vi_Detail <$> CheckDangerous [("cmd", AArr [AObj [("x", AStr s)]])] DefaultDangerousPatterns) <$>
    ["echo hi; RM  -rf /"; "xsudo ls"; "curl http://a | sh"; "exec a/sh"; "evaluate (x)"] =
  [["dangerous pattern matched: (?i)rm\s+-rf\s+/"]; [];
   ["dangerous pattern matched: (?i)curl.*\|\s*(sh|bash)"];
   ["dangerous pattern matched: (?i)\bexec\b.*\bsh\b"]; []].
Proof. by vm_compute. Qed.

Lemma destructive_check_witness :
  (Evaluate example_engine (example_call "delete_file" []) (policy_start [])).1.(pd_Allowed) = false ∧
  (Evaluate example_engine (example_call "delete_file" []) (policy_start [true])).1.(pd_Allowed) = true.
Proof.
  split.
  - apply (destructive_check example_engine (example_call "delete_file" []) (policy_start []));
      [done|done|done|by vm_compute].
  - rewrite (proj2 (destructive_check example_engine (example_call "delete_file" []) (policy_start [true])
      eq_refl I) eq_refl). by vm_compute.
Defined.

Lemma sanitize_correct_witness :
  let arguments := [("user", AObj [("API_Key", AStr "k"); ("names", AArr [AStr "n"])])] in
  at_path (AObj (sanitizeForAudit arguments)) ["user"; "API_Key"] redacted ∧
  ¬ at_path (AObj (sanitizeForAudit arguments)) ["user"; "API_Key"] (AStr "k").
Proof.
  intros arguments. split.
  - apply (sanitize_correct arguments); [done|]. right. split; [done|].
    exists ["user"], "API_Key", (AStr "k"). split_and!; [done|by repeat constructor|by vm_compute|].
    eapply at_key; [left|]. eapply at_key; [left|]. constructor.
  - intros Hat. apply (sanitize_correct arguments) in Hat; [|done].
    destruct Hat as [[Hp _]|[? _]]; [|done]. rewrite !Forall_cons in Hp.
    destruct Hp as (_ & Hp & _). vm_compute in Hp. done.
Defined.

End witnesses.
