(* ===== verification/AccessStore.v ===== *)
(** * API keys and users: [internal/store/apikey_store.go], [user_store.go]

    The tables [api_keys], [gateway_users] and [user_tool_permissions] of the
    migrations, and one function per method of their stores, with the semantics
    of its SQL statements: the unique keys, the foreign key with its cascade, the
    transaction of [SetToolPermissions], and the columns each statement writes.
    As in [Store], any statement can fail without effect, on a schedule. *)

From S2P Require Import Prelude GoStrings Types Store.

#[local] Open Scope string_scope.
#[local] Open Scope list_scope.
#[local] Open Scope nat_scope.
#[local] Open Scope go_scope.

Record AccessDB := mkAccessDB {
  ac_now : Z;
  ac_keys : gmap string APIKey;
  ac_users : gmap string User;
  ac_perms : gmap (string * string) UserToolPermission;
  ac_faults : list bool;
  ac_next : nat;
}.

Definition set_ac_now (t : Z) (db : AccessDB) : AccessDB :=
  mkAccessDB t db.(ac_keys) db.(ac_users) db.(ac_perms) db.(ac_faults) db.(ac_next).
Definition set_ac_keys (m : gmap string APIKey) (db : AccessDB) : AccessDB :=
  mkAccessDB db.(ac_now) m db.(ac_users) db.(ac_perms) db.(ac_faults) db.(ac_next).
Definition set_ac_users (m : gmap string User) (db : AccessDB) : AccessDB :=
  mkAccessDB db.(ac_now) db.(ac_keys) m db.(ac_perms) db.(ac_faults) db.(ac_next).
Definition set_ac_perms (m : gmap (string * string) UserToolPermission) (db : AccessDB) : AccessDB :=
  mkAccessDB db.(ac_now) db.(ac_keys) db.(ac_users) m db.(ac_faults) db.(ac_next).
Definition set_ac_faults (f : list bool) (db : AccessDB) : AccessDB :=
  mkAccessDB db.(ac_now) db.(ac_keys) db.(ac_users) db.(ac_perms) f db.(ac_next).
Definition set_ac_next (n : nat) (db : AccessDB) : AccessDB :=
  mkAccessDB db.(ac_now) db.(ac_keys) db.(ac_users) db.(ac_perms) db.(ac_faults) n.

(** One statement. *)
Definition exec {A} (f : ST AccessDB A) : ST AccessDB A := λ db,
  match db.(ac_faults) with
  | true :: fs => (Err (Opaque "connection failed"), set_ac_faults fs db)
  | false :: fs => f (set_ac_faults fs db)
  | [] => f db
  end.

(** [fmt.Errorf] with a context around the error of a statement. *)
Definition in_context {A} (ctx : string) (m : ST AccessDB A) : ST AccessDB A := λ db,
  match m db with
  | (Err e, db') => (Err (Wrap ctx e), db')
  | r => r
  end.

(** The first row that satisfies a test. *)
Definition find_row {K A} `{Countable K} (P : A → bool) (t : gmap K A) : option A :=
  snd <$> head (List.filter (λ p, P p.2) (map_to_list t)).

(** ** API keys *)

Section api_keys.
Context `{Postgres}.

(** The row with a lookup hash: the column is unique. *)
Definition find_key (t : gmap string APIKey) (hash : string) : option APIKey :=
  find_row (λ k, bool_decide (k.(ak_KeyLookupHash) = hash)) t.

(** [expires_at IS NULL OR expires_at > now()]. *)
Definition key_live (now : Z) (k : APIKey) : bool :=
  match k.(ak_ExpiresAt) with None => true | Some t => (now <? t)%Z end.

(** [Create]. The statement names neither [id] nor [created_at]. The slices of
    scopes are those its callers build, which are never nil. *)
Definition KeyCreate (key : APIKey) : ST AccessDB () :=
  in_context "api key store" (exec (λ db,
    match find_key db.(ac_keys) key.(ak_KeyLookupHash) with
    | Some _ => (Err (Opaque "duplicate key value violates unique constraint"), db)
    | None =>
        let id := gen_random_uuid db.(ac_next) in
        let profile := if bool_decide (key.(ak_PolicyProfile) = "") then "default" else key.(ak_PolicyProfile) in
        let row := mkAPIKey id key.(ak_KeyLookupHash) key.(ak_KeyBcryptHash) key.(ak_Name)
                     key.(ak_Scopes) key.(ak_ClientID) profile key.(ak_ServerScope)
                     key.(ak_ExpiresAt) db.(ac_now) in
        (Ok (), set_ac_next (S db.(ac_next)) (set_ac_keys (<[id := row]> db.(ac_keys)) db))
    end)).

(** [GetByLookupHash]. *)
Definition GetByLookupHash (lookupHash : string) : ST AccessDB APIKey :=
  in_context "api key store" (exec (λ db,
    match find_key db.(ac_keys) lookupHash with
    | Some k => if key_live db.(ac_now) k then (Ok k, db) else (Err ErrNoRows, db)
    | None => (Err ErrNoRows, db)
    end)).

Definition set_expires (t : option Z) (k : APIKey) : APIKey :=
  mkAPIKey k.(ak_ID) k.(ak_KeyLookupHash) k.(ak_KeyBcryptHash) k.(ak_Name) k.(ak_Scopes)
    k.(ak_ClientID) k.(ak_PolicyProfile) k.(ak_ServerScope) t k.(ak_CreatedAt).

(** [Revoke]: no error when there is no such row. *)
Definition Revoke (id : string) : ST AccessDB () :=
  in_context "api key store" (exec (λ db,
    match uuid_in id with
    | None => (Err (Opaque "invalid input syntax for type uuid"), db)
    | Some c => (Ok (), set_ac_keys (alter (set_expires (Some db.(ac_now))) c db.(ac_keys)) db)
    end)).

(** [expires_at IS NOT NULL AND expires_at < now()]. *)
Definition key_expired (now : Z) (k : APIKey) : bool :=
  match k.(ak_ExpiresAt) with None => false | Some t => (t <? now)%Z end.

(** [DeleteExpired]. *)
Definition DeleteExpired : ST AccessDB nat :=
  in_context "api key store" (exec (λ db,
    let kept := filter (λ p, key_expired db.(ac_now) p.2 = false) db.(ac_keys) in
    (Ok (size db.(ac_keys) - size kept), set_ac_keys kept db))).

End api_keys.

(** ** Users *)

(** The row with an OIDC subject: the column is unique. *)
Definition find_user (t : gmap string User) (sub : string) : option User :=
  find_row (λ u, bool_decide (u.(u_OIDCSub) = sub)) t.

(** [Upsert], at the Go clock's [now]: on a conflict of [oidc_sub] it updates the
    email, the name and the time only. *)
Definition UserUpsert (now : Z) (user : User) : ST AccessDB () :=
  in_context "user store: upsert" (exec (λ db,
    let id := if bool_decide (TrimSpace user.(u_ID) = "") then "auto" else TrimSpace user.(u_ID) in
    let role := if UserRole_IsValid user.(u_Role) then user.(u_Role) else RoleUser in
    let sub := TrimSpace user.(u_OIDCSub) in
    let email := TrimSpace user.(u_Email) in
    let name := TrimSpace user.(u_DisplayName) in
    match find_user db.(ac_users) sub with
    | Some u =>
        let row := mkUser u.(u_ID) u.(u_OIDCSub) email name u.(u_Role) u.(u_CreatedAt) now in
        (Ok (), set_ac_users (<[u.(u_ID) := row]> db.(ac_users)) db)
    | None =>
        match db.(ac_users) !! id with
        | Some _ => (Err (Opaque "duplicate key value violates unique constraint"), db)
        | None =>
            (Ok (), set_ac_users (<[id := mkUser id sub email name role now now]> db.(ac_users)) db)
        end
    end)).

(** [Get] of a user. *)
Definition UserGet (id : string) : ST AccessDB (option User) :=
  in_context "user store: get" (exec (λ db, (Ok (db.(ac_users) !! TrimSpace id), db))).

(** [GetByOIDCSub]. *)
Definition GetByOIDCSub (oidcSub : string) : ST AccessDB (option User) :=
  in_context "user store: get by oidc sub"
    (exec (λ db, (Ok (find_user db.(ac_users) (TrimSpace oidcSub)), db))).

Definition set_role (role : UserRole) (now : Z) (u : User) : User :=
  mkUser u.(u_ID) u.(u_OIDCSub) u.(u_Email) u.(u_DisplayName) role u.(u_CreatedAt) now.

(** [UpdateRole]. *)
Definition UpdateRole (now : Z) (id : string) (role : UserRole) : ST AccessDB () :=
  if UserRole_IsValid role then
    in_context "user store: update role" (exec (λ db,
      (Ok (), set_ac_users (alter (set_role role now) (TrimSpace id) db.(ac_users)) db)))
  else throw (Opaque "user store: update role: invalid role").

(** [Delete]: the permissions go with the user. *)
Definition UserDelete (id : string) : ST AccessDB () :=
  in_context "user store: delete" (exec (λ db,
    let id := TrimSpace id in
    (Ok (), set_ac_perms (filter (λ p, p.1.1 ≠ id) db.(ac_perms))
              (set_ac_users (delete id db.(ac_users)) db)))).

(** ** Tool permissions *)

(** [GetToolPermissions]; the collation that orders the rows is left open. *)
Definition GetToolPermissions (userID : string) : ST AccessDB (list UserToolPermission) :=
  in_context "user store: get tool permissions" (exec (λ db,
    (Ok (map_to_list (filter (λ p, p.1.1 = TrimSpace userID) db.(ac_perms))).*2, db))).

(** [HasToolPermission]. *)
Definition HasToolPermission (userID toolName : string) : ST AccessDB bool :=
  in_context "user store: has tool permission" (exec (λ db,
    (Ok (bool_decide (is_Some (db.(ac_perms) !! (TrimSpace userID, TrimSpace toolName)))), db))).

(** A transaction: a failure undoes its writes, and the schedule goes on. *)
Definition transaction {A} (m : ST AccessDB A) : ST AccessDB A := λ db,
  match m db with
  | (Err e, db') => (Err e, set_ac_faults db'.(ac_faults) db)
  | r => r
  end.

Definition delete_perms (uid : string) : ST AccessDB () := λ db,
  (Ok (), set_ac_perms (filter (λ p, p.1.1 ≠ uid) db.(ac_perms)) db).

(** The insert of [SetToolPermissions]: one row per name; the primary key refuses
    a name that occurs twice, the foreign key an unknown user. *)
Definition insert_perms (now : Z) (uid : string) (names : list string) (grantedBy : string) :
    ST AccessDB () := λ db,
  match db.(ac_users) !! uid with
  | None => (Err (Opaque "insert violates foreign key constraint"), db)
  | Some _ =>
      if bool_decide (NoDup names) then
        (Ok (), set_ac_perms
                  (foldl (λ m n, <[(uid, n) := mkUserToolPermission uid n grantedBy now]> m)
                     db.(ac_perms) names) db)
      else (Err (Opaque "duplicate key value violates unique constraint"), db)
  end.

(** [SetToolPermissions]; the begin and the commit can fail too. *)
Definition SetToolPermissions (now : Z) (userID : string) (toolNames : list string) (grantedBy : string) :
    ST AccessDB () :=
  let uid := TrimSpace userID in
  if bool_decide (uid = "") then throw (Opaque "user store: set tool permissions: user ID is empty")
  else
    transaction (
      in_context "user store: set tool permissions: begin tx" (exec (ret ())) ;;
      in_context "user store: set tool permissions: delete" (exec (delete_perms uid)) ;;
      (match toolNames with
       | [] => ret ()
       | _ => in_context "user store: set tool permissions: insert"
                (exec (insert_perms now uid (TrimSpace <$> toolNames) (TrimSpace grantedBy)))
       end) ;;
      in_context "user store: set tool permissions: commit" (exec (ret ()))).
