(* ===== verification/Auth.v ===== *)
(** * Authentication and API keys: [internal/auth], [internal/server/apikey_api.go]

    The scopes of callers ([rbac.go]), API keys ([apikey.go],
    [apikey_middleware.go]), OIDC tokens ([oidc.go], [oidc_middleware.go]), the
    dispatcher that chooses between them ([middleware.go]), the server scope of
    API keys ([server_scope.go]), and the endpoints that create and revoke keys.

    bcrypt and the OIDC token verifier are parameters, the first with the law its
    documentation states. A handler maps a request to the answer it writes, or to
    the identity and server scope it puts in the context of the next handler. *)

From S2P Require Import Prelude GoStrings Encoding GoParse Types Store AccessStore.

#[local] Open Scope string_scope.
#[local] Open Scope list_scope.
#[local] Open Scope nat_scope.
#[local] Open Scope go_scope.

(** ** Scopes of the caller *)

(** What a middleware does with a request: answer it, or hand it on. *)
Inductive GateVerdict := Refuse (code : Z) (message : string) | HandOn.

(** [RequireScope]. *)
Definition RequireScope (scope : string) (id : option Identity) : GateVerdict :=
  if HasScope id scope then HandOn else Refuse 403 "insufficient scope".

(** [RequireAnyScope]. *)
Definition RequireAnyScope (scopes : list string) (id : option Identity) : GateVerdict :=
  match scopes with
  | [] => HandOn
  | _ =>
      match id with
      | None => Refuse 403 "insufficient scope"
      | Some _ => if existsb (HasScope id) scopes then HandOn else Refuse 403 "insufficient scope"
      end
  end.

(** ** API keys *)

(** [golang.org/x/crypto/bcrypt]; the salt of a hash is drawn from the random
    source, here its [n]-th draw. *)
Class Bcrypt := {
  GenerateFromPassword : nat → bytes → Z → option bytes;
  CompareHashAndPassword : bytes → bytes → bool;
}.

Class BcryptLaws (B : Bcrypt) : Prop := {
  bcrypt_verifies n password cost hash :
    GenerateFromPassword n password cost = Some hash → CompareHashAndPassword hash password = true;
}.

Definition APIKeyPrefix : string := "mcpgw_".
Definition apiKeyBytes : nat := 32.
Definition bcryptCost : Z := 12.

(** [LookupHashAPIKey]. *)
Definition LookupHashAPIKey (plaintext : string) : string :=
  of_bytes (hex_encode (Sum256 (to_bytes plaintext))).

Section keys.
Context `{Bcrypt}.

(** [HashAPIKey]. *)
Definition HashAPIKey (salt : nat) (plaintext : string) : option string :=
  of_bytes <$> GenerateFromPassword salt (to_bytes plaintext) bcryptCost.

(** [VerifyAPIKey]. *)
Definition VerifyAPIKey (plaintext hash : string) : bool :=
  CompareHashAndPassword (to_bytes hash) (to_bytes plaintext).

(** [GenerateAPIKey]: the plaintext with its two hashes; [random] is what
    [rand.Read] fills the buffer of [apiKeyBytes] with. *)
Definition GenerateAPIKey (random : option bytes) (salt : nat) : option (string * string * string) :=
  match random with
  | None => None
  | Some randomBytes =>
      let plaintext := APIKeyPrefix +:+ of_bytes (base64url randomBytes) in
      match HashAPIKey salt plaintext with
      | None => None
      | Some bcryptHash => Some (plaintext, LookupHashAPIKey plaintext, bcryptHash)
      end
  end.

End keys.

(** [extractBearerToken]. *)
Definition extractBearerToken (header : string) : option string :=
  if negb (HasPrefix header "Bearer ") then None
  else
    let token := TrimSpace (TrimPrefix header "Bearer ") in
    if bool_decide (token = "") then None else Some token.

(** [extractAPIKey]. *)
Definition extractAPIKey (authHeader xAPIKey : string) : option string :=
  let from_x :=
    let x := TrimSpace xAPIKey in
    if bool_decide (x = "") || negb (HasPrefix x APIKeyPrefix) then None else Some x in
  if HasPrefix authHeader "Bearer " then
    let token := TrimSpace (TrimPrefix authHeader "Bearer ") in
    if negb (bool_decide (token = "")) && HasPrefix token APIKeyPrefix then Some token else from_x
  else from_x.

(** [isJWTToken]. *)
Definition isJWTToken (token : string) : bool :=
  if negb (Count token "." =? 2) then false
  else
    let parts := Split token "." in
    if negb (length parts =? 3) then false
    else forallb (λ part, negb (bool_decide (TrimSpace part = ""))) parts.

(** A request as the middlewares see it: its context and its two headers, empty
    when absent. *)
Record AuthRequest := mkAuthRequest {
  aq_Identity : option Identity;
  aq_ServerScope : list string;
  aq_Authorization : string;
  aq_XAPIKey : string;
}.

(** The answer, or the context of the next handler and whether a goroutine
    registers the user. *)
Inductive AuthOutcome :=
| AuthReject (code : Z) (message : string)
| AuthNext (id : Identity) (serverScope : list string) (register : bool).

Section middleware.
Context `{Bcrypt} `{Postgres}.

(** [lookupRecord]: every error answers alike. *)
Definition lookupRecord (key : string) : ST AccessDB APIKey := λ db,
  match GetByLookupHash (LookupHashAPIKey key) db with
  | (Err _, db') => (Err (Opaque "invalid api key"), db')
  | r => r
  end.

(** [verifyRecord], at the clock's [now]: the refusal, if any. *)
Definition verifyRecord (now : Z) (key : string) (record : APIKey) : option (Z * string) :=
  let lookupHash := LookupHashAPIKey key in
  if negb (bool_decide (record.(ak_KeyLookupHash) = ""))
     && negb (bool_decide (record.(ak_KeyLookupHash) = lookupHash)) then Some (401%Z, "invalid api key")
  else if negb (VerifyAPIKey key record.(ak_KeyBcryptHash)) then Some (401%Z, "invalid api key")
  else
    match record.(ak_ExpiresAt) with
    | Some t => if (t <? now)%Z then Some (403%Z, "api key is expired") else None
    | None => None
    end.

(** The identity [validate] builds from a record. *)
Definition key_identity (record : APIKey) : Identity :=
  let policyProfile :=
    if bool_decide (record.(ak_PolicyProfile) = "") then "default" else record.(ak_PolicyProfile) in
  mkIdentity IdentityAPIKey record.(ak_ClientID) record.(ak_Scopes)
    (<["auth_method" := "apikey"]> (<["policy_profile" := policyProfile]> ∅)).

(** [apiKeyValidator.validate]. *)
Definition validate (now : Z) (r : AuthRequest) (db : AccessDB) :
    (Z * string + Identity * list string) * AccessDB :=
  match extractAPIKey r.(aq_Authorization) r.(aq_XAPIKey) with
  | None => (inl (401%Z, "missing or invalid api key"), db)
  | Some key =>
      match lookupRecord key db with
      | (Err _, db) => (inl (401%Z, "invalid api key"), db)
      | (Ok record, db) =>
          match verifyRecord now key record with
          | Some refusal => (inl refusal, db)
          | None => (inr (key_identity record, record.(ak_ServerScope)), db)
          end
      end
  end.

(** [APIKeyMiddleware]: a non-empty server scope replaces that of the context. *)
Definition APIKeyMiddleware (now : Z) (r : AuthRequest) (db : AccessDB) : AuthOutcome * AccessDB :=
  match validate now r db with
  | (inl (code, msg), db) => (AuthReject code msg, db)
  | (inr (id, serverScope), db) =>
      (AuthNext id (match serverScope with [] => r.(aq_ServerScope) | _ => serverScope end) false, db)
  end.

End middleware.

(** ** OIDC tokens *)

Record oidcClaims := mkOidcClaims {
  cl_Subject : string;
  cl_Email : string;
  cl_Name : string;
  cl_PreferredUsername : string;
  cl_Groups : list string;
  cl_Scope : string;
}.

(** The verifier of [github.com/coreos/go-oidc]: the issuer of a valid token and
    the claims decoded from it. *)
Class OIDCVerifier := Verify : string → result (string * result oidcClaims).

(** [coalesce]. *)
Definition coalesce (values : list string) : string :=
  default "" (head (List.filter (λ v, negb (bool_decide (TrimSpace v = ""))) values)).

(** The loops of [mergeScopes]; [scopes] is in the order of appending. *)
Fixpoint merge_scopes (scopes l : list string) : list string :=
  match l with
  | [] => scopes
  | s :: l' =>
      let trimmed := TrimSpace s in
      merge_scopes
        (if bool_decide (trimmed = "") || bool_decide (trimmed ∈ scopes) then scopes
         else scopes ++ [trimmed]) l'
  end.

(** [mergeScopes]. *)
Definition mergeScopes (groups : list string) (scopeClaim : string) : list string :=
  merge_scopes (merge_scopes [] groups) (Fields scopeClaim).

(** [OIDCValidator.Validate], with a verifier. *)
Definition OIDCValidate `{OIDCVerifier} (rawToken : string) : result Identity :=
  if bool_decide (TrimSpace rawToken = "") then Err (Opaque "validate oidc token: token is required")
  else
    match Verify rawToken with
    | Err e => Err (Wrap "validate oidc token: verify token" e)
    | Ok (_, Err e) => Err (Wrap "validate oidc token: parse claims" e)
    | Ok (issuer, Ok claims) =>
        if bool_decide (TrimSpace claims.(cl_Subject) = "") then
          Err (Opaque "validate oidc token: subject claim is required")
        else
          Ok (mkIdentity IdentityOIDC claims.(cl_Subject) (mergeScopes claims.(cl_Groups) claims.(cl_Scope))
                (<["auth_method" := "oidc"]> (<["email" := claims.(cl_Email)]>
                (<["display_name" :=
                     coalesce [claims.(cl_Name); claims.(cl_PreferredUsername); claims.(cl_Email)]]>
                (<["issuer" := issuer]> ∅)))))
    end.

(** [OIDCMiddlewareWithUserStore]. *)
Definition OIDCMiddleware (validator : option OIDCVerifier) (userStore : bool) (r : AuthRequest) : AuthOutcome :=
  match extractBearerToken r.(aq_Authorization) with
  | None => AuthReject 401 "missing bearer token"
  | Some rawToken =>
      match validator with
      | None => AuthReject 401 "oidc validator is not configured"
      | Some V =>
          match OIDCValidate rawToken with
          | Err _ => AuthReject 401 "invalid oidc token"
          | Ok id => AuthNext id r.(aq_ServerScope) userStore
          end
      end
  end.

(** The audit entry of a registration: the subject and the email. *)
Record UserRegistered := mkUserRegistered { ur_sub : string; ur_email : string }.

(** [autoRegisterOIDCUser]. *)
Definition autoRegisterOIDCUser (now : Z) (id : Identity) (auditStore : bool) (db : AccessDB) :
    list UserRegistered * AccessDB :=
  let user := mkUser id.(id_ID) id.(id_ID) (metadata id "email") (metadata id "display_name")
                RoleUser zero_time zero_time in
  match UserUpsert now user db with
  | (Err _, db) => ([], db)
  | (Ok _, db) =>
      if auditStore then
        match exec (ret ()) db with
        | (Ok _, db) => ([mkUserRegistered id.(id_ID) (metadata id "email")], db)
        | (Err _, db) => ([], db)
        end
      else ([], db)
  end.

(** ** The dispatcher *)

(** [AuthOptions]: which stores there are, and the validator. *)
Record AuthOptions := mkAuthOptions {
  ao_APIKeyStore : bool;
  ao_OIDCValidator : option OIDCVerifier;
  ao_UserStore : bool;
}.

Section dispatch.
Context `{Bcrypt} `{Postgres} (opts : AuthOptions).

(** [handleXAPIKeyFallback]. *)
Definition handleXAPIKeyFallback (now : Z) (r : AuthRequest) (db : AccessDB) : AuthOutcome * AccessDB :=
  let xAPIKey := TrimSpace r.(aq_XAPIKey) in
  if bool_decide (xAPIKey = "") then (AuthReject 401 "missing authorization header", db)
  else if negb opts.(ao_APIKeyStore) then (AuthReject 401 "api key store is not configured", db)
  else
    APIKeyMiddleware now
      (mkAuthRequest r.(aq_Identity) r.(aq_ServerScope) ("Bearer " +:+ xAPIKey) r.(aq_XAPIKey)) db.

(** [handleBearerToken]. *)
Definition handleBearerToken (now : Z) (r : AuthRequest) (token : string) (db : AccessDB) :
    AuthOutcome * AccessDB :=
  if isJWTToken token then
    match opts.(ao_OIDCValidator) with
    | None => (AuthReject 401 "oidc validator is not configured", db)
    | Some V => (OIDCMiddleware (Some V) opts.(ao_UserStore) r, db)
    end
  else if negb opts.(ao_APIKeyStore) then (AuthReject 401 "api key store is not configured", db)
  else APIKeyMiddleware now r db.

(** [authDispatcher.serveHTTP], what [AuthMiddleware] installs. *)
Definition AuthMiddleware (now : Z) (r : AuthRequest) (db : AccessDB) : AuthOutcome * AccessDB :=
  match r.(aq_Identity) with
  | Some id => (AuthNext id r.(aq_ServerScope) false, db)
  | None =>
      match extractBearerToken r.(aq_Authorization) with
      | None => handleXAPIKeyFallback now r db
      | Some token => handleBearerToken now r token db
      end
  end.

End dispatch.

(** ** The server scope of API keys *)

Section scope.
Context `{UnicodeTables}.

(** [serverInScope]. *)
Definition serverInScope (serverName : string) (scope : list string) : bool :=
  let name := TrimSpace serverName in
  if bool_decide (name = "") then false
  else
    let stripped := TrimPrefix name "mcp-" in
    existsb (λ allowed, let a := TrimSpace allowed in EqualFold name a || EqualFold stripped a) scope.

(** [CheckServerScope], on the scope of the context. *)
Definition CheckServerScope (scope : list string) (serverName : string) : bool :=
  match scope with [] => true | _ => serverInScope serverName scope end.

(** [ServerScopeMiddleware]; [serverName] is the URL parameter, empty when the
    route has none. *)
Definition ServerScopeMiddleware (scope : list string) (serverName : string) : GateVerdict :=
  match scope with
  | [] => HandOn
  | _ =>
      let serverName := TrimSpace serverName in
      if negb (bool_decide (serverName = "")) && negb (serverInScope serverName scope)
      then Refuse 403 "server_scope" else HandOn
  end.

End scope.

(** ** The endpoints for API keys *)

Record createAPIKeyAPIRequest := mkCreateRequest {
  cr_Name : string;
  cr_Scopes : list string;
  cr_Expires : string;
  cr_ClientID : string;
  cr_Profile : string;
  cr_ServerScope : list string;
}.

(** The answers; times are kept as numbers instead of RFC 3339 text. *)
Record createAPIKeyAPIResponse := mkCreateResponse {
  ca_Record : APIKey;
  ca_APIKey : string;
}.

Inductive KeyAnswer :=
| KeyError (code : Z) (message : string)
| KeyCreated (resp : createAPIKeyAPIResponse)
| KeyRevoked (id : string).

(** [dedupeScopes]: the loop is that of [mergeScopes]. *)
Definition dedupeScopes (raw : list string) : list string := merge_scopes [] raw.

(** [parseAPIKeyExpiry], at [now]; [None] for an error. *)
Definition parseAPIKeyExpiry (now : Z) (raw : string) : option (option Z) :=
  let trimmed := TrimSpace raw in
  if bool_decide (trimmed = "") then Some None
  else
    let duration :=
      match CutSuffix trimmed "d" with
      | Some number =>
          match Atoi (TrimSpace number) with
          | Some days => if (days <=? 0)%Z then None else Some (wrap_i64 (wrap_i64 (days * 24) * (60 * minute)))
          | None => None
          end
      | None => ParseDuration trimmed
      end in
    match duration with
    | None => None
    | Some d => if (d <=? 0)%Z then None else Some (Some (now + d)%Z)
    end.

Section endpoints.
Context `{Bcrypt} `{Postgres}.

(** [handleCreate], on a decoded body; [None] when it does not decode. [random]
    and [salt] are the draws of [GenerateAPIKey]. *)
Definition handleCreate (now : Z) (random : option bytes) (salt : nat) (body : option createAPIKeyAPIRequest)
    (db : AccessDB) : KeyAnswer * AccessDB :=
  match body with
  | None => (KeyError 400 "invalid request body", db)
  | Some req =>
      let name := TrimSpace req.(cr_Name) in
      if bool_decide (name = "") then (KeyError 400 "name is required", db)
      else
        let scopes := match dedupeScopes req.(cr_Scopes) with [] => ["read"] | l => l end in
        let trimmed := TrimSpace req.(cr_Expires) in
        match (if bool_decide (trimmed = "") then Some None else parseAPIKeyExpiry now trimmed) with
        | None => (KeyError 400 "invalid expiry", db)
        | Some expiresAt =>
            match GenerateAPIKey random salt with
            | None => (KeyError 500 "failed to generate api key", db)
            | Some (plaintext, lookupHash, bcryptHash) =>
                let clientID :=
                  if bool_decide (TrimSpace req.(cr_ClientID) = "") then name else TrimSpace req.(cr_ClientID) in
                let profile :=
                  if bool_decide (TrimSpace req.(cr_Profile) = "") then "default" else TrimSpace req.(cr_Profile) in
                let record :=
                  mkAPIKey "" lookupHash bcryptHash name scopes clientID profile
                    (dedupeScopes req.(cr_ServerScope)) expiresAt zero_time in
                match KeyCreate record db with
                | (Err _, db) => (KeyError 500 "failed to create api key", db)
                | (Ok _, db) =>
                    let '(stored, db) := GetByLookupHash lookupHash db in
                    let record :=
                      match stored with
                      | Ok s =>
                          mkAPIKey s.(ak_ID) lookupHash bcryptHash name scopes clientID profile
                            (dedupeScopes req.(cr_ServerScope)) expiresAt s.(ak_CreatedAt)
                      | Err _ => record
                      end in
                    (KeyCreated (mkCreateResponse record plaintext), db)
                end
            end
        end
  end.

(** [handleRevoke]; [id] is the URL parameter. *)
Definition handleRevoke (id : string) (db : AccessDB) : KeyAnswer * AccessDB :=
  let id := TrimSpace id in
  if bool_decide (id = "") then (KeyError 400 "id is required", db)
  else
    match Revoke id db with
    | (Err _, db) => (KeyError 500 "failed to revoke api key", db)
    | (Ok _, db) => (KeyRevoked id, db)
    end.

End endpoints.
