(* ===== verification/AuthProps.v ===== *)
(** * Correctness of authentication

    - [auth_sound]: every request the dispatcher hands on was authenticated, and
      its context holds exactly what the credential grants.
    - [created_key_authenticates]: the round trip from the endpoint that creates
      a key to the middleware that accepts it.
    - [revoked_key_rejected]: a revoked key is refused for ever, whatever happens
      to the table afterwards.
    - [expiry_in_days]: which expiry a key gets, and the overflow for long ones.
    - [oidc_login_keeps_roles]: signing in never changes a role. *)

From S2P Require Import Prelude GoStrings Encoding GoParse Types Store AccessStore Auth.

#[local] Open Scope string_scope.
#[local] Open Scope list_scope.
#[local] Open Scope nat_scope.
#[local] Open Scope go_scope.
#[local] Opaque LookupHashAPIKey.

(** ** Rows *)

Section rows.
Context {K A} `{Countable K} (P : A → bool) (t : gmap K A).

Lemma find_row_Some a : find_row P t = Some a → ∃ k, t !! k = Some a ∧ P a = true.
Proof.
  unfold find_row. destruct (List.filter _ _) as [|[k b] l] eqn:E; [done|]. intros [= <-].
  assert (Hin : In (k, b) (List.filter (λ p, P p.2) (map_to_list t))) by (rewrite E; by left).
  apply List.filter_In in Hin as [Hin Hb]. exists k. split; [|done].
  by apply elem_of_map_to_list, list_elem_of_In.
Qed.

Lemma find_row_None k a : find_row P t = None → t !! k = Some a → P a = false.
Proof.
  unfold find_row. destruct (List.filter _ _) as [|[k' b] l] eqn:E; [|done]. intros _ Hk.
  destruct (P a) eqn:Ha; [|done]. exfalso.
  assert (Hin : In (k, a) (List.filter (λ p, P p.2) (map_to_list t))).
  { apply List.filter_In. split; [|done]. by apply list_elem_of_In, elem_of_map_to_list. }
  by rewrite E in Hin.
Qed.

(** The row found is the only one that passes the test. *)
Lemma find_row_unique k a :
  t !! k = Some a → P a = true → (∀ k' a', t !! k' = Some a' → P a' = true → a' = a) →
  find_row P t = Some a.
Proof.
  intros Hk Ha Huniq. destruct (find_row P t) as [b|] eqn:E.
  - apply find_row_Some in E as (k' & Hk' & Hb). by rewrite (Huniq k' b).
  - eapply find_row_None in E; [|done]. congruence.
Qed.
End rows.

Lemma find_key_Some t h k : find_key t h = Some k → ∃ i, t !! i = Some k ∧ k.(ak_KeyLookupHash) = h.
Proof. intros (i & Hi & Hk%bool_decide_eq_true)%find_row_Some. eauto. Qed.

Lemma find_key_None t h i k : find_key t h = None → t !! i = Some k → k.(ak_KeyLookupHash) ≠ h.
Proof. intros Hn Hi. eapply find_row_None in Hn; [|done]. by apply bool_decide_eq_false in Hn. Qed.

(** The table after an insert finds the inserted row. *)
Lemma find_key_insert t h i row :
  find_key t h = None → row.(ak_KeyLookupHash) = h → find_key (<[i := row]> t) h = Some row.
Proof.
  intros Hn Hh. apply (find_row_unique _ _ i); [by simplify_map_eq|by apply bool_decide_eq_true|].
  intros j k Hj Hk%bool_decide_eq_true. destruct (decide (i = j)) as [->|Hne]; simplify_map_eq; [done|].
  exfalso. by eapply (find_key_None t _ j k).
Qed.

(** ** Generated keys *)

Lemma to_bytes_cons a s : to_bytes (String a s) = a :: to_bytes s.
Proof. done. Qed.

Lemma url_char_graphic a : url_char a = true → graphic a = true ∧ a ≠ "."%char.
Proof.
  assert (Hf : Forall (λ n, url_char (ascii_of_nat n) = true →
    graphic (ascii_of_nat n) = true ∧ ascii_of_nat n ≠ "."%char) (seq 0 256)) by by_evaluation.
  rewrite Forall_forall in Hf. rewrite <- (ascii_nat_embedding a). apply Hf, elem_of_seq.
  pose proof (nat_ascii_bounded a). lia.
Qed.

(** A text over the characters of the encoding. *)
Definition url_text (s : string) : Prop := Forall (λ a, url_char a = true) (to_bytes s).

Lemma url_text_trimmed s : url_text s → TrimSpace s = s.
Proof.
  intros Hs. apply TrimSpace_graphic. apply forallb_forall. intros a Ha%list_elem_of_In.
  unfold url_text in Hs. rewrite Forall_forall in Hs. by apply url_char_graphic, Hs.
Qed.

Lemma url_text_no_jwt s : url_text s → isJWTToken s = false.
Proof.
  intros Hs. unfold isJWTToken.
  assert (Hdot : "."%char ∉ to_bytes s).
  { intros Hin. unfold url_text in Hs. rewrite Forall_forall in Hs.
    by destruct (url_char_graphic _ (Hs _ Hin)). }
  assert (Hsplit : Count s "." = 0).
  { unfold Count, Split, SplitN. cbn [split_n]. destruct (len s); cbn [split_n fmap list_fmap length]; [done|].
    change (to_bytes ".") with ["."%char]. by rewrite cut_absent. }
  by rewrite Hsplit.
Qed.

Lemma generated_key_url `{Bcrypt} random salt key h b :
  GenerateAPIKey random salt = Some (key, h, b) →
  url_text key ∧ (∃ rest, key = APIKeyPrefix +:+ rest) ∧ h = LookupHashAPIKey key ∧ HashAPIKey salt key = Some b.
Proof.
  unfold GenerateAPIKey. destruct random as [bs|]; [|done].
  destruct (HashAPIKey salt _) as [b'|] eqn:E; [|done]. intros [= <- <- <-]. split; [|eauto].
  unfold url_text. rewrite to_bytes_app, to_of_bytes. apply Forall_app_2; [|apply base64url_chars].
  by_evaluation.
Qed.

(** ** What a request presents *)

(** The texts a request presents as credentials. *)
Definition presented (r : AuthRequest) (key : string) : Prop :=
  key = TrimSpace r.(aq_XAPIKey) ∨
  ∃ rest, r.(aq_Authorization) = "Bearer " +:+ rest ∧ key = TrimSpace rest.

Lemma extractBearerToken_Some header token :
  extractBearerToken header = Some token →
  token ≠ "" ∧ ∃ rest, header = "Bearer " +:+ rest ∧ token = TrimSpace rest.
Proof.
  unfold extractBearerToken. destruct (HasPrefix header "Bearer ") eqn:E; [|done]. cbn [negb].
  apply HasPrefix_spec in E as [rest ->]. rewrite TrimPrefix_app. case_bool_decide; [done|].
  intros [= <-]. eauto.
Qed.

Lemma extractAPIKey_Some auth x key :
  extractAPIKey auth x = Some key →
  HasPrefix key APIKeyPrefix = true ∧
  (key = TrimSpace x ∨ ∃ rest, auth = "Bearer " +:+ rest ∧ key = TrimSpace rest).
Proof.
  unfold extractAPIKey.
  set (from_x := if _ || _ then None else Some (TrimSpace x)).
  assert (Hx : from_x = Some key → HasPrefix key APIKeyPrefix = true ∧ key = TrimSpace x).
  { subst from_x. destruct (bool_decide _); [done|]. cbn [orb].
    destruct (HasPrefix (TrimSpace x) APIKeyPrefix) eqn:E; [|done]. by intros [= <-]. }
  destruct (HasPrefix auth "Bearer ") eqn:E; [|naive_solver].
  apply HasPrefix_spec in E as [rest ->]. rewrite TrimPrefix_app.
  destruct (negb (bool_decide (TrimSpace rest = "")) && HasPrefix (TrimSpace rest) APIKeyPrefix) eqn:E;
    [|naive_solver].
  intros [= <-]. apply andb_true_iff in E as [_ E]. eauto.
Qed.

Lemma bearer_token key : TrimSpace key = key → key ≠ "" → extractBearerToken ("Bearer " +:+ key) = Some key.
Proof.
  intros Ht Hne. unfold extractBearerToken.
  rewrite (proj2 (HasPrefix_spec ("Bearer " +:+ key) "Bearer ")) by eauto. cbn [negb].
  rewrite TrimPrefix_app, Ht. by rewrite bool_decide_eq_false_2.
Qed.

Lemma bearer_api_key key x :
  TrimSpace key = key → HasPrefix key APIKeyPrefix = true → extractAPIKey ("Bearer " +:+ key) x = Some key.
Proof.
  intros Ht Hp. unfold extractAPIKey.
  rewrite (proj2 (HasPrefix_spec ("Bearer " +:+ key) "Bearer ")) by eauto.
  rewrite TrimPrefix_app, Ht, Hp. rewrite bool_decide_eq_false_2; [done|]. by intros ->.
Qed.

(** ** The dispatcher *)

Section auth.
Context `{Bcrypt} `{Postgres}.

(** The statement found the live row of the hash. *)
Lemma GetByLookupHash_Ok h db k db' :
  GetByLookupHash h db = (Ok k, db') →
  (∃ i, db.(ac_keys) !! i = Some k) ∧ k.(ak_KeyLookupHash) = h ∧ key_live db.(ac_now) k = true.
Proof.
  unfold GetByLookupHash, in_context, exec.
  assert (Hrow : ∀ d, d.(ac_keys) = db.(ac_keys) → d.(ac_now) = db.(ac_now) →
    match find_key d.(ac_keys) h with
    | Some k => if key_live d.(ac_now) k then (Ok k, d) else (Err ErrNoRows, d)
    | None => (Err ErrNoRows, d)
    end = (Ok k, db') →
    (∃ i, db.(ac_keys) !! i = Some k) ∧ k.(ak_KeyLookupHash) = h ∧ key_live db.(ac_now) k = true).
  { intros d -> ->. destruct (find_key _ h) as [k'|] eqn:E; [|done].
    destruct (key_live _ k') eqn:Ek; [|done]. intros [= <- <-].
    apply find_key_Some in E as (i & Hi & Hk). eauto. }
  destruct (ac_faults db) as [|[] fs]; [|done|].
  - intros E. apply (Hrow db); [done..|]. by destruct (match find_key _ h with Some _ => _ | None => _ end) as [[]].
  - intros E. apply (Hrow (set_ac_faults fs db)); [done..|].
    by destruct (match find_key _ h with Some _ => _ | None => _ end) as [[]].
Qed.

(** What an accepted key grants: the identity and the scope of a live row with
    its hashes. *)
Definition key_grants (now : Z) (db : AccessDB) (ctx : list string) (key : string) (id : Identity)
    (scope : list string) : Prop :=
  ∃ i k, db.(ac_keys) !! i = Some k ∧ k.(ak_KeyLookupHash) = LookupHashAPIKey key ∧
    VerifyAPIKey key k.(ak_KeyBcryptHash) = true ∧ key_live db.(ac_now) k = true ∧
    (∀ t, k.(ak_ExpiresAt) = Some t → (now <= t)%Z) ∧
    id = key_identity k ∧ scope = match k.(ak_ServerScope) with [] => ctx | s => s end.

Lemma APIKeyMiddleware_next now r db id scope reg db' :
  APIKeyMiddleware now r db = (AuthNext id scope reg, db') →
  reg = false ∧ ∃ key, HasPrefix key APIKeyPrefix = true ∧
    (key = TrimSpace r.(aq_XAPIKey) ∨ ∃ rest, r.(aq_Authorization) = "Bearer " +:+ rest ∧ key = TrimSpace rest) ∧
    key_grants now db r.(aq_ServerScope) key id scope.
Proof.
  unfold APIKeyMiddleware, validate. destruct (extractAPIKey _ _) as [key|] eqn:E1; [|done].
  apply extractAPIKey_Some in E1 as [Hp Hpres]. unfold lookupRecord.
  destruct (GetByLookupHash _ db) as [[e|k] db1] eqn:E2; [done|].
  apply GetByLookupHash_Ok in E2 as ([i Hi] & Hh & Hl).
  destruct (verifyRecord now key k) as [[c m]|] eqn:E3; [done|]. intros [= <- <- <- <-].
  split; [done|]. exists key. split_and!; [done..|]. exists i, k.
  unfold verifyRecord in E3. rewrite Hh in E3. rewrite (bool_decide_eq_true_2 (_ = LookupHashAPIKey key)) in E3 by reflexivity.
  cbn [negb] in E3. rewrite andb_false_r in E3.
  destruct (VerifyAPIKey key _) eqn:Ev; [|done]. cbn [negb] in E3. split_and!; try done.
  - intros t Ht. rewrite Ht in E3. destruct (t <? now)%Z eqn:El; [done|]. lia.
  - by destruct (ak_ServerScope k).
Qed.

(** C4: Whatever the dispatcher hands on was authenticated. Either the context
    already held the identity, which passes with its scope untouched; or the
    request carried a bearer token that the OIDC verifier accepted, and the
    identity is the one built from its claims; or it presented a text with the
    key prefix whose SHA-256 lookup hash and bcrypt hash are those of a row that
    has not expired, and the identity and the server scope are those of the row. *)
Theorem auth_sound opts now r db id scope reg db' :
  AuthMiddleware opts now r db = (AuthNext id scope reg, db') →
  (r.(aq_Identity) = Some id ∧ scope = r.(aq_ServerScope)) ∨
  (r.(aq_Identity) = None ∧ ∃ V token, opts.(ao_OIDCValidator) = Some V ∧ presented r token ∧
     @OIDCValidate V token = Ok id ∧ scope = r.(aq_ServerScope)) ∨
  (r.(aq_Identity) = None ∧ ∃ key, opts.(ao_APIKeyStore) = true ∧ presented r key ∧
     HasPrefix key APIKeyPrefix = true ∧ key_grants now db r.(aq_ServerScope) key id scope).
Proof.
  unfold AuthMiddleware. destruct (aq_Identity r) as [id0|]; [intros [= <- <- <- <-]; auto|].
  intros Heq. right. destruct (extractBearerToken (aq_Authorization r)) as [token|] eqn:Et.
  - apply extractBearerToken_Some in Et as (Hne & rest & Ha & Htok). unfold handleBearerToken in Heq.
    destruct (isJWTToken token).
    + left. destruct (ao_OIDCValidator opts) as [V|]; [|done]. unfold OIDCMiddleware in Heq.
      destruct (extractBearerToken (aq_Authorization r)) as [token'|] eqn:Et; [|done].
      apply extractBearerToken_Some in Et as (_ & rest' & Ha' & Htok').
      destruct (OIDCValidate token') as [e|id'] eqn:Ev; [done|]. injection Heq as <- <- <- <-.
      split; [done|]. exists V, token'. split_and!; [done| |done|done]. right. eauto.
    + right. destruct (ao_APIKeyStore opts); [|done]. split; [done|].
      apply APIKeyMiddleware_next in Heq as (_ & key & Hp & Hpres & Hg). exists key. by split_and!.
  - right. unfold handleXAPIKeyFallback in Heq. case_bool_decide; [done|].
    destruct (ao_APIKeyStore opts); [|done]. split; [done|].
    apply APIKeyMiddleware_next in Heq as (_ & key & Hp & Hpres & Hg). cbn in Hpres, Hg.
    exists key. split_and!; try done. left. destruct Hpres as [->|(rest & Heq & ->)]; [done|].
    apply (f_equal (λ s, TrimPrefix s "Bearer ")) in Heq. rewrite !TrimPrefix_app in Heq.
    rewrite <- Heq. by rewrite TrimSpace_idemp.
Qed.

(** ** Keys from creation to revocation *)

(** The request of a client that sends a key as its bearer token. *)
Definition bearer (key : string) : AuthRequest := mkAuthRequest None [] ("Bearer " +:+ key) "".

(** The dispatcher on a request with a bearer token that is no JWT. *)
Lemma AuthMiddleware_bearer opts now r token db :
  r.(aq_Identity) = None → extractBearerToken r.(aq_Authorization) = Some token →
  isJWTToken token = false → opts.(ao_APIKeyStore) = true →
  AuthMiddleware opts now r db = APIKeyMiddleware now r db.
Proof.
  intros H1 H2 H3 H4. unfold AuthMiddleware, handleBearerToken. rewrite H1, H2, H3, H4. reflexivity.
Qed.

(** The dispatcher on a generated key is the check of the key. *)
Lemma auth_bearer opts now random salt key h b db :
  GenerateAPIKey random salt = Some (key, h, b) → opts.(ao_APIKeyStore) = true →
  AuthMiddleware opts now (bearer key) db = APIKeyMiddleware now (bearer key) db ∧
  extractAPIKey ("Bearer " +:+ key) "" = Some key.
Proof.
  intros (Hurl & (rest & Hkey) & _)%generated_key_url Hstore.
  assert (Hp : HasPrefix key APIKeyPrefix = true) by (apply HasPrefix_spec; eauto).
  assert (Ht := url_text_trimmed _ Hurl).
  assert (Hne : key ≠ "") by (rewrite Hkey; discriminate).
  split; [|exact (bearer_api_key _ _ Ht Hp)].
  exact (AuthMiddleware_bearer _ _ (bearer key) _ _ eq_refl (bearer_token _ Ht Hne) (url_text_no_jwt _ Hurl) Hstore).
Qed.

(** The check of a key against its stored row. *)
Lemma APIKeyMiddleware_stored now key k db :
  extractAPIKey ("Bearer " +:+ key) "" = Some key → db.(ac_faults) = [] →
  find_key db.(ac_keys) (LookupHashAPIKey key) = Some k → key_live db.(ac_now) k = true →
  k.(ak_KeyLookupHash) = LookupHashAPIKey key → VerifyAPIKey key k.(ak_KeyBcryptHash) = true →
  (∀ t, k.(ak_ExpiresAt) = Some t → (now <= t)%Z) →
  APIKeyMiddleware now (bearer key) db = (AuthNext (key_identity k) k.(ak_ServerScope) false, db).
Proof.
  intros Hx Hf Hk Hl Hh Hv He. unfold APIKeyMiddleware, validate, lookupRecord, bearer.
  cbn [aq_Authorization aq_XAPIKey aq_ServerScope]. rewrite Hx.
  unfold GetByLookupHash, in_context, exec. rewrite Hf, Hk, Hl. unfold verifyRecord. rewrite Hh, Hv.
  rewrite (bool_decide_eq_true_2 (_ = LookupHashAPIKey key)) by reflexivity. rewrite andb_false_r.
  destruct (ak_ExpiresAt k) as [t|]; [|destruct (ak_ServerScope k); reflexivity].
  specialize (He t eq_refl). destruct (t <? now)%Z eqn:E; [lia|]. destruct (ak_ServerScope k); reflexivity.
Qed.

(** The scopes a key gets, up to their order: those asked for, trimmed and not
    blank. *)
Lemma merge_scopes_elem acc l x :
  x ∈ merge_scopes acc l ↔ x ∈ acc ∨ x ≠ "" ∧ x ∈ TrimSpace <$> l.
Proof.
  revert acc. induction l as [|s l IH]; intros acc; cbn [merge_scopes fmap list_fmap]; [set_solver|].
  rewrite IH. repeat case_bool_decide; cbn [orb]; set_solver.
Qed.

Lemma merge_scopes_NoDup acc l : NoDup acc → NoDup (merge_scopes acc l).
Proof.
  revert acc. induction l as [|s l IH]; intros acc Hacc; cbn [merge_scopes]; [done|]. apply IH.
  repeat case_bool_decide; cbn [orb]; try done. apply NoDup_app. split_and!; [done|set_solver|].
  apply NoDup_singleton.
Qed.

(** The scopes the endpoint writes. *)
Lemma granted_scopes raw :
  let granted := match dedupeScopes raw with [] => ["read"] | l => l end in
  NoDup granted ∧
  ∀ x, x ∈ granted ↔ x ≠ "" ∧ x ∈ TrimSpace <$> raw ∨ x = "read" ∧ ∀ y, y ∈ raw → TrimSpace y = "".
Proof.
  unfold dedupeScopes. pose proof (merge_scopes_elem [] raw) as Hm.
  pose proof (merge_scopes_NoDup [] raw NoDup_nil_2) as Hnd.
  destruct (merge_scopes [] raw) as [|y l]; cbn zeta.
  - split; [apply NoDup_singleton|]. intros x. split; [intros ->%list_elem_of_singleton; right|].
    + split; [done|]. intros y Hy. destruct (decide (TrimSpace y = "")); [done|]. exfalso.
      apply (not_elem_of_nil (TrimSpace y)), Hm. right. split; [done|]. by apply list_elem_of_fmap_2.
    + intros [Hx|[-> _]]; [|by apply list_elem_of_singleton]. exfalso. apply (not_elem_of_nil x), Hm. by right.
  - split; [done|]. intros x. rewrite Hm.
    split; [intros [Hx%elem_of_nil|?]; [done|by left]|]. intros [?|[_ Hall]]; [by right|]. exfalso.
    destruct (proj1 (Hm y) (list_elem_of_here _ _)) as [Hy%elem_of_nil|[Hy (z & -> & Hz)%list_elem_of_fmap]]; [done|].
    by apply Hy, Hall.
Qed.

Lemma hashed_key_verifies `{!BcryptLaws _} salt key b : HashAPIKey salt key = Some b → VerifyAPIKey key b = true.
Proof.
  unfold VerifyAPIKey, HashAPIKey. destruct (GenerateFromPassword _ _ _) as [hash|] eqn:E; [|done].
  intros [= <-]. rewrite to_of_bytes. by eapply bcrypt_verifies.
Qed.

(** The row a creation leaves behind. *)
Lemma handleCreate_created now random salt req db resp db1 :
  handleCreate now random salt (Some req) db = (KeyCreated resp, db1) →
  ∃ row bhash, GenerateAPIKey random salt = Some (resp.(ca_APIKey), row.(ak_KeyLookupHash), bhash) ∧
    find_key db1.(ac_keys) row.(ak_KeyLookupHash) = Some row ∧ row.(ak_KeyBcryptHash) = bhash ∧
    key_identity row = key_identity resp.(ca_Record) ∧
    row.(ak_ServerScope) = resp.(ca_Record).(ak_ServerScope) ∧
    row.(ak_ExpiresAt) = resp.(ca_Record).(ak_ExpiresAt) ∧
    resp.(ca_Record).(ak_ServerScope) = dedupeScopes req.(cr_ServerScope) ∧
    resp.(ca_Record).(ak_Scopes) = match dedupeScopes req.(cr_Scopes) with [] => ["read"] | l => l end.
Proof.
  unfold handleCreate. case_bool_decide as Hname; [done|].
  set (scopes := match dedupeScopes (cr_Scopes req) with [] => ["read"] | _ :: _ => _ end).
  assert (Hscopes : scopes = match dedupeScopes (cr_Scopes req) with [] => ["read"] | l => l end)
    by (subst scopes; by destruct (dedupeScopes _)).
  clearbody scopes. destruct (if bool_decide _ then _ else _) as [expiresAt|]; [|done].
  destruct (GenerateAPIKey random salt) as [[[key h] b]|]; [|done].
  set (clientID := if bool_decide (TrimSpace (cr_ClientID req) = "") then _ else _). clearbody clientID.
  set (profile := if bool_decide (TrimSpace (cr_Profile req) = "") then _ else _).
  assert (Hprofile : profile ≠ "") by (subst profile; by case_bool_decide). clearbody profile.
  generalize (dedupeScopes (cr_ServerScope req)). intros sscope.
  unfold KeyCreate, in_context. destruct (exec _ db) as [[e|[]] db2] eqn:Ec; [done|].
  assert (∃ d id created, ac_keys db2 = <[id := mkAPIKey id h b (TrimSpace (cr_Name req)) scopes clientID profile sscope expiresAt created]> (ac_keys d) ∧ find_key (ac_keys d) h = None) as (d & id & created & Hkeys & Hnone).
  { unfold exec in Ec. cbn [ak_KeyLookupHash ak_KeyBcryptHash ak_Name ak_Scopes ak_ClientID ak_PolicyProfile ak_ServerScope ak_ExpiresAt] in Ec.
    rewrite (bool_decide_eq_false_2 (profile = "")) in Ec by done.
    destruct (ac_faults db) as [|[] fs]; [|done|]; destruct (find_key _ h) eqn:Ef in Ec; try done;
      injection Ec as <-; eexists _, _, _; (split; [reflexivity|exact Ef]). }
  destruct (GetByLookupHash h db2) as [stored db3] eqn:Eg. intros [= <- <-].
  assert (Hsame : ac_keys db3 = ac_keys db2).
  { unfold GetByLookupHash, in_context, exec in Eg. destruct (ac_faults db2) as [|[] fs];
      repeat case_match; by simplify_eq. }
  eexists (mkAPIKey id h b _ scopes clientID profile sscope expiresAt created), b.
  cbn [ca_APIKey ca_Record ak_KeyLookupHash ak_KeyBcryptHash ak_ServerScope ak_ExpiresAt].
  rewrite Hsame, Hkeys. split; [reflexivity|]. split; [by apply find_key_insert|]. by destruct stored.
Qed.

(** The client that sends a new key is the one of the answer. *)
Lemma created_key_accepted `{!BcryptLaws _} opts now random salt req db resp db1 now2 db2 :
  handleCreate now random salt (Some req) db = (KeyCreated resp, db1) →
  opts.(ao_APIKeyStore) = true → db2.(ac_faults) = [] →
  find_key db2.(ac_keys) (LookupHashAPIKey resp.(ca_APIKey)) =
    find_key db1.(ac_keys) (LookupHashAPIKey resp.(ca_APIKey)) →
  (∀ t, resp.(ca_Record).(ak_ExpiresAt) = Some t → (db2.(ac_now) < t ∧ now2 <= t)%Z) →
  AuthMiddleware opts now2 (bearer resp.(ca_APIKey)) db2 =
    (AuthNext (key_identity resp.(ca_Record)) resp.(ca_Record).(ak_ServerScope) false, db2).
Proof.
  intros (row & b & Hgen & Hfind & Hb & Hid & Hss & Hexp & _)%handleCreate_created Hstore Hf Hsame Hlive.
  destruct (auth_bearer opts now2 _ _ _ _ _ db2 Hgen Hstore) as [Hauth Hx].
  destruct (generated_key_url _ _ _ _ _ Hgen) as (_ & _ & Hh & Hhash).
  rewrite Hauth, <- Hid, <- Hss. apply APIKeyMiddleware_stored; [exact Hx|exact Hf| | |exact Hh| |].
  - rewrite Hsame, <- Hh. exact Hfind.
  - unfold key_live. rewrite Hexp. destruct (ak_ExpiresAt (ca_Record resp)) as [t|]; [|reflexivity].
    destruct (Hlive t eq_refl). by apply Z.ltb_lt.
  - rewrite Hb. exact (hashed_key_verifies _ _ _ Hhash).
  - intros t Ht. rewrite Hexp in Ht. by destruct (Hlive t Ht).
Qed.

(** C20: The round trip of a key. When the endpoint answers with a new key, the
    client that sends it as its bearer token is authenticated, as long as the row
    is the one the endpoint wrote and has not expired: with exactly the client id,
    scopes, profile and server scope of the answer. The scopes are those asked
    for, without blanks or duplicates, or [read] when there are none. *)
Theorem created_key_authenticates `{!BcryptLaws _} opts now random salt req db resp db1 now2 db2 :
  handleCreate now random salt (Some req) db = (KeyCreated resp, db1) →
  opts.(ao_APIKeyStore) = true → db2.(ac_faults) = [] →
  find_key db2.(ac_keys) (LookupHashAPIKey resp.(ca_APIKey)) =
    find_key db1.(ac_keys) (LookupHashAPIKey resp.(ca_APIKey)) →
  (∀ t, resp.(ca_Record).(ak_ExpiresAt) = Some t → (db2.(ac_now) < t ∧ now2 <= t)%Z) →
  AuthMiddleware opts now2 (bearer resp.(ca_APIKey)) db2 =
    (AuthNext (key_identity resp.(ca_Record)) resp.(ca_Record).(ak_ServerScope) false, db2) ∧
  NoDup resp.(ca_Record).(ak_Scopes) ∧
  (∀ x, x ∈ resp.(ca_Record).(ak_Scopes) ↔
    x ≠ "" ∧ x ∈ TrimSpace <$> req.(cr_Scopes) ∨
    x = "read" ∧ ∀ y, y ∈ req.(cr_Scopes) → TrimSpace y = "").
Proof.
  intros Hc Hstore Hf Hsame Hlive. split; [by eapply created_key_accepted|].
  apply handleCreate_created in Hc as (row & b & _ & _ & _ & _ & _ & _ & _ & ->). apply granted_scopes.
Qed.

(** ** Revocation *)

(** Everything that happens to the table of keys, except that no later key gets
    the lookup hash [h]: the endpoints, the removal of expired keys, and time,
    with any schedule of failures. *)
Inductive key_step (h : string) : AccessDB → AccessDB → Prop :=
| step_create now random salt body db :
    (∀ key h' b, GenerateAPIKey random salt = Some (key, h', b) → h' ≠ h) →
    key_step h db (handleCreate now random salt body db).2
| step_revoke id db : key_step h db (handleRevoke id db).2
| step_delete db : key_step h db (DeleteExpired db).2
| step_auth opts now r db : key_step h db (AuthMiddleware opts now r db).2
| step_time t fs db : (db.(ac_now) <= t)%Z → key_step h db (set_ac_now t (set_ac_faults fs db)).

(** The rows of a hash have all expired. *)
Definition hash_dead (h : string) (db : AccessDB) : Prop :=
  ∀ i k, db.(ac_keys) !! i = Some k → k.(ak_KeyLookupHash) = h →
    ∃ t, k.(ak_ExpiresAt) = Some t ∧ (t <= db.(ac_now))%Z.

(** A statement that keeps a property of the tables and the clock keeps it
    whatever the schedule. *)
Definition same_data (P : AccessDB → Prop) : Prop := ∀ fs db, P db → P (set_ac_faults fs db).

Lemma exec_preserves {A} (P : AccessDB → Prop) ctx (f : ST AccessDB A) :
  same_data P → preserves P f → preserves P (in_context ctx (exec f)).
Proof.
  intros HP Hf db Hdb. unfold in_context, exec.
  assert (Hgo : P (match ac_faults db with
    | true :: fs => (Err (Opaque "connection failed"), set_ac_faults fs db)
    | false :: fs => f (set_ac_faults fs db)
    | [] => f db end).2).
  { destruct (ac_faults db) as [|[] fs]; [by apply Hf|by apply HP|by apply Hf, HP]. }
  by destruct (match ac_faults db with [] => _ | _ :: _ => _ end) as [[] db'].
Qed.

Lemma GetByLookupHash_preserves (P : AccessDB → Prop) h : same_data P → preserves P (GetByLookupHash h).
Proof.
  intros HP. apply exec_preserves; [done|]. intros db Hdb.
  destruct (find_key _ h); [|done]. by destruct (key_live _ _).
Qed.

Lemma APIKeyMiddleware_preserves (P : AccessDB → Prop) now r db :
  same_data P → P db → P (APIKeyMiddleware now r db).2.
Proof.
  intros HP Hdb. unfold APIKeyMiddleware, validate, lookupRecord.
  destruct (extractAPIKey _ _) as [key|]; [|exact Hdb].
  pose proof (GetByLookupHash_preserves P (LookupHashAPIKey key) HP db Hdb) as Hg.
  destruct (GetByLookupHash (LookupHashAPIKey key) db) as [[e|k] db']; [exact Hg|].
  destruct (verifyRecord now key k) as [[]|]; exact Hg.
Qed.

Lemma AuthMiddleware_preserves (P : AccessDB → Prop) opts now r db :
  same_data P → P db → P (AuthMiddleware opts now r db).2.
Proof.
  intros HP Hdb. unfold AuthMiddleware. destruct (aq_Identity r); [exact Hdb|].
  destruct (extractBearerToken _) as [token|].
  - unfold handleBearerToken. destruct (isJWTToken token); [by destruct (ao_OIDCValidator opts)|].
    destruct (negb _); [exact Hdb|]. by apply APIKeyMiddleware_preserves.
  - unfold handleXAPIKeyFallback. destruct (bool_decide _); [exact Hdb|].
    destruct (negb _); [exact Hdb|]. by apply APIKeyMiddleware_preserves.
Qed.

Lemma handleCreate_preserves_dead h now random salt body db :
  (∀ key h' b, GenerateAPIKey random salt = Some (key, h', b) → h' ≠ h) →
  hash_dead h db → hash_dead h (handleCreate now random salt body db).2.
Proof.
  intros Hne Hdb. assert (HP : same_data (hash_dead h)) by (intros fs d Hd; exact Hd).
  unfold handleCreate. destruct body as [req|]; [|exact Hdb]. destruct (bool_decide _); [exact Hdb|].
  destruct (if bool_decide _ then _ else _) as [expiresAt|]; [|exact Hdb].
  destruct (GenerateAPIKey random salt) as [[[key h'] b]|] eqn:Eg; [|exact Hdb].
  specialize (Hne _ _ _ eq_refl).
  match goal with |- context [KeyCreate ?rec db] => set (record := rec) end.
  assert (Hc : preserves (hash_dead h) (KeyCreate record)).
  { apply exec_preserves; [done|]. intros d Hd. cbn beta. destruct (find_key _ _); [exact Hd|].
    intros i k Hk Hh. cbv zeta in Hk. cbn [snd ac_keys set_ac_next set_ac_keys] in Hk.
    apply lookup_insert_Some in Hk as [[_ <-]|[_ Hk]]; [by destruct Hne|]. by apply (Hd i). }
  specialize (Hc db Hdb). destruct (KeyCreate record db) as [[e|[]] db1]; [exact Hc|].
  pose proof (GetByLookupHash_preserves _ h' HP db1 Hc) as Hg.
  by destruct (GetByLookupHash h' db1).
Qed.

Lemma handleRevoke_preserves_dead h id db : hash_dead h db → hash_dead h (handleRevoke id db).2.
Proof.
  intros Hdb. unfold handleRevoke. destruct (bool_decide _); [exact Hdb|].
  assert (Hr : preserves (hash_dead h) (Revoke (TrimSpace id))).
  { apply exec_preserves; [intros fs d Hd; exact Hd|]. intros d Hd. cbn beta.
    destruct (uuid_in _) as [c|]; [|exact Hd]. intros i k Hk Hh. cbn in Hk.
    apply lookup_alter_Some in Hk as [(<- & k0 & Hk & ->)|[_ Hk]]; [|by apply (Hd i)].
    exists (ac_now d). split; [done|]. cbn. lia. }
  specialize (Hr db Hdb). by destruct (Revoke (TrimSpace id) db) as [[] db'].
Qed.

Lemma key_step_dead h db db' : key_step h db db' → hash_dead h db → hash_dead h db'.
Proof.
  intros [now random salt body d Hne|id d|d|opts now r d|t fs d Ht] Hd.
  - by apply handleCreate_preserves_dead.
  - by apply handleRevoke_preserves_dead.
  - revert d Hd. apply (exec_preserves _ "api key store"); [intros fs d Hd; exact Hd|]. intros d Hd i k Hk Hh.
    apply map_lookup_filter_Some in Hk as [Hk _]. by apply (Hd i).
  - apply AuthMiddleware_preserves; [intros fs d' Hd'; exact Hd'|exact Hd].
  - intros i k Hk Hh. destruct (Hd i k Hk Hh) as (u & Hu & Hle). exists u. cbn. split; [done|lia].
Qed.

Lemma key_steps_dead h db db' : rtc (key_step h) db db' → hash_dead h db → hash_dead h db'.
Proof. induction 1; eauto using key_step_dead. Qed.

(** A key whose rows have expired is refused. *)
Lemma dead_key_refused now key db :
  extractAPIKey ("Bearer " +:+ key) "" = Some key → hash_dead (LookupHashAPIKey key) db →
  (APIKeyMiddleware now (bearer key) db).1 = AuthReject 401 "invalid api key".
Proof.
  intros Hx Hdead. unfold APIKeyMiddleware, validate, lookupRecord, bearer.
  cbn [aq_Authorization aq_XAPIKey aq_ServerScope]. rewrite Hx.
  destruct (GetByLookupHash (LookupHashAPIKey key) db) as [[e|k] db'] eqn:E; [reflexivity|exfalso].
  apply GetByLookupHash_Ok in E as ([i Hi] & Hh & Hl). destruct (Hdead i k Hi Hh) as (t & Ht & Hle).
  unfold key_live in Hl. rewrite Ht in Hl. apply Z.ltb_lt in Hl. lia.
Qed.

(** C19: A revoked key is dead. Once the endpoint has answered that it revoked the
    row of a key, the client that presents the key is refused, at once and after
    every later sequence of creations of other keys, revocations, clean-ups,
    authentications and passing time, whatever statements fail. *)
Theorem revoked_key_rejected opts random salt key h b id c row db answer db1 db2 now :
  GenerateAPIKey random salt = Some (key, h, b) → opts.(ao_APIKeyStore) = true →
  uuid_in (TrimSpace id) = Some c → db.(ac_keys) !! c = Some row → row.(ak_KeyLookupHash) = h →
  (∀ i k, db.(ac_keys) !! i = Some k → k.(ak_KeyLookupHash) = h → i = c) →
  handleRevoke id db = (KeyRevoked answer, db1) → rtc (key_step h) db1 db2 →
  (AuthMiddleware opts now (bearer key) db2).1 = AuthReject 401 "invalid api key".
Proof.
  intros Hgen Hstore Hc Hrow Hh Huniq Hrev Hsteps.
  assert (Hd1 : hash_dead h db1).
  { unfold handleRevoke in Hrev. destruct (bool_decide _); [done|].
    destruct (Revoke (TrimSpace id) db) as [[e|[]] d] eqn:E; [done|]. injection Hrev as <- <-.
    unfold Revoke, in_context, exec in E. rewrite Hc in E.
    assert (Hd : ∀ d0, ac_keys d0 = ac_keys db → ac_now d0 = ac_now db →
      hash_dead h (set_ac_keys (alter (set_expires (Some (ac_now d0))) c (ac_keys d0)) d0)).
    { intros d0 Hk0 Hn0 i k Hk Hhk. cbn in Hk. rewrite Hk0 in Hk.
      apply lookup_alter_Some in Hk as [(<- & k0 & Hk & ->)|[Hne Hk]].
      - exists (ac_now d0). split; [done|]. cbn. lia.
      - destruct Hne. symmetry. by eapply Huniq. }
    destruct (ac_faults db) as [|[] fs]; [|done|]; injection E as <-;
      [exact (Hd db eq_refl eq_refl)|exact (Hd (set_ac_faults fs db) eq_refl eq_refl)]. }
  assert (Hd2 := key_steps_dead _ _ _ Hsteps Hd1).
  destruct (auth_bearer opts now _ _ _ _ _ db2 Hgen Hstore) as [-> Hx].
  destruct (generated_key_url _ _ _ _ _ Hgen) as (_ & _ & Hk & _). rewrite Hk in Hd2.
  exact (dead_key_refused _ _ _ Hx Hd2).
Qed.

End auth.

(** ** Expiry *)

Lemma wrap_i64_congr z : ∃ q, wrap_i64 z = (z - q * two64)%Z.
Proof.
  exists ((z - min_int64) / two64)%Z. unfold wrap_i64.
  pose proof (Z.div_mod (z - min_int64) two64 ltac:(done)). lia.
Qed.

(** The expiry of a key asked for in days. Up to 106751 days, the longest
    whole number of days a [time.Duration] holds, the key expires exactly that
    many days from now. Beyond that the product wraps: the request is refused, or
    the key is created and expires more than 584 years too early, as 213504 days
    become twenty-five minutes. *)
Theorem expiry_in_days now raw number days :
  CutSuffix (TrimSpace raw) "d" = Some number → Atoi (TrimSpace number) = Some days → (0 < days)%Z →
  ((days <= 106751)%Z → parseAPIKeyExpiry now raw = Some (Some (now + days * (1440 * minute))%Z)) ∧
  ((106751 < days)%Z →
    parseAPIKeyExpiry now raw = None ∨
    ∃ t, parseAPIKeyExpiry now raw = Some (Some t) ∧ (t <= now + days * (1440 * minute) - two64)%Z).
Proof.
  intros Hcut Ha Hpos. unfold parseAPIKeyExpiry.
  assert (Hne : TrimSpace raw ≠ "") by (intros E; rewrite E in Hcut; discriminate Hcut).
  rewrite bool_decide_eq_false_2 by exact Hne. rewrite Hcut, Ha.
  rewrite (proj2 (Z.leb_gt days 0)) by lia. pose proof (Atoi_range _ _ Ha) as Hrange.
  assert (Hw : ∃ q, (0 <= q)%Z ∧ wrap_i64 (wrap_i64 (days * 24) * (60 * minute)) = (days * (1440 * minute) - q * two64)%Z
    ∧ (0 < q ↔ 106751 < days)%Z).
  { destruct (wrap_i64_congr (days * 24)) as [q1 E1].
    destruct (wrap_i64_congr (wrap_i64 (days * 24) * (60 * minute))) as [q2 E2].
    pose proof (wrap_i64_range (wrap_i64 (days * 24) * (60 * minute))) as R.
    rewrite E2 in R |- *. rewrite E1 in R |- *. exists (q1 * (60 * minute) + q2)%Z.
    unfold int64_range, min_int64, max_int64, two64, minute in *. lia. }
  destruct Hw as (q & Hq & -> & Hsmall). split.
  - intros Hle. assert (q = 0)%Z as -> by (unfold minute, two64 in *; lia).
    rewrite Z.mul_0_l, Z.sub_0_r. destruct (_ <=? 0)%Z eqn:E; [unfold minute in E; lia|done].
  - intros Hlt. destruct (_ <=? 0)%Z eqn:E; [by left|right]. eexists. split; [done|]. unfold two64 in *. lia.
Qed.

Lemma expiry_in_days_witness :
  parseAPIKeyExpiry 0 "90d" = Some (Some (90 * (1440 * minute))%Z) ∧
  ∃ t, parseAPIKeyExpiry 0 "213504d" = Some (Some t) ∧ (t < 26 * minute)%Z.
Proof.
  split.
  - exact (proj1 (expiry_in_days 0 "90d" "90" 90 eq_refl eq_refl eq_refl) ltac:(lia)).
  - exists 1526290448384%Z. split; [vm_compute; reflexivity|]. unfold minute. lia.
Defined.

(** ** Users *)

(** The table of users: rows under their ids, subjects unique. *)
Definition users_ok (t : gmap string User) : Prop :=
  (∀ i u, t !! i = Some u → u.(u_ID) = i) ∧
  (∀ i j u v, t !! i = Some u → t !! j = Some v → u.(u_OIDCSub) = v.(u_OIDCSub) → i = j).

Lemma find_user_Some t sub u : find_user t sub = Some u → ∃ i, t !! i = Some u ∧ u.(u_OIDCSub) = sub.
Proof. intros (i & Hi & Hu%bool_decide_eq_true)%find_row_Some. eauto. Qed.

Lemma find_user_None t sub i u : find_user t sub = None → t !! i = Some u → u.(u_OIDCSub) ≠ sub.
Proof. intros Hn Hi. eapply find_row_None in Hn; [|done]. by apply bool_decide_eq_false in Hn. Qed.

(** What [Upsert] of a user with the role [RoleUser] makes of the table. *)
Definition upserted (sub : string) (t t' : gmap string User) : Prop :=
  users_ok t' ∧
  (∀ i u, t !! i = Some u → ∃ u', t' !! i = Some u' ∧ u'.(u_OIDCSub) = u.(u_OIDCSub) ∧
     u'.(u_Role) = u.(u_Role) ∧ (u.(u_OIDCSub) ≠ sub → u' = u)) ∧
  (∀ i u', t' !! i = Some u' → t !! i = None → u'.(u_Role) = RoleUser ∧ u'.(u_OIDCSub) = sub).

Lemma upserted_refl sub t : users_ok t → upserted sub t t.
Proof. intros Hok. split; [done|]. split; [naive_solver|]. intros i u' -> [=]. Qed.

Lemma upserted_update sub t u email name now :
  users_ok t → find_user t sub = Some u →
  upserted sub t (<[u.(u_ID) := mkUser u.(u_ID) u.(u_OIDCSub) email name u.(u_Role) u.(u_CreatedAt) now]> t).
Proof.
  intros [Hid Huniq] (i & Hi & Hsub)%find_user_Some. pose proof (Hid _ _ Hi) as ->.
  split; [split|split].
  - intros j v Hj. apply lookup_insert_Some in Hj as [[<- <-]|[_ Hj]]; [done|by apply Hid].
  - intros j k v w Hj Hk. apply lookup_insert_Some in Hj as [[<- <-]|[Hj' Hj]];
      apply lookup_insert_Some in Hk as [[<- <-]|[Hk' Hk]]; cbn; try done; intros E; by eapply Huniq.
  - intros j v Hj. destruct (decide (i = j)) as [<-|Hne].
    + assert (v = u) as -> by congruence. eexists. rewrite lookup_insert_eq. split_and!; done.
    + exists v. by rewrite lookup_insert_ne.
  - intros j v Hj Hn. apply lookup_insert_Some in Hj as [[<- <-]|[_ Hj]]; congruence.
Qed.

Lemma upserted_insert sub t id email name now :
  users_ok t → find_user t sub = None → t !! id = None →
  upserted sub t (<[id := mkUser id sub email name RoleUser now now]> t).
Proof.
  intros [Hid Huniq] Hn Hfree. split; [split|split].
  - intros j v Hj. apply lookup_insert_Some in Hj as [[<- <-]|[_ Hj]]; [done|by apply Hid].
  - intros j k v w Hj Hk. apply lookup_insert_Some in Hj as [[<- <-]|[Hj' Hj]];
      apply lookup_insert_Some in Hk as [[<- <-]|[Hk' Hk]]; cbn; intros E; try done.
    + destruct (find_user_None _ _ _ _ Hn Hk). done.
    + destruct (find_user_None _ _ _ _ Hn Hj). done.
    + by eapply Huniq.
  - intros j v Hj. exists v. rewrite lookup_insert_ne by congruence. done.
  - intros j v Hj Hnj. apply lookup_insert_Some in Hj as [[<- <-]|[_ Hj]]; [done|congruence].
Qed.

(** Signing in never changes a role. The registration of an OIDC user at sign
    in keeps every row of the table with its subject and role, changes no row of
    another subject, and adds at most one row, for the subject signing in and
    with the role [user]; the table stays well formed. *)
Theorem oidc_login_keeps_roles now id auditStore db :
  users_ok db.(ac_users) →
  upserted (TrimSpace id.(id_ID)) db.(ac_users) (autoRegisterOIDCUser now id auditStore db).2.(ac_users).
Proof.
  intros Hok. unfold autoRegisterOIDCUser.
  set (sub := TrimSpace (id_ID id)).
  set (P := λ d, upserted sub (ac_users db) (ac_users d)).
  match goal with |- context [UserUpsert now ?u db] => set (user := u) end.
  assert (Hstep : ∀ d, ac_users d = ac_users db → P (UserUpsert now user d).2).
  { intros d Hd. unfold UserUpsert, in_context, exec.
    assert (Hgo : ∀ d0, ac_users d0 = ac_users db →
      P (match find_user (ac_users d0) sub with
         | Some u => (Ok (), set_ac_users (<[u_ID u := mkUser (u_ID u) (u_OIDCSub u) (TrimSpace (u_Email user))
             (TrimSpace (u_DisplayName user)) (u_Role u) (u_CreatedAt u) now]> (ac_users d0)) d0)
         | None => match ac_users d0 !! (if bool_decide (sub = "") then "auto" else sub) with
             | Some _ => (Err (Opaque "duplicate key value violates unique constraint"), d0)
             | None => (Ok (), set_ac_users (<[if bool_decide (sub = "") then "auto" else sub :=
                 mkUser (if bool_decide (sub = "") then "auto" else sub) sub (TrimSpace (u_Email user))
                   (TrimSpace (u_DisplayName user)) RoleUser now now]> (ac_users d0)) d0) end
         end : result () * AccessDB).2).
    { intros d0 Hd0. unfold P. destruct (find_user (ac_users d0) sub) as [u|] eqn:Eu; rewrite Hd0 in *.
      - cbn [snd ac_users set_ac_users]. by apply upserted_update.
      - destruct (ac_users db !! _) as [v|] eqn:Ev; cbn [snd ac_users set_ac_users];
          [rewrite Hd0; by apply upserted_refl|by apply upserted_insert]. }
    destruct (ac_faults d) as [|[] fs].
    - specialize (Hgo d Hd). by destruct (match find_user (ac_users d) _ with Some _ => _ | None => _ end) as [[] ?].
    - unfold P. cbn. rewrite Hd. by apply upserted_refl.
    - specialize (Hgo (set_ac_faults fs d) Hd).
      by destruct (match find_user (ac_users (set_ac_faults fs d)) _ with Some _ => _ | None => _ end) as [[] ?]. }
  specialize (Hstep db eq_refl). destruct (UserUpsert now user db) as [[e|[]] d]; [exact Hstep|].
  destruct auditStore; [|exact Hstep]. unfold exec. by destruct (ac_faults d) as [|[] fs].
Qed.

(** ** Examples *)

(** A hash that is the password behind a mark. *)
Definition example_bcrypt : Bcrypt := {|
  GenerateFromPassword _ password _ :=
    if length password <=? 72 then Some ("$"%char :: password) else None;
  CompareHashAndPassword hash password := bool_decide (hash = "$"%char :: password);
|}.

#[export] Instance example_bcrypt_laws : BcryptLaws example_bcrypt.
Proof.
  split. intros n password cost hash. cbn. destruct (_ <=? _); [|done]. intros [= <-].
  by apply bool_decide_eq_true.
Qed.

(** A verifier that accepts one token. *)
Definition example_verifier : OIDCVerifier := λ token,
  if bool_decide (token = "h.p.s") then
    Ok ("https://issuer", Ok (mkOidcClaims "alice" "alice@example.org" "" "" ["dev"; " dev"] "read write"))
  else Err (Opaque "invalid signature").

Definition example_options : AuthOptions := mkAuthOptions true (Some example_verifier) true.

Definition example_pg_ids : Postgres := {|
  uuid_in s := if bool_decide (s = "") then None else Some s;
  gen_random_uuid n := "row";
|}.

#[local] Existing Instance example_bcrypt.
#[local] Existing Instance example_pg_ids.

Definition example_access (faults : list bool) : AccessDB := mkAccessDB 100 ∅ ∅ ∅ faults 0.

Lemma auth_sound_witness :
  ∃ id, (AuthMiddleware example_options 0
           (mkAuthRequest None [] "Bearer  h.p.s " "") (example_access [])).1 = AuthNext id [] true ∧
    id.(id_Scopes) = ["dev"; "read"; "write"] ∧
    ∃ V token, example_options.(ao_OIDCValidator) = Some V ∧ @OIDCValidate V token = Ok id.
Proof.
  eexists. split; [vm_compute; reflexivity|]. split; [vm_compute; reflexivity|].
  destruct (auth_sound example_options 0
    (mkAuthRequest None [] "Bearer  h.p.s " "") (example_access []) _ _ _ _ eq_refl)
    as [[E _]|[(_ & V & token & HV & _ & Ho & _)|(_ & key & _ & _ & _ & (i & k & Hk & _))]];
    [discriminate E|exists V, token; split; [exact HV|exact Ho]|discriminate Hk].
Defined.

Definition example_key_request : createAPIKeyAPIRequest :=
  mkCreateRequest " ci " ["write"; " write"; ""] "90d" "" "" ["mcp-git"].
Definition example_random : option bytes := Some (replicate 32 "k"%char).

(** The answer to the example and the table it leaves. The read after the insert
    fails, and the key is answered all the same. *)
Lemma example_created :
  { rd : createAPIKeyAPIResponse * AccessDB |
    handleCreate 100 example_random 0 (Some example_key_request)
      (example_access [false; true]) = (KeyCreated rd.1, rd.2) ∧
    rd.2.(ac_faults) = [] ∧ rd.2.(ac_now) = 100%Z ∧ rd.1.(ca_Record).(ak_ExpiresAt) = Some (100 + 90 * (1440 * minute))%Z ∧
    rd.1.(ca_Record).(ak_Scopes) = ["write"] ∧ rd.1.(ca_Record).(ak_ServerScope) = ["mcp-git"] }.
Proof. eexists (_, _). cbn [fst snd]. split; [reflexivity|]. repeat split. Defined.

Lemma created_key_authenticates_witness :
  let resp := (`example_created).1 in
  (AuthMiddleware example_options 200 (bearer resp.(ca_APIKey))
     (`example_created).2).1 = AuthNext (key_identity resp.(ca_Record)) ["mcp-git"] false.
Proof.
  destruct example_created as [[resp d] (Hc & Hf & Hn & He & Hs & Hss)]. cbn [proj1_sig fst snd] in *.
  destruct (created_key_authenticates example_options 100
    example_random 0 example_key_request (example_access [false; true]) resp d 200 d Hc eq_refl Hf eq_refl) as [Ha _].
  - intros t Ht. rewrite He in Ht. injection Ht as <-. rewrite Hn. unfold minute. lia.
  - rewrite Ha, Hss. reflexivity.
Defined.

(** The key of the example, with its row in the table. *)
Definition example_row (key : string) : APIKey :=
  mkAPIKey "row" (LookupHashAPIKey key) "" "ci" ["write"] "ci" "default" [] None 100.

Lemma revoked_key_rejected_witness :
  ∃ key h b db1, GenerateAPIKey example_random 0 = Some (key, h, b) ∧
    handleRevoke " row " (set_ac_keys {["row" := example_row key]} (example_access [])) = (KeyRevoked "row", db1) ∧
    (AuthMiddleware example_options 500 (bearer key) (set_ac_now 500 (set_ac_faults [] db1))).1
      = AuthReject 401 "invalid api key".
Proof.
  eexists _, _, _, _. split; [reflexivity|]. split; [reflexivity|].
  eapply (revoked_key_rejected example_options example_random 0 _ _ _ " row " "row" _
    (set_ac_keys {["row" := example_row _]} (example_access []))).
  - reflexivity.
  - reflexivity.
  - reflexivity.
  - apply lookup_singleton_eq.
  - reflexivity.
  - intros i k Hk _. cbn [ac_keys set_ac_keys] in Hk. by apply lookup_singleton_Some in Hk as [<- _].
  - reflexivity.
  - apply rtc_once, step_time. cbn. lia.
Defined.

Lemma oidc_login_keeps_roles_witness :
  let alice := mkUser "7" "alice" "" "" RoleAdmin 1 1 in
  let db := mkAccessDB 100 ∅ {["7" := alice]} ∅ [] 0 in
  let id := mkIdentity IdentityOIDC "alice" [] (<["email" := "a@example.org"]> ∅) in
  (autoRegisterOIDCUser 100 id true db).2.(ac_users) !! "7"
    = Some (mkUser "7" "alice" "a@example.org" "" RoleAdmin 1 100) ∧
  upserted "alice" {["7" := alice]} (autoRegisterOIDCUser 100 id true db).2.(ac_users).
Proof.
  intros alice db id. split; [vm_compute; reflexivity|].
  apply (oidc_login_keeps_roles 100 id true db). split.
  - intros i u Hi. cbn [ac_users db] in Hi. by apply lookup_singleton_Some in Hi as [<- <-].
  - intros i j u v Hi Hj _. cbn [ac_users db] in Hi, Hj.
    apply lookup_singleton_Some in Hi as [<- _]. by apply lookup_singleton_Some in Hj as [<- _].
Defined.
