(* ===== verification/Routing.v ===== *)
(** * Routing of tool calls: [internal/proxy]

    Names of tools across servers ([namespace.go], [federatedToolName] of
    [tools.go], [resolveFederatedName] of [router.go]), the choice of a server
    ([router.go], [session_affinity.go]), the call itself, the endpoints of
    single servers ([virtual_server.go]), the permissions of users and the tools
    they are shown ([server.go], [tools.go]), and the rewriting of names by the
    [X-MCP-Server] header.

    The MCP call of a backend is a parameter, a function of the URL its client was
    made with; the breaker, the retries and the rate limiter are those of
    [Resilience] and [RateLimit]. *)

From stdpp Require Import pretty.
From S2P Require Import Prelude GoStrings GoFloat Types RegTypes Json CapIndex Resilience RateLimit.
From S2P Require Import AccessStore Auth.

#[local] Open Scope string_scope.
#[local] Open Scope list_scope.
#[local] Open Scope nat_scope.
#[local] Open Scope go_scope.

(** ** Names across servers *)

Inductive NamespaceMode := NamespaceModeReject | NamespaceModeAlways | NamespaceModeOnConflict.

#[export] Instance NamespaceMode_eq_dec : EqDecision NamespaceMode.
Proof. solve_decision. Defined.

Record NamespaceResolver := mkNamespaceResolver { ns_mode : NamespaceMode; ns_separator : string }.

(** [NewNamespaceResolver]; the index is shared with the router. *)
Definition NewNamespaceResolver (mode separator : string) : NamespaceResolver :=
  let m := TrimSpace mode in
  mkNamespaceResolver
    (if bool_decide (m = "namespace_always") then NamespaceModeAlways
     else if bool_decide (m = "namespace_on_conflict") then NamespaceModeOnConflict
     else NamespaceModeReject)
    (if bool_decide (separator = "") then "." else separator).

(** The text before and after the first occurrence of a separator that is not at
    the start: [strings.Index] with the test [idx > 0] and the two slices. *)
Definition split_hint (name sep : string) : option (string * string) :=
  match cut (to_bytes sep) (to_bytes name) with
  | Some (((_ :: _) as x), y) => Some (of_bytes x, of_bytes y)
  | _ => None
  end.

(** [strings.TrimPrefix] of a server's name. *)
Definition display_name (server : string) : string := TrimPrefix server "mcp-".

(** [federatedToolName]. *)
Definition federatedToolName (server : ServerRecord) (toolName : string) : string :=
  let base := TrimSpace toolName in
  if bool_decide (base = "") then ""
  else
    let serverName :=
      if bool_decide (TrimSpace server.(Name) = "") then TrimSpace server.(ID) else TrimSpace server.(Name) in
    if bool_decide (serverName = "") then ""
    else
      let displayName := display_name serverName in
      if HasPrefix base (displayName +:+ ".") then base else displayName +:+ "." +:+ base.

Section names.
Context (index : CapabilityIndex).

(** [IsConflict]. *)
Definition IsConflict (toolName : string) : bool := 1 <? length (LookupTool index (TrimSpace toolName)).

(** [ApplyNamespace], of a resolver. *)
Definition ApplyNamespace (r : NamespaceResolver) (toolName serverName : string) : string :=
  let tool := TrimSpace toolName in
  let server := TrimSpace serverName in
  if bool_decide (tool = "") || bool_decide (server = "") then tool
  else
    let displayName := display_name server in
    match r.(ns_mode) with
    | NamespaceModeAlways => displayName +:+ r.(ns_separator) +:+ tool
    | NamespaceModeOnConflict =>
        if IsConflict tool then displayName +:+ r.(ns_separator) +:+ tool else tool
    | NamespaceModeReject => tool
    end.

(** [ResolveNamespace]: the server hint, empty when there is none, and the tool. *)
Definition ResolveNamespace (r : NamespaceResolver) (namespacedName : string) : string * string :=
  let name := TrimSpace namespacedName in
  match split_hint name r.(ns_separator) with
  | Some p => p
  | None => ("", name)
  end.

(** [toolAggregator.resolveFederatedName], the name a tool is listed under. *)
Definition listed_name (ns : option NamespaceResolver) (server : ServerRecord) (toolName : string) : string :=
  match ns with
  | Some r =>
      if bool_decide (r.(ns_mode) = NamespaceModeReject) then federatedToolName server toolName
      else
        ApplyNamespace r toolName
          (if bool_decide (TrimSpace server.(Name) = "") then TrimSpace server.(ID) else TrimSpace server.(Name))
  | None => federatedToolName server toolName
  end.

(** The attempts of [Router.resolveFederatedName] after the direct match. *)
Definition resolve_by_namespace (ns : option NamespaceResolver) (name : string) : option (string * string) :=
  match ns with
  | Some r =>
      if bool_decide (r.(ns_mode) = NamespaceModeReject) then None
      else
        let '(hint, bare) := ResolveNamespace r name in
        if bool_decide (hint = "") || bool_decide (bare = "") then None
        else if bool_decide (LookupTool index bare = []) then None else Some (bare, hint)
  | None => None
  end.

Definition resolve_by_dot (name : string) : option (string * string) :=
  match split_hint name "." with
  | Some (hint, rest) => if bool_decide (LookupTool index rest = []) then None else Some (rest, hint)
  | None => None
  end.

Definition resolve_legacy (name : string) : option (string * string) :=
  match SplitN name "." 3 with
  | [p; server; tool] => if bool_decide (p = "mcp") then Some (tool, server) else None
  | _ => None
  end.

(** [Router.resolveFederatedName]: the raw tool name and the server hint. *)
Definition resolveFederatedName (ns : option NamespaceResolver) (name : string) : string * string :=
  if negb (bool_decide (LookupTool index name = [])) then (name, "")
  else
    match resolve_by_namespace ns name with
    | Some p => p
    | None =>
        match resolve_by_dot name with
        | Some p => p
        | None => default (name, "") (resolve_legacy name)
        end
    end.

End names.

(** ** The choice of a server *)

(** [hash/fnv], FNV-1a with 64 bits. *)
Definition fnv_step (h : Z) (a : ascii) : Z := wrap_u64 (Z.lxor h (Z.of_N (code a)) * 1099511628211).
Definition fnv64a (l : bytes) : Z := foldl fnv_step 14695981039346656037%Z l.

(** [hrwScore]. *)
Definition hrwScore (sessionID candidateID : string) : Z := fnv64a (to_bytes sessionID ++ to_bytes candidateID).

(** [RoutingStrategy]: its two implementations. *)
Inductive RoutingStrategy := RoundRobin | SessionAffinity (fallback : RoutingStrategy).

(** [RoundRobinStrategy.Select]; the counter is an unsigned 64-bit integer. *)
Definition round_robin (counter : Z) (candidates : list ServerRecord) : option ServerRecord * Z :=
  match candidates with
  | [] => (None, counter)
  | _ => (candidates !! Z.to_nat (counter mod Z.of_nat (length candidates)), wrap_u64 (counter + 1))
  end.

(** The loop of [SessionAffinityStrategy.Select]. *)
Fixpoint hrw_best (sessionID : string) (best : option (ServerRecord * Z)) (l : list ServerRecord) :
    option (ServerRecord * Z) :=
  match l with
  | [] => best
  | c :: l' =>
      let score := hrwScore sessionID c.(ID) in
      hrw_best sessionID
        (match best with
         | Some (_, bestScore) => if (bestScore <? score)%Z then Some (c, score) else best
         | None => Some (c, score)
         end) l'
  end.

(** [Select] of a strategy, on the session of the request. *)
Fixpoint Select (s : RoutingStrategy) (counter : Z) (candidates : list ServerRecord) (sessionID : string) :
    option ServerRecord * Z :=
  match s with
  | RoundRobin => round_robin counter candidates
  | SessionAffinity fallback =>
      match candidates with
      | [] => (None, counter)
      | _ =>
          if bool_decide (sessionID = "") then Select fallback counter candidates sessionID
          else (fst <$> hrw_best sessionID None candidates, counter)
      end
  end.

(** [matchesServerHint] and [filterCandidatesByServer]. *)
Section hints.
Context `{UnicodeTables}.

Definition matchesServerHint (actual hint : string) : bool :=
  let a := TrimSpace actual in EqualFold a hint || EqualFold (display_name a) hint.

Definition filterCandidatesByServer (candidates : list ServerRecord) (requested : string) : list ServerRecord :=
  List.filter (λ c, matchesServerHint c.(Name) requested || matchesServerHint c.(ID) requested) candidates.

(** The candidates [Route] chooses among, and the tool it will ask for. *)
Definition route_candidates (index : CapabilityIndex) (ns : option NamespaceResolver) (name : string) :
    string * list ServerRecord :=
  let '(backendToolName, requestedServer) := resolveFederatedName index ns name in
  let candidates := LookupTool index backendToolName in
  (backendToolName,
   if bool_decide (requestedServer = "") then candidates
   else filterCandidatesByServer candidates requestedServer).

End hints.

(** ** The router *)

Record ContentBlock := mkContentBlock { ct_Type : string; ct_Text : string }.
Record ToolResult := mkToolResult { tr_Content : list ContentBlock; tr_IsError : bool }.

Definition ErrToolNotFound : error := Sentinel "tool not found".
Definition ErrServerScopeDenied : error := Sentinel "server scope denied".

(** The errors of [Route]; [ServerRateLimitError] is told apart by its callers. *)
Inductive RouteError :=
| RouteFailed (err : error)
| ServerRateLimited (serverName : string) (retryAfter : Z).

Section router.
Context `{UnicodeTables} {S L : Type} `{Env S}.
(** The MCP call of the client made for a URL. *)
Context (backend : string → string → list (string * any) → ST S ToolResult).

Record Router := mkRouter {
  rt_strategy : RoutingStrategy;
  rt_limiter : option (LimiterBackend L);
  rt_nsResolver : option NamespaceResolver;
  rt_retryCfg : RetryConfig;
  rt_circuitTimeout : Z;
  rt_circuitThresh : Z;
}.

(** What a call may change. A client is kept as the URL it was made for; the
    breaker of a client is the one of its server in the registry. *)
Record RouterState := mkRouterState {
  rs_index : CapabilityIndex;
  rs_clients : gmap string string;
  rs_breakers : gmap string CircuitBreaker;
  rs_counter : Z;
  rs_limits : L;
  rs_env : S;
}.

Definition rs_set_counter (n : Z) (st : RouterState) : RouterState :=
  mkRouterState st.(rs_index) st.(rs_clients) st.(rs_breakers) n st.(rs_limits) st.(rs_env).
Definition rs_set_limits (l : L) (st : RouterState) : RouterState :=
  mkRouterState st.(rs_index) st.(rs_clients) st.(rs_breakers) st.(rs_counter) l st.(rs_env).
Definition rs_set_clients (c : gmap string string) (b : gmap string CircuitBreaker) (st : RouterState) : RouterState :=
  mkRouterState st.(rs_index) c b st.(rs_counter) st.(rs_limits) st.(rs_env).
Definition rs_set_env (b : gmap string CircuitBreaker) (s : S) (st : RouterState) : RouterState :=
  mkRouterState st.(rs_index) st.(rs_clients) b st.(rs_counter) st.(rs_limits) s.

Context (rt : Router).

(** [checkServerRateLimit]. *)
Definition checkServerRateLimit (server : ServerRecord) (st : RouterState) : option RouteError * RouterState :=
  match server.(Types.RateLimit) with
  | None => (None, st)
  | Some limit =>
      if (limit <=? 0)%Z then (Some (ServerRateLimited server.(Name) 0), st)
      else
        match rt.(rt_limiter) with
        | None => (None, st)
        | Some lim =>
            let burst :=
              match server.(Types.RateBurst) with
              | Some b => if (0 <? b)%Z then b else limit
              | None => limit
              end in
            let key := mkLimiterKey ("server:" +:+ server.(ID)) "global" in
            match lim (clock st.(rs_env)) key (f_of_Z limit) burst st.(rs_limits) with
            | (Err err, l) => (Some (RouteFailed (Wrap "server rate limit check" err)), rs_set_limits l st)
            | (Ok v, l) =>
                ((if v.(v_allowed) then None
                  else Some (ServerRateLimited server.(Name) v.(v_retryAfter))), rs_set_limits l st)
            end
        end
  end.

(** The URL of [NewBackendClient]. *)
Definition client_url (record : ServerRecord) : string :=
  baseURL record.(Protocol) record.(Host) record.(Port).

(** [GetOrCreateClient]: the client of the server, made for the record of the
    first call. *)
Definition GetOrCreateClient (record : ServerRecord) (st : RouterState) : string * RouterState :=
  match st.(rs_clients) !! record.(ID) with
  | Some url => (url, st)
  | None =>
      let breakers := (GetOrCreate st.(rs_breakers) record.(ID) rt.(rt_circuitThresh) rt.(rt_circuitTimeout)).2 in
      (client_url record, rs_set_clients (<[record.(ID) := client_url record]> st.(rs_clients)) breakers st)
  end.

(** [StoreBackendClient]: the client replaces that of the server. *)
Definition StoreBackendClient (record : ServerRecord) (url : string) (st : RouterState) : RouterState :=
  let breakers := (GetOrCreate st.(rs_breakers) record.(ID) rt.(rt_circuitThresh) rt.(rt_circuitTimeout)).2 in
  rs_set_clients (<[record.(ID) := url]> st.(rs_clients)) breakers st.

(** [CallTool] of the resilient client of a server. *)
Definition call_client (id url tool : string) (arguments : list (string * any)) (st : RouterState) :
    result ToolResult * RouterState :=
  let cb := (GetOrCreate st.(rs_breakers) id rt.(rt_circuitThresh) rt.(rt_circuitTimeout)).1 in
  let '(r, (cb, s)) := CallTool rt.(rt_retryCfg) (backend url tool arguments) tool (cb, st.(rs_env)) in
  (r, rs_set_env (<[id := cb]> st.(rs_breakers)) s st).

(** [Route]; [scope] is the server scope of the context. The request carries no
    session. *)
Definition Route (scope : list string) (toolName : string) (arguments : list (string * any))
    (st : RouterState) : (RouteError + ToolResult) * RouterState :=
  let name := TrimSpace toolName in
  if bool_decide (name = "") then (inl (RouteFailed (Opaque "route tool: missing tool name")), st)
  else
    let '(backendToolName, candidates) := route_candidates st.(rs_index) rt.(rt_nsResolver) name in
    match candidates with
    | [] => (inl (RouteFailed (Wrap "route tool" ErrToolNotFound)), st)
    | _ =>
        let '(selected, counter) := Select rt.(rt_strategy) st.(rs_counter) candidates "" in
        let st := rs_set_counter counter st in
        match selected with
        | None => (inl (RouteFailed (Wrap "route tool" ErrToolNotFound)), st)
        | Some selected =>
            if negb (CheckServerScope scope selected.(Name)) then
              (inl (RouteFailed (Wrap "route tool" ErrServerScopeDenied)), st)
            else
              match checkServerRateLimit selected st with
              | (Some err, st) => (inl err, st)
              | (None, st) =>
                  let '(url, st) := GetOrCreateClient selected st in
                  match call_client selected.(ID) url backendToolName arguments st with
                  | (Err err, st) => (inl (RouteFailed (Wrap ("route tool: backend " +:+ selected.(ID)) err)), st)
                  | (Ok result, st) => (inr result, st)
                  end
              end
        end
    end.

End router.

Arguments Router : clear implicits.
Arguments RouterState : clear implicits.

(** ** Permissions of users *)

(** The audit entry of [auditToolDenied]. *)
Record ToolDenied := mkToolDenied {
  td_tool : string;
  td_sub : string;
  td_email : string;
  td_reason : string;
}.

(** [checkToolPermission]: [None] when the call may go on, or the reason and the
    message of the refusal, whose audit entry the caller of the model appends. *)
Definition checkToolPermission (id : option Identity) (toolName : string) (db : AccessDB) :
    option (ToolDenied * string) * AccessDB :=
  match id with
  | Some id =>
      if negb (bool_decide (id.(id_Type) = IdentityOIDC)) then (None, db)
      else
        let deny reason msg := Some (mkToolDenied toolName id.(id_ID) (metadata id "email") reason, msg) in
        match GetByOIDCSub id.(id_ID) db with
        | (Err _, db) => (deny "lookup_error" "Permission check failed. Contact an administrator.", db)
        | (Ok None, db) => (deny "unregistered" "Your account is not registered. Contact an administrator.", db)
        | (Ok (Some user), db) =>
            match user.(u_Role) with
            | RoleAdmin => (None, db)
            | RoleBlocked => (deny "blocked" "Your account has been blocked. Contact an administrator.", db)
            | RoleViewer => (deny "read_only" "Your account has read-only access and cannot call tools.", db)
            | RoleUser =>
                match HasToolPermission user.(u_ID) toolName db with
                | (Err _, db) => (deny "lookup_error" "Permission check failed. Contact an administrator.", db)
                | (Ok has, db) =>
                    if has then (None, db)
                    else (deny "no_permission" ("You do not have permission to use " +:+ toolName
                            +:+ ". Contact an administrator to request access."), db)
                end
            | RoleRaw _ => (deny "unknown_role" "Unknown account role. Contact an administrator.", db)
            end
        end
  | None => (None, db)
  end.

Definition requestAccessToolName : string := "gateway.request_access".
Definition metaToolNames : list string :=
  ["search_tools"; "get_tool_schema"; "cruvero.orchestrate"; requestAccessToolName].

(** The filters of a tools/list answer; a tool is its name. *)
Definition withoutRequestAccessTool (tools : list string) : list string :=
  List.filter (λ t, negb (bool_decide (t = requestAccessToolName))) tools.
Definition onlyRequestAccessTool (tools : list string) : list string :=
  if bool_decide (requestAccessToolName ∈ tools) then [requestAccessToolName] else [].
Definition onlyMetaTools (tools : list string) : list string :=
  List.filter (λ t, bool_decide (t ∈ metaToolNames)) tools.

(** [applyRoleFilter]; [userStore] tells whether there is one. *)
Definition applyRoleFilter (userStore : bool) (id : option Identity) (tools : list string) (db : AccessDB) :
    list string * AccessDB :=
  match userStore, id with
  | true, Some id =>
      if negb (bool_decide (id.(id_Type) = IdentityOIDC)) then (withoutRequestAccessTool tools, db)
      else
        match GetByOIDCSub id.(id_ID) db with
        | (Err _, db) | (Ok None, db) => (onlyRequestAccessTool tools, db)
        | (Ok (Some user), db) =>
            match user.(u_Role) with
            | RoleAdmin => (withoutRequestAccessTool tools, db)
            | RoleUser | RoleViewer =>
                match GetToolPermissions user.(u_ID) db with
                | (Err _, db) | (Ok [], db) => (onlyRequestAccessTool tools, db)
                | (Ok perms, db) =>
                    (List.filter (λ t, negb (bool_decide (t = requestAccessToolName))
                                       && bool_decide (t ∈ up_ToolName <$> perms)) tools, db)
                end
            | RoleBlocked | RoleRaw _ => (onlyRequestAccessTool tools, db)
            end
        end
  | _, _ => (withoutRequestAccessTool tools, db)
  end.

(** [toolFilterFunc]. *)
Definition toolFilterFunc (progressive userStore : bool) (id : option Identity) (tools : list string)
    (db : AccessDB) : list string * AccessDB :=
  let '(filtered, db) := applyRoleFilter userStore id tools db in
  (if progressive then onlyMetaTools filtered else filtered, db).

(** ** Tool calls *)

(** An entry of [auditToolCall], which a goroutine writes. *)
Record ToolCallAudit := mkToolCallAudit { ca_tool : string; ca_preview : string; ca_isError : bool }.

(** [truncate]. *)
Definition truncate (s : string) (maxLen : nat) : string := if len s <=? maxLen then s else slice_to s maxLen.

(** The texts of a refused call. *)
Inductive ToolMessage :=
| MsgText (text : string)
| MsgServerBlocked (server : string)
| MsgServerLimited (server : string) (retryAfter : Z).

(** What the handler returns: a tool result with an error message, the result of
    the backend, or an error. *)
Inductive ToolReply :=
| ReplyRefused (msg : ToolMessage)
| ReplyResult (content : list ContentBlock) (isError : bool)
| ReplyFailed (err : error).

(** [convertContentBlocks]. *)
Definition convertContentBlocks (blocks : list ContentBlock) : list ContentBlock :=
  (λ b, mkContentBlock (if bool_decide (b.(ct_Type) = "") then "text" else b.(ct_Type)) b.(ct_Text)) <$> blocks.

Section proxy.
Context `{UnicodeTables} {S L : Type} `{Env S}.
Context (backend : string → string → list (string * any) → ST S ToolResult) (rt : Router L).

Record ProxyWorld := mkProxyWorld {
  px_router : RouterState S L;
  px_access : AccessDB;
  px_denied : list ToolDenied;
  px_calls : list ToolCallAudit;
}.

Definition px_set_router (st : RouterState S L) (w : ProxyWorld) : ProxyWorld :=
  mkProxyWorld st w.(px_access) w.(px_denied) w.(px_calls).
Definition px_set_access (db : AccessDB) (w : ProxyWorld) : ProxyWorld :=
  mkProxyWorld w.(px_router) db w.(px_denied) w.(px_calls).
Definition px_deny (d : ToolDenied) (w : ProxyWorld) : ProxyWorld :=
  mkProxyWorld w.(px_router) w.(px_access) (d :: w.(px_denied)) w.(px_calls).
Definition px_call (c : ToolCallAudit) (w : ProxyWorld) : ProxyWorld :=
  mkProxyWorld w.(px_router) w.(px_access) w.(px_denied) (c :: w.(px_calls)).

(** The stores the proxy was wired with. *)
Record ProxyConfig := mkProxyConfig { pc_userStore : bool; pc_auditStore : bool }.
Context (cfg : ProxyConfig).

Definition auditToolCall (toolName preview : string) (isError : bool) (w : ProxyWorld) : ProxyWorld :=
  if cfg.(pc_auditStore) then px_call (mkToolCallAudit toolName preview isError) w else w.

(** The permission check of a call, with the entry of a refusal. *)
Definition permission_gate (id : option Identity) (toolName : string) (w : ProxyWorld) : option string * ProxyWorld :=
  if cfg.(pc_userStore) then
    match checkToolPermission id toolName w.(px_access) with
    | (None, db) => (None, px_set_access db w)
    | (Some (entry, msg), db) =>
        let w := px_set_access db w in
        (Some msg, if cfg.(pc_auditStore) then px_deny entry w else w)
    end
  else (None, w).

(** The handler [makeToolHandler] makes for a tool. *)
Definition toolHandler (toolName : string) (id : option Identity) (scope : list string)
    (arguments : list (string * any)) (w : ProxyWorld) : ToolReply * ProxyWorld :=
  match permission_gate id toolName w with
  | (Some msg, w) => (ReplyRefused (MsgText msg), auditToolCall toolName "permission denied" true w)
  | (None, w) =>
      match Route backend rt scope toolName arguments w.(px_router) with
      | (inl (ServerRateLimited server retryAfter), st) =>
          (ReplyRefused (if (retryAfter =? 0)%Z then MsgServerBlocked server else MsgServerLimited server retryAfter),
           auditToolCall toolName "server rate limited" true (px_set_router st w))
      | (inl (RouteFailed err), st) =>
          (ReplyFailed (Wrap ("route tool " +:+ toolName) err), auditToolCall toolName "" true (px_set_router st w))
      | (inr result, st) =>
          let preview := match result.(tr_Content) with c :: _ => truncate c.(ct_Text) 1024 | [] => "" end in
          (ReplyResult (convertContentBlocks result.(tr_Content)) result.(tr_IsError),
           auditToolCall toolName preview result.(tr_IsError) (px_set_router st w))
      end
  end.

(** [ExecuteToolCall]: the text and the error flag, or an error. *)
Definition ExecuteToolCall (toolName : string) (id : option Identity) (scope : list string)
    (arguments : list (string * any)) (w : ProxyWorld) : result (ToolMessage * bool) * ProxyWorld :=
  match permission_gate id toolName w with
  | (Some msg, w) => (Ok (MsgText msg, true), auditToolCall toolName "permission denied" true w)
  | (None, w) =>
      match Route backend rt scope toolName arguments w.(px_router) with
      | (inl (ServerRateLimited server retryAfter), st) =>
          (Ok (if (retryAfter =? 0)%Z then MsgServerBlocked server else MsgServerLimited server retryAfter, true),
           auditToolCall toolName "server rate limited" true (px_set_router st w))
      | (inl (RouteFailed err), st) =>
          (Err (Wrap ("route tool " +:+ toolName) err), auditToolCall toolName "" true (px_set_router st w))
      | (inr result, st) =>
          let text := match result.(tr_Content) with c :: _ => c.(ct_Text) | [] => "" end in
          (Ok (MsgText text, result.(tr_IsError)),
           auditToolCall toolName (truncate text 1024) result.(tr_IsError) (px_set_router st w))
      end
  end.

End proxy.

Arguments ProxyWorld : clear implicits.

(** ** The [X-MCP-Server] header *)

Section rewrite.
Context `{UnicodeTables}.

(** [rewriteLegacyToolCallName]: the new name of the tool of a decoded call, when
    it changes. [name] is the parameter as text, empty when it is not one. *)
Definition rewriteLegacyToolCallName (method name serverHint : string) : option string :=
  let server := TrimSpace serverHint in
  if bool_decide (server = "") || EqualFold server "federation" then None
  else if negb (bool_decide (TrimSpace method = "tools/call")) then None
  else
    let name := TrimSpace name in
    if bool_decide (name = "") then None
    else
      let displayName := display_name server in
      if HasPrefix name (displayName +:+ ".") || HasPrefix name "mcp." then None
      else Some (displayName +:+ "." +:+ name).

(** ** The endpoints of single servers *)

(** [serverNamePattern]. *)
Definition server_name_char (first : bool) (a : ascii) : bool :=
  in_range 97 (code a) 122 || in_range 48 (code a) 57
  || (negb first && (bool_decide (a = "_"%char) || bool_decide (a = "-"%char))).
Definition matches_server_name (s : string) : bool :=
  match to_bytes s with
  | a :: rest => server_name_char true a && forallb (server_name_char false) rest && (length rest <=? 62)
  | [] => false
  end.

(** What the handler does: answer with a code, or hand the request to the reverse
    proxy for a URL. *)
Inductive VirtualReply := VirtualError (code : Z) | VirtualForward (url : string).

(** The target of [getOrCreateHandler], kept from the first request. *)
Definition getOrCreateHandler (record : ServerRecord) (instances : gmap string string) :
    string * gmap string string :=
  match instances !! record.(ID) with
  | Some url => (url, instances)
  | None => (client_url record, <[record.(ID) := client_url record]> instances)
  end.

(** [VirtualServerHandler.ServeHTTP], ranging over the tools map in [order]. *)
Definition VirtualServeHTTP (order : list (list ServerRecord)) (serverName : string)
    (instances : gmap string string) : VirtualReply * gmap string string :=
  let serverName := TrimSpace serverName in
  if negb (matches_server_name serverName) then (VirtualError 400, instances)
  else
    match LookupServerIn order serverName with
    | None => (VirtualError 404, instances)
    | Some record =>
        if negb (IsRoutable record.(Status)) then (VirtualError 503, instances)
        else let '(url, instances) := getOrCreateHandler record instances in (VirtualForward url, instances)
    end.

End rewrite.

(** ** The list of tools *)

(** [ToolDefinition]: the fields the aggregation looks at. *)
Record ToolDefinition := mkToolDefinition { tl_Name : string; tl_Description : string; tl_InputSchema : string }.

Record cachedTool := mkCachedTool {
  ch_definition : ToolDefinition;
  ch_fetchedAt : Z;
  ch_serverID : string;
  ch_serverName : string;
}.

Record ToolCache := mkToolCache { tlc_tools : gmap string cachedTool; tlc_ttl : Z }.

Definition defaultToolCacheTTL : Z := 30 * second.

(** [NewToolCache]. *)
Definition NewToolCache (ttl : Z) : ToolCache :=
  mkToolCache ∅ (if (ttl <=? 0)%Z then defaultToolCacheTTL else ttl).

(** [ToolCache.Get]; an entry past its time is removed. *)
Definition ToolCacheGet (now : Z) (name : string) (c : ToolCache) : option ToolDefinition * ToolCache :=
  let key := TrimSpace name in
  if bool_decide (key = "") then (None, c)
  else
    match c.(tlc_tools) !! key with
    | None => (None, c)
    | Some entry =>
        if (c.(tlc_ttl) <? time_sub now entry.(ch_fetchedAt))%Z
        then (None, mkToolCache (delete key c.(tlc_tools)) c.(tlc_ttl))
        else (Some entry.(ch_definition), c)
    end.

(** [ToolCache.Set]. *)
Definition ToolCacheSet (now : Z) (name : string) (def : ToolDefinition) (serverID serverName : string)
    (c : ToolCache) : ToolCache :=
  let key := TrimSpace name in
  if bool_decide (key = "") then c
  else
    mkToolCache
      (<[key := mkCachedTool def now (TrimSpace serverID) (TrimSpace serverName)]> c.(tlc_tools)) c.(tlc_ttl).

(** [ToolCache.Invalidate] and [InvalidateServer]. *)
Definition ToolCacheInvalidate (c : ToolCache) : ToolCache := mkToolCache ∅ c.(tlc_ttl).
Definition InvalidateServer (serverID : string) (c : ToolCache) : ToolCache :=
  let id := TrimSpace serverID in
  if bool_decide (id = "") then c
  else mkToolCache (filter (λ p, p.2.(ch_serverID) ≠ id) c.(tlc_tools)) c.(tlc_ttl).

Section aggregate.
Context (now : Z) (index : CapabilityIndex) (ns : option NamespaceResolver).
(** The tools a backend lists; the call can fail. *)
Context (list_backend : ServerRecord → result (list ToolDefinition)).

(** The aggregator: the answer so far, the names in it, the definitions of the
    backends asked, and the cache of the proxy. *)
Record toolAggregator := mkToolAggregator {
  ag_result : list ToolDefinition;
  ag_seen : gset string;
  ag_backendDefs : gmap string (gmap string ToolDefinition);
  ag_cache : ToolCache;
}.

(** The definitions of a backend by their trimmed names, the last one winning. *)
Definition definitions_by_name (defs : list ToolDefinition) : gmap string ToolDefinition :=
  foldl (λ m def, let name := TrimSpace def.(tl_Name) in
                  if bool_decide (name = "") then m else <[name := def]> m) ∅ defs.

(** [loadBackendDefinitions]: a backend that fails has no tools. *)
Definition loadBackendDefinitions (backend : ServerRecord) (cache : gmap string (gmap string ToolDefinition)) :
    gmap string ToolDefinition * gmap string (gmap string ToolDefinition) :=
  match cache !! backend.(ID) with
  | Some defs => (defs, cache)
  | None =>
      let defs := match list_backend backend with Ok l => definitions_by_name l | Err _ => ∅ end in
      (defs, <[backend.(ID) := defs]> cache)
  end.

(** One round of the loop of [aggregateTool]. *)
Definition aggregate_candidate (toolName : string) (a : toolAggregator) (backend : ServerRecord) : toolAggregator :=
  let federatedName := listed_name index ns backend toolName in
  if bool_decide (federatedName = "") then a
  else if bool_decide (federatedName ∈ a.(ag_seen)) then a
  else
    let '(cached, cache) := ToolCacheGet now federatedName a.(ag_cache) in
    match cached with
    | Some def =>
        mkToolAggregator (a.(ag_result) ++ [def]) ({[federatedName]} ∪ a.(ag_seen)) a.(ag_backendDefs) cache
    | None =>
        let '(defs, backendDefs) := loadBackendDefinitions backend a.(ag_backendDefs) in
        match defs !! toolName with
        | None => mkToolAggregator a.(ag_result) a.(ag_seen) backendDefs cache
        | Some selected =>
            let selected := mkToolDefinition federatedName selected.(tl_Description) selected.(tl_InputSchema) in
            mkToolAggregator (a.(ag_result) ++ [selected]) ({[federatedName]} ∪ a.(ag_seen)) backendDefs
              (ToolCacheSet now federatedName selected backend.(ID) backend.(Name) cache)
        end
    end.

(** [aggregateTool]. *)
Definition aggregateTool (a : toolAggregator) (toolName : string) : toolAggregator :=
  foldl (aggregate_candidate toolName) a (LookupTool index toolName).

(** [handleListTools]. *)
Definition handleListTools (cache : ToolCache) : list ToolDefinition * ToolCache :=
  let a :=
    foldl (λ a toolName, let t := TrimSpace toolName in if bool_decide (t = "") then a else aggregateTool a t)
      (mkToolAggregator [] ∅ ∅ cache) (ListTools index) in
  (a.(ag_result), a.(ag_cache)).

End aggregate.
