(* ===== verification/RoutingProps.v ===== *)
(** * Correctness of routing

    - [route_confined]: a call reaches only servers the caller may use.
    - [listed_name_routes]: the name a tool is listed under routes back to the
      server that has it; [dotted_server_uncallable]: when it does not.
    - [round_robin_fair], [affinity_stable]: the strategies.
    - [listed_iff_callable]: what a user is shown is what a user may call.
    - [stale_client_url]: clients keep the address of their first call. *)

From S2P Require Import Prelude GoStrings GoFloat Types RegTypes Json CapIndex Resilience RateLimit.
From S2P Require Import AccessStore Auth Routing.

#[local] Open Scope string_scope.
#[local] Open Scope list_scope.
#[local] Open Scope nat_scope.
#[local] Open Scope go_scope.

(** ** Confinement *)

Section confined.
Context `{UnicodeTables} {S L : Type} `{Env S}.
Implicit Types (rt : Router L) (st : RouterState S L).

(** A server that a call of [name] may reach: in the index, active, declaring the tool the name
    resolves to, matching its server hint, in the scope of the caller, and not
    blocked. *)
Definition may_reach rt st (scope : list string) (name : string) (r : ServerRecord) : Prop :=
  let '(tool, hint) := resolveFederatedName st.(rs_index) rt.(rt_nsResolver) name in
  r ∈ LookupTool st.(rs_index) tool ∧ r.(Status) = StatusActive ∧ TrimSpace tool ∈ names (tool_caps r) ∧
  (hint ≠ "" → matchesServerHint r.(Name) hint = true ∨ matchesServerHint r.(ID) hint = true) ∧
  (scope ≠ [] → serverInScope r.(Name) scope = true) ∧
  (∀ l, r.(Types.RateLimit) = Some l → (0 < l)%Z).

Lemma candidates_sound rt st name r :
  wf st.(rs_index) → r ∈ (route_candidates st.(rs_index) rt.(rt_nsResolver) name).2 →
  let '(tool, hint) := resolveFederatedName st.(rs_index) rt.(rt_nsResolver) name in
  r ∈ LookupTool st.(rs_index) tool ∧ r.(Status) = StatusActive ∧ TrimSpace tool ∈ names (tool_caps r) ∧
  (hint ≠ "" → matchesServerHint r.(Name) hint = true ∨ matchesServerHint r.(ID) hint = true).
Proof.
  intros [Hwf _]. unfold route_candidates.
  destruct (resolveFederatedName _ _ _) as [tool hint]. cbn [snd].
  assert (Hlook : ∀ r, r ∈ LookupTool (rs_index st) tool →
    r.(Status) = StatusActive ∧ TrimSpace tool ∈ names (tool_caps r)).
  { intros r'. rewrite LookupTool_under. case_bool_decide; [by intros ?%elem_of_nil|].
    by apply (side_wf_elem tool_caps). }
  case_bool_decide as Hh.
  - intros Hr. destruct (Hlook r Hr). by split_and!.
  - intros Hr%list_elem_of_In. apply List.filter_In in Hr as [Hr%list_elem_of_In Hm].
    destruct (Hlook r Hr). apply orb_true_iff in Hm. by split_and!.
Qed.

Lemma Select_elem s counter candidates session r :
  (Select s counter candidates session).1 = Some r → r ∈ candidates.
Proof.
  induction s as [|s IH]; cbn [Select].
  - unfold round_robin. destruct candidates as [|c l]; [done|]. cbn [fst].
    intros Hr. by eapply list_elem_of_lookup_2.
  - destruct candidates as [|c l]; [done|]. case_bool_decide; [done|]. cbn [fst].
    intros (p & Hp & ->)%fmap_Some.
    assert (Hbest : ∀ k best, (∀ q, best = Some q → q.1 ∈ c :: l) → (∀ x, x ∈ k → x ∈ c :: l) →
      ∀ q, hrw_best session best k = Some q → q.1 ∈ c :: l).
    { induction k as [|x k IHk]; intros best Hb Hk q; cbn [hrw_best]; [apply Hb|].
      apply IHk; [|set_solver]. intros q' Hq'. destruct best as [[b sc]|].
      - destruct (_ <? _)%Z; [injection Hq' as <-; set_solver|by apply Hb].
      - injection Hq' as <-. set_solver. }
    by apply (Hbest (c :: l) None).
Qed.

(** C3: A call reaches only servers the caller may use. Take two worlds of
    backends that answer alike at the clients of the servers a call may reach:
    active servers that declare the tool and match the hint of its name, in the
    server scope of the caller, and not blocked by their rate limit. Then the
    call cannot tell them apart: its answer and the state it leaves are the same,
    so it never reached any other backend. *)
Theorem route_confined (backend backend' : string → string → list (string * any) → ST S ToolResult)
    rt scope toolName arguments st ops :
  st.(rs_index) = foldl CapIndex.exec NewCapabilityIndex ops →
  (∀ r, may_reach rt st scope (TrimSpace toolName) r →
    let url := default (client_url r) (st.(rs_clients) !! r.(ID)) in backend url = backend' url) →
  Route backend rt scope toolName arguments st = Route backend' rt scope toolName arguments st.
Proof.
  intros Hix Hagree. unfold Route. case_bool_decide; [done|].
  assert (Hwf : wf (rs_index st)) by (rewrite Hix; apply (wf_run ops NewCapabilityIndex (wf_new 0))).
  pose proof (candidates_sound rt st (TrimSpace toolName)) as Hsound.
  unfold may_reach in Hagree. unfold route_candidates in *.
  destruct (resolveFederatedName _ _ _) as [tool hint].
  generalize dependent (if bool_decide (hint = "") then LookupTool (rs_index st) tool
    else filterCandidatesByServer (LookupTool (rs_index st) tool) hint). intros candidates Hsound.
  destruct candidates as [|c l]; [done|]. cbn [snd] in Hsound. set (candidates := c :: l) in *. clearbody candidates.
  pose proof (Select_elem (rt_strategy rt) (rs_counter st) candidates "") as Hsel.
  destruct (Select _ _ _ _) as [[r|] counter]; [|done]. specialize (Hsel r eq_refl).
  destruct (CheckServerScope scope (Name r)) eqn:Escope; [|done]. cbn [negb].
  unfold checkServerRateLimit.
  assert (Hcall : ∀ st', rs_clients st' = rs_clients st → (∀ l, Types.RateLimit r = Some l → (0 < l)%Z) →
    (let '(url, st) := GetOrCreateClient rt r st' in
      match call_client backend rt r.(ID) url tool arguments st with
      | (Err err, st) => (inl (RouteFailed (Wrap ("route tool: backend " +:+ r.(ID)) err)), st)
      | (Ok result, st) => (inr result, st) end) =
    (let '(url, st) := GetOrCreateClient rt r st' in
      match call_client backend' rt r.(ID) url tool arguments st with
      | (Err err, st) => (inl (RouteFailed (Wrap ("route tool: backend " +:+ r.(ID)) err)), st)
      | (Ok result, st) => (inr result, st) end)).
  { intros st' Hcl Hl. destruct (Hsound r Hwf Hsel) as (Hin & Hs & Ht & Hh).
    assert (Hsc : scope ≠ [] → serverInScope (Name r) scope = true) by (by destruct scope).
    assert (Hurl := Hagree r (conj Hin (conj Hs (conj Ht (conj Hh (conj Hsc Hl)))))). cbv zeta in Hurl.
    unfold GetOrCreateClient. rewrite Hcl. destruct (rs_clients st !! ID r) as [url|]; cbn [default from_option id] in Hurl;
      unfold call_client; by rewrite Hurl. }
  destruct (Types.RateLimit r) as [limit|] eqn:El; [|by apply Hcall].
  destruct (limit <=? 0)%Z eqn:E0; [done|].
  assert (Hpos : ∀ l, Some limit = Some l → (0 < l)%Z) by (intros ? [= <-]; lia).
  destruct (rt_limiter rt) as [lim|]; [|by apply Hcall].
  destruct (lim _ _ _ _ _) as [[e|v] limits]; [done|]. destruct (v_allowed v); [|done]. by apply Hcall.
Qed.

End confined.

(** ** Names *)

(** [sep] first occurs in [d +:+ sep +:+ t] right after [d]. *)
Definition splits_at (d sep t : string) : Prop :=
  ∀ x y, d +:+ sep +:+ t = x +:+ sep +:+ y → len d <= len x.

Lemma split_hint_at d sep t : d ≠ "" → splits_at d sep t → split_hint (d +:+ sep +:+ t) sep = Some (d, t).
Proof.
  intros Hd Hfirst. unfold split_hint. rewrite !to_bytes_app.
  destruct (cut (to_bytes sep) (to_bytes d ++ to_bytes sep ++ to_bytes t)) as [[x y]|] eqn:E.
  - assert (Hle := cut_first _ _ _ _ _ _ E eq_refl). pose proof (cut_Some _ _ _ _ E) as Heq.
    assert (Hge : len d <= length x).
    { specialize (Hfirst (of_bytes x) (of_bytes y)). unfold len in Hfirst. rewrite to_of_bytes in Hfirst.
      apply Hfirst. apply to_bytes_inj. by rewrite !to_bytes_app, !to_of_bytes. }
    apply app_inj_1 in Heq as [Hx Hy]; [|unfold len in Hge; lia]. apply app_inv_head in Hy. subst x y.
    destruct (to_bytes d) as [|a l] eqn:Ed; [by apply to_bytes_nil in Ed|].
    rewrite <- Ed. by rewrite !of_to_bytes.
  - by eapply cut_None in E.
Qed.

Lemma splits_at_dot d t : "."%char ∉ to_bytes d → splits_at d "." t.
Proof.
  intros Hd x y Heq. destruct (decide (len d <= len x)); [done|]. exfalso. apply Hd.
  apply (f_equal to_bytes) in Heq. rewrite !to_bytes_app in Heq. unfold len in *.
  apply (f_equal (λ l, l !! length (to_bytes x))) in Heq.
  rewrite lookup_app_l in Heq by lia. rewrite lookup_app_r, Nat.sub_diag in Heq by lia.
  by eapply list_elem_of_lookup_2.
Qed.

Section names.
Context `{UnicodeTables} `{!UnicodeLaws _}.

Lemma hint_matches r d :
  d = display_name (TrimSpace r.(Name)) → matchesServerHint r.(Name) d = true.
Proof. intros ->. unfold matchesServerHint. by rewrite EqualFold_refl, orb_true_r. Qed.

Lemma hinted_candidate r d l :
  r ∈ l → d = display_name (TrimSpace r.(Name)) → r ∈ filterCandidatesByServer l d.
Proof.
  intros Hr Hd. apply list_elem_of_In, List.filter_In. split; [by apply list_elem_of_In|].
  by rewrite (hint_matches r d Hd).
Qed.

(** The separator a listed name is made with. *)
Definition listing_separator (ns : option NamespaceResolver) : string :=
  match ns with
  | Some r => if bool_decide (r.(ns_mode) = NamespaceModeReject) then "." else r.(ns_separator)
  | None => "."
  end.

Lemma listed_name_cases index ns r t :
  let n := TrimSpace r.(Name) in
  n ≠ "" → TrimSpace t = t → t ≠ "" →
  listed_name index ns r t = t ∨
  listed_name index ns r t = display_name n +:+ listing_separator ns +:+ t.
Proof.
  intros n Hn Ht Hne.
  assert (Hfed : federatedToolName r t = t ∨ federatedToolName r t = display_name n +:+ "." +:+ t).
  { unfold federatedToolName. rewrite Ht. rewrite bool_decide_eq_false_2 by done.
    fold n. rewrite (bool_decide_eq_false_2 (n = "")) by done. rewrite (bool_decide_eq_false_2 (n = "")) by done.
    destruct (HasPrefix t _); auto. }
  unfold listed_name, listing_separator. destruct ns as [[mode sep]|]; [|done]. cbn [ns_mode ns_separator].
  case_bool_decide as Hm; [done|]. unfold ApplyNamespace. fold n.
  rewrite (bool_decide_eq_false_2 (n = "")) by done. rewrite Ht.
  assert (Hn' : TrimSpace n = n) by apply TrimSpace_idemp. rewrite Hn'.
  rewrite (bool_decide_eq_false_2 (t = "")) by done. rewrite (bool_decide_eq_false_2 (n = "")) by done.
  cbn [orb ns_mode ns_separator]. destruct mode; [done|by right|]. destruct (IsConflict index t); auto.
Qed.

(** The first attempts at a name that is no tool of the index and splits into a
    display name and a tool. *)
Lemma resolve_listed index ns d t :
  let name := d +:+ listing_separator ns +:+ t in
  d ≠ "" → t ≠ "" → TrimSpace name = name → splits_at d (listing_separator ns) t →
  LookupTool index name = [] → LookupTool index t ≠ [] →
  resolveFederatedName index ns name = (t, d).
Proof.
  intros name Hd Ht Htrim Hsplit Hno Hyes. unfold resolveFederatedName.
  rewrite bool_decide_eq_true_2 by done. cbn [negb].
  pose proof (split_hint_at d _ t Hd Hsplit) as Hs. fold name in Hs.
  assert (Hdot : listing_separator ns = "." → resolve_by_dot index name = Some (t, d)).
  { intros E. unfold resolve_by_dot. rewrite <- E, Hs. by rewrite bool_decide_eq_false_2. }
  unfold resolve_by_namespace, listing_separator in *. destruct ns as [[mode sep]|]; [|by rewrite Hdot].
  cbn [ns_mode ns_separator] in *. case_bool_decide as Hm; [by rewrite Hdot|].
  unfold ResolveNamespace. cbn [ns_separator]. rewrite Htrim, Hs.
  rewrite (bool_decide_eq_false_2 (d = "")) by done. rewrite (bool_decide_eq_false_2 (t = "")) by done.
  cbn [orb]. by rewrite bool_decide_eq_false_2.
Qed.

(** The round trip of tool names. A tool that a server has is listed under a
    name that routes back to it, in every namespace mode: when the separator
    first occurs right after the display name of the server, and unless another
    tool is called like the listed name itself, the router resolves the name to
    the tool and the server is among the candidates. *)
Theorem listed_name_routes index ns r t :
  let n := TrimSpace r.(Name) in
  let name := listed_name index ns r t in
  r ∈ LookupTool index t → TrimSpace t = t → n ≠ "" → display_name n ≠ "" →
  splits_at (display_name n) (listing_separator ns) t → TrimSpace name = name →
  (name ≠ t → LookupTool index name = []) →
  (route_candidates index ns name).1 = t ∧ r ∈ (route_candidates index ns name).2.
Proof.
  intros n name Hr Ht Hn Hd Hsplit Htrim Hfree.
  assert (Hyes : LookupTool index t ≠ []) by (intros E; rewrite E in Hr; by apply elem_of_nil in Hr).
  assert (Hne : t ≠ "") by (intros ->; by apply elem_of_nil in Hr).
  unfold route_candidates. destruct (decide (name = t)) as [Heq|Hneq].
  - rewrite Heq. unfold resolveFederatedName. rewrite bool_decide_eq_false_2 by done. cbn [negb].
    by rewrite bool_decide_eq_true_2.
  - destruct (listed_name_cases index ns r t Hn Ht Hne) as [E|E]; fold name in E; [done|].
    fold n in E. rewrite E. rewrite resolve_listed; try done; [|by rewrite <- E|by rewrite <- E; apply Hfree].
    rewrite (bool_decide_eq_false_2 (display_name n = "")) by done. split; [done|].
    by apply hinted_candidate.
Qed.

End names.

(** Tools of a server with a dot in its display name cannot be called by the
    name they are listed under. The name is cut at its first dot, inside the name
    of the server, and the call ends with [ErrToolNotFound] without reaching a
    backend, unless some tool happens to be called like the rest. *)
Theorem dotted_server_uncallable `{UnicodeTables} {S L} `{Env S}
    (backend : string → string → list (string * any) → ST S ToolResult)
    (rt : Router L) (st : RouterState S L) scope arguments r t x y :
  let name := display_name (TrimSpace r.(Name)) +:+ "." +:+ t in
  listing_separator rt.(rt_nsResolver) = "." → display_name (TrimSpace r.(Name)) = x +:+ "." +:+ y →
  "."%char ∉ to_bytes x → x ≠ "" → x ≠ "mcp" → TrimSpace name = name →
  LookupTool st.(rs_index) name = [] → LookupTool st.(rs_index) (y +:+ "." +:+ t) = [] →
  Route backend rt scope name arguments st = (inl (RouteFailed (Wrap "route tool" ErrToolNotFound)), st).
Proof.
  intros name Hsep Hd Hx Hxne Hmcp Htrim Hno Hrest.
  assert (Hname : name = x +:+ "." +:+ (y +:+ "." +:+ t)).
  { unfold name. rewrite Hd. apply to_bytes_inj. by rewrite !to_bytes_app, <- !app_assoc. }
  assert (Hsplit : split_hint name "." = Some (x, y +:+ "." +:+ t)).
  { rewrite Hname. apply split_hint_at; [done|]. by apply splits_at_dot. }
  assert (Hres : resolveFederatedName (rs_index st) (rt_nsResolver rt) name = (name, "")).
  { unfold resolveFederatedName. rewrite bool_decide_eq_true_2 by done. cbn [negb].
    assert (Hns : resolve_by_namespace (rs_index st) (rt_nsResolver rt) name = None).
    { unfold resolve_by_namespace, listing_separator in *. destruct (rt_nsResolver rt) as [[mode sep]|]; [|done].
      cbn [ns_mode ns_separator] in *. case_bool_decide; [done|]. subst sep.
      unfold ResolveNamespace. cbn [ns_separator]. rewrite Htrim, Hsplit.
      rewrite (bool_decide_eq_true_2 (LookupTool _ _ = [])) by done. by destruct (_ || _). }
    rewrite Hns. unfold resolve_by_dot. rewrite Hsplit. rewrite bool_decide_eq_true_2 by done.
    unfold resolve_legacy, SplitN. unfold split_hint in Hsplit. cbn [split_n].
    destruct (cut (to_bytes ".") (to_bytes name)) as [[[|a u] v]|]; [done| |done].
    injection Hsplit as Hu Hv. cbn [split_n fmap list_fmap].
    destruct (cut (to_bytes ".") v) as [[p q]|]; cbn [fmap list_fmap]; [|done].
    change (String a (of_bytes u)) with (of_bytes (a :: u)) in Hu. rewrite Hu.
    by rewrite bool_decide_eq_false_2. }
  unfold Route. rewrite Htrim. case_bool_decide as Hempty; [by rewrite Hempty in Hsplit|].
  unfold route_candidates. rewrite Hres. by rewrite bool_decide_eq_true_2, Hno.
Qed.

(** ** Strategies *)

(** The choices of consecutive calls among the same candidates. *)
Fixpoint round_robin_run (n : nat) (counter : Z) (candidates : list ServerRecord) : list (option ServerRecord) :=
  match n with
  | 0 => []
  | S n' =>
      let '(r, counter) := round_robin counter candidates in r :: round_robin_run n' counter candidates
  end.

Lemma round_robin_run_lookup n k (l : list ServerRecord) :
  l ≠ [] → (0 <= k)%Z → (k + Z.of_nat n <= two64)%Z →
  round_robin_run n k l =
    (λ i, l !! Z.to_nat ((k + Z.of_nat i) mod Z.of_nat (length l))) <$> seq 0 n.
Proof.
  intros Hl. revert k. induction n as [|n IH]; intros k Hk Hn; [done|]. cbn [round_robin_run].
  unfold round_robin. destruct l as [|c l]; [done|].
  cbn [seq fmap list_fmap]. rewrite Z.add_0_r. f_equal.
  destruct (decide (n = 0)) as [->|Hn0]; [done|].
  assert (Hw : wrap_u64 (k + 1) = (k + 1)%Z) by (apply wrap_u64_id; lia). rewrite Hw, IH by lia.
  rewrite <- fmap_S_seq, <- list_fmap_compose. apply list_fmap_ext. intros _ i _. cbn [compose].
  by replace (k + 1 + Z.of_nat i)%Z with (k + Z.of_nat (S i))%Z by lia.
Qed.

Lemma lookups_seq {A} (l : list A) : (λ i, l !! i) <$> seq 0 (length l) = Some <$> l.
Proof.
  induction l as [|x l IH]; [done|]. cbn [length seq fmap list_fmap]. f_equal.
  rewrite <- fmap_S_seq, <- list_fmap_compose. exact IH.
Qed.

(** Round robin is fair: over the same candidates, any run of as many calls
    as there are candidates chooses each of them exactly once, as long as the
    64-bit counter does not wrap in between. *)
Theorem round_robin_fair (l : list ServerRecord) k :
  (0 <= k)%Z → (k + Z.of_nat (length l) <= two64)%Z →
  round_robin_run (length l) k l ≡ₚ Some <$> l.
Proof.
  intros Hk Hn. destruct (decide (l = [])) as [->|Hl]; [done|].
  rewrite round_robin_run_lookup by done.
  assert (Hpos : 0 < length l) by (destruct l; [done|simpl; lia]).
  set (n := length l) in *. set (m := Z.to_nat (k mod Z.of_nat n)).
  assert (Hm : m < n) by (pose proof (Z.mod_pos_bound k (Z.of_nat n)); lia).
  assert (Hmod : ∀ i, i < n → Z.to_nat ((k + Z.of_nat i) mod Z.of_nat n) = if m + i <? n then m + i else m + i - n).
  { intros i Hi. rewrite (Z.add_comm k), <- Z.add_mod_idemp_r by lia.
    replace (k mod Z.of_nat n)%Z with (Z.of_nat m) by (pose proof (Z.mod_pos_bound k (Z.of_nat n)); lia).
    destruct (m + i <? n) eqn:E; [apply Nat.ltb_lt in E|apply Nat.ltb_ge in E].
    - rewrite Z.mod_small by lia. lia.
    - replace (Z.of_nat i + Z.of_nat m)%Z with (Z.of_nat (m + i - n) + 1 * Z.of_nat n)%Z by lia.
      rewrite Z.mod_add by lia. rewrite Z.mod_small by lia. lia. }
  transitivity ((λ i, l !! i) <$> (seq m (n - m) ++ seq 0 m)).
  - assert (Heq : ((λ i, l !! Z.to_nat ((k + Z.of_nat i) mod Z.of_nat n)) <$> seq 0 n)
      = (λ i, l !! i) <$> (seq m (n - m) ++ seq 0 m)); [|by rewrite Heq].
    assert (Hseq : seq 0 n = seq 0 (n - m) ++ seq (n - m) m)
      by (replace n with (n - m + m) at 1 by lia; exact (seq_app (n - m) m 0)).
    rewrite Hseq, !fmap_app. f_equal.
    + replace (seq m (n - m)) with (Nat.add m <$> seq 0 (n - m)) by (rewrite fmap_add_seq; f_equal; lia).
      rewrite <- list_fmap_compose. apply list_fmap_ext. intros j i Hi%lookup_seq. cbn [compose].
      rewrite Hmod by lia. by rewrite (proj2 (Nat.ltb_lt (m + i) n)) by lia.
    + replace (seq (n - m) m) with (Nat.add (n - m) <$> seq 0 m) by (rewrite fmap_add_seq; f_equal; lia).
      rewrite <- list_fmap_compose. apply list_fmap_ext. intros j i Hi%lookup_seq. cbn [compose].
      rewrite Hmod by lia. rewrite (proj2 (Nat.ltb_ge _ _)) by lia. f_equal. lia.
  - rewrite <- lookups_seq. apply fmap_Permutation. replace (length l) with (m + (n - m)) by (unfold n in *; lia).
    rewrite seq_app. apply Permutation_app_comm.
Qed.

Section affinity.
Context (session : string).
Notation score c := (hrwScore session c.(ID)).

(** [r] has the highest score of the list, and comes first among equals. *)
Definition highest (l : list ServerRecord) (r : ServerRecord) : Prop :=
  ∃ l1 l2, l = l1 ++ r :: l2 ∧ Forall (λ c, (score c < score r)%Z) l1 ∧ Forall (λ c, (score c <= score r)%Z) l2.

Lemma hrw_best_highest done best l :
  match best with Some (b, s) => s = score b ∧ highest done b | None => done = [] end →
  match hrw_best session best l with Some (b, _) => highest (done ++ l) b | None => done ++ l = [] end.
Proof.
  revert done best. induction l as [|c l IH]; intros done best Hb; cbn [hrw_best].
  - rewrite app_nil_r. destruct best as [[b s]|]; [apply Hb|done].
  - replace (done ++ c :: l) with ((done ++ [c]) ++ l) by (by rewrite <- app_assoc). apply IH.
    destruct best as [[b s]|].
    + destruct Hb as [-> (l1 & l2 & -> & H1 & H2)]. destruct (score b <? score c)%Z eqn:E.
      * split; [done|]. exists (l1 ++ b :: l2), []. split_and!; [done| |constructor].
        apply Forall_app_2; [|constructor; [lia|]]; eapply Forall_impl; eauto; cbn; lia.
      * split; [done|]. exists l1, (l2 ++ [c]). split_and!; [by rewrite <- app_assoc|done|].
        apply Forall_app_2; [done|]. repeat constructor. lia.
    + subst done. split; [done|]. exists [], []. by repeat constructor.
Qed.

Lemma highest_unique l r r' : highest l r → highest l r' → r = r'.
Proof.
  intros (l1 & l2 & -> & H1 & H2) (k1 & k2 & Heq & H3 & H4).
  rewrite Forall_forall in H1, H2, H3, H4.
  destruct (decide (length l1 < length k1)) as [Hlt|Hge].
  { assert (r ∈ k1).
    { apply list_elem_of_lookup. exists (length l1).
      apply (f_equal (λ l, l !! length l1)) in Heq. rewrite lookup_app_r, Nat.sub_diag in Heq by lia.
      rewrite lookup_app_l in Heq by done. by rewrite <- Heq. }
    assert (r' ∈ l1 ∨ r' = r ∨ r' ∈ l2).
    { assert (r' ∈ l1 ++ r :: l2) by (rewrite Heq; set_solver). set_solver. }
    pose proof (H3 r ltac:(done)). destruct_or!; subst; [|done|]; [specialize (H1 r')|specialize (H2 r')]; naive_solver lia. }
  destruct (decide (length k1 < length l1)) as [Hlt|Hge'].
  { assert (r' ∈ l1).
    { apply list_elem_of_lookup. exists (length k1).
      apply (f_equal (λ l, l !! length k1)) in Heq. rewrite lookup_app_l in Heq by lia.
      rewrite lookup_app_r, Nat.sub_diag in Heq by lia. by rewrite Heq. }
    assert (r ∈ k1 ∨ r = r' ∨ r ∈ k2).
    { assert (r ∈ k1 ++ r' :: k2) by (rewrite <- Heq; set_solver). set_solver. }
    pose proof (H1 r' ltac:(done)). destruct_or!; subst; [|done|]; [specialize (H3 r)|specialize (H4 r)]; naive_solver lia. }
  apply app_inj_1 in Heq as [_ [= ??]]; [done|lia].
Qed.

Lemma Select_highest fallback k l r :
  session ≠ "" → (Select (SessionAffinity fallback) k l session).1 = Some r ↔ highest l r.
Proof.
  intros Hs. cbn [Select]. pose proof (hrw_best_highest [] None l eq_refl) as Hbest. cbn [app] in Hbest.
  destruct l as [|c l]; [|rewrite bool_decide_eq_false_2 by done].
  - split; [done|]. intros (l1 & l2 & Heq & _). by destruct l1.
  - cbn [fst]. destruct (hrw_best session None (c :: l)) as [[b s]|]; [|done]. cbn.
    split; [by intros [= <-]|]. intros Hr. f_equal. by eapply highest_unique.
Qed.

End affinity.

(** Session affinity. For a session, the strategy chooses the first server
    with the highest score, and the choice is stable: it does not change when
    other servers go away. But the router gives the strategy no session: routing
    with session affinity is routing with its fallback. *)
Theorem affinity_stable session fallback k l r (keep : ServerRecord → bool) :
  session ≠ "" → (Select (SessionAffinity fallback) k l session).1 = Some r → keep r = true →
  (Select (SessionAffinity fallback) k (List.filter keep l) session).1 = Some r ∧
  ∀ `{UnicodeTables} {S L} `{Env S} (backend : string → string → list (string * any) → ST S ToolResult)
    lim ns cfg timeout thresh scope tool arguments (st : RouterState S L),
    Route backend (mkRouter (SessionAffinity fallback) lim ns cfg timeout thresh) scope tool arguments st =
    Route backend (mkRouter fallback lim ns cfg timeout thresh) scope tool arguments st.
Proof.
  intros Hs Hsel Hkeep. split.
  - apply Select_highest; [done|]. apply Select_highest in Hsel as (l1 & l2 & -> & H1 & H2); [|done].
    exists (List.filter keep l1), (List.filter keep l2). split_and!.
    + rewrite List.filter_app. cbn [List.filter]. by rewrite Hkeep.
    + rewrite Forall_forall in H1 |- *. intros c [Hc _]%list_elem_of_In%List.filter_In. by apply H1, list_elem_of_In.
    + rewrite Forall_forall in H2 |- *. intros c [Hc _]%list_elem_of_In%List.filter_In. by apply H2, list_elem_of_In.
  - intros. unfold Route. cbn [rt_nsResolver rt_strategy]. case_bool_decide; [done|].
    destruct (route_candidates _ _ _) as [tool' [|c cs]]; [done|]. reflexivity.
Qed.

(** ** Clients *)

Section clients.
Context `{UnicodeTables} {S L : Type} `{Env S}.

Lemma checkServerRateLimit_clients (rt : Router L) r (st : RouterState S L) :
  rs_clients (checkServerRateLimit rt r st).2 = rs_clients st.
Proof.
  unfold checkServerRateLimit. destruct (Types.RateLimit r) as [l|]; [|done].
  destruct (l <=? 0)%Z; [done|]. destruct (rt_limiter rt) as [lim|]; [|done].
  by destruct (lim _ _ _ _ _) as [[] ?].
Qed.

(** The address of a server is that of its first call. Once the router has a
    client for a server, no call ever replaces it; and a call whose only
    candidate is that server reaches no other address than the one the client was
    made for, whatever host and port the server has registered since. *)
Theorem stale_client_url (backend backend' : string → string → list (string * any) → ST S ToolResult)
    (rt : Router L) scope toolName arguments (st : RouterState S L) id url :
  st.(rs_clients) !! id = Some url →
  (Route backend rt scope toolName arguments st).2.(rs_clients) !! id = Some url ∧
  (∀ tool r, route_candidates st.(rs_index) rt.(rt_nsResolver) (TrimSpace toolName) = (tool, [r]) →
    r.(ID) = id → backend url = backend' url →
    Route backend rt scope toolName arguments st = Route backend' rt scope toolName arguments st).
Proof.
  intros Hurl. unfold Route. case_bool_decide; [done|]. split.
  - destruct (route_candidates _ _ _) as [tool [|c cs]]; [done|].
    destruct (Select _ _ _ _) as [[r|] counter]; [|done]. destruct (negb _); [done|].
    pose proof (checkServerRateLimit_clients rt r (rs_set_counter counter st)) as Hcl.
    destruct (checkServerRateLimit rt r _) as [[e|] st1]; cbn [snd] in *; [by rewrite Hcl|].
    unfold GetOrCreateClient, call_client.
    destruct (rs_clients st1 !! ID r) as [u|] eqn:Eu; cbn beta iota;
      destruct (CallTool _ _ _ _) as [[] [cb s]]; cbn; rewrite Hcl; cbn; try done;
      rewrite lookup_insert_ne; try done; intros <-; rewrite Hcl in Eu; cbn in Eu; congruence.
  - intros tool r -> <- Hagree.
    pose proof (Select_elem (rt_strategy rt) (rs_counter st) [r] "") as Hsel.
    destruct (Select _ _ _ _) as [[r'|] counter]; [|done].
    specialize (Hsel r' eq_refl). apply list_elem_of_singleton in Hsel as ->.
    destruct (negb _); [done|].
    pose proof (checkServerRateLimit_clients rt r (rs_set_counter counter st)) as Hcl.
    destruct (checkServerRateLimit rt r _) as [[e|] st1]; cbn [snd] in *; [done|].
    unfold GetOrCreateClient. rewrite Hcl. cbn [rs_clients rs_set_counter]. rewrite Hurl.
    unfold call_client. by rewrite Hagree.
Qed.

End clients.

(** ** Permissions *)

(** The rows of the permissions are kept under their tool names. *)
Definition perms_ok (db : AccessDB) : Prop :=
  ∀ u n p, db.(ac_perms) !! (u, n) = Some p → p.(up_ToolName) = n.

Lemma SetToolPermissions_ok now userID toolNames grantedBy db :
  perms_ok db → perms_ok (SetToolPermissions now userID toolNames grantedBy db).2.
Proof.
  intros Hdb. unfold SetToolPermissions. case_bool_decide; [done|]. unfold transaction.
  set (m := bind _ _). enough (Hm : perms_ok (m db).2) by (destruct (m db) as [[e|[]] d]; [exact Hdb|exact Hm]).
  assert (Hf : ∀ fs d, perms_ok d → perms_ok (set_ac_faults fs d)) by done.
  assert (Hexec : ∀ ctx (f : ST AccessDB ()), preserves perms_ok f → preserves perms_ok (in_context ctx (AccessStore.exec f))).
  { intros ctx f Hp d Hd. unfold in_context, AccessStore.exec.
    destruct (ac_faults d) as [|[] fs]; [| |].
    - specialize (Hp d Hd). by destruct (f d) as [[] ?].
    - done.
    - specialize (Hp (set_ac_faults fs d) Hd). by destruct (f _) as [[] ?]. }
  revert db Hdb. fold (preserves perms_ok m). unfold m.
  repeat first [apply preserves_bind; [|intros []] | apply Hexec].
  - apply preserves_ret.
  - intros d Hd u n p Hp. cbn in Hp. apply map_lookup_filter_Some in Hp as [Hp _]. by eapply Hd.
  - destruct toolNames; [apply preserves_ret|]. apply Hexec. intros d Hd. unfold insert_perms.
    destruct (ac_users d !! _); [|done]. case_bool_decide; [|done]. cbn [snd]. unfold perms_ok. cbn [ac_perms set_ac_perms].
    generalize (TrimSpace <$> s :: toolNames). intros l. unfold perms_ok in Hd. revert Hd. generalize (ac_perms d).
    induction l as [|x l IH]; intros t Ht; cbn [foldl]; [exact Ht|]. apply IH.
    intros u0 n p Hp. apply lookup_insert_Some in Hp as [[[= <- <-] <-]|[_ Hp]]; [done|by eapply Ht].
  - apply preserves_ret.
Qed.


(** A query of the tables: without failures it answers; under any schedule of
    failures it fails or gives the same answer. *)
Abbreviation query ctx f := (in_context ctx (AccessStore.exec (λ db, (Ok (f db), db)))).









Section listing.
Context (userStore : bool) (tools : list string) (t : string).
Hypothesis Hin : t ∈ tools.
Hypothesis Hother : t ≠ requestAccessToolName.







End listing.


(** ** Examples *)

(** A runtime whose state is the list of the URLs called. *)
#[local] Instance log_env : Env (list string) := {|
  clock _ := 0%Z;
  ctx_err _ := None;
  sleep _ s := (None, s);
  rand_10001 s := (None, s);
|}.
#[local] Existing Instance ascii_tables.
#[local] Existing Instance ascii_tables_laws.

Definition log_backend (reply : string) : string → string → list (string * any) → ST (list string) ToolResult :=
  λ url _ _ s, (Ok (mkToolResult [mkContentBlock "text" (reply +:+ url)] false), url :: s).

Definition example_router (s : RoutingStrategy) : Router () :=
  mkRouter s None None (mkRetryConfig 3 millisecond second (f_of_Z 2) false) second 5.

Definition example_state (servers : list ServerRecord) : RouterState (list string) () :=
  mkRouterState (foldl CapIndex.exec NewCapabilityIndex (OpAdd <$> servers)) ∅ ∅ 0 () [].

Definition git : ServerRecord := example_server "1" "mcp-git" StatusActive ["log"; "diff"] [].
Definition wiki : ServerRecord := example_server "2" "wiki" StatusActive ["log"] [].

Lemma example_candidates tool : TrimSpace tool = "log" →
  LookupTool (rs_index (example_state [git; wiki])) tool = [git; wiki].
Proof. intros Ht. rewrite LookupTool_under, Ht. vm_compute. reflexivity. Qed.

Lemma route_confined_witness :
  Route (log_backend "a") (example_router RoundRobin) ["git"] "git.log" [] (example_state [git; wiki]) =
  Route (λ url, if bool_decide (url = client_url git) then log_backend "a" url else log_backend "b" url)
    (example_router RoundRobin) ["git"] "git.log" [] (example_state [git; wiki]).
Proof.
  apply (route_confined _ _ _ _ _ _ _ (OpAdd <$> [git; wiki])); [reflexivity|].
  intros r Hr. unfold may_reach in Hr.
  replace (resolveFederatedName _ _ _) with ("log", "git") in Hr by (vm_compute; reflexivity).
  destruct Hr as (Hin & _ & _ & Hh & _). rewrite example_candidates in Hin by (vm_compute; reflexivity).
  apply elem_of_cons in Hin as [->|[->|[]%elem_of_nil]%elem_of_cons].
  - cbv zeta. rewrite bool_decide_eq_true_2; reflexivity.
  - exfalso. destruct Hh as [Hh|Hh]; [discriminate|vm_compute in Hh; discriminate Hh..].
Defined.

Lemma listed_name_routes_witness :
  listed_name (rs_index (example_state [git; wiki])) None git "log" = "git.log" ∧
  git ∈ (route_candidates (rs_index (example_state [git; wiki])) None "git.log").2.
Proof.
  split; [vm_compute; reflexivity|].
  destruct (listed_name_routes (rs_index (example_state [git; wiki])) None git "log") as [_ Hr].
  - rewrite example_candidates by (vm_compute; reflexivity). left.
  - vm_compute. reflexivity.
  - vm_compute. discriminate.
  - vm_compute. discriminate.
  - apply splits_at_dot. by_evaluation.
  - vm_compute. reflexivity.
  - intros _. vm_compute. reflexivity.
  - exact Hr.
Defined.

(** The registration accepts the dotted name, and the tool is listed. *)
Lemma dotted_server_uncallable_witness :
  let s := example_server "3" "team.git" StatusActive ["log"] [] in
  matches_service_name "team.git" = true ∧
  listed_name (rs_index (example_state [s])) None s "log" = "team.git.log" ∧
  Route (log_backend "a") (example_router RoundRobin) [] "team.git.log" [] (example_state [s])
    = (inl (RouteFailed (Wrap "route tool" ErrToolNotFound)), example_state [s]).
Proof.
  intros s. split; [vm_compute; reflexivity|]. split; [vm_compute; reflexivity|].
  apply (dotted_server_uncallable (log_backend "a") (example_router RoundRobin) (example_state [s]) [] [] s
    "log" "team" "git"); try (vm_compute; reflexivity); try discriminate. by_evaluation.
Defined.

Lemma round_robin_fair_witness : round_robin_run 2 7 [git; wiki] = [Some wiki; Some git] ∧
  round_robin_run 2 7 [git; wiki] ≡ₚ [Some git; Some wiki].
Proof.
  split; [vm_compute; reflexivity|].
  apply (round_robin_fair [git; wiki] 7); [lia|unfold two64; simpl; lia].
Defined.

Lemma affinity_stable_witness :
  ∃ r, (Select (SessionAffinity RoundRobin) 0 [git; wiki] "s1").1 = Some r ∧
    (Select (SessionAffinity RoundRobin) 0 (List.filter (λ c, bool_decide (c.(ID) = r.(ID))) [git; wiki]) "s1").1
      = Some r.
Proof.
  destruct (Select (SessionAffinity RoundRobin) 0 [git; wiki] "s1").1 as [r|] eqn:E; [|vm_compute in E; discriminate E].
  exists r. split; [reflexivity|].
  apply (affinity_stable "s1" RoundRobin 0 [git; wiki] r); [discriminate|exact E|].
  by apply bool_decide_eq_true.
Defined.

(** The server moves to another host after its first call. *)
Lemma stale_client_url_witness :
  let moved := mkServerRecord "1" "mcp-git" git.(SPIFFEID) "2" "10.0.0.9" 8080 "http" git.(Capabilities)
    StatusActive "default" None 2 "" SyncStateUnacked "" None None None "" zero_time zero_time in
  let st1 := (Route (log_backend "a") (example_router RoundRobin) [] "diff" [] (example_state [git])).2 in
  let st2 := mkRouterState (rs_index (example_state [moved])) (rs_clients st1) (rs_breakers st1) 0 () [] in
  (Route (log_backend "a") (example_router RoundRobin) [] "diff" [] st2).2.(rs_env) = [client_url git] ∧
  (Route (log_backend "a") (example_router RoundRobin) [] "diff" [] st2).2.(rs_clients) !! "1" = Some (client_url git).
Proof.
  intros moved st1 st2. split; [vm_compute; reflexivity|].
  apply (stale_client_url (log_backend "a") (log_backend "a") (example_router RoundRobin) [] "diff" [] st2 "1").
  vm_compute. reflexivity.
Defined.

