(* ===== verification/Search.v ===== *)
(** * Tool search: [internal/search]

    The tokens of a text, the synonyms, BM25 over partitions of documents, cosine
    similarity over embeddings, their fusion by reciprocal rank, and the cache of
    embeddings. Scores are IEEE 754 doubles as the code computes them on amd64;
    the logarithm, whose last bit differs between platforms, and the service that
    computes embeddings are parameters. *)

From S2P Require Import Prelude GoStrings Encoding GoFloat.

#[local] Open Scope string_scope.
#[local] Open Scope list_scope.
#[local] Open Scope nat_scope.
#[local] Open Scope go_scope.

(** [Document]. *)
Record Document := mkDocument {
  dc_Key : string;
  dc_Name : string;
  dc_Title : string;
  dc_Description : string;
  dc_Tags : list string;
}.

(** ** Results *)

(** A result is a key with its score. *)
Abbreviation ScoredResult := (string * spec_float)%type.

(** The order of the result lists: higher scores first, then smaller keys. *)
Definition result_before (x y : ScoredResult) : bool :=
  if SFeqb x.2 y.2 then string_lt x.1 y.1 else SFltb y.2 x.2.

(** [x] may stand before [y] in a list sorted by that order. *)
Definition result_le (x y : ScoredResult) : Prop := result_before y x = false.
#[export] Instance result_le_dec : RelDecision result_le.
Proof. unfold result_le. solve_decision. Defined.

(** [sort.Slice]: the scores of a map differ in their keys, so that the order
    leaves no choice. *)
Definition sort_results (l : list ScoredResult) : list ScoredResult := merge_sort result_le l.

(** [scores\[key\] += score]. *)
Definition add_score (scores : gmap string spec_float) (r : ScoredResult) : gmap string spec_float :=
  <[r.1 := f_add (default f_zero (scores !! r.1)) r.2]> scores.

(** [if limit > 0 && len(results) > limit]. *)
Definition limit_results {A} (limit : Z) (l : list A) : list A :=
  if (0 <? limit)%Z then take (Z.to_nat limit) l else l.

(** ** Tokens and synonyms *)

Section tokens.
Context `{UnicodeTables}.

(** [Tokenize]. *)
Definition separator (a : ascii) : bool :=
  space1 a || bool_decide (a = "."%char) || bool_decide (a = "_"%char) || bool_decide (a = "-"%char).
Definition Tokenize (s : string) : list string := FieldsBy separator (ToLower s).

End tokens.

(** The built-in groups of [synonymMap]. *)
Definition synonym_groups : list (list string) :=
  [ ["kubernetes"; "k8s"; "kube"; "kubectl"]; ["docker"; "container"; "containerized"];
    ["postgres"; "postgresql"; "pg"]; ["database"; "db"]; ["repository"; "repo"];
    ["delete"; "remove"; "rm"]; ["create"; "new"; "add"]; ["list"; "ls"; "enumerate"];
    ["get"; "fetch"; "retrieve"]; ["update"; "modify"; "edit"; "patch"]; ["javascript"; "js"];
    ["typescript"; "ts"]; ["python"; "py"]; ["message"; "msg"]; ["configuration"; "config"; "cfg"];
    ["environment"; "env"]; ["application"; "app"] ].

Definition synonymMap : gmap string (list string) :=
  foldl (λ m group, foldl (λ m member, <[member := group]> m) m group) ∅ synonym_groups.

(** The providers; a nil slice is [None]. *)
Inductive SynonymProvider :=
| StaticSynonymProvider
| MapSynonymProvider (entries : gmap string (list string))
| MergedSynonymProvider (primary fallback : SynonymProvider).

Fixpoint Lookup (p : SynonymProvider) (token : string) : option (list string) :=
  match p with
  | StaticSynonymProvider => synonymMap !! token
  | MapSynonymProvider entries => entries !! token
  | MergedSynonymProvider primary fallback =>
      match Lookup primary token with
      | Some group => Some group
      | None => Lookup fallback token
      end
  end.

(** Append the tokens that have not been seen. *)
Definition add_tokens (expanded tokens : list string) : list string :=
  foldl (λ acc t, if bool_decide (t ∈ acc) then acc else acc ++ [t]) expanded tokens.

(** [ExpandQueryWith]. *)
Definition ExpandQueryWith (tokens : list string) (provider : SynonymProvider) : list string :=
  foldl (λ acc t, add_tokens acc (default [] (Lookup provider t))) (add_tokens [] tokens) tokens.

(** ** BM25 *)

(** The index of one field: the frequencies of each term in the documents. *)
Record fieldIndex := mkFieldIndex {
  fi_postings : gmap string (gmap nat nat);
  fi_docLens : list nat;
  fi_avgDocLen : spec_float;
}.

Definition newFieldIndex (docCount : nat) : fieldIndex := mkFieldIndex ∅ (replicate docCount 0) f_zero.

(** [fi.postings\[tok\]\[docIdx\]++]. *)
Definition count_token (docIdx : nat) (postings : gmap string (gmap nat nat)) (tok : string) :
    gmap string (gmap nat nat) :=
  let posting := default ∅ (postings !! tok) in
  <[tok := <[docIdx := S (default 0 (posting !! docIdx))]> posting]> postings.

(** [indexField]. *)
Definition indexField (fi : fieldIndex) (docIdx : nat) (tokens : list string) : fieldIndex :=
  mkFieldIndex (foldl (count_token docIdx) fi.(fi_postings) tokens)
    (<[docIdx := length tokens]> fi.(fi_docLens)) fi.(fi_avgDocLen).

(** [computeAvgDocLen]. *)
Definition computeAvgDocLen (fi : fieldIndex) : fieldIndex :=
  match fi.(fi_docLens) with
  | [] => fi
  | lens =>
      mkFieldIndex fi.(fi_postings) lens
        (f_div (f_of_Z (Z.of_nat (sum_list lens))) (f_of_Z (Z.of_nat (length lens))))
  end.

Record bm25Partition := mkPartition {
  bp_serverID : string;
  bp_docs : list Document;
  bp_nameIdx : fieldIndex;
  bp_titleIdx : fieldIndex;
  bp_descIdx : fieldIndex;
  bp_tagsIdx : fieldIndex;
}.

Record BM25Engine := mkBM25 {
  bm_partitions : gmap string bm25Partition;
  bm_synonyms : SynonymProvider;
  bm_globalIDF : gmap string spec_float;
}.

Definition NewBM25Engine : BM25Engine := mkBM25 ∅ StaticSynonymProvider ∅.
Definition NewBM25EngineWithSynonyms (provider : option SynonymProvider) : BM25Engine :=
  mkBM25 ∅ (default StaticSynonymProvider provider) ∅.

Definition defaultPartitionID : string := "__default__".

(** [bm25K1], [bm25B] and the constants the compiler folds from them. *)
Definition bm25K1 : spec_float := f_lit 3 (-1).
Definition bm25K1_1 : spec_float := f_lit 5 (-1).
Definition bm25B : spec_float := f_lit 3 (-2).
Definition bm25_1B : spec_float := f_lit 1 (-2).

Section bm25.
Context `{UnicodeTables} (Log : spec_float → spec_float).

(** The tokens of the four fields. *)
Definition name_tokens (d : Document) : list string := Tokenize d.(dc_Name).
Definition title_tokens (d : Document) : list string := Tokenize d.(dc_Title).
Definition desc_tokens (d : Document) : list string := Tokenize d.(dc_Description).
Definition tags_tokens (d : Document) : list string := d.(dc_Tags) ≫= Tokenize.

(** One field of all documents, as the loop of [buildPartition] indexes it. *)
Definition index_docs (tokens : Document → list string) (docs : list Document) : fieldIndex :=
  computeAvgDocLen
    (foldl (λ fi p, indexField fi p.1 (tokens p.2)) (newFieldIndex (length docs)) (zip (seq 0 (length docs)) docs)).

(** [buildPartition]. *)
Definition buildPartition (serverID : string) (docs : list Document) : bm25Partition :=
  mkPartition serverID docs (index_docs name_tokens docs) (index_docs title_tokens docs)
    (index_docs desc_tokens docs) (index_docs tags_tokens docs).

Definition partition_fields (p : bm25Partition) : list fieldIndex :=
  [p.(bp_nameIdx); p.(bp_titleIdx); p.(bp_descIdx); p.(bp_tagsIdx)].

(** The documents of a partition that have a term in some field. *)
Definition partition_docs (p : bm25Partition) (term : string) : gset (string * nat) :=
  ⋃ ((λ fi, set_map (λ i, (p.(bp_serverID), i)) (dom (default ∅ (fi.(fi_postings) !! term)) : gset nat))
       <$> partition_fields p).

Definition partition_terms (p : bm25Partition) : gset string :=
  ⋃ ((λ fi, dom fi.(fi_postings)) <$> partition_fields p).

(** [recomputeGlobalIDFLocked]. *)
Definition recomputeGlobalIDF (partitions : gmap string bm25Partition) : gmap string spec_float :=
  let ps := (map_to_list partitions).*2 in
  let n := f_of_Z (Z.of_nat (sum_list ((length ∘ bp_docs) <$> ps))) in
  set_to_map (λ term,
    let df := f_of_Z (Z.of_nat (size (⋃ ((λ p, partition_docs p term) <$> ps)))) in
    (term, Log (f_add (f_div (f_add (f_sub n df) f_half) (f_add df f_half)) f_one)))
    (⋃ (partition_terms <$> ps) : gset string).

Definition set_partitions (partitions : gmap string bm25Partition) (e : BM25Engine) : BM25Engine :=
  mkBM25 partitions e.(bm_synonyms) (recomputeGlobalIDF partitions).

(** [Index]. *)
Definition BM25Index (docs : list Document) (e : BM25Engine) : BM25Engine :=
  set_partitions {[defaultPartitionID := buildPartition defaultPartitionID docs]} e.

(** [AddPartition] and [UpdatePartition]. *)
Definition AddPartition (serverID : string) (docs : list Document) (e : BM25Engine) : BM25Engine :=
  set_partitions (<[serverID := buildPartition serverID docs]> e.(bm_partitions)) e.

(** [RemovePartition]. *)
Definition RemovePartition (serverID : string) (e : BM25Engine) : BM25Engine :=
  set_partitions (delete serverID e.(bm_partitions)) e.

(** The first document with a key. *)
Fixpoint find_doc (key : string) (docs : list Document) : option nat :=
  match docs with
  | [] => None
  | d :: docs' => if bool_decide (d.(dc_Key) = key) then Some 0 else S <$> find_doc key docs'
  end.

(** [Remove]: the first partition, in the order the map is ranged over, that has
    the key. *)
Fixpoint remove_from (key : string) (order : list (string * bm25Partition)) (e : BM25Engine) : BM25Engine :=
  match order with
  | [] => e
  | (pid, p) :: order' =>
      match find_doc key p.(bp_docs) with
      | None => remove_from key order' e
      | Some idx =>
          match take idx p.(bp_docs) ++ drop (S idx) p.(bp_docs) with
          | [] => set_partitions (delete pid e.(bm_partitions)) e
          | remaining => set_partitions (<[pid := buildPartition pid remaining]> e.(bm_partitions)) e
          end
      end
  end.
Definition BM25Remove (key : string) (e : BM25Engine) : BM25Engine :=
  remove_from key (map_to_list e.(bm_partitions)) e.

(** [accumulateFieldPartitioned]; the documents of a posting are distinct, so that
    the order of the range does not matter. *)
Definition accumulateFieldPartitioned (weight : spec_float) (idf : spec_float) (term : string)
    (scores : list spec_float) (fi : fieldIndex) : list spec_float :=
  match fi.(fi_postings) !! term with
  | None => scores
  | Some posting =>
      let avgdl := if SFeqb fi.(fi_avgDocLen) f_zero then f_one else fi.(fi_avgDocLen) in
      imap (λ docIdx score,
        match posting !! docIdx with
        | None => score
        | Some tf =>
            let tf := f_of_Z (Z.of_nat tf) in
            let dl := f_of_Z (Z.of_nat (default 0 (fi.(fi_docLens) !! docIdx))) in
            let tfScore :=
              f_div (f_mul tf bm25K1_1)
                (f_add tf (f_mul bm25K1 (f_add bm25_1B (f_div (f_mul bm25B dl) avgdl)))) in
            f_add score (f_mul (f_mul weight idf) tfScore)
        end) scores
  end.

(** The scores of a partition for the expanded query. *)
Definition partition_scores (e : BM25Engine) (expanded : list string) (p : bm25Partition) : list spec_float :=
  foldl (λ scores term,
    let idf := default f_zero (e.(bm_globalIDF) !! term) in
    let scores := accumulateFieldPartitioned (f_of_Z 3) idf term scores p.(bp_nameIdx) in
    let scores := accumulateFieldPartitioned (f_of_Z 2) idf term scores p.(bp_titleIdx) in
    let scores := accumulateFieldPartitioned (f_of_Z 1) idf term scores p.(bp_descIdx) in
    accumulateFieldPartitioned (f_of_Z 2) idf term scores p.(bp_tagsIdx))
    (replicate (length p.(bp_docs)) f_zero) expanded.

(** The documents of a partition with a positive score. *)
Definition partition_hits (e : BM25Engine) (expanded : list string) (p : bm25Partition) : list ScoredResult :=
  filter (λ r, SFltb f_zero r.2 = true) (zip (dc_Key <$> p.(bp_docs)) (partition_scores e expanded p)).

(** [Search], with the partitions in the order the map is ranged over. *)
Definition BM25SearchIn (order : list bm25Partition) (query : string) (limit : Z) (e : BM25Engine) :
    list ScoredResult :=
  match Tokenize query with
  | [] => []
  | tokens =>
      let expanded := ExpandQueryWith tokens e.(bm_synonyms) in
      let scores := foldl add_score ∅ (order ≫= partition_hits e expanded) in
      limit_results limit (sort_results (map_to_list scores))
  end.
Definition BM25Search (query : string) (limit : Z) (e : BM25Engine) : list ScoredResult :=
  BM25SearchIn (map_to_list e.(bm_partitions)).*2 query limit e.

End bm25.

(** ** The cache of embeddings *)

Abbreviation embedding := (list spec_float).

(** [EmbeddingCache]: [ec_order] has the most recent key at its end. *)
Record EmbeddingCache := mkEmbeddingCache {
  ec_entries : gmap string embedding;
  ec_order : list string;
  ec_maxSize : Z;
}.

Definition NewEmbeddingCache (maxSize : Z) : EmbeddingCache := mkEmbeddingCache ∅ [] (Z.max 0 maxSize).

(** [moveToEndLocked]. *)
Fixpoint remove_first (key : string) (order : list string) : option (list string) :=
  match order with
  | [] => None
  | k :: order' => if bool_decide (k = key) then Some order' else (k ::.) <$> remove_first key order'
  end.
Definition moveToEnd (key : string) (c : EmbeddingCache) : EmbeddingCache :=
  match remove_first key c.(ec_order) with
  | None => c
  | Some order => mkEmbeddingCache c.(ec_entries) (order ++ [key]) c.(ec_maxSize)
  end.

(** [evictLocked]. *)
Definition evict (c : EmbeddingCache) : EmbeddingCache :=
  match c.(ec_order) with
  | [] => c
  | oldest :: order => mkEmbeddingCache (delete oldest c.(ec_entries)) order c.(ec_maxSize)
  end.

(** [Get]. *)
Definition EmbeddingGet (key : string) (c : EmbeddingCache) : option embedding * EmbeddingCache :=
  match c.(ec_entries) !! key with
  | None => (None, c)
  | Some e => (Some e, moveToEnd key c)
  end.

(** [Set]. *)
Definition EmbeddingSet (key : string) (e : embedding) (c : EmbeddingCache) : EmbeddingCache :=
  match c.(ec_entries) !! key with
  | Some _ => moveToEnd key (mkEmbeddingCache (<[key := e]> c.(ec_entries)) c.(ec_order) c.(ec_maxSize))
  | None =>
      let c :=
        if (0 <? c.(ec_maxSize))%Z && (c.(ec_maxSize) <=? Z.of_nat (size c.(ec_entries)))%Z then evict c else c in
      mkEmbeddingCache (<[key := e]> c.(ec_entries)) (c.(ec_order) ++ [key]) c.(ec_maxSize)
  end.

(** [Len]. *)
Definition EmbeddingLen (c : EmbeddingCache) : nat := size c.(ec_entries).

(** [ContentHash]. *)
Definition ContentHash (name description : string) : string :=
  of_bytes (hex_encode (Sum256 (to_bytes name ++ ["000"%char] ++ to_bytes description))).

(** ** Vectors *)

(** [strings.NewReplacer] for single bytes. *)
Definition spaced (s : string) : string :=
  of_bytes ((λ a, if bool_decide (a = "."%char) || bool_decide (a = "_"%char) then " "%char else a) <$> to_bytes s).

(** [strings.Join]. *)
Definition Join (parts : list string) (sep : string) : string :=
  match parts with
  | [] => ""
  | p :: ps => foldl (λ acc q, acc +:+ sep +:+ q) p ps
  end.

(** [buildEmbedText]. *)
Definition nonblank (s : string) : list string := if bool_decide (s = "") then [] else [s].
Definition buildEmbedText (d : Document) : string :=
  Join (nonblank (spaced d.(dc_Name)) ++ nonblank d.(dc_Title) ++ nonblank d.(dc_Description)
        ++ match d.(dc_Tags) with [] => [] | tags => [Join tags " "] end) ". ".

(** [cosineSimilarity]; the components are exact as doubles. *)
Definition dot_step (acc : spec_float * spec_float * spec_float) (p : spec_float * spec_float) :
    spec_float * spec_float * spec_float :=
  let '(dot, normA, normB) := acc in
  let '(a, b) := p in
  (f_add dot (f_mul a b), f_add normA (f_mul a a), f_add normB (f_mul b b)).
Definition f_sqrt : spec_float → spec_float := SFsqrt f_prec f_emax.
Definition cosineSimilarity (a b : embedding) : spec_float :=
  if negb (length a =? length b) || (length a =? 0) then f_zero
  else
    let '(dot, normA, normB) := foldl dot_step (f_zero, f_zero, f_zero) (zip a b) in
    let denom := f_mul (f_sqrt normA) (f_sqrt normB) in
    if SFeqb denom f_zero then f_zero else f_div dot denom.

Record vectorPartition := mkVectorPartition {
  vp_docs : list Document;
  vp_embeddings : list embedding;
}.

(** [VectorEngine]; the flat copy of its partitions, which only tests read, is
    left out. *)
Record VectorEngine := mkVector {
  ve_partitions : gmap string vectorPartition;
  ve_cache : option EmbeddingCache;
}.

Definition NewVectorEngine : VectorEngine := mkVector ∅ None.
Definition SetEmbeddingCache (cache : option EmbeddingCache) (e : VectorEngine) : VectorEngine :=
  mkVector e.(ve_partitions) cache.
Definition set_vectors (ps : gmap string vectorPartition) (e : VectorEngine) : VectorEngine :=
  mkVector ps e.(ve_cache).

(** A search answers, or panics on an index out of range. *)
Inductive SearchReply := Panic | Found (r : result (list ScoredResult)).

Section vector.
Context (Embed : list string → result (list embedding)).

(** [Index]. *)
Definition VectorIndex (docs : list Document) (e : VectorEngine) : result () * VectorEngine :=
  match docs with
  | [] => (Ok (), set_vectors ∅ e)
  | _ =>
      match Embed (buildEmbedText <$> docs) with
      | Err err => (Err (Wrap "embed documents" err), e)
      | Ok embeddings =>
          if negb (length embeddings =? length docs) then (Err (Opaque "embedding count mismatch"), e)
          else (Ok (), set_vectors {[defaultPartitionID := mkVectorPartition docs embeddings]} e)
      end
  end.

(** The loop of [embedWithCache] over the cache: what it finds, at each index. *)
Fixpoint cached (docs : list Document) (c : EmbeddingCache) : list (option embedding) * EmbeddingCache :=
  match docs with
  | [] => ([], c)
  | d :: docs' =>
      let '(hit, c) := EmbeddingGet (ContentHash d.(dc_Name) d.(dc_Description)) c in
      let '(hits, c) := cached docs' c in (hit :: hits, c)
  end.

(** Its last loop: the fresh embeddings fill the gaps and the cache. *)
Fixpoint fill (docs : list Document) (hits : list (option embedding)) (fresh : list embedding) (c : EmbeddingCache) :
    list embedding * EmbeddingCache :=
  match docs, hits with
  | d :: docs', Some e :: hits' => let '(es, c) := fill docs' hits' fresh c in (e :: es, c)
  | d :: docs', None :: hits' =>
      match fresh with
      | f :: fresh' =>
          let c := EmbeddingSet (ContentHash d.(dc_Name) d.(dc_Description)) f c in
          let '(es, c) := fill docs' hits' fresh' c in (f :: es, c)
      | [] => ([], c)
      end
  | _, _ => ([], c)
  end.

(** [embedWithCache]. *)
Definition embedWithCache (docs : list Document) (e : VectorEngine) : result (list embedding) * VectorEngine :=
  match e.(ve_cache) with
  | None => (Embed (buildEmbedText <$> docs), e)
  | Some c =>
      let '(hits, c) := cached docs c in
      let e := SetEmbeddingCache (Some c) e in
      match (filter (λ p, p.2 = None) (zip docs hits)).*1 with
      | [] => (Ok (omap id hits), e)
      | needEmbed =>
          match Embed (buildEmbedText <$> needEmbed) with
          | Err err => (Err err, e)
          | Ok fresh =>
              if negb (length fresh =? length needEmbed) then (Err (Opaque "embedding count mismatch"), e)
              else let '(es, c) := fill docs hits fresh c in (Ok es, SetEmbeddingCache (Some c) e)
          end
      end
  end.

(** [RemovePartition]. *)
Definition VectorRemovePartition (serverID : string) (e : VectorEngine) : VectorEngine :=
  set_vectors (delete serverID e.(ve_partitions)) e.

(** [AddPartition] and [UpdatePartition]. *)
Definition VectorAddPartition (serverID : string) (docs : list Document) (e : VectorEngine) :
    result () * VectorEngine :=
  match docs with
  | [] => (Ok (), VectorRemovePartition serverID e)
  | _ =>
      match embedWithCache docs e with
      | (Err err, e) => (Err (Wrap "add vector partition" err), e)
      | (Ok embeddings, e) =>
          (Ok (), set_vectors (<[serverID := mkVectorPartition docs embeddings]> e.(ve_partitions)) e)
      end
  end.

(** The hits of a partition; [None] for a panic. *)
Definition vector_hits (qVec : embedding) (p : vectorPartition) : option (list ScoredResult) :=
  foldr (λ '(i, docEmb) acc,
    hits ← acc;
    let sim := cosineSimilarity qVec docEmb in
    if SFltb f_zero sim then d ← p.(vp_docs) !! i; Some ((d.(dc_Key), sim) :: hits) else Some hits)
    (Some []) (zip (seq 0 (length p.(vp_embeddings))) p.(vp_embeddings)).

(** [Search], with the partitions in the order the map is ranged over. *)
Definition VectorSearch (query : string) (limit : Z) (e : VectorEngine) : SearchReply :=
  if bool_decide (TrimSpace query = "") then Found (Ok [])
  else
    let order := (map_to_list e.(ve_partitions)).*2 in
    match order with
    | [] => Found (Ok [])
    | _ =>
        match Embed [query] with
        | Err err => Found (Err (Wrap "embed query" err))
        | Ok [] => Found (Err (Opaque "embedder returned no vectors for query"))
        | Ok (qVec :: _) =>
            match mapM (vector_hits qVec) order with
            | None => Panic
            | Some hits => Found (Ok (limit_results limit (sort_results (mjoin hits))))
            end
        end
    end.

(** [Remove], for partitions with as many embeddings as documents: the first
    partition, in the order the map is ranged over, that has the key. The code
    moves the rest of the documents up in the slice of the partition; the hybrid
    engine, whose BM25 engine may have the same slice, tells what that does to it. *)
Fixpoint vector_remove_from (key : string) (order : list (string * vectorPartition)) (e : VectorEngine) :
    VectorEngine :=
  match order with
  | [] => e
  | (pid, p) :: order' =>
      match find_doc key p.(vp_docs) with
      | None => vector_remove_from key order' e
      | Some idx =>
          match take idx p.(vp_docs) ++ drop (S idx) p.(vp_docs) with
          | [] => set_vectors (delete pid e.(ve_partitions)) e
          | docs =>
              set_vectors (<[pid := mkVectorPartition docs
                (take idx p.(vp_embeddings) ++ drop (S idx) p.(vp_embeddings))]> e.(ve_partitions)) e
          end
      end
  end.
Definition VectorRemove (key : string) (e : VectorEngine) : VectorEngine :=
  vector_remove_from key (map_to_list e.(ve_partitions)) e.

End vector.

(** ** Hybrid search *)

Definition rrfK : nat := 60.

(** The contributions of a list: [1 / (rrfK + rank + 1)]. *)
Definition rrf_ranks (l : list ScoredResult) : list ScoredResult :=
  imap (λ rank r, (r.1, f_div f_one (f_of_Z (Z.of_nat (rrfK + rank + 1))))) l.

(** [fuseRRF]. *)
Definition fuseRRF (a b : list ScoredResult) : list ScoredResult :=
  sort_results (map_to_list (foldl add_score ∅ (rrf_ranks a ++ rrf_ranks b))).

(** [HybridEngine]. [hy_shared] names the partitions whose documents are the same
    slice in both engines: those that the last update gave to both. *)
Record HybridEngine := mkHybrid {
  hy_bm25 : BM25Engine;
  hy_vector : VectorEngine;
  hy_searchFallbacks : Z;
  hy_indexFallbacks : Z;
  hy_shared : gset string;
}.

Section hybrid.
Context `{UnicodeTables} (Log : spec_float → spec_float) (Embed : list string → result (list embedding)).

Definition vector_indexed (bm25 : BM25Engine) (r : result () * VectorEngine) (shared : gset string)
    (e : HybridEngine) : HybridEngine :=
  mkHybrid bm25 r.2 e.(hy_searchFallbacks)
    (if is_ok r.1 then e.(hy_indexFallbacks) else wrap_u64 (e.(hy_indexFallbacks) + 1)) shared.

(** [Index]. *)
Definition HybridIndex (docs : list Document) (e : HybridEngine) : HybridEngine :=
  let r := VectorIndex Embed docs e.(hy_vector) in
  vector_indexed (BM25Index Log docs e.(hy_bm25)) r
    (if is_ok r.1 && negb (bool_decide (docs = [])) then {[defaultPartitionID]} else ∅) e.

(** [UpdatePartition]. *)
Definition HybridUpdatePartition (serverID : string) (docs : list Document) (e : HybridEngine) : HybridEngine :=
  let r := VectorAddPartition Embed serverID docs e.(hy_vector) in
  vector_indexed (AddPartition Log serverID docs e.(hy_bm25)) r
    (if is_ok r.1 && negb (bool_decide (docs = [])) then {[serverID]} ∪ e.(hy_shared)
     else e.(hy_shared) ∖ {[serverID]}) e.

(** [RemovePartition]. *)
Definition HybridRemovePartition (serverID : string) (e : HybridEngine) : HybridEngine :=
  mkHybrid (RemovePartition Log serverID e.(hy_bm25)) (VectorRemovePartition serverID e.(hy_vector))
    e.(hy_searchFallbacks) e.(hy_indexFallbacks) (e.(hy_shared) ∖ {[serverID]}).

(** The partition a removal takes: the first of the order with the key. *)
Definition first_with {P} (docs : P → list Document) (key : string) (order : list (string * P)) :
    option (string * P) :=
  List.find (λ q, bool_decide (is_Some (find_doc key (docs q.2)))) order.

(** What is left in a shared slice, of which the vector partition is the first
    part, when the vector partition moves its documents up over index [idx]. *)
Definition moved_up (idx : nat) (vector shared : list Document) : list Document :=
  (take idx vector ++ drop (S idx) vector) ++ drop (length vector - 1) shared.

(** The BM25 engine after the documents of one of its partitions were moved in
    place; its index is not built again. *)
Definition overwrite_docs (pid : string) (f : list Document → list Document) (e : BM25Engine) : BM25Engine :=
  mkBM25 (alter (λ p, mkPartition p.(bp_serverID) (f p.(bp_docs)) p.(bp_nameIdx) p.(bp_titleIdx)
                        p.(bp_descIdx) p.(bp_tagsIdx)) pid e.(bm_partitions))
    e.(bm_synonyms) e.(bm_globalIDF).

(** [Remove], with the partitions of the two engines in the orders their maps are
    ranged over. The BM25 engine copies the documents it keeps; then the vector
    engine moves its own in place, and with them those of a BM25 partition that
    still has the same slice. *)
Definition HybridRemoveIn (border : list (string * bm25Partition)) (vorder : list (string * vectorPartition))
    (key : string) (e : HybridEngine) : HybridEngine :=
  let bm25 := remove_from Log key border e.(hy_bm25) in
  let shared := match first_with bp_docs key border with
                | Some (pid, _) => e.(hy_shared) ∖ {[pid]} | None => e.(hy_shared) end in
  let bm25 := match first_with vp_docs key vorder with
              | Some (pid, p) =>
                  if bool_decide (pid ∈ shared)
                  then overwrite_docs pid (moved_up (default 0 (find_doc key p.(vp_docs))) p.(vp_docs)) bm25
                  else bm25
              | None => bm25 end in
  mkHybrid bm25 (vector_remove_from key vorder e.(hy_vector)) e.(hy_searchFallbacks) e.(hy_indexFallbacks) shared.
Definition HybridRemove (key : string) (e : HybridEngine) : HybridEngine :=
  HybridRemoveIn (map_to_list e.(hy_bm25).(bm_partitions)) (map_to_list e.(hy_vector).(ve_partitions)) key e.

(** [Search]. *)
Definition HybridSearch (query : string) (limit : Z) (e : HybridEngine) : SearchReply * HybridEngine :=
  let bm25Results := BM25Search query 0 e.(hy_bm25) in
  match VectorSearch Embed query 0 e.(hy_vector) with
  | Panic => (Panic, e)
  | Found (Err _) =>
      (Found (Ok (limit_results limit bm25Results)),
       mkHybrid e.(hy_bm25) e.(hy_vector) (wrap_u64 (e.(hy_searchFallbacks) + 1)) e.(hy_indexFallbacks)
         e.(hy_shared))
  | Found (Ok vectorResults) => (Found (Ok (limit_results limit (fuseRRF bm25Results vectorResults))), e)
  end.

End hybrid.
