(* ===== verification/SearchProps.v ===== *)
(** * Correctness of the tool search

    - [embedding_cache_lru]: the cache of embeddings is a least-recently-used cache.
    - [bm25_search_correct]: what a search over the partitions answers, after any
      updates of them.
    - [hybrid_search_correct]: the fusion of the two engines, and its fallback. *)

From S2P Require Import Prelude GoStrings Encoding GoFloat Search.

#[local] Open Scope string_scope.
#[local] Open Scope list_scope.
#[local] Open Scope nat_scope.
#[local] Open Scope go_scope.

(** ** The cache of embeddings *)

Inductive CacheOp := OpGet (key : string) | OpSet (key : string) (e : embedding).

Definition cache_step (c : EmbeddingCache) (op : CacheOp) : option embedding * EmbeddingCache :=
  match op with
  | OpGet key => EmbeddingGet key c
  | OpSet key e => (None, EmbeddingSet key e c)
  end.

(** The reference: the entries from the most recent to the least recent. A read
    that hits and a write make their entry the first, and what exceeds the size is
    dropped at the end. *)
Definition without (key : string) (l : list (string * embedding)) : list (string * embedding) :=
  filter (λ p, p.1 ≠ key) l.
Definition keep (maxSize : Z) (l : list (string * embedding)) : list (string * embedding) :=
  if (0 <? maxSize)%Z then take (Z.to_nat maxSize) l else l.
Definition find_entry (key : string) (l : list (string * embedding)) : option embedding :=
  (list_to_map l : gmap string embedding) !! key.
Definition recent_step (maxSize : Z) (l : list (string * embedding)) (op : CacheOp) :
    option embedding * list (string * embedding) :=
  match op with
  | OpGet key =>
      match find_entry key l with
      | Some e => (Some e, (key, e) :: without key l)
      | None => (None, l)
      end
  | OpSet key e => (None, keep maxSize ((key, e) :: without key l))
  end.

(** Run a list of operations and collect what they answer. *)
Fixpoint run_ops {S O A} (step : S → O → A * S) (s : S) (ops : list O) : list A * S :=
  match ops with
  | [] => ([], s)
  | op :: ops' => let '(a, s) := step s op in let '(l, s) := run_ops step s ops' in (a :: l, s)
  end.

(** The cache holds the entries of a recency list. *)
Record represents (l : list (string * embedding)) (c : EmbeddingCache) : Prop := {
  rep_nodup : NoDup l.*1;
  rep_order : c.(ec_order) = reverse l.*1;
  rep_entries : c.(ec_entries) = list_to_map l;
  rep_bound : (0 < c.(ec_maxSize))%Z → (Z.of_nat (length l) <= c.(ec_maxSize))%Z;
}.

Lemma filter_all {A} (P : A → Prop) `{!∀ x, Decision (P x)} (l : list A) : (∀ x, x ∈ l → P x) → filter P l = l.
Proof.
  induction l as [|x l IH]; intros Hl; [done|]. rewrite filter_cons_True by (apply Hl; left).
  f_equal. apply IH. intros y Hy. apply Hl. by right.
Qed.

Lemma remove_first_spec key order :
  NoDup order → key ∈ order → remove_first key order = Some (filter (λ k, k ≠ key) order).
Proof.
  induction order as [|k order IH]; intros Hnd Hin; [by apply elem_of_nil in Hin|].
  apply NoDup_cons in Hnd as [Hk Hnd]. cbn [remove_first]. case_bool_decide as E.
  - subst k. rewrite filter_cons_False by tauto. f_equal. symmetry. apply filter_all.
    intros x Hx ->. done.
  - apply elem_of_cons in Hin as [->|Hin]; [done|]. rewrite IH by done. by rewrite filter_cons_True.
Qed.

Lemma without_keys key l : (without key l).*1 = filter (λ k, k ≠ key) l.*1.
Proof.
  unfold without. induction l as [|[k e] l IH]; [done|]. rewrite !fmap_cons, !filter_cons. cbn [fst].
  destruct (decide (k ≠ key)); [by rewrite fmap_cons, IH|done].
Qed.

Lemma without_NoDup key l : NoDup l.*1 → NoDup (without key l).*1 ∧ key ∉ (without key l).*1.
Proof.
  intros Hnd. rewrite without_keys. split; [by apply NoDup_filter|].
  intros [? _]%list_elem_of_filter. done.
Qed.

Lemma without_map key l : NoDup l.*1 →
  (list_to_map (without key l) : gmap string embedding) = delete key (list_to_map l).
Proof.
  intros Hnd. apply map_eq. intros k. destruct (without_NoDup key l Hnd) as [Hnd' Hkey].
  destruct (decide (k = key)) as [->|Hne].
  - rewrite lookup_delete_eq. by apply not_elem_of_list_to_map_1.
  - rewrite lookup_delete_ne by done. apply option_eq. intros e.
    rewrite <- !elem_of_list_to_map by done. unfold without. rewrite list_elem_of_filter. naive_solver.
Qed.

Lemma find_entry_in key l e : NoDup l.*1 → find_entry key l = Some e → (key, e) ∈ l.
Proof. intros Hnd. unfold find_entry. by rewrite <- elem_of_list_to_map. Qed.

Lemma without_length key l e : NoDup l.*1 → (key, e) ∈ l → length l = S (length (without key l)).
Proof.
  unfold without. intros Hnd Hin. induction l as [|[k e'] l IH]; [by apply elem_of_nil in Hin|].
  rewrite fmap_cons in Hnd. apply NoDup_cons in Hnd as [Hk Hnd]. rewrite filter_cons. cbn [fst] in Hk |- *.
  destruct (decide (k ≠ key)) as [Hne|Heq].
  - cbn [length]. f_equal. apply IH; [done|]. apply elem_of_cons in Hin as [[= -> ->]|]; done.
  - assert (k = key) as -> by (by apply dec_stable). cbn [length]. f_equal. rewrite filter_all; [done|].
    intros [k'' e''] Hin' Heq'. cbn [fst] in Heq'. subst k''. apply Hk. apply list_elem_of_fmap. by exists (key, e'').
Qed.

(** Moving an entry to the front, with a new value. *)
Lemma represents_front key e old l c :
  represents l c → find_entry key l = Some old →
  represents ((key, e) :: without key l)
    (moveToEnd key (mkEmbeddingCache (<[key := e]> c.(ec_entries)) c.(ec_order) c.(ec_maxSize))).
Proof.
  intros [Hnd Ho He Hb] Hold. apply find_entry_in in Hold as Hin; [|done].
  destruct (without_NoDup key l Hnd) as [Hnd' Hkey]. unfold moveToEnd. cbn [ec_order ec_entries ec_maxSize].
  rewrite Ho, remove_first_spec.
  - split; cbn [ec_order ec_entries ec_maxSize].
    + by constructor.
    + by rewrite fmap_cons, reverse_cons, without_keys, filter_reverse.
    + by rewrite list_to_map_cons, without_map, He, insert_delete_eq.
    + intros Hm. rewrite (without_length key l old) in Hb by done. cbn [length]. auto.
  - by rewrite reverse_Permutation.
  - rewrite elem_of_reverse. apply list_elem_of_fmap. by exists (key, old).
Qed.

(** A new entry, once the cache has room for it. *)
Lemma represents_cons key e l c :
  represents l c → find_entry key l = None →
  ((0 < c.(ec_maxSize))%Z → (Z.of_nat (S (length l)) <= c.(ec_maxSize))%Z) →
  represents ((key, e) :: l) (mkEmbeddingCache (<[key := e]> c.(ec_entries)) (c.(ec_order) ++ [key]) c.(ec_maxSize)).
Proof.
  intros [Hnd Ho He Hb] Hnone Hroom. split; cbn [ec_order ec_entries ec_maxSize].
  - constructor; [|done]. by apply not_elem_of_list_to_map.
  - by rewrite Ho, fmap_cons, reverse_cons.
  - by rewrite He.
  - done.
Qed.

(** Eviction drops the last entry. *)
Lemma represents_evict l x c : represents (l ++ [x]) c → represents l (evict c).
Proof.
  intros [Hnd Ho He Hb]. rewrite fmap_app in Hnd, Ho. apply NoDup_app in Hnd as (Hnd & Hx & _).
  rewrite reverse_app in Ho. cbn in Ho. unfold evict. rewrite Ho.
  split; cbn [ec_order ec_entries ec_maxSize].
  - done.
  - done.
  - rewrite He. apply map_eq. intros k. destruct (decide (k = x.1)) as [->|Hne].
    + rewrite lookup_delete_eq. symmetry. apply not_elem_of_list_to_map_1. intros Hin. apply (Hx _ Hin). left.
    + rewrite lookup_delete_ne, list_to_map_app, lookup_union by done. destruct x as [kx ex]. cbn in Hne |- *.
      rewrite lookup_insert_ne, lookup_empty by done. by destruct (_ !! k).
  - rewrite length_app in Hb. cbn [length] in Hb. lia.
Qed.

Lemma without_absent key l : find_entry key l = None → without key l = l.
Proof.
  intros Hnone. apply filter_all. intros [k e] Hin Heq. cbn [fst] in Heq. subst k.
  unfold find_entry in Hnone. apply not_elem_of_list_to_map in Hnone. apply Hnone. apply list_elem_of_fmap. by exists (key, e).
Qed.

Lemma represents_same l c : represents l c → ec_entries c = list_to_map l.
Proof. by destruct 1. Qed.

Lemma cache_set_represents key e l c :
  represents l c → represents (keep c.(ec_maxSize) ((key, e) :: without key l)) (EmbeddingSet key e c).
Proof.
  intros Hrep. pose proof Hrep as [Hnd Ho He Hb]. unfold EmbeddingSet.
  replace (ec_entries c !! key) with (find_entry key l) by (by rewrite He).
  destruct (find_entry key l) as [old|] eqn:Hf.
  - replace (keep _ _) with ((key, e) :: without key l); [by eapply represents_front|].
    unfold keep. destruct (0 <? ec_maxSize c)%Z eqn:Hm; [|done]. rewrite take_ge; [done|].
    apply find_entry_in in Hf; [|done]. rewrite (without_length key l old) in Hb by done. cbn [length]. lia.
  - rewrite without_absent by done. unfold keep.
    assert (Hsize : size (ec_entries c) = length l).
    { rewrite He. by apply map_size_list_to_map. }
    rewrite Hsize. destruct (0 <? ec_maxSize c)%Z eqn:Hm; cbn [andb];
      [|apply represents_cons; [done|done|lia]].
    destruct (ec_maxSize c <=? Z.of_nat (length l))%Z eqn:Hfull; [|rewrite take_ge by (cbn [length]; lia); apply represents_cons; [done|done|lia]].
    reflect_bools. assert (∃ l' x, l = l' ++ [x]) as (l' & x & ->).
    { destruct l as [|y l _] using rev_ind; [|eauto]. cbn in Hfull. lia. }
    rename l' into l. rewrite length_app in Hfull, Hb. cbn [length] in Hfull, Hb.
    replace (Z.to_nat (ec_maxSize c)) with (length ((key, e) :: l)) by (cbn [length]; lia).
    change ((key, e) :: l ++ [x]) with (((key, e) :: l) ++ [x]). rewrite take_app_length.
    apply represents_evict in Hrep.
    replace (ec_maxSize c) with (ec_maxSize (evict c)) by (by unfold evict; destruct (ec_order c)).
    apply represents_cons; [done| |].
    + unfold find_entry in *. rewrite list_to_map_app, lookup_union_None in Hf. tauto.
    + unfold evict. destruct (ec_order c); cbn [ec_maxSize]; lia.
Qed.

Lemma cache_step_represents l c op :
  represents l c →
  (cache_step c op).1 = (recent_step c.(ec_maxSize) l op).1 ∧
  represents (recent_step c.(ec_maxSize) l op).2 (cache_step c op).2 ∧
  ec_maxSize (cache_step c op).2 = c.(ec_maxSize).
Proof.
  intros Hrep. destruct op as [key|key e]; cbn [cache_step recent_step].
  - unfold EmbeddingGet. replace (ec_entries c !! key) with (find_entry key l) by (by rewrite (represents_same l c Hrep)).
    destruct (find_entry key l) as [e|] eqn:Hf; [|done].
    cbn [fst snd]. split; [done|]. split; [|by unfold moveToEnd; destruct (remove_first _ _)].
    pose proof (represents_front key e e l c Hrep Hf) as Hfront.
    rewrite insert_id in Hfront by (rewrite (represents_same l c Hrep); exact Hf). by destruct c.
  - split; [done|]. split; [by apply cache_set_represents|]. cbn [snd].
    unfold EmbeddingSet. destruct (_ !! key).
    + unfold moveToEnd. by destruct (remove_first _ _).
    + cbn [ec_maxSize]. destruct (_ && _); [|done]. unfold evict. by destruct (ec_order c).
Qed.

(** The cache of embeddings is a least-recently-used cache. Over any sequence
    of reads and writes it answers exactly what the reference answers, which keeps
    the entries in the order of their last use and drops the least recent ones; it
    never holds more entries than its size, unless that is not positive, which
    means no bound. *)
Theorem embedding_cache_lru maxSize ops :
  let '(answers, c) := run_ops cache_step (NewEmbeddingCache maxSize) ops in
  let '(answers', l) := run_ops (recent_step (Z.max 0 maxSize)) [] ops in
  answers = answers' ∧ c.(ec_entries) = list_to_map l ∧ EmbeddingLen c = length l ∧
  ((0 < maxSize)%Z → (Z.of_nat (EmbeddingLen c) <= maxSize)%Z).
Proof.
  assert (Hrun : ∀ l c, represents l c → c.(ec_maxSize) = Z.max 0 maxSize →
    let '(answers, c) := run_ops cache_step c ops in
    let '(answers', l) := run_ops (recent_step (Z.max 0 maxSize)) l ops in
    answers = answers' ∧ represents l c ∧ c.(ec_maxSize) = Z.max 0 maxSize).
  { induction ops as [|op ops IH]; intros l c Hrep Hm; cbn [run_ops]; [done|].
    destruct (cache_step_represents l c op Hrep) as (Ha & Hrep' & Hm'). rewrite Hm in Ha, Hrep', Hm'.
    destruct (cache_step c op) as [a c1], (recent_step _ l op) as [a' l1]. cbn [fst snd] in *. subst a'.
    specialize (IH l1 c1 Hrep' Hm').
    destruct (run_ops cache_step c1 ops), (run_ops _ l1 ops). naive_solver. }
  specialize (Hrun [] (NewEmbeddingCache maxSize)). destruct (run_ops _ _ _), (run_ops _ _ _).
  destruct Hrun as (-> & [Hnd Ho He Hb] & Hm); [split; [apply NoDup_nil_2|done|done|cbn; lia]|done|].
  assert (Hsize : EmbeddingLen e = length l1).
  { unfold EmbeddingLen. rewrite He. by apply map_size_list_to_map. }
  split_and!; [done|done|done|]. intros Hpos. rewrite Hsize, Hm in *. lia.
Qed.

(** ** The index of a field *)

(** The document [i] has the term. *)
Definition posted (postings : gmap string (gmap nat nat)) (term : string) (i : nat) : Prop :=
  i ∈ (dom (default ∅ (postings !! term)) : gset nat).

Lemma posted_dom postings term i : posted postings term i → term ∈ (dom postings : gset string).
Proof.
  unfold posted. destruct (postings !! term) eqn:E; [intros _; by apply elem_of_dom_2 in E|].
  cbn. by rewrite dom_empty_L, elem_of_empty.
Qed.

Lemma posted_count i postings tok term j :
  posted (count_token i postings tok) term j ↔ posted postings term j ∨ term = tok ∧ j = i.
Proof.
  unfold posted, count_token. destruct (decide (term = tok)) as [->|Hne].
  - rewrite lookup_insert_eq. simpl. rewrite dom_insert_L. set_solver.
  - rewrite lookup_insert_ne by done. naive_solver.
Qed.

Lemma posted_tokens i tokens postings term j :
  posted (foldl (count_token i) postings tokens) term j ↔ posted postings term j ∨ term ∈ tokens ∧ j = i.
Proof.
  revert postings. induction tokens as [|tok tokens IH]; intros postings; cbn [foldl]; [set_solver|].
  rewrite IH, posted_count. set_solver.
Qed.

(** No term of the index is without documents. *)
Definition all_posted (postings : gmap string (gmap nat nat)) : Prop :=
  ∀ term, term ∈ (dom postings : gset string) → ∃ i, posted postings term i.

Lemma all_posted_tokens i tokens postings :
  all_posted postings → all_posted (foldl (count_token i) postings tokens).
Proof.
  revert postings. induction tokens as [|tok tokens IH]; intros postings Hp; cbn [foldl]; [done|].
  apply IH. intros term Hterm. destruct (decide (term = tok)) as [->|Hne].
  - exists i. apply posted_count. by right.
  - unfold count_token in Hterm. rewrite dom_insert_L in Hterm. destruct (Hp term) as [j Hj]; [set_solver|].
    exists j. apply posted_count. by left.
Qed.

(** ** Sums of scores *)

Lemma f_add_comm x y : f_add x y = f_add y x.
Proof.
  unfold f_add. destruct x as [[]|[]| |sx mx ex], y as [[]|[]| |sy my ey]; try done. cbn.
  by rewrite Z.min_comm, Z.add_comm.
Qed.

(** Without a sign. *)
Definition unsigned (x : spec_float) : bool :=
  match x with S754_zero s | S754_infinity s | S754_finite s _ _ => negb s | S754_nan => true end.

Lemma f_add_zero x : unsigned x = true → f_add f_zero x = x.
Proof. by destruct x as [[]|[]| |[] m e]. Qed.

Lemma round_unsigned m e l : unsigned (binary_round_aux f_prec f_emax false m e l) = true.
Proof.
  unfold binary_round_aux. destruct (shr_fexp _ _ m e l) as [mrs e']. destruct (shr_fexp _ _ _ _ _) as [mrs' e''].
  by destruct (shr_m mrs'); [|destruct (_ <=? _)%Z|].
Qed.

Lemma binary_round_unsigned m e : unsigned (binary_round f_prec f_emax false m e) = true.
Proof. unfold binary_round. destruct (shl_align m e _). apply round_unsigned. Qed.

Lemma f_of_nat_unsigned n : unsigned (f_of_Z (Z.of_nat n)) = true.
Proof. destruct n as [|n]; [done|]. exact (binary_round_unsigned (Pos.of_succ_nat n) 0). Qed.

Lemma rank_unsigned n : unsigned (f_div f_one (f_of_Z (Z.of_nat n))) = true.
Proof.
  pose proof (f_of_nat_unsigned n) as Hn. destruct (f_of_Z _) as [[]|[]| |[] m e]; try done.
  unfold f_div, f_one. change (f_of_Z 1) with (S754_finite false 4503599627370496 (-52)). cbn [SFdiv].
  destruct (SFdiv_core_binary _ _ _ _ _ _) as [[mz' ez'] lz]. apply round_unsigned.
Qed.

(** The sum of a list of scores with distinct keys. *)
Lemma add_scores_lookup l scores k : NoDup l.*1 →
  foldl add_score scores l !! k =
  match (list_to_map l : gmap string spec_float) !! k with
  | Some x => Some (f_add (default f_zero (scores !! k)) x)
  | None => scores !! k
  end.
Proof.
  revert scores. induction l as [|[k' x] l IH]; intros scores Hnd; [done|]. cbn [foldl].
  rewrite fmap_cons in Hnd. apply NoDup_cons in Hnd as [Hk Hnd]. rewrite IH by done. rewrite list_to_map_cons.
  unfold add_score. cbn [fst snd]. destruct (decide (k = k')) as [->|Hne].
  - rewrite lookup_insert_eq, not_elem_of_list_to_map_1 by done. by rewrite lookup_insert_eq.
  - by rewrite !lookup_insert_ne by done.
Qed.

Section bm25.
Context `{UnicodeTables} (Log : spec_float → spec_float).

Lemma index_loop tokens l fi term j :
  let fi' := foldl (λ fi p, indexField fi p.1 (tokens p.2)) fi l in
  (posted fi'.(fi_postings) term j ↔
    posted fi.(fi_postings) term j ∨ ∃ d : Document, (j, d) ∈ l ∧ term ∈ tokens d) ∧
  (all_posted fi.(fi_postings) → all_posted fi'.(fi_postings)).
Proof.
  cbv zeta. revert fi. induction l as [|[i d] l IH]; intros fi; cbn [foldl]; [set_solver|].
  destruct (IH (indexField fi i (tokens d))) as [IH1 IH2]. split.
  - rewrite IH1. cbn [indexField fi_postings]. rewrite posted_tokens. set_solver.
  - intros Hp. apply IH2. cbn [indexField fi_postings]. by apply all_posted_tokens.
Qed.

Lemma elem_of_numbered {A} (l : list A) (i j : nat) x :
  (j, x) ∈ zip (seq i (length l)) l ↔ i <= j ∧ l !! (j - i) = Some x.
Proof.
  revert i. induction l as [|y l IH]; intros i; cbn [length seq zip zip_with].
  - split; [by intros ?%elem_of_nil|]. by rewrite lookup_nil; intros [].
  - rewrite elem_of_cons, IH. split.
    + intros [[= -> ->]|[Hle Hx]]; [by rewrite Nat.sub_diag|].
      split; [lia|]. by replace (j - i) with (S (j - S i)) by lia.
    + intros [Hle Hx]. destruct (decide (j = i)) as [->|Hne].
      * rewrite Nat.sub_diag in Hx. injection Hx as ->. by left.
      * right. split; [lia|]. by replace (j - i) with (S (j - S i)) in Hx by lia.
Qed.

Lemma length_filter_numbered {A} (P : A → Prop) `{!∀ x, Decision (P x)} (l : list A) i :
  length (filter (λ x, P x.2) (zip (seq i (length l)) l)) = length (filter P l).
Proof.
  revert i. induction l as [|y l IH]; intros i; [done|]. cbn [length seq zip zip_with].
  rewrite !filter_cons. cbn [snd]. destruct (decide (P y)); cbn [length]; [f_equal|]; apply IH.
Qed.

(** The index of a field holds exactly the tokens of the documents. *)
Lemma index_docs_posted tokens docs term i :
  posted (index_docs tokens docs).(fi_postings) term i ↔ ∃ d, docs !! i = Some d ∧ term ∈ tokens d.
Proof.
  unfold index_docs. set (fi := foldl _ _ _).
  replace (fi_postings (computeAvgDocLen fi)) with (fi_postings fi)
    by (unfold computeAvgDocLen; by destruct (fi_docLens fi)).
  subst fi. rewrite (proj1 (index_loop tokens _ _ term i)). cbn [newFieldIndex fi_postings].
  setoid_rewrite elem_of_numbered. unfold posted at 1. rewrite lookup_empty. cbn. rewrite dom_empty_L.
  setoid_rewrite Nat.sub_0_r. split.
  - intros [[]%elem_of_empty|(d & [_ Hd] & Ht)]. eauto.
  - intros (d & Hd & Ht). right. exists d. split_and!; [lia|done|done].
Qed.

Lemma index_docs_dom tokens docs term :
  term ∈ (dom (index_docs tokens docs).(fi_postings) : gset string) ↔ ∃ d, d ∈ docs ∧ term ∈ tokens d.
Proof.
  split.
  - intros Hd. assert (∃ i, posted (index_docs tokens docs).(fi_postings) term i) as [i Hi].
    { revert term Hd. change (all_posted (index_docs tokens docs).(fi_postings)). unfold index_docs. set (fi := foldl _ _ _).
      replace (fi_postings (computeAvgDocLen fi)) with (fi_postings fi)
        by (unfold computeAvgDocLen; by destruct (fi_docLens fi)).
      subst fi. apply (proj2 (index_loop tokens _ _ "" 0)). intros term. cbn. by rewrite dom_empty_L, elem_of_empty. }
    apply index_docs_posted in Hi as (d & Hd' & Ht). exists d. split; [by eapply list_elem_of_lookup_2|done].
  - intros (d & (i & Hi)%list_elem_of_lookup & Ht). eapply (posted_dom _ _ i), index_docs_posted. eauto.
Qed.

(** ** Frequencies

    How often a document has a term, how long it is, and the average. *)

Definition occurrences (term : string) (l : list string) : nat := length (filter (λ t, t = term) l).

Definition freq (postings : gmap string (gmap nat nat)) (term : string) (i : nat) : option nat :=
  postings !! term ≫= λ posting, posting !! i.

(** [n] more occurrences on top of those counted. *)
Definition more (n : nat) (x : option nat) : option nat :=
  match n with 0 => x | _ => Some (n + default 0 x) end.

Lemma freq_count i postings tok term j :
  freq (count_token i postings tok) term j =
  if decide (term = tok ∧ j = i) then more 1 (freq postings term j) else freq postings term j.
Proof.
  unfold freq, count_token. destruct (decide (term = tok)) as [->|Hne].
  - rewrite lookup_insert_eq. cbn [mbind option_bind]. destruct (decide (j = i)) as [->|Hj].
    + rewrite lookup_insert_eq. case_decide; [|naive_solver]. cbn. by destruct (postings !! tok).
    + rewrite lookup_insert_ne by done. case_decide; [naive_solver|]. by destruct (postings !! tok).
  - rewrite lookup_insert_ne by done. case_decide; [naive_solver|done].
Qed.

Lemma freq_tokens i tokens postings term j :
  freq (foldl (count_token i) postings tokens) term j =
  if decide (j = i) then more (occurrences term tokens) (freq postings term j) else freq postings term j.
Proof.
  revert postings. induction tokens as [|tok tokens IH]; intros postings; cbn [foldl]; [by case_decide|].
  rewrite IH, freq_count. unfold occurrences. rewrite filter_cons.
  destruct (decide (j = i)), (decide (tok = term)), (decide (term = tok ∧ j = i)); try naive_solver.
  cbn [length]. destruct (length (filter _ tokens)) as [|n]; [done|]. cbn. f_equal. lia.
Qed.

Lemma freq_loop (tokens : Document → list string) docs k fi term j :
  (∀ i, k <= i → freq fi.(fi_postings) term i = None) →
  freq (foldl (λ fi p, indexField fi p.1 (tokens p.2)) fi (zip (seq k (length docs)) docs)).(fi_postings) term j =
  if decide (k <= j) then docs !! (j - k) ≫= λ d, more (occurrences term (tokens d)) None
  else freq fi.(fi_postings) term j.
Proof.
  revert k fi. induction docs as [|d docs IH]; intros k fi Hnone; cbn [length seq zip zip_with foldl].
  { case_decide; [|done]. rewrite lookup_nil. by apply Hnone. }
  rewrite IH.
  - cbn [indexField fi_postings fst snd]. rewrite freq_tokens. destruct (decide (S k <= j)), (decide (k <= j)); try lia.
    + by replace (j - k) with (S (j - S k)) by lia.
    + assert (j = k) as -> by lia. rewrite decide_True, Nat.sub_diag by done. cbn.
      by rewrite Hnone.
    + by rewrite decide_False by lia.
  - intros i Hi. cbn [indexField fi_postings fst snd]. rewrite freq_tokens, decide_False by lia. apply Hnone. lia.
Qed.

Lemma lens_loop (tokens : Document → list string) docs k fi pre :
  fi.(fi_docLens) = pre ++ replicate (length docs) 0 → length pre = k →
  (foldl (λ fi p, indexField fi p.1 (tokens p.2)) fi (zip (seq k (length docs)) docs)).(fi_docLens) =
  pre ++ ((λ d, length (tokens d)) <$> docs).
Proof.
  revert k fi pre. induction docs as [|d docs IH]; intros k fi pre Hl Hk; cbn [length seq zip zip_with foldl]; [done|].
  rewrite (IH (S k) _ (pre ++ [length (tokens d)])).
  - by rewrite <- app_assoc.
  - cbn [indexField fi_docLens length fst snd replicate] in *. rewrite Hl, insert_app_r_alt, Hk, Nat.sub_diag by lia.
    by rewrite <- app_assoc.
  - rewrite length_app. cbn. lia.
Qed.

(** The average length of a field. *)
Definition average (tokens : Document → list string) (docs : list Document) : spec_float :=
  match docs with
  | [] => f_zero
  | _ => f_div (f_of_Z (Z.of_nat (sum_list ((λ d, length (tokens d)) <$> docs)))) (f_of_Z (Z.of_nat (length docs)))
  end.

Lemma loop_avg (tokens : Document → list string) l fi :
  (foldl (λ fi p, indexField fi p.1 (tokens p.2)) fi l).(fi_avgDocLen) = fi.(fi_avgDocLen).
Proof. revert fi. induction l as [|p l IH]; intros fi; [done|]. cbn [foldl]. by rewrite IH. Qed.

Lemma index_docs_exact tokens docs :
  let fi := index_docs tokens docs in
  (∀ term i, freq fi.(fi_postings) term i = docs !! i ≫= λ d, more (occurrences term (tokens d)) None) ∧
  fi.(fi_docLens) = (λ d, length (tokens d)) <$> docs ∧ fi.(fi_avgDocLen) = average tokens docs.
Proof.
  cbv zeta. unfold index_docs.
  pose proof (lens_loop tokens docs 0 (newFieldIndex (length docs)) [] eq_refl eq_refl) as Hlens.
  pose proof (freq_loop tokens docs 0 (newFieldIndex (length docs))) as Hfreq.
  pose proof (loop_avg tokens (zip (seq 0 (length docs)) docs) (newFieldIndex (length docs))) as Havg.
  destruct (foldl _ _ _) as [postings lens avg]. cbn [fi_postings fi_docLens fi_avgDocLen] in *.
  cbn [app newFieldIndex fi_avgDocLen] in Hlens, Havg. subst lens avg.
  assert (Hf : ∀ term i, freq postings term i = docs !! i ≫= λ d, more (occurrences term (tokens d)) None).
  { intros term i. rewrite (Hfreq term i) by done. rewrite decide_True, Nat.sub_0_r by lia. done. }
  unfold computeAvgDocLen. cbn [fi_docLens]. destruct docs as [|d docs]; [by split_and!|].
  cbn [fmap list_fmap]. split_and!; [exact Hf|done|]. cbn [fi_avgDocLen average]. by rewrite !length_cons, length_fmap.
Qed.

(** ** The reference score

    The sum of BM25 over the terms of the query and the four fields. *)

Definition field_score (weight x : spec_float) (tokens : Document → list string) (docs : list Document)
    (term : string) (d : Document) (score : spec_float) : spec_float :=
  match occurrences term (tokens d) with
  | 0 => score
  | tf =>
      let tf := f_of_Z (Z.of_nat tf) in
      let avgdl := if SFeqb (average tokens docs) f_zero then f_one else average tokens docs in
      f_add score (f_mul (f_mul weight x)
        (f_div (f_mul tf bm25K1_1)
           (f_add tf (f_mul bm25K1 (f_add bm25_1B
              (f_div (f_mul bm25B (f_of_Z (Z.of_nat (length (tokens d))))) avgdl))))))
  end.

(** The weight of each term is [x term]. *)
Definition add_terms (x : string → spec_float) (docs : list Document) (d : Document) (start : spec_float)
    (expanded : list string) : spec_float :=
  foldl (λ score term,
    field_score (f_of_Z 2) (x term) tags_tokens docs term d
      (field_score (f_of_Z 1) (x term) desc_tokens docs term d
        (field_score (f_of_Z 2) (x term) title_tokens docs term d
          (field_score (f_of_Z 3) (x term) name_tokens docs term d score)))) start expanded.

Definition reference_score (x : string → spec_float) (expanded : list string) (docs : list Document)
    (d : Document) : spec_float := add_terms x docs d f_zero expanded.

Lemma accumulate_exact weight x term scores tokens docs i d score :
  docs !! i = Some d → scores !! i = Some score →
  accumulateFieldPartitioned weight x term scores (index_docs tokens docs) !! i =
  Some (field_score weight x tokens docs term d score).
Proof.
  intros Hd Hs. destruct (index_docs_exact tokens docs) as (Hfreq & Hlens & Havg). cbv zeta in *.
  specialize (Hfreq term i). rewrite Hd in Hfreq. cbn [mbind option_bind] in Hfreq.
  unfold accumulateFieldPartitioned, field_score. rewrite Havg, Hlens. unfold freq in Hfreq.
  destruct (fi_postings (index_docs tokens docs) !! term) as [posting|]; cbn [mbind option_bind] in Hfreq.
  - rewrite list_lookup_imap, Hs. cbn [fmap option_fmap option_map]. rewrite Hfreq, list_lookup_fmap, Hd.
    cbn [fmap option_fmap option_map default]. destruct (occurrences term (tokens d)) as [|n]; [done|].
    cbn [more]. by rewrite Nat.add_0_r.
  - destruct (occurrences term (tokens d)); [done|discriminate Hfreq].
Qed.

(** ** The state of the engine *)

(** All terms of a document, field by field. *)
Definition field_tokens : list (Document → list string) := [name_tokens; title_tokens; desc_tokens; tags_tokens].
Definition doc_terms (d : Document) : list string := field_tokens ≫= λ tokens, tokens d.

Definition built (p : bm25Partition) : Prop := p = buildPartition p.(bp_serverID) p.(bp_docs).

Lemma built_fields p : built p →
  partition_fields p = (λ tokens, index_docs tokens p.(bp_docs)) <$> field_tokens.
Proof. intros Hb. by rewrite Hb. Qed.

Lemma elem_of_doc_terms term d : term ∈ doc_terms d ↔ ∃ tokens, tokens ∈ field_tokens ∧ term ∈ tokens d.
Proof. unfold doc_terms. rewrite list_elem_of_bind. naive_solver. Qed.

(** Some field of the partition has the term in document [i]. *)
Lemma posted_somewhere p term i : built p →
  (∃ fi, fi ∈ partition_fields p ∧ posted fi.(fi_postings) term i) ↔
  ∃ d, p.(bp_docs) !! i = Some d ∧ term ∈ doc_terms d.
Proof.
  intros Hb. rewrite built_fields by done. setoid_rewrite list_elem_of_fmap. setoid_rewrite elem_of_doc_terms. split.
  - intros (fi & (tokens & -> & Hin) & (d & Hd & Ht)%index_docs_posted). eauto 10.
  - intros (d & Hd & tokens & Hin & Ht). eexists. split; [eauto|]. apply index_docs_posted. eauto.
Qed.

Lemma partition_docs_spec p term s i : built p →
  (s, i) ∈ partition_docs p term ↔ s = p.(bp_serverID) ∧ ∃ d, p.(bp_docs) !! i = Some d ∧ term ∈ doc_terms d.
Proof.
  intros Hb. rewrite <- posted_somewhere by done. unfold partition_docs. rewrite elem_of_union_list.
  setoid_rewrite list_elem_of_fmap. split.
  - intros (X & (fi & -> & Hfi) & (j & [= -> ->] & Hj)%elem_of_map). eauto.
  - intros (-> & fi & Hfi & Hp). eexists. split; [eauto|]. apply elem_of_map. eauto.
Qed.

Lemma partition_terms_spec p term : built p →
  term ∈ partition_terms p ↔ ∃ d, d ∈ p.(bp_docs) ∧ term ∈ doc_terms d.
Proof.
  intros Hb. unfold partition_terms. rewrite elem_of_union_list, built_fields by done.
  setoid_rewrite elem_of_doc_terms. setoid_rewrite list_elem_of_fmap. setoid_rewrite list_elem_of_fmap. split.
  - intros (X & (fi & -> & tokens & -> & Hin) & (d & Hd & Ht)%index_docs_dom). eauto 10.
  - intros (d & Hd & tokens & Hin & Ht). eexists. split; [eauto|]. apply index_docs_dom. eauto.
Qed.

(** *** Inverse document frequencies *)

(** All documents, and those among them that have a term. *)
Definition documents (e : BM25Engine) : list Document := (map_to_list e.(bm_partitions)).*2 ≫= bp_docs.
Definition with_term (term : string) (docs : list Document) : list Document := filter (λ d, term ∈ doc_terms d) docs.

Definition idf (n df : nat) : spec_float :=
  let n := f_of_Z (Z.of_nat n) in
  let df := f_of_Z (Z.of_nat df) in
  Log (f_add (f_div (f_add (f_sub n df) f_half) (f_add df f_half)) f_one).

(** The engine is what its documents make of it. *)
Record well_indexed (e : BM25Engine) : Prop := {
  wi_built : ∀ pid p, e.(bm_partitions) !! pid = Some p → built p ∧ p.(bp_serverID) = pid;
  wi_idf : e.(bm_globalIDF) = recomputeGlobalIDF Log e.(bm_partitions);
}.

Lemma partition_docs_size p term : built p → size (partition_docs p term) = length (with_term term p.(bp_docs)).
Proof.
  intros Hb.
  assert (Hset : partition_docs p term =
    list_to_set (pair p.(bp_serverID) <$> (filter (λ x, term ∈ doc_terms x.2) (zip (seq 0 (length p.(bp_docs))) p.(bp_docs))).*1)).
  { apply set_eq. intros [s i]. rewrite partition_docs_spec by done.
    rewrite elem_of_list_to_set, list_elem_of_fmap. split.
    - intros (-> & d & Hd & Ht). exists i. split; [done|]. apply list_elem_of_fmap. exists (i, d). split; [done|].
      apply list_elem_of_filter. split; [done|]. apply elem_of_numbered. rewrite Nat.sub_0_r. split; [lia|done].
    - intros (j & [= -> ->] & ([j' d] & -> & [Ht Hin]%list_elem_of_filter)%list_elem_of_fmap).
      apply elem_of_numbered in Hin as [_ Hd]. rewrite Nat.sub_0_r in Hd. eauto. }
  rewrite Hset, size_list_to_set.
  - rewrite !length_fmap. exact (length_filter_numbered (λ d, term ∈ doc_terms d) (bp_docs p) 0).
  - apply NoDup_fmap; [by intros ?? [=]|]. eapply sublist_NoDup; [apply (NoDup_seq 0)|].
    etrans; [apply fmap_sublist, sublist_filter|]. by rewrite fst_zip by (rewrite length_seq; lia).
Qed.

Lemma size_disjoint_union ps term :
  (∀ p, p ∈ ps → built p) → NoDup (bp_serverID <$> ps) →
  size (⋃ ((λ p, partition_docs p term) <$> ps)) = length (with_term term (ps ≫= bp_docs)).
Proof.
  induction ps as [|p ps IH]; intros Hb Hnd; [done|]. rewrite fmap_cons in Hnd. apply NoDup_cons in Hnd as [Hp Hnd].
  rewrite fmap_cons, bind_cons. change (⋃ (?x :: ?l)) with (x ∪ ⋃ l). unfold with_term.
  rewrite filter_app, length_app, size_union.
  - rewrite partition_docs_size by (apply Hb; left). f_equal. apply IH; [|done]. intros q Hq. apply Hb. by right.
  - apply elem_of_disjoint. intros [s i] Hs (X & (q & -> & Hq)%list_elem_of_fmap & Hin)%elem_of_union_list.
    apply partition_docs_spec in Hs as [-> _]; [|apply Hb; left].
    apply partition_docs_spec in Hin as [Heq _]; [|apply Hb; by right].
    apply Hp. apply list_elem_of_fmap. eauto.
Qed.

Lemma sum_docs ps : sum_list ((length ∘ bp_docs) <$> ps) = length (ps ≫= bp_docs).
Proof. induction ps as [|p ps IH]; [done|]. cbn. rewrite length_app. f_equal. exact IH. Qed.

(** The frequencies of an engine are those of its documents. *)
Lemma idf_exact e term x : well_indexed e →
  e.(bm_globalIDF) !! term = Some x ↔
  with_term term (documents e) ≠ [] ∧ x = idf (length (documents e)) (length (with_term term (documents e))).
Proof.
  intros [Hb ->]. unfold recomputeGlobalIDF. rewrite lookup_set_to_map by (intros; by simplify_eq).
  rewrite sum_docs. fold (documents e).
  assert (Hbs : ∀ p, p ∈ (map_to_list e.(bm_partitions)).*2 → built p).
  { intros p ([pid p'] & -> & Hin%elem_of_map_to_list)%list_elem_of_fmap. by destruct (Hb _ _ Hin). }
  assert (Hnd : NoDup (bp_serverID <$> (map_to_list e.(bm_partitions)).*2)).
  { replace (bp_serverID <$> _) with (map_to_list e.(bm_partitions)).*1; [apply NoDup_fst_map_to_list|].
    rewrite <- list_fmap_compose. apply list_fmap_ext. intros i [pid p] Hi%list_elem_of_lookup_2%elem_of_map_to_list.
    cbn. by destruct (Hb _ _ Hi). }
  pose proof (size_disjoint_union _ term Hbs Hnd) as Hsize. fold (documents e) in Hsize.
  assert (Hterm : term ∈ (⋃ (partition_terms <$> (map_to_list e.(bm_partitions)).*2) : gset string) ↔
    with_term term (documents e) ≠ []).
  { rewrite elem_of_union_list. setoid_rewrite list_elem_of_fmap. split.
    - intros (X & (p & -> & Hp) & (d & Hd & Ht)%partition_terms_spec); [|by apply Hbs]. intros Hnil.
      apply (not_elem_of_nil d). rewrite <- Hnil. apply list_elem_of_filter. split; [done|].
      apply list_elem_of_bind. eauto.
    - intros Hne. destruct (with_term term (documents e)) as [|d l] eqn:E; [done|].
      assert (d ∈ with_term term (documents e)) as [Ht (p & Hd & Hp)%list_elem_of_bind]%list_elem_of_filter
        by (rewrite E; left).
      eexists. split; [eauto|]. apply partition_terms_spec; [by apply Hbs|]. eauto. }
  rewrite <- Hterm. split.
  - intros (t & Ht & [= -> <-]). by rewrite Hsize.
  - intros [Ht ->]. exists term. by rewrite Hsize.
Qed.

(** Every update keeps the engine well indexed. *)
Lemma set_partitions_indexed e ps :
  (∀ pid p, ps !! pid = Some p → built p ∧ p.(bp_serverID) = pid) → well_indexed (set_partitions Log ps e).
Proof. intros Hps. by split. Qed.

Lemma build_built pid docs : built (buildPartition pid docs) ∧ (buildPartition pid docs).(bp_serverID) = pid.
Proof. done. Qed.

Lemma insert_indexed e pid docs : well_indexed e →
  well_indexed (set_partitions Log (<[pid := buildPartition pid docs]> e.(bm_partitions)) e).
Proof.
  intros [Hb _]. apply set_partitions_indexed. intros pid' p. rewrite lookup_insert_Some.
  intros [[<- <-]|[_ Hp]]; [apply build_built|by apply Hb].
Qed.

Lemma delete_indexed e pid : well_indexed e →
  well_indexed (set_partitions Log (delete pid e.(bm_partitions)) e).
Proof.
  intros [Hb _]. apply set_partitions_indexed. intros pid' p. rewrite lookup_delete_Some. intros [_ Hp]. by apply Hb.
Qed.

(** The partitions of a map in the order of a list of their names: the order in
    which a [range] visits them may be any. *)
Definition ranged {P} (names : list string) (m : gmap string P) : list (string * P) :=
  omap (λ pid, (pid,.) <$> m !! pid) names.

Lemma elem_of_ranged {P} names (m : gmap string P) pid p : (pid, p) ∈ ranged names m → m !! pid = Some p.
Proof. intros (pid' & _ & Hp)%list_elem_of_omap. by destruct (m !! pid') eqn:E; simplify_eq/=. Qed.

Inductive BM25Op :=
| BIndex (docs : list Document)
| BAdd (serverID : string) (docs : list Document)
| BRemovePartition (serverID : string)
| BRemove (key : string) (names : list string).

Definition bm25_step (e : BM25Engine) (op : BM25Op) : BM25Engine :=
  match op with
  | BIndex docs => BM25Index Log docs e
  | BAdd serverID docs => AddPartition Log serverID docs e
  | BRemovePartition serverID => RemovePartition Log serverID e
  | BRemove key names => remove_from Log key (ranged names e.(bm_partitions)) e
  end.

Lemma bm25_step_indexed e op : well_indexed e → well_indexed (bm25_step e op).
Proof.
  intros Hwi. destruct op as [docs|sid docs|sid|key names]; cbn [bm25_step].
  - apply set_partitions_indexed. intros pid p [<- <-]%lookup_singleton_Some. apply build_built.
  - by apply insert_indexed.
  - by apply delete_indexed.
  - induction (ranged _ _) as [|[pid p] order IH]; cbn [remove_from]; [done|].
    destruct (find_doc key _); [|done]. destruct (take _ _ ++ drop _ _); [by apply delete_indexed|by apply insert_indexed].
Qed.

(** The engine after a list of updates. *)
Definition bm25_run (provider : option SynonymProvider) (ops : list BM25Op) : BM25Engine :=
  foldl bm25_step (NewBM25EngineWithSynonyms provider) ops.

Lemma bm25_run_indexed provider ops : well_indexed (bm25_run provider ops).
Proof.
  unfold bm25_run. assert (Hnew : well_indexed (NewBM25EngineWithSynonyms provider)).
  { split; [|done]. intros pid p Hp. cbn in Hp. by rewrite lookup_empty in Hp. }
  revert Hnew. generalize (NewBM25EngineWithSynonyms provider). induction ops as [|op ops IH]; intros e He; [done|].
  cbn [foldl]. by apply IH, bm25_step_indexed.
Qed.

(** ** Scores *)

Lemma accumulate_length weight x term scores fi :
  length (accumulateFieldPartitioned weight x term scores fi) = length scores.
Proof. unfold accumulateFieldPartitioned. destruct (_ !! term); [by rewrite length_imap|done]. Qed.

(** A field without the term leaves the score of a document alone. *)
Lemma accumulate_untouched weight x term scores fi i :
  ¬ posted fi.(fi_postings) term i →
  accumulateFieldPartitioned weight x term scores fi !! i = scores !! i.
Proof.
  unfold posted, accumulateFieldPartitioned. intros Hi. destruct (fi_postings fi !! term) as [posting|]; [|done].
  rewrite list_lookup_imap. cbn in Hi. apply not_elem_of_dom in Hi. rewrite Hi. by destruct (scores !! i).
Qed.

Lemma partition_scores_length e expanded p : length (partition_scores e expanded p) = length p.(bp_docs).
Proof.
  unfold partition_scores. rewrite <- (length_replicate (length (bp_docs p)) f_zero) at 2.
  generalize (replicate (length (bp_docs p)) f_zero). induction expanded as [|term expanded IH]; intros scores; [done|].
  cbn [foldl]. by rewrite IH, !accumulate_length.
Qed.

Lemma partition_scores_exact e expanded p i d :
  built p → p.(bp_docs) !! i = Some d →
  partition_scores e expanded p !! i =
  Some (reference_score (λ term, default f_zero (e.(bm_globalIDF) !! term)) expanded p.(bp_docs) d).
Proof.
  intros Hb Hd. unfold partition_scores, reference_score. rewrite Hb.
  cbn [buildPartition bp_nameIdx bp_titleIdx bp_descIdx bp_tagsIdx bp_docs].
  match goal with |- foldl ?F ?l expanded !! i = Some (add_terms ?x ?docs d ?s expanded) =>
    assert (Hgen : ∀ scores start, scores !! i = Some start →
      foldl F scores expanded !! i = Some (add_terms x docs d start expanded)) end.
  { clear Hb. induction expanded as [|term expanded IH]; intros scores start Hs; [done|].
    cbn [foldl add_terms]. apply IH. do 4 (apply accumulate_exact; [exact Hd|]). exact Hs. }
  apply Hgen, lookup_replicate. split; [done|by eapply lookup_lt_Some].
Qed.

(** A document without any of the terms has the score 0. *)
Lemma partition_scores_untouched e expanded p i d :
  built p → p.(bp_docs) !! i = Some d → (∀ term, term ∈ expanded → term ∉ doc_terms d) →
  partition_scores e expanded p !! i = Some f_zero.
Proof.
  intros Hb Hd Hterms. unfold partition_scores.
  transitivity (replicate (length (bp_docs p)) f_zero !! i);
    [|apply lookup_replicate; split; [done|by eapply lookup_lt_Some]].
  generalize (replicate (length (bp_docs p)) f_zero).
  assert (Hnot : ∀ term fi, term ∈ expanded → fi ∈ partition_fields p → ¬ posted fi.(fi_postings) term i).
  { intros term fi Ht Hfi Hp. destruct (proj1 (posted_somewhere p term i Hb)) as (d' & Hd' & Hin); [eauto|].
    rewrite Hd in Hd'. injection Hd' as <-. by apply (Hterms term). }
  clear Hterms. induction expanded as [|term expanded IH]; intros scores; [done|].
  cbn [foldl]. rewrite IH by (intros t fi Ht; apply Hnot; by right).
  rewrite !accumulate_untouched; [done|..]; (apply Hnot; [left|]); unfold partition_fields; set_solver.
Qed.

(** The weight of a term, from the documents indexed now. *)
Definition weight (e : BM25Engine) (term : string) : spec_float :=
  match with_term term (documents e) with
  | [] => f_zero
  | ds => idf (length (documents e)) (length ds)
  end.

Lemma weight_exact e term : well_indexed e → default f_zero (e.(bm_globalIDF) !! term) = weight e term.
Proof.
  intros Hwi. pose proof (idf_exact e term) as Hx. unfold weight.
  destruct (bm_globalIDF e !! term) as [x|] eqn:E.
  - destruct (proj1 (Hx x Hwi) eq_refl) as [Hne ->]. by destruct (with_term term (documents e)).
  - destruct (with_term term (documents e)) as [|d ds] eqn:Ed; [done|].
    assert (Hne : d :: ds ≠ []) by done. discriminate (proj2 (Hx _ Hwi) (conj Hne eq_refl)).
Qed.

Lemma add_terms_ext x y docs d start expanded :
  (∀ term, x term = y term) → add_terms x docs d start expanded = add_terms y docs d start expanded.
Proof.
  intros Hxy. revert start. induction expanded as [|term expanded IH]; intros start; [done|].
  unfold add_terms in *. cbn [foldl]. rewrite Hxy. apply IH.
Qed.

(** The score of a document of a partition for the terms. *)
Definition document_score (e : BM25Engine) (expanded : list string) (p : bm25Partition) (d : Document) : spec_float :=
  reference_score (weight e) expanded p.(bp_docs) d.

Lemma elem_of_partition_hits e expanded p key score : well_indexed e → built p →
  (key, score) ∈ partition_hits e expanded p ↔
  SFltb f_zero score = true ∧ ∃ d, d ∈ p.(bp_docs) ∧ d.(dc_Key) = key ∧ score = document_score e expanded p d.
Proof.
  intros Hwi Hb. unfold partition_hits. rewrite list_elem_of_filter. cbn [snd]. apply and_iff_compat_l.
  assert (Hs : ∀ i d, p.(bp_docs) !! i = Some d →
    partition_scores e expanded p !! i = Some (document_score e expanded p d)).
  { intros i d Hd. rewrite (partition_scores_exact e expanded p i d Hb Hd). f_equal. apply add_terms_ext.
    intros term. by apply weight_exact. }
  split.
  - intros (i & [Hkey Hscore]%lookup_zip_Some)%list_elem_of_lookup.
    apply list_lookup_fmap_Some in Hkey as (d & -> & Hd). rewrite (Hs i d Hd) in Hscore. injection Hscore as <-.
    exists d. split_and!; [by eapply list_elem_of_lookup_2|done..].
  - intros (d & (i & Hd)%list_elem_of_lookup & <- & ->). apply list_elem_of_lookup. exists i.
    apply lookup_zip_Some. rewrite list_lookup_fmap, Hd, (Hs i d Hd). done.
Qed.

(** A document with a positive score has one of the terms. *)
Lemma hit_has_term e expanded p d : well_indexed e → built p → d ∈ p.(bp_docs) →
  SFltb f_zero (document_score e expanded p d) = true → ∃ term, term ∈ expanded ∧ term ∈ doc_terms d.
Proof.
  intros Hwi Hb (i & Hd)%list_elem_of_lookup Hpos.
  destruct (decide (Exists (λ term, term ∈ doc_terms d) expanded)) as [(term & Ht & Hin)%Exists_exists|Hno]; [eauto|].
  pose proof (partition_scores_untouched e expanded p i d Hb Hd) as Hzero.
  rewrite (partition_scores_exact e expanded p i d Hb Hd) in Hzero. unfold document_score, reference_score in *.
  rewrite (add_terms_ext (weight e) (λ term, default f_zero (e.(bm_globalIDF) !! term))) in Hpos
    by (intros; symmetry; by apply weight_exact).
  apply Some_inj in Hzero; [by rewrite Hzero in Hpos|].
  intros term Ht Hin. apply Hno, Exists_exists. eauto.
Qed.

Lemma add_scores_dom l scores : dom (foldl add_score scores l) = dom scores ∪ (list_to_set l.*1 : gset string).
Proof.
  revert scores. induction l as [|r l IH]; intros scores; cbn [foldl]; [set_solver|].
  rewrite IH. unfold add_score. rewrite dom_insert_L. set_solver.
Qed.

(** *** Sorted results *)

Lemma SFcompare_sym x y : SFcompare y x = CompOpp <$> SFcompare x y.
Proof.
  destruct x as [[]|[]| |[] m e], y as [[]|[]| |[] m' e']; try done; cbn.
  all: rewrite (Z.compare_antisym e e'); destruct (e ?= e')%Z; cbn; try done.
  all: rewrite (Pos.compare_cont_antisym m m' Eq); done.
Qed.


#[export] Instance result_le_total : Total result_le.
Proof.
  intros [k x] [k' y]. unfold result_le, result_before. cbn [fst snd].
  assert (Hsym : SFeqb x y = SFeqb y x).
  { unfold SFeqb. pose proof (SFcompare_sym x y) as Hs. destruct (SFcompare x y) as [[]|], (SFcompare y x) as [[]|]; done. }
  rewrite Hsym. destruct (SFeqb y x).
  - destruct (string_lt k' k) eqn:E1; [right|by left]. unfold string_lt, String.ltb in *.
    rewrite String.compare_antisym in E1. by destruct (String.compare k k').
  - unfold SFltb in *. rewrite (SFcompare_sym x y). destruct (SFcompare x y) as [[]|]; (by left) || (by right).
Qed.

(** A search over partitions in any order: distinct keys, sorted, at most
    [limit], each the key of a document with one of the terms. *)
Lemma limit_results_sublist {A} limit (l : list A) : ∃ k, l = limit_results limit l ++ k.
Proof.
  unfold limit_results. destruct (0 <? limit)%Z; [|exists []; by rewrite app_nil_r].
  exists (drop (Z.to_nat limit) l). by rewrite take_drop.
Qed.

Lemma sort_results_perm l : sort_results l ≡ₚ l.
Proof. apply merge_sort_Permutation. Qed.

Lemma results_of_scores limit (scores : gmap string spec_float) :
  let r := limit_results limit (sort_results (map_to_list scores)) in
  NoDup r.*1 ∧ Sorted result_le r ∧ ((0 < limit)%Z → (Z.of_nat (length r) <= limit)%Z) ∧
  (∀ key score, (key, score) ∈ r → scores !! key = Some score).
Proof.
  cbv zeta. set (l := sort_results _).
  assert (Hl : l ≡ₚ map_to_list scores) by apply sort_results_perm.
  assert (Hsorted : Sorted result_le l) by apply (Sorted_merge_sort result_le).
  clearbody l. destruct (limit_results_sublist limit l) as [k Hk].
  assert (Hnd : NoDup l.*1) by (rewrite Hl; apply NoDup_fst_map_to_list).
  split_and!.
  - rewrite Hk, fmap_app in Hnd. by apply NoDup_app in Hnd as [? _].
  - rewrite Hk in Hsorted. clear -Hsorted. induction (limit_results limit l) as [|x r IH]; [constructor|].
    inversion_clear Hsorted as [|?? Hr Hx]. constructor; [by apply IH|]. destruct r; [constructor|].
    inversion_clear Hx. by constructor.
  - intros Hpos. unfold limit_results. destruct (Z.ltb_spec 0 limit); [|lia]. rewrite length_take. lia.
  - intros key score Hin. apply elem_of_map_to_list. rewrite <- Hl, Hk. apply elem_of_app. by left.
Qed.

(** The hits of documents with distinct keys add up in any order. *)
Lemma add_scores_perm l l' scores : NoDup l.*1 → l ≡ₚ l' → foldl add_score scores l = foldl add_score scores l'.
Proof.
  intros Hnd Hl. revert scores. induction Hl as [|r l l' Hl IH|r s l|l l' l'' Hl IH Hl' IH']; intros scores; [done| | |].
  - cbn [foldl]. apply IH. by apply NoDup_cons in Hnd as [_ ?].
  - cbn [foldl]. f_equal. cbn [fmap list_fmap] in Hnd. apply NoDup_cons in Hnd as [Hs _].
    assert (r.1 ≠ s.1) by set_solver. unfold add_score. rewrite !lookup_insert_ne by done. by rewrite insert_insert_ne.
  - rewrite IH by done. apply IH'. by rewrite <- Hl.
Qed.

Lemma hits_keys e expanded ps : (ps ≫= partition_hits e expanded).*1 `sublist_of` dc_Key <$> (ps ≫= bp_docs).
Proof.
  induction ps as [|p ps IH]; [done|]. rewrite !bind_cons, !fmap_app. apply sublist_app; [|exact IH].
  unfold partition_hits. etrans; [apply fmap_sublist, sublist_filter|].
  rewrite fst_zip; [done|]. by rewrite length_fmap, partition_scores_length.
Qed.

Lemma search_keys_NoDup order query limit e : NoDup (BM25SearchIn order query limit e).*1.
Proof.
  unfold BM25SearchIn. destruct (Tokenize query); [constructor|]. by apply results_of_scores.
Qed.

(** The hits of all partitions, for an order of the partitions. *)
Lemma elem_of_all_hits e expanded key score : well_indexed e →
  (key, score) ∈ (map_to_list e.(bm_partitions)).*2 ≫= partition_hits e expanded ↔
  SFltb f_zero score = true ∧ ∃ pid p d, e.(bm_partitions) !! pid = Some p ∧ d ∈ p.(bp_docs) ∧
    d.(dc_Key) = key ∧ score = document_score e expanded p d.
Proof.
  intros Hwi. rewrite list_elem_of_bind. split.
  - intros (p & Hhit & ([pid p'] & -> & Hp%elem_of_map_to_list)%list_elem_of_fmap).
    destruct (wi_built _ Hwi _ _ Hp) as [Hb _].
    apply elem_of_partition_hits in Hhit as [Hpos (d & ? & ? & ?)]; [|done..]. eauto 10.
  - intros [Hpos (pid & p & d & Hp & Hd & Hk & Hs)]. destruct (wi_built _ Hwi _ _ Hp) as [Hb _]. exists p.
    split; [apply elem_of_partition_hits; eauto|]. apply list_elem_of_fmap. exists (pid, p).
    by rewrite elem_of_map_to_list.
Qed.

Lemma positive_unsigned x : SFltb f_zero x = true → unsigned x = true.
Proof. by destruct x as [[]|[]| |[]]. Qed.

(** The sum of the hits of each key. *)
Lemma summed_hits hits key :
  (key ∈ (map_to_list (foldl add_score ∅ hits)).*1 ↔ key ∈ hits.*1) ∧
  (NoDup hits.*1 → (∀ k x, (k, x) ∈ hits → SFltb f_zero x = true) →
   ∀ score, (key, score) ∈ map_to_list (foldl add_score ∅ hits) ↔ (key, score) ∈ hits).
Proof.
  split.
  - transitivity (key ∈ dom (foldl add_score ∅ hits)).
    + rewrite elem_of_dom, list_elem_of_fmap. split.
      * intros ([k x] & -> & Hin%elem_of_map_to_list). eauto.
      * intros [x Hx]. exists (key, x). by rewrite elem_of_map_to_list.
    + rewrite add_scores_dom, dom_empty_L. set_solver.
  - intros Hnd Hpos score. rewrite elem_of_map_to_list, add_scores_lookup, lookup_empty by done. cbn [default].
    rewrite (elem_of_list_to_map (M := gmap string)) by done.
    destruct (list_to_map hits !! key) as [x|] eqn:E; [|done].
    apply (elem_of_list_to_map_2 (M := gmap string)), Hpos, positive_unsigned in E. cbn [from_option].
    by rewrite f_add_zero.
Qed.

(** C25: BM25 search after any updates of the partitions. The answer to a limit is
    the first part of the full answer, whose keys are distinct and in the order of
    falling scores and then rising keys. A key is in it exactly when the query has
    a token and a document indexed now with that key has a positive score: nothing
    is lost, and nothing removed or replaced is found. The score is the BM25 sum
    over the terms of the expanded query and the four fields, with the inverse
    document frequency over exactly the documents indexed now; a document with a
    positive score has one of the terms. When no two indexed documents share a key,
    the answer gives each key the score of its document, and does not depend on the
    order in which the partitions are visited; documents that share a key have
    their scores added in the order of the visit. *)
Theorem bm25_search_correct provider ops query limit :
  let e := bm25_run provider ops in
  let found := BM25Search query 0 e in
  let expanded := ExpandQueryWith (Tokenize query) e.(bm_synonyms) in
  BM25Search query limit e = limit_results limit found ∧ NoDup found.*1 ∧ Sorted result_le found ∧
  (∀ key, key ∈ found.*1 ↔ Tokenize query ≠ [] ∧ ∃ pid p d, e.(bm_partitions) !! pid = Some p ∧
    d ∈ p.(bp_docs) ∧ d.(dc_Key) = key ∧ SFltb f_zero (document_score e expanded p d) = true) ∧
  (∀ pid p d, e.(bm_partitions) !! pid = Some p → d ∈ p.(bp_docs) →
    SFltb f_zero (document_score e expanded p d) = true → ∃ term, term ∈ expanded ∧ term ∈ doc_terms d) ∧
  (∀ term x, e.(bm_globalIDF) !! term = Some x ↔
    with_term term (documents e) ≠ [] ∧ x = idf (length (documents e)) (length (with_term term (documents e)))) ∧
  (NoDup (dc_Key <$> documents e) →
    (∀ key score, (key, score) ∈ found ↔ Tokenize query ≠ [] ∧ SFltb f_zero score = true ∧
       ∃ pid p d, e.(bm_partitions) !! pid = Some p ∧ d ∈ p.(bp_docs) ∧ d.(dc_Key) = key ∧
         score = document_score e expanded p d) ∧
    (∀ order, order ≡ₚ (map_to_list e.(bm_partitions)).*2 →
       BM25SearchIn order query limit e = BM25Search query limit e)).
Proof.
  intros e found. assert (Hwi : well_indexed e) by apply bm25_run_indexed. subst found.
  unfold BM25Search, BM25SearchIn. destruct (Tokenize query) as [|t ts].
  { split_and!; [by unfold limit_results; rewrite take_nil; destruct (_ <? _)%Z|constructor|constructor
      | | |by intros; apply idf_exact|].
    - intros key. split; [by intros ?%elem_of_nil|by intros [? _]].
    - intros pid p d Hp Hd. by apply hit_has_term; [|apply (wi_built _ Hwi _ _ Hp)|].
    - intros _. split; [|done]. intros key score. split; [by intros ?%elem_of_nil|by intros [? _]]. }
  set (expanded := ExpandQueryWith _ _). cbv zeta.
  set (hits := (map_to_list e.(bm_partitions)).*2 ≫= partition_hits e expanded).
  destruct (results_of_scores 0 (foldl add_score ∅ hits)) as (H1 & H2 & _).
  assert (Hfull : limit_results 0 (sort_results (map_to_list (foldl add_score ∅ hits))) ≡ₚ
    map_to_list (foldl add_score ∅ hits)) by apply sort_results_perm.
  split_and!; [done|exact H1|exact H2| | |by intros; apply idf_exact|].
  - intros key. rewrite Hfull, (proj1 (summed_hits hits key)), list_elem_of_fmap. split.
    + intros ([k s] & -> & [Hpos (pid & p & d & ? & ? & ? & ->)]%elem_of_all_hits); [|done]. split; [done|]. eauto 10.
    + intros [_ (pid & p & d & Hp & Hd & Hk & Hpos)]. exists (key, document_score e expanded p d). split; [done|].
      apply elem_of_all_hits; [done|]. eauto 10.
  - intros pid p d Hp Hd. by apply hit_has_term; [|apply (wi_built _ Hwi _ _ Hp)|].
  - intros Hnd. assert (Hndh : NoDup hits.*1) by (eapply sublist_NoDup; [exact Hnd|apply hits_keys]). split.
    + intros key score. rewrite Hfull, (proj2 (summed_hits hits key)); [|done|].
      * unfold hits. rewrite elem_of_all_hits by done. naive_solver.
      * intros k x [Hpos _]%elem_of_all_hits; done.
    + intros order Horder. do 3 f_equal. apply add_scores_perm; [|by rewrite Horder].
      by rewrite Horder.
Qed.

End bm25.

(** ** Fusion *)

Lemma rrf_ranks_keys l : (rrf_ranks l).*1 = l.*1.
Proof.
  unfold rrf_ranks. apply list_eq. intros i. rewrite !list_lookup_fmap, list_lookup_imap.
  destruct (l !! i); reflexivity.
Qed.

Lemma rrf_ranks_unsigned l r : r ∈ rrf_ranks l → unsigned r.2 = true.
Proof.
  intros (i & Hi)%list_elem_of_lookup. unfold rrf_ranks in Hi. rewrite list_lookup_imap in Hi.
  destruct (l !! i) as [x|]; [|discriminate Hi]. apply Some_inj in Hi. rewrite <- Hi. exact (rank_unsigned _).
Qed.

(** The fusion does not prefer one of the engines. *)
Lemma fuse_comm a b : NoDup a.*1 → NoDup b.*1 → fuseRRF a b = fuseRRF b a.
Proof.
  intros Ha Hb. unfold fuseRRF. do 2 f_equal. apply map_eq. intros k. rewrite !foldl_app.
  rewrite !add_scores_lookup by (by rewrite rrf_ranks_keys). rewrite lookup_empty. cbn [default].
  destruct ((list_to_map (rrf_ranks a) : gmap string spec_float) !! k) as [x|] eqn:Ex,
    ((list_to_map (rrf_ranks b) : gmap string spec_float) !! k) as [y|] eqn:Ey; try done.
  apply elem_of_list_to_map_2, rrf_ranks_unsigned in Ex. apply elem_of_list_to_map_2, rrf_ranks_unsigned in Ey.
  cbn [from_option]. rewrite !f_add_zero by done. by rewrite f_add_comm.
Qed.

Lemma fuse_keys a b key : key ∈ (fuseRRF a b).*1 ↔ key ∈ a.*1 ∨ key ∈ b.*1.
Proof.
  unfold fuseRRF. rewrite sort_results_perm. rewrite list_elem_of_fmap.
  transitivity (key ∈ dom (foldl add_score ∅ (rrf_ranks a ++ rrf_ranks b))).
  - rewrite elem_of_dom. split.
    + intros ([k x] & -> & Hin%elem_of_map_to_list). eauto.
    + intros [x Hx]. exists (key, x). by rewrite elem_of_map_to_list.
  - rewrite add_scores_dom, dom_empty_L, fmap_app, !rrf_ranks_keys. set_solver.
Qed.

(** What a list gives a key: the reciprocal of [rrfK] and its rank, from 1. *)
Fixpoint key_rank (key : string) (l : list ScoredResult) : option nat :=
  match l with
  | [] => None
  | r :: l' => if bool_decide (r.1 = key) then Some 1 else S <$> key_rank key l'
  end.
Definition reciprocal (key : string) (l : list ScoredResult) : spec_float :=
  match key_rank key l with
  | Some rank => f_div f_one (f_of_Z (Z.of_nat (rrfK + rank)))
  | None => f_zero
  end.

Lemma key_rank_Some key l rank : key_rank key l = Some rank →
  ∃ i r, rank = S i ∧ l !! i = Some r ∧ r.1 = key.
Proof.
  revert rank. induction l as [|r l IH]; intros rank; cbn [key_rank]; [done|]. case_bool_decide.
  - intros [= <-]. by exists 0, r.
  - destruct (key_rank key l) as [k|]; [|done]. intros [= <-]. destruct (IH k eq_refl) as (i & r' & -> & ? & ?).
    by exists (S i), r'.
Qed.

Lemma key_rank_None key l : key_rank key l = None → key ∉ l.*1.
Proof.
  induction l as [|r l IH]; cbn [key_rank]; [intros _; apply not_elem_of_nil|]. case_bool_decide; [done|].
  destruct (key_rank key l); [done|]. intros _. rewrite fmap_cons, not_elem_of_cons. split; [done|by apply IH].
Qed.

Lemma ranks_lookup key l : NoDup l.*1 →
  (list_to_map (rrf_ranks l) : gmap string spec_float) !! key =
  match key_rank key l with Some _ => Some (reciprocal key l) | None => None end.
Proof.
  intros Hnd. unfold reciprocal. destruct (key_rank key l) as [rank|] eqn:E.
  - apply key_rank_Some in E as (i & r & -> & Hi & <-). apply elem_of_list_to_map_1; [by rewrite rrf_ranks_keys|].
    apply list_elem_of_lookup. exists i. unfold rrf_ranks. rewrite list_lookup_imap, Hi. cbn. by repeat f_equal; lia.
  - apply key_rank_None in E. apply not_elem_of_list_to_map_1. by rewrite rrf_ranks_keys.
Qed.

Lemma reciprocal_unsigned key l : unsigned (reciprocal key l) = true.
Proof. unfold reciprocal. destruct (key_rank key l); [apply rank_unsigned|done]. Qed.

(** The fused score of a key. *)
Lemma fuse_score a b key score : NoDup a.*1 → NoDup b.*1 →
  (key, score) ∈ fuseRRF a b → score = f_add (reciprocal key a) (reciprocal key b).
Proof.
  intros Ha Hb. unfold fuseRRF. rewrite sort_results_perm, elem_of_map_to_list, foldl_app.
  rewrite !add_scores_lookup, !ranks_lookup, lookup_empty by (try rewrite rrf_ranks_keys; done). cbn [default].
  pose proof (reciprocal_unsigned key a). pose proof (reciprocal_unsigned key b).
  destruct (key_rank key a) eqn:Ea, (key_rank key b) eqn:Eb; intros Hs; try discriminate Hs;
    apply Some_inj in Hs as <-; cbn [from_option]; rewrite ?f_add_zero by done.
  - done.
  - assert (reciprocal key b = f_zero) as -> by (unfold reciprocal; by rewrite Eb). by rewrite f_add_comm, f_add_zero.
  - assert (reciprocal key a = f_zero) as -> by (unfold reciprocal; by rewrite Ea). by rewrite f_add_zero.
Qed.

(** ** The vector engine never runs out of its documents *)

Section hybrid.
Context `{UnicodeTables} (Log : spec_float → spec_float) (Embed : list string → result (list embedding)).

(** The embedder returns a vector for each text. *)
Definition embeds_each : Prop := ∀ texts es, Embed texts = Ok es → length es = length texts.

Definition aligned (e : VectorEngine) : Prop :=
  ∀ pid p, e.(ve_partitions) !! pid = Some p → length p.(vp_docs) = length p.(vp_embeddings).

Lemma aligned_insert e pid docs es : aligned e → length docs = length es →
  aligned (set_vectors (<[pid := mkVectorPartition docs es]> e.(ve_partitions)) e).
Proof. intros He Hl pid' p. cbn. rewrite lookup_insert_Some. intros [[<- <-]|[_ Hp]]; [done|by eapply He]. Qed.

Lemma aligned_delete e pid : aligned e → aligned (set_vectors (delete pid e.(ve_partitions)) e).
Proof. intros He pid' p. cbn. rewrite lookup_delete_Some. intros [_ Hp]. by eapply He. Qed.

Lemma cached_length docs c : length (cached docs c).1 = length docs.
Proof.
  revert c. induction docs as [|d docs IH]; intros c; cbn [cached]; [done|].
  generalize (ContentHash (dc_Name d) (dc_Description d)). intros h. destruct (EmbeddingGet h c) as [hit c1].
  specialize (IH c1). destruct (cached docs c1). cbn in *. by f_equal.
Qed.

Lemma missing_cons (d : Document) docs hit hits :
  (filter (λ p : Document * option embedding, p.2 = None) (zip (d :: docs) (hit :: hits))).*1 =
  match hit with None => [d] | Some _ => [] end ++ (filter (λ p, p.2 = None) (zip docs hits)).*1.
Proof. cbn [zip zip_with]. rewrite filter_cons. destruct hit; cbn [snd]; by case_decide. Qed.

Lemma fill_length docs hits fresh c :
  length hits = length docs → length fresh = length (filter (λ p, p.2 = None) (zip docs hits)).*1 →
  length (fill docs hits fresh c).1 = length docs.
Proof.
  revert hits fresh c. induction docs as [|d docs IH]; intros [|hit hits] fresh c Hl Hf; try done.
  injection Hl as Hl. rewrite missing_cons in Hf. destruct hit as [e|]; cbn [fill app length] in Hf |- *.
  - specialize (IH hits fresh c Hl Hf). destruct (fill docs hits fresh c). cbn in *. by f_equal.
  - destruct fresh as [|f fresh]; [done|]. injection Hf as Hf.
    generalize (EmbeddingSet (ContentHash (dc_Name d) (dc_Description d)) f c). intros c1.
    specialize (IH hits fresh c1 Hl Hf). destruct (fill docs hits fresh c1). cbn in *. by f_equal.
Qed.

Lemma all_cached (docs : list Document) (hits : list (option embedding)) :
  length hits = length docs → (filter (λ p, p.2 = None) (zip docs hits)).*1 = [] → length (omap id hits) = length docs.
Proof.
  revert hits. induction docs as [|d docs IH]; intros [|hit hits] Hl Hn; try done. injection Hl as Hl.
  rewrite missing_cons in Hn. destruct hit; [|done]. cbn. f_equal. by apply IH.
Qed.

Lemma embedWithCache_length docs e es e' : embeds_each →
  embedWithCache Embed docs e = (Ok es, e') → length docs = length es ∧ e'.(ve_partitions) = e.(ve_partitions).
Proof.
  intros Hlaw. unfold embedWithCache. destruct (ve_cache e) as [c|].
  2:{ intros [= He <-]. apply Hlaw in He. by rewrite length_fmap in He. }
  pose proof (cached_length docs c) as Hlen. destruct (cached docs c) as [hits c1]. cbn [fst] in Hlen.
  destruct ((filter _ (zip docs hits)).*1) as [|d0 need] eqn:Hneed.
  { intros [= <- <-]. split; [|done]. symmetry. by apply all_cached. }
  destruct (Embed _) as [err|fresh]; [done|]. destruct (Nat.eqb_spec (length fresh) (length (d0 :: need))); [|done].
  cbn [negb]. pose proof (fill_length docs hits fresh c1 Hlen) as Hfill. rewrite Hneed in Hfill.
  destruct (fill docs hits fresh c1) as [es' c2]. intros [= <- <-]. split; [|done]. symmetry. by apply Hfill.
Qed.

Lemma find_doc_lt key docs idx : find_doc key docs = Some idx → idx < length docs.
Proof.
  revert idx. induction docs as [|d docs IH]; intros idx; cbn [find_doc]; [done|]. case_bool_decide.
  - intros [= <-]. cbn. lia.
  - destruct (find_doc key docs) as [i|]; [|done]. intros [= <-]. specialize (IH i eq_refl). cbn. lia.
Qed.

Inductive VectorOp :=
| VIndex (docs : list Document)
| VAdd (serverID : string) (docs : list Document)
| VRemovePartition (serverID : string)
| VRemove (key : string) (names : list string)
| VSetCache (c : option EmbeddingCache).

Definition vector_step (e : VectorEngine) (op : VectorOp) : VectorEngine :=
  match op with
  | VIndex docs => (VectorIndex Embed docs e).2
  | VAdd serverID docs => (VectorAddPartition Embed serverID docs e).2
  | VRemovePartition serverID => VectorRemovePartition serverID e
  | VRemove key names => vector_remove_from key (ranged names e.(ve_partitions)) e
  | VSetCache c => SetEmbeddingCache c e
  end.

Lemma embedWithCache_partitions docs e : (embedWithCache Embed docs e).2.(ve_partitions) = e.(ve_partitions).
Proof.
  unfold embedWithCache. destruct (ve_cache e) as [c|]; [|done]. destruct (cached docs c) as [hits c1].
  destruct ((filter _ (zip docs hits)).*1); [done|]. destruct (Embed _) as [err|fresh]; [done|].
  destruct (_ =? _); [|done]. cbn [negb]. by destruct (fill docs hits fresh c1).
Qed.

Lemma vector_step_aligned e op : embeds_each → aligned e → aligned (vector_step e op).
Proof.
  intros Hlaw He. destruct op as [docs|sid docs|sid|key names|c]; cbn [vector_step].
  - unfold VectorIndex. destruct docs as [|d docs]; [intros pid p Hp; cbn in Hp; by rewrite lookup_empty in Hp|].
    destruct (Embed _) as [err|es]; [done|]. destruct (Nat.eqb_spec (length es) (length (d :: docs))) as [Hl|]; [|done].
    intros pid p Hp. cbn in Hp. apply lookup_singleton_Some in Hp as [<- <-]. by symmetry.
  - unfold VectorAddPartition. destruct docs as [|d docs]; [by apply aligned_delete|].
    pose proof (embedWithCache_partitions (d :: docs) e) as Hps.
    destruct (embedWithCache Embed (d :: docs) e) as [[err|es] e1] eqn:E; cbn [snd] in *.
    + intros pid p. rewrite Hps. apply He.
    + apply embedWithCache_length in E as [Hl _]; [|done]. apply aligned_insert; [|done].
      intros pid p. rewrite Hps. apply He.
  - by apply aligned_delete.
  - assert (Hin : ∀ pid p, (pid, p) ∈ ranged names e.(ve_partitions) → length p.(vp_docs) = length p.(vp_embeddings))
      by (intros pid p Hp%elem_of_ranged; by eapply He).
    induction (ranged _ _) as [|[pid p] order IH]; cbn [vector_remove_from]; [done|].
    destruct (find_doc key _) as [idx|] eqn:Ef; [|apply IH; intros; eapply Hin; by right].
    destruct (take _ _ ++ drop _ _) eqn:Ed; [by apply aligned_delete|]. apply aligned_insert; [done|].
    specialize (Hin pid p (list_elem_of_here _ _)). apply find_doc_lt in Ef.
    rewrite <- Ed, !length_app, !length_take, !length_drop. lia.
  - exact He.
Qed.

(** The engine after a list of updates. *)
Definition vector_run (ops : list VectorOp) : VectorEngine := foldl vector_step NewVectorEngine ops.

Lemma vector_run_aligned ops : embeds_each → aligned (vector_run ops).
Proof.
  intros Hlaw. unfold vector_run. assert (Hnew : aligned NewVectorEngine)
    by (intros pid p Hp; cbn in Hp; by rewrite lookup_empty in Hp).
  revert Hnew. generalize NewVectorEngine. induction ops as [|op ops IH]; intros e He; [done|].
  cbn [foldl]. by apply IH, vector_step_aligned.
Qed.

Lemma vector_hits_total qVec p : length p.(vp_docs) = length p.(vp_embeddings) → is_Some (vector_hits qVec p).
Proof.
  intros Hl. unfold vector_hits.
  assert (Hin : ∀ i es, (i, es) ∈ zip (seq 0 (length p.(vp_embeddings))) p.(vp_embeddings) → is_Some (p.(vp_docs) !! i)).
  { intros i es [_ Hi%lookup_lt_Some]%elem_of_numbered. apply lookup_lt_is_Some. lia. }
  induction (zip _ _) as [|[i es] l IH]; cbn [foldr]; [eauto|].
  destruct IH as [hits ->]; [intros; eapply Hin; by right|]. cbn [mbind option_bind].
  destruct (SFltb _ _); [|eauto]. destruct (Hin i es (list_elem_of_here _ _)) as [d ->]. eauto.
Qed.

Lemma vector_search_total query limit e : aligned e → VectorSearch Embed query limit e ≠ Panic.
Proof.
  intros He. unfold VectorSearch. case_bool_decide; [done|].
  destruct ((map_to_list _).*2) as [|p ps] eqn:E; [done|].
  destruct (Embed [query]) as [err|[|qVec qs]]; [done..|].
  assert (is_Some (mapM (vector_hits qVec) (p :: ps))) as [hits ->]; [|done].
  apply mapM_is_Some_2, Forall_forall. intros q Hq. apply vector_hits_total. rewrite <- E in Hq.
  apply list_elem_of_fmap in Hq as ([pid q'] & -> & Hq%elem_of_map_to_list). by eapply He.
Qed.
(** The updates of the hybrid engine, and its searches, which count failures. *)
Inductive HybridOp :=
| HIndex (docs : list Document)
| HUpdate (serverID : string) (docs : list Document)
| HRemovePartition (serverID : string)
| HRemove (key : string) (bnames vnames : list string)
| HSearch (query : string) (limit : Z)
| HSetCache (c : option EmbeddingCache).

Definition hybrid_step (e : HybridEngine) (op : HybridOp) : HybridEngine :=
  match op with
  | HIndex docs => HybridIndex Log Embed docs e
  | HUpdate serverID docs => HybridUpdatePartition Log Embed serverID docs e
  | HRemovePartition serverID => HybridRemovePartition Log serverID e
  | HRemove key bnames vnames =>
      HybridRemoveIn Log (ranged bnames e.(hy_bm25).(bm_partitions)) (ranged vnames e.(hy_vector).(ve_partitions)) key e
  | HSearch query limit => (HybridSearch Embed query limit e).2
  | HSetCache c =>
      mkHybrid e.(hy_bm25) (SetEmbeddingCache c e.(hy_vector)) e.(hy_searchFallbacks) e.(hy_indexFallbacks) e.(hy_shared)
  end.

Definition hybrid_run (provider : option SynonymProvider) (ops : list HybridOp) : HybridEngine :=
  foldl hybrid_step (mkHybrid (NewBM25EngineWithSynonyms provider) NewVectorEngine 0 0 ∅) ops.

Lemma hybrid_step_vector e op :
  (hybrid_step e op).(hy_vector) = e.(hy_vector) ∨ ∃ vop, (hybrid_step e op).(hy_vector) = vector_step e.(hy_vector) vop.
Proof.
  destruct op as [docs|sid docs|sid|key bnames vnames|query limit|c]; cbn [hybrid_step].
  - right. by exists (VIndex docs).
  - right. by exists (VAdd sid docs).
  - right. by exists (VRemovePartition sid).
  - right. by exists (VRemove key vnames).
  - left. unfold HybridSearch. by destruct (VectorSearch _ _ _ _) as [|[]].
  - right. by exists (VSetCache c).
Qed.

Lemma hybrid_run_aligned provider ops : embeds_each → aligned (hybrid_run provider ops).(hy_vector).
Proof.
  intros Hlaw. unfold hybrid_run.
  assert (Hnew : aligned (mkHybrid (NewBM25EngineWithSynonyms provider) NewVectorEngine 0 0 ∅).(hy_vector))
    by apply (vector_run_aligned [] Hlaw).
  revert Hnew. generalize (mkHybrid (NewBM25EngineWithSynonyms provider) NewVectorEngine 0 0 ∅).
  induction ops as [|op ops IH]; intros e He; [done|]. cbn [foldl]. apply IH.
  destruct (hybrid_step_vector e op) as [->|[vop ->]]; [done|by apply vector_step_aligned].
Qed.

(** A removal reaches the documents of the BM25 engine through the shared slice
    only when the two engines take the key from different partitions. *)
Lemma remove_same_partition border vorder key e pid p q :
  first_with bp_docs key border = Some (pid, p) → first_with vp_docs key vorder = Some (pid, q) →
  (HybridRemoveIn Log border vorder key e).(hy_bm25) = remove_from Log key border e.(hy_bm25).
Proof.
  intros Hb Hv. unfold HybridRemoveIn. rewrite Hb, Hv. cbn [hy_bm25]. by rewrite bool_decide_eq_false_2 by set_solver.
Qed.

(** C26: Hybrid search always answers. After any updates of the engine, removals
    that reach the BM25 engine through a shared slice included, with an embedder
    that returns a vector for each text or fails, a search neither fails nor reads
    past the documents of a partition. When the vector search fails, the answer is
    the one of BM25 cut to the limit, and the failure is counted. Otherwise it is
    the fused list cut to the limit. The fused list is sorted and holds exactly the
    keys of both lists, each once. When no key is twice in the list of the vector
    engine, the score of a key is the sum of its reciprocal ranks in the two lists,
    and the fusion is the same with the lists exchanged. *)
Theorem hybrid_search_correct provider ops query limit :
  embeds_each →
  let e := hybrid_run provider ops in
  let lexical := BM25Search query 0 e.(hy_bm25) in
  (∃ err, VectorSearch Embed query 0 e.(hy_vector) = Found (Err err) ∧
    HybridSearch Embed query limit e =
      (Found (Ok (limit_results limit lexical)),
       mkHybrid e.(hy_bm25) e.(hy_vector) (wrap_u64 (e.(hy_searchFallbacks) + 1)) e.(hy_indexFallbacks) e.(hy_shared))) ∨
  (∃ vectors fused, VectorSearch Embed query 0 e.(hy_vector) = Found (Ok vectors) ∧
    HybridSearch Embed query limit e = (Found (Ok (limit_results limit fused)), e) ∧
    NoDup fused.*1 ∧ Sorted result_le fused ∧
    (∀ key, key ∈ fused.*1 ↔ key ∈ lexical.*1 ∨ key ∈ vectors.*1) ∧
    (NoDup vectors.*1 →
      (∀ key score, (key, score) ∈ fused → score = f_add (reciprocal key lexical) (reciprocal key vectors)) ∧
      fused = fuseRRF vectors lexical)).
Proof.
  intros Hlaw e lexical. unfold HybridSearch.
  pose proof (vector_search_total query 0 (hy_vector e) (hybrid_run_aligned provider ops Hlaw)) as Hno.
  destruct (VectorSearch Embed query 0 (hy_vector e)) as [|[err|vectors]]; [done|left; eauto|right].
  exists vectors, (fuseRRF lexical vectors). split; [done|]. split; [done|].
  destruct (results_of_scores 0 (foldl add_score ∅ (rrf_ranks lexical ++ rrf_ranks vectors))) as (H1 & H2 & _).
  assert (Hnd : NoDup lexical.*1) by apply search_keys_NoDup.
  split_and!; [exact H1|exact H2|intros; apply fuse_keys|]. intros Hv. split; [|by apply fuse_comm].
  intros key score. by apply fuse_score.
Qed.

End hybrid.

(** The cache answers for a changed document: its key leaves the title and the
    tags out, which the embedded text holds. *)
Lemma stale_embedding Embed e c d emb :
  e.(ve_cache) = Some c → c.(ec_entries) !! ContentHash d.(dc_Name) d.(dc_Description) = Some emb →
  ∀ title tags,
    (embedWithCache Embed [mkDocument d.(dc_Key) d.(dc_Name) title d.(dc_Description) tags] e).1 = Ok [emb].
Proof.
  intros Hc He title tags. unfold embedWithCache. rewrite Hc. cbn [cached dc_Name dc_Description].
  unfold EmbeddingGet. rewrite He. reflexivity.
Qed.

(** ** Examples *)

Section examples.
#[local] Existing Instance ascii_tables.

Definition example_embedder : list string → result (list embedding) := λ texts,
  if bool_decide (texts = ["fail"]) then Err (Opaque "unreachable") else Ok ((λ _, [f_one]) <$> texts).

Lemma example_embedder_each : embeds_each example_embedder.
Proof.
  intros texts es. unfold example_embedder. case_bool_decide; [done|]. intros [= <-]. apply length_fmap.
Qed.

Definition example_docs : list Document :=
  [mkDocument "k8s.list_pods" "k8s.list_pods" "" "List all pods." []; mkDocument "git.log" "git.log" "" "Show commits." ["vcs"]].

(** The synonyms of the query find the document. *)
Example expanded_ex :
  ExpandQueryWith (Tokenize "Enumerate kube-pods") StaticSynonymProvider =
  ["enumerate"; "kube"; "pods"; "list"; "ls"; "kubernetes"; "k8s"; "kubectl"].
Proof. by vm_compute. Qed.

Example bm25_search_ex :
  (BM25Search "enumerate kube" 5 (bm25_run id None [BIndex example_docs; BAdd "s" []])).*1 = ["k8s.list_pods"] ∧
  BM25Search "pods" 5 (bm25_run id None [BIndex example_docs; BRemove "k8s.list_pods" ["__default__"]]) = [].
Proof. by vm_compute. Qed.

(** The failing embedder, and a search that both engines answer: each of the two
    documents is fused from its ranks. *)
Lemma hybrid_search_correct_witness :
  let e := hybrid_run id example_embedder None [HIndex example_docs] in
  (∃ err, VectorSearch example_embedder "fail" 0 e.(hy_vector) = Found (Err err)) ∧
  (∃ fused, HybridSearch example_embedder "pods" 1 e = (Found (Ok (limit_results 1 fused)), e) ∧
    "k8s.list_pods" ∈ fused.*1 ∧ "git.log" ∈ fused.*1).
Proof.
  intros e. split.
  - destruct (hybrid_search_correct id example_embedder None [HIndex example_docs] "fail" 1
      example_embedder_each) as [(err & Herr & _)|(vectors & r & Hv & _)]; [by exists err|].
    vm_compute in Hv. discriminate Hv.
  - destruct (hybrid_search_correct id example_embedder None [HIndex example_docs] "pods" 1
      example_embedder_each) as [(err & Herr & _)|(vectors & fused & Hv & Hr & _ & _ & Hkeys & _)].
    + vm_compute in Herr. discriminate Herr.
    + assert (Hvk : "k8s.list_pods" ∈ vectors.*1 ∧ "git.log" ∈ vectors.*1).
      { vm_compute in Hv. injection Hv as <-. split; [apply (list_elem_of_lookup_2 _ 1)|apply (list_elem_of_lookup_2 _ 0)]; reflexivity. }
      destruct Hvk as [Hpods Hlog]. exists fused. split; [exact Hr|]. split; apply Hkeys; right; assumption.
Defined.

(** The two engines take a shared key from different partitions: the removal
    leaves the BM25 engine with a document of the other one twice. *)
Example shared_slice_ex :
  let docs := [mkDocument "a" "a" "" "" []; mkDocument "b" "b" "" "" []] in
  let e := hybrid_run id example_embedder None
    [HUpdate "s" docs; HUpdate "t" [mkDocument "a" "a" "" "" []]; HRemove "a" ["t"; "s"] ["s"; "t"]] in
  (λ p, dc_Key <$> p.(bp_docs)) <$> e.(hy_bm25).(bm_partitions) !! "s" = Some ["b"; "b"].
Proof. by vm_compute. Qed.

End examples.
