(* ===== verification/Discovery.v ===== *)
(** * Tool discovery: [internal/proxy/discovery.go]

    The index of tools behind the meta tools: building it, the metadata of the
    platform, search, paging, and the activation of tools in a session. *)

From S2P Require Import Prelude GoStrings Encoding GoFloat Json Types CapIndex Routing Search.

#[local] Open Scope string_scope.
#[local] Open Scope list_scope.
#[local] Open Scope nat_scope.
#[local] Open Scope go_scope.

(** A definition with the title of its annotations, if it has any. *)
Record AnnotatedTool := mkAnnotatedTool { at_def : ToolDefinition; at_Title : option string }.

Record ToolMetadata := mkToolMetadata {
  md_ToolName : string;
  md_Category : string;
  md_Summary : string;
  md_Tags : list string;
  md_Priority : Z;
}.

Record discoveryEntry := mkDiscoveryEntry {
  de_definition : AnnotatedTool;
  de_nameLower : string;
  de_descLower : string;
  de_titleLower : string;
  de_category : string;
  de_summary : string;
  de_tagsLower : list string;
  de_priority : Z;
}.

Definition de_name (e : discoveryEntry) : string := e.(de_definition).(at_def).(tl_Name).

(** What the index asks of a search engine. *)
Class SearchEngine (E : Type) := {
  engine_index : list Document → E → result () * E;
  engine_search : string → E → result (list ScoredResult) * E;
}.

#[export] Instance bm25_engine `{UnicodeTables} (Log : spec_float → spec_float) : SearchEngine BM25Engine := {|
  engine_index docs e := (Ok (), BM25Index Log docs e);
  engine_search query e := (Ok (BM25Search query 0 e), e);
|}.

(** ** Pure parts *)

(** [categoryFromFederatedName]. *)
Definition before_dot (name : string) : string :=
  let dotIdx := Index name "." in
  if (0 <? dotIdx)%Z then slice_to name (Z.to_nat dotIdx) else "".
Definition categoryFromFederatedName (name : string) : string :=
  if HasPrefix name "mcp." then before_dot (slice_from name 4) else before_dot name.

(** The index of the first period that a space follows. *)
Fixpoint sentence_end (l : bytes) : option nat :=
  match l with
  | a :: ((b :: _) as l') =>
      if bool_decide (a = "."%char) && bool_decide (b = " "%char) then Some 0 else S <$> sentence_end l'
  | _ => None
  end.

Definition maxSummaryLen : nat := 100.

(** [extractSummary]. *)
Definition extractSummary (description : string) : string :=
  let rest :=
    if len description <=? maxSummaryLen then description
    else slice_to description (maxSummaryLen - 3) +:+ "..." in
  match sentence_end (to_bytes description) with
  | Some i => if S i <=? maxSummaryLen then slice_to description (S i) else rest
  | None => rest
  end.

Definition defaultSearchLimit : Z := 10.
Definition maxSearchLimit : Z := 50.
Definition maxGetToolsNames : nat := 20.
Definition maxActivatedSessionTools : nat := 50.

(** [clampLimit]. *)
Definition clampLimit (limit : Z) : Z :=
  if (limit <=? 0)%Z then defaultSearchLimit else if (maxSearchLimit <? limit)%Z then maxSearchLimit else limit.

(** [paginateScored], and the same steps in [Browse]. *)
Definition page {A} (l : list A) (offset limit : Z) : list A :=
  let offset := Z.max 0 offset in
  if (Z.of_nat (length l) <=? offset)%Z then [] else take (Z.to_nat limit) (drop (Z.to_nat offset) l).

(** What a search shows of an entry. *)
Definition summary_of (e : discoveryEntry) : ToolDefinition := mkToolDefinition (de_name e) e.(de_summary) "{}".

(** The order of the results. *)
Definition scored_before (x y : discoveryEntry * spec_float) : bool :=
  if SFeqb x.2 y.2 then string_lt x.1.(de_nameLower) y.1.(de_nameLower) else SFltb y.2 x.2.
Definition scored_le (x y : discoveryEntry * spec_float) : Prop := scored_before y x = false.
#[export] Instance scored_le_dec : RelDecision scored_le.
Proof. unfold scored_le. solve_decision. Defined.

Definition name_le (x y : discoveryEntry) : Prop := string_lt y.(de_nameLower) x.(de_nameLower) = false.
#[export] Instance name_le_dec : RelDecision name_le.
Proof. unfold name_le. solve_decision. Defined.

(** ** The index *)

Record DiscoveryIndex (E : Type) := mkDiscovery {
  di_entries : gmap string discoveryEntry;
  di_metadata : list ToolMetadata;
  di_engine : option E;
  di_fallbacks : Z;
}.
Arguments mkDiscovery {_}.
Arguments di_entries {_}.
Arguments di_metadata {_}.
Arguments di_engine {_}.
Arguments di_fallbacks {_}.

Section index.
Context `{UnicodeTables} {E : Type} `{SearchEngine E}.

Definition NewDiscoveryIndex : DiscoveryIndex E := mkDiscovery ∅ [] None 0.
Definition SetEngine (e : option E) (d : DiscoveryIndex E) : DiscoveryIndex E :=
  mkDiscovery d.(di_entries) d.(di_metadata) e d.(di_fallbacks).

(** The entry of a tool. *)
Definition new_entry (tool : AnnotatedTool) : discoveryEntry :=
  let name := tool.(at_def).(tl_Name) in
  let desc := tool.(at_def).(tl_Description) in
  mkDiscoveryEntry tool (ToLower name) (ToLower desc) (ToLower (default "" tool.(at_Title)))
    (categoryFromFederatedName name) (extractSummary desc) [] 0.

(** One piece of metadata on an entry. *)
Definition enrich (m : ToolMetadata) (e : discoveryEntry) : discoveryEntry :=
  let e :=
    if bool_decide (m.(md_Category) = "") then e
    else mkDiscoveryEntry e.(de_definition) e.(de_nameLower) e.(de_descLower) e.(de_titleLower) m.(md_Category)
           e.(de_summary) e.(de_tagsLower) e.(de_priority) in
  let e :=
    if bool_decide (m.(md_Summary) = "") then e
    else mkDiscoveryEntry e.(de_definition) e.(de_nameLower) (ToLower m.(md_Summary)) e.(de_titleLower)
           e.(de_category) m.(md_Summary) e.(de_tagsLower) e.(de_priority) in
  let e :=
    match m.(md_Tags) with
    | [] => e
    | tags => mkDiscoveryEntry e.(de_definition) e.(de_nameLower) e.(de_descLower) e.(de_titleLower) e.(de_category)
                e.(de_summary) (ToLower <$> tags) e.(de_priority)
    end in
  if (m.(md_Priority) =? 0)%Z then e
  else mkDiscoveryEntry e.(de_definition) e.(de_nameLower) e.(de_descLower) e.(de_titleLower) e.(de_category)
         e.(de_summary) e.(de_tagsLower) m.(md_Priority).

(** [applyMetadataLocked]. *)
Definition applyMetadata (entries : gmap string discoveryEntry) (metadata : list ToolMetadata) :
    gmap string discoveryEntry :=
  foldl (λ entries m, alter (enrich m) m.(md_ToolName) entries) entries metadata.

(** The document of an entry. *)
Definition entry_document (p : string * discoveryEntry) : Document :=
  let '(key, e) := p in
  let desc := e.(de_definition).(at_def).(tl_Description) in
  mkDocument key (de_name e)
    (match e.(de_definition).(at_Title) with Some t => t | None => e.(de_titleLower) end)
    (if negb (bool_decide (e.(de_summary) = "")) && negb (bool_decide (e.(de_summary) = desc))
     then desc +:+ " " +:+ e.(de_summary) else desc)
    e.(de_tagsLower).

(** [reindexEngineLocked]: an error is logged. *)
Definition reindexEngine (d : DiscoveryIndex E) : DiscoveryIndex E :=
  match d.(di_engine) with
  | None => d
  | Some e => SetEngine (Some (engine_index (entry_document <$> map_to_list d.(di_entries)) e).2) d
  end.

(** [Index]. *)
Definition DiscoveryIndexTools (tools : list AnnotatedTool) (d : DiscoveryIndex E) : DiscoveryIndex E :=
  let entries := foldl (λ m tool, <[tool.(at_def).(tl_Name) := new_entry tool]> m) ∅ tools in
  reindexEngine (mkDiscovery (applyMetadata entries d.(di_metadata)) d.(di_metadata) d.(di_engine) d.(di_fallbacks)).

(** [ApplyMetadata]. *)
Definition ApplyMetadata (metadata : list ToolMetadata) (d : DiscoveryIndex E) : DiscoveryIndex E :=
  reindexEngine (mkDiscovery (applyMetadata d.(di_entries) metadata) metadata d.(di_engine) d.(di_fallbacks)).

(** [scoreEntry]; the sums of small integers are exact in [float64]. *)
Definition scoreEntry (e : discoveryEntry) (q : string) : Z :=
  (if bool_decide (e.(de_nameLower) = q) then 10 else if Contains e.(de_nameLower) q then 5 else 0)
  + (if Contains e.(de_titleLower) q then 3 else 0)
  + (if Contains e.(de_descLower) q then 1 else 0)
  + 2 * Z.of_nat (length (filter (λ tag, Contains tag q = true) e.(de_tagsLower))).

(** The test of the category. *)
Definition in_category (cat : string) (e : discoveryEntry) : bool :=
  bool_decide (cat = "") || bool_decide (ToLower e.(de_category) = cat).

(** [collectScoredEntriesSubstring]. *)
Definition collectScoredEntriesSubstring (q cat : string) (d : DiscoveryIndex E) : list (discoveryEntry * spec_float) :=
  (λ p, (p.2, f_add (f_of_Z (scoreEntry p.2 q)) (f_of_Z p.2.(de_priority)))) <$>
    filter (λ p, in_category cat p.2 = true ∧ (0 < scoreEntry p.2 q)%Z) (map_to_list d.(di_entries)).

(** [collectScoredEntriesEngine] on the results of the engine. *)
Definition engine_entries (cat : string) (results : list ScoredResult) (d : DiscoveryIndex E) :
    list (discoveryEntry * spec_float) :=
  omap (λ r, e ← d.(di_entries) !! r.1;
             if in_category cat e then Some (e, f_add r.2 (f_of_Z e.(de_priority))) else None) results.

(** [collectScoredEntries]. *)
Definition collectScoredEntries (q cat : string) (d : DiscoveryIndex E) :
    list (discoveryEntry * spec_float) * DiscoveryIndex E :=
  match d.(di_engine) with
  | None => (collectScoredEntriesSubstring q cat d, d)
  | Some e =>
      let '(results, e) := engine_search q e in
      let d := SetEngine (Some e) d in
      match results with
      | Err _ =>
          (collectScoredEntriesSubstring q cat d,
           mkDiscovery d.(di_entries) d.(di_metadata) d.(di_engine) (wrap_u64 (d.(di_fallbacks) + 1)))
      | Ok results => (engine_entries cat results d, d)
      end
  end.

(** [Search]: the page and the number of matches. *)
Definition DiscoverySearch (query category : string) (offset limit : Z) (d : DiscoveryIndex E) :
    (list ToolDefinition * nat) * DiscoveryIndex E :=
  if bool_decide (TrimSpace query = "") then (([], 0), d)
  else
    let limit := clampLimit limit in
    let q := ToLower (TrimSpace query) in
    let cat := ToLower (TrimSpace category) in
    let '(scored, d) := collectScoredEntries q cat d in
    let scored := merge_sort scored_le scored in
    (((summary_of ∘ fst) <$> page scored offset limit, length scored), d).

(** [GetTools]. *)
Definition GetTools (names : list string) (d : DiscoveryIndex E) : list AnnotatedTool :=
  omap (λ name, de_definition <$> d.(di_entries) !! TrimSpace name) (take maxGetToolsNames names).

(** [Browse]. *)
Definition Browse (category : string) (offset limit : Z) (d : DiscoveryIndex E) : list ToolDefinition * nat :=
  let cat := ToLower (TrimSpace category) in
  let matching := merge_sort name_le (filter (λ e, in_category cat e = true) (map_to_list d.(di_entries)).*2) in
  (summary_of <$> page matching offset (clampLimit limit), length matching).

(** [Stats]: the number of tools, and the tools of each category. *)
Definition Stats (d : DiscoveryIndex E) : nat * gmap string nat :=
  (size d.(di_entries),
   foldl (λ m e, let cat := if bool_decide (e.(de_category) = "") then "uncategorized" else e.(de_category) in
                 <[cat := S (default 0 (m !! cat))]> m) ∅ (map_to_list d.(di_entries)).*2).

(** ** The meta tools *)

(** [parseToolNames]. *)
Definition parseToolNames (arguments : list (string * any)) : result (list string) :=
  match lookup_key arguments "names" with
  | None => Err (Opaque "names parameter is required")
  | Some (AArr l) =>
      match mapM (λ v, match v with AStr s => Some s | _ => None end) l with
      | None => Err (Opaque "names must be an array of strings")
      | Some [] => Err (Opaque "names must contain at least one string")
      | Some names => Ok names
      end
  | Some _ => Err (Opaque "names must be an array of strings")
  end.

(** [activateSessionTools], on the names of the tools of the session. *)
Definition activateSessionTools (tools : list AnnotatedTool) (session : gset string) : gset string :=
  let allowed := maxActivatedSessionTools - size session in
  if allowed =? 0 then session
  else
    let newTools := filter (λ name, name ∉ session) ((λ t, t.(at_def).(tl_Name)) <$> tools) in
    session ∪ list_to_set (take allowed newTools).

(** [ActivateToolsByName]; [None] for a request without a session. *)
Definition ActivateToolsByName (names : list string) (session : option (gset string)) (d : DiscoveryIndex E) :
    option (gset string) :=
  activateSessionTools (GetTools names d) <$> session.

(** [handleGetToolSchema]. *)
Definition handleGetToolSchema (progressive : bool) (arguments : list (string * any)) (session : option (gset string))
    (d : DiscoveryIndex E) : result (list AnnotatedTool) * option (gset string) :=
  match parseToolNames arguments with
  | Err e => (Err e, session)
  | Ok names =>
      let tools := GetTools names d in
      (Ok tools, if progressive then activateSessionTools tools <$> session else session)
  end.

(** [handleSearchTools]. *)
Definition handleSearchTools (arguments : list (string * any)) (d : DiscoveryIndex E) :
    result (list ToolDefinition * nat) * DiscoveryIndex E :=
  match lookup_key arguments "query" with
  | Some (AStr query) =>
      let category := match lookup_key arguments "category" with Some (AStr s) => s | _ => "" end in
      let limit :=
        match lookup_key arguments "limit" with
        | Some (ANum v) => if SFltb f_zero v then f_to_i64 v else defaultSearchLimit
        | _ => defaultSearchLimit
        end in
      let '(answer, d) := DiscoverySearch query category 0 limit d in (Ok answer, d)
  | _ => (Err (Opaque "query parameter is required"), d)
  end.

End index.
