(* ===== verification/DiscoveryProps.v ===== *)
(** * Correctness of tool discovery

    - [discovery_pages]: walking the pages of a search shows each match exactly
      once.
    - [session_tools_bounded]: the tools activated in a session.
    - [metadata_history]: metadata that is gone stays on the entries until the next
      rebuild. *)

From S2P Require Import Prelude GoStrings Encoding GoFloat Json Types CapIndex Routing Search SearchProps Discovery.

#[local] Open Scope string_scope.
#[local] Open Scope list_scope.
#[local] Open Scope nat_scope.
#[local] Open Scope go_scope.

(** ** Summaries *)

Lemma sentence_end_lt l i : sentence_end l = Some i → S i < length l.
Proof.
  revert i. induction l as [|a l IH]; intros i Hs; [discriminate Hs|]. destruct l as [|b l]; [discriminate Hs|].
  change (sentence_end (a :: b :: l)) with
    (if bool_decide (a = "."%char) && bool_decide (b = " "%char) then Some 0 else S <$> sentence_end (b :: l)) in Hs.
  destruct (_ && _); [injection Hs as <-; cbn; lia|].
  destruct (sentence_end (b :: l)) as [j|]; [|discriminate Hs]. injection Hs as <-. specialize (IH j eq_refl).
  cbn [length] in *. lia.
Qed.

(** A summary has at most [maxSummaryLen] bytes, and is the description itself
    when that is one short sentence. *)
Lemma summary_bounded description : len (extractSummary description) <= maxSummaryLen.
Proof.
  unfold extractSummary, len.
  assert (Hrest : length (to_bytes (if length (to_bytes description) <=? maxSummaryLen then description
    else slice_to description (maxSummaryLen - 3) +:+ "...")) <= maxSummaryLen).
  { destruct (Nat.leb_spec (length (to_bytes description)) maxSummaryLen); [done|].
    unfold slice_to. rewrite to_bytes_app, to_of_bytes, length_app, length_take.
    change (length (to_bytes "...")) with 3. unfold maxSummaryLen in *. lia. }
  destruct (sentence_end _) as [i|] eqn:E; [|exact Hrest]. destruct (Nat.leb_spec (S i) maxSummaryLen); [|exact Hrest].
  unfold slice_to. rewrite to_of_bytes, length_take. lia.
Qed.

(** ** Pages *)

Lemma clampLimit_range limit : (1 <= clampLimit limit <= 50)%Z.
Proof.
  unfold clampLimit, defaultSearchLimit, maxSearchLimit.
  destruct (Z.leb_spec limit 0); [lia|]. destruct (Z.ltb_spec 50 limit); lia.
Qed.

Lemma page_nat {A} (l : list A) (i : nat) (limit : Z) :
  page l (Z.of_nat i) limit = take (Z.to_nat limit) (drop i l).
Proof.
  unfold page. rewrite Z.max_r by lia. rewrite Nat2Z.id.
  destruct (Z.leb_spec (Z.of_nat (length l)) (Z.of_nat i)); [|done]. rewrite drop_ge by lia. by rewrite take_nil.
Qed.

Lemma join_fmap {A B} (f : A → B) (l : list (list A)) : f <$> mjoin l = mjoin ((λ k, f <$> k) <$> l).
Proof.
  induction l as [|k l IH]; [done|]. change (mjoin (k :: l)) with (k ++ mjoin l). rewrite fmap_app, IH. done.
Qed.

(** The pages of a list, one after the other, are the list. *)
Lemma pages_concat {A} (l : list A) (limit n : nat) :
  length l <= n * limit →
  mjoin ((λ i, page l (Z.of_nat (i * limit)) (Z.of_nat limit)) <$> seq 0 n) = l.
Proof.
  intros Hn.
  assert (Hk : ∀ k, mjoin ((λ i, page l (Z.of_nat (i * limit)) (Z.of_nat limit)) <$> seq 0 k) = take (k * limit) l).
  { induction k as [|k IH]; [done|]. rewrite seq_S, fmap_app, join_app, IH. cbn [fmap list_fmap mjoin list_join].
    rewrite app_nil_r, page_nat, Nat2Z.id. cbn [plus]. rewrite take_take_drop. f_equal. lia. }
  rewrite Hk. by apply take_ge.
Qed.

(** ** Search without an engine *)

#[export] Instance scored_le_total : Total scored_le.
Proof.
  intros [e x] [e' y]. unfold scored_le, scored_before. cbn [fst snd].
  destruct (result_le_total (e.(de_nameLower), x) (e'.(de_nameLower), y)) as [Hle|Hle];
    unfold result_le, result_before in Hle; cbn [fst snd] in Hle; auto.
Qed.

Section search.
Context `{UnicodeTables} `{!UnicodeLaws _} {E : Type} `{SearchEngine E}.

(** An entry matches a query: the category is that asked for, and the text occurs
    in the name, the title, the description or a tag. *)
Definition matches (q cat : string) (e : discoveryEntry) : Prop :=
  in_category cat e = true ∧
  (Contains e.(de_nameLower) q = true ∨ Contains e.(de_titleLower) q = true ∨ Contains e.(de_descLower) q = true ∨
   ∃ tag, tag ∈ e.(de_tagsLower) ∧ Contains tag q = true).

Lemma Contains_refl s : Contains s s = true.
Proof.
  apply Contains_spec. exists "", "". apply (inj to_bytes). by rewrite !to_bytes_app, app_nil_r.
Qed.

Lemma score_positive e q :
  (0 < scoreEntry e q)%Z ↔
  Contains e.(de_nameLower) q = true ∨ Contains e.(de_titleLower) q = true ∨ Contains e.(de_descLower) q = true ∨
  ∃ tag, tag ∈ e.(de_tagsLower) ∧ Contains tag q = true.
Proof.
  assert (Htags : 0 < length (filter (λ tag, Contains tag q = true) (de_tagsLower e)) ↔
    ∃ tag, tag ∈ e.(de_tagsLower) ∧ Contains tag q = true).
  { split.
    - destruct (filter _ _) as [|tag l] eqn:Ef; [cbn; lia|]. intros _. exists tag.
      assert (tag ∈ filter (λ tag, Contains tag q = true) (de_tagsLower e)) as [? ?]%list_elem_of_filter
        by (rewrite Ef; left). done.
    - intros (tag & Hin & Hc). assert (Hf : tag ∈ filter (λ tag, Contains tag q = true) (de_tagsLower e))
        by (by apply list_elem_of_filter). destruct (filter _ _); [by apply elem_of_nil in Hf|cbn; lia]. }
  unfold scoreEntry. rewrite <- Htags. case_bool_decide as Hq.
  - split; [intros _; left; rewrite Hq; apply Contains_refl|]. intros _.
    destruct (Contains (de_titleLower e) q), (Contains (de_descLower e) q); lia.
  - destruct (Contains (de_nameLower e) q), (Contains (de_titleLower e) q), (Contains (de_descLower e) q);
      split; try lia; try (by auto); intros Hpos; right; right; right; lia.
Qed.

(** The matches of a search, before the page is cut out. *)
Lemma collect_matches q cat (d : DiscoveryIndex E) :
  (fst <$> collectScoredEntriesSubstring q cat d) =
  (filter (λ p, in_category cat p.2 = true ∧ (0 < scoreEntry p.2 q)%Z) (map_to_list d.(di_entries))).*2.
Proof. unfold collectScoredEntriesSubstring. by rewrite <- list_fmap_compose. Qed.

#[export] Instance matches_dec q cat e : Decision (matches q cat e).
Proof.
  unfold matches. apply and_dec; [apply _|]. repeat (apply or_dec; [apply _|]).
  destruct (decide (Exists (λ tag, Contains tag q = true) (de_tagsLower e))) as [Hex|Hno].
  - left. by apply Exists_exists in Hex.
  - right. intros Hex. by apply Hno, Exists_exists.
Defined.

(** The entries a query should find. *)
Definition found (query category : string) (d : DiscoveryIndex E) : list discoveryEntry :=
  filter (matches (ToLower (TrimSpace query)) (ToLower (TrimSpace category))) (map_to_list d.(di_entries)).*2.

Lemma collect_found query category (d : DiscoveryIndex E) :
  fst <$> collectScoredEntriesSubstring (ToLower (TrimSpace query)) (ToLower (TrimSpace category)) d = found query category d.
Proof.
  rewrite collect_matches. unfold found. induction (map_to_list _) as [|[k e] l IH]; [done|].
  rewrite fmap_cons, !filter_cons. cbn [snd].
  destruct (decide (matches _ _ e)) as [Hm|Hm];
    destruct (decide (in_category (ToLower (TrimSpace category)) e = true ∧ _)) as [Hs|Hs];
    rewrite ?fmap_cons, IH; try done; exfalso.
  - apply Hs. destruct Hm as [Hc Hm]. split; [done|]. by apply score_positive.
  - apply Hm. destruct Hs as [Hc Hs]. split; [done|]. by apply score_positive.
Qed.

Definition sorted_entries (query category : string) (d : DiscoveryIndex E) : list discoveryEntry :=
  fst <$> merge_sort scored_le
    (collectScoredEntriesSubstring (ToLower (TrimSpace query)) (ToLower (TrimSpace category)) d).

Lemma search_page query category offset limit (d : DiscoveryIndex E) :
  d.(di_engine) = None → TrimSpace query ≠ "" →
  DiscoverySearch query category offset limit d =
    ((summary_of <$> page (sorted_entries query category d) offset (clampLimit limit),
      length (found query category d)), d).
Proof.
  intros He Hq. unfold DiscoverySearch. rewrite (bool_decide_eq_false_2 _ Hq). unfold collectScoredEntries. rewrite He.
  unfold sorted_entries. set (l := merge_sort scored_le _). f_equal. f_equal.
  - rewrite list_fmap_compose. f_equal. unfold page. rewrite length_fmap. destruct (_ <=? _)%Z; [done|].
    by rewrite fmap_take, fmap_drop.
  - rewrite <- collect_found, length_fmap. unfold l. by rewrite merge_sort_Permutation.
Qed.

(** Walking through a search shows each match exactly once. Without a search
    engine the number a search reports is the number of entries that match: the
    text occurs in their name, title, description or a tag, and their category is
    the one asked for. No page is longer than the limit, which is cut to 50, and
    pages of the same limit, one after the other until they cover that number, are
    together the summaries of exactly the entries that match, each once. *)
Theorem discovery_pages query category (limit n : nat) (d : DiscoveryIndex E) :
  d.(di_engine) = None → TrimSpace query ≠ "" → 0 < limit <= 50 → length (found query category d) <= n * limit →
  let pages := (λ i, DiscoverySearch query category (Z.of_nat (i * limit)) (Z.of_nat limit) d) <$> seq 0 n in
  mjoin ((λ p, p.1.1) <$> pages) ≡ₚ summary_of <$> found query category d ∧
  Forall (λ p, length p.1.1 <= limit ∧ p.1.2 = length (found query category d) ∧ p.2 = d) pages.
Proof.
  intros He Hq Hl Hn pages.
  assert (Hpage : ∀ i, DiscoverySearch query category (Z.of_nat (i * limit)) (Z.of_nat limit) d =
    ((summary_of <$> page (sorted_entries query category d) (Z.of_nat (i * limit)) (Z.of_nat limit),
      length (found query category d)), d)).
  { intros i. rewrite search_page by done. do 4 f_equal. unfold clampLimit, maxSearchLimit.
    destruct (Z.leb_spec (Z.of_nat limit) 0); [lia|]. destruct (Z.ltb_spec 50 (Z.of_nat limit)); [lia|done]. }
  assert (Hperm : sorted_entries query category d ≡ₚ found query category d).
  { unfold sorted_entries. rewrite merge_sort_Permutation. by rewrite collect_found. }
  split.
  - unfold pages. rewrite <- list_fmap_compose.
    replace (mjoin _) with (summary_of <$> sorted_entries query category d); [by rewrite Hperm|].
    rewrite <- (pages_concat (sorted_entries query category d) limit n) at 1 by (by rewrite Hperm).
    rewrite join_fmap, <- list_fmap_compose. f_equal. apply list_fmap_ext. intros i x _. unfold compose. by rewrite Hpage.
  - unfold pages. apply Forall_fmap, Forall_forall. intros i _. unfold compose. rewrite Hpage. cbn [fst snd].
    split; [|done]. rewrite length_fmap, page_nat, length_take. lia.
Qed.

End search.

(** ** Sessions *)

Lemma size_list_to_set_le (l : list string) : size (list_to_set l : gset string) <= length l.
Proof.
  induction l as [|x l IH]; [done|]. rewrite list_to_set_cons, size_union_alt, size_singleton. cbn [length].
  assert (size ((list_to_set l : gset string) ∖ {[x]}) <= size (list_to_set l : gset string))
    by (apply subseteq_size; set_solver). lia.
Qed.

(** The tools of a session stay bounded. Whatever tools are activated, one
    call after the other, a session keeps the tools it has and never holds more
    than [maxActivatedSessionTools]; a call that fits activates all its tools. *)
Theorem session_tools_bounded calls tools (session : gset string) :
  let run := foldl (λ s tools, activateSessionTools tools s) session in
  let s := run calls in
  (size session <= maxActivatedSessionTools → size s <= maxActivatedSessionTools) ∧ session ⊆ s ∧
  (size s + length tools <= maxActivatedSessionTools →
    ∀ t, t ∈ tools → t.(at_def).(tl_Name) ∈ activateSessionTools tools s).
Proof.
  cbv zeta.
  assert (Hstep : ∀ tools s, (size s <= maxActivatedSessionTools →
    size (activateSessionTools tools s) <= maxActivatedSessionTools) ∧ s ⊆ activateSessionTools tools s).
  { intros ts s. unfold activateSessionTools. destruct (Nat.eqb_spec (maxActivatedSessionTools - size s) 0) as [E|E]; [done|].
    split; [|set_solver]. intros Hs. rewrite size_union_alt.
    set (l := take _ _). assert (Hl : length l <= maxActivatedSessionTools - size s) by (unfold l; rewrite length_take; lia).
    pose proof (size_list_to_set_le l).
    assert (size ((list_to_set l : gset string) ∖ s) <= size (list_to_set l : gset string))
      by (apply subseteq_size; set_solver). lia. }
  split_and!.
  - revert session. induction calls as [|c calls IH]; intros session Hs; [done|]. cbn [foldl]. by apply IH, Hstep.
  - revert session. induction calls as [|c calls IH]; intros session; [done|]. cbn [foldl].
    etrans; [apply Hstep|apply IH].
  - set (s := foldl _ _ _). intros Hfit t Ht. unfold activateSessionTools.
    destruct (Nat.eqb_spec (maxActivatedSessionTools - size s) 0) as [E|E].
    { destruct tools; [by apply elem_of_nil in Ht|]. cbn [length] in Hfit. lia. }
    apply elem_of_union. destruct (decide (t.(at_def).(tl_Name) ∈ s)) as [|Hn]; [by left|right].
    apply elem_of_list_to_set. rewrite take_ge.
    + apply list_elem_of_filter. split; [done|]. apply list_elem_of_fmap. eauto.
    + etrans; [apply length_filter|]. rewrite length_fmap. lia.
Qed.

(** ** Metadata *)

(** The entries after a rebuild are those of the tools with the stored metadata;
    new metadata is laid over whatever was laid there before. *)
Lemma metadata_history `{UnicodeTables} {E} `{SearchEngine E} tools m m' (d : DiscoveryIndex E) :
  (DiscoveryIndexTools tools (ApplyMetadata m' (ApplyMetadata m d))).(di_entries) =
    (DiscoveryIndexTools tools (ApplyMetadata m' d)).(di_entries) ∧
  (ApplyMetadata m' (ApplyMetadata m d)).(di_entries) = applyMetadata d.(di_entries) (m ++ m').
Proof.
  assert (Hre : ∀ d : DiscoveryIndex E, (reindexEngine d).(di_entries) = d.(di_entries) ∧ (reindexEngine d).(di_metadata) = d.(di_metadata))
    by (intros d'; unfold reindexEngine; by destruct (di_engine d')).
  unfold DiscoveryIndexTools, ApplyMetadata. split.
  - rewrite !(proj1 (Hre _)). cbn [di_entries]. by rewrite !(proj2 (Hre _)).
  - rewrite !(proj1 (Hre _)). cbn [di_entries].
    unfold applyMetadata. by rewrite foldl_app.
Qed.

(** ** Examples *)

Section examples.
#[local] Existing Instance ascii_tables.
#[local] Existing Instance ascii_tables_laws.
#[local] Instance identity_bm25 : SearchEngine BM25Engine := bm25_engine id.

Definition example_tool (name desc : string) : AnnotatedTool := mkAnnotatedTool (mkToolDefinition name desc "{}") None.
Definition example_index : DiscoveryIndex BM25Engine :=
  DiscoveryIndexTools
    [example_tool "git.log" "Show the log. More."; example_tool "git.diff" "Compare with the log.";
     example_tool "wiki.read" "Read a page."] NewDiscoveryIndex.

(** Removed metadata keeps its priority until the next rebuild. *)
Example stale_priority_ex :
  let d := ApplyMetadata [] (ApplyMetadata [mkToolMetadata "git.log" "" "" [] 5] example_index) in
  (de_priority <$> d.(di_entries) !! "git.log") = Some 5%Z ∧
  (de_priority <$> (DiscoveryIndexTools [example_tool "git.log" ""] d).(di_entries) !! "git.log") = Some 0%Z.
Proof. by vm_compute. Qed.

(** The engine finds synonyms. *)
Example engine_search_ex :
  tl_Name <$> (DiscoverySearch "a page" "" 0 5
    (ApplyMetadata [] (SetEngine (Some NewBM25Engine) example_index))).1.1 = ["wiki.read"].
Proof. by vm_compute. Qed.

Lemma discovery_pages_witness :
  mjoin ((λ p, p.1.1) <$> ((λ i, DiscoverySearch " LOG" "" (Z.of_nat (i * 1)) 1 example_index) <$> seq 0 2)) ≡ₚ
  summary_of <$> found " LOG" "" example_index.
Proof.
  apply (discovery_pages " LOG" "" 1 2 example_index); [reflexivity|by vm_compute|lia|vm_compute; lia].
Defined.

End examples.
