(* ===== verification/Gateway.v ===== *)
(** * The composed endpoints: [internal/server/server.go], [cmd/mcpgw/serve.go]

    The middlewares as the server mounts them around its endpoints
    ([MountProxyRoutes], [MountPerServerRoutes], [MountAPIKeyAPI]), on requests
    whose body is a JSON value: the policy decodes it into a struct, the handler of
    the proxy into a map, and the MCP library, a parameter, into a call. *)

From S2P Require Import Prelude GoStrings Encoding GoFloat Types RegTypes Store Json CapIndex.
From S2P Require Import Resilience RateLimit Policy AccessStore Auth Routing.

#[local] Open Scope string_scope.
#[local] Open Scope list_scope.
#[local] Open Scope nat_scope.
#[local] Open Scope go_scope.

(** ** Bodies *)

Section bodies.
Context `{UnicodeTables}.

(** A [json.RawMessage], whose text [raw] gives. *)
Definition d_raw (raw : any → string) : decoder RawSchema := λ v _,
  (mkRawSchema (raw v) (match v with AObj m => Some m | ANil => Some [] | _ => None end), true).

(** The anonymous struct of [parsePolicyRequest]: the parameters, and the whole. *)
Definition params_fields (raw : any → string) : list (string * decoder Envelope) :=
  [("name", field ev_Name (λ x e, mkEnvelope e.(ev_Method) x e.(ev_Arguments) e.(ev_Schema) e.(ev_InputSchema)) d_string);
   ("arguments", field ev_Arguments (λ x e, mkEnvelope e.(ev_Method) e.(ev_Name) x e.(ev_Schema) e.(ev_InputSchema)) d_map);
   ("schema", field ev_Schema (λ x e, mkEnvelope e.(ev_Method) e.(ev_Name) e.(ev_Arguments) x e.(ev_InputSchema)) (d_raw raw));
   ("input_schema", field ev_InputSchema (λ x e, mkEnvelope e.(ev_Method) e.(ev_Name) e.(ev_Arguments) e.(ev_Schema) x) (d_raw raw))].
Definition envelope_fields (raw : any → string) : list (string * decoder Envelope) :=
  [("method", field ev_Method (λ x e, mkEnvelope x e.(ev_Name) e.(ev_Arguments) e.(ev_Schema) e.(ev_InputSchema)) d_string);
   ("params", d_struct (params_fields raw))].

(** The envelope the policy decodes from a body. *)
Definition decode_envelope (raw : any → string) (body : any) : option Envelope :=
  unmarshal (d_struct (envelope_fields raw)) body
    (mkEnvelope "" "" [] (mkRawSchema "" None) (mkRawSchema "" None)).

(** [s, _ := m\[key\].(string)]. *)
Definition text_at (m : args) (key : string) : string :=
  match lookup_key m key with Some (AStr s) => s | _ => "" end.

(** [rewriteLegacyToolCallName] on a body, the body kept where it does not apply
    or fails. *)
Definition rewrite_body (hint : string) (body : any) : any :=
  match body with
  | AObj envelope =>
      match lookup_key envelope "params" with
      | Some (AObj params) =>
          match rewriteLegacyToolCallName (text_at envelope "method") (text_at params "name") hint with
          | Some federated => AObj (assign envelope "params" (AObj (assign params "name" (AStr federated))))
          | None => body
          end
      | _ => body
      end
  | _ => body
  end.

End bodies.

(** ** The chain *)

(** A request: its context and credentials, what the rate limit looks at, the
    body ([None] when it is no JSON), the header [X-MCP-Server] and the URL
    parameter. *)
Record GatewayRequest := mkGatewayRequest {
  gq_Auth : AuthRequest;
  gq_Limited : LimitedRequest;
  gq_Body : option any;
  gq_XMCPServer : string;
  gq_ServerName : string;
}.

(** What the chain does with a request: answer it, or hand it on with the caller
    and the scope in its context. *)
Inductive ChainOutcome :=
| Answered (code : Z)
| Passed (id : Identity) (scope : list string).

(** The reply of an endpoint: an error code, the reverse proxy for a URL, what the
    MCP library answers itself, or the answer of the handler of a tool. *)
Inductive GatewayReply :=
| GwAnswered (code : Z)
| GwForward (url : string)
| GwLibrary
| GwReply (reply : ToolReply).

Record GatewayConfig (L B : Type) := mkGatewayConfig {
  gc_Auth : AuthOptions;
  gc_ScopeEnforcement : bool;
  gc_Limiter : option (LimiterBackend B);
  gc_Resolver : option DefaultProfileResolver;
  gc_Policy : option Engine;
  gc_Router : Router L;
  gc_Proxy : ProxyConfig;
}.

Record GatewayWorld (S L B : Type) := mkGatewayWorld {
  gw_limits : B;
  gw_policy : PolicyWorld;
  gw_proxy : ProxyWorld S L;
  gw_instances : gmap string string;
}.

Arguments mkGatewayConfig {_ _}.
Arguments gc_Auth {_ _}.
Arguments gc_ScopeEnforcement {_ _}.
Arguments gc_Limiter {_ _}.
Arguments gc_Resolver {_ _}.
Arguments gc_Policy {_ _}.
Arguments gc_Router {_ _}.
Arguments gc_Proxy {_ _}.
Arguments mkGatewayWorld {_ _ _}.
Arguments gw_limits {_ _ _}.
Arguments gw_policy {_ _ _}.
Arguments gw_proxy {_ _ _}.
Arguments gw_instances {_ _ _}.

Section gateway.
Context `{UnicodeTables} `{Bcrypt} {S L B : Type} `{Env S}.
Context (raw : any → string) (cfg : GatewayConfig L B).

Definition gw_set_limits (b : B) (w : GatewayWorld S L B) : GatewayWorld S L B :=
  mkGatewayWorld b w.(gw_policy) w.(gw_proxy) w.(gw_instances).
Definition gw_set_policy (pw : PolicyWorld) (w : GatewayWorld S L B) : GatewayWorld S L B :=
  mkGatewayWorld w.(gw_limits) pw w.(gw_proxy) w.(gw_instances).
Definition gw_set_proxy (px : ProxyWorld S L) (w : GatewayWorld S L B) : GatewayWorld S L B :=
  mkGatewayWorld w.(gw_limits) w.(gw_policy) px w.(gw_instances).
Definition gw_set_instances (m : gmap string string) (w : GatewayWorld S L B) : GatewayWorld S L B :=
  mkGatewayWorld w.(gw_limits) w.(gw_policy) w.(gw_proxy) m.

(** Authentication, server scope, rate limit and policy, in the order of the
    [Use] calls. *)
Definition chain (now : Z) (req : GatewayRequest) (w : GatewayWorld S L B) : ChainOutcome * GatewayWorld S L B :=
  let '(auth, db) := AuthMiddleware cfg.(gc_Auth) now req.(gq_Auth) w.(gw_proxy).(px_access) in
  let w := gw_set_proxy (px_set_access db w.(gw_proxy)) w in
  match auth with
  | AuthReject code _ => (Answered code, w)
  | AuthNext id scope _ =>
      match (if cfg.(gc_ScopeEnforcement) then ServerScopeMiddleware scope req.(gq_ServerName) else HandOn) with
      | Refuse code _ => (Answered code, w)
      | HandOn =>
          let '(limit, _, limits) :=
            serve cfg.(gc_Limiter) cfg.(gc_Resolver) now (Some id) req.(gq_Limited) w.(gw_limits) in
          let w := gw_set_limits limits w in
          match limit with
          | Limited _ => (Answered 429, w)
          | Forward =>
              let '(outcome, pw) :=
                policy_serve cfg.(gc_Policy) (req.(gq_Body) ≫= decode_envelope raw) (Some id) w.(gw_policy) in
              let w := gw_set_policy pw w in
              match outcome with
              | DeniedFor _ => (Answered 403, w)
              | _ => (Passed id scope, w)
              end
          end
      end
  end.

(** ** The unified endpoint *)

(** [mcp_call] is the tool and the arguments of the call the MCP library finds in
    a body, when it is one, and [registered] tells which tools have a handler. *)
Section unified.
Context (backend : string → string → args → ST S ToolResult).
Context (mcp_call : any → option (string * args)) (registered : string → bool).

(** The call the library dispatches. *)
Definition dispatched (req : GatewayRequest) : option (string * args) :=
  body ← req.(gq_Body);
  '(tool, arguments) ←
    mcp_call (if bool_decide (req.(gq_Limited).(lr_Method) = "POST") then rewrite_body req.(gq_XMCPServer) body else body);
  if registered tool then Some (tool, arguments) else None.

Definition unified (now : Z) (req : GatewayRequest) (w : GatewayWorld S L B) : GatewayReply * GatewayWorld S L B :=
  match chain now req w with
  | (Answered code, w) => (GwAnswered code, w)
  | (Passed id scope, w) =>
      match dispatched req with
      | None => (GwLibrary, w)
      | Some (tool, arguments) =>
          let '(reply, px) :=
            toolHandler backend cfg.(gc_Router) cfg.(gc_Proxy) tool (Some id) scope arguments w.(gw_proxy) in
          (GwReply reply, gw_set_proxy px w)
      end
  end.

End unified.

(** ** The endpoints of single servers *)

Definition per_server (now : Z) (req : GatewayRequest) (w : GatewayWorld S L B) : GatewayReply * GatewayWorld S L B :=
  match chain now req w with
  | (Answered code, w) => (GwAnswered code, w)
  | (Passed _ _, w) =>
      let order := (map_to_list w.(gw_proxy).(px_router).(rs_index).(tools)).*2 in
      let '(reply, instances) := VirtualServeHTTP order req.(gq_ServerName) w.(gw_instances) in
      (match reply with VirtualError code => GwAnswered code | VirtualForward url => GwForward url end,
       gw_set_instances instances w)
  end.

(** ** The endpoint that creates API keys *)

Definition create_key `{Postgres} (now : Z) (random : option bytes) (salt : nat) (req : AuthRequest)
    (body : option createAPIKeyAPIRequest) (db : AccessDB) : KeyAnswer * AccessDB :=
  match AuthMiddleware cfg.(gc_Auth) now req db with
  | (AuthReject code msg, db) => (KeyError code msg, db)
  | (AuthNext _ _ _, db) => handleCreate now random salt body db
  end.

End gateway.
