(* ===== verification/GatewayProps.v ===== *)
(** * What the composed endpoints guarantee

    - [unified_call_guarded]: a result of a backend on the unified endpoint has
      passed every check of the chain.
    - [denylist_bypassed]: the policy decides on another reading of the body than
      the call that is made.
    - [per_server_skips_checks]: the endpoints of single servers look neither at
      roles and permissions nor at the limits of servers.
    - [key_endpoint_escalation]: every authenticated caller gets a key with any
      scope. *)

From S2P Require Import Prelude GoStrings Encoding GoFloat Types RegTypes Store Json CapIndex Classification.
From S2P Require Import Regex Resilience RateLimit Policy PolicyProps AccessStore Auth AuthProps Routing RoutingProps Gateway.

#[local] Open Scope string_scope.
#[local] Open Scope list_scope.
#[local] Open Scope nat_scope.
#[local] Open Scope go_scope.
#[local] Opaque LookupHashAPIKey.

Section chain.
Context `{UnicodeTables} `{Bcrypt} {S L B : Type} `{Env S}.
Context (raw : any → string) (cfg : GatewayConfig L B).

(** What a request that passed the chain has passed. *)
Record chain_passed (now : Z) (req : GatewayRequest) (w : GatewayWorld S L B) (id : Identity) (scope : list string) :
    Prop := {
  cp_auth : ∃ reg, (AuthMiddleware cfg.(gc_Auth) now req.(gq_Auth) w.(gw_proxy).(px_access)).1 = AuthNext id scope reg;
  cp_scope : cfg.(gc_ScopeEnforcement) = true → scope ≠ [] → TrimSpace req.(gq_ServerName) ≠ "" →
    serverInScope (TrimSpace req.(gq_ServerName)) scope = true;
  cp_limit : (serve cfg.(gc_Limiter) cfg.(gc_Resolver) now (Some id) req.(gq_Limited) w.(gw_limits)).1.1 = Forward;
  cp_policy : ∀ e preq, cfg.(gc_Policy) = Some e →
    parsePolicyRequest (req.(gq_Body) ≫= decode_envelope raw) (Some id) = Some preq →
    (Evaluate e preq w.(gw_policy)).1.(pd_Allowed) = true;
}.

(** The access tables once the caller is authenticated. *)
Definition authenticated (now : Z) (req : GatewayRequest) (w : GatewayWorld S L B) : AccessDB :=
  (AuthMiddleware cfg.(gc_Auth) now req.(gq_Auth) w.(gw_proxy).(px_access)).2.

Lemma policy_serve_passed engine body id pw outcome pw' :
  policy_serve engine body id pw = (outcome, pw') → (∀ v, outcome ≠ DeniedFor v) →
  ∀ e preq, engine = Some e → parsePolicyRequest body id = Some preq → (Evaluate e preq pw).1.(pd_Allowed) = true.
Proof.
  intros Hp Hout e preq -> Hreq. unfold policy_serve in Hp. rewrite Hreq in Hp.
  destruct (Evaluate e preq pw) as [d pw1]. cbn [fst].
  destruct (pd_Allowed d); [done|]. injection Hp as <- _. by destruct (Hout _ eq_refl).
Qed.

Lemma scope_passed scope serverName :
  ServerScopeMiddleware scope serverName = HandOn → scope ≠ [] → TrimSpace serverName ≠ "" →
  serverInScope (TrimSpace serverName) scope = true.
Proof.
  unfold ServerScopeMiddleware. destruct scope as [|s l]; [done|]. intros Hs _ Hne.
  rewrite (bool_decide_eq_false_2 _ Hne) in Hs. cbn [negb andb] in Hs.
  by destruct (serverInScope (TrimSpace serverName) (s :: l)).
Qed.

Lemma chain_passed_inv now req w id scope w' :
  chain raw cfg now req w = (Passed id scope, w') →
  chain_passed now req w id scope ∧ w'.(gw_proxy) = px_set_access (authenticated now req w) w.(gw_proxy).
Proof.
  unfold chain, authenticated. destruct (AuthMiddleware _ _ _ _) as [[code msg|id0 scope0 reg] db] eqn:Ea; [done|].
  destruct (if gc_ScopeEnforcement cfg then _ else _) as [code m|] eqn:Es; [done|].
  destruct (serve _ _ _ _ _ _) as [[[|ra] hs] limits] eqn:El; [|done].
  destruct (policy_serve _ _ _ _) as [outcome pw] eqn:Ep. intros Heq.
  assert ((∀ v, outcome ≠ DeniedFor v) ∧ id = id0 ∧ scope = scope0 ∧ gw_proxy w' = px_set_access db (gw_proxy w))
    as (Hout & -> & -> & ->) by (destruct outcome; [injection Heq as <- <- <-; done..|done]).
  split; [|done]. split.
  - rewrite Ea. eauto.
  - intros Henf. rewrite Henf in Es. by apply scope_passed.
  - cbn in El. by rewrite El.
  - by eapply policy_serve_passed.
Qed.

(** A result of the handler of a tool. *)
Lemma toolHandler_result backend rt pcfg tool id scope arguments px content isError px' :
  toolHandler backend rt pcfg tool id scope arguments px = (ReplyResult content isError, px') →
  (pcfg.(pc_userStore) = true → (checkToolPermission id tool px.(px_access)).1 = None) ∧
  ∃ result st, Route (L := L) (S := S) backend rt scope tool arguments px.(px_router) = (inr result, st) ∧
    content = convertContentBlocks result.(tr_Content) ∧ isError = result.(tr_IsError).
Proof.
  unfold toolHandler, permission_gate.
  assert (Hroute : ∀ px1, px_router px1 = px_router px →
    (let '(r, st) := Route backend rt scope tool arguments (px_router px1) in
     match r with
     | inl (ServerRateLimited server retryAfter) => True
     | inl (RouteFailed err) => True
     | inr result => content = convertContentBlocks result.(tr_Content) ∧ isError = result.(tr_IsError) →
         ∃ result st, Route backend rt scope tool arguments px.(px_router) = (inr result, st) ∧
           content = convertContentBlocks result.(tr_Content) ∧ isError = result.(tr_IsError)
     end)).
  { intros px1 ->. destruct (Route _ _ _ _ _ _) as [[[]|result] st]; [done..|]. eauto. }
  destruct (pc_userStore pcfg).
  - destruct (checkToolPermission id tool (px_access px)) as [[[entry msg]|] db] eqn:Ep; [done|].
    specialize (Hroute (px_set_access db px) eq_refl).
    destruct (Route _ _ _ _ _ _) as [[[]|result] st]; [done..|]. intros [= <- <- _]. split; [done|]. by apply Hroute.
  - specialize (Hroute px eq_refl). destruct (Route _ _ _ _ _ _) as [[[]|result] st]; [done..|].
    intros [= <- <- _]. split; [done|]. by apply Hroute.
Qed.

(** C2: The unified endpoint guards its backends. A result of a backend that the
    endpoint returns has passed the whole chain: the caller was authenticated, the
    server of the URL was in the caller's scope, the rate limit let the request go
    on, and the policy allowed the call it read in the body, if it read one; the
    permission check allowed the tool that was called; and the result is that of
    the router, within the caller's server scope, for exactly the dispatched call. *)
Theorem unified_call_guarded backend mcp_call registered now req w content isError w' :
  unified raw cfg backend mcp_call registered now req w = (GwReply (ReplyResult content isError), w') →
  ∃ id scope tool arguments result st,
    chain_passed now req w id scope ∧ dispatched mcp_call registered req = Some (tool, arguments) ∧
    registered tool = true ∧
    (cfg.(gc_Proxy).(pc_userStore) = true →
      (checkToolPermission (Some id) tool (authenticated now req w)).1 = None) ∧
    Route backend cfg.(gc_Router) scope tool arguments w.(gw_proxy).(px_router) = (inr result, st) ∧
    content = convertContentBlocks result.(tr_Content) ∧ isError = result.(tr_IsError).
Proof.
  unfold unified. destruct (chain raw cfg now req w) as [[code|id scope] w1] eqn:Ec; [done|].
  apply chain_passed_inv in Ec as (Hpass & Hproxy).
  destruct (dispatched mcp_call registered req) as [[tool arguments]|] eqn:Ed; [|done].
  destruct (toolHandler _ _ _ _ _ _ _ _) as [reply px] eqn:Et. intros [= -> <-].
  apply toolHandler_result in Et as (Hperm & result & st & Hr & Hc & He). rewrite Hproxy in Hperm, Hr.
  exists id, scope, tool, arguments, result, st. split_and!; try done.
  unfold dispatched in Ed. repeat (case_match || simplify_option_eq); naive_solver.
Qed.

End chain.

(** ** The endpoints of single servers *)

(** Other users, roles and permissions. *)
Definition set_people (users : gmap string User) (perms : gmap (string * string) UserToolPermission)
    (db : AccessDB) : AccessDB := set_ac_perms perms (set_ac_users users db).

Section people.
Context `{UnicodeTables} `{Bcrypt} {S L B : Type} `{Env S}.
Context (users : gmap string User) (perms : gmap (string * string) UserToolPermission).

(** Authentication looks at neither. *)
Lemma AuthMiddleware_people opts now r db :
  AuthMiddleware opts now r (set_people users perms db) =
  ((AuthMiddleware opts now r db).1, set_people users perms (AuthMiddleware opts now r db).2).
Proof.
  assert (Hkey : ∀ r, APIKeyMiddleware now r (set_people users perms db) =
    ((APIKeyMiddleware now r db).1, set_people users perms (APIKeyMiddleware now r db).2)).
  { intros r'. unfold APIKeyMiddleware, validate, lookupRecord. destruct (extractAPIKey _ _) as [key|]; [|reflexivity].
    unfold GetByLookupHash, in_context, AccessStore.exec. cbn [ac_faults ac_keys ac_now set_people set_ac_perms set_ac_users set_ac_faults].
    generalize (LookupHashAPIKey key). intros h.
    destruct (ac_faults db) as [|[] fs]; [|reflexivity|];
      (destruct (find_key _ h) as [k|]; [|reflexivity]); (destruct (key_live _ k); [|reflexivity]);
      (destruct (verifyRecord now key k) as [[]|]; reflexivity). }
  unfold AuthMiddleware. destruct (aq_Identity r); [reflexivity|].
  destruct (extractBearerToken _) as [token|].
  - unfold handleBearerToken. destruct (isJWTToken token); [destruct (ao_OIDCValidator opts); reflexivity|].
    destruct (ao_APIKeyStore opts); [apply Hkey|reflexivity].
  - unfold handleXAPIKeyFallback. destruct (bool_decide _); [reflexivity|].
    destruct (ao_APIKeyStore opts); [apply Hkey|reflexivity].
Qed.

(** The gateway with other roles and permissions, another policy for calls, and
    other limits for servers. *)
Definition other_world (limits : L) (w : GatewayWorld S L B) : GatewayWorld S L B :=
  gw_set_proxy (px_set_router (rs_set_limits limits w.(gw_proxy).(px_router))
    (px_set_access (set_people users perms w.(gw_proxy).(px_access)) w.(gw_proxy))) w.
Definition other_config (rt : Router L) (pcfg : ProxyConfig) (cfg : GatewayConfig L B) : GatewayConfig L B :=
  mkGatewayConfig cfg.(gc_Auth) cfg.(gc_ScopeEnforcement) cfg.(gc_Limiter) cfg.(gc_Resolver) cfg.(gc_Policy) rt pcfg.

Lemma chain_people raw cfg rt pcfg limits now req w :
  chain raw (other_config rt pcfg cfg) now req (other_world limits w) =
  ((chain raw cfg now req w).1, other_world limits (chain raw cfg now req w).2).
Proof.
  unfold chain. cbn [gc_Auth gc_ScopeEnforcement gc_Limiter gc_Resolver gc_Policy other_config].
  cbn [gw_proxy other_world gw_set_proxy px_access px_set_access px_set_router]. rewrite AuthMiddleware_people.
  destruct (AuthMiddleware _ _ _ _) as [[code msg|id scope reg] db]; cbn [fst snd]; [reflexivity|].
  destruct (if gc_ScopeEnforcement cfg then _ else _) as [code m|]; [reflexivity|].
  change (gw_limits _) with (gw_limits w). cbn [gw_limits gw_set_proxy].
  destruct (serve _ _ _ _ _ _) as [[[|ra] hs] lim]; [|reflexivity].
  cbn [gw_set_proxy gw_policy gw_set_limits other_world].
  destruct (policy_serve _ _ _ _) as [[] pw]; reflexivity.
Qed.

(** The endpoints of single servers skip the checks that the unified endpoint
    makes behind the chain. Their reply is the same whatever the roles and the tool
    permissions of the users are, whether a user store is configured at all,
    whatever the rate limits of the servers are and how far they are used up: a
    blocked user, or a server with the limit 0, is forwarded all the same. *)
Theorem per_server_skips_checks raw cfg rt pcfg limits now req w :
  (per_server raw (other_config rt pcfg cfg) now req (other_world limits w)).1 = (per_server raw cfg now req w).1.
Proof.
  unfold per_server. rewrite chain_people.
  destruct (chain raw cfg now req w) as [[code|id scope] w1]; [reflexivity|]. cbn [fst snd].
  change (gw_instances (other_world limits w1)) with (gw_instances w1).
  change (rs_index (px_router (gw_proxy (other_world limits w1)))) with (rs_index (px_router (gw_proxy w1))).
  by destruct (VirtualServeHTTP _ _ _) as [[] instances].
Qed.

End people.

(** ** The endpoint that creates keys *)

Section escalation.
Context `{Bcrypt} `{Postgres}.

(** A read that succeeds leaves the tables alone. *)
Lemma GetByLookupHash_frame h db : db.(ac_faults) = [] → (GetByLookupHash h db).2 = db.
Proof.
  intros Hf. unfold GetByLookupHash, in_context, AccessStore.exec. rewrite Hf.
  by destruct (find_key _ h) as [k|]; [destruct (key_live _ k)|].
Qed.

(** A request without an expiry for a new key is answered with it. *)
Lemma handleCreate_succeeds now random salt key h b req db :
  GenerateAPIKey random salt = Some (key, h, b) → db.(ac_faults) = [] → find_key db.(ac_keys) h = None →
  TrimSpace req.(cr_Name) ≠ "" → TrimSpace req.(cr_Expires) = "" →
  ∃ resp db1, handleCreate now random salt (Some req) db = (KeyCreated resp, db1) ∧
    resp.(ca_APIKey) = key ∧ resp.(ca_Record).(ak_ExpiresAt) = None ∧ db1.(ac_faults) = [].
Proof.
  intros Hg Hf Hn Hname Hexp. unfold handleCreate.
  rewrite (bool_decide_eq_false_2 _ Hname), (bool_decide_eq_true_2 _ Hexp), Hg.
  unfold KeyCreate, in_context, AccessStore.exec. cbn [ak_KeyLookupHash]. rewrite Hf, Hn.
  match goal with |- context [GetByLookupHash h ?d] =>
    pose proof (GetByLookupHash_frame h d Hf) as Hd; destruct (GetByLookupHash h d) as [stored db2] end.
  cbn [snd] in Hd. eexists _, _. split; [reflexivity|].
  split; [reflexivity|]. rewrite Hd. split; [destruct stored; reflexivity|exact Hf].
Qed.

(** Every authenticated caller escalates. Whatever the scopes and the server
    scope of the caller are, the endpoint that creates keys answers a request for
    the scope [s] with a fresh key, and the client that sends that key passes
    [RequireScope s], for every [s]: [admin] too. When the request names no server
    scope, the key reaches every server. *)
Theorem key_endpoint_escalation `{!BcryptLaws _} {L B} (cfg : GatewayConfig L B) now random salt r db id scope reg db'
    key h b req s now2 :
  AuthMiddleware cfg.(gc_Auth) now r db = (AuthNext id scope reg, db') →
  cfg.(gc_Auth).(ao_APIKeyStore) = true →
  GenerateAPIKey random salt = Some (key, h, b) → db'.(ac_faults) = [] → find_key db'.(ac_keys) h = None →
  TrimSpace req.(cr_Name) ≠ "" → TrimSpace req.(cr_Expires) = "" → s ∈ req.(cr_Scopes) → TrimSpace s = s → s ≠ "" →
  ∃ resp db1 id2, create_key cfg now random salt r (Some req) db = (KeyCreated resp, db1) ∧
    AuthMiddleware cfg.(gc_Auth) now2 (bearer resp.(ca_APIKey)) db1 =
      (AuthNext id2 (dedupeScopes req.(cr_ServerScope)) false, db1) ∧
    RequireScope s (Some id2) = HandOn.
Proof.
  intros Hauth Hstore Hg Hf Hn Hname Hexp Hs Htrim Hne.
  destruct (handleCreate_succeeds now random salt _ _ _ req db' Hg Hf Hn Hname Hexp)
    as (resp & db1 & Hc & Hkey & Hnone & Hf1).
  exists resp, db1, (key_identity resp.(ca_Record)). split; [unfold create_key; rewrite Hauth; exact Hc|].
  assert (Hlive : ∀ t, resp.(ca_Record).(ak_ExpiresAt) = Some t → (db1.(ac_now) < t ∧ now2 <= t)%Z)
    by (rewrite Hnone; discriminate).
  pose proof (created_key_accepted _ _ _ _ _ _ _ _ now2 db1 Hc Hstore Hf1 eq_refl Hlive) as Ha.
  apply handleCreate_created in Hc as (row & b' & _ & _ & _ & _ & _ & _ & Hscope & Hsc).
  rewrite Hscope in Ha. split; [exact Ha|].
  unfold RequireScope. rewrite (proj2 (HasScope_spec _ _)); [reflexivity|].
  change (id_Scopes _) with (ak_Scopes (ca_Record resp)). rewrite Hsc. apply granted_scopes. left.
  split; [exact Hne|]. rewrite <- Htrim. by apply list_elem_of_fmap_2.
Qed.

End escalation.

(** ** Examples *)

Section examples.
#[local] Existing Instance ascii_tables.
#[local] Existing Instance example_bcrypt.
#[local] Existing Instance example_pg_ids.
#[local] Existing Instance log_env.

(** The calls of the MCP library: [GetArguments] is empty unless the arguments
    are an object. *)
Definition example_mcp_call (body : any) : option (string * args) :=
  match body with
  | AObj m =>
      if bool_decide (text_at m "method" = "tools/call") then
        match lookup_key m "params" with
        | Some (AObj p) =>
            Some (text_at p "name", match lookup_key p "arguments" with Some (AObj a) => a | _ => [] end)
        | _ => None
        end
      else None
  | _ => None
  end.

(** A profile that enforces a denylist with one tool. *)
Definition deny_engine (tool : string) : Engine :=
  mkEngine (copy_profiles [("default", Some (mkPolicyProfile "default" 0 0 [] [tool] ModeEnforce))])
    DefaultDangerousPatterns false false false.

Definition example_gateway : GatewayConfig () () :=
  mkGatewayConfig example_options true None None (Some (deny_engine "git.log"))
    (example_router RoundRobin) (mkProxyConfig true true).

Definition example_gateway_world : GatewayWorld (list string) () () :=
  mkGatewayWorld () (policy_start []) (mkProxyWorld (example_state [git; wiki]) (example_access []) [] []) ∅.

(** A call by a client with a certificate. *)
Definition tool_call (tool : string) (arguments : any) (header : string) : GatewayRequest :=
  mkGatewayRequest
    (mkAuthRequest (Some (mkIdentity IdentityMTLS "spiffe://example.org/client" [] ∅)) [] "" "")
    (mkLimitedRequest "POST" "application/json" "tools/call" "/mcp" "/mcp")
    (Some (AObj [("jsonrpc", AStr "2.0"); ("id", ANum (f_of_Z 1)); ("method", AStr "tools/call");
                 ("params", AObj [("name", AStr tool); ("arguments", arguments)])]))
    header "".

Definition run_call (tool : string) (arguments : any) (header : string) : GatewayReply :=
  (unified (λ _, "{}") example_gateway (log_backend "from ") example_mcp_call (λ _, true) 0
     (tool_call tool arguments header) example_gateway_world).1.

(** The denylist does not bind the call that is made. With [git.log] on the
    enforced denylist, the call of [git.log] is answered 403; yet the tool [git.log]
    of the backend runs for the same caller when the call names [log] and the header
    [X-MCP-Server] names the server, which rewrites the name behind the policy, and
    when the arguments are a JSON array, which the policy cannot decode and lets
    pass. *)
Theorem denylist_bypassed :
  run_call "git.log" (AObj []) "" = GwAnswered 403 ∧
  run_call "log" (AObj []) "git" =
    GwReply (ReplyResult [mkContentBlock "text" ("from " +:+ client_url git)] false) ∧
  run_call "git.log" (AArr []) "" =
    GwReply (ReplyResult [mkContentBlock "text" ("from " +:+ client_url git)] false).
Proof. split_and!; vm_compute; reflexivity. Qed.

Lemma unified_call_guarded_witness :
  ∃ result st, Route (log_backend "from ") (example_router RoundRobin) [] "wiki.log" [] (example_state [git; wiki]) =
    (inr result, st) ∧ result.(tr_IsError) = false.
Proof.
  assert (Hrun : run_call "wiki.log" (AObj []) "" =
    GwReply (ReplyResult [mkContentBlock "text" ("from " +:+ client_url wiki)] false)) by (vm_compute; reflexivity).
  unfold run_call in Hrun. destruct (unified _ _ _ _ _ _ _ _) as [reply w'] eqn:E. cbn [fst] in Hrun. subst reply.
  destruct (unified_call_guarded _ _ _ _ _ _ _ _ _ _ _ E)
    as (id & scope & tool & arguments & result & st & Hpass & Hd & _ & _ & Hr & _ & He).
  exists result, st. split; [|symmetry; exact He].
  destruct (cp_auth _ _ _ _ _ _ _ Hpass) as [reg Ha]. cbn in Ha. injection Ha as _ <- _.
  vm_compute in Hd. injection Hd as <- <-. exact Hr.
Defined.

Lemma key_endpoint_escalation_witness :
  ∃ resp db1 id2,
    create_key example_gateway 0 example_random 0 (mkAuthRequest None ["wiki"] "Bearer h.p.s" "")
      (Some (mkCreateRequest "x" ["admin"] "" "" "" [])) (example_access []) = (KeyCreated resp, db1) ∧
    AuthMiddleware example_options 0 (bearer resp.(ca_APIKey)) db1 = (AuthNext id2 [] false, db1) ∧
    RequireScope "admin" (Some id2) = HandOn.
Proof.
  destruct (GenerateAPIKey example_random 0) as [[[key h] b]|] eqn:Hg; [|discriminate Hg].
  eapply (key_endpoint_escalation example_gateway 0 example_random 0 (mkAuthRequest None ["wiki"] "Bearer h.p.s" "")
    (example_access []) _ _ _ _ key h b (mkCreateRequest "x" ["admin"] "" "" "" []) "admin" 0);
    [vm_compute; reflexivity|reflexivity|exact Hg|reflexivity|reflexivity|discriminate|reflexivity|left|reflexivity|discriminate].
Defined.

End examples.
