(* ===== verification/Document.v ===== *)
(** * Documents

    The text of JSON documents decoded into typed values: integers and doubles
    from their literals ([strconv.ParseInt], [strconv.ParseFloat]), times as
    RFC 3339 text ([time.Time.UnmarshalJSON]), and dynamic values. *)

From S2P Require Import Prelude GoStrings GoNet GoFloat Json GoParse.

#[local] Open Scope string_scope.
#[local] Open Scope list_scope.
#[local] Open Scope nat_scope.
#[local] Open Scope go_scope.

(** ** Numbers *)

(** The digits at the front. *)
Fixpoint digits (l : bytes) : bytes * bytes :=
  match l with
  | a :: l' => if is_digit a then let '(d, r) := digits l' in (a :: d, r) else ([], l)
  | [] => ([], [])
  end.

Definition digits_value (l : bytes) : Z := foldl (λ x a, x * 10 + dec_digit a)%Z 0%Z l.

(** The double nearest to [± m * 10^e]. *)
Definition f_decimal (neg : bool) (m e : Z) : spec_float :=
  match m with
  | Z.pos p =>
      if (0 <=? e)%Z then
        let x := binary_normalize f_prec f_emax (m * 10 ^ e) 0 false in if neg then SFopp x else x
      else
        match (10 ^ (- e))%Z with
        | Z.pos q => f_div (S754_finite neg p 0) (S754_finite false q 0)
        | _ => S754_nan
        end
  | _ => S754_zero neg
  end.

(** The exponent of a literal. *)
Definition literal_exponent (l : bytes) : option Z :=
  match l with
  | [] => Some 0%Z
  | a :: l' =>
      if one_of "eE" a then
        let '(neg, l') :=
          match l' with
          | b :: r => if one_of "-" b then (true, r) else if one_of "+" b then (false, r) else (false, l')
          | [] => (false, [])
          end in
        match digits l' with
        | (d :: ds, []) => Some (if neg : bool then - digits_value (d :: ds) else digits_value (d :: ds))%Z
        | _ => None
        end
      else None
  end.

(** The sign, the digits and the exponent of a literal. *)
Definition literal_parts (s : string) : option (bool * Z * Z) :=
  let '(neg, l) := match to_bytes s with
    | a :: r => if one_of "-" a then (true, r) else (false, a :: r)
    | [] => (false, [])
    end in
  match digits l with
  | ([], _) => None
  | (whole, rest) =>
      let '(frac, rest) := match rest with
        | a :: r => if one_of "." a then digits r else ([], rest)
        | [] => ([], [])
        end in
      e ← literal_exponent rest;
      Some (neg, digits_value (whole ++ frac), (e - Z.of_nat (length frac))%Z)
  end.

(** [strconv.ParseFloat] on a literal: out of range is an error. *)
Definition literal_float (s : string) : option spec_float :=
  '(neg, m, e) ← literal_parts s;
  match f_decimal neg m e with
  | S754_infinity _ | S754_nan => None
  | x => Some x
  end.

Definition d_int : decoder_of string Z := λ v cur,
  match v with
  | ANum s => match Atoi s with Some z => (z, true) | None => (cur, false) end
  | ANil => (cur, true)
  | _ => (cur, false)
  end.

(** ** Dynamic values

    Members with the same name replace each other, as in a Go map. A number out of
    range leaves [nil] and an error. *)
Fixpoint to_any (v : document) : any :=
  match v with
  | ANil => ANil
  | ABool b => ABool b
  | ANum s => default ANil (ANum <$> literal_float s)
  | AStr s => AStr s
  | AArr l => AArr (to_any <$> l)
  | AObj m => AObj (foldl (λ acc p, assign acc p.1 p.2) [] ((λ p, (p.1, to_any p.2)) <$> m))
  end.

Fixpoint numbers_ok (v : document) : bool :=
  match v with
  | ANum s => bool_decide (is_Some (literal_float s))
  | AArr l => forallb numbers_ok l
  | AObj m => forallb (λ p, numbers_ok p.2) m
  | _ => true
  end.

(** [map\[string\]any]; the entries join those of the map. *)
Definition d_object : decoder_of string (list (string * any)) := λ v cur,
  match v with
  | AObj m => (foldl (λ acc p, assign acc p.1 (to_any p.2)) cur m, numbers_ok v)
  | ANil => ([], true)
  | _ => (cur, false)
  end.

(** ** Times *)

Definition leap_year (y : Z) : bool :=
  (y mod 4 =? 0)%Z && (negb (y mod 100 =? 0)%Z || (y mod 400 =? 0)%Z).

Definition days_in (month year : Z) : Z :=
  if (month =? 2)%Z then if leap_year year then 29 else 28
  else if bool_decide (month ∈ [4; 6; 9; 11])%Z then 30 else 31.

(** The days from 1970-01-01 to a date of the Gregorian calendar; years start in
    March, so that the leap day is the last. *)
Definition days_from_civil (year month day : Z) : Z :=
  let y := (if month <=? 2 then year - 1 else year)%Z in
  let era := (y / 400)%Z in
  let yoe := (y - era * 400)%Z in
  let doy := ((153 * (if 2 <? month then month - 3 else month + 9) + 2) / 5 + day - 1)%Z in
  (era * 146097 + (yoe * 365 + yoe / 4 - yoe / 100 + doy) - 719468)%Z.

(** [getnum]: one or two digits, two when [fixed]. *)
Definition getnum (fixed : bool) (l : bytes) : option (Z * bytes) :=
  match l with
  | a :: b :: r =>
      if is_digit a then
        if is_digit b then Some (dec_digit a * 10 + dec_digit b, r)%Z
        else if fixed then None else Some (dec_digit a, b :: r)
      else None
  | [a] => if is_digit a && negb fixed then Some (dec_digit a, []) else None
  | [] => None
  end.

Definition skip (c : string) (l : bytes) : option bytes := strip_prefix (to_bytes c) l.

(** A number below a bound. *)
Definition num_below (fixed : bool) (bound : Z) (l : bytes) : option (Z * bytes) :=
  '(x, r) ← getnum fixed l;
  if (x <? bound)%Z then Some (x, r) else None.

Definition year_text (l : bytes) : option (Z * bytes) :=
  if bool_decide (length (take 4 l) = 4) && forallb is_digit (take 4 l)
  then Some (digits_value (take 4 l), drop 4 l) else None.

(** A fraction of a second: the nanoseconds, nine digits of it. *)
Definition fraction_text (l : bytes) : Z * bytes :=
  match l with
  | a :: r =>
      if one_of ".," a then
        match digits r with
        | ([], _) => (0%Z, l)
        | (ds, rest) =>
            let ds := take 9 ds in
            ((digits_value ds * 10 ^ (9 - Z.of_nat (length ds)))%Z, rest)
        end
      else (0%Z, l)
  | [] => (0%Z, [])
  end.

(** The offset of the zone in seconds; hour 24 and minute 60 pass. *)
Definition zone_text (l : bytes) : option (Z * bytes) :=
  match l with
  | a :: r =>
      if one_of "Z" a then Some (0%Z, r)
      else
        '(hr, r1) ← num_below true 25 r;
        r2 ← skip ":" r1;
        '(mm, r3) ← num_below true 61 r2;
        let off := ((hr * 60 + mm) * 60)%Z in
        if one_of "+" a then Some (off, r3)
        else if one_of "-" a then Some (- off, r3)%Z
        else None
  | [] => None
  end.

(** [time.Parse(time.RFC3339, s)]. *)
Definition ParseRFC3339 (s : string) : option Z :=
  '(year, l) ← year_text (to_bytes s);
  l ← skip "-" l;
  '(month, l) ← num_below true 13 l;
  l ← skip "-" l;
  '(day, l) ← getnum true l;
  l ← skip "T" l;
  '(hour, l) ← num_below false 24 l;
  l ← skip ":" l;
  '(min, l) ← num_below true 60 l;
  l ← skip ":" l;
  '(sec, l) ← num_below true 60 l;
  let '(nsec, l) := fraction_text l in
  '(off, l) ← zone_text l;
  match l with
  | [] =>
      if (1 <=? month)%Z && (1 <=? day)%Z && (day <=? days_in month year)%Z then
        Some (((days_from_civil year month day * 24 + hour) * 60 + min) * 60 + sec - off)%Z
          ≫= λ t, Some (t * second + nsec)%Z
      else None
  | _ :: _ => None
  end.

(** [time.Time.UnmarshalJSON]; documents write times without escapes. *)
Definition d_time : decoder_of string Z := λ v cur,
  match v with
  | AStr s => match ParseRFC3339 s with Some t => (t, true) | None => (cur, false) end
  | ANil => (cur, true)
  | _ => (cur, false)
  end.

(** The epoch of the calendar, and the zero value of [time.Time]. *)
Lemma zero_time_text : ParseRFC3339 "0001-01-01T00:00:00Z" = Some zero_time.
Proof. by vm_compute. Qed.

Lemma literals :
  literal_float "0.1" = Some (f_div (f_of_Z 1) (f_of_Z 10)) ∧
  literal_float "-25e-1" = Some (f_lit (-5) (-1)) ∧ literal_float "1e400" = None.
Proof. by vm_compute. Qed.
