(* ===== verification/JsonText.v ===== *)
(** * JSON texts

    The scanner of [encoding/json]: a text is read as a document, with the
    escapes of strings, the grammar of number literals and the limit on nesting,
    and a document is written as the compact text [json.Marshal] produces. A text
    written from a document reads as that document. *)

From S2P Require Import Prelude GoStrings Encoding GoNet GoFloat Json GoParse Document.

#[local] Open Scope string_scope.
#[local] Open Scope list_scope.
#[local] Open Scope nat_scope.

(** ** Strings *)

Definition json_space (a : ascii) : bool :=
  (code a =? 32)%N || (code a =? 9)%N || (code a =? 10)%N || (code a =? 13)%N.

Fixpoint skip_space (l : bytes) : bytes :=
  match l with
  | a :: l' => if json_space a then skip_space l' else l
  | [] => []
  end.

(** [utf8.EncodeRune]. *)
Definition EncodeRune (r : N) : bytes :=
  (let low i := ascii_of_N (128 + N.land (N.shiftr r (6 * i)) 63) in
   if r <? 128 then [ascii_of_N r]
   else if r <? 2048 then [ascii_of_N (192 + N.shiftr r 6); low 0]
   else if r <? 65536 then [ascii_of_N (224 + N.shiftr r 12); low 1; low 0]
   else [ascii_of_N (240 + N.shiftr r 18); low 2; low 1; low 0])%N.

(** Four hexadecimal digits. *)
Definition u4 (l : bytes) : option (N * bytes) :=
  match l with
  | a :: b :: c :: d :: l' =>
      x ← hex_value a; y ← hex_value b; z ← hex_value c; w ← hex_value d;
      Some ((((x * 16 + y) * 16 + z) * 16 + w)%N, l')
  | _ => None
  end.

(** The second half of a surrogate pair, when one follows. *)
Definition low_surrogate (l : bytes) : option (N * bytes) :=
  match l with
  | a :: b :: l' =>
      if one_of "\" a && one_of "u" b then
        '(r, rest) ← u4 l';
        if in_range 56320 r 57343 then Some (r, rest) else None
      else None
  | _ => None
  end.

(** The escape of a UTF-16 code unit; a surrogate without its other half is the
    replacement character. *)
Definition unicode_escape (l : bytes) : option (bytes * bytes) :=
  ('(r, rest) ← u4 l;
   if in_range 55296 r 57343 then
     match (if r <? 56320 then low_surrogate rest else None) with
     | Some (r2, rest') => Some (EncodeRune ((r - 55296) * 1024 + (r2 - 56320) + 65536), rest')
     | None => Some (EncodeRune RuneError, rest)
     end
   else Some (EncodeRune r, rest))%N.

(** An escape after its backslash: the bytes it stands for. *)
Definition escape (l : bytes) : option (bytes * bytes) :=
  match l with
  | [] => None
  | a :: l' =>
      (let c := code a in
       if (c =? 34) || (c =? 92) || (c =? 47) then Some ([a], l')
       else if c =? 98 then Some ([ascii_of_N 8], l')
       else if c =? 102 then Some ([ascii_of_N 12], l')
       else if c =? 110 then Some ([ascii_of_N 10], l')
       else if c =? 114 then Some ([ascii_of_N 13], l')
       else if c =? 116 then Some ([ascii_of_N 9], l')
       else if c =? 117 then unicode_escape l'
       else None)%N
  end.

(** The string up to its closing quote, decoded, and the text after it. *)
Fixpoint string_body (fuel : nat) (l : bytes) : option (bytes * bytes) :=
  match fuel, l with
  | S fuel, a :: l' =>
      let c := code a in
      if (c =? 34)%N then Some ([], l')
      else if (c <? 32)%N then None
      else
        '(piece, rest) ←
          (if (c =? 92)%N then escape l'
           else
             let '(r, w) := DecodeRune l in
             Some (if (r =? RuneError)%N && (w =? 1) then EncodeRune RuneError else take w l, drop w l));
        '(s, rest') ← string_body fuel rest;
        Some (piece ++ s, rest')
  | _, _ => None
  end.

Definition string_text (l : bytes) : option (string * bytes) :=
  '(s, rest) ← string_body (length l) l; Some (of_bytes s, rest).

(** ** Numbers *)

(** At least one digit. *)
Definition digits1 (l : bytes) : option (bytes * bytes) :=
  match digits l with ([], _) => None | p => Some p end.

(** The digits of the whole part: a leading zero stands alone. *)
Definition whole_text (l : bytes) : option (bytes * bytes) :=
  match l with
  | a :: l' => if one_of "0" a then Some ([a], l') else digits1 l
  | [] => None
  end.

Definition fraction_part (l : bytes) : option (bytes * bytes) :=
  match l with
  | a :: l' => if one_of "." a then '(d, r) ← digits1 l'; Some (a :: d, r) else Some ([], l)
  | [] => Some ([], [])
  end.

Definition exponent_part (l : bytes) : option (bytes * bytes) :=
  match l with
  | a :: l' =>
      if one_of "eE" a then
        let '(sign, l') :=
          match l' with
          | b :: r => if one_of "+-" b then ([b], r) else ([], l')
          | [] => ([], [])
          end in
        '(d, r) ← digits1 l'; Some (a :: sign ++ d, r)
      else Some ([], l)
  | [] => Some ([], [])
  end.

Definition number_text (l : bytes) : option (bytes * bytes) :=
  let '(sign, l) :=
    match l with
    | a :: l' => if one_of "-" a then ([a], l') else ([], l)
    | [] => ([], [])
    end in
  '(whole, l) ← whole_text l;
  '(frac, l) ← fraction_part l;
  '(exp, l) ← exponent_part l;
  Some (sign ++ whole ++ frac ++ exp, l).

(** ** Values *)

Definition maxNestingDepth : N := 10000.

(** [depth] is how many more objects and arrays may be open. *)
Fixpoint value (fuel : nat) (depth : N) (l : bytes) {struct fuel} : option (document * bytes) :=
  match fuel, skip_space l with
  | S fuel, a :: l' =>
      if one_of "{" a then
        if (depth =? 0)%N then None
        else
          match skip_space l' with
          | b :: r =>
              if one_of "}" b then Some (AObj [], r)
              else '(m, r') ← members fuel (depth - 1) (b :: r); Some (AObj m, r')
          | [] => None
          end
      else if one_of "[" a then
        if (depth =? 0)%N then None
        else
          match skip_space l' with
          | b :: r =>
              if one_of "]" b then Some (AArr [], r)
              else '(m, r') ← elements fuel (depth - 1) (b :: r); Some (AArr m, r')
          | [] => None
          end
      else if bool_decide (a = quote_byte) then '(s, r) ← string_text l'; Some (AStr s, r)
      else if one_of "t" a then r ← strip_prefix (to_bytes "rue") l'; Some (ABool true, r)
      else if one_of "f" a then r ← strip_prefix (to_bytes "alse") l'; Some (ABool false, r)
      else if one_of "n" a then r ← strip_prefix (to_bytes "ull") l'; Some (ANil, r)
      else '(s, r) ← number_text (a :: l'); Some (ANum (of_bytes s), r)
  | _, _ => None
  end
with members (fuel : nat) (depth : N) (l : bytes) {struct fuel} :
    option (list (string * document) * bytes) :=
  match fuel, skip_space l with
  | S fuel, a :: l' =>
      if bool_decide (a = quote_byte) then
        '(k, l1) ← string_text l';
        l2 ← strip_prefix (to_bytes ":") (skip_space l1);
        '(v, l3) ← value fuel depth l2;
        match skip_space l3 with
        | b :: r =>
            if one_of "," b then '(m, r') ← members fuel depth r; Some ((k, v) :: m, r')
            else if one_of "}" b then Some ([(k, v)], r)
            else None
        | [] => None
        end
      else None
  | _, _ => None
  end
with elements (fuel : nat) (depth : N) (l : bytes) {struct fuel} : option (list document * bytes) :=
  match fuel with
  | S fuel =>
      '(v, l1) ← value fuel depth l;
      match skip_space l1 with
      | b :: r =>
          if one_of "," b then '(m, r') ← elements fuel depth r; Some (v :: m, r')
          else if one_of "]" b then Some ([v], r)
          else None
      | [] => None
      end
  | O => None
  end.

(** Every call but one into the elements of an array takes a byte first. *)
Definition enough (l : bytes) : nat := 2 * length l + 2.

(** The text [json.Unmarshal] accepts: one value, and space around it. *)
Definition json_parse (s : string) : option document :=
  match value (enough (to_bytes s)) maxNestingDepth (to_bytes s) with
  | Some (v, rest) => match skip_space rest with [] => Some v | _ => None end
  | None => None
  end.

(** The first value of a stream, which is what [json.Decoder] reads. *)
Definition json_first (s : string) : option document :=
  fst <$> value (enough (to_bytes s)) maxNestingDepth (to_bytes s).

(** ** The fuel is enough *)

Lemma skip_space_length l : length (skip_space l) <= length l.
Proof. induction l as [|a l IH]; simpl; [done|]. destruct (json_space a); simpl; lia. Qed.

Lemma strip_prefix_length p l r : strip_prefix p l = Some r → length r <= length l.
Proof. intros ->%strip_prefix_Some. rewrite length_app. lia. Qed.

Lemma digits_app l : (digits l).1 ++ (digits l).2 = l.
Proof.
  induction l as [|a l IH]; simpl; [done|]. destruct (is_digit a); [|done].
  destruct (digits l). simpl in *. by f_equal.
Qed.

Lemma digits1_app l d r : digits1 l = Some (d, r) → l = d ++ r ∧ d ≠ [].
Proof.
  unfold digits1. pose proof (digits_app l). destruct (digits l) as [[|x d'] r']; [done|].
  intros [= <- <-]. done.
Qed.

Lemma whole_text_app l d r : whole_text l = Some (d, r) → l = d ++ r ∧ d ≠ [].
Proof.
  destruct l as [|a l]; [done|]. cbn [whole_text]. destruct (one_of _ a); [|apply digits1_app].
  intros [= <- <-]. done.
Qed.

Lemma fraction_part_app l d r : fraction_part l = Some (d, r) → l = d ++ r.
Proof.
  destruct l as [|a l]; [intros [= <- <-]; done|]. cbn [fraction_part].
  destruct (one_of _ a); [|intros [= <- <-]; done].
  destruct (digits1 l) as [[d' r']|] eqn:E; [|done]. apply digits1_app in E as [-> _].
  intros [= <- <-]. done.
Qed.

Lemma exponent_part_app l d r : exponent_part l = Some (d, r) → l = d ++ r.
Proof.
  destruct l as [|a l]; [intros [= <- <-]; done|]. cbn [exponent_part].
  destruct (one_of _ a); [|intros [= <- <-]; done].
  set (q := match l with [] => _ | _ :: _ => _ end).
  assert (Hq : l = q.1 ++ q.2).
  { subst q. destruct l as [|b l]; [done|]. by destruct (one_of _ b). }
  destruct q as [sign l']. cbn [fst snd] in Hq. subst l.
  destruct (digits1 l') as [[d' r']|] eqn:E; [|done]. apply digits1_app in E as [-> _].
  intros [= <- <-]. cbn. by rewrite <- (assoc_L (++)).
Qed.

(** A literal is the front of the text. *)
Lemma number_text_app l d r : number_text l = Some (d, r) → l = d ++ r ∧ d ≠ [].
Proof.
  unfold number_text. set (q := match l with [] => _ | _ :: _ => _ end).
  assert (Hq : l = q.1 ++ q.2).
  { subst q. destruct l as [|b l]; [done|]. by destruct (one_of _ b). }
  destruct q as [sign l']. cbn [fst snd] in Hq. subst l.
  destruct (whole_text l') as [[w l1]|] eqn:E1; [|done]. apply whole_text_app in E1 as [-> Hw].
  cbn. destruct (fraction_part l1) as [[f l2]|] eqn:E2; [|done]. apply fraction_part_app in E2 as ->.
  cbn. destruct (exponent_part l2) as [[e l3]|] eqn:E3; [|done]. apply exponent_part_app in E3 as ->.
  intros [= <- <-]. split; [by rewrite !(assoc_L (++))|]. destruct w; [done|]. by destruct sign.
Qed.

Lemma u4_length l r rest : u4 l = Some (r, rest) → length rest < length l.
Proof.
  destruct l as [|a [|b [|c [|d l]]]]; try done. cbn [u4].
  destruct (hex_value a); [|done]. destruct (hex_value b); [|done].
  destruct (hex_value c); [|done]. destruct (hex_value d); [|done]. intros [= _ <-]. simpl. lia.
Qed.

Lemma low_surrogate_length l r rest : low_surrogate l = Some (r, rest) → length rest < length l.
Proof.
  destruct l as [|a [|b l]]; try done. cbn [low_surrogate]. destruct (_ && _); [|done].
  destruct (u4 l) as [[r' rest']|] eqn:E; [|done]. apply u4_length in E. cbn.
  destruct (in_range _ _ _); [|done]. intros [= _ <-]. lia.
Qed.

Lemma escape_length l p rest : escape l = Some (p, rest) → length rest < length l.
Proof.
  destruct l as [|a l]; [done|]. cbn [escape]. cbv zeta.
  repeat match goal with
  | |- (if ?b then Some (_, l) else _) = _ → _ => destruct b; [intros [= _ <-]; simpl; lia|]
  end.
  destruct (code a =? 117)%N; [|done]. unfold unicode_escape. destruct (u4 l) as [[r rest']|] eqn:E; [|done].
  apply u4_length in E. cbn [mbind option_bind]. destruct (in_range _ _ _).
  - destruct (if _ : bool then low_surrogate rest' else None) as [[r2 rest2]|] eqn:E2.
    + destruct (_ <? _)%N in E2; [|done]. apply low_surrogate_length in E2.
      intros [= _ <-]. simpl. lia.
    + intros [= _ <-]. simpl. lia.
  - intros [= _ <-]. simpl. lia.
Qed.

Lemma string_body_length n l s rest : string_body n l = Some (s, rest) → length rest < length l.
Proof.
  revert l s rest. induction n as [|n IH]; intros [|a l] s rest; try done. cbn [string_body]. cbv zeta.
  destruct (code a =? 34)%N; [intros [= _ <-]; simpl; lia|]. destruct (_ <? _)%N; [done|].
  destruct (code a =? 92)%N.
  - destruct (escape l) as [[p r]|] eqn:E; [|done]. apply escape_length in E. cbn [mbind option_bind].
    destruct (string_body n r) as [[s' r']|] eqn:E'; [|done]. apply IH in E'.
    intros [= _ <-]. simpl. lia.
  - pose proof (DecodeRune_width a l) as Hw. destruct (DecodeRune (a :: l)) as [r w].
    cbn [mbind option_bind]. destruct (string_body n (drop w (a :: l))) as [[s' r']|] eqn:E'; [|done].
    apply IH in E'. rewrite length_drop in E'. cbn [snd] in Hw. intros [= _ <-]. lia.
Qed.

Lemma string_text_length l s rest : string_text l = Some (s, rest) → length rest < length l.
Proof.
  unfold string_text. destruct (string_body _ l) as [[s' r]|] eqn:E; [|done].
  apply string_body_length in E. intros [= _ <-]. done.
Qed.

Lemma skip_space_cons l a l' : skip_space l = a :: l' → length l' < length l.
Proof. intros E. pose proof (skip_space_length l) as Hl. rewrite E in Hl. simpl in Hl. lia. Qed.

(** A value takes at least one byte. *)
Lemma parsers_shorter n :
  (∀ d l v r, value n d l = Some (v, r) → length r < length l) ∧
  (∀ d l v r, members n d l = Some (v, r) → length r < length l) ∧
  (∀ d l v r, elements n d l = Some (v, r) → length r < length l).
Proof.
  induction n as [|n (IHv & IHm & IHe)]; [split_and!; intros ???? [=]|]. split_and!; intros d l v r.
  - cbn [value]. destruct (skip_space l) as [|a l'] eqn:E; [done|]. apply skip_space_cons in E.
    destruct (one_of "{" a).
    { destruct (d =? 0)%N; [done|]. destruct (skip_space l') as [|b r'] eqn:E'; [done|].
      pose proof (skip_space_cons _ _ _ E'). destruct (one_of _ b); [intros [= _ <-]; lia|].
      destruct (members n _ _) as [[m r2]|] eqn:Em; [|done]. apply IHm in Em.
      intros [= _ <-]. simpl in Em. lia. }
    destruct (one_of "[" a).
    { destruct (d =? 0)%N; [done|]. destruct (skip_space l') as [|b r'] eqn:E'; [done|].
      pose proof (skip_space_cons _ _ _ E'). destruct (one_of _ b); [intros [= _ <-]; lia|].
      destruct (elements n _ _) as [[m r2]|] eqn:Em; [|done]. apply IHe in Em.
      intros [= _ <-]. simpl in Em. lia. }
    destruct (bool_decide _).
    { destruct (string_text l') as [[s r']|] eqn:Es; [|done]. apply string_text_length in Es.
      intros [= _ <-]. lia. }
    do 3 (match goal with |- (if ?b then _ else _) = _ → _ => destruct b end;
      [destruct (strip_prefix _ l') as [r'|] eqn:Es; [|done]; apply strip_prefix_length in Es;
       intros [= _ <-]; lia|]).
    destruct (number_text (a :: l')) as [[s r']|] eqn:Es; [|done]. apply number_text_app in Es as [Es Hs].
    apply (f_equal length) in Es. rewrite length_app in Es. intros [= _ <-].
    destruct s; [done|]. simpl in Es. lia.
  - cbn [members]. destruct (skip_space l) as [|a l'] eqn:E; [done|]. apply skip_space_cons in E.
    destruct (bool_decide _); [|done]. destruct (string_text l') as [[k l1]|] eqn:E1; [|done].
    apply string_text_length in E1. cbn [mbind option_bind].
    destruct (strip_prefix _ _) as [l2|] eqn:E2; [|done]. apply strip_prefix_length in E2.
    pose proof (skip_space_length l1). cbn [mbind option_bind].
    destruct (value n d l2) as [[v' l3]|] eqn:E3; [|done]. apply IHv in E3. cbn [mbind option_bind].
    destruct (skip_space l3) as [|b r'] eqn:E4; [done|]. apply skip_space_cons in E4.
    destruct (one_of "," b).
    { destruct (members n d r') as [[m r2]|] eqn:E5; [|done]. apply IHm in E5. intros [= _ <-]. lia. }
    destruct (one_of "}" b); [|done]. intros [= _ <-]. lia.
  - cbn [elements]. destruct (value n d l) as [[v' l1]|] eqn:E1; [|done]. apply IHv in E1.
    cbn [mbind option_bind]. destruct (skip_space l1) as [|b r'] eqn:E4; [done|]. apply skip_space_cons in E4.
    destruct (one_of "," b).
    { destruct (elements n d r') as [[m r2]|] eqn:E5; [|done]. apply IHe in E5. intros [= _ <-]. lia. }
    destruct (one_of "]" b); [|done]. intros [= _ <-]. lia.
Qed.

(** More fuel than [enough] reads the same. *)
Lemma parsers_fuel n m :
  (∀ d l, 2 * length l + 1 <= n → 2 * length l + 1 <= m → value n d l = value m d l) ∧
  (∀ d l, 2 * length l + 1 <= n → 2 * length l + 1 <= m → members n d l = members m d l) ∧
  (∀ d l, 2 * length l + 2 <= n → 2 * length l + 2 <= m → elements n d l = elements m d l).
Proof.
  revert m. induction n as [|n IH]; [intros m; split_and!; intros; lia|].
  intros [|m]; [split_and!; intros; lia|]. destruct (IH m) as (IHv & IHm & IHe).
  split_and!; intros d l Hn Hm.
  - cbn [value]. destruct (skip_space l) as [|a l'] eqn:E; [done|]. apply skip_space_cons in E.
    destruct (one_of "{" a).
    { destruct (d =? 0)%N; [done|]. destruct (skip_space l') as [|b r'] eqn:E'; [done|].
      apply skip_space_cons in E'. destruct (one_of "}" b); [done|]. rewrite IHm; simpl; [done|lia..]. }
    destruct (one_of "[" a); [|done].
    destruct (d =? 0)%N; [done|]. destruct (skip_space l') as [|b r'] eqn:E'; [done|].
    apply skip_space_cons in E'. destruct (one_of "]" b); [done|]. rewrite IHe; simpl; [done|lia..].
  - cbn [members]. destruct (skip_space l) as [|a l'] eqn:E; [done|]. apply skip_space_cons in E.
    destruct (bool_decide _); [|done]. destruct (string_text l') as [[k l1]|] eqn:E1; [|done].
    apply string_text_length in E1. cbn [mbind option_bind].
    destruct (strip_prefix _ _) as [l2|] eqn:E2; [|done]. apply strip_prefix_length in E2.
    pose proof (skip_space_length l1). cbn [mbind option_bind]. rewrite IHv by lia.
    destruct (value m d l2) as [[v' l3]|] eqn:E3; [|done]. apply parsers_shorter in E3. cbn [mbind option_bind].
    destruct (skip_space l3) as [|b r'] eqn:E4; [done|]. apply skip_space_cons in E4.
    rewrite IHm by lia. done.
  - cbn [elements]. rewrite IHv by lia. destruct (value m d l) as [[v' l1]|] eqn:E1; [|done].
    apply parsers_shorter in E1. cbn [mbind option_bind].
    destruct (skip_space l1) as [|b r'] eqn:E4; [done|]. apply skip_space_cons in E4.
    rewrite IHe by lia. done.
Qed.

(** ** Writing documents *)

Fixpoint comma (l : list bytes) : bytes :=
  match l with
  | [] => []
  | [x] => x
  | x :: l' => x ++ to_bytes "," ++ comma l'
  end.

(** [json.Marshal] of a document. *)
Fixpoint json_print (v : document) : bytes :=
  match v with
  | ANil => to_bytes "null"
  | ABool b => to_bytes (if b then "true" else "false")
  | ANum s => to_bytes s
  | AStr s => json_string s
  | AArr l => to_bytes "[" ++ comma (json_print <$> l) ++ to_bytes "]"
  | AObj m => to_bytes "{" ++ comma ((λ p, json_string p.1 ++ to_bytes ":" ++ json_print p.2) <$> m) ++ to_bytes "}"
  end.

(** Texts without an invalid encoding. *)
Definition bad_rune (p : N * bytes) : bool := (p.1 =? RuneError)%N && (length p.2 =? 1).
Definition valid_utf8 (s : string) : bool := forallb (λ p, negb (bad_rune p)) (runes (to_bytes s)).

Definition literal_ok (s : string) : bool := bool_decide (number_text (to_bytes s) = Some (to_bytes s, [])).

(** Documents whose texts are valid and whose numbers are literals. *)
Fixpoint document_ok (v : document) : bool :=
  match v with
  | ANum s => literal_ok s
  | AStr s => valid_utf8 s
  | AArr l => forallb document_ok l
  | AObj m => forallb (λ p, valid_utf8 p.1 && document_ok p.2) m
  | _ => true
  end.

Fixpoint document_depth (v : document) : N :=
  match v with
  | AArr l => 1 + foldr (λ x d, N.max (document_depth x) d) 0 l
  | AObj m => 1 + foldr (λ p d, N.max (document_depth p.2) d) 0 m
  | _ => 0
  end%N.

(** ** What is written is read back *)

Lemma lor_add x y k : (y < 2 ^ k)%N → N.lor (N.shiftl x k) y = (x * 2 ^ k + y)%N.
Proof.
  intros Hy. rewrite <- N.shiftl_mul_pow2. symmetry.
  assert (Hland : N.land (N.shiftl x k) y = 0%N).
  { apply N.bits_inj. intros n. rewrite N.land_spec, N.bits_0. destruct (N.lt_ge_cases n k) as [Hn|Hn].
    - by rewrite N.shiftl_spec_low.
    - assert (N.testbit y n = false) as ->; [|apply andb_false_r]. destruct (N.eq_dec y 0) as [->|Hy0]; [apply N.bits_0|].
      apply N.bits_above_log2. apply N.log2_lt_pow2; [lia|].
      eapply N.lt_le_trans; [exact Hy|]. apply N.pow_le_mono_r; lia. }
  rewrite N.add_nocarry_lxor by done. by apply N.lxor_lor.
Qed.

Lemma low6_small a : (low6 a < 64)%N.
Proof. unfold low6. change 63%N with (N.ones 6). rewrite N.land_ones. apply N.mod_lt. done. Qed.

Lemma cont_low6 a : cont a = true → code a = (128 + low6 a)%N.
Proof.
  unfold cont, in_range, low6. intros H. apply andb_true_iff in H as [H1%N.leb_le H2%N.leb_le].
  change 63%N with (N.ones 6). rewrite N.land_ones. change (2 ^ 6)%N with 64%N.
  pose proof (N.div_mod (code a) 64 ltac:(done)). pose proof (N.mod_lt (code a) 64 ltac:(done)).
  assert (code a / 64 = 2)%N; [|lia]. symmetry. apply (N.div_unique _ _ _ (code a - 128)); lia.
Qed.

Lemma code_ascii a : ascii_of_N (code a) = a.
Proof. apply ascii_N_embedding. Qed.

Lemma low_part r i : N.land (N.shiftr r (6 * i)) 63 = (r / 2 ^ (6 * i) mod 64)%N.
Proof. change 63%N with (N.ones 6). by rewrite N.land_ones, N.shiftr_div_pow2. Qed.

Lemma encode_two c b : (2 <= c < 32)%N → (b < 64)%N →
  EncodeRune (c * 64 + b) = [ascii_of_N (192 + c); ascii_of_N (128 + b)].
Proof.
  intros Hc Hb. unfold EncodeRune. rewrite !low_part, N.shiftr_div_pow2.
  rewrite (proj2 (N.ltb_ge _ _)) by lia. rewrite (proj2 (N.ltb_lt _ _)) by lia.
  change (2 ^ 6)%N with 64%N. change (2 ^ (6 * 0))%N with 1%N. rewrite N.div_1_r.
  rewrite N.div_add_l, (N.div_small b), N.add_0_r by lia.
  rewrite (N.add_comm (c * 64)), N.Div0.mod_add, (N.mod_small b) by lia. done.
Qed.

Lemma encode_three c b d : (c < 16)%N → (b < 64)%N → (d < 64)%N → (2048 <= c * 4096 + (b * 64 + d))%N →
  EncodeRune (c * 4096 + (b * 64 + d)) = [ascii_of_N (224 + c); ascii_of_N (128 + b); ascii_of_N (128 + d)].
Proof.
  intros Hc Hb Hd Hr. unfold EncodeRune. rewrite !low_part, !N.shiftr_div_pow2.
  rewrite (proj2 (N.ltb_ge _ 128)) by lia. rewrite (proj2 (N.ltb_ge _ 2048)) by lia.
  rewrite (proj2 (N.ltb_lt _ 65536)) by lia.
  change (2 ^ 12)%N with 4096%N. change (2 ^ (6 * 1))%N with 64%N. change (2 ^ (6 * 0))%N with 1%N.
  rewrite N.div_1_r.
  assert (((c * 4096 + (b * 64 + d)) / 4096 = c)%N) as -> by (symmetry; apply (N.div_unique _ _ _ (b * 64 + d)); lia).
  assert (((c * 4096 + (b * 64 + d)) / 64 = c * 64 + b)%N) as -> by (symmetry; apply (N.div_unique _ _ _ d); lia).
  assert (((c * 64 + b) mod 64 = b)%N) as -> by (symmetry; apply (N.mod_unique _ _ c); lia).
  assert (((c * 4096 + (b * 64 + d)) mod 64 = d)%N) as -> by (symmetry; apply (N.mod_unique _ _ (c * 64 + b)); lia).
  done.
Qed.

Lemma encode_four c b d e : (c < 8)%N → (b < 64)%N → (d < 64)%N → (e < 64)%N →
  (65536 <= c * 262144 + (b * 4096 + (d * 64 + e)))%N →
  EncodeRune (c * 262144 + (b * 4096 + (d * 64 + e)))
  = [ascii_of_N (240 + c); ascii_of_N (128 + b); ascii_of_N (128 + d); ascii_of_N (128 + e)].
Proof.
  intros Hc Hb Hd He Hr. unfold EncodeRune. rewrite !low_part, !N.shiftr_div_pow2.
  rewrite (proj2 (N.ltb_ge _ 128)) by lia. rewrite (proj2 (N.ltb_ge _ 2048)) by lia.
  rewrite (proj2 (N.ltb_ge _ 65536)) by lia.
  change (2 ^ 18)%N with 262144%N. change (2 ^ (6 * 2))%N with 4096%N.
  change (2 ^ (6 * 1))%N with 64%N. change (2 ^ (6 * 0))%N with 1%N. rewrite N.div_1_r.
  set (r := (c * 262144 + (b * 4096 + (d * 64 + e)))%N) in *.
  assert ((r / 262144 = c)%N) as -> by (symmetry; apply (N.div_unique _ _ _ (b * 4096 + (d * 64 + e))); lia).
  assert ((r / 4096 = c * 64 + b)%N) as -> by (symmetry; apply (N.div_unique _ _ _ (d * 64 + e)); lia).
  assert ((r / 64 = (c * 64 + b) * 64 + d)%N) as -> by (symmetry; apply (N.div_unique _ _ _ e); lia).
  assert (((c * 64 + b) mod 64 = b)%N) as -> by (symmetry; apply (N.mod_unique _ _ c); lia).
  assert ((((c * 64 + b) * 64 + d) mod 64 = d)%N) as -> by (symmetry; apply (N.mod_unique _ _ (c * 64 + b)); lia).
  assert ((r mod 64 = e)%N) as -> by (symmetry; apply (N.mod_unique _ _ ((c * 64 + b) * 64 + d)); lia).
  done.
Qed.

(** The bits of a leading byte. *)
Lemma lead_bits a k lo n : (lo = 256 - 2 ^ (n + 1))%N → k = N.ones n → (n < 8)%N →
  (lo <= code a < lo + 2 ^ n)%N → code a = (lo + N.land (code a) k)%N ∧ (N.land (code a) k < 2 ^ n)%N.
Proof.
  intros -> -> Hn H. rewrite N.land_ones.
  pose proof (N.mod_lt (code a) (2 ^ n) ltac:(apply N.pow_nonzero; lia)).
  split; [|done]. rewrite N.pow_add_r in *. change (2 ^ 1)%N with 2%N in *.
  assert (Hp : (2 ^ n * 2 ^ (8 - n) = 256)%N) by (rewrite <- N.pow_add_r; by replace (n + (8 - n))%N with 8%N by lia).
  pose proof (N.div_mod (code a) (2 ^ n) ltac:(apply N.pow_nonzero; lia)) as Hd.
  assert (code a / 2 ^ n = 2 ^ (8 - n) - 2)%N as Hq.
  { symmetry. apply (N.div_unique _ _ _ (code a - (256 - 2 ^ n * 2))); nia. }
  rewrite Hq in Hd. nia.
Qed.

Lemma in_range_iff lo x hi : in_range lo x hi = true ↔ (lo <= x <= hi)%N.
Proof. unfold in_range. rewrite andb_true_iff, !N.leb_le. done. Qed.

(** The three ways a rune is decoded: a byte below 0x80, an invalid encoding, or
    several bytes that are the encoding of the rune. *)
Definition decoded (a : ascii) (l : bytes) (p : N * nat) : Prop :=
  (code a < 128 ∧ p = (code a, 1%nat))%N ∨
  (128 <= code a ∧ p = (RuneError, 1%nat))%N ∨
  (128 <= code a ∧ 128 <= p.1 ∧ take p.2 (a :: l) = EncodeRune p.1)%N ∧ 2 <= p.2 ∧
  ∀ X, DecodeRune (take p.2 (a :: l) ++ X) = p.

Lemma DecodeRune_decoded a l : decoded a l (DecodeRune (a :: l)).
Proof.
  unfold decoded. cbn [DecodeRune]. destruct (code a <? 128)%N eqn:Ha; [left; by apply N.ltb_lt in Ha|].
  right. pose proof Ha as Ha'%N.ltb_ge.
  destruct l as [|b l]; [left; done|].
  destruct (in_range 194 (code a) 223 && cont b) eqn:E2.
  { right. pose proof E2 as [H1%in_range_iff Hb%cont_low6]%andb_true_iff.
    destruct (lead_bits a 31 192 5) as [Hc Hc']; [done..|lia|]. pose proof (low6_small b).
    rewrite lor_add by done. change (2 ^ 6)%N with 64%N. change (2 ^ 5)%N with 32%N in *. cbn [fst snd take].
    rewrite encode_two by lia. rewrite <- Hc, <- Hb, !code_ascii.
    split_and!; [lia..|done|lia|]. intros X. cbn [app DecodeRune]. rewrite Ha, E2. by rewrite lor_add. }
  destruct l as [|d l]; [left; done|].
  match goal with |- context [if ?x then _ else _] => destruct x eqn:E3 end.
  { right. pose proof E3 as [[[H1%in_range_iff Hb%cont_low6]%andb_true_iff Hd%cont_low6]%andb_true_iff H2]%andb_true_iff.
    destruct (lead_bits a 15 224 4) as [Hc Hc']; [done..|lia|].
    pose proof (low6_small b). pose proof (low6_small d).
    rewrite (lor_add (low6 b)) by done. change (2 ^ 6)%N with 64%N. change (2 ^ 4)%N with 16%N in *.
    rewrite lor_add by (change (2 ^ 12)%N with 4096%N; lia). change (2 ^ 12)%N with 4096%N.
    assert (2048 <= N.land (code a) 15 * 4096 + (low6 b * 64 + low6 d))%N.
    { apply andb_true_iff in H2 as [[Hx%negb_true_iff%N.eqb_neq|Hx%N.leb_le]%orb_true_iff _]; lia. }
    cbn [fst snd take]. rewrite encode_three by lia. rewrite <- Hc, <- Hb, <- Hd, !code_ascii.
    split_and!; [lia..|done|lia|]. intros X. cbn [app DecodeRune]. rewrite Ha, E2, E3.
    rewrite (lor_add (low6 b)) by done. change (2 ^ 6)%N with 64%N.
    rewrite lor_add by (change (2 ^ 12)%N with 4096%N; lia). done. }
  destruct l as [|e l]; [left; done|].
  match goal with |- context [if ?x then _ else _] => destruct x eqn:E4 end; [|left; done].
  right. pose proof E4 as [[[[H1%in_range_iff Hb%cont_low6]%andb_true_iff Hd%cont_low6]%andb_true_iff
    He%cont_low6]%andb_true_iff H2]%andb_true_iff.
  destruct (lead_bits a 7 240 3) as [Hc Hc']; [done..|change (2 ^ 3)%N with 8%N; lia|].
  pose proof (low6_small b). pose proof (low6_small d). pose proof (low6_small e).
  rewrite (lor_add (low6 d)) by done. change (2 ^ 6)%N with 64%N. change (2 ^ 3)%N with 8%N in *.
  rewrite (lor_add (low6 b)) by (change (2 ^ 12)%N with 4096%N; lia). change (2 ^ 12)%N with 4096%N.
  rewrite lor_add by (change (2 ^ 18)%N with 262144%N; lia). change (2 ^ 18)%N with 262144%N.
  assert (65536 <= N.land (code a) 7 * 262144 + (low6 b * 4096 + (low6 d * 64 + low6 e)))%N.
  { apply andb_true_iff in H2 as [[Hx%negb_true_iff%N.eqb_neq|Hx%N.leb_le]%orb_true_iff _]; lia. }
  cbn [fst snd take]. rewrite encode_four by lia. rewrite <- Hc, <- Hb, <- Hd, <- He, !code_ascii.
  split_and!; [lia..|done|lia|]. intros X. cbn [app DecodeRune]. rewrite Ha, E2, E3, E4.
  rewrite (lor_add (low6 d)) by done. change (2 ^ 6)%N with 64%N.
  rewrite (lor_add (low6 b)) by (change (2 ^ 12)%N with 4096%N; lia). change (2 ^ 12)%N with 4096%N.
  rewrite lor_add by (change (2 ^ 18)%N with 262144%N; lia). done.
Qed.

(** An escape reads as the byte it was written for. *)
Lemma escape_written c e : (c < 128)%N → json_escape c = Some e →
  ∃ e', e = "\"%char :: e' ∧ ∀ X, escape (e' ++ X) = Some ([ascii_of_N c], X).
Proof.
  intros Hc. unfold json_escape.
  repeat match goal with
  | |- (if (c =? ?k)%N then _ else _) = _ → _ =>
      destruct (c =? k)%N eqn:E; [apply N.eqb_eq in E as ->; intros [= <-]; by eexists|clear E]
  end.
  match goal with |- (if ?b then _ else _) = _ → _ => destruct b; [|done] end.
  intros [= <-]. eexists. split; [done|]. intros X.
  assert (Hcode : code (ascii_of_N c) = c) by (apply N_ascii_embedding; lia).
  unfold hex_byte. rewrite Hcode. set (hi := N.shiftr c 4). set (lo := N.land c 15).
  assert (Hhi : (hi < 16)%N).
  { subst hi. rewrite N.shiftr_div_pow2. apply N.Div0.div_lt_upper_bound. change (2 ^ 4)%N with 16%N. lia. }
  assert (Hlo : (lo < 16)%N).
  { subst lo. change 15%N with (N.ones 4). rewrite N.land_ones. apply N.mod_lt. done. }
  assert (Hsum : (hi * 16 + lo = c)%N).
  { subst hi lo. change 15%N with (N.ones 4). rewrite N.land_ones, N.shiftr_div_pow2.
    change (2 ^ 4)%N with 16%N. pose proof (N.div_mod c 16 ltac:(done)). lia. }
  change (unicode_escape ("0"%char :: "0"%char :: hex_digit hi :: hex_digit lo :: X) = Some ([ascii_of_N c], X)).
  unfold unicode_escape, u4. rewrite !hex_roundtrip by done. cbn [mbind option_bind hex_value].
  change (hex_value "0"%char) with (Some 0%N). cbn [mbind option_bind].
  replace (((0 * 16 + 0) * 16 + hi) * 16 + lo)%N with c by lia.
  destruct (in_range 55296 c 57343) eqn:Er; [apply in_range_iff in Er; lia|].
  unfold EncodeRune. by rewrite (proj2 (N.ltb_lt _ _) Hc).
Qed.

(** One rune of a string. *)
Lemma string_body_rune n a l X :
  let '(r, w) := DecodeRune (a :: l) in
  bad_rune (r, take w (a :: l)) = false →
  string_body (S n) (json_rune (r, take w (a :: l)) ++ X)
  = '(s, rest) ← string_body n X; Some (take w (a :: l) ++ s, rest).
Proof.
  pose proof (DecodeRune_decoded a l) as Hd. pose proof (DecodeRune_width a l) as Hw.
  destruct (DecodeRune (a :: l)) as [r w]. cbn [snd] in Hw. unfold decoded in Hd. cbn [fst snd] in Hd.
  intros Hbad. destruct Hd as [[Ha [= -> ->]]|[[Ha [= -> ->]]|[(Ha & Hr & Henc) [Hw2 Hdec]]]].
  - cbn [take]. unfold json_rune. rewrite (proj2 (N.ltb_lt _ _) Ha).
    destruct (json_escape (code a)) as [e|] eqn:Ee.
    + destruct (escape_written _ _ Ha Ee) as (e' & -> & He). cbn [from_option id app string_body].
      change (code "\"%char =? 34)%N with false. change (code "\"%char <? 32)%N with false.
      change (code "\"%char =? 92)%N with true. cbv iota. rewrite He, code_ascii. done.
    + cbn [from_option id app string_body]. unfold json_escape in Ee.
      destruct (code a =? 34)%N; [done|]. destruct (code a =? 92)%N; [done|].
      repeat match type of Ee with (if (_ =? _)%N then _ else _) = _ => case_match; [done|] end.
      destruct (code a <? 32)%N; [done|]. cbn [DecodeRune]. rewrite (proj2 (N.ltb_lt _ _) Ha).
      destruct (_ && _) eqn:Eb; [|done]. apply andb_true_iff in Eb as [Eb%N.eqb_eq _].
      unfold RuneError in Eb. lia.
  - done.
  - unfold json_rune. rewrite (proj2 (N.ltb_ge _ _) Hr). unfold bad_rune in Hbad. cbn [fst snd] in Hbad.
    rewrite Hbad. destruct (r =? 8232)%N eqn:E1; [apply N.eqb_eq in E1 as ->; by rewrite Henc|].
    destruct (r =? 8233)%N eqn:E2; [apply N.eqb_eq in E2 as ->; by rewrite Henc|].
    assert (Hlen : length (take w (a :: l)) = w) by (rewrite length_take; lia).
    assert (Ht : take w (take w (a :: l) ++ X) = take w (a :: l)) by (rewrite take_app_le, take_take by lia; f_equal; lia).
    assert (Hdr : drop w (take w (a :: l) ++ X) = X).
    { rewrite drop_app_ge by lia. rewrite Hlen, Nat.sub_diag. done. }
    assert (Hcons : ∃ t, take w (a :: l) ++ X = a :: t) by (destruct w; [lia|]; by eexists).
    specialize (Hdec X). destruct Hcons as [t Ht']. rewrite Ht' in *. cbn [string_body]. cbv zeta.
    rewrite (proj2 (N.eqb_neq (code a) 34)), (proj2 (N.ltb_ge (code a) 32)), (proj2 (N.eqb_neq (code a) 92)) by lia.
    rewrite Hdec, Ht, Hdr. rewrite (proj2 (Nat.eqb_neq w 1)) by lia. by rewrite andb_false_r.
Qed.

Lemma string_body_runes k l n rest :
  length l <= k → forallb (λ p, negb (bad_rune p)) (runes_fuel k l) = true →
  length (runes_fuel k l) < n →
  string_body n (mjoin (json_rune <$> runes_fuel k l) ++ quote_byte :: rest) = Some (l, rest).
Proof.
  revert l n. induction k as [|k IH]; intros [|a l] n Hk Hv Hn; simpl in Hk; try lia;
    try (destruct n; [simpl in Hn; lia|done]).
  pose proof (DecodeRune_width a l) as Hw. pose proof (string_body_rune (pred n) a l) as Hs.
  cbn [runes_fuel] in *. destruct (DecodeRune (a :: l)) as [r w]. cbn [snd forallb length] in *.
  apply andb_true_iff in Hv as [Hb%negb_true_iff Hv]. destruct n as [|n]; [lia|]. cbn [pred] in Hs.
  rewrite fmap_cons. cbn [mjoin list_join]. rewrite <- (assoc_L (++)), Hs by done.
  rewrite IH; [|rewrite length_drop; simpl; lia|done|lia]. cbn. by rewrite take_drop.
Qed.

(** A string that is valid UTF-8 reads as itself. *)
Lemma string_written s rest : valid_utf8 s = true →
  ∃ body, json_string s ++ rest = quote_byte :: body ∧ string_text body = Some (s, rest).
Proof.
  intros Hs. exists (mjoin (json_rune <$> runes (to_bytes s)) ++ quote_byte :: rest).
  split; [unfold json_string; rewrite <- app_comm_cons, <- (assoc_L (++)); done|].
  unfold string_text, runes.
  rewrite string_body_runes; [cbn; by rewrite of_to_bytes|done|exact Hs|].
  rewrite length_app. simpl. generalize (to_bytes s). intros l.
  cut (length (runes_fuel (length l) l) <= length (mjoin (json_rune <$> runes_fuel (length l) l))); [lia|].
  generalize (length l). intros k. revert l. induction k as [|k IH]; intros [|a l]; try done.
  cbn [runes_fuel]. pose proof (DecodeRune_width a l) as Hw. destruct (DecodeRune (a :: l)) as [r w].
  rewrite fmap_cons. cbn [mjoin list_join length]. rewrite length_app. specialize (IH (drop w (a :: l))).
  assert (1 <= length (json_rune (r, take w (a :: l)))); [|by apply (Nat.add_le_mono 1)].
  unfold json_rune, json_escape. cbn [snd] in Hw.
  repeat (case_match; try (simpl; lia)); cbn [from_option id]; rewrite ?length_take; simpl in *; lia.
Qed.

(** Text after which a literal ends. *)
Definition delimiter (rest : bytes) : Prop :=
  match rest with [] => True | a :: _ => is_digit a = false ∧ one_of ".eE" a = false end.

Lemma one_of_iff chars a : one_of chars a = true ↔ a ∈ to_bytes chars.
Proof. unfold one_of. by rewrite bool_decide_eq_true. Qed.

Lemma delimiter_not chars a l : delimiter (a :: l) → (∀ b, b ∈ to_bytes chars → b ∈ to_bytes ".eE") → one_of chars a = false.
Proof.
  intros [_ H] Hsub. destruct (one_of chars a) eqn:E; [|done].
  apply one_of_iff, Hsub, one_of_iff in E. congruence.
Qed.

Lemma digits_rest l rest : delimiter rest → digits (l ++ rest) = ((digits l).1, (digits l).2 ++ rest).
Proof.
  intros Hr. induction l as [|a l IH]; cbn [app digits].
  - destruct rest as [|a rest]; [done|]. cbn [digits]. destruct Hr as [-> _]. done.
  - destruct (is_digit a); [|done]. rewrite IH. by destruct (digits l).
Qed.

Lemma digits1_rest l d r rest : delimiter rest → digits1 l = Some (d, r) → digits1 (l ++ rest) = Some (d, r ++ rest).
Proof.
  intros Hr. unfold digits1. rewrite digits_rest by done. destruct (digits l) as [[|x d'] r']; [done|].
  cbn. intros [= <- <-]. done.
Qed.

Lemma whole_rest l d r rest : delimiter rest → whole_text l = Some (d, r) → whole_text (l ++ rest) = Some (d, r ++ rest).
Proof.
  intros Hr. destruct l as [|a l]; [done|]. cbn [whole_text app]. destruct (one_of _ a).
  - intros [= <- <-]. done.
  - by apply (digits1_rest (a :: l)).
Qed.

Lemma fraction_rest l d r rest : delimiter rest → fraction_part l = Some (d, r) → fraction_part (l ++ rest) = Some (d, r ++ rest).
Proof.
  intros Hr. destruct l as [|a l]; cbn [fraction_part app].
  - intros [= <- <-]. destruct rest as [|a rest]; [done|]. cbn [fraction_part].
    rewrite (delimiter_not "." a rest); [done..|]. vm_compute. set_solver.
  - destruct (one_of _ a); [|intros [= <- <-]; done].
    destruct (digits1 l) as [[d' r']|] eqn:E; [|done]. rewrite (digits1_rest _ _ _ _ Hr E).
    intros [= <- <-]. done.
Qed.

Lemma exponent_rest l d r rest : delimiter rest → exponent_part l = Some (d, r) → exponent_part (l ++ rest) = Some (d, r ++ rest).
Proof.
  intros Hr. destruct l as [|a l]; cbn [exponent_part app].
  - intros [= <- <-]. destruct rest as [|a rest]; [done|]. cbn [exponent_part].
    rewrite (delimiter_not "eE" a rest); [done..|]. vm_compute. set_solver.
  - destruct (one_of _ a); [|intros [= <- <-]; done]. destruct l as [|b l]; [done|]. cbn [app].
    destruct (one_of _ b).
    + destruct (digits1 l) as [[d' r']|] eqn:E; [|done]. rewrite (digits1_rest _ _ _ _ Hr E).
      intros [= <- <-]. done.
    + destruct (digits1 (b :: l)) as [[d' r']|] eqn:E; [|done].
      rewrite app_comm_cons, (digits1_rest _ _ _ _ Hr E). intros [= <- <-]. done.
Qed.

Lemma number_rest l d r rest : delimiter rest → number_text l = Some (d, r) → number_text (l ++ rest) = Some (d, r ++ rest).
Proof.
  intros Hr. unfold number_text. destruct l as [|a l]; [done|]. cbn [app]. destruct (one_of "-" a).
  - destruct (whole_text l) as [[w l1]|] eqn:E1; [|done]. rewrite (whole_rest _ _ _ _ Hr E1). cbn.
    destruct (fraction_part l1) as [[f l2]|] eqn:E2; [|done]. rewrite (fraction_rest _ _ _ _ Hr E2). cbn.
    destruct (exponent_part l2) as [[e l3]|] eqn:E3; [|done]. rewrite (exponent_rest _ _ _ _ Hr E3). cbn.
    intros [= <- <-]. done.
  - destruct (whole_text (a :: l)) as [[w l1]|] eqn:E1; [|done].
    rewrite app_comm_cons, (whole_rest _ _ _ _ Hr E1). cbn.
    destruct (fraction_part l1) as [[f l2]|] eqn:E2; [|done]. rewrite (fraction_rest _ _ _ _ Hr E2). cbn.
    destruct (exponent_part l2) as [[e l3]|] eqn:E3; [|done]. rewrite (exponent_rest _ _ _ _ Hr E3). cbn.
    intros [= <- <-]. done.
Qed.

(** What holds of all 256 bytes holds. *)
Lemma every_byte (P : ascii → Prop) : Forall P (ascii_of_nat <$> seq 0 256) → ∀ a, P a.
Proof.
  rewrite Forall_forall. intros H a. rewrite <- (ascii_nat_embedding a). apply H, list_elem_of_fmap_2, elem_of_seq.
  pose proof (nat_ascii_bounded a). lia.
Qed.

Definition literal_start : string := "-0123456789".

Lemma is_digit_start a : is_digit a = true → a ∈ to_bytes literal_start.
Proof.
  revert a. refine (every_byte _ _). by_evaluation.
Qed.

Lemma number_start a l d r : number_text (a :: l) = Some (d, r) → a ∈ to_bytes literal_start.
Proof.
  unfold number_text. destruct (one_of "-" a) eqn:E.
  - intros _. apply one_of_iff in E. vm_compute in *. set_solver.
  - cbn [whole_text]. destruct (one_of "0" a) eqn:E0.
    + intros _. apply one_of_iff in E0. vm_compute in *. set_solver.
    + unfold digits1. cbn [digits]. destruct (is_digit a) eqn:Ed; [|done]. intros _. by apply is_digit_start.
Qed.

(** The bytes a written value starts with. *)
Definition value_start (a : ascii) : bool := one_of "{[tfn-0123456789" a || bool_decide (a = quote_byte).

Lemma value_start_spec a : value_start a = true →
  json_space a = false ∧ one_of "]" a = false ∧ one_of "}" a = false.
Proof.
  revert a. refine (every_byte _ _). by_evaluation.
Qed.

Lemma number_start_tests a : a ∈ to_bytes literal_start →
  value_start a = true ∧ one_of "{" a = false ∧ one_of "[" a = false ∧ bool_decide (a = quote_byte) = false ∧
  one_of "t" a = false ∧ one_of "f" a = false ∧ one_of "n" a = false.
Proof.
  assert (Hf : Forall (λ a, value_start a = true ∧ one_of "{" a = false ∧ one_of "[" a = false ∧
    bool_decide (a = quote_byte) = false ∧ one_of "t" a = false ∧ one_of "f" a = false ∧ one_of "n" a = false)
    (to_bytes literal_start)) by by_evaluation.
  rewrite Forall_forall in Hf. apply Hf.
Qed.

Lemma literal_ok_spec s : literal_ok s = true → number_text (to_bytes s) = Some (to_bytes s, []).
Proof. apply bool_decide_eq_true. Qed.

Lemma print_start v : document_ok v = true → ∃ a t, json_print v = a :: t ∧ value_start a = true.
Proof.
  destruct v as [|[]|s|s|l|m]; cbn [json_print document_ok]; intros Hok.
  1-3, 5-7: by eexists _, _.
  apply literal_ok_spec in Hok. destruct (to_bytes s) as [|a l] eqn:E; [done|].
  exists a, l. split; [done|]. by apply number_start, number_start_tests in Hok as [? _].
Qed.

Lemma skip_start a l : value_start a = true → skip_space (a :: l) = a :: l.
Proof. intros [E _]%value_start_spec. cbn. by rewrite E. Qed.

Section reading.
(** A document that reads back in front of any delimiter. *)
Definition reads (v : document) : Prop := ∀ n d rest,
  document_ok v = true → delimiter rest → (document_depth v <= d)%N →
  2 * length (json_print v ++ rest) + 1 <= n → value n d (json_print v ++ rest) = Some (v, rest).

Lemma delimiter_byte c rest : one_of ",]}" c = true → delimiter (c :: rest).
Proof.
  rewrite one_of_iff. assert (Hf : Forall (λ c, is_digit c = false ∧ one_of ".eE" c = false) (to_bytes ",]}")) by by_evaluation.
  rewrite Forall_forall in Hf. apply Hf.
Qed.

Lemma elements_read v l n d rest : Forall reads (v :: l) → forallb document_ok (v :: l) = true →
  (foldr (λ x d, N.max (document_depth x) d) 0 (v :: l) <= d)%N →
  2 * length (comma (json_print <$> v :: l) ++ "]"%char :: rest) + 2 <= n →
  elements n d (comma (json_print <$> v :: l) ++ "]"%char :: rest) = Some (v :: l, rest).
Proof.
  revert v n. induction l as [|x l IH]; intros v n Hr Hok Hd Hn; apply Forall_cons in Hr as [Hv Hr];
    cbn [forallb] in Hok; apply andb_true_iff in Hok as [Hok Hoks]; cbn [foldr] in Hd.
  - cbn [fmap list_fmap comma] in *. destruct n as [|n]; [lia|]. cbn [elements].
    rewrite (Hv n d); [done|done|by apply delimiter_byte|lia|lia].
  - change (comma (json_print <$> v :: x :: l))
      with (json_print v ++ to_bytes "," ++ comma (json_print <$> x :: l)) in *.
    rewrite <- !(assoc_L (++)) in *. change (to_bytes "," ++ ?t) with (","%char :: t) in *.
    rewrite length_app in Hn. cbn [length] in Hn. destruct n as [|n]; [lia|]. cbn [elements].
    rewrite (Hv n d); [|done|by apply delimiter_byte|lia|rewrite length_app; cbn [length]; lia].
    cbn [mbind option_bind skip_space]. change (json_space ",") with false. cbv iota.
    change (one_of "," ",") with true. cbv iota. rewrite IH; [done|done|exact Hoks|exact (N.le_trans _ _ _ (N.le_max_r _ _) Hd)|].
    lia.
Qed.

Definition member_text (p : string * document) : bytes := json_string p.1 ++ to_bytes ":" ++ json_print p.2.

Lemma member_read p n d c rest : reads p.2 → valid_utf8 p.1 && document_ok p.2 = true →
  one_of ",]}" c = true → (document_depth p.2 <= d)%N →
  2 * length (member_text p ++ c :: rest) <= n →
  ∃ body l1, member_text p ++ c :: rest = quote_byte :: body ∧ string_text body = Some (p.1, ":"%char :: l1) ∧
    value n d l1 = Some (p.2, c :: rest).
Proof.
  intros Hp [Hk Hok]%andb_true_iff Hc Hd Hn. unfold member_text in *. rewrite <- !(assoc_L (++)) in *.
  destruct (string_written p.1 (to_bytes ":" ++ json_print p.2 ++ c :: rest) Hk) as (body & E1 & E2).
  exists body, (json_print p.2 ++ c :: rest). split_and!; [done|done|].
  apply Hp; [done|by apply delimiter_byte|done|]. rewrite E1 in Hn. apply string_text_length in E2.
  cbn [length] in Hn. change (length (to_bytes ":" ++ ?t)) with (S (length t)) in E2. lia.
Qed.

Lemma members_read p m n d rest : Forall (λ p, reads p.2) (p :: m) →
  forallb (λ p, valid_utf8 p.1 && document_ok p.2) (p :: m) = true →
  (foldr (λ p d, N.max (document_depth p.2) d) 0 (p :: m) <= d)%N →
  2 * length (comma (member_text <$> p :: m) ++ "}"%char :: rest) + 1 <= n →
  members n d (comma (member_text <$> p :: m) ++ "}"%char :: rest) = Some (p :: m, rest).
Proof.
  revert p n. induction m as [|x m IH]; intros p n Hr Hok Hd Hn; apply Forall_cons in Hr as [Hp Hr];
    cbn [forallb] in Hok; apply andb_true_iff in Hok as [Hok Hoks]; cbn [foldr] in Hd.
  - cbn [fmap list_fmap comma] in *. destruct n as [|n]; [lia|].
    destruct (member_read p n d "}" rest) as (body & l1 & E & E1 & E2); [done..|lia|lia|].
    rewrite E. cbn [members]. change (skip_space (quote_byte :: body)) with (quote_byte :: body). cbv iota.
    rewrite bool_decide_eq_true_2 by done. rewrite E1. cbn [mbind option_bind].
    change (strip_prefix (to_bytes ":") (skip_space (":"%char :: l1))) with (Some l1). cbn [mbind option_bind].
    rewrite E2. cbn. by destruct p.
  - change (comma (member_text <$> p :: x :: m))
      with (member_text p ++ to_bytes "," ++ comma (member_text <$> x :: m)) in *.
    rewrite <- !(assoc_L (++)) in *. change (to_bytes "," ++ ?t) with (","%char :: t) in *.
    destruct n as [|n]; [lia|].
    destruct (member_read p n d "," (comma (member_text <$> x :: m) ++ "}"%char :: rest)) as (body & l1 & E & E1 & E2);
      [done..|lia|lia|].
    rewrite E. cbn [members]. change (skip_space (quote_byte :: body)) with (quote_byte :: body). cbv iota.
    rewrite bool_decide_eq_true_2 by done. rewrite E1. cbn [mbind option_bind].
    change (strip_prefix (to_bytes ":") (skip_space (":"%char :: l1))) with (Some l1). cbn [mbind option_bind].
    rewrite E2. cbn [mbind option_bind skip_space]. change (json_space ",") with false. cbv iota.
    change (one_of "," ",") with true. cbv iota. rewrite length_app in Hn. cbn [length] in Hn.
    rewrite IH; [by destruct p|done|exact Hoks|exact (N.le_trans _ _ _ (N.le_max_r _ _) Hd)|lia].
Qed.
End reading.

Lemma reads_all v : reads v.
Proof.
  induction v as [|b|s|s|l IH|m IH] using any_rect'; intros n d rest Hok Hr Hd Hn;
    (destruct n as [|n]; [lia|]).
  - done.
  - by destruct b.
  - cbn [document_ok] in Hok. apply literal_ok_spec in Hok. cbn [json_print] in *.
    pose proof (number_rest _ _ _ _ Hr Hok) as Hnum. cbn [app] in Hnum.
    destruct (to_bytes s) as [|a t] eqn:E; [done|]. apply number_start, number_start_tests in Hok.
    destruct Hok as (Hs & H1 & H2 & H3 & H4 & H5 & H6). cbn [app value] in *.
    rewrite skip_start, H1, H2, H3, H4, H5, H6, Hnum by done. cbn [mbind option_bind]. by rewrite <- E, of_to_bytes.
  - cbn [document_ok] in Hok. cbn [json_print]. destruct (string_written s rest Hok) as (body & -> & E).
    cbn [value]. change (skip_space (quote_byte :: body)) with (quote_byte :: body).
    change (one_of "{" quote_byte) with false. change (one_of "[" quote_byte) with false.
    cbv iota. rewrite bool_decide_eq_true_2 by done. by rewrite E.
  - cbn [json_print document_depth] in *. rewrite <- !(assoc_L (++)) in *.
    change (to_bytes "[" ++ ?t) with ("["%char :: t) in *. change (to_bytes "]" ++ ?t) with ("]"%char :: t) in *.
    cbn [value]. change (skip_space ("["%char :: ?t)) with ("["%char :: t).
    change (one_of "{" "[") with false. change (one_of "[" "[") with true. cbv iota.
    rewrite (proj2 (N.eqb_neq d 0)) by lia. destruct l as [|v l]; [done|].
    assert (Hv : document_ok v = true) by (cbn [document_ok forallb] in Hok; by apply andb_true_iff in Hok as [? _]).
    destruct (print_start v Hv) as (a & t & Ea & Hs).
    assert (Hc : ∃ t', comma (json_print <$> v :: l) ++ "]"%char :: rest = a :: t').
    { destruct l; cbn [fmap list_fmap comma]; rewrite Ea; by eexists. }
    pose proof (elements_read v l n (d - 1) rest IH Hok) as He. destruct Hc as [t' Ht']. rewrite Ht' in *.
    cbn [length] in Hn. rewrite skip_start by done. destruct (value_start_spec a Hs) as (_ & -> & _).
    rewrite He; [done| |cbn [length]; lia]. cbn [document_depth] in Hd. lia.
  - cbn [json_print document_depth] in *. rewrite <- !(assoc_L (++)) in *.
    change (to_bytes "{" ++ ?t) with ("{"%char :: t) in *. change (to_bytes "}" ++ ?t) with ("}"%char :: t) in *.
    cbn [value]. change (skip_space ("{"%char :: ?t)) with ("{"%char :: t).
    change (one_of "{" "{") with true. cbv iota.
    rewrite (proj2 (N.eqb_neq d 0)) by lia. destruct m as [|p m]; [done|].
    change (λ p : string * document, json_string p.1 ++ to_bytes ":" ++ json_print p.2) with member_text in *.
    assert (Hc : ∃ t', comma (member_text <$> p :: m) ++ "}"%char :: rest = quote_byte :: t').
    { destruct m; cbn [fmap list_fmap comma]; by eexists. }
    pose proof (members_read p m n (d - 1) rest IH Hok) as He. destruct Hc as [t' Ht']. rewrite Ht' in *.
    cbn [length] in Hn. change (skip_space (quote_byte :: t')) with (quote_byte :: t').
    change (one_of "}" quote_byte) with false. cbv iota. rewrite He; [done|lia|cbn [length]; lia].
Qed.

(** What [json.Marshal] writes of a document with valid texts is read back by
    [json.Unmarshal] as the same document. *)
Theorem json_roundtrip v :
  document_ok v = true → (document_depth v <= maxNestingDepth)%N →
  json_parse (of_bytes (json_print v)) = Some v.
Proof.
  intros Hok Hd. unfold json_parse. rewrite to_of_bytes.
  pose proof (reads_all v (enough (json_print v)) maxNestingDepth []) as Hr. rewrite app_nil_r in Hr.
  rewrite Hr; [done|done|done|done|]. unfold enough. lia.
Qed.

Lemma json_roundtrip_witness :
  let v := AObj [("a<b", AArr [ANum "-1.5e3"; ANil; ABool true; AStr "x\y"]); ("", AObj [])] in
  json_parse (of_bytes (json_print v)) = Some v.
Proof. apply json_roundtrip; by vm_compute. Defined.

(** Texts outside the grammar, and what only the stream accepts. *)
Example parse_examples :
  json_parse " [1, 2.50 ] " = Some (AArr [ANum "1"; ANum "2.50"]) ∧
  json_parse "[01]" = None ∧ json_parse "[1,]" = None ∧ json_parse "nul" = None ∧ json_parse "" = None ∧
  json_parse "[1] x" = None ∧ json_first "[1] x" = Some (AArr [ANum "1"]).
Proof. by vm_compute. Qed.
