(* ===== verification/Codec.v ===== *)
(** * Padded base64 and times as text

    [base64.URLEncoding] with its padding, and [time.Time.Format] for RFC 3339
    with and without the fraction of a second: what they write is read back by
    [DecodeString] and [time.Parse]. *)

From S2P Require Import Prelude GoStrings Encoding GoNet GoFloat Json GoParse Document JsonText.

#[local] Open Scope string_scope.
#[local] Open Scope list_scope.
#[local] Open Scope nat_scope.

(** ** [base64.URLEncoding] *)

Fixpoint base64_encode (l : bytes) : bytes :=
  match l with
  | a :: b :: c :: l' =>
      (sextet (code a * 65536 + code b * 256 + code c) <$> seq 0 4) ++ base64_encode l'
  | [a; b] => (sextet (code a * 65536 + code b * 256) <$> seq 0 3) ++ to_bytes "="
  | [a] => (sextet (code a * 65536) <$> seq 0 2) ++ to_bytes "=="
  | [] => []
  end%N.

(** [EncodeToString]. *)
Definition base64_text (l : bytes) : string := of_bytes (base64_encode l).

Definition url_value (a : ascii) : option N :=
  (let c := code a in
   if in_range 65 c 90 then Some (c - 65)
   else if in_range 97 c 122 then Some (c - 71)
   else if in_range 48 c 57 then Some (c + 4)
   else if c =? 45 then Some 62
   else if c =? 95 then Some 63
   else None)%N.

(** The three bytes of four sextets. *)
Definition group (x y z w : N) : bytes :=
  (let v := ((x * 64 + y) * 64 + z) * 64 + w in
   [ascii_of_N (v / 65536); ascii_of_N (v / 256 mod 256); ascii_of_N (v mod 256)])%N.

Fixpoint decode_groups (l : bytes) : option bytes :=
  match l with
  | [] => Some []
  | a :: b :: c :: d :: l' =>
      x ← url_value a; y ← url_value b;
      if one_of "=" c then
        if one_of "=" d && bool_decide (l' = []) then Some (take 1 (group x y 0 0)) else None
      else
        z ← url_value c;
        if one_of "=" d then if bool_decide (l' = []) then Some (take 2 (group x y z 0)) else None
        else w ← url_value d; rest ← decode_groups l'; Some (group x y z w ++ rest)
  | _ => None
  end.

(** [DecodeString]: line ends are skipped, bits past the last byte ignored. *)
Definition base64_bytes (s : string) : option bytes :=
  decode_groups (filter (λ a, (code a ≠ 10 ∧ code a ≠ 13)%N) (to_bytes s)).

Lemma url_value_digit n : (n < 64)%N → url_value (url_digit n) = Some n ∧ one_of "=" (url_digit n) = false.
Proof.
  intros Hn. assert (Hf : Forall (λ n, url_value (url_digit (N.of_nat n)) = Some (N.of_nat n) ∧
    one_of "=" (url_digit (N.of_nat n)) = false) (seq 0 64)) by by_evaluation.
  rewrite Forall_forall in Hf. rewrite <- (N2Nat.id n). apply Hf, elem_of_seq. lia.
Qed.

Definition sextet_of (x : N) (i : nat) : N := (x / 2 ^ (18 - 6 * N.of_nat i) mod 64)%N.

Lemma sextet_value x i : url_value (sextet x i) = Some (sextet_of x i) ∧ one_of "=" (sextet x i) = false.
Proof.
  unfold sextet, sextet_of. change 63%N with (N.ones 6). rewrite N.land_ones, N.shiftr_div_pow2.
  apply url_value_digit, N.mod_lt. done.
Qed.

Lemma code_bound a : (code a < 256)%N.
Proof. apply N_ascii_bounded. Qed.

Lemma group_sextets a b c :
  let x := (code a * 65536 + code b * 256 + code c)%N in
  group (sextet_of x 0) (sextet_of x 1) (sextet_of x 2) (sextet_of x 3) = [a; b; c].
Proof.
  intros x. pose proof (code_bound a). pose proof (code_bound b). pose proof (code_bound c). unfold group.
  assert (Hx : ((((sextet_of x 0 * 64 + sextet_of x 1) * 64 + sextet_of x 2) * 64 + sextet_of x 3) = x)%N).
  { unfold sextet_of. change (2 ^ (18 - 6 * N.of_nat 0))%N with 262144%N. change (2 ^ (18 - 6 * N.of_nat 1))%N with 4096%N.
    change (2 ^ (18 - 6 * N.of_nat 2))%N with 64%N. change (2 ^ (18 - 6 * N.of_nat 3))%N with 1%N.
    rewrite N.div_1_r.
    assert (x < 16777216)%N by (subst x; lia).
    assert ((x / 262144 < 64)%N) by (apply N.Div0.div_lt_upper_bound; lia).
    rewrite (N.mod_small (x / 262144)) by done.
    pose proof (N.div_mod x 64 ltac:(done)). pose proof (N.div_mod (x / 64) 64 ltac:(done)) as Hd1.
    pose proof (N.div_mod (x / 4096) 64 ltac:(done)) as Hd2.
    rewrite N.Div0.div_div in Hd1, Hd2. change (64 * 64)%N with 4096%N in *. change (4096 * 64)%N with 262144%N in *. lia. }
  rewrite Hx.
  assert ((x / 65536 = code a)%N) as -> by (symmetry; apply (N.div_unique _ _ _ (code b * 256 + code c)); subst x; lia).
  assert ((x / 256 = code a * 256 + code b)%N) as -> by (symmetry; apply (N.div_unique _ _ _ (code c)); subst x; lia).
  assert (((code a * 256 + code b) mod 256 = code b)%N) as -> by (symmetry; apply (N.mod_unique _ _ (code a)); lia).
  assert ((x mod 256 = code c)%N) as -> by (symmetry; apply (N.mod_unique _ _ (code a * 256 + code b)); subst x; lia).
  by rewrite !code_ascii.
Qed.

Lemma decode_encode l : decode_groups (base64_encode l) = Some l.
Proof.
  induction l as [l IH] using (induction_ltof1 _ (@length ascii)). unfold ltof in IH.
  assert (Hz : ∀ x, (x mod 64 = 0)%N → sextet_of x 3 = 0%N).
  { intros x Hx. unfold sextet_of. change (2 ^ (18 - 6 * N.of_nat 3))%N with 1%N. by rewrite N.div_1_r. }
  destruct l as [|a [|b [|c l]]]; [done| | |].
  - cbn [base64_encode fmap list_fmap seq app to_bytes decode_groups String.list_ascii_of_string].
    rewrite !(proj1 (sextet_value _ _)). cbn [mbind option_bind].
    change (one_of "=" "=") with true. cbn [andb bool_decide decide].
    pose proof (group_sextets a zero zero) as Hg. cbv zeta in Hg. change (code zero) with 0%N in Hg.
    rewrite N.mul_0_l, !N.add_0_r in Hg.
    assert (sextet_of (code a * 65536) 2 = 0%N) as H2.
    { unfold sextet_of. change (2 ^ (18 - 6 * N.of_nat 2))%N with 64%N.
      replace (code a * 65536)%N with (code a * 16 * 64 * 64)%N by lia. rewrite N.div_mul, N.Div0.mod_mul by done. done. }
    rewrite H2, Hz in Hg by (replace (code a * 65536)%N with (code a * 1024 * 64)%N by lia; by rewrite N.Div0.mod_mul).
    rewrite bool_decide_eq_true_2 by done. by rewrite Hg.
  - cbn [base64_encode fmap list_fmap seq app to_bytes decode_groups String.list_ascii_of_string].
    rewrite !(proj1 (sextet_value _ _)), (proj2 (sextet_value _ _)). cbn [mbind option_bind].
    change (one_of "=" "=") with true. cbv iota. rewrite bool_decide_eq_true_2 by done.
    pose proof (group_sextets a b zero) as Hg. cbv zeta in Hg. change (code zero) with 0%N in Hg. rewrite N.add_0_r in Hg.
    rewrite (Hz (code a * 65536 + code b * 256)%N) in Hg
      by (replace (code a * 65536 + code b * 256)%N with ((code a * 1024 + code b * 4) * 64)%N by lia; by rewrite N.Div0.mod_mul).
    by rewrite Hg.
  - cbn [base64_encode fmap list_fmap seq app decode_groups].
    rewrite !(proj1 (sextet_value _ _)), !(proj2 (sextet_value _ _)). cbn [mbind option_bind].
    rewrite IH by (cbn; lia). cbn [mbind option_bind]. by rewrite group_sextets.
Qed.

Lemma base64_encode_plain l a : a ∈ base64_encode l → (code a ≠ 10 ∧ code a ≠ 13)%N.
Proof.
  assert (Hs : ∀ x i, (code (sextet x i) ≠ 10 ∧ code (sextet x i) ≠ 13)%N).
  { intros x i. pose proof (sextet_char x i) as Hc. split; intros E; unfold url_char in Hc; rewrite E in Hc; done. }
  assert (Hm : ∀ x (k : list nat), a ∈ sextet x <$> k → (code a ≠ 10 ∧ code a ≠ 13)%N).
  { intros x k (i & -> & _)%list_elem_of_fmap. apply Hs. }
  induction l as [l IH] using (induction_ltof1 _ (@length ascii)). unfold ltof in IH.
  destruct l as [|b [|c [|d l]]]; cbn [base64_encode]; rewrite ?elem_of_app.
  - intros []%elem_of_nil.
  - intros [?|Ha]; [by eapply Hm|]. vm_compute in Ha. set_solver.
  - intros [?|Ha]; [by eapply Hm|]. vm_compute in Ha. set_solver.
  - intros [?|Ha]; [by eapply Hm|]. apply (IH l); [cbn; lia|done].
Qed.

Lemma filter_everything {A} (P : A → Prop) `{∀ x, Decision (P x)} l : Forall P l → filter P l = l.
Proof. induction 1 as [|x l Hx Hl IH]; [done|]. by rewrite filter_cons_True, IH. Qed.

(** What is encoded decodes to itself. *)
Lemma base64_roundtrip l : base64_bytes (base64_text l) = Some l.
Proof.
  unfold base64_bytes, base64_text. rewrite to_of_bytes, filter_everything; [apply decode_encode|].
  apply Forall_forall, base64_encode_plain.
Qed.

(** ** Dates *)

(** The year, month and day of a number of days since 1970-01-01. Cycles of 400,
    100 and 4 years and single years are cut off; the years start in March. *)
Definition civil_from_days (days : Z) : Z * Z * Z :=
  (let z := days + 719468 in
   let era := z / 146097 in
   let doe := z mod 146097 in
   let c100 := Z.min 3 (doe / 36524) in
   let r1 := doe - 36524 * c100 in
   let c4 := r1 / 1461 in
   let r2 := r1 - 1461 * c4 in
   let c1 := Z.min 3 (r2 / 365) in
   let doy := r2 - 365 * c1 in
   let y := 400 * era + 100 * c100 + 4 * c4 + c1 in
   let mp := (5 * doy + 2) / 153 in
   let day := doy - (153 * mp + 2) / 5 + 1 in
   let month := if mp <? 10 then mp + 3 else mp - 9 in
   (if month <=? 2 then y + 1 else y, month, day))%Z.

(** The parts of a date. *)
Lemma civil_parts days : ∃ era c100 c4 c1 doy,
  (0 <= c100 <= 3 ∧ 0 <= c4 <= 24 ∧ 0 <= c1 <= 3 ∧ 0 <= doy <= 365 ∧
   (doy = 365 → c1 = 3 ∧ (c4 <> 24 ∨ c100 = 3)) ∧
   days + 719468 = era * 146097 + 36524 * c100 + 1461 * c4 + 365 * c1 + doy ∧
   civil_from_days days =
     (let y := 400 * era + 100 * c100 + 4 * c4 + c1 in
      let mp := (5 * doy + 2) / 153 in
      let month := if mp <? 10 then mp + 3 else mp - 9 in
      (if month <=? 2 then y + 1 else y, month, doy - (153 * mp + 2) / 5 + 1)))%Z.
Proof.
  unfold civil_from_days. set (z := (days + 719468)%Z).
  pose proof (Z.div_mod z 146097 ltac:(done)) as Hz. pose proof (Z.mod_pos_bound z 146097 ltac:(done)) as Hd.
  set (doe := (z mod 146097)%Z) in *.
  exists (z / 146097)%Z, (Z.min 3 (doe / 36524)). set (c100 := Z.min 3 (doe / 36524)).
  assert (Hc : (0 <= c100 <= 3 ∧ 0 <= doe - 36524 * c100 <= 36524 ∧ (c100 <> 3 → doe - 36524 * c100 < 36524))%Z)
    by (subst c100; Z.div_mod_to_equations; lia).
  set (r1 := (doe - 36524 * c100)%Z) in *. exists (r1 / 1461)%Z.
  assert (H4 : (0 <= r1 / 1461 <= 24 ∧ 0 <= r1 - 1461 * (r1 / 1461) <= 1460)%Z) by (Z.div_mod_to_equations; lia).
  set (c4 := (r1 / 1461)%Z) in *. set (r2 := (r1 - 1461 * c4)%Z) in *. exists (Z.min 3 (r2 / 365)).
  assert (H1 : (0 <= Z.min 3 (r2 / 365) <= 3 ∧ 0 <= r2 - 365 * Z.min 3 (r2 / 365) <= 365 ∧
    (r2 - 365 * Z.min 3 (r2 / 365) = 365 → Z.min 3 (r2 / 365) = 3))%Z) by (Z.div_mod_to_equations; lia).
  set (c1 := Z.min 3 (r2 / 365)) in *. exists (r2 - 365 * c1)%Z.
  split_and!; [lia..| | |done].
  - intros E. split; [by apply H1|]. lia.
  - subst r2 r1. lia.
Qed.

Lemma days_from_civil_parts era c100 c4 c1 y month day :
  (0 <= c100 <= 3 → 0 <= c4 <= 24 → 0 <= c1 <= 3 → y = 400 * era + 100 * c100 + 4 * c4 + c1 →
   days_from_civil (if month <=? 2 then y + 1 else y) month day
   = era * 146097 + 36524 * c100 + 1461 * c4 + 365 * c1
     + ((153 * (if 2 <? month then month - 3 else month + 9) + 2) / 5 + day - 1) - 719468)%Z.
Proof.
  intros H100 H4 H1 ->. unfold days_from_civil.
  set (y := (400 * era + 100 * c100 + 4 * c4 + c1)%Z).
  assert ((if month <=? 2 then (if month <=? 2 then y + 1 else y) - 1 else (if month <=? 2 then y + 1 else y))%Z = y) as ->
    by (destruct (month <=? 2)%Z; lia).
  assert ((y / 400 = era)%Z) as -> by (symmetry; apply (Z.div_unique _ _ _ (100 * c100 + 4 * c4 + c1)); subst y; lia).
  replace (y - era * 400)%Z with (100 * c100 + 4 * c4 + c1)%Z by (subst y; lia).
  assert (((100 * c100 + 4 * c4 + c1) / 4 = 25 * c100 + c4)%Z) as -> by (symmetry; apply (Z.div_unique _ _ _ c1); lia).
  assert (((100 * c100 + 4 * c4 + c1) / 100 = c100)%Z) as -> by (symmetry; apply (Z.div_unique _ _ _ (4 * c4 + c1)); lia).
  lia.
Qed.

Lemma leap_cycle era c100 c4 y :
  (y = 400 * era + 100 * c100 + 4 * c4 + 4 → 0 <= c100 <= 3 → 0 <= c4 <= 24 → c4 <> 24 ∨ c100 = 3 →
   leap_year y = true)%Z.
Proof.
  intros -> H100 H4 Hc. unfold leap_year.
  rewrite (proj2 (Z.eqb_eq _ _)) by (Z.div_mod_to_equations; lia). cbn [andb].
  destruct (decide (c4 = 24%Z)) as [->|Hne].
  - destruct Hc as [?| ->]; [done|]. rewrite (proj2 (Z.eqb_eq (_ mod 400) 0)) by (Z.div_mod_to_equations; lia).
    apply orb_true_r.
  - rewrite <- (Z.mod_unique _ 100 (4 * era + c100) (4 * c4 + 4)) by lia.
    rewrite (proj2 (Z.eqb_neq _ 0)) by lia. done.
Qed.

(** The date is one of the calendar, and is the one of the day. *)
Lemma civil_correct days :
  let '(year, month, day) := civil_from_days days in
  (days_from_civil year month day = days ∧ 1 <= month <= 12 ∧ 1 <= day <= days_in month year)%Z.
Proof.
  destruct (civil_parts days) as (era & c100 & c4 & c1 & doy & H100 & H4 & H1 & Hdoy & Hleap & Hdays & ->).
  cbv zeta. set (y := (400 * era + 100 * c100 + 4 * c4 + c1)%Z).
  assert (Hmp : (0 <= (5 * doy + 2) / 153 <= 11)%Z) by (Z.div_mod_to_equations; lia).
  pose proof (Z.div_mod (5 * doy + 2) 153 ltac:(done)) as Hdm.
  pose proof (Z.mod_pos_bound (5 * doy + 2) 153 ltac:(done)).
  set (mp := ((5 * doy + 2) / 153)%Z) in *.
  split; [rewrite (days_from_civil_parts era c100 c4 c1 y) by done|].
  - assert ((if 2 <? (if mp <? 10 then mp + 3 else mp - 9) then (if mp <? 10 then mp + 3 else mp - 9) - 3
      else (if mp <? 10 then mp + 3 else mp - 9) + 9)%Z = mp) as ->.
    { destruct (mp <? 10)%Z eqn:E; reflect_bools.
      - rewrite (proj2 (Z.ltb_lt _ _)) by lia. lia.
      - rewrite (proj2 (Z.ltb_ge _ _)) by lia. lia. }
    lia.
  - assert (Hcases : (mp = 0 ∨ mp = 1 ∨ mp = 2 ∨ mp = 3 ∨ mp = 4 ∨ mp = 5 ∨ mp = 6 ∨ mp = 7 ∨ mp = 8 ∨ mp = 9 ∨ mp = 10 ∨ mp = 11)%Z) by lia.
    clearbody mp. repeat destruct Hcases as [->|Hcases]; [..|subst mp];
      match goal with |- context [days_in (if (?a <? 10)%Z then _ else _) _] =>
        let m := eval vm_compute in (if (a <? 10)%Z then (a + 3)%Z else (a - 9)%Z) in
        change (if (a <? 10)%Z then (a + 3)%Z else (a - 9)%Z) with m end;
      try (match goal with |- context [days_in ?m _] =>
        let d := eval vm_compute in (days_in m 1) in change (days_in m _) with d end;
        match goal with |- context [((153 * ?a + 2) / 5)%Z] =>
          let v := eval vm_compute in ((153 * a + 2) / 5)%Z in change ((153 * a + 2) / 5)%Z with v end; lia).
    change (if (2 <=? 2)%Z then (y + 1)%Z else y) with (y + 1)%Z. change ((153 * 11 + 2) / 5)%Z with 337%Z.
    change (days_in 2 (y + 1)) with (if leap_year (y + 1) then 29 else 28)%Z.
    destruct (Z.eq_dec doy 365) as [->|]; [|destruct (leap_year _); lia].
    rewrite (leap_cycle era c100 c4 (y + 1)); [lia|subst y; destruct (Hleap eq_refl); lia|lia..|by apply Hleap].
Qed.

(** ** [time.Time.Format] *)

Definition dec_char (d : Z) : ascii := ascii_of_N (Z.to_N (48 + d)).

(** The last [n] decimal digits. *)
Fixpoint pad (n : nat) (z : Z) : bytes :=
  match n with
  | O => []
  | S n' => pad n' (z / 10) ++ [dec_char (z mod 10)]
  end.

(** Without the zeros at the end. *)
Fixpoint strip_zeros (l : bytes) : bytes :=
  match l with
  | [] => []
  | a :: l' => match strip_zeros l' with [] => if one_of "0" a then [] else [a] | r => a :: r end
  end.

Definition fraction_written (nsec : Z) : bytes :=
  if (nsec =? 0)%Z then [] else to_bytes "." ++ strip_zeros (pad 9 nsec).

Definition zone_written (off : Z) : bytes :=
  if (off =? 0)%Z then to_bytes "Z"
  else to_bytes (if (off <? 0)%Z then "-" else "+") ++ pad 2 (Z.abs off / 3600) ++ to_bytes ":"
       ++ pad 2 (Z.abs off / 60 mod 60).

(** RFC 3339, with the fraction when [nano]; [off] is the offset of the zone in
    seconds. *)
Definition FormatRFC3339 (nano : bool) (off t : Z) : string :=
  let s := (t / second + off)%Z in
  let sod := (s mod 86400)%Z in
  let '(year, month, day) := civil_from_days (s / 86400) in
  of_bytes (pad 4 year ++ to_bytes "-" ++ pad 2 month ++ to_bytes "-" ++ pad 2 day ++ to_bytes "T"
    ++ pad 2 (sod / 3600) ++ to_bytes ":" ++ pad 2 (sod / 60 mod 60) ++ to_bytes ":" ++ pad 2 (sod mod 60)
    ++ (if nano then fraction_written (t mod second) else []) ++ zone_written off).

Lemma dec_char_spec d : (0 <= d < 10)%Z → is_digit (dec_char d) = true ∧ dec_digit (dec_char d) = d.
Proof.
  intros Hd. assert (Hf : Forall (λ n, is_digit (dec_char (Z.of_nat n)) = true ∧ dec_digit (dec_char (Z.of_nat n)) = Z.of_nat n) (seq 0 10))
    by by_evaluation.
  rewrite Forall_forall in Hf. rewrite <- (Z2Nat.id d) by lia. apply Hf, elem_of_seq. lia.
Qed.

Lemma pad_length n z : length (pad n z) = n.
Proof. revert z. induction n as [|n IH]; intros z; [done|]. cbn. rewrite length_app, IH. cbn. lia. Qed.

Lemma pad_digits n z : forallb is_digit (pad n z) = true.
Proof.
  revert z. induction n as [|n IH]; intros z; [done|]. cbn. rewrite forallb_app, IH. cbn.
  by rewrite (proj1 (dec_char_spec (z mod 10) ltac:(apply Z.mod_pos_bound; lia))).
Qed.

Lemma digits_value_snoc l a : digits_value (l ++ [a]) = (digits_value l * 10 + dec_digit a)%Z.
Proof. unfold digits_value. by rewrite foldl_snoc. Qed.

Lemma pad_value n z : (0 <= z < 10 ^ Z.of_nat n)%Z → digits_value (pad n z) = z.
Proof.
  revert z. induction n as [|n IH]; intros z Hz; [cbn in *; unfold digits_value; cbn; lia|].
  rewrite Nat2Z.inj_succ, Z.pow_succ_r in Hz by lia. cbn [pad]. rewrite digits_value_snoc, IH.
  - rewrite (proj2 (dec_char_spec (z mod 10) ltac:(apply Z.mod_pos_bound; lia))).
    pose proof (Z.div_mod z 10). lia.
  - split; [apply Z.div_pos; lia|]. apply Z.div_lt_upper_bound; lia.
Qed.

Lemma year_read y rest : (0 <= y <= 9999)%Z → year_text (pad 4 y ++ rest) = Some (y, rest).
Proof.
  intros Hy. unfold year_text. rewrite take_app_length', drop_app_length' by (symmetry; apply pad_length).
  rewrite pad_digits, pad_length, pad_value by (cbn; lia). done.
Qed.

Lemma getnum_read fixed x rest : (0 <= x < 100)%Z → getnum fixed (pad 2 x ++ rest) = Some (x, rest).
Proof.
  intros Hx. cbn [pad app]. unfold getnum.
  destruct (dec_char_spec (x / 10 mod 10)) as [-> ->]; [apply Z.mod_pos_bound; lia|].
  destruct (dec_char_spec (x mod 10)) as [-> ->]; [apply Z.mod_pos_bound; lia|].
  do 2 f_equal. Z.div_mod_to_equations. lia.
Qed.

Lemma num_below_read fixed bound x rest : (0 <= x < 100)%Z → (x < bound)%Z →
  num_below fixed bound (pad 2 x ++ rest) = Some (x, rest).
Proof.
  intros Hx Hb. unfold num_below. rewrite getnum_read by done. cbn. by rewrite (proj2 (Z.ltb_lt _ _) Hb).
Qed.

Lemma skip_read c rest : skip c (to_bytes c ++ rest) = Some rest.
Proof. unfold skip. by apply strip_prefix_Some. Qed.

(** *** Fractions *)

Lemma digits_value_cons a l : digits_value (a :: l) = (dec_digit a * 10 ^ Z.of_nat (length l) + digits_value l)%Z.
Proof.
  induction l as [|b l IH] using rev_ind; [unfold digits_value; cbn; lia|].
  rewrite app_comm_cons, !digits_value_snoc, IH, length_app, Nat2Z.inj_add. cbn [length].
  rewrite Z.pow_add_r by lia. change (10 ^ Z.of_nat 1)%Z with 10%Z. lia.
Qed.

Lemma strip_zeros_spec l : length (strip_zeros l) <= length l ∧
  digits_value l = (digits_value (strip_zeros l) * 10 ^ Z.of_nat (length l - length (strip_zeros l)))%Z.
Proof.
  induction l as [|a l [IHl IHv]]; [done|]. cbn [strip_zeros]. rewrite digits_value_cons, IHv.
  destruct (strip_zeros l) as [|b r].
  - change (digits_value []) with 0%Z. rewrite Z.mul_0_l, Z.add_0_r. destruct (one_of "0" a) eqn:E.
    + apply one_of_iff, list_elem_of_singleton in E as ->. change (dec_digit "0") with 0%Z. cbn [length]. split; [lia|done].
    + cbn [length]. split; [lia|]. rewrite digits_value_cons. change (digits_value []) with 0%Z. cbn [length].
      rewrite Z.pow_0_r, Nat.sub_succ, Nat.sub_0_r. lia.
  - cbn [length] in *. split; [lia|]. rewrite (digits_value_cons a (b :: r)). cbn [length].
    replace (S (length l) - S (S (length r))) with (length l - S (length r)) by lia.
    rewrite Z.mul_add_distr_r, <- Z.mul_assoc, <- Z.pow_add_r by lia.
    replace (Z.of_nat (S (length r)) + Z.of_nat (length l - S (length r)))%Z with (Z.of_nat (length l)) by lia. done.
Qed.

Lemma strip_zeros_digits l : forallb is_digit l = true → forallb is_digit (strip_zeros l) = true.
Proof.
  induction l as [|a l IH]; [done|]. cbn [forallb strip_zeros]. intros [Ha Hl]%andb_true_iff. specialize (IH Hl).
  destruct (strip_zeros l) as [|b r]; [destruct (one_of "0" a); [done|cbn; by rewrite Ha]|]. cbn in *. by rewrite Ha.
Qed.

Lemma digits_all l rest : forallb is_digit l = true → match rest with a :: _ => is_digit a = false | [] => True end →
  digits (l ++ rest) = (l, rest).
Proof.
  intros Hl Hr. induction l as [|a l IH]; cbn [app].
  - destruct rest as [|a rest]; [done|]. cbn [digits]. by rewrite Hr.
  - cbn [forallb digits] in *. apply andb_true_iff in Hl as [-> Hl]. by rewrite IH.
Qed.

Lemma zone_head off : ∃ a r, zone_written off = a :: r ∧ is_digit a = false ∧ one_of ".," a = false.
Proof. unfold zone_written. destruct (off =? 0)%Z; [by eexists _, _|]. destruct (off <? 0)%Z; by eexists _, _. Qed.

Lemma fraction_read nsec off : (0 <= nsec < second)%Z →
  fraction_text (fraction_written nsec ++ zone_written off) = (nsec, zone_written off).
Proof.
  intros Hn. unfold fraction_written. destruct (zone_head off) as (a & r & Ez & Ha & Hdot).
  destruct (nsec =? 0)%Z eqn:E; reflect_bools.
  { cbn [app]. rewrite Ez. cbn [fraction_text]. by rewrite Hdot, E. }
  rewrite <- (assoc_L (++)). change (to_bytes "." ++ ?t) with ("."%char :: t). cbn [fraction_text].
  change (one_of ".," ".") with true. cbv iota.
  rewrite digits_all; [|apply strip_zeros_digits, pad_digits|by rewrite Ez].
  destruct (strip_zeros_spec (pad 9 nsec)) as [Hl Hv]. rewrite pad_length in *.
  rewrite pad_value in Hv by (unfold second in *; cbn; lia).
  destruct (strip_zeros (pad 9 nsec)) as [|b ds]; [by cbn in Hv|].
  rewrite take_ge by done. f_equal. rewrite Hv. do 2 f_equal. lia.
Qed.

Lemma zone_read off : (Z.abs off < 86400)%Z → (off mod 60 = 0)%Z → zone_text (zone_written off) = Some (off, []).
Proof.
  intros Hoff H60. unfold zone_written. destruct (off =? 0)%Z eqn:E; reflect_bools; [by subst off|].
  assert (Hh : (0 <= Z.abs off / 3600 < 25)%Z) by (Z.div_mod_to_equations; lia).
  assert (Hm : (0 <= Z.abs off / 60 mod 60 < 60)%Z) by (apply Z.mod_pos_bound; lia).
  assert (Hs : ((Z.abs off / 3600 * 60 + Z.abs off / 60 mod 60) * 60 = Z.abs off)%Z).
  { destruct (Z.abs_spec off) as [[? ->]|[? ->]]; Z.div_mod_to_equations; lia. }
  rewrite <- (app_nil_r (pad 2 (Z.abs off / 60 mod 60))).
  assert (Hz : ∀ a, one_of "Z" a = false →
    zone_text (a :: pad 2 (Z.abs off / 3600) ++ to_bytes ":" ++ pad 2 (Z.abs off / 60 mod 60) ++ [])
    = if one_of "+" a then Some (Z.abs off, []) else if one_of "-" a then Some (- Z.abs off, [])%Z else None).
  { intros a Ha. cbn [zone_text]. rewrite Ha, num_below_read by lia. cbn [mbind option_bind].
    rewrite skip_read. cbn [mbind option_bind]. rewrite num_below_read by lia. cbn [mbind option_bind]. by rewrite Hs. }
  destruct (off <? 0)%Z eqn:Eo; reflect_bools.
  - change (to_bytes "-" ++ ?t) with ("-"%char :: t). rewrite Hz by done.
    change (one_of "+" "-") with false. change (one_of "-" "-") with true. cbv iota. do 2 f_equal. lia.
  - change (to_bytes "+" ++ ?t) with ("+"%char :: t). rewrite Hz by done.
    change (one_of "+" "+") with true. cbv iota. do 2 f_equal. lia.
Qed.

(** A time of the years 0 to 9999 reads back, whatever the zone. *)
Lemma rfc3339_roundtrip off t :
  (Z.abs off < 86400)%Z → (off mod 60 = 0)%Z →
  (0 <= (civil_from_days ((t / second + off) / 86400)).1.1 <= 9999)%Z →
  ParseRFC3339 (FormatRFC3339 true off t) = Some t.
Proof.
  intros Hoff H60 Hy. unfold FormatRFC3339. pose proof (civil_correct ((t / second + off) / 86400)) as Hc.
  destruct (civil_from_days _) as [[year month] day]. cbn [fst] in Hy. destruct Hc as (Hdays & Hmonth & Hday).
  set (s := (t / second + off)%Z) in *. pose proof (Z.mod_pos_bound s 86400 ltac:(done)) as Hsod.
  pose proof (Z.mod_pos_bound t second ltac:(done)) as Hns.
  assert (days_in month year <= 31)%Z by (unfold days_in; repeat case_match; lia).
  set (sod := (s mod 86400)%Z) in *.
  assert (0 <= sod / 3600 < 24)%Z by (Z.div_mod_to_equations; lia).
  assert (0 <= sod / 60 mod 60 < 60)%Z by (apply Z.mod_pos_bound; lia).
  assert (0 <= sod mod 60 < 60)%Z by (apply Z.mod_pos_bound; lia).
  unfold ParseRFC3339. rewrite to_of_bytes.
  rewrite year_read by lia. cbn [mbind option_bind]. rewrite skip_read. cbn [mbind option_bind].
  rewrite num_below_read by lia. cbn [mbind option_bind]. rewrite skip_read. cbn [mbind option_bind].
  rewrite getnum_read by lia. cbn [mbind option_bind]. rewrite skip_read. cbn [mbind option_bind].
  rewrite num_below_read by lia. cbn [mbind option_bind]. rewrite skip_read. cbn [mbind option_bind].
  rewrite num_below_read by lia. cbn [mbind option_bind]. rewrite skip_read. cbn [mbind option_bind].
  rewrite num_below_read by lia. cbn [mbind option_bind]. rewrite fraction_read by lia.
  rewrite zone_read by done. cbn [mbind option_bind].
  rewrite (proj2 (Z.leb_le 1 month)), (proj2 (Z.leb_le 1 day)), (proj2 (Z.leb_le day _)) by lia. cbn [andb].
  f_equal. rewrite Hdays. pose proof (Z.div_mod s 86400 ltac:(done)).
  pose proof (Z.div_mod t second ltac:(done)).
  assert (((s / 86400 * 24 + sod / 3600) * 60 + sod / 60 mod 60) * 60 + sod mod 60 = s)%Z as Hs.
  { clear Hdays. Z.div_mod_to_equations. lia. }
  rewrite Hs. subst s. lia.
Qed.
