(* ===== verification/Orchestrator.v ===== *)
(** * Orchestration: [internal/orchestrator], [internal/llm]

    The meta tool that lets a language model plan calls and runs them: the request,
    the candidates with their risk, the plan decoded from the answers of the model,
    its validation and its execution, with the adapters of [cmd/mcpgw/serve.go]
    around the discovery index, the store of classifications and the proxy. The
    model is a parameter. *)

From stdpp Require Import pretty.
From S2P Require Import Prelude GoStrings Encoding GoFloat Types RegTypes Store Json Document CapIndex.
From S2P Require Import Resilience RateLimit AccessStore Auth Routing Search Discovery.

#[local] Open Scope string_scope.
#[local] Open Scope list_scope.
#[local] Open Scope nat_scope.
#[local] Open Scope go_scope.

(** ** Data *)

Inductive Mode := ModePlan | ModeExecute.
Inductive SafetyLevel := SafetyStrict | SafetyReadOnly.

Definition Mode_String (m : Mode) : string := match m with ModePlan => "plan" | ModeExecute => "execute" end.
Definition SafetyLevel_String (s : SafetyLevel) : string :=
  match s with SafetyStrict => "strict" | SafetyReadOnly => "read_only" end.

Record OrchestrateRequest := mkOrchestrateRequest {
  oq_Intent : string;
  oq_Mode : Mode;
  oq_SafetyLevel : SafetyLevel;
  oq_Domain : string;
}.

Record CandidateTool := mkCandidateTool {
  cd_Name : string;
  cd_Description : string;
  cd_InputSchema : string;
  cd_RiskLevel : string;
}.

Record PlanStep := mkPlanStep {
  sp_StepNumber : Z;
  sp_ToolName : string;
  sp_Arguments : list (string * any);
  sp_Purpose : string;
  sp_DependsOn : list Z;
  sp_RequiresApproval : bool;
}.

Record OrchestratePlan := mkPlan {
  pl_Summary : string;
  pl_Steps : list PlanStep;
  pl_Warnings : list string;
}.

(** What became of a step: skipped, failed with an error of the router, or
    answered, with the error flag of the tool. *)
Inductive StepOutcome :=
| StepSkipped
| StepFailed (err : error)
| StepAnswered (output : ToolMessage) (isError : bool).
Record StepResult := mkStepResult { sr_Step : PlanStep; sr_Outcome : StepOutcome }.

Record OrchestrateResult := mkOrchestrateResult {
  or_Mode : Mode;
  or_Plan : OrchestratePlan;
  or_StepResults : list StepResult;
}.

(** ** Requests *)

(** The trimmed text of an argument, when it is a text that is not blank. *)
Definition text_argument (arguments : list (string * any)) (key : string) : option string :=
  match lookup_key arguments key with
  | Some (AStr s) => if bool_decide (TrimSpace s = "") then None else Some (TrimSpace s)
  | _ => None
  end.

(** [parseRequest]. *)
Definition parseRequest (arguments : list (string * any)) : result OrchestrateRequest :=
  let intent := match lookup_key arguments "intent" with Some (AStr s) => s | _ => "" end in
  if bool_decide (TrimSpace intent = "") then Err (Opaque "intent is required")
  else
    let mode :=
      match text_argument arguments "mode" with
      | None => Some ModeExecute
      | Some m => if bool_decide (m = "plan") then Some ModePlan
                  else if bool_decide (m = "execute") then Some ModeExecute else None
      end in
    let safety :=
      match text_argument arguments "safety_level" with
      | None => Some SafetyStrict
      | Some s => if bool_decide (s = "strict") then Some SafetyStrict
                  else if bool_decide (s = "read_only") then Some SafetyReadOnly else None
      end in
    match mode, safety with
    | None, _ => Err (Opaque "mode must be 'plan' or 'execute'")
    | _, None => Err (Opaque "safety_level must be 'strict' or 'read_only'")
    | Some mode, Some safety =>
        let domain := match lookup_key arguments "domain" with Some (AStr s) => s | _ => "" end in
        Ok (mkOrchestrateRequest intent mode safety domain)
    end.

(** ** Candidates *)

(** The test of [filterBySafety]. *)
Definition safe_risk (level : SafetyLevel) (risk : string) : bool :=
  match level with
  | SafetyStrict => bool_decide (risk = "read_only") || bool_decide (risk = "unknown")
  | SafetyReadOnly => negb (bool_decide (risk = "destructive"))
  end.
Definition filterBySafety (candidates : list CandidateTool) (level : SafetyLevel) : list CandidateTool :=
  filter (λ c, safe_risk level c.(cd_RiskLevel) = true) candidates.

(** [filterByDomain]. *)
Definition filterByDomain `{UnicodeTables} (candidates : list CandidateTool) (domain : string) : list CandidateTool :=
  let d := ToLower (TrimSpace domain) in
  if bool_decide (d = "") then candidates
  else filter (λ c, Contains (ToLower c.(cd_Name)) d = true) candidates.

(** ** Plans *)

Definition maxPlanSteps : nat := 10.

(** The loop of [validatePlan]: the steps that stay, and the warnings. *)
Fixpoint known_steps (names : list string) (steps : list PlanStep) (warnings : list string) :
    list PlanStep * list string :=
  match steps with
  | [] => ([], warnings)
  | step :: steps' =>
      if bool_decide (step.(sp_ToolName) ∈ names) then
        let '(l, ws) := known_steps names steps' warnings in (step :: l, ws)
      else known_steps names steps' (warnings ++ ["removed fabricated tool from plan"])
  end.

(** [validatePlan]; the warnings are kept without the quoted name. *)
Definition validatePlan (plan : OrchestratePlan) (candidates : list CandidateTool) : OrchestratePlan :=
  let '(steps, warnings) := known_steps (cd_Name <$> candidates) plan.(pl_Steps) plan.(pl_Warnings) in
  if maxPlanSteps <? length steps then
    mkPlan plan.(pl_Summary) (take maxPlanSteps steps) (warnings ++ ["plan truncated to 10 steps"])
  else mkPlan plan.(pl_Summary) steps warnings.

(** [extractToolNames]. *)
Definition extractToolNames (plan : OrchestratePlan) : list string :=
  foldl (λ names step, if bool_decide (step.(sp_ToolName) ∈ names) then names else names ++ [step.(sp_ToolName)])
    [] plan.(pl_Steps).

(** *** Decoding *)

Section decode.
Context `{UnicodeTables}.
Definition step_fields : list (string * decoder_of string PlanStep) :=
  [("step_number", field sp_StepNumber (λ x s, mkPlanStep x s.(sp_ToolName) s.(sp_Arguments) s.(sp_Purpose) s.(sp_DependsOn) s.(sp_RequiresApproval)) d_int);
   ("tool_name", field sp_ToolName (λ x s, mkPlanStep s.(sp_StepNumber) x s.(sp_Arguments) s.(sp_Purpose) s.(sp_DependsOn) s.(sp_RequiresApproval)) d_string);
   ("arguments", field sp_Arguments (λ x s, mkPlanStep s.(sp_StepNumber) s.(sp_ToolName) x s.(sp_Purpose) s.(sp_DependsOn) s.(sp_RequiresApproval)) d_object);
   ("purpose", field sp_Purpose (λ x s, mkPlanStep s.(sp_StepNumber) s.(sp_ToolName) s.(sp_Arguments) x s.(sp_DependsOn) s.(sp_RequiresApproval)) d_string);
   ("depends_on", field sp_DependsOn (λ x s, mkPlanStep s.(sp_StepNumber) s.(sp_ToolName) s.(sp_Arguments) s.(sp_Purpose) x s.(sp_RequiresApproval)) (d_slice d_int 0%Z));
   ("requires_approval", field sp_RequiresApproval (λ x s, mkPlanStep s.(sp_StepNumber) s.(sp_ToolName) s.(sp_Arguments) s.(sp_Purpose) s.(sp_DependsOn) x) d_bool)].
Definition zero_step : PlanStep := mkPlanStep 0 "" [] "" [] false.

Definition plan_fields : list (string * decoder_of string OrchestratePlan) :=
  [("summary", field pl_Summary (λ x p, mkPlan x p.(pl_Steps) p.(pl_Warnings)) d_string);
   ("steps", field pl_Steps (λ x p, mkPlan p.(pl_Summary) x p.(pl_Warnings)) (d_slice (d_struct step_fields) zero_step));
   ("warnings", field pl_Warnings (λ x p, mkPlan p.(pl_Summary) p.(pl_Steps) x) (d_slice d_string ""))].
Definition d_plan : decoder_of string OrchestratePlan := d_struct plan_fields.
Definition zero_plan : OrchestratePlan := mkPlan "" [] [].

End decode.

(** ** The language model *)

Record ChatMessage := mkChatMessage { ms_Role : string; ms_Content : string }.

(** The content of a response: its text, and the value it decodes to when it is
    JSON. *)
Record ChatResponse := mkChatResponse { rp_Content : string; rp_JSON : option document }.

(** [FailoverClient.Chat]: the providers in order. *)
Fixpoint try_providers {X} (providers : list (list ChatMessage → ST X ChatResponse)) (messages : list ChatMessage)
    (lastErr : error) : ST X ChatResponse := λ x,
  match providers with
  | [] => (Err (Wrap "all LLM providers failed" lastErr), x)
  | p :: providers' =>
      match p messages x with
      | (Ok r, x) => (Ok r, x)
      | (Err e, x) => try_providers providers' messages e x
      end
  end.
Definition FailoverChat {X} (providers : list (list ChatMessage → ST X ChatResponse)) (messages : list ChatMessage) :
    ST X ChatResponse := λ x,
  match providers with
  | [] => (Err (Opaque "no LLM providers configured"), x)
  | _ => try_providers providers messages (Opaque "") x
  end.

(** [buildUserPrompt]. *)
Definition newline : string := String "010"%char "".
Definition tool_prompt (i : nat) (t : CandidateTool) : string :=
  newline +:+ "### Tool " +:+ pretty (S i) +:+ ": " +:+ t.(cd_Name) +:+ newline
  +:+ "- Description: " +:+ t.(cd_Description) +:+ newline
  +:+ "- Risk Level: " +:+ t.(cd_RiskLevel) +:+ newline
  +:+ "- Input Schema: " +:+ t.(cd_InputSchema) +:+ newline.
Definition buildUserPrompt (intent : string) (candidates : list CandidateTool) (safetyLevel : SafetyLevel)
    (domain : string) : string :=
  "## Intent" +:+ newline +:+ intent +:+ newline +:+ newline
  +:+ "## Safety Level" +:+ newline +:+ SafetyLevel_String safetyLevel +:+ newline +:+ newline
  +:+ (if bool_decide (domain = "") then ""
       else "## Domain Filter" +:+ newline +:+ domain +:+ newline +:+ newline)
  +:+ "## Available Tools" +:+ newline
  +:+ foldr String.append "" (imap tool_prompt candidates).

Section generate.
Context `{UnicodeTables} {X : Type}.
(** The client, the constant system prompt, and the corrective instruction. *)
Context (Chat : list ChatMessage → ST X ChatResponse) (SystemPrompt correction : string).

(** [json.Unmarshal] into the plan: a text that is no JSON leaves it alone. *)
Definition unmarshal_plan (r : ChatResponse) (plan : OrchestratePlan) : OrchestratePlan * bool :=
  match r.(rp_JSON) with None => (plan, false) | Some v => d_plan v plan end.

(** [generatePlan]: both answers are decoded into the same variable. *)
Definition generatePlan (req : OrchestrateRequest) (candidates : list CandidateTool) : ST X OrchestratePlan := λ x,
  let userPrompt := buildUserPrompt req.(oq_Intent) candidates req.(oq_SafetyLevel) req.(oq_Domain) in
  let messages := [mkChatMessage "system" SystemPrompt; mkChatMessage "user" userPrompt] in
  match Chat messages x with
  | (Err e, x) => (Err (Wrap "llm chat" e), x)
  | (Ok resp, x) =>
      let '(plan, ok) := unmarshal_plan resp zero_plan in
      if ok then (Ok plan, x)
      else
        match Chat (messages ++ [mkChatMessage "assistant" resp.(rp_Content); mkChatMessage "user" correction]) x with
        | (Err e, x) => (Err (Wrap "llm retry chat" e), x)
        | (Ok retryResp, x) =>
            let '(plan, ok) := unmarshal_plan retryResp plan in
            if ok then (Ok plan, x)
            else (Err (Opaque ("llm returned invalid JSON after retry: " +:+ retryResp.(rp_Content))), x)
        end
  end.

End generate.

(** ** The orchestrator *)

(** The entries of the audit log: the event, the intent and the number of steps. *)
Record OrchestrationAudit := mkOrchestrationAudit {
  oa_EventType : string;
  oa_Intent : string;
  oa_Summary : string;
  oa_StepCount : nat;
}.

(** What an orchestration works on. *)
Record OrchestratorWorld (S L E X : Type) := mkOrchestratorWorld {
  ow_proxy : ProxyWorld S L;
  ow_db : DB;
  ow_discovery : DiscoveryIndex E;
  ow_session : option (gset string);
  ow_audit : list OrchestrationAudit;
  ow_llm : X;
}.
Arguments mkOrchestratorWorld {_ _ _ _}.
Arguments ow_proxy {_ _ _ _}.
Arguments ow_db {_ _ _ _}.
Arguments ow_discovery {_ _ _ _}.
Arguments ow_session {_ _ _ _}.
Arguments ow_audit {_ _ _ _}.
Arguments ow_llm {_ _ _ _}.

Section orchestrator.
Context `{UnicodeTables} {S L E X : Type} `{Env S} `{SearchEngine E}.
Context (Chat : list ChatMessage → ST X ChatResponse) (SystemPrompt correction : string).
Context (backend : string → string → list (string * any) → ST S ToolResult).
Context (rt : Router L) (pcfg : ProxyConfig) (auditStore : bool).

Abbreviation world := (OrchestratorWorld S L E X).

Definition ow_set_proxy (px : ProxyWorld S L) (w : world) : world :=
  mkOrchestratorWorld px w.(ow_db) w.(ow_discovery) w.(ow_session) w.(ow_audit) w.(ow_llm).
Definition ow_set_db (db : DB) (w : world) : world :=
  mkOrchestratorWorld w.(ow_proxy) db w.(ow_discovery) w.(ow_session) w.(ow_audit) w.(ow_llm).
Definition ow_set_discovery (d : DiscoveryIndex E) (w : world) : world :=
  mkOrchestratorWorld w.(ow_proxy) w.(ow_db) d w.(ow_session) w.(ow_audit) w.(ow_llm).
Definition ow_set_session (s : option (gset string)) (w : world) : world :=
  mkOrchestratorWorld w.(ow_proxy) w.(ow_db) w.(ow_discovery) s w.(ow_audit) w.(ow_llm).
Definition ow_set_llm (x : X) (w : world) : world :=
  mkOrchestratorWorld w.(ow_proxy) w.(ow_db) w.(ow_discovery) w.(ow_session) w.(ow_audit) x.

(** [LogOrchestration]. *)
Definition LogOrchestration (entry : OrchestrationAudit) (w : world) : world :=
  if auditStore then
    mkOrchestratorWorld w.(ow_proxy) w.(ow_db) w.(ow_discovery) w.(ow_session) (entry :: w.(ow_audit)) w.(ow_llm)
  else w.

(** [enrichCandidates]: the risk of a tool is that of its row, and unknown when
    there is none or the lookup fails. *)
Fixpoint enrichCandidates (tools : list ToolDefinition) (db : DB) : list CandidateTool * DB :=
  match tools with
  | [] => ([], db)
  | t :: tools' =>
      let '(r, db) := ClassificationGet t.(tl_Name) db in
      let risk := match r with Ok (Some c) => RiskLevel_String c.(tc_RiskLevel) | _ => "unknown" end in
      let '(l, db) := enrichCandidates tools' db in
      (mkCandidateTool t.(tl_Name) t.(tl_Description) t.(tl_InputSchema) risk :: l, db)
  end.

(** [SearchTools]. *)
Definition SearchTools (query : string) (limit : Z) (w : world) : list CandidateTool * world :=
  let '((results, _), d) := DiscoverySearch query "" 0 limit w.(ow_discovery) in
  let '(candidates, db) := enrichCandidates results w.(ow_db) in
  (candidates, ow_set_db db (ow_set_discovery d w)).

(** The candidates of a request. *)
Definition eligible (req : OrchestrateRequest) (found : list CandidateTool) : list CandidateTool :=
  filterBySafety (if bool_decide (req.(oq_Domain) = "") then found else filterByDomain found req.(oq_Domain))
    req.(oq_SafetyLevel).

(** [plan]. *)
Definition plan (req : OrchestrateRequest) : ST world OrchestratePlan := λ w,
  let '(found, w) := SearchTools req.(oq_Intent) 20 w in
  match eligible req found with
  | [] => (Err (Opaque "no tools match intent within safety constraints"), w)
  | candidates =>
      match generatePlan Chat SystemPrompt correction req candidates w.(ow_llm) with
      | (Err e, x) => (Err e, ow_set_llm x w)
      | (Ok p, x) =>
          let p := validatePlan p candidates in
          let w := LogOrchestration (mkOrchestrationAudit "orchestrate_plan" req.(oq_Intent) p.(pl_Summary)
                     (length p.(pl_Steps))) (ow_set_llm x w) in
          (Ok p, ow_set_session (ActivateToolsByName (extractToolNames p) w.(ow_session) w.(ow_discovery)) w)
      end
  end.

(** The loop of [execute]. *)
Fixpoint run_steps (id : option Identity) (scope : list string) (steps : list PlanStep) (px : ProxyWorld S L) :
    list StepResult * ProxyWorld S L :=
  match steps with
  | [] => ([], px)
  | step :: steps' =>
      let '(outcome, px) :=
        if step.(sp_RequiresApproval) then (StepSkipped, px)
        else
          match ExecuteToolCall backend rt pcfg step.(sp_ToolName) id scope step.(sp_Arguments) px with
          | (Err e, px) => (StepFailed e, px)
          | (Ok (output, isError), px) => (StepAnswered output isError, px)
          end in
      let '(results, px) := run_steps id scope steps' px in
      (mkStepResult step outcome :: results, px)
  end.

(** [execute]. *)
Definition execute (id : option Identity) (scope : list string) (req : OrchestrateRequest) :
    ST world OrchestrateResult := λ w,
  match plan req w with
  | (Err e, w) => (Err e, w)
  | (Ok p, w) =>
      let '(results, px) := run_steps id scope p.(pl_Steps) w.(ow_proxy) in
      (Ok (mkOrchestrateResult ModeExecute p results),
       LogOrchestration (mkOrchestrationAudit "orchestrate_execute" req.(oq_Intent) p.(pl_Summary)
         (length p.(pl_Steps))) (ow_set_proxy px w))
  end.

(** [Handle]. *)
Definition Handle (id : option Identity) (scope : list string) (arguments : list (string * any)) :
    ST world OrchestrateResult := λ w,
  match parseRequest arguments with
  | Err e => (Err (Wrap "invalid orchestrate request" e), w)
  | Ok req =>
      let '(r, w) :=
        match req.(oq_Mode) with
        | ModePlan =>
            match plan req w with
            | (Ok p, w) => (Ok (mkOrchestrateResult ModePlan p []), w)
            | (Err e, w) => (Err e, w)
            end
        | ModeExecute => execute id scope req w
        end in
      match r with Err e => (Err (Wrap "orchestration failed" e), w) | Ok r => (Ok r, w) end
  end.

(** [handleOrchestrate]: the refusal, or the answer of the orchestrator. *)
Definition handleOrchestrate (id : option Identity) (scope : list string) (arguments : list (string * any)) (w : world) :
    (string + result OrchestrateResult) * world :=
  let refusal :=
    if pcfg.(pc_userStore) then checkToolPermission id "cruvero.orchestrate" w.(ow_proxy).(px_access)
    else (None, w.(ow_proxy).(px_access)) in
  match refusal with
  | (Some (entry, msg), db) =>
      let px := px_set_access db w.(ow_proxy) in
      (inl msg, ow_set_proxy (if pcfg.(pc_auditStore) then px_deny entry px else px) w)
  | (None, db) =>
      let '(r, w) := Handle id scope arguments (ow_set_proxy (px_set_access db w.(ow_proxy)) w) in (inr r, w)
  end.

End orchestrator.
