(* ===== verification/OrchestratorProps.v ===== *)
(** * Correctness of the orchestration

    - [orchestrate_confined]: which tools an orchestration calls, and in which
      order.
    - [strict_runs_destructive]: the strict safety level lets destructive tools
      through, and the policy is not asked.
    - [retry_merges_plans]: the plan of a second answer keeps parts of the first. *)

From S2P Require Import Prelude GoStrings Encoding GoFloat Types RegTypes Store Json Document CapIndex Classification.
From S2P Require Import Regex Resilience RateLimit Policy PolicyProps AccessStore Auth AuthProps Routing RoutingProps.
From S2P Require Import Search Discovery DiscoveryProps Orchestrator.

#[local] Open Scope string_scope.
#[local] Open Scope list_scope.
#[local] Open Scope nat_scope.
#[local] Open Scope go_scope.

(** ** Plans *)

Lemma known_steps_sub names steps warnings :
  (known_steps names steps warnings).1 = filter (λ s, s.(sp_ToolName) ∈ names) steps.
Proof.
  revert warnings. induction steps as [|s steps IH]; intros warnings; cbn [known_steps]; [done|].
  rewrite filter_cons. case_bool_decide as Hs.
  - specialize (IH warnings). destruct (known_steps names steps warnings). rewrite decide_True by done. cbn in *. by f_equal.
  - rewrite decide_False by done. apply IH.
Qed.

(** A validated plan has at most ten steps, all for candidates. *)
Lemma validatePlan_confined plan candidates :
  let p := validatePlan plan candidates in
  length p.(pl_Steps) <= maxPlanSteps ∧
  ∀ s, s ∈ p.(pl_Steps) → s ∈ plan.(pl_Steps) ∧ s.(sp_ToolName) ∈ cd_Name <$> candidates.
Proof.
  cbv zeta. unfold validatePlan. pose proof (known_steps_sub (cd_Name <$> candidates) plan.(pl_Steps) plan.(pl_Warnings)) as Hk.
  destruct (known_steps _ _ _) as [steps ws]. cbn [fst] in Hk. subst steps.
  assert (Hin : ∀ s, s ∈ filter (λ s, s.(sp_ToolName) ∈ cd_Name <$> candidates) plan.(pl_Steps) →
    s ∈ plan.(pl_Steps) ∧ s.(sp_ToolName) ∈ cd_Name <$> candidates) by (intros s [? ?]%list_elem_of_filter; done).
  destruct (Nat.ltb_spec maxPlanSteps (length (filter (λ s, s.(sp_ToolName) ∈ cd_Name <$> candidates) plan.(pl_Steps)))).
  - cbn [pl_Steps]. split; [rewrite length_take; lia|]. intros s Hs. apply Hin. by eapply elem_of_take in Hs as (i & Hs & _); eapply list_elem_of_lookup_2.
  - cbn [pl_Steps]. split; [lia|exact Hin].
Qed.

Section orchestrate.
Context `{UnicodeTables} {S L E X : Type} `{Env S} `{SearchEngine E}.
Context (Chat : list ChatMessage → ST X ChatResponse) (SystemPrompt correction : string).
Context (backend : string → string → list (string * any) → ST S ToolResult).
Context (rt : Router L) (pcfg : ProxyConfig) (auditStore : bool).

(** The state of the proxy after the call of a step. *)
Definition after_call (id : option Identity) (scope : list string) (px : ProxyWorld S L) (step : PlanStep) :
    ProxyWorld S L :=
  (ExecuteToolCall backend rt pcfg step.(sp_ToolName) id scope step.(sp_Arguments) px).2.

(** The steps are run in order, those that ask for approval left out. *)
Lemma run_steps_spec id scope steps px :
  let '(results, px') := run_steps backend rt pcfg id scope steps px in
  sr_Step <$> results = steps ∧
  px' = foldl (after_call id scope) px (filter (λ s, s.(sp_RequiresApproval) = false) steps) ∧
  Forall (λ r, r.(sr_Outcome) = StepSkipped ↔ r.(sr_Step).(sp_RequiresApproval) = true) results.
Proof.
  revert px. induction steps as [|s steps IH]; intros px; cbn [run_steps]; [done|]. rewrite filter_cons.
  destruct (sp_RequiresApproval s) eqn:Ea.
  - specialize (IH px). destruct (run_steps _ _ _ _ _ steps px) as [results px']. destruct IH as (<- & -> & Hall).
    rewrite decide_False by done. split_and!; [done|done|]. constructor; [done|exact Hall].
  - rewrite decide_True by done. cbn [foldl]. unfold after_call at 2.
    destruct (ExecuteToolCall _ _ _ _ _ _ _ _) as [[e|[output isError]] px1]; cbn [snd];
      specialize (IH px1); destruct (run_steps _ _ _ _ _ steps px1) as [results px'];
      destruct IH as (<- & -> & Hall); (split_and!; [done|done|]); (constructor; [|exact Hall]); cbn; by rewrite Ea.
Qed.

(** A candidate of a request: found by the search, within the domain, and of a
    risk that the safety level admits. *)
Definition candidate_for (req : OrchestrateRequest) (found : list CandidateTool) (tool : string) : Prop :=
  ∃ c, c ∈ found ∧ c.(cd_Name) = tool ∧ safe_risk req.(oq_SafetyLevel) c.(cd_RiskLevel) = true ∧
    (ToLower (TrimSpace req.(oq_Domain)) = "" ∨ Contains (ToLower tool) (ToLower (TrimSpace req.(oq_Domain))) = true).

Lemma eligible_candidate req found tool : tool ∈ cd_Name <$> eligible req found → candidate_for req found tool.
Proof.
  intros (c & -> & Hc)%list_elem_of_fmap. apply list_elem_of_filter in Hc as [Hsafe Hc]. exists c.
  case_bool_decide as Hd.
  - split_and!; try done. left. by rewrite Hd.
  - unfold filterByDomain in Hc. case_bool_decide; [by auto 10|]. apply list_elem_of_filter in Hc as [? ?]. auto 10.
Qed.

Lemma plan_confined req (w : OrchestratorWorld S L E X) p w' :
  plan Chat SystemPrompt correction auditStore req w = (Ok p, w') →
  let found := (SearchTools req.(oq_Intent) 20 w).1 in
  length p.(pl_Steps) <= maxPlanSteps ∧ w'.(ow_proxy) = w.(ow_proxy) ∧
  ∀ s, s ∈ p.(pl_Steps) → candidate_for req found s.(sp_ToolName).
Proof.
  unfold plan. destruct (SearchTools _ _ _) as [found w1] eqn:Es. cbn [fst].
  assert (Hproxy : w1.(ow_proxy) = w.(ow_proxy)).
  { unfold SearchTools in Es. destruct (DiscoverySearch _ _ _ _ _) as [[rs t] d]. destruct (enrichCandidates _ _) as [cs db].
    by injection Es as _ <-. }
  destruct (eligible req found) as [|c cs] eqn:Ee; [done|].
  destruct (generatePlan _ _ _ _ _ _) as [[e|p0] x]; [done|]. intros [= <- <-].
  pose proof (validatePlan_confined p0 (c :: cs)) as [Hlen Hsteps]. split_and!.
  - exact Hlen.
  - unfold LogOrchestration. destruct auditStore; exact Hproxy.
  - intros s Hs. apply eligible_candidate. rewrite Ee. by apply Hsteps.
Qed.

(** The model never sees the schema of a tool: the search strips it. *)
Lemma candidates_without_schema query limit (w : OrchestratorWorld S L E X) c :
  c ∈ (SearchTools query limit w).1 → c.(cd_InputSchema) = "{}".
Proof.
  unfold SearchTools. destruct (DiscoverySearch _ _ _ _ _) as [[results t] d] eqn:Es.
  assert (Hschema : ∀ x, x ∈ results → x.(tl_InputSchema) = "{}").
  { unfold DiscoverySearch in Es. case_bool_decide; [injection Es as <- <- <-; by intros x ?%elem_of_nil|].
    destruct (collectScoredEntries _ _ _). injection Es as <- <- <-. intros x (p & -> & _)%list_elem_of_fmap. done. }
  clear Es. revert c. generalize (ow_db w). induction results as [|x results IH]; intros db c; cbn [enrichCandidates fst].
  { by intros ?%elem_of_nil. }
  destruct (ClassificationGet _ db) as [r db1]. specialize (IH (λ y Hy, Hschema y (list_elem_of_further _ _ _ Hy)) db1).
  destruct (enrichCandidates results db1) as [l db2]. cbn [fst] in *. intros [->|Hc]%elem_of_cons; [|by apply IH].
  apply Hschema. left.
Qed.

(** C24: An orchestration calls only its candidates. When it answers with a plan,
    the plan has at most ten steps, each for a tool that the search found for the
    intent, within the domain and with a risk the safety level admits, whatever the
    model has answered. The strict level admits tools found read-only or of unknown
    risk, and the level [read_only] all that are not destructive, so that it admits
    tools that write: so the comments of [types.go], while [architecture.md] (lines
    1001 and 1002) gives the strict level all tools and the other one only
    read-only ones. In plan mode no tool is called. In execute mode the result
    lists the steps in order; those that ask for approval are skipped, and the
    others are called in order through the permission check and the router, and
    nothing else. *)
Theorem orchestrate_confined id scope arguments (w : OrchestratorWorld S L E X) r w' :
  Handle Chat SystemPrompt correction backend rt pcfg auditStore id scope arguments w = (Ok r, w') →
  ∃ req, parseRequest arguments = Ok req ∧
    let found := (SearchTools req.(oq_Intent) 20 w).1 in
    let steps := r.(or_Plan).(pl_Steps) in
    length steps <= maxPlanSteps ∧ (∀ s, s ∈ steps → candidate_for req found s.(sp_ToolName)) ∧
    match req.(oq_Mode) with
    | ModePlan => r.(or_StepResults) = [] ∧ w'.(ow_proxy) = w.(ow_proxy)
    | ModeExecute =>
        sr_Step <$> r.(or_StepResults) = steps ∧
        Forall (λ x, x.(sr_Outcome) = StepSkipped ↔ x.(sr_Step).(sp_RequiresApproval) = true) r.(or_StepResults) ∧
        w'.(ow_proxy) = foldl (after_call id scope) w.(ow_proxy) (filter (λ s, s.(sp_RequiresApproval) = false) steps)
    end.
Proof.
  unfold Handle. destruct (parseRequest arguments) as [e|req]; [done|]. intros Hh. exists req. split; [done|].
  cbv zeta. destruct (oq_Mode req).
  - destruct (plan _ _ _ _ req w) as [[e|p] w1] eqn:Ep; [done|]. injection Hh as <- <-.
    apply plan_confined in Ep as (Hlen & Hproxy & Hsteps). by split_and!.
  - unfold execute in Hh. destruct (plan _ _ _ _ req w) as [[e|p] w1] eqn:Ep; [done|].
    apply plan_confined in Ep as (Hlen & Hproxy & Hsteps).
    pose proof (run_steps_spec id scope (pl_Steps p) (ow_proxy w1)) as Hrun.
    destruct (run_steps _ _ _ _ _ _ _) as [results px]. injection Hh as <- <-.
    destruct Hrun as (Hres & -> & Hall). rewrite Hproxy. split_and!; try done.
    unfold LogOrchestration. by destruct auditStore.
Qed.

End orchestrate.

(** ** Examples *)

Section examples.
#[local] Existing Instance ascii_tables.
#[local] Existing Instance log_env.
#[local] Existing Instance identity_bm25.

(** A model that answers from a script. *)
Definition scripted : list ChatMessage → ST (list ChatResponse) ChatResponse := λ _ script,
  match script with r :: rest => (Ok r, rest) | [] => (Err (Opaque "quota exceeded"), []) end.

(** A step of a plan as the model writes it. *)
Definition json_step (number : document) (tool : string) (arguments : list (string * document)) : document :=
  AObj [("step_number", number); ("tool_name", AStr tool); ("arguments", AObj arguments);
        ("requires_approval", ABool false)].
Definition json_plan (steps : list document) : ChatResponse :=
  mkChatResponse "{...}" (Some (AObj [("summary", AStr "do it"); ("steps", AArr steps)])).

(** A server with a destructive tool, classified under the name it registers. *)
Definition ops : ServerRecord := example_server "1" "mcp-ops" StatusActive ["delete"] [].
Definition classified : DB :=
  mkDB 0 ∅ {["delete" := mkToolClassification "delete" (AutoClassify "delete" "").1 "" true "" 0]} [] 0.

Definition example_orchestration (script : list ChatResponse) :
    OrchestratorWorld (list string) () BM25Engine (list ChatResponse) :=
  mkOrchestratorWorld (mkProxyWorld (example_state [ops]) (example_access []) [] []) classified
    (DiscoveryIndexTools [example_tool "ops.delete" "Delete a file."] NewDiscoveryIndex) None [] script.

(** The arguments the tool is called with are the answer. *)
Definition echo_backend : string → string → list (string * any) → ST (list string) ToolResult :=
  λ url tool arguments s,
    (Ok (mkToolResult [mkContentBlock "text" (tool +:+ ":" +:+ String.concat "," arguments.*1)] false), url :: s).

Definition orchestrate (arguments : list (string * any)) (script : list ChatResponse) :=
  (Handle scripted "" "" echo_backend (example_router RoundRobin) (mkProxyConfig false false) false
     None [] arguments (example_orchestration script)).1.

Definition delete_step (arguments : list (string * any)) : PlanStep :=
  mkPlanStep 1 "ops.delete" arguments "" [] false.

(** The strict safety level lets destructive tools through. The tool [delete]
    registers and is classified as destructive under that name, and its listed name
    [ops.delete] is destructive by its keywords too, so that the policy refuses to
    call it. But candidates are looked up under the listed name, which has no row,
    and count as unknown; and the calls of a plan do not pass the policy. A strict
    orchestration runs the tool. *)
Theorem strict_runs_destructive :
  (tc_RiskLevel <$> classified.(db_classifications) !! "delete") = Some RiskDestructive ∧
  (Evaluate example_engine (example_call "ops.delete" []) (policy_start [])).1.(pd_Allowed) = false ∧
  orchestrate [("intent", AStr "delete"); ("safety_level", AStr "strict")]
    [json_plan [json_step (ANum "1") "ops.delete" []]] =
  Ok (mkOrchestrateResult ModeExecute (mkPlan "do it" [delete_step []] [])
        [mkStepResult (delete_step []) (StepAnswered (MsgText "delete:") false)]).
Proof. split_and!; vm_compute; reflexivity. Qed.

(** A second answer of the model is decoded over the first. When the first
    answer does not decode, here for a step number that is a text, the model is
    asked again, and the second answer is decoded into the same variable: an
    argument that only the rejected answer had stays in the plan and reaches the
    tool. *)
Theorem retry_merges_plans :
  orchestrate [("intent", AStr "delete")]
    [json_plan [json_step (AStr "1") "ops.delete" [("force", ABool true); ("path", AStr "/")]];
     json_plan [json_step (ANum "1") "ops.delete" [("path", AStr "/tmp/x")]]] =
  Ok (mkOrchestrateResult ModeExecute
        (mkPlan "do it" [delete_step [("force", ABool true); ("path", AStr "/tmp/x")]] [])
        [mkStepResult (delete_step [("force", ABool true); ("path", AStr "/tmp/x")])
           (StepAnswered (MsgText "delete:force,path") false)]).
Proof. vm_compute. reflexivity. Qed.

(** Steps for tools that are no candidates are removed. *)
Example fabricated_ex :
  orchestrate [("intent", AStr "delete"); ("mode", AStr "plan")] [json_plan [json_step ANil "rm" []]] =
  Ok (mkOrchestrateResult ModePlan (mkPlan "do it" [] ["removed fabricated tool from plan"]) []).
Proof. vm_compute. reflexivity. Qed.

Lemma orchestrate_confined_witness :
  ∃ req, parseRequest [("intent", AStr "delete")] = Ok req ∧ length [delete_step []] <= maxPlanSteps.
Proof.
  destruct (Handle scripted "" "" echo_backend (example_router RoundRobin) (mkProxyConfig false false) false
    None [] [("intent", AStr "delete")] (example_orchestration [json_plan [json_step (ANum "1") "ops.delete" []]]))
    as [r w'] eqn:Eh.
  assert (Hr : r = Ok (mkOrchestrateResult ModeExecute (mkPlan "do it" [delete_step []] [])
    [mkStepResult (delete_step []) (StepAnswered (MsgText "delete:") false)]))
    by (change r with (r, w').1; rewrite <- Eh; vm_compute; reflexivity).
  rewrite Hr in Eh.
  destruct (orchestrate_confined _ _ _ _ _ _ _ _ _ _ _ _ _ Eh) as (req & Hreq & Hlen & _).
  exists req. split; [exact Hreq|exact Hlen].
Defined.

End examples.
