(* ===== verification/Events.v ===== *)
(** * The events layer: [internal/events], and its wiring in [internal/server]

    The configuration messages of the platform and their handlers (handlers.go),
    the subscriber that routes them (subscriber.go), the cache of the last known
    configuration (persistence.go) and the manager of the degraded mode
    (degradation.go), as [server.New] wires them, with the readiness endpoint. The
    handlers act on the policy engine, the rate limits, the registration service and
    the discovery index, which are those of their own files. A message is a
    document, or no JSON, and what may follow it; errors of handlers are logged by
    the subscriber. *)

From stdpp Require Import pretty.
From S2P Require Import Prelude GoStrings Encoding GoNet GoFloat Types RegTypes Store Json Document CapIndex.
From S2P Require Import Registration RateLimit Regex Policy Resilience Routing Search Discovery.

#[local] Open Scope string_scope.
#[local] Open Scope list_scope.
#[local] Open Scope nat_scope.
#[local] Open Scope go_scope.

(** ** Subjects *)

Definition gateway_or_unknown (gatewayID : string) : string :=
  let gateway := TrimSpace gatewayID in if bool_decide (gateway = "") then "unknown" else gateway.

Definition SubjectForEvent (gatewayID eventType : string) : string :=
  "mcpgw." +:+ gateway_or_unknown gatewayID +:+ ".events." +:+ TrimSpace eventType.
Definition SubjectForConfig (gatewayID scope : string) : string :=
  "mcpgw." +:+ gateway_or_unknown gatewayID +:+ ".config." +:+ TrimSpace scope.
Definition SubjectForConfigRequest (gatewayID : string) : string :=
  "mcpgw." +:+ gateway_or_unknown gatewayID +:+ ".config.request".
Definition SubjectForAck (gatewayID scope : string) : string :=
  "mcpgw." +:+ gateway_or_unknown gatewayID +:+ ".acks." +:+ TrimSpace scope.

Definition ConfigScopePolicy : string := "policy".
Definition ConfigScopeServers : string := "servers".
Definition ConfigScopeServerSettings : string := "server_settings".
Definition ConfigScopeAuth : string := "auth".
Definition ConfigScopeToolMetadata : string := "tool_metadata".
Definition AckScopeServerRegistered : string := "server_registered".

Definition configCachePolicyKey : string := "config.policy".
Definition configCacheServersKey : string := "config.servers".
Definition configCacheServerSettingsKey : string := "config.server_settings".
Definition configCacheAuthKey : string := "config.auth".
Definition configCacheToolMetadataKey : string := "config.tool_metadata".

(** [cacheKeyToSubject]. *)
Definition cacheKeyToSubject (gatewayID key : string) : string :=
  let k := TrimSpace key in
  if bool_decide (k = configCachePolicyKey) then SubjectForConfig gatewayID ConfigScopePolicy
  else if bool_decide (k = configCacheServersKey) then SubjectForConfig gatewayID ConfigScopeServers
  else if bool_decide (k = configCacheServerSettingsKey) then SubjectForConfig gatewayID ConfigScopeServerSettings
  else if bool_decide (k = configCacheAuthKey) then SubjectForConfig gatewayID ConfigScopeAuth
  else if bool_decide (k = configCacheToolMetadataKey) then SubjectForConfig gatewayID ConfigScopeToolMetadata
  else "".

(** ** Messages *)

(** The bytes of a message: the first JSON value, [None] when there is none, and
    whether more than space follows it. *)
Record payload := mkPayload { pd_first : option document; pd_trailing : bool }.

Record ServerSettingsConfig := mkServerSettingsConfig {
  ss_ServerName : string;
  ss_EffectiveSettings : settings;
}.
Record ServerSettingsConfigMessage := mkServerSettingsConfigMessage {
  sm_ConfigVersion : Z;
  sm_Servers : list ServerSettingsConfig;
}.
Record AuthConfigMessage := mkAuthConfigMessage {
  am_Mode : string;
  am_OIDCIssuer : string;
  am_OIDCAudience : string;
}.
Record ServerRegisteredAckPayload := mkServerRegisteredAckPayload {
  ak_RegistrationID : string;
  ak_LeaseEpoch : Z;
  ak_AckCapabilityHash : string;
  ak_RegistryVersion : string;
  ak_ToolSchemaHash : string;
  ak_AckedAt : Z;
}.
Record ToolMetadataEntry := mkToolMetadataEntry {
  te_ToolName : string;
  te_Category : string;
  te_DisplayName : string;
  te_Summary : string;
  te_Tags : list string;
  te_Priority : Z;
  te_Metadata : list (string * any);
}.
Record ToolMetadataConfigMessage := mkToolMetadataConfigMessage {
  tm_Version : Z;
  tm_Tools : list ToolMetadataEntry;
}.

Section decode.
Context `{UnicodeTables}.

Definition mode_of_text (s : string) : EnforcementMode :=
  if bool_decide (s = "enforce") then ModeEnforce else if bool_decide (s = "audit") then ModeAudit else ModeRaw s.
Definition d_mode : decoder_of string EnforcementMode := λ v cur,
  match v with AStr s => (mode_of_text s, true) | ANil => (cur, true) | _ => (cur, false) end.

Definition profile_fields : list (string * decoder_of string PolicyProfile) :=
  [("name", field pp_Name (λ x p, mkPolicyProfile x p.(pp_RateLimit) p.(pp_RateBurst) p.(pp_ToolAllowlist) p.(pp_ToolDenylist) p.(pp_EnforcementMode)) d_string);
   ("rate_limit", field pp_RateLimit (λ x p, mkPolicyProfile p.(pp_Name) x p.(pp_RateBurst) p.(pp_ToolAllowlist) p.(pp_ToolDenylist) p.(pp_EnforcementMode)) d_int);
   ("rate_burst", field pp_RateBurst (λ x p, mkPolicyProfile p.(pp_Name) p.(pp_RateLimit) x p.(pp_ToolAllowlist) p.(pp_ToolDenylist) p.(pp_EnforcementMode)) d_int);
   ("tool_allowlist", field pp_ToolAllowlist (λ x p, mkPolicyProfile p.(pp_Name) p.(pp_RateLimit) p.(pp_RateBurst) x p.(pp_ToolDenylist) p.(pp_EnforcementMode)) (d_slice d_string ""));
   ("tool_denylist", field pp_ToolDenylist (λ x p, mkPolicyProfile p.(pp_Name) p.(pp_RateLimit) p.(pp_RateBurst) p.(pp_ToolAllowlist) x p.(pp_EnforcementMode)) (d_slice d_string ""));
   ("enforcement_mode", field pp_EnforcementMode (λ x p, mkPolicyProfile p.(pp_Name) p.(pp_RateLimit) p.(pp_RateBurst) p.(pp_ToolAllowlist) p.(pp_ToolDenylist) x) d_mode)].
Definition zero_profile : PolicyProfile := mkPolicyProfile "" 0 0 [] [] (ModeRaw "").
(** [PolicyConfigMessage]: its profiles. *)
Definition d_policy_message : decoder_of string (list PolicyProfile) :=
  d_struct [("profiles", d_slice (d_struct profile_fields) zero_profile)].

(** [ServerConfigMessage]: its list. *)
Definition d_server_message : decoder_of string (list string) :=
  d_struct [("spiffe_allow_list", d_slice d_string "")].

Definition server_settings_fields : list (string * decoder_of string ServerSettingsConfig) :=
  [("server_name", field ss_ServerName (λ x c, mkServerSettingsConfig x c.(ss_EffectiveSettings)) d_string);
   ("effective_settings", field ss_EffectiveSettings (λ x c, mkServerSettingsConfig c.(ss_ServerName) x) d_object)].
Definition d_settings_message : decoder_of string ServerSettingsConfigMessage :=
  d_struct
    [("config_version", field sm_ConfigVersion (λ x m, mkServerSettingsConfigMessage x m.(sm_Servers)) d_int);
     ("servers", field sm_Servers (λ x m, mkServerSettingsConfigMessage m.(sm_ConfigVersion) x)
                   (d_slice (d_struct server_settings_fields) (mkServerSettingsConfig "" [])))].
Definition zero_settings_message : ServerSettingsConfigMessage := mkServerSettingsConfigMessage 0 [].

Definition d_auth_message : decoder_of string AuthConfigMessage :=
  d_struct
    [("mode", field am_Mode (λ x m, mkAuthConfigMessage x m.(am_OIDCIssuer) m.(am_OIDCAudience)) d_string);
     ("oidc_issuer", field am_OIDCIssuer (λ x m, mkAuthConfigMessage m.(am_Mode) x m.(am_OIDCAudience)) d_string);
     ("oidc_audience", field am_OIDCAudience (λ x m, mkAuthConfigMessage m.(am_Mode) m.(am_OIDCIssuer) x) d_string)].

Definition d_ack_message : decoder_of string ServerRegisteredAckPayload :=
  d_struct
    [("registration_id", field ak_RegistrationID (λ x m, mkServerRegisteredAckPayload x m.(ak_LeaseEpoch) m.(ak_AckCapabilityHash) m.(ak_RegistryVersion) m.(ak_ToolSchemaHash) m.(ak_AckedAt)) d_string);
     ("lease_epoch", field ak_LeaseEpoch (λ x m, mkServerRegisteredAckPayload m.(ak_RegistrationID) x m.(ak_AckCapabilityHash) m.(ak_RegistryVersion) m.(ak_ToolSchemaHash) m.(ak_AckedAt)) d_int);
     ("capability_hash", field ak_AckCapabilityHash (λ x m, mkServerRegisteredAckPayload m.(ak_RegistrationID) m.(ak_LeaseEpoch) x m.(ak_RegistryVersion) m.(ak_ToolSchemaHash) m.(ak_AckedAt)) d_string);
     ("registry_version", field ak_RegistryVersion (λ x m, mkServerRegisteredAckPayload m.(ak_RegistrationID) m.(ak_LeaseEpoch) m.(ak_AckCapabilityHash) x m.(ak_ToolSchemaHash) m.(ak_AckedAt)) d_string);
     ("tool_schema_hash", field ak_ToolSchemaHash (λ x m, mkServerRegisteredAckPayload m.(ak_RegistrationID) m.(ak_LeaseEpoch) m.(ak_AckCapabilityHash) m.(ak_RegistryVersion) x m.(ak_AckedAt)) d_string);
     ("acked_at", field ak_AckedAt (λ x m, mkServerRegisteredAckPayload m.(ak_RegistrationID) m.(ak_LeaseEpoch) m.(ak_AckCapabilityHash) m.(ak_RegistryVersion) m.(ak_ToolSchemaHash) x) d_time)].

Definition metadata_fields : list (string * decoder_of string ToolMetadataEntry) :=
  [("tool_name", field te_ToolName (λ x e, mkToolMetadataEntry x e.(te_Category) e.(te_DisplayName) e.(te_Summary) e.(te_Tags) e.(te_Priority) e.(te_Metadata)) d_string);
   ("category", field te_Category (λ x e, mkToolMetadataEntry e.(te_ToolName) x e.(te_DisplayName) e.(te_Summary) e.(te_Tags) e.(te_Priority) e.(te_Metadata)) d_string);
   ("display_name", field te_DisplayName (λ x e, mkToolMetadataEntry e.(te_ToolName) e.(te_Category) x e.(te_Summary) e.(te_Tags) e.(te_Priority) e.(te_Metadata)) d_string);
   ("summary", field te_Summary (λ x e, mkToolMetadataEntry e.(te_ToolName) e.(te_Category) e.(te_DisplayName) x e.(te_Tags) e.(te_Priority) e.(te_Metadata)) d_string);
   ("tags", field te_Tags (λ x e, mkToolMetadataEntry e.(te_ToolName) e.(te_Category) e.(te_DisplayName) e.(te_Summary) x e.(te_Priority) e.(te_Metadata)) (d_slice d_string ""));
   ("priority", field te_Priority (λ x e, mkToolMetadataEntry e.(te_ToolName) e.(te_Category) e.(te_DisplayName) e.(te_Summary) e.(te_Tags) x e.(te_Metadata)) d_int);
   ("metadata", field te_Metadata (λ x e, mkToolMetadataEntry e.(te_ToolName) e.(te_Category) e.(te_DisplayName) e.(te_Summary) e.(te_Tags) e.(te_Priority) x) d_object)].
Definition d_metadata_message : decoder_of string ToolMetadataConfigMessage :=
  d_struct
    [("version", field tm_Version (λ x m, mkToolMetadataConfigMessage x m.(tm_Tools)) d_int);
     ("tools", field tm_Tools (λ x m, mkToolMetadataConfigMessage m.(tm_Version) x)
                 (d_slice (d_struct metadata_fields) (mkToolMetadataEntry "" "" "" "" [] 0 [])))].

(** [decodeConfigMessage]: the decoder stops after the first value. *)
Definition decodeConfigMessage {A} (d : decoder_of string A) (zero : A) (data : payload) : result A :=
  match data.(pd_first) ≫= λ v, unmarshal d v zero with
  | Some m => Ok m
  | None => Err (Opaque "invalid config payload")
  end.

(** [json.Unmarshal] of a whole message into a variable: nothing may follow the
    value, and what is decoded before a type error stays. *)
Definition unmarshal_whole {A} (d : decoder_of string A) (zero : A) (data : payload) : A * bool :=
  match data.(pd_first) with
  | Some v => if data.(pd_trailing) then (zero, false) else d v zero
  | None => (zero, false)
  end.

End decode.

(** ** Checks of the handlers *)

(** [normalizeStringList]. *)
Definition normalizeStringList (values : list string) : list string :=
  foldl (λ out value,
    let trimmed := TrimSpace value in
    if bool_decide (trimmed = "") || bool_decide (trimmed ∈ out) then out else out ++ [trimmed]) [] values.

(** [normalizePolicyProfile]. *)
Definition normalizePolicyProfile (profile : PolicyProfile) : result PolicyProfile :=
  let name := TrimSpace profile.(pp_Name) in
  if bool_decide (name = "") then Err (Opaque "policy profile name is required")
  else if (profile.(pp_RateLimit) <=? 0)%Z then
    Err (Opaque ("policy profile " +:+ name +:+ " rate_limit must be positive"))
  else if (profile.(pp_RateBurst) <=? 0)%Z then
    Err (Opaque ("policy profile " +:+ name +:+ " rate_burst must be positive"))
  else if negb (bool_decide (profile.(pp_EnforcementMode) = ModeEnforce))
          && negb (bool_decide (profile.(pp_EnforcementMode) = ModeAudit)) then
    Err (Opaque ("policy profile " +:+ name +:+ " enforcement_mode must be enforce or audit"))
  else
    Ok (mkPolicyProfile name profile.(pp_RateLimit) profile.(pp_RateBurst)
          (normalizeStringList profile.(pp_ToolAllowlist)) (normalizeStringList profile.(pp_ToolDenylist))
          profile.(pp_EnforcementMode)).

(** The loop over the profiles of a message: the map from names. *)
Fixpoint normalize_profiles (acc : list (string * PolicyProfile)) (l : list PolicyProfile) :
    result (list (string * PolicyProfile)) :=
  match l with
  | [] => Ok acc
  | profile :: l' =>
      match normalizePolicyProfile profile with
      | Err e => Err e
      | Ok p => normalize_profiles (assign acc p.(pp_Name) p) l'
      end
  end.

(** The loop over the prefixes of a message. *)
Fixpoint allow_list (l : list string) : result (list string) :=
  match l with
  | [] => Ok []
  | prefix :: l' =>
      let trimmed := TrimSpace prefix in
      if bool_decide (trimmed = "") then allow_list l'
      else if negb (HasPrefix trimmed "spiffe://") then Err (Opaque ("invalid SPIFFE prefix " +:+ trimmed))
      else match allow_list l' with Err e => Err e | Ok rest => Ok (trimmed :: rest) end
  end.

Section settings.
Context `{UnicodeTables}.

Definition forbidden_words : list string := ["secret"; "password"; "token"; "private_key"; "apikey"; "api_key"].

(** Whether a trimmed key looks like one of a secret. *)
Definition secret_like (trimmed : string) : bool := existsb (Contains (ToLower trimmed)) forbidden_words.

(** [validateNonSecretSetting]; the values of JSON have no other types. *)
Fixpoint validateNonSecretSetting (value : any) (key : string) : result () :=
  let trimmed := TrimSpace key in
  if bool_decide (trimmed = "") then Err (Opaque "setting key is empty")
  else if secret_like trimmed then Err (Opaque "secret-like key is not allowed")
  else
    match value with
    | AArr l =>
        (fix go l := match l with
           | [] => Ok ()
           | item :: l' => match validateNonSecretSetting item trimmed with Err e => Err e | Ok _ => go l' end
           end) l
    | AObj m =>
        (fix go m := match m with
           | [] => Ok ()
           | (nestedKey, nested) :: m' =>
               match validateNonSecretSetting nested nestedKey with Err e => Err e | Ok _ => go m' end
           end) m
    | _ => Ok ()
    end.

Fixpoint validate_entries (m : settings) : result () :=
  match m with
  | [] => Ok ()
  | (key, value) :: m' =>
      match validateNonSecretSetting value key with
      | Err e => Err (Wrap ("setting " +:+ key) e)
      | Ok _ => validate_entries m'
      end
  end.

(** [cloneSettingsMap], the same code as [cloneSettings] of the registration
    service. *)
Definition cloneSettingsMap (input : settings) : settings := cloneSettings input.

(** [buildValidatedServerSettings]: the map from server names. *)
Fixpoint build_settings (out : list (string * settings)) (servers : list ServerSettingsConfig) :
    result (list (string * settings)) :=
  match servers with
  | [] => Ok out
  | s :: servers' =>
      let serverName := TrimSpace s.(ss_ServerName) in
      if bool_decide (serverName = "") then Err (Opaque "server_name is required")
      else if bool_decide (s.(ss_EffectiveSettings) = []) then
        Err (Opaque ("effective_settings cannot be empty for " +:+ serverName))
      else
        match validate_entries s.(ss_EffectiveSettings) with
        | Err e => Err (Wrap ("server " +:+ serverName) e)
        | Ok _ => build_settings (assign out serverName (cloneSettingsMap s.(ss_EffectiveSettings))) servers'
        end
  end.
Definition buildValidatedServerSettings (servers : list ServerSettingsConfig) : result (list (string * settings)) :=
  build_settings [] servers.

End settings.

(** ** State *)

(** The table [config_cache]; [cs_faults] tells which statements fail. *)
Record ConfigStore := mkConfigStore { cs_rows : gmap string payload; cs_faults : list bool }.

Definition cs_statement {A} (f : gmap string payload → result A * gmap string payload) : ST ConfigStore A := λ s,
  match s.(cs_faults) with
  | true :: fs => (Err (Opaque "connection failed"), mkConfigStore s.(cs_rows) fs)
  | fs => let '(r, rows) := f s.(cs_rows) in (r, mkConfigStore rows (tail fs))
  end.

Definition cs_context {A} (ctx : string) (m : ST ConfigStore A) : ST ConfigStore A := λ s,
  match m s with (Err e, s') => (Err (Wrap ctx e), s') | r => r end.

(** [PostgresConfigStore]. *)
Definition ConfigSave (key : string) (value : payload) : ST ConfigStore () :=
  cs_context "config store save" (cs_statement (λ rows, (Ok (), <[key := value]> rows))).
Definition ConfigLoad (key : string) : ST ConfigStore payload :=
  cs_context "config store load" (cs_statement (λ rows,
    (match rows !! key with Some v => Ok v | None => Err ErrNoRows end, rows))).
(** The rows come in an order of the database. *)
Definition ConfigKeys : ST ConfigStore (list string) :=
  cs_context "config store keys" (cs_statement (λ rows, (Ok (map_to_list rows).*1, rows))).

(** The handlers the subscriber knows; [metricsServerSettingsHandler] wraps that of
    the settings. *)
Inductive ConfigHandler :=
| PolicyConfigHandler
| ServerConfigHandler
| ServerSettingsConfigHandler
| metricsServerSettingsHandler
| AuthConfigHandler
| ServerRegisteredAckHandler
| ToolMetadataConfigHandler.

(** What the handlers are wired with: a configuration store, a registration
    service, a callback, each or none. *)
Record Handlers := mkHandlers {
  hd_policyStore : bool;
  hd_serverStore : bool;
  hd_serverService : bool;
  hd_settingsStore : bool;
  hd_settingsService : bool;
  hd_authStore : bool;
  hd_ackService : bool;
  hd_metadataStore : bool;
  hd_onUpdate : bool;
  hd_lastMessage : option ToolMetadataConfigMessage;
}.

Record Client := mkClient { cl_gatewayID : string; cl_connected : bool }.

Inductive DegradationStatus :=
| DegradationStatusConnected
| DegradationStatusDegraded
| DegradationStatusDisconnected.
#[export] Instance DegradationStatus_eq_dec : EqDecision DegradationStatus.
Proof. solve_decision. Defined.

Record DegradationManager := mkDegradation {
  dg_client : bool;
  dg_configStore : bool;
  dg_subscriber : bool;
  dg_status : DegradationStatus;
  dg_everConnected : bool;
  dg_hasCachedConfig : bool;
  dg_lastKnownVersions : gmap string Z;
  dg_settingsSyncStatus : string;
  dg_settingsConfigVersion : Z;
}.

Inductive SettingsMetric :=
| SettingsRejected (server reason : string)
| SettingsApplied (server : string)
| SettingsVersion (server : string) (version : Z).

(** [snapshotRequestMessage]. *)
Record snapshotRequestMessage := mkSnapshotRequest {
  sq_GatewayID : string;
  sq_LastKnownVersions : gmap string Z;
}.

Record EventsWorld `{TokenBuckets} (E : Type) := mkEventsWorld {
  ew_engine : Engine;
  ew_memory : MemoryBackend;
  ew_resolver : DefaultProfileResolver;
  ew_service : World;
  ew_discovery : DiscoveryIndex E;
  ew_store : ConfigStore;
  ew_handlers : Handlers;
  ew_client : option Client;
  ew_subscriber : option (gmap string ConfigHandler);
  ew_degradation : option DegradationManager;
  ew_metrics : list SettingsMetric;
  ew_requests : list (string * snapshotRequestMessage);
}.
Arguments mkEventsWorld {_ _}.
Arguments ew_engine {_ _}.
Arguments ew_memory {_ _}.
Arguments ew_resolver {_ _}.
Arguments ew_service {_ _}.
Arguments ew_discovery {_ _}.
Arguments ew_store {_ _}.
Arguments ew_handlers {_ _}.
Arguments ew_client {_ _}.
Arguments ew_subscriber {_ _}.
Arguments ew_degradation {_ _}.
Arguments ew_metrics {_ _}.
Arguments ew_requests {_ _}.

Section world.
Context `{TokenBuckets} {E : Type}.
Implicit Types w : EventsWorld E.

Definition ew_set_policy (e : Engine) (mb : MemoryBackend) w : EventsWorld E :=
  mkEventsWorld e mb w.(ew_resolver) w.(ew_service) w.(ew_discovery) w.(ew_store) w.(ew_handlers)
    w.(ew_client) w.(ew_subscriber) w.(ew_degradation) w.(ew_metrics) w.(ew_requests).
Definition ew_set_service (x : World) w : EventsWorld E :=
  mkEventsWorld w.(ew_engine) w.(ew_memory) w.(ew_resolver) x w.(ew_discovery) w.(ew_store) w.(ew_handlers)
    w.(ew_client) w.(ew_subscriber) w.(ew_degradation) w.(ew_metrics) w.(ew_requests).
Definition ew_set_discovery (x : DiscoveryIndex E) w : EventsWorld E :=
  mkEventsWorld w.(ew_engine) w.(ew_memory) w.(ew_resolver) w.(ew_service) x w.(ew_store) w.(ew_handlers)
    w.(ew_client) w.(ew_subscriber) w.(ew_degradation) w.(ew_metrics) w.(ew_requests).
Definition ew_set_store (x : ConfigStore) w : EventsWorld E :=
  mkEventsWorld w.(ew_engine) w.(ew_memory) w.(ew_resolver) w.(ew_service) w.(ew_discovery) x w.(ew_handlers)
    w.(ew_client) w.(ew_subscriber) w.(ew_degradation) w.(ew_metrics) w.(ew_requests).
Definition ew_set_handlers (x : Handlers) w : EventsWorld E :=
  mkEventsWorld w.(ew_engine) w.(ew_memory) w.(ew_resolver) w.(ew_service) w.(ew_discovery) w.(ew_store) x
    w.(ew_client) w.(ew_subscriber) w.(ew_degradation) w.(ew_metrics) w.(ew_requests).
Definition ew_set_client (x : option Client) w : EventsWorld E :=
  mkEventsWorld w.(ew_engine) w.(ew_memory) w.(ew_resolver) w.(ew_service) w.(ew_discovery) w.(ew_store)
    w.(ew_handlers) x w.(ew_subscriber) w.(ew_degradation) w.(ew_metrics) w.(ew_requests).
Definition ew_set_subscriber (x : option (gmap string ConfigHandler)) w : EventsWorld E :=
  mkEventsWorld w.(ew_engine) w.(ew_memory) w.(ew_resolver) w.(ew_service) w.(ew_discovery) w.(ew_store)
    w.(ew_handlers) w.(ew_client) x w.(ew_degradation) w.(ew_metrics) w.(ew_requests).
Definition ew_set_degradation (x : option DegradationManager) w : EventsWorld E :=
  mkEventsWorld w.(ew_engine) w.(ew_memory) w.(ew_resolver) w.(ew_service) w.(ew_discovery) w.(ew_store)
    w.(ew_handlers) w.(ew_client) w.(ew_subscriber) x w.(ew_metrics) w.(ew_requests).
Definition ew_observe (x : list SettingsMetric) w : EventsWorld E :=
  mkEventsWorld w.(ew_engine) w.(ew_memory) w.(ew_resolver) w.(ew_service) w.(ew_discovery) w.(ew_store)
    w.(ew_handlers) w.(ew_client) w.(ew_subscriber) w.(ew_degradation) (w.(ew_metrics) ++ x) w.(ew_requests).
Definition ew_request (subject : string) (x : snapshotRequestMessage) w : EventsWorld E :=
  mkEventsWorld w.(ew_engine) w.(ew_memory) w.(ew_resolver) w.(ew_service) w.(ew_discovery) w.(ew_store)
    w.(ew_handlers) w.(ew_client) w.(ew_subscriber) w.(ew_degradation) w.(ew_metrics) (w.(ew_requests) ++ [(subject, x)]).

(** Calls of the store and of the registration service. *)
Definition on_store {A} (m : ST ConfigStore A) : ST (EventsWorld E) A := λ w,
  let '(r, s) := m w.(ew_store) in (r, ew_set_store s w).
Definition on_service {A} (m : ST World A) : ST (EventsWorld E) A := λ w,
  let '(r, s) := m w.(ew_service) in (r, ew_set_service s w).

(** [fmt.Errorf] around the error of a call. *)
Definition ew_context {A} (ctx : string) (m : ST (EventsWorld E) A) : ST (EventsWorld E) A := λ w,
  match m w with (Err e, w') => (Err (Wrap ctx e), w') | r => r end.

(** A call made when the collaborator is there. *)
Definition when (b : bool) (m : ST (EventsWorld E) ()) : ST (EventsWorld E) () := if b then m else ret ().

End world.

(** ** Handlers *)

Section handlers.
Context `{UnicodeTables} `{TokenBuckets} `{Postgres} {E : Type} `{SearchEngine E}.

(** [PolicyConfigHandler.Handle]. The backend it is given at the start is the one
    in memory. *)
Definition HandlePolicy (data : payload) : ST (EventsWorld E) () :=
  let* profiles := ew_context "handle policy config" (of_result (decodeConfigMessage d_policy_message [] data)) in
  if bool_decide (profiles = []) then throw (Opaque "handle policy config: profiles must not be empty")
  else
    let* named := ew_context "handle policy config" (of_result (normalize_profiles [] profiles)) in
    match List.find (λ p, bool_decide (p.1 = "default")) named with
    | None => throw (Opaque "handle policy config: default profile is required")
    | Some (_, defaultProfile) =>
        modify (λ w, ew_set_policy
          (ReplaceProfiles ((λ p, (p.1, Some p.2)) <$> named) w.(ew_engine))
          (MemorySetDefaults (f_of_Z defaultProfile.(pp_RateLimit)) defaultProfile.(pp_RateBurst) w.(ew_memory)) w);;
        let* hd := gets ew_handlers in
        when hd.(hd_policyStore)
          (ew_context "handle policy config: persist config" (on_store (ConfigSave configCachePolicyKey data)))
    end.

(** [ServerConfigHandler.Handle]. *)
Definition HandleServers (data : payload) : ST (EventsWorld E) () :=
  let* prefixes := ew_context "handle server config" (of_result (decodeConfigMessage d_server_message [] data)) in
  let* allowList := ew_context "handle server config" (of_result (allow_list prefixes)) in
  let* hd := gets ew_handlers in
  when hd.(hd_serverService) (on_service (UpdateSPIFFEAllowList allowList));;
  when hd.(hd_serverStore)
    (ew_context "handle server config: persist config" (on_store (ConfigSave configCacheServersKey data))).

(** [ServerSettingsConfigHandler.applyAndPersistSettings]. *)
Definition applyAndPersistSettings (configVersion : Z) (settingsByServer : list (string * settings)) (data : payload) :
    ST (EventsWorld E) () :=
  let* hd := gets ew_handlers in
  when hd.(hd_settingsService)
    (ew_context "handle server settings config: apply settings"
       (on_service (UpdateEffectiveSettings configVersion settingsByServer)));;
  when hd.(hd_settingsStore)
    (ew_context "handle server settings config: persist config"
       (on_store (ConfigSave configCacheServerSettingsKey data))).

(** [ServerSettingsConfigHandler.Handle]. *)
Definition HandleServerSettings (data : payload) : ST (EventsWorld E) () :=
  let* message := ew_context "handle server settings config"
    (of_result (decodeConfigMessage d_settings_message zero_settings_message data)) in
  if (message.(sm_ConfigVersion) <=? 0)%Z then
    throw (Opaque "handle server settings config: config_version must be positive")
  else
    let* settingsByServer := ew_context "handle server settings config"
      (of_result (buildValidatedServerSettings message.(sm_Servers))) in
    applyAndPersistSettings message.(sm_ConfigVersion) settingsByServer data.

(** [metricsServerSettingsHandler.Handle]. *)
Definition rejected_metrics (message : ServerSettingsConfigMessage) : list SettingsMetric :=
  match message.(sm_Servers) with
  | [] => [SettingsRejected "unknown" "apply_failed"]
  | servers => (λ s, SettingsRejected s.(ss_ServerName) "apply_failed") <$> servers
  end.
Definition applied_metrics (message : ServerSettingsConfigMessage) : list SettingsMetric :=
  mjoin ((λ s, SettingsApplied s.(ss_ServerName) ::
    (if (0 <? message.(sm_ConfigVersion))%Z then [SettingsVersion s.(ss_ServerName) message.(sm_ConfigVersion)] else []))
    <$> message.(sm_Servers)).
Definition HandleMetrics (data : payload) : ST (EventsWorld E) () :=
  let message := (unmarshal_whole d_settings_message zero_settings_message data).1 in
  let* r := attempt (HandleServerSettings data) in
  match r with
  | Err err => modify (ew_observe (rejected_metrics message));; throw err
  | Ok _ => modify (ew_observe (applied_metrics message))
  end.

(** [AuthConfigHandler.Handle]: the message is only stored. *)
Definition HandleAuth (data : payload) : ST (EventsWorld E) () :=
  let* _ := ew_context "handle auth config"
    (of_result (decodeConfigMessage d_auth_message (mkAuthConfigMessage "" "" "") data)) in
  let* hd := gets ew_handlers in
  when hd.(hd_authStore)
    (ew_context "handle auth config: persist config" (on_store (ConfigSave configCacheAuthKey data))).

(** [ServerRegisteredAckHandler.Handle]; the schema hash is not used. *)
Definition HandleAck (data : payload) : ST (EventsWorld E) () :=
  let* m := ew_context "handle server registration ack"
    (of_result (decodeConfigMessage d_ack_message (mkServerRegisteredAckPayload "" 0 "" "" "" zero_time) data)) in
  let registrationID := TrimSpace m.(ak_RegistrationID) in
  if bool_decide (registrationID = "") then
    throw (Opaque "handle server registration ack: registration_id is required")
  else if (m.(ak_LeaseEpoch) <=? 0)%Z then
    throw (Opaque "handle server registration ack: lease_epoch must be positive")
  else
    let* now := gets (λ w : EventsWorld E, w_now w.(ew_service)) in
    let ackedAt := if (m.(ak_AckedAt) =? zero_time)%Z then now else m.(ak_AckedAt) in
    let* hd := gets ew_handlers in
    when hd.(hd_ackService)
      (ew_context "handle server registration ack: apply ack"
         (on_service (AcknowledgeServerRegistration registrationID m.(ak_LeaseEpoch)
            (TrimSpace m.(ak_AckCapabilityHash)) (TrimSpace m.(ak_RegistryVersion)) ackedAt))).

(** The callback of [wireToolMetadataCallback]. *)
Definition applyToolMetadata (message : ToolMetadataConfigMessage) (w : EventsWorld E) : EventsWorld E :=
  ew_set_discovery
    (ApplyMetadata ((λ e, mkToolMetadata e.(te_ToolName) e.(te_Category) e.(te_Summary) e.(te_Tags) e.(te_Priority))
       <$> message.(tm_Tools)) w.(ew_discovery)) w.

Definition hd_set_metadata (onUpdate : bool) (m : option ToolMetadataConfigMessage) (hd : Handlers) : Handlers :=
  mkHandlers hd.(hd_policyStore) hd.(hd_serverStore) hd.(hd_serverService) hd.(hd_settingsStore)
    hd.(hd_settingsService) hd.(hd_authStore) hd.(hd_ackService) hd.(hd_metadataStore) onUpdate m.

(** [ToolMetadataConfigHandler.Handle]: a failure to store is logged. *)
Definition HandleToolMetadata (data : payload) : ST (EventsWorld E) () :=
  let* message := ew_context "handle tool metadata config"
    (of_result (decodeConfigMessage d_metadata_message (mkToolMetadataConfigMessage 0 []) data)) in
  let* hd := gets ew_handlers in
  let* _ := attempt (when hd.(hd_metadataStore) (on_store (ConfigSave configCacheToolMetadataKey data))) in
  modify (λ w, ew_set_handlers (hd_set_metadata hd.(hd_onUpdate) (Some message) w.(ew_handlers)) w);;
  when hd.(hd_onUpdate) (modify (applyToolMetadata message)).

(** [ToolMetadataConfigHandler.SetOnUpdate]: a message that came before is
    replayed. *)
Definition SetOnUpdate (w : EventsWorld E) : EventsWorld E :=
  let w' := ew_set_handlers (hd_set_metadata true w.(ew_handlers).(hd_lastMessage) w.(ew_handlers)) w in
  match w.(ew_handlers).(hd_lastMessage) with Some m => applyToolMetadata m w' | None => w' end.

Definition HandleConfig (h : ConfigHandler) (data : payload) : ST (EventsWorld E) () :=
  match h with
  | PolicyConfigHandler => HandlePolicy data
  | ServerConfigHandler => HandleServers data
  | ServerSettingsConfigHandler => HandleServerSettings data
  | metricsServerSettingsHandler => HandleMetrics data
  | AuthConfigHandler => HandleAuth data
  | ServerRegisteredAckHandler => HandleAck data
  | ToolMetadataConfigHandler => HandleToolMetadata data
  end.

(** ** The subscriber *)

(** [RegisterHandler]. *)
Definition RegisterHandler (subject : string) (h : ConfigHandler) (m : gmap string ConfigHandler) :
    gmap string ConfigHandler :=
  let normalized := TrimSpace subject in if bool_decide (normalized = "") then m else <[normalized := h]> m.

(** [RegisterGatewaySubjects], with the handlers the server gives it. *)
Definition RegisterGatewaySubjects (gatewayID : string) (m : gmap string ConfigHandler) : gmap string ConfigHandler :=
  RegisterHandler (SubjectForConfig gatewayID ConfigScopeAuth) AuthConfigHandler
    (RegisterHandler (SubjectForConfig gatewayID ConfigScopeServerSettings) metricsServerSettingsHandler
       (RegisterHandler (SubjectForConfig gatewayID ConfigScopeServers) ServerConfigHandler
          (RegisterHandler (SubjectForConfig gatewayID ConfigScopePolicy) PolicyConfigHandler m))).

(** [routeMessage]: the error of a handler is logged. *)
Definition routeMessage (subject : string) (data : payload) (w : EventsWorld E) : EventsWorld E :=
  match w.(ew_subscriber) ≫= λ m, m !! subject with
  | None => w
  | Some h => (HandleConfig h data w).2
  end.

(** [Subscriber.LoadCachedConfig]; the client is there when the subscriber is. *)
Definition load_cached_key (gatewayID : string) (handlers : gmap string ConfigHandler) (key : string) :
    ST (EventsWorld E) () :=
  let subject := cacheKeyToSubject gatewayID key in
  if bool_decide (subject = "") then ret ()
  else
    let* payload := ew_context ("load cached config: load key " +:+ key) (on_store (ConfigLoad key)) in
    match handlers !! subject with
    | None => ret ()
    | Some h => ew_context ("load cached config: apply key " +:+ key) (HandleConfig h payload)
    end.
Definition SubscriberLoadCachedConfig (gatewayID : string) (handlers : gmap string ConfigHandler) :
    ST (EventsWorld E) () :=
  let* keys := ew_context "load cached config: list keys" (on_store ConfigKeys) in
  for_each (load_cached_key gatewayID handlers) (sort_strings keys).

(** ** The degraded mode *)

Definition extractConfigVersion (key : string) (data : payload) : Z :=
  if bool_decide (key = configCacheServerSettingsKey) then
    let '(message, ok) := unmarshal_whole d_settings_message zero_settings_message data in
    if ok then message.(sm_ConfigVersion) else 0
  else 0.

Definition dg_set_status (st : DegradationStatus) (ever : bool) (sync : string) (m : DegradationManager) :
    DegradationManager :=
  mkDegradation m.(dg_client) m.(dg_configStore) m.(dg_subscriber) st ever m.(dg_hasCachedConfig)
    m.(dg_lastKnownVersions) sync m.(dg_settingsConfigVersion).

(** [NewDegradationManager]. *)
Definition NewDegradationManager (client : option Client) (configStore subscriber : bool) : DegradationManager :=
  let connected := match client with Some c => c.(cl_connected) | None => false end in
  mkDegradation (bool_decide (is_Some client)) configStore subscriber
    (if connected then DegradationStatusConnected else DegradationStatusDisconnected) connected false ∅ "unknown" 0.

(** [OnDisconnect]. *)
Definition OnDisconnect (m : DegradationManager) : DegradationManager :=
  dg_set_status DegradationStatusDegraded m.(dg_everConnected) m.(dg_settingsSyncStatus) m.

(** [OnReconnect]: the request is published when the client is connected; a
    failure to publish is logged. *)
Definition OnReconnect (w : EventsWorld E) : EventsWorld E :=
  match w.(ew_degradation) with
  | None => w
  | Some m =>
      let client := if m.(dg_client) then w.(ew_client) else None in
      let gatewayID := match client with Some c => c.(cl_gatewayID) | None => "" end in
      let w' := ew_set_degradation
        (Some (dg_set_status DegradationStatusConnected true "resync_requested" m)) w in
      match client with
      | Some c =>
          if c.(cl_connected)
          then ew_request (SubjectForConfigRequest gatewayID) (mkSnapshotRequest gatewayID m.(dg_lastKnownVersions)) w'
          else w'
      | None => w'
      end
  end.

(** [applyCachedState]. *)
Definition applyCachedState (versions : gmap string Z) (settingsVersion : Z) (keyCount : nat) (m : DegradationManager) :
    DegradationManager :=
  let cached := 0 <? keyCount in
  let '(sync, version) :=
    if (0 <? settingsVersion)%Z then ("cached", settingsVersion)
    else if cached then ("cached", m.(dg_settingsConfigVersion))
    else (m.(dg_settingsSyncStatus), m.(dg_settingsConfigVersion)) in
  mkDegradation m.(dg_client) m.(dg_configStore) m.(dg_subscriber)
    (if bool_decide (m.(dg_status) = DegradationStatusDisconnected) && cached
     then DegradationStatusDegraded else m.(dg_status))
    m.(dg_everConnected) cached versions sync version.

(** The loop of [LoadCachedConfig]: the version of every key. *)
Fixpoint cached_versions (keys : list string) (versions : gmap string Z) (settingsVersion : Z) :
    ST (EventsWorld E) (gmap string Z * Z) :=
  match keys with
  | [] => ret (versions, settingsVersion)
  | key :: keys' =>
      let* payload := ew_context ("load cached config: load key " +:+ key) (on_store (ConfigLoad key)) in
      let version := extractConfigVersion key payload in
      cached_versions keys' (<[key := version]> versions)
        (if bool_decide (key = configCacheServerSettingsKey) then version else settingsVersion)
  end.

(** [DegradationManager.LoadCachedConfig]. *)
Definition LoadCachedConfig (m : DegradationManager) : ST (EventsWorld E) () :=
  if negb m.(dg_configStore) then ret ()
  else
    let* keys := ew_context "load cached config: list keys" (on_store ConfigKeys) in
    let* versions := cached_versions keys ∅ 0 in
    let* w := gets id in
    match (if m.(dg_subscriber) then w.(ew_subscriber) else None), w.(ew_client) with
    | Some handlers, Some c =>
        ew_context "load cached config: apply cached config"
          (SubscriberLoadCachedConfig c.(cl_gatewayID) handlers)
    | _, _ => ret ()
    end;;
    modify (λ w, ew_set_degradation
      (Some (applyCachedState versions.1 versions.2 (length keys) m)) w).

(** ** The server *)

(** The settings of [server.New] that matter here, and how the outside answers:
    whether the TLS files load, NATS accepts the connection and the
    subscriptions. *)
Record ServerOptions := mkServerOptions {
  so_Config : Config;
  so_CruveroEnabled : bool;
  so_NATSURL : string;
  so_GatewayID : string;
  so_Database : bool;
}.
Record NatsEnv := mkNatsEnv { ne_TLS : bool; ne_Connect : bool; ne_Subscribe : bool }.

(** [defaultProfiles]; [defaultPolicyProfile] is the code of the registration
    service. *)
Definition defaultProfiles (cfg : Config) : list (string * PolicyProfile) :=
  [("default", defaultPolicyProfile (Some cfg));
   ("premium", mkPolicyProfile "premium" 50 100 [] [] ModeEnforce);
   ("admin", mkPolicyProfile "admin" 100 200 [] [] ModeEnforce)].

(** [NewDefaultProfileResolver]. *)
Definition NewDefaultProfileResolver (profiles : list (string * PolicyProfile)) (defaultProfile : PolicyProfile) :
    DefaultProfileResolver := mkProfileResolver (list_to_map profiles) (Some defaultProfile).

Definition no_handlers : Handlers := mkHandlers false false false false false false false false false None.

(** [initPolicyAndRateLimit]: a process starts with the service it will bind, an
    empty discovery index, and the table that is there. *)
Definition initPolicyAndRateLimit (o : ServerOptions) (service : World) (store : ConfigStore) : EventsWorld E :=
  let profiles := defaultProfiles o.(so_Config) in
  let defaultProfile := defaultPolicyProfile (Some o.(so_Config)) in
  mkEventsWorld (NewEngine ((λ p, (p.1, Some p.2)) <$> profiles) false)
    (MemorySetDefaults (f_of_Z defaultProfile.(pp_RateLimit)) defaultProfile.(pp_RateBurst)
       (NewMemoryBackend (5 * minute)))
    (NewDefaultProfileResolver profiles defaultProfile) service NewDiscoveryIndex store no_handlers None None None [] [].

(** [NewClient]: the connected client. *)
Definition NewClient (url gatewayID : string) (connect : bool) : option Client :=
  if bool_decide (TrimSpace url = "") || bool_decide (TrimSpace gatewayID = "") || negb connect then None
  else Some (mkClient (TrimSpace gatewayID) true).

(** [initEventSubscriber]: only the handler of the metadata gets the store. *)
Definition initEventSubscriber (o : ServerOptions) (subscribe : bool) (c : Client) (w : EventsWorld E) : EventsWorld E :=
  let handlers :=
    RegisterHandler (SubjectForConfig o.(so_GatewayID) ConfigScopeToolMetadata) ToolMetadataConfigHandler
      (RegisterHandler (SubjectForAck o.(so_GatewayID) AckScopeServerRegistered) ServerRegisteredAckHandler
         (RegisterGatewaySubjects c.(cl_gatewayID) ∅)) in
  if subscribe then
    ew_set_subscriber (Some handlers)
      (ew_set_handlers (mkHandlers false false false false false false false o.(so_Database) false None) w)
  else w.

(** [initNATS], with [initDegradationHandlers]. *)
Definition initNATS (o : ServerOptions) (env : NatsEnv) (w : EventsWorld E) : EventsWorld E :=
  if negb o.(so_CruveroEnabled) || bool_decide (TrimSpace o.(so_NATSURL) = "") then w
  else if negb env.(ne_TLS) then w
  else
    match NewClient o.(so_NATSURL) o.(so_GatewayID) env.(ne_Connect) with
    | None => w
    | Some c =>
        let w := ew_set_client (Some c) (ew_set_policy (SetViolationEventPublisher true w.(ew_engine)) w.(ew_memory) w) in
        let w := initEventSubscriber o env.(ne_Subscribe) c w in
        ew_set_degradation
          (Some (NewDegradationManager (Some c) o.(so_Database) (bool_decide (is_Some w.(ew_subscriber))))) w
    end.

(** [initDegradationFallback]: without NATS, a manager with no subscriber loads the
    cache; its errors are logged. *)
Definition initDegradationFallback (o : ServerOptions) (w : EventsWorld E) : EventsWorld E :=
  if negb o.(so_CruveroEnabled) then w
  else
    match w.(ew_degradation) with
    | Some _ => w
    | None =>
        let m := NewDegradationManager None o.(so_Database) false in
        (LoadCachedConfig m (ew_set_degradation (Some m) w)).2
    end.

(** [server.New]. *)
Definition NewServer (o : ServerOptions) (env : NatsEnv) (service : World) (store : ConfigStore) : EventsWorld E :=
  initDegradationFallback o (initNATS o env (initPolicyAndRateLimit o service store)).

(** [BindRegistrationService]: the handlers are there when the subscriber
    started. *)
Definition BindRegistrationService (w : EventsWorld E) : EventsWorld E :=
  match w.(ew_subscriber) with
  | None => w
  | Some _ =>
      let hd := w.(ew_handlers) in
      ew_set_handlers (mkHandlers hd.(hd_policyStore) hd.(hd_serverStore) true hd.(hd_settingsStore) true
        hd.(hd_authStore) true hd.(hd_metadataStore) hd.(hd_onUpdate) hd.(hd_lastMessage)) w
  end.

(** [wireToolMetadataCallback]. *)
Definition wireToolMetadataCallback (w : EventsWorld E) : EventsWorld E :=
  match w.(ew_subscriber) with None => w | Some _ => SetOnUpdate w end.

(** The callbacks of the connection. *)
Definition natsDisconnected (w : EventsWorld E) : EventsWorld E :=
  match w.(ew_client) with
  | None => w
  | Some c =>
      ew_set_degradation (OnDisconnect <$> w.(ew_degradation)) (ew_set_client (Some (mkClient c.(cl_gatewayID) false)) w)
  end.
Definition natsReconnected (w : EventsWorld E) : EventsWorld E :=
  match w.(ew_client) with
  | None => w
  | Some c => OnReconnect (ew_set_client (Some (mkClient c.(cl_gatewayID) true)) w)
  end.
Definition natsClosed (w : EventsWorld E) : EventsWorld E :=
  ew_set_client ((λ c, mkClient c.(cl_gatewayID) false) <$> w.(ew_client)) w.

(** [handleReady], once [New] has returned: the code, and the parts of the answer
    about NATS. *)
Record Readiness := mkReadiness {
  rd_code : Z;
  rd_status : string;
  rd_nats : option string;
  rd_settings : option (string * Z);
}.
Definition handleReady (o : ServerOptions) (w : EventsWorld E) : Readiness :=
  if negb o.(so_CruveroEnabled) then mkReadiness 200 "ok" None None
  else
    let '(status, nats, ready, sync) :=
      match w.(ew_degradation) with
      | None => ("degraded", "disconnected", false, ("unknown", 0%Z))
      | Some m =>
          let '(status, nats) := match m.(dg_status) with
            | DegradationStatusConnected => ("ok", "connected")
            | _ => ("degraded", "disconnected")
            end in
          (status, nats, m.(dg_everConnected) || m.(dg_hasCachedConfig),
           (m.(dg_settingsSyncStatus), m.(dg_settingsConfigVersion)))
      end in
    if ready : bool then mkReadiness 200 status (Some nats) (Some sync)
    else mkReadiness 503 "not_ready" (Some nats) (Some sync).

End handlers.

(** ** The publisher: publisher.go *)

Definition maxTCPPort : Z := 65535.
Definition isValidTCPPort (port : Z) : bool := (0 <? port)%Z && (port <=? maxTCPPort)%Z.
Definition isIPv6Literal (host : string) : bool := Contains host ":" && bool_decide (is_Some (ParseIP host)).

(** [normalizeEndpointHost]. *)
Definition normalizeEndpointHost (host : string) : string :=
  let host := TrimSpace host in
  if (2 <? len host) && HasPrefix host "[" && HasSuffix host "]"
  then TrimSpace (slice_from (slice_to host (len host - 1)) 1) else host.

(** [net.JoinHostPort]. *)
Definition JoinHostPort (host port : string) : string :=
  if Contains host ":" then "[" +:+ host +:+ "]:" +:+ port else host +:+ ":" +:+ port.

(** [String] of a URL that has only a scheme and a host. *)
Definition url_String (scheme host : string) : string :=
  scheme +:+ "://" +:+ of_bytes (escape encodeHost (to_bytes host)).

Record ServerRegisteredPayload := mkServerRegisteredPayload {
  sp_EventID : string;
  sp_OccurredAt : Z;
  sp_ServerID : string;
  sp_RegistrationID : string;
  sp_LeaseEpoch : Z;
  sp_CapabilityHash : string;
  sp_SyncState : string;
  sp_Name : string;
  sp_SPIFFEID : string;
  sp_Capabilities : Capability;
  sp_Endpoint : string;
  sp_EndpointURL : string;
  sp_AllowedEndpoints : list string;
}.

Inductive EventPayload :=
| ServerRegisteredEvent (p : ServerRegisteredPayload)
| ServerDeregisteredEvent (serverID name reason : string)
| ServerHealthChangedEvent (serverID name : string) (oldStatus newStatus : ServerStatus)
| PolicyViolatedEvent (clientID toolName : string) (violations : list string) (decision : string)
| ServerCapabilitiesChangedEvent (serverID capabilitiesHash : string) (toolNames : list string).

Record EventEnvelope := mkEventEnvelope {
  ee_EventType : string;
  ee_Timestamp : Z;
  ee_GatewayID : string;
  ee_Payload : EventPayload;
}.

Record Publisher := mkPublisher { pb_client : option Client; pb_gatewayID : string }.

(** [NewPublisher]. *)
Definition NewPublisher (client : option Client) (gatewayID : string) : Publisher :=
  let gateway := TrimSpace gatewayID in
  mkPublisher client
    (if bool_decide (gateway = "") then match client with Some c => c.(cl_gatewayID) | None => gateway end else gateway).

(** [newEventID], on eight random bytes, or none. *)
Definition newEventID (random : option bytes) (now : Z) : string :=
  "evt-" +:+ match random with Some b => of_bytes (hex_encode b) | None => pretty now end.

Section publisher.
Context `{UnicodeTables}.

(** [canonicalEndpointURL]. *)
Definition canonicalEndpointURL (host protocol : string) (port : Z) : string :=
  let host := normalizeEndpointHost host in
  if bool_decide (host = "") then ""
  else
    let scheme := ToLower (TrimSpace protocol) in
    let scheme :=
      if negb (bool_decide (scheme = "http")) && negb (bool_decide (scheme = "https")) then "https" else scheme in
    let hostPort :=
      if isValidTCPPort port then JoinHostPort host (pretty port)
      else if isIPv6Literal host then "[" +:+ host +:+ "]" else host in
    url_String scheme hostPort.

(** The payload of [PublishServerRegistered]. *)
Definition registered_payload (random : option bytes) (now : Z) (server : ServerRecord) : ServerRegisteredPayload :=
  let host := normalizeEndpointHost server.(Host) in
  let endpoint :=
    if negb (bool_decide (host = "")) && isValidTCPPort server.(Port)
    then JoinHostPort host (pretty server.(Port)) else host in
  let endpointURL := canonicalEndpointURL host server.(Protocol) server.(Port) in
  mkServerRegisteredPayload (newEventID random now) now server.(ID) server.(ID) server.(LeaseEpoch)
    (TrimSpace server.(CapabilityHash)) (TrimSpace (RegistrationSyncState_String server.(SyncState)))
    server.(Name) server.(SPIFFEID) server.(Capabilities) endpoint endpointURL
    (if bool_decide (endpointURL = "") then [] else [endpointURL]).

(** The messages on the bus. *)
Abbreviation bus := (list (string * EventEnvelope)).

(** [Publisher.publish]; [delivered] tells whether the client takes the message. *)
Definition publish_event (p : Publisher) (now : Z) (delivered : bool) (eventType : string) (payload : EventPayload) :
    ST bus () := λ sent,
  match p.(pb_client) with
  | None => (Ok (), sent)
  | Some c =>
      if negb c.(cl_connected) then (Ok (), sent)
      else if delivered then
        (Ok (), sent ++ [(SubjectForEvent p.(pb_gatewayID) eventType,
                          mkEventEnvelope (TrimSpace eventType) now p.(pb_gatewayID) payload)])
      else (Err (Wrap ("publish " +:+ eventType +:+ " event") (Opaque "publish nats message")), sent)
  end.

Definition PublishServerRegistered (p : Publisher) (now : Z) (delivered : bool) (random : option bytes)
    (server : ServerRecord) : ST bus () :=
  publish_event p now delivered "server.registered" (ServerRegisteredEvent (registered_payload random now server)).
Definition PublishServerDeregistered (p : Publisher) (now : Z) (delivered : bool) (serverID name reason : string) :
    ST bus () :=
  publish_event p now delivered "server.deregistered"
    (ServerDeregisteredEvent (TrimSpace serverID) (TrimSpace name) (TrimSpace reason)).
Definition PublishServerHealthChanged (p : Publisher) (now : Z) (delivered : bool) (serverID name : string)
    (oldStatus newStatus : ServerStatus) : ST bus () :=
  publish_event p now delivered "server.health_changed"
    (ServerHealthChangedEvent (TrimSpace serverID) (TrimSpace name) oldStatus newStatus).
Definition PublishPolicyViolated (p : Publisher) (now : Z) (delivered : bool) (clientID toolName : string)
    (violations : list string) (decision : string) : ST bus () :=
  publish_event p now delivered "policy.violated"
    (PolicyViolatedEvent (TrimSpace clientID) (TrimSpace toolName) violations (TrimSpace decision)).
Definition PublishServerCapabilitiesChanged (p : Publisher) (now : Z) (delivered : bool)
    (serverID capabilitiesHash : string) (toolNames : list string) : ST bus () :=
  publish_event p now delivered "server.capabilities_changed"
    (ServerCapabilitiesChangedEvent (TrimSpace serverID) (TrimSpace capabilitiesHash) toolNames).

End publisher.
