(* ===== verification/EventsProps.v ===== *)
(** * Properties of the events layer

    No setting that looks like a secret reaches a backend, and versions of settings
    only grow; what a policy message installs; what of the configuration survives a
    restart; and when the gateway is ready. *)

From stdpp Require Import pretty.
From S2P Require Import Prelude GoStrings Encoding GoNet GoFloat Types RegTypes Store Json Document CapIndex.
From S2P Require Import Registration RegInvariant RateLimit Regex Policy Resilience Routing Search Discovery Events.

#[local] Open Scope string_scope.
#[local] Open Scope list_scope.
#[local] Open Scope nat_scope.
#[local] Open Scope go_scope.

(** ** Runs *)

(** What happens to a running gateway, seen from this layer: messages, changes of
    the connection, the wiring done at the start, and the calls of the registration
    service by other parts. *)
Inductive event_step :=
| EvMessage (subject : string) (data : payload)
| EvDisconnected
| EvReconnected
| EvClosed
| EvBind
| EvCallback
| EvService (c : service_call).

(** The other parts do not push settings. *)
Definition from_outside (s : event_step) : Prop :=
  match s with EvService (CallUpdateSettings _ _) => False | _ => True end.

Section run.
Context `{UnicodeTables} `{TokenBuckets} `{Postgres} `{Entropy} {E : Type} `{SearchEngine E}.
Context (svc : Service).

Definition event (w : EventsWorld E) (s : event_step) : EventsWorld E :=
  match s with
  | EvMessage subject data => routeMessage subject data w
  | EvDisconnected => natsDisconnected w
  | EvReconnected => natsReconnected w
  | EvClosed => natsClosed w
  | EvBind => BindRegistrationService w
  | EvCallback => wireToolMetadataCallback w
  | EvService c => ew_set_service (call svc w.(ew_service) c) w
  end.

End run.

(** ** Keys of settings *)

(** A key of an object somewhere inside a value. *)
Inductive key_in (k : string) : any → Prop :=
| key_here m v : (k, v) ∈ m → key_in k (AObj m)
| key_object m k' v : (k', v) ∈ m → key_in k v → key_in k (AObj m)
| key_array l v : v ∈ l → key_in k v → key_in k (AArr l).

Section keys.
Context `{UnicodeTables}.

(** No key of a value looks like one of a secret. *)
Definition no_secrets (v : any) : Prop := ∀ k, key_in k v → secret_like (TrimSpace k) = false.

Lemma no_secrets_arr l : Forall no_secrets l → no_secrets (AArr l).
Proof. intros Hl k Hk. inversion Hk; subst. rewrite Forall_forall in Hl. by eapply Hl. Qed.

Lemma no_secrets_obj m :
  Forall (λ p, secret_like (TrimSpace p.1) = false ∧ no_secrets p.2) m → no_secrets (AObj m).
Proof.
  intros Hm k Hk. rewrite Forall_forall in Hm. inversion Hk; subst.
  - by destruct (Hm (k, v)).
  - destruct (Hm (k', v)) as [_ Hv]; [done|]. by apply Hv.
Qed.

Lemma no_secrets_scalar v : (∀ l, v ≠ AArr l) → (∀ m, v ≠ AObj m) → no_secrets v.
Proof. intros Ha Ho k Hk. destruct Hk as [m v|m k' v|l v]; [by destruct (Ho m)|by destruct (Ho m)|by destruct (Ha l)]. Qed.

(** The check accepts only values without such keys. *)
Lemma validate_sound v key :
  validateNonSecretSetting v key = Ok () → secret_like (TrimSpace key) = false ∧ no_secrets v.
Proof.
  revert key. induction v as [| | | |l IH|m IH] using any_rect'; intros key; simpl;
    (destruct (bool_decide (TrimSpace key = "")); [done|]; destruct (secret_like (TrimSpace key)); [done|]);
    intros Hv; (split; [done|]); try (by apply no_secrets_scalar).
  - apply no_secrets_arr. revert Hv. induction IH as [|x l Hx _ IHl]; [constructor|].
    destruct (validateNonSecretSetting x _) as [|[]] eqn:Ex; [done|]. intros Hl.
    constructor; [by eapply Hx|by apply IHl].
  - apply no_secrets_obj. revert Hv. induction IH as [|[k x] m Hx _ IHm]; [constructor|].
    destruct (validateNonSecretSetting x k) as [|[]] eqn:Ex; [done|]. intros Hm.
    constructor; [by eapply Hx|by apply IHm].
Qed.

Lemma validate_entries_sound m : validate_entries m = Ok () → no_secrets (AObj m).
Proof.
  intros Hm. apply no_secrets_obj. induction m as [|[k v] m IH]; [constructor|]. simpl in Hm.
  destruct (validateNonSecretSetting v k) as [|[]] eqn:Ev; [done|].
  constructor; [by eapply validate_sound|by apply IH].
Qed.

(** An object of [no_secrets], entry by entry. *)
Lemma no_secrets_entry m k v : no_secrets (AObj m) → (k, v) ∈ m → secret_like (TrimSpace k) = false ∧ no_secrets v.
Proof.
  intros Hm Hk. split; [by apply Hm; econstructor|]. intros k' Hk'. apply Hm. by eapply key_object.
Qed.

Lemma assign_entries {A} (m : list (string * A)) k v (P : string * A → Prop) :
  Forall P m → P (k, v) → Forall P (assign m k v).
Proof.
  intros Hm Hv. induction Hm as [|[k' v'] m Hp Hm IH]; simpl; [by repeat constructor|].
  case_bool_decide; constructor; by subst.
Qed.

Lemma fold_assign_entries {A} (P : string * A → Prop) (l acc : list (string * A)) :
  Forall P l → Forall P acc →
  Forall P (foldl (λ out p, if bool_decide (p.1 = "") then out else assign out p.1 p.2) acc l).
Proof.
  intros Hl. revert acc. induction Hl as [|[k x] l Hx Hl IH]; intros acc Hacc; simpl; [done|].
  apply IH. case_bool_decide; [done|]. by apply assign_entries.
Qed.

(** Copies of settings have the keys of the original, trimmed. *)
Lemma clone_no_secrets v : no_secrets v → no_secrets (clone_value v).
Proof.
  induction v as [| | | |l IH|m IH] using any_rect'; intros Hv; [exact Hv..| |]; cbn [clone_value].
  - apply no_secrets_arr.
    assert (Hl : Forall no_secrets l).
    { apply Forall_forall. intros x Hx k Hk. apply Hv. by eapply key_array. }
    clear Hv. induction IH as [|x l Hx _ IHl]; [constructor|]. apply Forall_cons in Hl as [Hxs Hl].
    specialize (IHl Hl). destruct x; constructor; try exact IHl; try exact Hxs. exact (Hx Hxs).
  - apply no_secrets_obj, fold_assign_entries; [|constructor].
    assert (Hm : Forall (λ p, secret_like (TrimSpace p.1) = false ∧ no_secrets p.2) m)
      by (apply Forall_forall; intros [k x] Hx; by eapply no_secrets_entry).
    clear Hv. induction IH as [|[k x] m Hx _ IHm]; [constructor|]. apply Forall_cons in Hm as [[Hk Hs] Hm].
    constructor; [|exact (IHm Hm)]. split; [|exact (Hx Hs)]. cbn [fst]. rewrite TrimSpace_idemp. exact Hk.
Qed.

Lemma cloneSettings_obj s : AObj (cloneSettings s) = clone_value (AObj s).
Proof. done. Qed.

(** The settings of every server. *)
Lemma build_no_secrets servers out result :
  Forall (λ p, no_secrets (AObj p.2)) out → build_settings out servers = Ok result →
  Forall (λ p, no_secrets (AObj p.2)) result.
Proof.
  revert out. induction servers as [|s servers IH]; intros out Hout; simpl; [by intros [= <-]|].
  case_bool_decide; [done|]. case_bool_decide; [done|].
  destruct (validate_entries _) as [|[]] eqn:Ev; [done|]. apply IH.
  apply assign_entries; [done|]. simpl. unfold cloneSettingsMap. rewrite cloneSettings_obj.
  by apply clone_no_secrets, validate_entries_sound.
Qed.

(** A registration service whose settings are free of secrets. *)
Definition clean_service (w : World) : Prop :=
  map_Forall (λ _ s, no_secrets (AObj s)) w.(w_effectiveSettings).

Lemma next_settings_clean l :
  Forall (λ p, no_secrets (AObj p.2)) l → map_Forall (λ _ s, no_secrets (AObj s)) (next_settings l).
Proof.
  intros Hl. unfold next_settings.
  assert (Hacc : map_Forall (λ _ s, no_secrets (AObj s)) (∅ : gmap string settings)) by apply map_Forall_empty.
  revert Hacc. generalize (∅ : gmap string settings).
  induction Hl as [|[n s] l Hs Hl IH]; intros acc Hacc; simpl; [done|]. apply IH.
  case_bool_decide; [done|]. apply map_Forall_insert_2; [|done].
  rewrite cloneSettings_obj. by apply clone_no_secrets.
Qed.

End keys.

(** ** What the calls leave alone

    No call of the registration service but the update of the settings changes
    them. *)
Section frame.
Context `{UnicodeTables} `{Postgres} `{Entropy} (svc : Service) (x : Z * gmap string settings).

Definition settings_are (w : World) : Prop := (w.(w_settingsVersion), w.(w_effectiveSettings)) = x.

Lemma settings_on_db {A} (m : ST DB A) : preserves settings_are (on_db m).
Proof. intros w Hw. unfold on_db. by destruct (m (w_db w)). Qed.
Lemma settings_modify f :
  (∀ w, (f w).(w_settingsVersion) = w.(w_settingsVersion)) →
  (∀ w, (f w).(w_effectiveSettings) = w.(w_effectiveSettings)) → preserves settings_are (modify f).
Proof. intros Hv Hs w Hw. unfold settings_are. simpl. by rewrite Hv, Hs. Qed.
Lemma settings_wrapping {A} ctx (m : ST World A) : preserves settings_are m → preserves settings_are (wrapping ctx m).
Proof. intros Hm w Hw. unfold wrapping. specialize (Hm w Hw). by destruct (m w) as [[|] ?]. Qed.
Lemma settings_newUUID : preserves settings_are newUUID.
Proof. intros w Hw. unfold newUUID. by destruct (rand_block _). Qed.
Lemma settings_index_refresh id : preserves settings_are (index_refresh id).
Proof.
  intros w Hw. unfold index_refresh. case_bool_decide; [by destruct (RefreshServer _ _ _)|].
  destruct (Get id (w_db w)) as [r db]. by destruct (RefreshServer _ _ _).
Qed.

#[local] Hint Resolve settings_on_db settings_wrapping settings_newUUID settings_index_refresh : gateway.
#[local] Hint Extern 2 (preserves settings_are (modify _)) => (apply settings_modify; reflexivity) : gateway.

Lemma settings_Register caller req : preserves settings_are (Register svc caller req).
Proof.
  unfold Register, postRegister, classifyNewTools, classify_tool, publishClassificationBroadcast,
    publishBroadcast, publish, logAudit, AddActiveRegistrations, effectiveSettingsForServer. preserve.
Qed.
Lemma settings_RefreshCapabilities r h l : preserves settings_are (RefreshCapabilities svc r h l).
Proof.
  unfold RefreshCapabilities, publishClassificationBroadcast, publishBroadcast, publish, logAudit.
  preserve.
Qed.
Lemma settings_syncServer id : preserves settings_are (syncServer id).
Proof. unfold syncServer. preserve. Qed.
Lemma settings_indexRemove id : preserves settings_are (indexRemove id).
Proof. unfold indexRemove. preserve. Qed.
Lemma settings_lookup caller id : preserves settings_are (lookupHeartbeatRecord caller id).
Proof. unfold lookupHeartbeatRecord. preserve. Qed.
Lemma settings_transition id r : preserves settings_are (applyHeartbeatTransition svc id r).
Proof. unfold applyHeartbeatTransition, publish, publishBroadcast, AddActiveRegistrations. preserve. Qed.
#[local] Hint Resolve settings_Register settings_RefreshCapabilities settings_syncServer settings_indexRemove
  settings_lookup settings_transition : gateway.

Lemma settings_Heartbeat caller id req : preserves settings_are (Heartbeat svc caller id req).
Proof. unfold Heartbeat, effectiveSettingsForServer, logAudit, publishBroadcast. preserve. Qed.
Lemma settings_Deregister caller id : preserves settings_are (Deregister svc caller id).
Proof. unfold Deregister, publish, publishBroadcast, logAudit, AddActiveRegistrations. preserve. Qed.
#[local] Hint Resolve settings_Heartbeat settings_Deregister : gateway.

Lemma settings_call w c : from_outside (EvService c) → settings_are w → settings_are (call svc w c).
Proof.
  intros Hc Hw. destruct c; cbn [call]; try done;
    match goal with |- settings_are (?m w).2 => cut (preserves settings_are m); [intros Hp; by apply Hp|clear w Hw] end.
  - unfold IndexedRegister. preserve.
  - unfold IndexedHeartbeat. preserve.
  - unfold AcknowledgeServerRegistration. preserve.
  - unfold IndexedDeregister. preserve.
  - unfold ServiceRefreshCapabilities. preserve.
  - unfold SyncClassifications, classifyNewTools, classify_tool, publishClassificationBroadcast. preserve.
  - unfold SubscriberHandle. preserve.
  - unfold sweep, sweepStale, sweepExpired, transitionServer, publish, publishBroadcast, logAudit,
      AddActiveRegistrations. preserve.
Qed.

End frame.

(** ** Predicates of the handlers *)

Section handlers.
Context `{UnicodeTables} `{TokenBuckets} `{Postgres} `{Entropy} {E : Type} `{SearchEngine E}.
Context (P : EventsWorld E → Prop).

Lemma preserves_of_result {A} (r : result A) : preserves P (of_result r).
Proof. by intros w. Qed.
Lemma preserves_context {A} ctx (m : ST (EventsWorld E) A) : preserves P m → preserves P (ew_context ctx m).
Proof. intros Hm w Hw. unfold ew_context. specialize (Hm w Hw). by destruct (m w) as [[|] ?]. Qed.
Lemma preserves_when b m : preserves P m → preserves P (when b m).
Proof. intros Hm. destruct b; [exact Hm|apply preserves_ret]. Qed.
Lemma preserves_on_store {A} (m : ST ConfigStore A) (Q : ConfigStore → Prop) :
  preserves Q m → (∀ w, P w → Q w.(ew_store)) → (∀ w s, P w → Q s → P (ew_set_store s w)) →
  preserves P (on_store m).
Proof.
  intros Hm Hq Hs w Hw. unfold on_store. specialize (Hm _ (Hq w Hw)). destruct (m _). by apply Hs.
Qed.
Lemma preserves_on_service {A} (m : ST World A) (Q : World → Prop) :
  preserves Q m → (∀ w, P w → Q w.(ew_service)) → (∀ w s, P w → Q s → P (ew_set_service s w)) →
  preserves P (on_service m).
Proof.
  intros Hm Hq Hs w Hw. unfold on_service. specialize (Hm _ (Hq w Hw)). destruct (m _). by apply Hs.
Qed.

(** A check before a call. *)
Lemma preserves_checked {A B} ctx (r : result A) (k : A → ST (EventsWorld E) B) :
  (∀ x, r = Ok x → preserves P (k x)) → preserves P (bind (ew_context ctx (of_result r)) k).
Proof. intros Hk w Hw. unfold bind, ew_context, of_result. destruct r as [e|x]; [done|]. by apply Hk. Qed.

(** A call that depends on the wiring. *)
Lemma preserves_wired {B} (k : Handlers → ST (EventsWorld E) B) :
  (∀ w, P w → preserves P (k w.(ew_handlers))) → preserves P (bind (gets ew_handlers) k).
Proof. intros Hk w Hw. unfold bind, gets. by apply (Hk w Hw). Qed.

End handlers.

#[export] Hint Resolve preserves_of_result preserves_context preserves_when : gateway.

(** ** Settings *)

Section settings.
Context `{UnicodeTables} `{TokenBuckets} `{Postgres} `{Entropy} {E : Type} `{SearchEngine E}.
Context (svc : Service).

(** The settings are free of secrets, and at version [v] at least. *)
Definition settled (v : Z) (w : World) : Prop := clean_service w ∧ (v <= w.(w_settingsVersion))%Z.
Definition settles (v : Z) (w : EventsWorld E) : Prop := settled v w.(ew_service).

Lemma settles_store {A} v (m : ST ConfigStore A) : preserves (settles v) (on_store m).
Proof. by apply (preserves_on_store _ _ (λ _, True)). Qed.
Lemma settles_modify v f : (∀ w : EventsWorld E, (f w).(ew_service) = w.(ew_service)) → preserves (settles v) (modify f).
Proof. intros Hf w Hw. unfold settles. simpl. by rewrite Hf. Qed.
Lemma settles_service {A} v (m : ST World A) : preserves (settled v) m → preserves (settles v) (on_service m).
Proof. intros Hm. by apply (preserves_on_service _ _ (settled v)). Qed.

#[local] Hint Resolve settles_store settles_service : gateway.
#[local] Hint Extern 2 (preserves (settles _) (modify _)) => (apply settles_modify; reflexivity) : gateway.

Lemma settled_update v version byServer :
  Forall (λ p, no_secrets (AObj p.2)) byServer → preserves (settled v) (UpdateEffectiveSettings version byServer).
Proof.
  intros Hs w [Hc Hv]. unfold UpdateEffectiveSettings, bind, gets, throw. destruct (_ <=? 0)%Z; [done|].
  destruct (_ <? _)%Z eqn:Ev; [done|]. reflect_bools. split; simpl; [by apply next_settings_clean|lia].
Qed.
Lemma settled_frame v (m : ST World ()) : (∀ x, preserves (settings_are x) m) → preserves (settled v) m.
Proof.
  intros Hm w [Hc Hv]. specialize (Hm _ w eq_refl). injection Hm as Hver Hset.
  split; [unfold clean_service; by rewrite Hset|by rewrite Hver].
Qed.
Lemma settled_allow v l : preserves (settled v) (UpdateSPIFFEAllowList l).
Proof. by intros w. Qed.
Lemma settled_ack v id lease hash version t : preserves (settled v) (AcknowledgeServerRegistration id lease hash version t).
Proof.
  apply settled_frame. intros x w Hw. by apply (settings_call svc x w (CallAck id lease hash version t)).
Qed.
#[local] Hint Resolve settled_allow settled_ack : gateway.

Lemma settles_server_settings v data : preserves (settles v) (HandleServerSettings (E := E) data).
Proof.
  unfold HandleServerSettings, applyAndPersistSettings. apply preserves_checked. intros message _.
  apply preserves_if; [apply preserves_throw|]. apply preserves_checked. intros byServer Hb.
  assert (Hs : Forall (λ p, no_secrets (AObj p.2)) byServer) by (eapply build_no_secrets, Hb; constructor).
  pose proof (settled_update v (sm_ConfigVersion message) byServer Hs). preserve.
Qed.
#[local] Hint Resolve settles_server_settings : gateway.

Lemma settles_handler v h data : preserves (settles v) (HandleConfig (E := E) h data).
Proof.
  destruct h; simpl.
  - unfold HandlePolicy. preserve.
  - unfold HandleServers. preserve.
  - preserve.
  - unfold HandleMetrics. preserve.
  - unfold HandleAuth. preserve.
  - unfold HandleAck. preserve.
  - unfold HandleToolMetadata. preserve.
Qed.

Lemma settles_event v (w : EventsWorld E) s : from_outside s → settles v w → settles v (event svc w s).
Proof.
  intros Hs Hw. destruct s; simpl.
  - unfold routeMessage. destruct (_ ≫= _); [by apply settles_handler|done].
  - unfold natsDisconnected. by destruct (ew_client w).
  - unfold natsReconnected, OnReconnect. destruct (ew_client w); [|done]. simpl.
    destruct (ew_degradation w) as [m|]; [|done]. by destruct (dg_client m).
  - done.
  - unfold BindRegistrationService. by destruct (ew_subscriber w).
  - unfold wireToolMetadataCallback, SetOnUpdate. destruct (ew_subscriber w); [|done].
    by destruct (hd_lastMessage _).
  - destruct Hw as [Hc Hv]. pose proof (settings_call svc _ (ew_service w) c Hs eq_refl) as Hx.
    injection Hx as Hver Hset. split; [unfold clean_service; simpl; by rewrite Hset|simpl; by rewrite Hver].
Qed.

End settings.

(** ** The store of the configuration *)

Section store.
Context (rows : gmap string payload).

Definition rows_are (s : ConfigStore) : Prop := s.(cs_rows) = rows.

Lemma rows_read {A} ctx (f : gmap string payload → result A) :
  preserves rows_are (cs_context ctx (cs_statement (λ r, (f r, r)))).
Proof.
  intros s Hs. unfold cs_context, cs_statement. destruct (cs_faults s) as [|[] fs]; simpl; [|done|];
    by destruct (f (cs_rows s)).
Qed.
Lemma rows_load key : preserves rows_are (ConfigLoad key).
Proof. apply rows_read. Qed.
Lemma rows_keys : preserves rows_are ConfigKeys.
Proof. apply rows_read. Qed.

End store.

(** A statement that does not fail. *)
Lemma save_ok key value s : s.(cs_faults) = [] → ConfigSave key value s = (Ok (), mkConfigStore (<[key := value]> s.(cs_rows)) []).
Proof. intros Hf. unfold ConfigSave, cs_context, cs_statement. by rewrite Hf. Qed.
Lemma load_ok key value s :
  s.(cs_faults) = [] → s.(cs_rows) !! key = Some value → ConfigLoad key s = (Ok value, s).
Proof. intros Hf Hk. unfold ConfigLoad, cs_context, cs_statement. rewrite Hf, Hk. destruct s. simpl in *. by subst. Qed.
Lemma keys_ok s : s.(cs_faults) = [] → ConfigKeys s = (Ok (map_to_list s.(cs_rows)).*1, s).
Proof. intros Hf. unfold ConfigKeys, cs_context, cs_statement. rewrite Hf. destruct s. simpl in *. by subst. Qed.

(** ** The start *)

Section start.
Context `{UnicodeTables} `{TokenBuckets} `{Postgres} `{Entropy} {E : Type} `{SearchEngine E}.

(** Two worlds that differ at most in the connection, its manager and the faults of
    the store. *)
Definition same_config (w w' : EventsWorld E) : Prop :=
  w'.(ew_engine) = w.(ew_engine) ∧ w'.(ew_memory) = w.(ew_memory) ∧ w'.(ew_resolver) = w.(ew_resolver) ∧
  w'.(ew_service) = w.(ew_service) ∧ w'.(ew_discovery) = w.(ew_discovery) ∧
  w'.(ew_handlers) = w.(ew_handlers) ∧ w'.(ew_subscriber) = w.(ew_subscriber) ∧
  w'.(ew_store).(cs_rows) = w.(ew_store).(cs_rows).

Lemma same_config_read {A} w (m : ST ConfigStore A) :
  (∀ rows, preserves (rows_are rows) m) → preserves (same_config w) (on_store (E := E) m).
Proof.
  intros Hm. apply (preserves_on_store _ _ (rows_are w.(ew_store).(cs_rows))); [done|..].
  - intros w' Hw. apply Hw.
  - intros w' s (?&?&?&?&?&?&?&?) Hs. by split_and!.
Qed.

Lemma same_config_versions w keys versions v : preserves (same_config w) (cached_versions (E := E) keys versions v).
Proof.
  revert versions v. induction keys as [|key keys IH]; intros versions v; simpl; [apply preserves_ret|].
  apply preserves_bind; [|intros data; apply IH].
  apply preserves_context, same_config_read. intros rows. apply rows_load.
Qed.

(** A manager without a subscriber only reads the cache. *)
Lemma load_without_subscriber m w :
  m.(dg_subscriber) = false → same_config w (LoadCachedConfig (E := E) m w).2.
Proof.
  intros Hm. cut (preserves (same_config w) (LoadCachedConfig m)); [intros Hp; by apply Hp|].
  unfold LoadCachedConfig. rewrite Hm. apply preserves_if; [apply preserves_ret|].
  apply preserves_bind; [apply preserves_context, same_config_read; intros rows; apply rows_keys|intros keys].
  apply preserves_bind; [apply same_config_versions|intros versions].
  apply preserves_bind; [apply preserves_gets|intros w'].
  apply preserves_bind; [apply preserves_ret|intros _]. by intros w'' Hw.
Qed.

Lemma start_service o env service store : (NewServer (E := E) o env service store).(ew_service) = service.
Proof.
  assert (Hn : (initNATS (E := E) o env (initPolicyAndRateLimit o service store)).(ew_service) = service).
  { unfold initNATS. destruct (_ || _); [done|]. destruct (negb _); [done|]. destruct (NewClient _ _ _); [|done].
    unfold initEventSubscriber. by destruct (ne_Subscribe env). }
  unfold NewServer, initDegradationFallback. destruct (negb _); [done|].
  destruct (ew_degradation _); [done|]. rewrite <- Hn at 2.
  by destruct (load_without_subscriber (NewDegradationManager None o.(so_Database) false)
    (ew_set_degradation (Some (NewDegradationManager None o.(so_Database) false))
       (initNATS o env (initPolicyAndRateLimit o service store))) eq_refl) as (_ & _ & _ & -> & _).
Qed.

Context (svc : Service).

Lemma settles_run v steps (w : EventsWorld E) :
  Forall from_outside steps → settles v w → settles v (foldl (event svc) w steps).
Proof.
  intros Hs. revert w. induction Hs as [|s steps Hs _ IH]; intros w Hw; simpl; [done|]. by apply IH, settles_event.
Qed.

(** C17: Whatever messages arrive and whatever else happens, the settings the
    registration service hands to a backend have no key, at any depth, that looks
    like one of a secret, and the version of the settings never goes back. *)
Theorem settings_safe o env service store before after :
  clean_service service → Forall from_outside (before ++ after) →
  let w := foldl (event svc) (NewServer o env service store) before in
  let w' := foldl (event svc) w after in
  (∀ server version s, (effectiveSettingsForServer server w.(ew_service)).1 = Ok (version, s) → no_secrets (AObj s)) ∧
  (w.(ew_service).(w_settingsVersion) <= w'.(ew_service).(w_settingsVersion))%Z.
Proof.
  intros Hc Hs w w'. apply Forall_app in Hs as [Hb Ha].
  assert (Hw : clean_service (ew_service w)).
  { apply (settles_run (w_settingsVersion service)); [done|]. unfold settles, settled. rewrite start_service. done. }
  split.
  - intros server version s. unfold effectiveSettingsForServer, gets. cbn [fst]. intros [= _ <-]. destruct (_ !! _) as [s0|] eqn:E0.
    + rewrite cloneSettings_obj. apply clone_no_secrets, (Hw _ _ E0).
    + by apply no_secrets_obj.
  - by apply (settles_run _ after w).
Qed.

End start.

(** ** Policy messages *)

(** The entry of a key, when keys are assigned in order: the last one. *)
Definition last_named {A} (name : A → string) (n : string) (l : list A) : option A :=
  last (filter (λ x, name x = n) l).

Lemma foldl_insert_last {A B} (name : A → string) (f : A → B) (l : list A) n :
  foldl (λ (m : gmap string B) x, <[name x := f x]> m) ∅ l !! n = f <$> last_named name n l.
Proof.
  unfold last_named. induction l as [|x l IH] using rev_ind; [done|].
  rewrite foldl_app, filter_app. simpl. rewrite filter_cons, filter_nil. case_decide as Hx.
  - rewrite last_snoc, Hx. by rewrite lookup_insert_eq.
  - by rewrite app_nil_r, lookup_insert_ne.
Qed.

Lemma list_to_map_assign {A} (m : list (string * A)) k v :
  list_to_map (assign m k v) =@{gmap string A} <[k := v]> (list_to_map m).
Proof.
  induction m as [|[k' v'] m IH]; simpl; [done|]. case_bool_decide as Hk; simpl.
  - by rewrite Hk, insert_insert_eq.
  - rewrite IH. by apply insert_insert_ne.
Qed.

(** What a profile must have, and what is kept of it. *)
Definition valid_profile (p : PolicyProfile) : Prop :=
  TrimSpace p.(pp_Name) ≠ "" ∧ (0 < p.(pp_RateLimit))%Z ∧ (0 < p.(pp_RateBurst))%Z ∧
  (p.(pp_EnforcementMode) = ModeEnforce ∨ p.(pp_EnforcementMode) = ModeAudit).
Definition normal_profile (p : PolicyProfile) : PolicyProfile :=
  mkPolicyProfile (TrimSpace p.(pp_Name)) p.(pp_RateLimit) p.(pp_RateBurst)
    (normalizeStringList p.(pp_ToolAllowlist)) (normalizeStringList p.(pp_ToolDenylist)) p.(pp_EnforcementMode).

Lemma normalizePolicyProfile_spec p :
  (valid_profile p ∧ normalizePolicyProfile p = Ok (normal_profile p)) ∨
  (¬ valid_profile p ∧ ∃ e, normalizePolicyProfile p = Err e).
Proof.
  unfold valid_profile, normalizePolicyProfile.
  case_bool_decide; [right; split; [tauto|by eexists]|].
  destruct (_ <=? 0)%Z eqn:El; reflect_bools; [right; split; [lia|by eexists]|].
  destruct (pp_RateBurst p <=? 0)%Z eqn:Eb; reflect_bools; [right; split; [lia|by eexists]|].
  destruct (_ && _) eqn:Em; reflect_bools.
  - right. split; [tauto|by eexists].
  - left. split; [|done]. split_and!; try done. destruct Em; reflect_bools; auto.
Qed.

Lemma normalize_profiles_spec l acc :
  (Forall valid_profile l ∧
   ∃ named, normalize_profiles acc l = Ok named ∧
     list_to_map named = foldl (λ (m : gmap string PolicyProfile) p, <[TrimSpace p.(pp_Name) := normal_profile p]> m)
       (list_to_map acc) l ∧
     (Forall (λ p, trimmed p.1) acc → NoDup acc.*1 → Forall (λ p, trimmed p.1) named ∧ NoDup named.*1)) ∨
  (¬ Forall valid_profile l ∧ ∃ e, normalize_profiles acc l = Err e).
Proof.
  revert acc. induction l as [|p l IH]; intros acc; simpl; [left; split; [done|]; by exists acc|].
  destruct (normalizePolicyProfile_spec p) as [[Hv ->]|[Hv [e ->]]];
    [|right; split; [by intros [? _]%Forall_cons|by exists e]].
  destruct (IH (assign acc (pp_Name (normal_profile p)) (normal_profile p))) as [(Hl & named & Hn & Hm & Hk)|[Hl He]];
    [|right; split; [by intros [_ ?]%Forall_cons|done]].
  left. split; [by constructor|]. exists named. split_and!; [done|by rewrite Hm, list_to_map_assign|].
  intros Ht Hd. apply Hk; [|by apply assign_NoDup]. apply assign_entries; [done|]. apply TrimSpace_idemp.
Qed.

(** Profiles with trimmed names are copied as they are. *)
Lemma copy_profiles_map (named : list (string * PolicyProfile)) :
  Forall (λ p, trimmed p.1) named → NoDup named.*1 →
  is_Some ((list_to_map named : gmap string PolicyProfile) !! "default") →
  copy_profiles ((λ p, (p.1, Some p.2)) <$> named) = Some <$> (list_to_map named : gmap string PolicyProfile).
Proof.
  intros Ht Hd [d Hdef].
  assert (Hf : foldl (λ (m : gmap string (option PolicyProfile)) p, <[TrimSpace p.1 := p.2]> m) ∅
    ((λ p, (p.1, Some p.2)) <$> named) = Some <$> (list_to_map named : gmap string PolicyProfile)).
  { clear d Hdef. induction named as [|[k v] named IH] using rev_ind; [done|].
    rewrite fmap_app, foldl_app. rewrite fmap_app in Hd. apply NoDup_app in Hd as (Hd & Hk & _).
    apply Forall_app in Ht as [Ht [Hkt _]%Forall_cons]. rewrite IH by done.
    cbn [fmap list_fmap foldl fst snd].
    rewrite (Hkt : TrimSpace k = k), <- (fmap_insert Some). f_equal.
    rewrite list_to_map_snoc; [done|]. intros Hin. apply (Hk k Hin). simpl. set_solver. }
  unfold copy_profiles. rewrite Hf, lookup_fmap, Hdef. done.
Qed.

Section policy.
Context `{UnicodeTables} `{TokenBuckets} `{Postgres} {E : Type} `{SearchEngine E}.

(** A message the gateway must accept, with its profiles. *)
Definition policy_message (data : payload) (profiles : list PolicyProfile) : Prop :=
  decodeConfigMessage d_policy_message [] data = Ok profiles ∧ Forall valid_profile profiles ∧
  is_Some (last_named (λ p, TrimSpace p.(pp_Name)) "default" profiles).

Lemma find_default (named : list (string * PolicyProfile)) :
  snd <$> List.find (λ p, bool_decide (p.1 = "default")) named =
  (list_to_map named : gmap string PolicyProfile) !! "default".
Proof.
  induction named as [|[k v] named IH]; [done|]. rewrite list_to_map_cons. cbn [List.find fst snd].
  case_bool_decide as Hk; [by rewrite Hk, lookup_insert_eq|]. by rewrite lookup_insert_ne.
Qed.

(** A policy message is applied as a whole or refused. It is accepted when it
    decodes, all its profiles are valid and one is named default; the engine then
    knows exactly its profiles, the last of each name, normalized, whether or not the
    store can keep the message. Any other message is refused with an error and
    changes nothing. *)
Theorem policy_message_correct data (w : EventsWorld E) :
  (∀ profiles, policy_message data profiles →
     ∃ r mb st e', HandlePolicy data w = (r, ew_set_store st (ew_set_policy e' mb w)) ∧
       (∀ n, e'.(en_profiles) !! n =
          (λ p, Some (normal_profile p)) <$> last_named (λ p, TrimSpace p.(pp_Name)) n profiles) ∧
       e'.(en_dangerousPatterns) = w.(ew_engine).(en_dangerousPatterns) ∧
       (w.(ew_store).(cs_faults) = [] → r = Ok ())) ∧
  ((¬ ∃ profiles, policy_message data profiles) → ∃ e, HandlePolicy data w = (Err e, w)).
Proof.
  unfold HandlePolicy, policy_message, bind, ew_context, of_result.
  destruct (decodeConfigMessage d_policy_message [] data) as [e|l] eqn:Ed; cbv beta iota.
  { split; [naive_solver|]. intros _. by eexists. }
  destruct (normalize_profiles_spec l []) as [(Hl & named & Hn & Hm & Hk)|[Hl [e He]]].
  2: { split; [naive_solver|]. intros _. case_bool_decide; [by eexists|]. rewrite He. by eexists. }
  destruct Hk as [Ht Hd]; [constructor..|]. rewrite Hn.
  assert (Hl' : ∀ n, (list_to_map named : gmap string PolicyProfile) !! n =
    normal_profile <$> last_named (λ p, TrimSpace p.(pp_Name)) n l)
    by (intros n; rewrite Hm; apply (foldl_insert_last (λ p, TrimSpace p.(pp_Name)))).
  pose proof (find_default named) as Hf. rewrite Hl' in Hf.
  destruct (last_named _ "default" l) as [d|] eqn:Edef.
  - split; [|intros Hno; exfalso; apply Hno; by exists l]. intros profiles ([= <-] & _ & _).
    case_bool_decide as Hnil; [by subst|].
    destruct (List.find _ named) as [[k v]|]; [|done].
    assert (Hlook : ∀ n, copy_profiles ((λ p, (p.1, Some p.2)) <$> named) !! n =
      (λ p, Some (normal_profile p)) <$> last_named (λ p, TrimSpace p.(pp_Name)) n l).
    { intros n. rewrite copy_profiles_map; [|done..|].
      - rewrite lookup_fmap, Hl'. by destruct (last_named _ n l).
      - rewrite Hl', Edef. by eexists. }
    unfold modify, gets, when, on_store, ret. cbn [ew_handlers ew_set_policy].
    destruct (hd_policyStore _); cbn [ew_store].
    + destruct (ConfigSave _ _ _) as [[e|[]] st] eqn:Es; eexists _, _, _, _; (split; [reflexivity|]);
        (split_and!; [done|done|]); [|done]. intros Hfaults. by rewrite save_ok in Es.
    + eexists _, _, (ew_store w), _. split; [reflexivity|]. by split_and!.
  - split.
    { intros profiles ([= <-] & _ & [d Hdef]). by rewrite Edef in Hdef. }
    intros _. case_bool_decide; [by eexists|]. destruct (List.find _ named); [done|]. by eexists.
Qed.

End policy.

(** ** What survives a restart *)

Section restart.
Context `{UnicodeTables} `{TokenBuckets} `{Postgres} `{Entropy} {E : Type} `{SearchEngine E}.
Context (svc : Service).

(** The handlers that are given no store. *)
Definition no_stores (hd : Handlers) : Prop :=
  hd.(hd_policyStore) = false ∧ hd.(hd_serverStore) = false ∧ hd.(hd_settingsStore) = false ∧ hd.(hd_authStore) = false.

(** The rows other than that of the metadata. *)
Definition other_rows (rows : gmap string payload) (s : ConfigStore) : Prop :=
  ∀ key, key ≠ configCacheToolMetadataKey → s.(cs_rows) !! key = rows !! key.

Definition as_started (r : DefaultProfileResolver) (rows : gmap string payload) (w : EventsWorld E) : Prop :=
  w.(ew_resolver) = r ∧ no_stores w.(ew_handlers) ∧ other_rows rows w.(ew_store).

Section invariant.
Context (r : DefaultProfileResolver) (rows : gmap string payload).
Abbreviation P := (as_started r rows).

Lemma started_modify f :
  (∀ w : EventsWorld E, (f w).(ew_resolver) = w.(ew_resolver) ∧ (f w).(ew_store) = w.(ew_store) ∧
     (no_stores w.(ew_handlers) → no_stores (f w).(ew_handlers))) → preserves P (modify f).
Proof.
  intros Hf w (Hr & Hn & Ho). destruct (Hf w) as (Hr' & Hs & Hn'). unfold as_started. simpl.
  rewrite Hr', Hs. by split_and!; try apply Hn'.
Qed.
Lemma started_service {A} (m : ST World A) : preserves P (on_service m).
Proof. by apply (preserves_on_service _ _ (λ _, True)). Qed.
Lemma started_save data : preserves P (on_store (ConfigSave configCacheToolMetadataKey data)).
Proof.
  apply (preserves_on_store _ _ (other_rows rows)); [|intros w (_ & _ & Ho); exact Ho|by intros w s (? & ? & _)].
  intros s Ho key Hk. unfold ConfigSave, cs_context, cs_statement.
  destruct (cs_faults s) as [|[] fs]; simpl; [|by apply Ho|]; rewrite lookup_insert_ne by done; by apply Ho.
Qed.
#[local] Hint Resolve started_service started_save : gateway.
#[local] Hint Extern 2 (preserves (as_started _ _) (modify _)) => (apply started_modify; by intros w; split_and!) : gateway.

(** Nothing is stored by a handler without a store. *)
Lemma started_unwired (flag : Handlers → bool) m :
  (∀ hd, no_stores hd → flag hd = false) → preserves P (let* hd := gets ew_handlers in when (flag hd) m).
Proof.
  intros Hf. apply preserves_wired. intros w (_ & Hn & _). rewrite (Hf _ Hn). apply preserves_ret.
Qed.

(** Passes the checks at the front of a handler. *)
#[local] Ltac checks :=
  repeat first
    [ apply preserves_checked; intros ? _
    | apply preserves_if; [apply preserves_throw|]
    | match goal with |- preserves _ (match ?x with _ => _ end) => destruct x; try apply preserves_throw end ].

Lemma started_settings data : preserves P (HandleServerSettings (E := E) data).
Proof.
  unfold HandleServerSettings, applyAndPersistSettings. checks.
  apply preserves_wired. intros w (_ & (_ & _ & Hs & _) & _). rewrite Hs. cbn [when]. preserve.
Qed.
#[local] Hint Resolve started_settings : gateway.

Lemma started_handler h data : preserves P (HandleConfig (E := E) h data).
Proof.
  destruct h; simpl.
  - unfold HandlePolicy. checks. apply preserves_bind; [preserve|intros _].
    apply started_unwired. by intros hd (? & _).
  - unfold HandleServers. checks. apply preserves_wired. intros w (_ & (_ & Hs & _) & _).
    rewrite Hs. cbn [when]. preserve.
  - preserve.
  - unfold HandleMetrics. preserve.
  - unfold HandleAuth. checks. apply started_unwired. by intros hd (_ & _ & _ & ?).
  - unfold HandleAck. preserve.
  - unfold HandleToolMetadata. preserve.
Qed.

Lemma started_event w s : P w → P (event svc w s).
Proof.
  intros Hw. destruct s; simpl.
  - unfold routeMessage. destruct (_ ≫= _); [by apply started_handler|done].
  - unfold natsDisconnected. by destruct (ew_client w).
  - unfold natsReconnected, OnReconnect. destruct (ew_client w); [|done]. simpl.
    destruct (ew_degradation w) as [m|]; [|done]. by destruct (dg_client m).
  - done.
  - unfold BindRegistrationService. by destruct (ew_subscriber w).
  - unfold wireToolMetadataCallback, SetOnUpdate. destruct (ew_subscriber w); [|done].
    by destruct (hd_lastMessage _).
  - done.
Qed.

Lemma started_run steps w : P w → P (foldl (event svc) w steps).
Proof. revert w. induction steps as [|s steps IH]; intros w Hw; simpl; [done|]. by apply IH, started_event. Qed.

End invariant.

Definition start_resolver (o : ServerOptions) : DefaultProfileResolver :=
  NewDefaultProfileResolver (defaultProfiles o.(so_Config)) (defaultPolicyProfile (Some o.(so_Config))).

Lemma start_as_started o env service store :
  as_started (start_resolver o) store.(cs_rows) (NewServer (E := E) o env service store).
Proof.
  assert (Hn : as_started (start_resolver o) store.(cs_rows)
    (initNATS (E := E) o env (initPolicyAndRateLimit o service store))).
  { assert (Hp : as_started (start_resolver o) store.(cs_rows) (initPolicyAndRateLimit (E := E) o service store)) by done.
    unfold initNATS. destruct (_ || _); [done|]. destruct (negb _); [done|]. destruct (NewClient _ _ _); [|done].
    unfold initEventSubscriber. by destruct (ne_Subscribe env). }
  unfold NewServer, initDegradationFallback. destruct (negb _); [done|]. destruct (ew_degradation _); [done|].
  set (m := NewDegradationManager None o.(so_Database) false).
  destruct (load_without_subscriber m (ew_set_degradation (Some m)
    (initNATS o env (initPolicyAndRateLimit o service store))) eq_refl) as (_ & _ & Hr & _ & _ & Hh & _ & Hrows).
  destruct Hn as (Hr0 & Hn0 & Ho). unfold as_started. rewrite Hr, Hh. split_and!; [done..|].
  intros key Hk. rewrite Hrows. by apply Ho.
Qed.

(** The versions of keys that are there. *)
Lemma cached_versions_ok keys versions v (w : EventsWorld E) :
  w.(ew_store).(cs_faults) = [] → Forall (λ k, is_Some (w.(ew_store).(cs_rows) !! k)) keys →
  ∃ x, cached_versions keys versions v w = (Ok x, w).
Proof.
  intros Hf Hk. revert versions v. induction Hk as [|key keys [data Hd] _ IH]; intros versions v; simpl; [by eexists|].
  unfold bind at 1, ew_context, on_store. rewrite (load_ok _ data) by done.
  replace (ew_set_store w.(ew_store) w) with w by by destruct w. apply IH.
Qed.

Lemma no_nats o env (w : EventsWorld E) : env.(ne_Connect) = false → initNATS o env w = w.
Proof.
  intros Hn. unfold initNATS, NewClient. rewrite Hn. destruct (_ || _); [done|]. destruct (negb _); [done|].
  by rewrite orb_true_r.
Qed.

(** Without NATS the cache is counted, not applied. *)
Lemma fallback_start o service store :
  o.(so_CruveroEnabled) = true → store.(cs_faults) = [] →
  let w := initPolicyAndRateLimit (E := E) o service store in
  let m := NewDegradationManager None o.(so_Database) false in
  ∃ versions v, initDegradationFallback o w =
    ew_set_degradation
      (Some (if o.(so_Database) then applyCachedState versions v (size store.(cs_rows)) m else m)) w.
Proof.
  intros Hc Hf. cbv zeta. unfold initDegradationFallback. rewrite Hc. cbn [negb ew_degradation initPolicyAndRateLimit].
  set (m := NewDegradationManager None _ false). set (w0 := ew_set_degradation _ _).
  unfold LoadCachedConfig. cbn [dg_configStore m NewDegradationManager].
  destruct (so_Database o); [|by exists ∅, 0%Z]. cbn [negb].
  destruct (cached_versions_ok (map_to_list store.(cs_rows)).*1 ∅ 0 w0 Hf) as [[versions v] Hx].
  { apply Forall_forall. intros k Hk. apply list_elem_of_fmap in Hk as ([k' d] & -> & Hin).
    apply elem_of_map_to_list in Hin. by exists d. }
  unfold bind at 1, ew_context at 1, on_store. change (ew_store w0) with store. rewrite keys_ok by done.
  change (ew_set_store store w0) with w0. unfold bind at 1. rewrite Hx.
  unfold bind, gets, ret, modify. cbn [snd dg_subscriber m NewDegradationManager].
  exists versions, v. by rewrite length_fmap, length_map_to_list.
Qed.

(** Readiness at a start without NATS. *)
Lemma fallback_ready o service store :
  o.(so_CruveroEnabled) = true → store.(cs_faults) = [] →
  ∃ x, handleReady o (initDegradationFallback o (initPolicyAndRateLimit (E := E) o service store)) =
    if bool_decide (o.(so_Database) = true ∧ store.(cs_rows) ≠ ∅)
    then mkReadiness 200 "degraded" (Some "disconnected") x
    else mkReadiness 503 "not_ready" (Some "disconnected") x.
Proof.
  intros Hc Hf. destruct (fallback_start o service store Hc Hf) as (versions & v & ->).
  unfold handleReady. rewrite Hc. cbn [negb ew_degradation ew_set_degradation].
  destruct (so_Database o); [|by eexists; rewrite bool_decide_eq_false_2 by naive_solver].
  destruct (decide (store.(cs_rows) = ∅)) as [Hr|Hr].
  - rewrite (bool_decide_eq_false_2 (_ ∧ _)) by naive_solver. rewrite Hr, map_size_empty.
    unfold applyCachedState. destruct (0 <? v)%Z; by eexists.
  - rewrite (bool_decide_eq_true_2 (_ ∧ _)) by done. unfold applyCachedState.
    assert (Hn : (0 <? size (cs_rows store)) = true) by (apply Nat.ltb_lt; rewrite <- map_size_empty_iff in Hr; lia).
    rewrite Hn. destruct (0 <? v)%Z; by eexists.
Qed.

(** The last known configuration does not survive a restart. In the wiring of the
    server only the handler of tool metadata has the store, so that nothing else of
    the configuration is ever written, whatever messages come; and a gateway that
    starts without NATS loads the cache with no subscriber, which applies none of it:
    the policy is the built-in one, there are no settings and no metadata. It still
    counts as ready, in degraded mode, as soon as there is any row. *)
Theorem last_known_config_lost o env service store steps :
  let w := foldl (event svc) (NewServer (E := E) o env service store) steps in
  (∀ key, key ≠ configCacheToolMetadataKey → w.(ew_store).(cs_rows) !! key = store.(cs_rows) !! key) ∧
  (o.(so_CruveroEnabled) = true → o.(so_Database) = true → env.(ne_Connect) = false →
   store.(cs_faults) = [] → store.(cs_rows) ≠ ∅ →
   let w' := NewServer (E := E) o env service store in
   w'.(ew_engine) = NewEngine ((λ p, (p.1, Some p.2)) <$> defaultProfiles o.(so_Config)) false ∧
   w'.(ew_discovery) = NewDiscoveryIndex ∧ w'.(ew_service) = service ∧
   (handleReady o w').(rd_code) = 200%Z ∧ (handleReady o w').(rd_status) = "degraded").
Proof.
  split.
  - apply (started_run (start_resolver o) (cs_rows store)). apply start_as_started.
  - intros Hc Hd Hn Hf Hr. cbv zeta. rewrite start_service.
    unfold NewServer. rewrite no_nats by done. destruct (fallback_ready o service store Hc Hf) as [x ->].
    rewrite bool_decide_eq_true_2 by done. destruct (fallback_start o service store Hc Hf) as (versions & v & ->).
    by split_and!.
Qed.

End restart.

(** ** Rate limits and readiness *)

Section connection.
Context `{UnicodeTables} `{TokenBuckets} `{Postgres} `{Entropy} {E : Type} `{SearchEngine E}.
Context (svc : Service).

Lemma resolver_run o env service store steps :
  (foldl (event svc) (NewServer (E := E) o env service store) steps).(ew_resolver) = start_resolver o.
Proof. apply (started_run svc (start_resolver o) (cs_rows store)), start_as_started. Qed.

(** The rate limits a policy message pushes are not enforced. The message replaces
    the profiles of the policy engine and the defaults of the backend in memory, but the
    limit of a request comes from the resolver the server built at its start, and a
    positive limit overrides the defaults: after any messages every client is
    limited as at the start. *)
Theorem pushed_rates_ignored o env service store steps id limit burst :
  resolveProfile (Some (foldl (event svc) (NewServer (E := E) o env service store) steps).(ew_resolver)) id = (limit, burst) →
  resolveProfile (Some (start_resolver o)) id = (limit, burst) ∧
  (not_positive limit = false → (0 < burst)%Z → ∀ now key rate b mb,
     (MemoryAllow now key limit burst (MemorySetDefaults rate b mb)).1 = (MemoryAllow now key limit burst mb).1).
Proof.
  rewrite resolver_run. intros Hr. split; [done|]. intros Hl Hb now key rate b mb.
  unfold MemoryAllow. rewrite Hl. rewrite (proj2 (Z.leb_gt burst 0)) by done. cbn [mb_limiters MemorySetDefaults].
  destruct (checkLimiter _ _ _). reflexivity.
Qed.

(** The connection and its manager. *)
Definition link (w : EventsWorld E) : option Client * option DegradationManager := (w.(ew_client), w.(ew_degradation)).

Section link.
Context (x : option Client * option DegradationManager).
Abbreviation P := (λ w, link w = x).

Lemma link_modify f : (∀ w, link (f w) = link w) → preserves P (modify f).
Proof. intros Hf w Hw. simpl. by rewrite Hf. Qed.
Lemma link_store {A} (m : ST ConfigStore A) : preserves P (on_store m).
Proof. by apply (preserves_on_store _ _ (λ _, True)). Qed.
Lemma link_service {A} (m : ST World A) : preserves P (on_service m).
Proof. by apply (preserves_on_service _ _ (λ _, True)). Qed.
#[local] Hint Resolve link_store link_service : gateway.
#[local] Hint Extern 2 (preserves _ (modify _)) => (apply link_modify; reflexivity) : gateway.

Lemma link_settings data : preserves P (HandleServerSettings data).
Proof. unfold HandleServerSettings, applyAndPersistSettings. preserve. Qed.
#[local] Hint Resolve link_settings : gateway.

Lemma link_handler h data : preserves P (HandleConfig h data).
Proof.
  destruct h; simpl; unfold HandlePolicy, HandleServers, HandleMetrics, HandleAuth, HandleAck, HandleToolMetadata; preserve.
Qed.
End link.

(** A step on the connection and its manager. *)
Definition link_step (l : option Client * option DegradationManager) (s : event_step) :
    option Client * option DegradationManager :=
  match s, l with
  | EvDisconnected, (Some c, d) => (Some (mkClient c.(cl_gatewayID) false), OnDisconnect <$> d)
  | EvReconnected, (Some c, d) =>
      (Some (mkClient c.(cl_gatewayID) true), dg_set_status DegradationStatusConnected true "resync_requested" <$> d)
  | EvClosed, (c, d) => ((λ c, mkClient c.(cl_gatewayID) false) <$> c, d)
  | _, l => l
  end.

Lemma link_event w s : link (event svc w s) = link_step (link w) s.
Proof.
  unfold link. destruct s; simpl.
  - unfold routeMessage. destruct (_ ≫= _) as [h|]; [|done]. exact (link_handler (link w) h data w eq_refl).
  - unfold natsDisconnected. destruct (ew_client w) eqn:Ec; simpl; by rewrite ?Ec.
  - unfold natsReconnected, OnReconnect. destruct (ew_client w) eqn:Ec; simpl; [|by rewrite Ec].
    destruct (ew_degradation w) as [m|] eqn:Em; [|simpl; by rewrite Em]. by destruct (dg_client m).
  - done.
  - unfold BindRegistrationService. by destruct (ew_subscriber w).
  - unfold wireToolMetadataCallback, SetOnUpdate. destruct (ew_subscriber w); [|done]. by destruct (hd_lastMessage _).
  - done.
Qed.

(** Whether the connection is up, by the changes seen so far. *)
Definition connection_up (steps : list event_step) : bool :=
  foldl (λ up s, match s with EvDisconnected => false | EvReconnected => true | _ => up end) true steps.

(** The manager of a connection that has been up. *)
Definition manager_is (up : bool) (d : option DegradationManager) : Prop :=
  ∃ m, d = Some m ∧ m.(dg_everConnected) = true ∧
    m.(dg_status) = if up then DegradationStatusConnected else DegradationStatusDegraded.

Lemma link_run steps (w : EventsWorld E) up c :
  w.(ew_client) = Some c → manager_is up w.(ew_degradation) →
  manager_is (foldl (λ up s, match s with EvDisconnected => false | EvReconnected => true | _ => up end) up steps)
    (foldl (event svc) w steps).(ew_degradation).
Proof.
  revert w up c. induction steps as [|s steps IH]; intros w up c Hc Hm; [done|]. cbn [foldl].
  pose proof (link_event w s) as Hl. unfold link in Hl. rewrite Hc in Hl. destruct Hm as (m & Hm & He & Hs). rewrite Hm in Hl.
  generalize dependent (event svc w s). intros w' Hl.
  destruct s; cbn [link_step fmap option_fmap option_map] in Hl; injection Hl as Hc' Hd'; (eapply IH; [exact Hc'|]);
    rewrite Hd'; by eexists.
Qed.

Lemma link_idle steps (w : EventsWorld E) :
  w.(ew_client) = None →
  (foldl (event svc) w steps).(ew_client) = None ∧ (foldl (event svc) w steps).(ew_degradation) = w.(ew_degradation).
Proof.
  revert w. induction steps as [|s steps IH]; intros w Hc; [done|]. cbn [foldl].
  pose proof (link_event w s) as Hl. unfold link in Hl. rewrite Hc in Hl.
  assert (Hs : link_step (None, ew_degradation w) s = (None, ew_degradation w)) by by destruct s.
  rewrite Hs in Hl. injection Hl as Hc' Hd'. rewrite <- Hd'. by apply IH.
Qed.

(** A start that reached NATS, and one that did not. *)
Lemma start_cases o env service store :
  o.(so_CruveroEnabled) = true →
  (∃ c, (NewServer (E := E) o env service store).(ew_client) = Some c ∧
     manager_is true (NewServer (E := E) o env service store).(ew_degradation)) ∨
  initNATS (E := E) o env (initPolicyAndRateLimit o service store) = initPolicyAndRateLimit o service store.
Proof.
  intros Hc. unfold NewServer, initDegradationFallback. rewrite Hc. cbn [negb]. unfold initNATS.
  destruct (_ || _); [by right|]. destruct (negb _); [by right|].
  destruct (NewClient _ _ _) as [c|] eqn:Ec; [|by right]. left. exists c. cbn [ew_degradation ew_set_degradation].
  split; [unfold initEventSubscriber; by destruct (ne_Subscribe env)|].
  unfold NewClient in Ec. destruct (_ || _); [done|]. injection Ec as <-. by eexists.
Qed.

(** Readiness follows the connection. A gateway that reached NATS at its start
    stays ready, and reports it connected exactly until the connection is lost and
    again from the next reconnection on. One that did not reach NATS never connects
    later: it is ready if the database holds a cached message, and its answer does not
    change. *)
Theorem readiness_correct o env service store steps :
  o.(so_CruveroEnabled) = true → store.(cs_faults) = [] →
  let w0 := NewServer (E := E) o env service store in
  let w := foldl (event svc) w0 steps in
  match w0.(ew_client) with
  | Some _ =>
      let up := connection_up steps in
      ∃ x, handleReady o w =
        mkReadiness 200 (if up then "ok" else "degraded") (Some (if up then "connected" else "disconnected")) x
  | None =>
      handleReady o w = handleReady o w0 ∧
      ((handleReady o w).(rd_code) = 200%Z ↔ o.(so_Database) = true ∧ store.(cs_rows) ≠ ∅)
  end.
Proof.
  intros Hc Hf w0 w. destruct (start_cases o env service store Hc) as [(c & Hcl & Hm)|Hidle].
  - fold w0 in Hcl, Hm. rewrite Hcl. cbv zeta. pose proof (link_run steps w0 true c Hcl Hm) as (m & Hd & He & Hs).
    fold (connection_up steps) in Hs. fold w in Hd. unfold handleReady. rewrite Hc, Hd, He, Hs. cbn [negb orb].
    destruct (connection_up steps); by eexists.
  - assert (Hw0 : w0 = initDegradationFallback o (initPolicyAndRateLimit o service store))
      by (unfold w0, NewServer; by rewrite Hidle).
    assert (Hcl : w0.(ew_client) = None).
    { rewrite Hw0. by destruct (fallback_start (E := E) o service store Hc Hf) as (? & ? & ->). }
    rewrite Hcl. destruct (link_idle steps w0 Hcl) as [_ Hd]. fold w in Hd.
    assert (Hr : handleReady o w = handleReady o w0) by (unfold handleReady; by rewrite Hd).
    split; [done|]. rewrite Hr, Hw0. destruct (fallback_ready (E := E) o service store Hc Hf) as [x ->].
    by case_bool_decide.
Qed.

End connection.

(** ** Endpoints *)

(** The bytes a host may hold as they are. *)
Definition host_byte (a : ascii) : bool := negb (shouldEscape a encodeHost).

Lemma escape_host l : forallb host_byte l = true → escape encodeHost l = l.
Proof.
  unfold escape. induction l as [|a l IH]; [done|]. cbn [forallb]. intros [Ha Hl]%andb_true_iff.
  cbn [fmap list_fmap mjoin list_join]. unfold host_byte in Ha. apply negb_true_iff in Ha. rewrite Ha.
  cbn [app]. f_equal. by apply IH.
Qed.

Lemma pretty_N_go_host (x : N) (s : string) :
  forallb host_byte (to_bytes s) = true → forallb host_byte (to_bytes (pretty_N_go x s)) = true.
Proof.
  revert s. induction (N.lt_wf_0 x) as [x _ IH]; intros s Hs. destruct (decide (0 < x)%N).
  - rewrite pretty_N_go_step by done. apply IH; [apply N.div_lt; lia|].
    change (host_byte (pretty_N_char (x mod 10)%N) && forallb host_byte (to_bytes s) = true).
    rewrite Hs, andb_true_r. unfold pretty_N_char. by repeat case_match.
  - replace x with 0%N by lia. by rewrite pretty_N_go_0.
Qed.

Lemma pretty_port_host (z : Z) : (0 < z)%Z → forallb host_byte (to_bytes (pretty z)) = true.
Proof. intros Hz. destruct z as [|p|]; [done| |done]. apply pretty_N_go_host. done. Qed.

(** A host name, or an IPv4 address: no colons, no brackets, nothing to escape. *)
Definition plain_host (host : string) : Prop :=
  host ≠ "" ∧ HasPrefix host "[" = false ∧ Contains host ":" = false ∧ forallb host_byte (to_bytes host) = true.

Section endpoints.
Context `{UnicodeTables}.

Lemma normalize_plain host : plain_host (TrimSpace host) → normalizeEndpointHost host = TrimSpace host.
Proof. intros (_ & Hb & _). unfold normalizeEndpointHost. by rewrite Hb, andb_false_r. Qed.

Lemma endpoint_scheme protocol :
  (let scheme := ToLower (TrimSpace protocol) in
   if negb (bool_decide (scheme = "http")) && negb (bool_decide (scheme = "https")) then "https" else scheme) =
  backendScheme protocol.
Proof.
  unfold backendScheme. cbv zeta. destruct (bool_decide (_ = "http")) eqn:Eh; reflect_bools; [done|].
  destruct (bool_decide (_ = "https")) eqn:Es; reflect_bools; done.
Qed.

(** The platform is told the endpoint the gateway calls: for a server with a plain
    host and a TCP port, the URL of the backend client is the published endpoint URL
    followed by the path of MCP, and it is the only endpoint that is allowed. *)
Theorem published_endpoint_agrees random now (r : ServerRecord) :
  plain_host (TrimSpace r.(Host)) → isValidTCPPort r.(Port) = true →
  let p := registered_payload random now r in
  client_url r = p.(sp_EndpointURL) +:+ "/mcp" ∧ p.(sp_AllowedEndpoints) = [p.(sp_EndpointURL)] ∧
  p.(sp_EndpointURL) = backendScheme r.(Protocol) +:+ "://" +:+ p.(sp_Endpoint).
Proof.
  intros Hp Hport. pose proof Hp as (Hne & _ & Hc & Hb).
  assert (Hn2 : normalizeEndpointHost (TrimSpace (Host r)) = TrimSpace (Host r)).
  { rewrite normalize_plain; rewrite TrimSpace_idemp; done. }
  assert (Hurl : canonicalEndpointURL (TrimSpace (Host r)) (Protocol r) (Port r) =
    backendScheme (Protocol r) +:+ "://" +:+ (TrimSpace (Host r) +:+ ":" +:+ pretty (Port r))).
  { unfold canonicalEndpointURL. rewrite Hn2, bool_decide_eq_false_2 by done. rewrite Hport.
    rewrite endpoint_scheme. unfold JoinHostPort, url_String. rewrite Hc, escape_host, of_to_bytes; [done|].
    rewrite !to_bytes_app, !forallb_app, Hb. apply pretty_port_host.
    unfold isValidTCPPort in Hport. reflect_bools. lia. }
  cbv zeta. unfold registered_payload. rewrite (normalize_plain (Host r)) by done.
  cbn [sp_EndpointURL sp_AllowedEndpoints sp_Endpoint]. rewrite Hurl, Hport.
  rewrite (bool_decide_eq_false_2 (TrimSpace (Host r) = "")) by done. cbn [negb andb].
  unfold JoinHostPort. rewrite Hc.
  rewrite (bool_decide_eq_false_2 (_ = "")) by (unfold backendScheme; by case_bool_decide).
  split_and!; [|done..].
  unfold client_url, baseURL. apply (inj to_bytes). by rewrite !to_bytes_app, <- !app_assoc.
Qed.

End endpoints.

(** ** Examples *)

Section examples.
#[local] Existing Instance ascii_tables.
#[local] Existing Instance example_pg.
#[local] Existing Instance example_entropy.

(** Buckets that count tokens and do not refill. *)
Definition counting_buckets : TokenBuckets := {|
  Limiter := Z;
  NewLimiter _ burst := burst;
  LimiterAllow _ n := if (0 <? n)%Z then (true, n - 1)%Z else (false, n);
  LimiterTokens _ n := f_of_Z n;
  LimiterLimit _ := f_one;
|}.
#[local] Existing Instance counting_buckets.

(** An engine that finds nothing. *)
#[local] Instance no_engine : SearchEngine () := {|
  engine_index _ e := (Ok (), e);
  engine_search _ e := (Ok [], e);
|}.

Definition example_options : ServerOptions :=
  mkServerOptions (mkConfig 0 0 0 false) true "nats://bus:4222" "gw-1" true.
Definition reachable (b : bool) : NatsEnv := mkNatsEnv true b true.
Definition text (v : document) : payload := mkPayload (Some v) false.

(** A policy of one strict profile. *)
Definition example_policy : payload :=
  text (AObj [("profiles", AArr [AObj [("name", AStr " default "); ("rate_limit", ANum "1"); ("rate_burst", ANum "1");
    ("tool_denylist", AArr [AStr "rm"; AStr " rm"]); ("enforcement_mode", AStr "enforce")]])]).
(** Settings for a server, under a key. *)
Definition example_settings (version key : string) : payload :=
  text (AObj [("config_version", ANum version);
    ("servers", AArr [AObj [("server_name", AStr "files");
       ("effective_settings", AObj [("limits", AArr [AObj [(key, ANum "2.5")]])])]])]).

Definition start_events (env : NatsEnv) (store : ConfigStore) : EventsWorld () :=
  NewServer example_options env (start 0) store.
Definition run_events (steps : list event_step) : EventsWorld () :=
  foldl (event example_service) (start_events (reachable true) (mkConfigStore ∅ [])) (EvBind :: EvCallback :: steps).
Definition config_message (scope : string) (data : payload) : event_step :=
  EvMessage (SubjectForConfig "gw-1" scope) data.

(** A nested key of a secret is refused; others arrive, trimmed, and a version
    before the last is refused. *)
Example settings_ex :
  ((run_events [config_message "server_settings" (example_settings "3" " depth ");
                config_message "server_settings" (example_settings "2" "width");
                config_message "server_settings" (example_settings "4" "Api_Key_Id")]).(ew_service).(w_effectiveSettings) !! "files",
   (run_events [config_message "server_settings" (example_settings "3" " depth ")]).(ew_service).(w_settingsVersion)) =
  (Some [("limits", AArr [AObj [("depth", ANum (f_lit 5 (-1)))]])], 3%Z).
Proof. vm_compute. reflexivity. Qed.

Lemma settings_safe_witness :
  let w := run_events [config_message "server_settings" (example_settings "3" "depth")] in
  clean_service (start 0) ∧
  ∀ version s, (effectiveSettingsForServer "files" w.(ew_service)).1 = Ok (version, s) → no_secrets (AObj s).
Proof.
  assert (Hc : clean_service (start 0)) by apply map_Forall_empty. cbv zeta. split; [exact Hc|].
  unfold run_events, start_events. intros version s Hs.
  destruct (settings_safe (E := ()) example_service example_options (reachable true) (start 0) (mkConfigStore ∅ [])
    [EvBind; EvCallback; config_message "server_settings" (example_settings "3" "depth")] [] Hc) as [Hsafe _].
  { repeat constructor. }
  exact (Hsafe "files" version s Hs).
Defined.

Lemma policy_message_correct_witness :
  ∃ profiles, policy_message example_policy profiles ∧
    ∃ e, (HandlePolicy example_policy (start_events (reachable true) (mkConfigStore ∅ []))).2.(ew_engine) = e ∧
      e.(en_profiles) !! "default" = Some (Some (mkPolicyProfile "default" 1 1 [] ["rm"] ModeEnforce)).
Proof.
  exists [mkPolicyProfile " default " 1 1 [] ["rm"; " rm"] ModeEnforce].
  assert (Hm : policy_message example_policy [mkPolicyProfile " default " 1 1 [] ["rm"; " rm"] ModeEnforce]).
  { split_and!; [vm_compute; reflexivity|repeat constructor; by vm_compute|by vm_compute; eexists]. }
  split; [exact Hm|].
  destruct (policy_message_correct (E := ()) example_policy (start_events (reachable true) (mkConfigStore ∅ []))) as [Hok _].
  destruct (Hok _ Hm) as (r & mb & st & e' & Hh & Hl & _ & _). rewrite Hh. exists e'. split; [reflexivity|].
  rewrite Hl. vm_compute. reflexivity.
Defined.

(** A policy message reaches the engine, and is gone after a restart. *)
Lemma last_known_config_lost_witness :
  let rows := {[ configCachePolicyKey := example_policy ]} in
  let w' := start_events (reachable false) (mkConfigStore rows []) in
  w'.(ew_engine).(en_profiles) !! "default" = Some (Some (mkPolicyProfile "default" 10 20 [] [] ModeEnforce)) ∧
  (handleReady example_options w').(rd_code) = 200%Z.
Proof.
  cbv zeta. set (rows := {[ _ := _ ]}).
  destruct (last_known_config_lost (E := ()) example_service example_options (reachable false) (start 0)
    (mkConfigStore rows []) []) as [_ Hr].
  assert (Hne : cs_rows (mkConfigStore rows []) ≠ ∅) by apply map_non_empty_singleton.
  destruct (Hr eq_refl eq_refl eq_refl eq_refl Hne) as (He & _ & _ & Hcode & _).
  unfold start_events. rewrite He. split; [vm_compute; reflexivity|exact Hcode].
Defined.

Lemma pushed_rates_ignored_witness :
  let w := run_events [config_message "policy" example_policy] in
  w.(ew_engine).(en_profiles) !! "default" = Some (Some (mkPolicyProfile "default" 1 1 [] ["rm"] ModeEnforce)) ∧
  resolveProfile (Some w.(ew_resolver)) None = (f_of_Z 10, 20%Z) ∧
  ∀ now key mb, (MemoryAllow now key (f_of_Z 10) 20 (MemorySetDefaults f_one 1 mb)).1 =
    (MemoryAllow now key (f_of_Z 10) 20 mb).1.
Proof.
  cbv zeta. split; [vm_compute; reflexivity|]. unfold run_events, start_events.
  assert (Hr : resolveProfile (Some (foldl (event example_service)
    (NewServer example_options (reachable true) (start 0) (mkConfigStore ∅ []))
    [EvBind; EvCallback; config_message "policy" example_policy]).(ew_resolver)) None =
    (f_of_Z 10, 20%Z)) by (vm_compute; reflexivity).
  split; [exact Hr|]. intros now key mb.
  destruct (pushed_rates_ignored (E := ()) example_service example_options (reachable true) (start 0)
    (mkConfigStore ∅ []) [EvBind; EvCallback; config_message "policy" example_policy] None _ _ Hr) as [_ Ha].
  apply Ha; [vm_compute; reflexivity|lia].
Defined.

Lemma published_endpoint_agrees_witness :
  client_url (example_server "1" "files" StatusActive [] []) =
    (registered_payload None 0 (example_server "1" "files" StatusActive [] [])).(sp_EndpointURL) +:+ "/mcp".
Proof.
  refine (proj1 (published_endpoint_agrees None 0 (example_server "1" "files" StatusActive [] []) _ _)).
  - split_and!; by vm_compute.
  - by vm_compute.
Defined.

Lemma readiness_correct_witness :
  (handleReady example_options (run_events [EvDisconnected])).(rd_status) = "degraded" ∧
  (handleReady example_options (run_events [EvDisconnected; EvReconnected])).(rd_nats) = Some "connected".
Proof.
  split.
  - destruct (readiness_correct (E := ()) example_service example_options (reachable true) (start 0)
      (mkConfigStore ∅ []) [EvBind; EvCallback; EvDisconnected] eq_refl eq_refl) as [x Hx].
    unfold run_events, start_events. rewrite Hx. reflexivity.
  - destruct (readiness_correct (E := ()) example_service example_options (reachable true) (start 0)
      (mkConfigStore ∅ []) [EvBind; EvCallback; EvDisconnected; EvReconnected] eq_refl eq_refl) as [x Hx].
    unfold run_events, start_events. rewrite Hx. reflexivity.
Defined.

End examples.
