(* ===== verification/Config.v ===== *)
(** * Configuration: [internal/config/config.go]

    The settings of the gateway read from the environment, with their defaults,
    and the checks a configuration passes before the gateway starts. The
    environment is the function [os.Getenv]. *)

From S2P Require Import Prelude GoStrings Encoding GoNet GoFloat Json GoParse Document JsonText.
From S2P Require Import Types Registration.

#[local] Open Scope string_scope.
#[local] Open Scope list_scope.
#[local] Open Scope nat_scope.
#[local] Open Scope go_scope.

(** ** Data *)

Record LLMProviderConfig := mkLLMProviderConfig {
  lp_Name : string;
  lp_APIKey : string;
  lp_BaseURL : string;
  lp_Model : string;
  lp_Priority : Z;
}.

Record OrchestrateConfig := mkOrchestrateConfig {
  oc_Enabled : bool;
  oc_Providers : list LLMProviderConfig;
}.

(** [AdminSessionKey] is the array of its bytes. *)
Record Config := mkConfig {
  c_ListenAddr : string;
  c_TLSCertPath : string;
  c_TLSKeyPath : string;
  c_TLSCAPath : string;
  c_DBURL : string;
  c_NATSURL : string;
  c_NATSTLSEnabled : bool;
  c_NATSTLSCert : string;
  c_NATSTLSKey : string;
  c_NATSTLSCa : string;
  c_OIDCIssuer : string;
  c_OIDCAudience : string;
  c_HeartbeatTTL : Z;
  c_RateDefault : Z;
  c_RateBurst : Z;
  c_CircuitThreshold : Z;
  c_CircuitTimeout : Z;
  c_RetryMax : Z;
  c_SPIFFEAllowList : list string;
  c_PlatformSPIFFEPrefixes : list string;
  c_LogFormat : string;
  c_LogLevel : string;
  c_MetricsAddr : string;
  c_CruveroEnabled : bool;
  c_GatewayID : string;
  c_CORSEnabled : bool;
  c_CORSAllowedOrigins : list string;
  c_DBMaxOpenConns : Z;
  c_DBMaxIdleConns : Z;
  c_DBConnMaxLifetime : Z;
  c_AuditRetentionDays : Z;
  c_AuditCleanupInterval : Z;
  c_ShutdownTimeout : Z;
  c_RateLimitBackend : string;
  c_DragonflyURL : string;
  c_OTLPExporterEndpoint : string;
  c_OTELServiceName : string;
  c_DeviceFlowEnabled : bool;
  c_DeviceFlowIDPDeviceURL : string;
  c_DeviceFlowIDPTokenURL : string;
  c_DeviceFlowClientID : string;
  c_DeviceFlowClientSecret : string;
  c_AdminEnabled : bool;
  c_AdminMode : string;
  c_PlatformServiceToken : string;
  c_AdminExternalURL : string;
  c_AdminOIDCClientID : string;
  c_AdminOIDCClientSecret : string;
  c_AdminRequiredScope : string;
  c_AdminSessionKey : bytes;
  c_AdminSessionTTL : Z;
  c_AdminDevMode : bool;
  c_ProgressiveDiscovery : bool;
  c_SearchEngine : string;
  c_OnnxRuntimePath : string;
  c_OnnxModelPath : string;
  c_TokenizerPath : string;
  c_Orchestrate : OrchestrateConfig;
  c_PerServerEndpoints : bool;
  c_WellKnownEnabled : bool;
  c_WellKnownCacheTTL : Z;
  c_CapabilityRefreshEnabled : bool;
  c_CapabilityPushEnabled : bool;
  c_EmbeddingCacheMaxSize : Z;
  c_ServerScopeEnforcement : bool;
  c_DefaultRoutingStrategy : string;
  c_ToolNamespaceMode : string;
  c_NamespaceSeparator : string;
  c_GatewayBaseURL : string;
}.

Definition set_AdminMode (mode : string) (c : Config) : Config :=
  mkConfig
     c.(c_ListenAddr) c.(c_TLSCertPath) c.(c_TLSKeyPath) c.(c_TLSCAPath) c.(c_DBURL) c.(c_NATSURL)
     c.(c_NATSTLSEnabled) c.(c_NATSTLSCert) c.(c_NATSTLSKey) c.(c_NATSTLSCa) c.(c_OIDCIssuer)
     c.(c_OIDCAudience) c.(c_HeartbeatTTL) c.(c_RateDefault) c.(c_RateBurst) c.(c_CircuitThreshold)
     c.(c_CircuitTimeout) c.(c_RetryMax) c.(c_SPIFFEAllowList) c.(c_PlatformSPIFFEPrefixes)
     c.(c_LogFormat) c.(c_LogLevel) c.(c_MetricsAddr) c.(c_CruveroEnabled) c.(c_GatewayID)
     c.(c_CORSEnabled) c.(c_CORSAllowedOrigins) c.(c_DBMaxOpenConns) c.(c_DBMaxIdleConns)
     c.(c_DBConnMaxLifetime) c.(c_AuditRetentionDays) c.(c_AuditCleanupInterval)
     c.(c_ShutdownTimeout) c.(c_RateLimitBackend) c.(c_DragonflyURL) c.(c_OTLPExporterEndpoint)
     c.(c_OTELServiceName) c.(c_DeviceFlowEnabled) c.(c_DeviceFlowIDPDeviceURL)
     c.(c_DeviceFlowIDPTokenURL) c.(c_DeviceFlowClientID) c.(c_DeviceFlowClientSecret)
     c.(c_AdminEnabled) mode c.(c_PlatformServiceToken) c.(c_AdminExternalURL)
     c.(c_AdminOIDCClientID) c.(c_AdminOIDCClientSecret) c.(c_AdminRequiredScope)
     c.(c_AdminSessionKey) c.(c_AdminSessionTTL) c.(c_AdminDevMode) c.(c_ProgressiveDiscovery)
     c.(c_SearchEngine) c.(c_OnnxRuntimePath) c.(c_OnnxModelPath) c.(c_TokenizerPath)
     c.(c_Orchestrate) c.(c_PerServerEndpoints) c.(c_WellKnownEnabled) c.(c_WellKnownCacheTTL)
     c.(c_CapabilityRefreshEnabled) c.(c_CapabilityPushEnabled) c.(c_EmbeddingCacheMaxSize)
     c.(c_ServerScopeEnforcement) c.(c_DefaultRoutingStrategy) c.(c_ToolNamespaceMode)
     c.(c_NamespaceSeparator) c.(c_GatewayBaseURL).

Record parsedDurations := mkParsedDurations {
  pd_heartbeatTTL : Z;
  pd_circuitTimeout : Z;
  pd_dbConnMaxLifetime : Z;
  pd_auditCleanupInterval : Z;
  pd_shutdownTimeout : Z;
  pd_adminSessionTTL : Z;
  pd_wellKnownCacheTTL : Z;
}.

Record parsedIntegers := mkParsedIntegers {
  pi_rateDefault : Z;
  pi_rateBurst : Z;
  pi_circuitThreshold : Z;
  pi_retryMax : Z;
  pi_dbMaxOpenConns : Z;
  pi_dbMaxIdleConns : Z;
  pi_auditRetentionDays : Z;
  pi_embeddingCacheMaxSize : Z;
}.

Record parsedBooleans := mkParsedBooleans {
  pb_cruveroEnabled : bool;
  pb_corsEnabled : bool;
  pb_natsTLSEnabled : bool;
  pb_deviceFlowEnabled : bool;
  pb_adminEnabled : bool;
  pb_adminDevMode : bool;
  pb_progressiveDiscovery : bool;
  pb_orchestrateEnabled : bool;
  pb_perServerEndpoints : bool;
  pb_wellKnownEnabled : bool;
  pb_capabilityRefreshEnabled : bool;
  pb_capabilityPushEnabled : bool;
  pb_serverScopeEnforcement : bool;
}.

(** The entries of MCPGW_LLM_PROVIDERS. *)
Record providerEntry := mkProviderEntry {
  pe_Name : string;
  pe_BaseURL : string;
  pe_Model : string;
  pe_Priority : Z;
}.

(** Go's [if err != nil { return ..., err }]. *)
Definition result_bind {A B} (m : result A) (k : A → result B) : result B :=
  match m with Ok x => k x | Err e => Err e end.
#[local] Notation "'let?' x ':=' m 'in' k" := (result_bind m (λ x, k))
  (at level 200, x pattern, m at level 100, k at level 200, right associativity) : go_scope.

Section load.
Context `{UnicodeTables}.
Context (env : string → string).

(** ** Reading variables *)

Definition blank (s : string) : bool := bool_decide (TrimSpace s = "").

Definition getEnv (key defaultValue : string) : string :=
  let value := env key in if blank value then defaultValue else value.

Definition parse_error (key : string) : error := Wrap ("parse " +:+ key) (Opaque "invalid value").

Definition parseDuration (key : string) (defaultValue : Z) : result Z :=
  let raw := env key in
  if blank raw then Ok defaultValue
  else match ParseDuration raw with Some d => Ok d | None => Err (parse_error key) end.

Definition parseInt (key : string) (defaultValue : Z) : result Z :=
  let raw := env key in
  if blank raw then Ok defaultValue
  else match Atoi raw with Some n => Ok n | None => Err (parse_error key) end.

Definition parseBool (key : string) (defaultValue : bool) : result bool :=
  let raw := env key in
  if blank raw then Ok defaultValue
  else match ParseBool raw with Some b => Ok b | None => Err (parse_error key) end.

Definition parseCSV (key : string) : list string :=
  let raw := env key in
  if blank raw then [] else filter (λ s, s ≠ "") (TrimSpace <$> Split raw ",").

(** [loadDurations]. *)
Definition loadDurations : result parsedDurations :=
  let? heartbeatTTL := parseDuration "MCPGW_HEARTBEAT_TTL" (30 * second)%Z in
  let? circuitTimeout := parseDuration "MCPGW_CIRCUIT_TIMEOUT" (30 * second)%Z in
  let? dbConnMaxLifetime := parseDuration "MCPGW_DB_CONN_MAX_LIFETIME" (5 * minute)%Z in
  let? auditCleanupInterval := parseDuration "MCPGW_AUDIT_CLEANUP_INTERVAL" (60 * minute)%Z in
  let? shutdownTimeout := parseDuration "MCPGW_SHUTDOWN_TIMEOUT" (30 * second)%Z in
  let? adminSessionTTL := parseDuration "MCPGW_ADMIN_SESSION_TTL" (480 * minute)%Z in
  let? wellKnownCacheTTL := parseDuration "MCPGW_WELL_KNOWN_CACHE_TTL" (5 * second)%Z in
  Ok (mkParsedDurations heartbeatTTL circuitTimeout dbConnMaxLifetime auditCleanupInterval shutdownTimeout adminSessionTTL wellKnownCacheTTL).

(** [loadIntegers]. *)
Definition loadIntegers : result parsedIntegers :=
  let? rateDefault := parseInt "MCPGW_RATE_DEFAULT" 10%Z in
  let? rateBurst := parseInt "MCPGW_RATE_BURST" 20%Z in
  let? circuitThreshold := parseInt "MCPGW_CIRCUIT_THRESHOLD" 5%Z in
  let? retryMax := parseInt "MCPGW_RETRY_MAX" 3%Z in
  let? dbMaxOpenConns := parseInt "MCPGW_DB_MAX_OPEN_CONNS" 25%Z in
  let? dbMaxIdleConns := parseInt "MCPGW_DB_MAX_IDLE_CONNS" 10%Z in
  let? auditRetentionDays := parseInt "MCPGW_AUDIT_RETENTION_DAYS" 90%Z in
  let? embeddingCacheMaxSize := parseInt "MCPGW_EMBEDDING_CACHE_MAX_SIZE" 10000%Z in
  Ok (mkParsedIntegers rateDefault rateBurst circuitThreshold retryMax dbMaxOpenConns dbMaxIdleConns auditRetentionDays embeddingCacheMaxSize).

(** [loadBooleans]. *)
Definition loadBooleans : result parsedBooleans :=
  let? cruveroEnabled := parseBool "MCPGW_CRUVERO_ENABLED" false in
  let? corsEnabled := parseBool "MCPGW_CORS_ENABLED" false in
  let? natsTLSEnabled := parseBool "MCPGW_NATS_TLS_ENABLED" false in
  let? deviceFlowEnabled := parseBool "MCPGW_DEVICE_FLOW_ENABLED" false in
  let? adminEnabled := parseBool "MCPGW_ADMIN_ENABLED" false in
  let? adminDevMode := parseBool "MCPGW_ADMIN_DEV_MODE" false in
  let? progressiveDiscovery := parseBool "MCPGW_PROGRESSIVE_DISCOVERY" false in
  let? orchestrateEnabled := parseBool "MCPGW_ORCHESTRATE_ENABLED" false in
  let? perServerEndpoints := parseBool "MCPGW_PER_SERVER_ENDPOINTS" true in
  let? wellKnownEnabled := parseBool "MCPGW_WELL_KNOWN_ENABLED" true in
  let? capabilityRefreshEnabled := parseBool "MCPGW_CAPABILITY_REFRESH_ENABLED" true in
  let? capabilityPushEnabled := parseBool "MCPGW_CAPABILITY_PUSH_ENABLED" true in
  let? serverScopeEnforcement := parseBool "MCPGW_SERVER_SCOPE_ENFORCEMENT" true in
  Ok (mkParsedBooleans cruveroEnabled corsEnabled natsTLSEnabled deviceFlowEnabled adminEnabled adminDevMode progressiveDiscovery orchestrateEnabled perServerEndpoints wellKnownEnabled capabilityRefreshEnabled capabilityPushEnabled serverScopeEnforcement).

(** ** Providers *)

(** The inner loop of [sortProvidersByPriority], with [j + 1] for the position
    the key is moved down from. *)
Fixpoint shift_down (j1 : nat) (key : LLMProviderConfig) (ps : list LLMProviderConfig) :
    list LLMProviderConfig :=
  match j1 with
  | O => <[0 := key]> ps
  | S j =>
      match ps !! j with
      | Some p =>
          if (key.(lp_Priority) <? p.(lp_Priority))%Z then shift_down j key (<[S j := p]> ps)
          else <[S j := key]> ps
      | None => ps
      end
  end.

(** [sortProvidersByPriority]: an insertion sort in place. *)
Definition sortProvidersByPriority (providers : list LLMProviderConfig) : list LLMProviderConfig :=
  foldl (λ ps i, match ps !! i with Some key => shift_down i key ps | None => ps end)
    providers (seq 1 (length providers - 1)).

Definition entry_fields : list (string * decoder_of string providerEntry) :=
  [("name", field pe_Name (λ x e, mkProviderEntry x e.(pe_BaseURL) e.(pe_Model) e.(pe_Priority)) d_string);
   ("base_url", field pe_BaseURL (λ x e, mkProviderEntry e.(pe_Name) x e.(pe_Model) e.(pe_Priority)) d_string);
   ("model", field pe_Model (λ x e, mkProviderEntry e.(pe_Name) e.(pe_BaseURL) x e.(pe_Priority)) d_string);
   ("priority", field pe_Priority (λ x e, mkProviderEntry e.(pe_Name) e.(pe_BaseURL) e.(pe_Model) x) d_int)].

Definition decode_entries (raw : string) : option (list providerEntry) :=
  v ← json_parse raw;
  unmarshal (d_slice (d_struct entry_fields) (mkProviderEntry "" "" "" 0)) v [].

(** The variable of a provider's key. *)
Definition key_variable (name : string) : string := "MCPGW_LLM_" +:+ ToUpper name +:+ "_API_KEY".

(** One round of the loop: [None] when the entry is skipped. *)
Definition provider_of (e : providerEntry) : option LLMProviderConfig :=
  let name := TrimSpace e.(pe_Name) in
  if bool_decide (name = "") || blank e.(pe_Model) then None
  else
    let apiKey := TrimSpace (env (key_variable name)) in
    if bool_decide (apiKey = "") then None
    else Some (mkLLMProviderConfig name apiKey (TrimSpace e.(pe_BaseURL)) (TrimSpace e.(pe_Model)) e.(pe_Priority)).

Definition loadLLMProviders : result (list LLMProviderConfig) :=
  let raw := TrimSpace (env "MCPGW_LLM_PROVIDERS") in
  if bool_decide (raw = "") then Ok []
  else
    match decode_entries raw with
    | None => Err (parse_error "MCPGW_LLM_PROVIDERS")
    | Some entries => Ok (sortProvidersByPriority (omap provider_of entries))
    end.

Definition loadOrchestrateConfig (enabled : bool) : result OrchestrateConfig :=
  let? providers := loadLLMProviders in Ok (mkOrchestrateConfig enabled providers).

(** ** Identity and keys *)

(** [generateUUID]; [random] is what [rand.Read] delivers. *)
Definition generateUUID (random : option bytes) : result string :=
  match random with
  | None => Err (Wrap "read random bytes" (Opaque "entropy"))
  | Some b => Ok (format_uuid (uuid_bytes b))
  end.

Definition resolveGatewayID (random : option bytes) : result string :=
  let id := getEnv "MCPGW_GATEWAY_ID" "auto" in
  if negb (bool_decide (id = "auto")) then Ok id
  else
    match generateUUID random with
    | Err e => Err (Wrap "generate gateway id" e)
    | Ok generated => Ok generated
    end.

Definition emptyKey : bytes := replicate 32 zero.

Definition loadAdminSessionKey : result bytes :=
  let rawKey := TrimSpace (env "MCPGW_ADMIN_SESSION_KEY") in
  if bool_decide (rawKey = "") then Ok emptyKey
  else
    match hex_decode (to_bytes rawKey) with
    | None => Err (parse_error "MCPGW_ADMIN_SESSION_KEY")
    | Some decoded =>
        if negb (length decoded =? 32) then
          Err (Opaque "parse MCPGW_ADMIN_SESSION_KEY: must be exactly 32 bytes (64 hex chars)")
        else Ok decoded
    end.

(** ** Checks *)

Definition invalid (msg : string) : error := Opaque ("validate config: " +:+ msg).
Definition require (ok : bool) (msg : string) : result () := if ok then Ok () else Err (invalid msg).

Definition validateTLS (c : Config) : result () :=
  let hasTLSCert := negb (blank c.(c_TLSCertPath)) in
  let hasTLSKey := negb (blank c.(c_TLSKeyPath)) in
  require (Bool.eqb hasTLSCert hasTLSKey) "MCPGW_TLS_CERT and MCPGW_TLS_KEY must be set together".

(** The loop over a table of checks: the first that fails is reported. *)
Fixpoint all_positive (checks : list (Z * string)) : result () :=
  match checks with
  | [] => Ok ()
  | (value, name) :: checks' =>
      if (value <=? 0)%Z then Err (invalid (name +:+ " must be positive")) else all_positive checks'
  end.

Definition validateResilienceFields (c : Config) : result () :=
  all_positive
    [(c.(c_RateDefault), "MCPGW_RATE_DEFAULT"); (c.(c_RateBurst), "MCPGW_RATE_BURST");
     (c.(c_CircuitThreshold), "MCPGW_CIRCUIT_THRESHOLD"); (c.(c_RetryMax), "MCPGW_RETRY_MAX")].

Definition validateNATS (c : Config) : result () :=
  if c.(c_CruveroEnabled) && blank c.(c_NATSURL) then
    Err (invalid "MCPGW_NATS_URL is required when MCPGW_CRUVERO_ENABLED is true")
  else if c.(c_NATSTLSEnabled) && (blank c.(c_NATSTLSCert) || blank c.(c_NATSTLSKey) || blank c.(c_NATSTLSCa)) then
    Err (invalid "MCPGW_NATS_TLS_CERT, MCPGW_NATS_TLS_KEY, and MCPGW_NATS_TLS_CA are all required when MCPGW_NATS_TLS_ENABLED is true")
  else Ok ().

Definition validateCORS (c : Config) : result () :=
  require (negb (c.(c_CORSEnabled) && (length c.(c_CORSAllowedOrigins) =? 0)))
    "MCPGW_CORS_ALLOWED_ORIGINS is required when MCPGW_CORS_ENABLED is true".

Definition validateDBAndAuditFields (c : Config) : result () :=
  let? _ := all_positive
    [(c.(c_DBMaxOpenConns), "MCPGW_DB_MAX_OPEN_CONNS"); (c.(c_DBMaxIdleConns), "MCPGW_DB_MAX_IDLE_CONNS");
     (c.(c_AuditRetentionDays), "MCPGW_AUDIT_RETENTION_DAYS")] in
  all_positive
    [(c.(c_DBConnMaxLifetime), "MCPGW_DB_CONN_MAX_LIFETIME");
     (c.(c_AuditCleanupInterval), "MCPGW_AUDIT_CLEANUP_INTERVAL")].

Definition validateShutdown (c : Config) : result () :=
  if (c.(c_ShutdownTimeout) <=? 0)%Z then Err (invalid "MCPGW_SHUTDOWN_TIMEOUT must be positive")
  else if (120 * second <? c.(c_ShutdownTimeout))%Z then Err (invalid "MCPGW_SHUTDOWN_TIMEOUT must not exceed 120s")
  else Ok ().

Definition validateRateLimitBackend (c : Config) : result () :=
  let backend := c.(c_RateLimitBackend) in
  if negb (bool_decide (backend ∈ ["memory"; "dragonfly"; "nats"; ""])) then
    Err (invalid "MCPGW_RATE_LIMIT_BACKEND must be memory, dragonfly, or nats")
  else if bool_decide (backend = "dragonfly") && blank c.(c_DragonflyURL) then
    Err (invalid "MCPGW_DRAGONFLY_URL is required when MCPGW_RATE_LIMIT_BACKEND is dragonfly")
  else if bool_decide (backend = "nats") && negb c.(c_CruveroEnabled) then
    Err (invalid "MCPGW_CRUVERO_ENABLED must be true when MCPGW_RATE_LIMIT_BACKEND is nats")
  else Ok ().

(** [validateAdminMode] also writes the mode it recognised. *)
Definition validateAdminMode (c : Config) : result Config :=
  let mode := ToLower (TrimSpace c.(c_AdminMode)) in
  if bool_decide (mode ∈ [""; "standalone"]) then Ok (set_AdminMode "standalone" c)
  else if bool_decide (mode = "integrated") then
    if blank c.(c_PlatformServiceToken) then
      Err (invalid "MCPGW_PLATFORM_SERVICE_TOKEN is required when MCPGW_ADMIN_MODE is integrated")
    else Ok (set_AdminMode "integrated" c)
  else Err (invalid "MCPGW_ADMIN_MODE must be standalone or integrated").

Definition validateAdmin (c : Config) : result () :=
  if bool_decide (TrimSpace c.(c_AdminMode) = "integrated") then Ok ()
  else if c.(c_AdminDevMode) && negb c.(c_AdminEnabled) then
    Err (invalid "MCPGW_ADMIN_ENABLED must be true when MCPGW_ADMIN_DEV_MODE is true")
  else
    let gwID := ToLower (TrimSpace c.(c_GatewayID)) in
    if c.(c_AdminDevMode) && (Contains gwID "prod" || Contains gwID "staging") then
      Err (invalid "MCPGW_ADMIN_DEV_MODE must not be true when MCPGW_GATEWAY_ID contains prod or staging")
    else if negb c.(c_AdminEnabled) || c.(c_AdminDevMode) then Ok ()
    else if blank c.(c_AdminOIDCClientID) then
      Err (invalid "MCPGW_ADMIN_OIDC_CLIENT_ID is required when MCPGW_ADMIN_ENABLED is true")
    else if blank c.(c_OIDCIssuer) then
      Err (invalid "MCPGW_OIDC_ISSUER is required when MCPGW_ADMIN_ENABLED is true")
    else if bool_decide (c.(c_AdminSessionKey) = emptyKey) then
      Err (invalid "MCPGW_ADMIN_SESSION_KEY is required when MCPGW_ADMIN_ENABLED is true")
    else Ok ().

Definition validateSearchEngine (c : Config) : result () :=
  require (bool_decide (c.(c_SearchEngine) ∈ [""; "substring"; "bm25"; "vector"; "hybrid"]))
    "MCPGW_SEARCH_ENGINE must be substring, bm25, vector, or hybrid".

Definition validateDeviceFlow (c : Config) : result () :=
  if negb c.(c_DeviceFlowEnabled) then Ok ()
  else if blank c.(c_DeviceFlowIDPDeviceURL) then
    Err (invalid "MCPGW_DEVICE_FLOW_IDP_DEVICE_URL is required when MCPGW_DEVICE_FLOW_ENABLED is true")
  else if blank c.(c_DeviceFlowIDPTokenURL) then
    Err (invalid "MCPGW_DEVICE_FLOW_IDP_TOKEN_URL is required when MCPGW_DEVICE_FLOW_ENABLED is true")
  else if blank c.(c_DeviceFlowClientID) then
    Err (invalid "MCPGW_DEVICE_FLOW_CLIENT_ID is required when MCPGW_DEVICE_FLOW_ENABLED is true")
  else Ok ().

(** [Config.Validate]: the configuration as the checks leave it. *)
Definition ConfigValidate (c : Config) : result Config :=
  let? _ := require (negb (blank c.(c_DBURL))) "MCPGW_DB_URL is required" in
  let? _ := validateTLS c in
  let? _ := validateResilienceFields c in
  let? _ := validateNATS c in
  let? _ := validateCORS c in
  let? _ := validateDBAndAuditFields c in
  let? _ := validateShutdown c in
  let? _ := validateRateLimitBackend c in
  let? c := validateAdminMode c in
  let? _ := validateAdmin c in
  let? _ := validateSearchEngine c in
  let? _ := validateDeviceFlow c in
  Ok c.

(** [IsTLSConfigured]. *)
Definition IsTLSConfigured (c : Config) : bool :=
  negb (blank c.(c_TLSCertPath)) && negb (blank c.(c_TLSKeyPath)).

(** ** [Load] *)

Definition build (dur : parsedDurations) (ints : parsedIntegers) (bools : parsedBooleans)
    (gatewayID : string) (adminSessionKey : bytes) (orch : OrchestrateConfig) : Config :=
  {|
     c_ListenAddr := getEnv "MCPGW_LISTEN_ADDR" ":8443";
     c_TLSCertPath := env "MCPGW_TLS_CERT";
     c_TLSKeyPath := env "MCPGW_TLS_KEY";
     c_TLSCAPath := env "MCPGW_TLS_CA";
     c_DBURL := env "MCPGW_DB_URL";
     c_NATSURL := env "MCPGW_NATS_URL";
     c_NATSTLSEnabled := bools.(pb_natsTLSEnabled);
     c_NATSTLSCert := env "MCPGW_NATS_TLS_CERT";
     c_NATSTLSKey := env "MCPGW_NATS_TLS_KEY";
     c_NATSTLSCa := env "MCPGW_NATS_TLS_CA";
     c_OIDCIssuer := env "MCPGW_OIDC_ISSUER";
     c_OIDCAudience := env "MCPGW_OIDC_AUDIENCE";
     c_HeartbeatTTL := dur.(pd_heartbeatTTL);
     c_RateDefault := ints.(pi_rateDefault);
     c_RateBurst := ints.(pi_rateBurst);
     c_CircuitThreshold := ints.(pi_circuitThreshold);
     c_CircuitTimeout := dur.(pd_circuitTimeout);
     c_RetryMax := ints.(pi_retryMax);
     c_SPIFFEAllowList := parseCSV "MCPGW_SPIFFE_ALLOW_PREFIX";
     c_PlatformSPIFFEPrefixes := parseCSV "MCPGW_PLATFORM_SPIFFE_PREFIXES";
     c_LogFormat := getEnv "MCPGW_LOG_FORMAT" "json";
     c_LogLevel := getEnv "MCPGW_LOG_LEVEL" "info";
     c_MetricsAddr := getEnv "MCPGW_METRICS_ADDR" ":9090";
     c_CruveroEnabled := bools.(pb_cruveroEnabled);
     c_GatewayID := gatewayID;
     c_CORSEnabled := bools.(pb_corsEnabled);
     c_CORSAllowedOrigins := parseCSV "MCPGW_CORS_ALLOWED_ORIGINS";
     c_DBMaxOpenConns := ints.(pi_dbMaxOpenConns);
     c_DBMaxIdleConns := ints.(pi_dbMaxIdleConns);
     c_DBConnMaxLifetime := dur.(pd_dbConnMaxLifetime);
     c_AuditRetentionDays := ints.(pi_auditRetentionDays);
     c_AuditCleanupInterval := dur.(pd_auditCleanupInterval);
     c_ShutdownTimeout := dur.(pd_shutdownTimeout);
     c_RateLimitBackend := getEnv "MCPGW_RATE_LIMIT_BACKEND" "memory";
     c_DragonflyURL := env "MCPGW_DRAGONFLY_URL";
     c_OTLPExporterEndpoint := getEnv "OTEL_EXPORTER_OTLP_ENDPOINT" "";
     c_OTELServiceName := getEnv "OTEL_SERVICE_NAME" "mcpgw";
     c_DeviceFlowEnabled := bools.(pb_deviceFlowEnabled);
     c_DeviceFlowIDPDeviceURL := env "MCPGW_DEVICE_FLOW_IDP_DEVICE_URL";
     c_DeviceFlowIDPTokenURL := env "MCPGW_DEVICE_FLOW_IDP_TOKEN_URL";
     c_DeviceFlowClientID := env "MCPGW_DEVICE_FLOW_CLIENT_ID";
     c_DeviceFlowClientSecret := env "MCPGW_DEVICE_FLOW_CLIENT_SECRET";
     c_AdminEnabled := bools.(pb_adminEnabled);
     c_AdminMode := ToLower (TrimSpace (getEnv "MCPGW_ADMIN_MODE" "standalone"));
     c_PlatformServiceToken := TrimSpace (env "MCPGW_PLATFORM_SERVICE_TOKEN");
     c_AdminExternalURL := env "MCPGW_ADMIN_EXTERNAL_URL";
     c_AdminOIDCClientID := env "MCPGW_ADMIN_OIDC_CLIENT_ID";
     c_AdminOIDCClientSecret := env "MCPGW_ADMIN_OIDC_CLIENT_SECRET";
     c_AdminRequiredScope := getEnv "MCPGW_ADMIN_REQUIRED_SCOPE" "admin";
     c_AdminSessionKey := adminSessionKey;
     c_AdminSessionTTL := dur.(pd_adminSessionTTL);
     c_AdminDevMode := bools.(pb_adminDevMode);
     c_ProgressiveDiscovery := bools.(pb_progressiveDiscovery);
     c_SearchEngine := getEnv "MCPGW_SEARCH_ENGINE" "";
     c_OnnxRuntimePath := getEnv "MCPGW_ONNX_RUNTIME_PATH" "/usr/lib/libonnxruntime.so";
     c_OnnxModelPath := getEnv "MCPGW_ONNX_MODEL_PATH" "/models/all-MiniLM-L6-v2.onnx";
     c_TokenizerPath := getEnv "MCPGW_TOKENIZER_PATH" "/models/tokenizer.json";
     c_Orchestrate := orch;
     c_PerServerEndpoints := bools.(pb_perServerEndpoints);
     c_WellKnownEnabled := bools.(pb_wellKnownEnabled);
     c_WellKnownCacheTTL := dur.(pd_wellKnownCacheTTL);
     c_CapabilityRefreshEnabled := bools.(pb_capabilityRefreshEnabled);
     c_CapabilityPushEnabled := bools.(pb_capabilityPushEnabled);
     c_EmbeddingCacheMaxSize := ints.(pi_embeddingCacheMaxSize);
     c_ServerScopeEnforcement := bools.(pb_serverScopeEnforcement);
     c_DefaultRoutingStrategy := getEnv "MCPGW_DEFAULT_ROUTING_STRATEGY" "round_robin";
     c_ToolNamespaceMode := getEnv "MCPGW_TOOL_NAMESPACE_MODE" "reject";
     c_NamespaceSeparator := getEnv "MCPGW_NAMESPACE_SEPARATOR" ".";
     c_GatewayBaseURL := TrimSpace (env "MCPGW_GATEWAY_BASE_URL");
  |}.

Definition Load (random : option bytes) : result Config :=
  let? dur := loadDurations in
  let? ints := loadIntegers in
  let? bools := loadBooleans in
  let? gatewayID := resolveGatewayID random in
  let? adminSessionKey := loadAdminSessionKey in
  let? orch := loadOrchestrateConfig bools.(pb_orchestrateEnabled) in
  ConfigValidate (build dur ints bools gatewayID adminSessionKey orch).

End load.

(** The part of the configuration the registration service is given. *)
Definition service_config (c : Config) : Registration.Config :=
  Registration.mkConfig c.(c_HeartbeatTTL) c.(c_RateDefault) c.(c_RateBurst) c.(c_CapabilityRefreshEnabled).
