(* ===== verification/ConfigProps.v ===== *)
(** * Properties of the configuration *)

From S2P Require Import Prelude GoStrings Encoding GoNet GoFloat Json GoParse Document JsonText.
From S2P Require Import Types Registration Config.

#[local] Open Scope string_scope.
#[local] Open Scope list_scope.
#[local] Open Scope nat_scope.
#[local] Open Scope go_scope.

(** ** Calls that succeed *)

Lemma result_bind_Ok {A B} (m : result A) (k : A → result B) y :
  result_bind m k = Ok y ↔ ∃ x, m = Ok x ∧ k x = Ok y.
Proof. destruct m as [e|x]; cbn; [split; [done|by intros (x & [=] & _)]|]. split; [by eexists|by intros (x' & [= <-] & ?)]. Qed.

Lemma require_Ok b msg x : require b msg = Ok x ↔ b = true.
Proof. destruct b, x; cbn; split; congruence. Qed.

Lemma all_positive_Ok checks x : all_positive checks = Ok x ↔ Forall (λ p, 0 < p.1)%Z checks.
Proof.
  destruct x. induction checks as [|[v n] checks IH]; cbn; [done|]. rewrite Forall_cons. cbn.
  destruct (v <=? 0)%Z eqn:E; reflect_bools; [split; [done|by intros [? _]; lia]|].
  rewrite IH. split; [done|by intros [_ ?]].
Qed.

(** Takes a chain of calls that succeeded apart. *)
Ltac succeed H :=
  repeat match type of H with
  | result_bind _ _ = _ =>
      let x := fresh "x" in let E := fresh "E" in apply result_bind_Ok in H as (x & E & H); succeed E
  end.

Section props.
Context `{UnicodeTables}.

(** ** Valid configurations *)

(** What the checks guarantee the rest of the gateway about its configuration. *)
Record config_valid (c : Config) : Prop := {
  cv_db : blank c.(c_DBURL) = false;
  cv_tls : blank c.(c_TLSCertPath) = blank c.(c_TLSKeyPath);
  cv_positive : Forall (λ n, 0 < n)%Z
    [c.(c_RateDefault); c.(c_RateBurst); c.(c_CircuitThreshold); c.(c_RetryMax); c.(c_DBMaxOpenConns);
     c.(c_DBMaxIdleConns); c.(c_AuditRetentionDays); c.(c_DBConnMaxLifetime); c.(c_AuditCleanupInterval)];
  cv_shutdown : (0 < c.(c_ShutdownTimeout) <= 120 * second)%Z;
  cv_nats : c.(c_CruveroEnabled) = true → blank c.(c_NATSURL) = false;
  cv_nats_tls : c.(c_NATSTLSEnabled) = true →
    Forall (λ s, blank s = false) [c.(c_NATSTLSCert); c.(c_NATSTLSKey); c.(c_NATSTLSCa)];
  cv_cors : c.(c_CORSEnabled) = true → c.(c_CORSAllowedOrigins) ≠ [];
  cv_backend : c.(c_RateLimitBackend) ∈ ["memory"; "dragonfly"; "nats"; ""];
  cv_dragonfly : c.(c_RateLimitBackend) = "dragonfly" → blank c.(c_DragonflyURL) = false;
  cv_nats_limits : c.(c_RateLimitBackend) = "nats" → c.(c_CruveroEnabled) = true;
  cv_mode : c.(c_AdminMode) ∈ ["standalone"; "integrated"];
  cv_integrated : c.(c_AdminMode) = "integrated" → blank c.(c_PlatformServiceToken) = false;
  cv_dev : c.(c_AdminMode) = "standalone" → c.(c_AdminDevMode) = true →
    c.(c_AdminEnabled) = true ∧
    Contains (ToLower (TrimSpace c.(c_GatewayID))) "prod" = false ∧
    Contains (ToLower (TrimSpace c.(c_GatewayID))) "staging" = false;
  cv_admin : c.(c_AdminMode) = "standalone" → c.(c_AdminEnabled) = true → c.(c_AdminDevMode) = false →
    blank c.(c_AdminOIDCClientID) = false ∧ blank c.(c_OIDCIssuer) = false ∧ c.(c_AdminSessionKey) ≠ emptyKey;
  cv_search : c.(c_SearchEngine) ∈ [""; "substring"; "bm25"; "vector"; "hybrid"];
  cv_device : c.(c_DeviceFlowEnabled) = true →
    Forall (λ s, blank s = false)
      [c.(c_DeviceFlowIDPDeviceURL); c.(c_DeviceFlowIDPTokenURL); c.(c_DeviceFlowClientID)];
}.

(** ** The variables behind the settings *)

Definition int_settings : list (string * Z * (Config → Z)) :=
  [("MCPGW_RATE_DEFAULT", 10%Z, c_RateDefault);
   ("MCPGW_RATE_BURST", 20%Z, c_RateBurst);
   ("MCPGW_CIRCUIT_THRESHOLD", 5%Z, c_CircuitThreshold);
   ("MCPGW_RETRY_MAX", 3%Z, c_RetryMax);
   ("MCPGW_DB_MAX_OPEN_CONNS", 25%Z, c_DBMaxOpenConns);
   ("MCPGW_DB_MAX_IDLE_CONNS", 10%Z, c_DBMaxIdleConns);
   ("MCPGW_AUDIT_RETENTION_DAYS", 90%Z, c_AuditRetentionDays);
   ("MCPGW_EMBEDDING_CACHE_MAX_SIZE", 10000%Z, c_EmbeddingCacheMaxSize)].

Definition duration_settings : list (string * Z * (Config → Z)) :=
  [("MCPGW_HEARTBEAT_TTL", (30 * second)%Z, c_HeartbeatTTL);
   ("MCPGW_CIRCUIT_TIMEOUT", (30 * second)%Z, c_CircuitTimeout);
   ("MCPGW_DB_CONN_MAX_LIFETIME", (5 * minute)%Z, c_DBConnMaxLifetime);
   ("MCPGW_AUDIT_CLEANUP_INTERVAL", (60 * minute)%Z, c_AuditCleanupInterval);
   ("MCPGW_SHUTDOWN_TIMEOUT", (30 * second)%Z, c_ShutdownTimeout);
   ("MCPGW_ADMIN_SESSION_TTL", (480 * minute)%Z, c_AdminSessionTTL);
   ("MCPGW_WELL_KNOWN_CACHE_TTL", (5 * second)%Z, c_WellKnownCacheTTL)].

Definition bool_settings : list (string * bool * (Config → bool)) :=
  [("MCPGW_CRUVERO_ENABLED", false, c_CruveroEnabled);
   ("MCPGW_CORS_ENABLED", false, c_CORSEnabled);
   ("MCPGW_NATS_TLS_ENABLED", false, c_NATSTLSEnabled);
   ("MCPGW_DEVICE_FLOW_ENABLED", false, c_DeviceFlowEnabled);
   ("MCPGW_ADMIN_ENABLED", false, c_AdminEnabled);
   ("MCPGW_ADMIN_DEV_MODE", false, c_AdminDevMode);
   ("MCPGW_PROGRESSIVE_DISCOVERY", false, c_ProgressiveDiscovery);
   ("MCPGW_PER_SERVER_ENDPOINTS", true, c_PerServerEndpoints);
   ("MCPGW_WELL_KNOWN_ENABLED", true, c_WellKnownEnabled);
   ("MCPGW_CAPABILITY_REFRESH_ENABLED", true, c_CapabilityRefreshEnabled);
   ("MCPGW_CAPABILITY_PUSH_ENABLED", true, c_CapabilityPushEnabled);
   ("MCPGW_SERVER_SCOPE_ENFORCEMENT", true, c_ServerScopeEnforcement)].

(** A setting is the default when its variable is blank, and the value of the
    variable otherwise. *)
Definition setting {A} (env : string → string) (parse : string → option A) (c : Config)
    (p : string * A * (Config → A)) : Prop :=
  let '(key, dflt, get) := p in
  if blank (env key) then get c = dflt else parse (env key) = Some (get c).

(** ** What the checks establish *)

Lemma validateNATS_Ok c x : validateNATS c = Ok x →
  (c.(c_CruveroEnabled) = true → blank c.(c_NATSURL) = false) ∧
  (c.(c_NATSTLSEnabled) = true →
    Forall (λ s, blank s = false) [c.(c_NATSTLSCert); c.(c_NATSTLSKey); c.(c_NATSTLSCa)]).
Proof.
  unfold validateNATS. destruct (_ && blank _) eqn:E1; [done|]. destruct (_ && (_ || _)) eqn:E2; [done|].
  intros _. split; intros Hb; rewrite Hb in *; cbn in *; [done|].
  apply orb_false_iff in E2 as [[? ?]%orb_false_iff ?]. by repeat constructor.
Qed.

Lemma validateRateLimitBackend_Ok c x : validateRateLimitBackend c = Ok x →
  c.(c_RateLimitBackend) ∈ ["memory"; "dragonfly"; "nats"; ""] ∧
  (c.(c_RateLimitBackend) = "dragonfly" → blank c.(c_DragonflyURL) = false) ∧
  (c.(c_RateLimitBackend) = "nats" → c.(c_CruveroEnabled) = true).
Proof.
  unfold validateRateLimitBackend. destruct (negb _) eqn:E0; [done|].
  destruct (_ && blank _) eqn:E1; [done|]. destruct (_ && negb _) eqn:E2; [done|]. intros _.
  apply negb_false_iff, bool_decide_eq_true in E0. split; [done|].
  split; intros Hb; rewrite Hb, bool_decide_eq_true_2 in * by done; cbn in *; [done|].
  by apply negb_false_iff.
Qed.

Lemma validateAdminMode_Ok c c' : validateAdminMode c = Ok c' →
  ∃ mode, c' = set_AdminMode mode c ∧ mode ∈ ["standalone"; "integrated"] ∧
    (mode = "integrated" → blank c.(c_PlatformServiceToken) = false).
Proof.
  unfold validateAdminMode. destruct (bool_decide _).
  - intros [= <-]. exists "standalone". split_and!; [done|set_solver|done].
  - destruct (bool_decide _); [|done]. destruct (blank _) eqn:E; [done|]. intros [= <-].
    exists "integrated". split_and!; [done|set_solver|done].
Qed.

Lemma validateAdmin_Ok c x : c.(c_AdminMode) = "standalone" → validateAdmin c = Ok x →
  (c.(c_AdminDevMode) = true → c.(c_AdminEnabled) = true ∧
    Contains (ToLower (TrimSpace c.(c_GatewayID))) "prod" = false ∧
    Contains (ToLower (TrimSpace c.(c_GatewayID))) "staging" = false) ∧
  (c.(c_AdminEnabled) = true → c.(c_AdminDevMode) = false →
    blank c.(c_AdminOIDCClientID) = false ∧ blank c.(c_OIDCIssuer) = false ∧ c.(c_AdminSessionKey) ≠ emptyKey).
Proof.
  intros Hm. unfold validateAdmin. rewrite Hm. change (bool_decide (TrimSpace "standalone" = "integrated")) with false.
  cbv iota zeta. destruct (_ && negb _) eqn:E1; [done|]. destruct (_ && (_ || _)) eqn:E2; [done|].
  intros Hx. split.
  - intros Hd. rewrite Hd in *. cbn in E1, E2. apply negb_false_iff in E1. by apply orb_false_iff in E2.
  - intros He Hd. rewrite He, Hd in Hx. cbn in Hx.
    destruct (blank c.(c_AdminOIDCClientID)); [done|]. destruct (blank c.(c_OIDCIssuer)); [done|].
    by destruct (bool_decide _) eqn:Ek; [|apply bool_decide_eq_false in Ek].
Qed.

Lemma validateDeviceFlow_Ok c x : validateDeviceFlow c = Ok x → c.(c_DeviceFlowEnabled) = true →
  Forall (λ s, blank s = false)
    [c.(c_DeviceFlowIDPDeviceURL); c.(c_DeviceFlowIDPTokenURL); c.(c_DeviceFlowClientID)].
Proof.
  unfold validateDeviceFlow. intros Hx Hd. rewrite Hd in Hx. cbn in Hx.
  destruct (blank c.(c_DeviceFlowIDPDeviceURL)) eqn:E1; [done|].
  destruct (blank c.(c_DeviceFlowIDPTokenURL)) eqn:E2; [done|].
  destruct (blank c.(c_DeviceFlowClientID)) eqn:E3; [done|]. by repeat constructor.
Qed.

Lemma validate_set c c' : ConfigValidate c = Ok c' → ∃ mode, c' = set_AdminMode mode c.
Proof.
  unfold ConfigValidate. intros Hv. succeed Hv. injection Hv as <-.
  destruct (validateAdminMode_Ok _ _ E7) as (mode & -> & _). by eexists.
Qed.

Lemma validate_valid c c' : ConfigValidate c = Ok c' → config_valid c'.
Proof.
  unfold ConfigValidate. intros Hv. succeed Hv. injection Hv as <-.
  apply require_Ok, negb_true_iff in E. apply require_Ok, eqb_prop in E0.
  apply all_positive_Ok in E1. apply validateNATS_Ok in E2 as [Hnats Htls].
  apply require_Ok, negb_true_iff in E3. unfold validateDBAndAuditFields in E4. succeed E4.
  apply all_positive_Ok in E4, E2. apply validateRateLimitBackend_Ok in E6 as (Hb & Hdf & Hn).
  apply validateAdminMode_Ok in E7 as (mode & -> & Hmode & Htok).
  apply require_Ok, bool_decide_eq_true in E9. unfold validateShutdown in E5.
  destruct (_ <=? 0)%Z eqn:Es1; [done|]. destruct (_ <? _)%Z eqn:Es2; [done|]. reflect_bools.
  pose proof (λ Hm, validateAdmin_Ok (set_AdminMode mode c) _ Hm E8) as Hadm.
  pose proof (validateDeviceFlow_Ok _ _ E10) as Hdev.
  constructor; cbn [set_AdminMode c_DBURL c_TLSCertPath c_TLSKeyPath]; try done.
  - by destruct (blank c.(c_TLSCertPath)), (blank c.(c_TLSKeyPath)).
  - apply Forall_cons in E1 as [? E1]. repeat (apply Forall_cons in E1 as [? E1]).
    repeat (apply Forall_cons in E4 as [? E4]). repeat (apply Forall_cons in E2 as [? E2]). by repeat constructor.
  - intros Hc Ho. change (c.(c_CORSAllowedOrigins) = []) in Ho. rewrite Ho in E3.
    destruct E3 as [E3|E3]; [exact (eq_true_false_abs _ Hc E3)|done].
  - intros Hm. by apply Hadm.
  - intros Hm. by apply Hadm.
Qed.

(** ** Valid configurations pass *)

Lemma set_AdminMode_id mode c : c.(c_AdminMode) = mode → set_AdminMode mode c = c.
Proof. intros <-. by destruct c. Qed.

Lemma validateAdminMode_valid c : config_valid c → validateAdminMode c = Ok c.
Proof.
  intros Hc. unfold validateAdminMode. pose proof (cv_integrated c Hc) as Hi.
  pose proof (cv_mode c Hc) as [Hm|[Hm|[]%elem_of_nil]%elem_of_cons]%elem_of_cons; rewrite Hm.
  - change (ToLower (TrimSpace "standalone")) with "standalone".
    rewrite bool_decide_eq_true_2 by set_solver. f_equal. by apply set_AdminMode_id.
  - change (ToLower (TrimSpace "integrated")) with "integrated".
    rewrite bool_decide_eq_false_2 by set_solver. rewrite bool_decide_eq_true_2 by done.
    rewrite (Hi Hm). f_equal. by apply set_AdminMode_id.
Qed.

Lemma validateAdmin_valid c : config_valid c → validateAdmin c = Ok ().
Proof.
  intros Hc. unfold validateAdmin. pose proof (cv_dev c Hc) as Hd. pose proof (cv_admin c Hc) as Ha.
  pose proof (cv_mode c Hc) as [Hm|[Hm|[]%elem_of_nil]%elem_of_cons]%elem_of_cons; rewrite Hm in *; [|done].
  change (bool_decide (TrimSpace "standalone" = "integrated")) with false. cbv iota zeta.
  destruct (c_AdminDevMode c); cbn.
  - destruct (Hd eq_refl eq_refl) as (-> & -> & ->). done.
  - destruct (c_AdminEnabled c); cbn; [|done]. destruct (Ha eq_refl eq_refl eq_refl) as (-> & -> & Hk).
    by rewrite bool_decide_eq_false_2.
Qed.

Lemma validate_NATS_backend_valid c : config_valid c →
  validateNATS c = Ok () ∧ validateRateLimitBackend c = Ok ().
Proof.
  intros Hc. unfold validateNATS, validateRateLimitBackend. split.
  - assert (c_CruveroEnabled c && blank (c_NATSURL c) = false) as ->.
    { destruct (c_CruveroEnabled c) eqn:E; [|done]. by apply (cv_nats c Hc). }
    destruct (c_NATSTLSEnabled c) eqn:E; [|done]. cbn.
    pose proof (cv_nats_tls c Hc E) as Hf. repeat (apply Forall_cons in Hf as [-> Hf]). done.
  - rewrite (bool_decide_eq_true_2 _ (cv_backend c Hc)). cbn.
    pose proof (cv_dragonfly c Hc) as Hd. pose proof (cv_nats_limits c Hc) as Hn.
    destruct (bool_decide (c_RateLimitBackend c = "dragonfly")) eqn:E1.
    { apply bool_decide_eq_true in E1. rewrite (Hd E1), E1. done. }
    cbn. destruct (bool_decide (c_RateLimitBackend c = "nats")) eqn:E2; [|done].
    apply bool_decide_eq_true in E2. by rewrite (Hn E2).
Qed.

Lemma positive_valid (l : list (Z * string)) : Forall (λ p, 0 < p.1)%Z l → all_positive l = Ok ().
Proof. apply all_positive_Ok. Qed.

Lemma valid_validate c : config_valid c → ConfigValidate c = Ok c.
Proof.
  intros Hc. unfold ConfigValidate. rewrite (cv_db c Hc). cbn [negb require result_bind].
  unfold validateTLS. rewrite (cv_tls c Hc), eqb_reflx. cbn [require result_bind].
  pose proof (cv_positive c Hc) as Hp. repeat (apply Forall_cons in Hp as [? Hp]).
  unfold validateResilienceFields. rewrite positive_valid by (repeat constructor; done). cbn [result_bind].
  destruct (validate_NATS_backend_valid c Hc) as [-> ->]. cbn [result_bind].
  assert (validateCORS c = Ok ()) as ->.
  { unfold validateCORS. destruct (c_CORSEnabled c) eqn:E; [|done]. cbn.
    pose proof (cv_cors c Hc E). by destruct (c_CORSAllowedOrigins c). }
  unfold validateDBAndAuditFields. rewrite !positive_valid by (repeat constructor; done). cbn [result_bind].
  assert (validateShutdown c = Ok ()) as ->.
  { pose proof (cv_shutdown c Hc). unfold validateShutdown.
    rewrite (proj2 (Z.leb_gt _ _)), (proj2 (Z.ltb_ge _ _)) by lia. done. }
  cbn [result_bind]. rewrite validateAdminMode_valid by done. cbn [result_bind].
  rewrite validateAdmin_valid by done. cbn [result_bind].
  unfold validateSearchEngine. rewrite (bool_decide_eq_true_2 _ (cv_search c Hc)). cbn [require result_bind].
  unfold validateDeviceFlow. destruct (c_DeviceFlowEnabled c) eqn:E; [|done]. cbn.
  pose proof (cv_device c Hc E) as Hf. repeat (apply Forall_cons in Hf as [-> Hf]). done.
Qed.

(** ** What is read *)

Lemma parseInt_setting env k d v : parseInt env k d = Ok v → if blank (env k) then v = d else Atoi (env k) = Some v.
Proof. unfold parseInt. destruct (blank _); [by intros [= <-]|]. destruct (Atoi _); [|done]. by intros [= <-]. Qed.

Lemma parseDuration_setting env k d v :
  parseDuration env k d = Ok v → if blank (env k) then v = d else ParseDuration (env k) = Some v.
Proof. unfold parseDuration. destruct (blank _); [by intros [= <-]|]. destruct (ParseDuration _); [|done]. by intros [= <-]. Qed.

Lemma parseBool_setting env k d v :
  parseBool env k d = Ok v → if blank (env k) then v = d else ParseBool (env k) = Some v.
Proof. unfold parseBool. destruct (blank _); [by intros [= <-]|]. destruct (ParseBool _); [|done]. by intros [= <-]. Qed.

Lemma loadIntegers_settings env mode ints dur bools id key orch :
  loadIntegers env = Ok ints →
  Forall (setting env Atoi (set_AdminMode mode (build env dur ints bools id key orch))) int_settings.
Proof.
  unfold loadIntegers. intros HL. succeed HL. injection HL as <-.
  repeat match goal with H : parseInt _ _ _ = Ok _ |- _ => apply parseInt_setting in H end.
  repeat (apply Forall_cons_2; [assumption|]). apply Forall_nil_2.
Qed.

Lemma loadDurations_settings env mode ints dur bools id key orch :
  loadDurations env = Ok dur →
  Forall (setting env ParseDuration (set_AdminMode mode (build env dur ints bools id key orch))) duration_settings.
Proof.
  unfold loadDurations. intros HL. succeed HL. injection HL as <-.
  repeat match goal with H : parseDuration _ _ _ = Ok _ |- _ => apply parseDuration_setting in H end.
  repeat (apply Forall_cons_2; [assumption|]). apply Forall_nil_2.
Qed.

Lemma loadBooleans_settings env mode ints dur bools id key orch :
  loadBooleans env = Ok bools →
  Forall (setting env ParseBool (set_AdminMode mode (build env dur ints bools id key orch))) bool_settings.
Proof.
  unfold loadBooleans. intros HL. succeed HL. injection HL as <-.
  repeat match goal with H : parseBool _ _ _ = Ok _ |- _ => apply parseBool_setting in H end.
  repeat (apply Forall_cons_2; [assumption|]). apply Forall_nil_2.
Qed.

Lemma loadAdminSessionKey_length env key : loadAdminSessionKey env = Ok key → length key = 32.
Proof.
  unfold loadAdminSessionKey. destruct (bool_decide _); [by intros [= <-]|].
  destruct (hex_decode _); [|done]. destruct (negb _) eqn:E; [done|]. intros [= <-].
  by apply negb_false_iff, Nat.eqb_eq in E.
Qed.

(** Takes a successful load apart. *)
Lemma load_parts env random c : Load env random = Ok c →
  ∃ mode dur ints bools id key providers,
    c = set_AdminMode mode (build env dur ints bools id key (mkOrchestrateConfig bools.(pb_orchestrateEnabled) providers)) ∧
    loadDurations env = Ok dur ∧ loadIntegers env = Ok ints ∧ loadBooleans env = Ok bools ∧
    resolveGatewayID env random = Ok id ∧ loadAdminSessionKey env = Ok key ∧ loadLLMProviders env = Ok providers ∧
    config_valid c.
Proof.
  unfold Load. intros HL. succeed HL. unfold loadOrchestrateConfig in E4. succeed E4. injection E4 as <-.
  pose proof (validate_valid _ _ HL). apply validate_set in HL as [mode ->]. by eexists mode, _, _, _, _, _, _.
Qed.

Lemma int_settings_range env c : Forall (setting env Atoi c) int_settings →
  Forall (λ p, int64_range (p.2 c)) int_settings.
Proof.
  assert (Hd : Forall (λ p, int64_range p.1.2) int_settings).
  { repeat (apply Forall_cons_2; [unfold int64_range, min_int64, max_int64; cbn; lia|]). apply Forall_nil_2. }
  rewrite !Forall_forall in *. intros Hs [[k d] get] Hp. specialize (Hs _ Hp). specialize (Hd _ Hp). cbn in *.
  destruct (blank _); [by rewrite Hs|]. by apply Atoi_range in Hs.
Qed.

(** C14: A configuration that loads satisfies [config_valid], which is exactly
    what the checks ask for: a database URL; a TLS certificate and key together;
    positive rate, burst, circuit threshold, retries, database connections,
    connection lifetime, audit retention and audit cleanup interval; a shutdown
    timeout from above zero to two minutes; and what one of the TLS, NATS, CORS,
    rate limit, admin, search and device flow settings requires of another. The
    checks accept every such configuration and leave it alone, so that they are
    neither weaker nor stronger; in particular they accept any heartbeat TTL,
    circuit timeout, admin session TTL, well-known cache TTL and embedding cache
    size. Also the session key has 32 bytes, every integer fits, and the limits
    the operator set are the ones of the default policy profile. *)
Theorem loaded_config_valid env random c :
  Load env random = Ok c →
  config_valid c ∧ length c.(c_AdminSessionKey) = 32 ∧
  Forall (λ p, int64_range (p.2 c)) int_settings ∧
  defaultPolicyProfile (Some (service_config c))
  = mkPolicyProfile "default" c.(c_RateDefault) c.(c_RateBurst) [] [] ModeEnforce ∧
  ∀ c', config_valid c' → ConfigValidate c' = Ok c'.
Proof.
  intros HL. destruct (load_parts _ _ _ HL) as (mode & dur & ints & bools & id & key & ps & -> & _ & Hi & _ & _ & Hk & _ & Hv).
  split_and!; [done|by eapply loadAdminSessionKey_length| | |apply valid_validate].
  - by eapply int_settings_range, loadIntegers_settings.
  - pose proof (cv_positive _ Hv) as Hp. apply Forall_cons in Hp as [H1 Hp]. apply Forall_cons in Hp as [H2 Hp].
    unfold defaultPolicyProfile, service_config. cbn [RateDefault ConfigRateBurst].
    rewrite (proj2 (Z.ltb_lt _ _) H1), (proj2 (Z.ltb_lt _ _) H2). done.
Qed.

(** Settings come from the environment: a number, duration or switch whose
    variable is blank has its default, and otherwise the value its variable
    spells; a variable that does not parse is never replaced by a default. The
    gateway's id is the one given or a fresh UUID, and entries of a list are
    trimmed and not empty. *)
Theorem settings_from_environment env random c :
  Load env random = Ok c →
  Forall (setting env Atoi c) int_settings ∧ Forall (setting env ParseDuration c) duration_settings ∧
  Forall (setting env ParseBool c) bool_settings ∧
  (c.(c_GatewayID) = getEnv env "MCPGW_GATEWAY_ID" "auto" ∧ c.(c_GatewayID) ≠ "auto" ∨
   getEnv env "MCPGW_GATEWAY_ID" "auto" = "auto" ∧
   ∃ b, random = Some b ∧ c.(c_GatewayID) = format_uuid (uuid_bytes b)) ∧
  ∀ s, s ∈ c.(c_SPIFFEAllowList) ++ c.(c_PlatformSPIFFEPrefixes) ++ c.(c_CORSAllowedOrigins) → trimmed s ∧ s ≠ "".
Proof.
  intros HL. destruct (load_parts _ _ _ HL) as (mode & dur & ints & bools & id & key & ps & -> & Hd & Hi & Hb & Hid & _ & _ & _).
  split_and!; [by apply loadIntegers_settings|by apply loadDurations_settings|by apply loadBooleans_settings| |].
  - change (c_GatewayID (set_AdminMode _ _)) with id. unfold resolveGatewayID in Hid.
    destruct (bool_decide _) eqn:E; cbn [negb] in Hid; reflect_bools.
    + right. split; [done|]. destruct random as [b|]; [|done]. injection Hid as <-. by exists b.
    + left. by injection Hid as <-.
  - intros s Hs. assert (∃ k, s ∈ parseCSV env k) as [k Hk].
    { rewrite !elem_of_app in Hs. destruct Hs as [Hs|[Hs|Hs]].
      - by exists "MCPGW_SPIFFE_ALLOW_PREFIX".
      - by exists "MCPGW_PLATFORM_SPIFFE_PREFIXES".
      - by exists "MCPGW_CORS_ALLOWED_ORIGINS". }
    unfold parseCSV in Hk. destruct (blank _); [by apply elem_of_nil in Hk|].
    apply list_elem_of_filter in Hk as [Hne (t & -> & _)%list_elem_of_fmap]. split; [apply TrimSpace_trimmed|done].
Qed.

(** ** The order of the providers *)

Definition priority_le (p q : LLMProviderConfig) : Prop := (p.(lp_Priority) <= q.(lp_Priority))%Z.

(** Insertion from the right, on the reversed list. *)
Fixpoint insert_rev (key : LLMProviderConfig) (l : list LLMProviderConfig) : list LLMProviderConfig :=
  match l with
  | [] => [key]
  | p :: l' => if (key.(lp_Priority) <? p.(lp_Priority))%Z then p :: insert_rev key l' else key :: p :: l'
  end.
Definition insert_right (key : LLMProviderConfig) (l : list LLMProviderConfig) : list LLMProviderConfig :=
  reverse (insert_rev key (reverse l)).

Lemma insert_right_snoc key l p : insert_right key (l ++ [p]) =
  if (key.(lp_Priority) <? p.(lp_Priority))%Z then insert_right key l ++ [p] else l ++ [p; key].
Proof.
  unfold insert_right. rewrite reverse_snoc. cbn [insert_rev]. destruct (_ <? _)%Z.
  - by rewrite reverse_cons.
  - rewrite !reverse_cons, reverse_involutive. by rewrite <- (assoc_L (++)).
Qed.

Lemma shift_down_insert key pre x post :
  shift_down (length pre) key (pre ++ x :: post) = insert_right key pre ++ post.
Proof.
  revert x post. induction pre as [|p pre IH] using rev_ind; intros x post; [done|].
  rewrite length_app, Nat.add_comm. cbn [length Nat.add shift_down]. rewrite <- (assoc_L (++)). cbn [app].
  rewrite list_lookup_middle by done. rewrite insert_right_snoc. destruct (_ <? _)%Z.
  - replace (S (length pre)) with (length pre + 1) by lia. rewrite insert_app_r. cbn [insert list_insert].
    rewrite IH, <- (assoc_L (++)). done.
  - replace (S (length pre)) with (length pre + 1) by lia. rewrite insert_app_r, <- (assoc_L (++)). done.
Qed.

Definition insertion_sort (l : list LLMProviderConfig) : list LLMProviderConfig :=
  foldl (λ acc x, insert_right x acc) [] l.

Lemma insert_right_length key l : length (insert_right key l) = S (length l).
Proof.
  unfold insert_right. rewrite length_reverse, <- (length_reverse l). generalize (reverse l). intros k.
  induction k as [|p k IH]; [done|]. cbn. destruct (_ <? _)%Z; cbn; [by rewrite IH|done].
Qed.

Lemma insertion_sort_length l : length (insertion_sort l) = length l.
Proof.
  induction l as [|x l IH] using rev_ind; [done|]. unfold insertion_sort in *. rewrite foldl_snoc.
  rewrite insert_right_length, IH, length_app. cbn. lia.
Qed.

(** The loop in place computes the insertion sort. *)
Lemma sortProviders_insertion l : sortProvidersByPriority l = insertion_sort l.
Proof.
  unfold sortProvidersByPriority. destruct l as [|x0 l0]; [done|]. set (l := x0 :: l0).
  cut (∀ k, S k <= length l →
    foldl (λ ps i, match ps !! i with Some key => shift_down i key ps | None => ps end) l (seq 1 k)
    = insertion_sort (take (S k) l) ++ drop (S k) l).
  { intros Hk. rewrite Hk by (subst l; cbn; lia). subst l. cbn [length]. rewrite Nat.sub_succ, Nat.sub_0_r.
    rewrite take_ge, drop_ge by (cbn; lia). apply app_nil_r. }
  induction k as [|k IH]; intros Hk; [done|]. rewrite seq_S, foldl_snoc, IH by lia.
  destruct (lookup_lt_is_Some_2 l (S k)) as [x Hx]; [lia|]. cbn [Nat.add].
  rewrite (take_S_r _ _ _ Hx), (drop_S _ _ _ Hx).
  assert (Hlen : length (insertion_sort (take (S k) l)) = S k) by (rewrite insertion_sort_length, length_take; lia).
  rewrite lookup_app_r, Hlen, Nat.sub_diag by lia. cbn [lookup list_lookup].
  rewrite <- Hlen at 1. rewrite shift_down_insert. unfold insertion_sort. by rewrite foldl_snoc.
Qed.

Lemma insert_right_perm key l : insert_right key l ≡ₚ key :: l.
Proof.
  induction l as [|p l IH] using rev_ind; [done|]. rewrite insert_right_snoc. destruct (_ <? _)%Z.
  - by rewrite IH.
  - rewrite Permutation_app_comm. cbn. rewrite (Permutation_app_comm l [p]). apply perm_swap.
Qed.

Lemma insert_right_sorted key l : StronglySorted priority_le l → StronglySorted priority_le (insert_right key l).
Proof.
  induction l as [|p l IH] using rev_ind; intros Hs; [repeat constructor|]. rewrite insert_right_snoc.
  apply StronglySorted_app in Hs as (Hall & Hs & _). destruct (_ <? _)%Z eqn:E; reflect_bools.
  - apply StronglySorted_app. split_and!; [|by apply IH|repeat constructor].
    intros x y Hx ->%list_elem_of_singleton. rewrite insert_right_perm in Hx.
    apply elem_of_cons in Hx as [->|Hx]; [unfold priority_le; lia|]. apply Hall; [done|set_solver].
  - apply StronglySorted_app. split_and!; [|done|].
    + intros x y Hx Hy. assert (priority_le x p) by (apply Hall; [done|set_solver]).
      apply elem_of_cons in Hy as [Hy|Hy%list_elem_of_singleton]; subst y; [done|unfold priority_le in *; lia].
    + repeat constructor. unfold priority_le. lia.
Qed.

Lemma insert_right_stable key l k :
  filter (λ p, p.(lp_Priority) = k) (insert_right key l)
  = filter (λ p, p.(lp_Priority) = k) l ++ filter (λ p, p.(lp_Priority) = k) [key].
Proof.
  induction l as [|p l IH] using rev_ind; [done|]. rewrite insert_right_snoc. destruct (_ <? _)%Z eqn:E; reflect_bools.
  - rewrite !filter_app, IH, <- !(assoc_L (++)). f_equal. rewrite !filter_cons, !filter_nil.
    destruct (decide (lp_Priority key = k)), (decide (lp_Priority p = k)); try done. lia.
  - rewrite !filter_app, <- !(assoc_L (++)). f_equal. rewrite !filter_cons, !filter_nil.
    by destruct (decide (lp_Priority p = k)).
Qed.

Lemma sortProviders_correct l :
  StronglySorted priority_le (sortProvidersByPriority l) ∧ sortProvidersByPriority l ≡ₚ l ∧
  ∀ k, filter (λ p, p.(lp_Priority) = k) (sortProvidersByPriority l) = filter (λ p, p.(lp_Priority) = k) l.
Proof.
  rewrite sortProviders_insertion. induction l as [|x l (IHs & IHp & IHf)] using rev_ind; [split_and!; [constructor|done|done]|].
  unfold insertion_sort in *. rewrite foldl_snoc. split_and!.
  - by apply insert_right_sorted.
  - by rewrite insert_right_perm, IHp, Permutation_app_comm.
  - intros k. by rewrite insert_right_stable, IHf, filter_app.
Qed.

(** The providers of the language model: those entries of MCPGW_LLM_PROVIDERS
    that have a name, a model and a key in the variable of their name, ordered by
    priority, and those of the same priority in the order they are written. A
    text that does not decode is an error. *)
Theorem providers_correct env random c :
  Load env random = Ok c →
  let providers := c.(c_Orchestrate).(oc_Providers) in
  let raw := TrimSpace (env "MCPGW_LLM_PROVIDERS") in
  (raw = "" ∧ providers = [] ∨
   ∃ entries, decode_entries raw = Some entries ∧
     let usable := omap (provider_of env) entries in
     StronglySorted priority_le providers ∧ providers ≡ₚ usable ∧
     ∀ k, filter (λ p, p.(lp_Priority) = k) providers = filter (λ p, p.(lp_Priority) = k) usable) ∧
  ∀ p, p ∈ providers → p.(lp_Name) ≠ "" ∧ p.(lp_Model) ≠ "" ∧
    p.(lp_APIKey) = TrimSpace (env (key_variable p.(lp_Name))) ∧ p.(lp_APIKey) ≠ "".
Proof.
  intros HL. destruct (load_parts _ _ _ HL) as (mode & dur & ints & bools & id & key & ps & -> & _ & _ & _ & _ & _ & Hp & _).
  change (oc_Providers (c_Orchestrate _)) with ps. cbv zeta. unfold loadLLMProviders in Hp.
  destruct (bool_decide _) eqn:E; reflect_bools.
  { injection Hp as <-. split; [by left|]. intros p []%elem_of_nil. }
  destruct (decode_entries _) as [entries|]; [|done]. injection Hp as <-.
  destruct (sortProviders_correct (omap (provider_of env) entries)) as (Hs & Hperm & Hf).
  split; [right; by exists entries|]. intros p Hp. rewrite Hperm in Hp.
  apply list_elem_of_omap in Hp as (e & _ & Hp). revert Hp.
  unfold provider_of, blank. destruct (bool_decide _ || bool_decide _) eqn:E1; [done|].
  destruct (bool_decide (TrimSpace (env _) = "")) eqn:E2; [done|]. intros [= <-]. reflect_bools. done.
Qed.

End props.

(** ** An environment *)

Definition example_env (key : string) : string :=
  default "" (snd <$> List.find (λ p, bool_decide (p.1 = key))
    [("MCPGW_DB_URL", "postgres://db/mcpgw"); ("MCPGW_RATE_DEFAULT", "7"); ("MCPGW_SHUTDOWN_TIMEOUT", "1m30s");
     ("MCPGW_CORS_ENABLED", "true"); ("MCPGW_CORS_ALLOWED_ORIGINS", " https://a.example , ,https://b.example");
     ("MCPGW_LLM_PROVIDERS", of_bytes (json_print (AArr
       [AObj [("name", AStr "b"); ("model", AStr "m1"); ("priority", ANum "2")];
        AObj [("name", AStr "a"); ("model", AStr "m2"); ("priority", ANum "1")];
        AObj [("name", AStr "nokey"); ("model", AStr "m3")];
        AObj [("name", AStr "c"); ("model", AStr "m4"); ("priority", ANum "1")]])));
     ("MCPGW_LLM_A_API_KEY", "ka"); ("MCPGW_LLM_B_API_KEY", "kb"); ("MCPGW_LLM_C_API_KEY", "kc")]).

#[local] Existing Instance ascii_tables.

Definition example_config : result Config := Load example_env (Some (replicate 16 "x"%char)).

Lemma example_config_Ok : is_ok example_config = true.
Proof. by vm_compute. Qed.

(** The example, as a configuration. *)
Definition example_loaded : Config :=
  match example_config with
  | Ok c => c
  | Err _ => build example_env (mkParsedDurations 0 0 0 0 0 0 0) (mkParsedIntegers 0 0 0 0 0 0 0 0)
      (mkParsedBooleans false false false false false false false false false false false false false)
      "" [] (mkOrchestrateConfig false [])
  end.

Lemma example_loads : Load example_env (Some (replicate 16 "x"%char)) = Ok example_loaded.
Proof.
  pose proof example_config_Ok as Hok. unfold example_loaded, example_config in *.
  destruct (Load example_env _) as [e|c]; done.
Qed.

Lemma loaded_config_valid_witness :
  config_valid example_loaded ∧ example_loaded.(c_RateDefault) = 7%Z ∧
  example_loaded.(c_ShutdownTimeout) = (90 * second)%Z.
Proof.
  destruct (loaded_config_valid example_env _ _ example_loads) as [Hv _].
  split; [exact Hv|]. split; by vm_compute.
Defined.

Lemma settings_from_environment_witness :
  example_loaded.(c_CORSAllowedOrigins) = ["https://a.example"; "https://b.example"] ∧
  ∀ s, s ∈ example_loaded.(c_CORSAllowedOrigins) → s ≠ "".
Proof.
  destruct (settings_from_environment example_env _ _ example_loads) as (_ & _ & _ & _ & Hs).
  split; [by vm_compute|]. intros s Hin. apply Hs. rewrite !elem_of_app. by right; right.
Defined.

Lemma providers_correct_witness :
  lp_Name <$> example_loaded.(c_Orchestrate).(oc_Providers) = ["a"; "c"; "b"] ∧
  StronglySorted priority_le example_loaded.(c_Orchestrate).(oc_Providers).
Proof.
  split; [by vm_compute|].
  destruct (providers_correct example_env _ _ example_loads) as [[[Hraw _]|(es & _ & Hs & _)] _]; [|exact Hs].
  exfalso. revert Hraw. by vm_compute.
Defined.
