(* ===== verification/AdminStore.v ===== *)
(** * Tables and queries of the administration

    The audit log with its queries and its retention, the tables of synonyms and
    of reindex runs, and the searches over servers, tools and users:
    [internal/store/audit_store.go], [retention.go], [synonym_store.go],
    [reindex_log_store.go] and the list queries of the other stores. The search
    patterns are those of SQL's [ILIKE]; case mapping, the text of a JSON column
    and the collation belong to PostgreSQL and are parameters. *)

From S2P Require Import Prelude GoStrings Encoding GoNet Types Store AccessStore Json RegHandlers.

#[local] Open Scope string_scope.
#[local] Open Scope list_scope.
#[local] Open Scope nat_scope.
#[local] Open Scope go_scope.

(** ** Patterns *)

Definition percent : ascii := "%".
Definition underscore : ascii := "_".
Definition backslash : ascii := "\".

(** [strings.ReplaceAll] of one byte. *)
Definition replace_byte (c : ascii) (new : bytes) (l : bytes) : bytes :=
  mjoin ((λ a, if bool_decide (a = c) then new else [a]) <$> l).

(** [escapeILikePattern]. *)
Definition escapeILikePattern (s : string) : string :=
  let l := replace_byte backslash [backslash; backslash] (to_bytes s) in
  let l := replace_byte percent [backslash; percent] l in
  of_bytes (replace_byte underscore [backslash; underscore] l).

(** [s LIKE p]: [%] stands for any text, [_] for one character, and a backslash
    takes the next byte as it is; a backslash at the end of the pattern is an
    error when the match gets there. *)
Fixpoint like (p s : bytes) : option bool :=
  match p with
  | [] => Some (bool_decide (s = []))
  | a :: p' =>
      if bool_decide (a = percent) then
        (fix any (s : bytes) : option bool :=
           match like p' s, s with
           | Some false, _ :: s' => any s'
           | r, _ => r
           end) s
      else
        match s with
        | [] => Some false
        | b :: s' =>
            if bool_decide (a = underscore) then like p' (drop (DecodeRune s).2 s)
            else if bool_decide (a = backslash) then
              match p' with
              | [] => None
              | c :: p'' => if bool_decide (c = b) then like p'' s' else Some false
              end
            else if bool_decide (a = b) then like p' s' else Some false
        end
  end.

(** What of PostgreSQL the statements do not determine: lower case, the text of a
    JSON value, and the order of texts. *)
Class PgText := {
  pg_lower : bytes → bytes;
  jsonb_text : list (string * document) → string;
  collation : relation string;
  collation_dec : RelDecision collation;
}.
#[export] Existing Instance collation_dec.

(** Lower case is taken letter by letter and leaves the signs of patterns alone;
    texts are ordered totally. *)
Class PgTextLaws (P : PgText) : Prop := {
  pg_lower_around l : pg_lower (percent :: l ++ [percent]) = percent :: pg_lower l ++ [percent];
  pg_lower_escape s :
    pg_lower (to_bytes (escapeILikePattern s)) = to_bytes (escapeILikePattern (of_bytes (pg_lower (to_bytes s))));
  collation_total : Total collation;
  collation_trans : Transitive collation;
}.

(** ** The tables *)

Record AuditRow := mkAuditRow {
  al_ID : string;
  al_EventType : string;
  al_ClientID : string;
  al_Username : string;
  al_ServerName : string;
  al_Details : list (string * document);
  al_CreatedAt : Z;
}.

Record AuditFilter := mkAuditFilter {
  af_EventType : string;
  af_ClientID : string;
  af_Username : string;
  af_ServerName : string;
  af_DetailsSearch : string;
  af_SortBy : string;
  af_SortDir : string;
  af_Since : option Z;
  af_Until : option Z;
  af_Limit : Z;
  af_Offset : Z;
}.

Record SynonymEntry := mkSynonymEntry {
  sy_Term : string;
  sy_Synonyms : list string;
  sy_CreatedAt : Z;
  sy_UpdatedAt : Z;
}.

Record ReindexLogEntry := mkReindexLogEntry {
  ri_ID : Z;
  ri_Engine : string;
  ri_Trigger : string;
  ri_ToolsCount : Z;
  ri_DurationMs : Z;
  ri_Status : string;
  ri_Error : string;
  ri_CreatedAt : Z;
}.

Record AdminDB := mkAdminDB {
  ad_now : Z;
  ad_audit : list AuditRow;
  ad_synonyms : gmap string SynonymEntry;
  ad_reindex : list ReindexLogEntry;
  ad_faults : list bool;
  ad_next : nat;
}.

Definition set_ad_audit (l : list AuditRow) (db : AdminDB) : AdminDB :=
  mkAdminDB db.(ad_now) l db.(ad_synonyms) db.(ad_reindex) db.(ad_faults) db.(ad_next).
Definition set_ad_synonyms (m : gmap string SynonymEntry) (db : AdminDB) : AdminDB :=
  mkAdminDB db.(ad_now) db.(ad_audit) m db.(ad_reindex) db.(ad_faults) db.(ad_next).
Definition set_ad_reindex (l : list ReindexLogEntry) (db : AdminDB) : AdminDB :=
  mkAdminDB db.(ad_now) db.(ad_audit) db.(ad_synonyms) l db.(ad_faults) db.(ad_next).
Definition set_ad_faults (f : list bool) (db : AdminDB) : AdminDB :=
  mkAdminDB db.(ad_now) db.(ad_audit) db.(ad_synonyms) db.(ad_reindex) f db.(ad_next).
Definition set_ad_next (n : nat) (db : AdminDB) : AdminDB :=
  mkAdminDB db.(ad_now) db.(ad_audit) db.(ad_synonyms) db.(ad_reindex) db.(ad_faults) n.

(** One statement. *)
Definition ad_exec {A} (f : ST AdminDB A) : ST AdminDB A := λ db,
  match db.(ad_faults) with
  | true :: fs => (Err (Opaque "connection failed"), set_ad_faults fs db)
  | false :: fs => f (set_ad_faults fs db)
  | [] => f db
  end.

Definition ad_context {A} (ctx : string) (m : ST AdminDB A) : ST AdminDB A := λ db,
  match m db with
  | (Err e, db') => (Err (Wrap ctx e), db')
  | r => r
  end.

(** [LIMIT] and [OFFSET]; the bounds are cut to the number of rows, which changes
    nothing ([window_spec]) and keeps the definition executable. *)
Definition window {A} (limit offset : Z) (l : list A) : list A :=
  let n := Z.of_nat (length l) in take (Z.to_nat (Z.min limit n)) (drop (Z.to_nat (Z.min offset n)) l).

Lemma window_spec {A} (limit offset : Z) (l : list A) :
  window limit offset l = take (Z.to_nat limit) (drop (Z.to_nat offset) l).
Proof.
  unfold window. cbv zeta. set (n := length l).
  assert (drop (Z.to_nat (Z.min offset (Z.of_nat n))) l = drop (Z.to_nat offset) l) as ->.
  { destruct (Z.le_gt_cases offset (Z.of_nat n)); [by rewrite Z.min_l|].
    rewrite Z.min_r, !drop_ge by (unfold n in *; lia). done. }
  destruct (Z.le_gt_cases limit (Z.of_nat n)); [by rewrite Z.min_l|].
  rewrite Z.min_r by lia. rewrite !take_ge by (rewrite length_drop; unfold n in *; lia). done.
Qed.

(** [LIMIT] and [OFFSET] of the list queries: none when not positive. *)
Definition row_limit (limit : Z) : Z := if (0 <? limit)%Z then limit else max_int64.
Definition row_offset (offset : Z) : Z := if (0 <? offset)%Z then offset else 0%Z.

Section stores.
Context `{UnicodeTables} `{Postgres} `{PgText}.

(** [s ILIKE p]. *)
Definition ilike (p : bytes) (s : string) : option bool := like (pg_lower p) (pg_lower (to_bytes s)).

(** [s ILIKE '%' || p || '%']; the patterns are escaped, so that there is no
    error. *)
Definition ilike_around (p s : string) : bool := default false (ilike (percent :: to_bytes p ++ [percent]) s).

(** Texts in the order of the collation. *)
Definition by_text {A} (f : A → string) (a b : A) : Prop := collation (f a) (f b).
#[export] Instance by_text_dec {A} (f : A → string) : RelDecision (by_text f).
Proof. unfold by_text. intros a b. apply collation_dec. Defined.

(** ** The audit log *)

Definition optionalILikeString (value : string) : option string :=
  let trimmed := TrimSpace value in if bool_decide (trimmed = "") then None else Some (escapeILikePattern trimmed).

Definition optionalString (value : string) : option string :=
  let trimmed := TrimSpace value in if bool_decide (trimmed = "") then None else Some trimmed.

Definition normalizeAuditUsername (clientID : string) : string :=
  let id := TrimSpace clientID in
  if bool_decide (id = "") then "system"
  else
    let lower := ToLower id in
    if HasPrefix lower "spiffe://" || HasPrefix lower "server:" then "system" else id.

(** [NormalizeAuditSortBy], [NormalizeAuditSortDir]. *)
Definition NormalizeAuditSortBy (sortBy : string) : string :=
  let s := ToLower (TrimSpace sortBy) in
  if bool_decide (s = "event_type") then "event_type"
  else if bool_decide (s = "username") then "username"
  else if bool_decide (s = "server_name") then "server_name"
  else "created_at".

Definition NormalizeAuditSortDir (sortDir : string) : string :=
  if bool_decide (ToLower (TrimSpace sortDir) = "asc") then "asc" else "desc".

(** An entry as it is logged. *)
Record LoggedEntry := mkLoggedEntry {
  le_EventType : string;
  le_ClientID : string;
  le_Username : string;
  le_ServerName : string;
  le_Details : list (string * document);
}.

(** [Log]. *)
Definition AuditLog (e : LoggedEntry) : ST AdminDB () :=
  let username := TrimSpace e.(le_Username) in
  let username := if bool_decide (username = "") then normalizeAuditUsername e.(le_ClientID) else username in
  ad_context "audit store" (ad_exec (λ db,
    let row := mkAuditRow (gen_random_uuid db.(ad_next)) e.(le_EventType) e.(le_ClientID) username
                 e.(le_ServerName) e.(le_Details) db.(ad_now) in
    (Ok (), set_ad_next (S db.(ad_next)) (set_ad_audit (db.(ad_audit) ++ [row]) db)))).

(** A condition that is left out when its parameter is null. *)
Definition when {A} (o : option A) (f : A → bool) : bool := match o with Some x => f x | None => true end.

(** [auditWhereClause] with [auditFilterArgs]. *)
Definition audit_where (f : AuditFilter) (r : AuditRow) : bool :=
  when (optionalString f.(af_EventType)) (λ x, bool_decide (r.(al_EventType) = x)) &&
  when (optionalString f.(af_ClientID)) (λ x, bool_decide (r.(al_ClientID) = x)) &&
  when (optionalILikeString f.(af_ServerName)) (λ x, ilike_around x r.(al_ServerName)) &&
  when f.(af_Since) (λ t, (t <=? r.(al_CreatedAt))%Z) &&
  when f.(af_Until) (λ t, (r.(al_CreatedAt) <=? t)%Z) &&
  when (optionalILikeString f.(af_DetailsSearch)) (λ x, ilike_around x (jsonb_text r.(al_Details))) &&
  when (optionalILikeString f.(af_Username)) (λ x, ilike_around x r.(al_Username)).

(** [ORDER BY] a column. *)
Definition column_le (column : string) (r s : AuditRow) : Prop :=
  if bool_decide (column = "event_type") then collation r.(al_EventType) s.(al_EventType)
  else if bool_decide (column = "username") then collation r.(al_Username) s.(al_Username)
  else if bool_decide (column = "server_name") then collation r.(al_ServerName) s.(al_ServerName)
  else (r.(al_CreatedAt) <= s.(al_CreatedAt))%Z.
#[export] Instance column_le_dec column : RelDecision (column_le column).
Proof. unfold column_le. intros r s. repeat case_match; apply _. Defined.

Definition order_by (column dir : string) (r s : AuditRow) : Prop :=
  if bool_decide (dir = "asc") then column_le column r s else column_le column s r.
#[export] Instance order_by_dec column dir : RelDecision (order_by column dir).
Proof. unfold order_by. intros r s. case_match; apply column_le_dec. Defined.

(** All the rows of a query, in order. *)
Definition audit_rows (f : AuditFilter) (db : AdminDB) : list AuditRow :=
  merge_sort (order_by (NormalizeAuditSortBy f.(af_SortBy)) (NormalizeAuditSortDir f.(af_SortDir)))
    (List.filter (audit_where f) db.(ad_audit)).

(** [Query]. *)
Definition AuditQuery (f : AuditFilter) : ST AdminDB (list AuditRow) :=
  ad_context "audit store" (ad_exec (λ db,
    (Ok (window (row_limit f.(af_Limit)) (row_offset f.(af_Offset)) (audit_rows f db)), db))).

(** [Count]. *)
Definition AuditCount (f : AuditFilter) : ST AdminDB nat :=
  ad_context "audit store" (ad_exec (λ db, (Ok (length (List.filter (audit_where f) db.(ad_audit))), db))).

(** [cleanupAuditLog]; [make_interval(days => n)] is [n] days of 24 hours, which
    they are in UTC. *)
Definition cleanupAuditLog (retentionDays : Z) : ST AdminDB nat :=
  ad_exec (λ db,
    let kept := List.filter (λ r, negb (r.(al_CreatedAt) <? db.(ad_now) - retentionDays * (1440 * minute))%Z) db.(ad_audit) in
    (Ok (length db.(ad_audit) - length kept), set_ad_audit kept db)).

(** [StartAuditRetention]: whether it runs at all, and one round of its loop. *)
Definition retention_runs (retentionDays interval : Z) : bool :=
  negb ((retentionDays <=? 0)%Z || (interval <=? 0)%Z).
Definition retention_tick (retentionDays : Z) (db : AdminDB) : AdminDB := (cleanupAuditLog retentionDays db).2.

(** ** Synonyms and reindex runs *)

Definition SynonymList : ST AdminDB (list SynonymEntry) :=
  ad_context "synonym store: list" (ad_exec (λ db,
    (Ok (merge_sort (by_text sy_Term) (map_to_list db.(ad_synonyms)).*2), db))).

Definition SynonymUpsert (term : string) (synonyms : list string) : ST AdminDB () :=
  ad_context "synonym store: upsert" (ad_exec (λ db,
    let created := match db.(ad_synonyms) !! term with Some e => e.(sy_CreatedAt) | None => db.(ad_now) end in
    (Ok (), set_ad_synonyms (<[term := mkSynonymEntry term synonyms created db.(ad_now)]> db.(ad_synonyms)) db))).

Definition SynonymDelete (term : string) : ST AdminDB () :=
  ad_context "synonym store: delete" (ad_exec (λ db,
    (Ok (), set_ad_synonyms (delete term db.(ad_synonyms)) db))).

(** [Log] of the reindex runs; the id is the next of its sequence. *)
Definition ReindexLog (e : ReindexLogEntry) : ST AdminDB () :=
  ad_context "reindex log store: log" (ad_exec (λ db,
    let row := mkReindexLogEntry (Z.of_nat (S (length db.(ad_reindex)))) e.(ri_Engine) e.(ri_Trigger)
                 e.(ri_ToolsCount) e.(ri_DurationMs) e.(ri_Status) e.(ri_Error) db.(ad_now) in
    (Ok (), set_ad_reindex (db.(ad_reindex) ++ [row]) db))).

Definition newer (a b : ReindexLogEntry) : Prop := (b.(ri_CreatedAt) <= a.(ri_CreatedAt))%Z.
#[export] Instance newer_dec : RelDecision newer.
Proof. unfold newer. intros a b. apply _. Defined.

Definition ReindexRecent (limit : Z) : ST AdminDB (list ReindexLogEntry) :=
  let limit := if (limit <=? 0)%Z then 20%Z else limit in
  ad_context "reindex log store: recent" (ad_exec (λ db,
    (Ok (window limit 0 (merge_sort newer db.(ad_reindex))), db))).

(** ** Searches over the other tables *)

Definition created_desc (a b : ServerRecord) : Prop := (b.(CreatedAt) <= a.(CreatedAt))%Z.
#[export] Instance created_desc_dec : RelDecision created_desc.
Proof. unfold created_desc. intros a b. apply _. Defined.

(** [PostgresServerStore.List]; the name is a pattern of the caller's, and a row
    whose match is an error makes the statement fail. *)
Definition server_where (f : ServerFilter) (r : ServerRecord) : option bool :=
  if when f.(sf_Status) (λ s, bool_decide (r.(Status) = s)) then
    if bool_decide (TrimSpace f.(sf_NamePattern) = "") then Some true else ilike (to_bytes f.(sf_NamePattern)) r.(Name)
  else Some false.

Definition server_rows (f : ServerFilter) (db : DB) : list ServerRecord :=
  merge_sort created_desc
    (List.filter (λ r, bool_decide (server_where f r = Some true)) (map_to_list db.(db_servers)).*2).

Definition ServerList (f : ServerFilter) : ST DB (list ServerRecord) :=
  wrap_error "server store" (statement (λ db,
    if existsb (λ r, bool_decide (server_where f r = None)) (map_to_list db.(db_servers)).*2
    then (Err (Opaque "LIKE pattern must not end with escape character"), db)
    else (Ok (window (row_limit f.(sf_Limit)) (row_offset f.(sf_Offset)) (server_rows f db)), db))).

Record ToolFilter := mkToolFilter { tf_Query : string; tf_RiskLevel : option RiskLevel; tf_Limit : Z; tf_Offset : Z }.

Definition tool_where (f : ToolFilter) (c : ToolClassification) : bool :=
  let q := TrimSpace f.(tf_Query) in
  when (if bool_decide (q = "") then None else Some (escapeILikePattern q)) (λ p, ilike_around p c.(tc_ToolName)) &&
  when f.(tf_RiskLevel) (λ r, bool_decide (c.(tc_RiskLevel) = r)).

Definition tool_rows (f : ToolFilter) (db : DB) : list ToolClassification :=
  merge_sort (by_text tc_ToolName)
    (List.filter (tool_where f) (map_to_list db.(db_classifications)).*2).

(** The limit of the searches that page. *)
Definition page_limit (limit : Z) : Z := if (limit <=? 0)%Z then 50%Z else limit.

(** [PostgresToolClassificationStore.Search]: two statements. *)
Definition ClassificationSearch (f : ToolFilter) : ST DB (list ToolClassification * nat) :=
  let* total := wrap_error "tool classification store: search count" (statement (λ db,
    (Ok (length (List.filter (tool_where f) (map_to_list db.(db_classifications)).*2)), db))) in
  wrap_error "tool classification store: search" (statement (λ db,
    (Ok (window (page_limit f.(tf_Limit)) (Z.max f.(tf_Offset) 0) (tool_rows f db), total), db))).

Definition ClassificationGetAll : ST DB (list ToolClassification) :=
  wrap_error "tool classification store: get all" (statement (λ db,
    (Ok (merge_sort (by_text tc_ToolName) (map_to_list db.(db_classifications)).*2), db))).

Record UserFilter := mkUserFilter { uf_Query : string; uf_Role : option UserRole; uf_Limit : Z; uf_Offset : Z }.

Definition user_where (f : UserFilter) (u : User) : bool :=
  let q := TrimSpace f.(uf_Query) in
  when (if bool_decide (q = "") then None else Some (escapeILikePattern q))
    (λ p, ilike_around p u.(u_Email) || ilike_around p u.(u_DisplayName)) &&
  when f.(uf_Role) (λ r, bool_decide (u.(u_Role) = r)).

Definition user_rows (f : UserFilter) (db : AccessDB) : list User :=
  merge_sort (by_text u_Email) (List.filter (user_where f) (map_to_list db.(ac_users)).*2).

(** [PostgresUserStore.Search]. *)
Definition UserSearch (f : UserFilter) : ST AccessDB (list User * nat) :=
  let* total := in_context "user store: search count" (exec (λ db,
    (Ok (length (List.filter (user_where f) (map_to_list db.(ac_users)).*2)), db))) in
  in_context "user store: search" (exec (λ db,
    (Ok (window (page_limit f.(uf_Limit)) (Z.max f.(uf_Offset) 0) (user_rows f db), total), db))).

End stores.
