(* ===== verification/AdminAuth.v ===== *)
(** * Access to the administration: [internal/admin/auth.go], [middleware.go],
    [integrated_auth.go], [integrated_rbac.go]

    The dashboard is entered through an OpenID Connect login that ends in a
    sealed cookie; the API of the integrated mode through headers the platform
    sets, with a token of the platform and a role. The cipher, the token endpoint
    and the verifier of ID tokens are parameters. *)

From S2P Require Import Prelude GoStrings Encoding GoNet GoFloat Json GoParse Document JsonText Codec.
From S2P Require Import Types Auth Config.

#[local] Open Scope string_scope.
#[local] Open Scope list_scope.
#[local] Open Scope nat_scope.
#[local] Open Scope go_scope.

(** ** Parameters *)

(** [cipher.AEAD] with its key, without additional data. *)
Class AEAD := {
  NonceSize : nat;
  Seal : bytes → bytes → bytes;
  Open : bytes → bytes → option bytes;
}.

(** What it promises: what is sealed opens, and nothing else does. *)
Class AEADLaws (A : AEAD) : Prop := {
  open_seal nonce plaintext : Open nonce (Seal nonce plaintext) = Some plaintext;
  seal_open nonce c plaintext : Open nonce c = Some plaintext → c = Seal nonce plaintext;
}.

(** [oauth2.Config.Exchange] of a code with the verifier of the challenge, and
    the [id_token] of its answer. *)
Class TokenEndpoint := Exchange : string → string → result (option string).

(** ** Sessions *)

Record AdminSession := mkAdminSession {
  as_Subject : string;
  as_Email : string;
  as_Scopes : list string;
  as_CSRFToken : string;
  as_ExpiresAt : Z;
}.

Definition zero_session : AdminSession := mkAdminSession "" "" [] "" zero_time.

(** The zone of the host's clock is a whole number of minutes from UTC; times are
    written with it. *)
Definition session_document (zone : Z) (s : AdminSession) : document :=
  AObj [("sub", AStr s.(as_Subject)); ("email", AStr s.(as_Email));
        ("scopes", match s.(as_Scopes) with [] => ANil | l => AArr (AStr <$> l) end);
        ("csrf_token", AStr s.(as_CSRFToken)); ("expires_at", AStr (FormatRFC3339 true zone s.(as_ExpiresAt)))].

Section auth.
Context `{UnicodeTables}.

Definition session_fields : list (string * decoder_of string AdminSession) :=
  [("sub", field as_Subject (λ x s, mkAdminSession x s.(as_Email) s.(as_Scopes) s.(as_CSRFToken) s.(as_ExpiresAt)) d_string);
   ("email", field as_Email (λ x s, mkAdminSession s.(as_Subject) x s.(as_Scopes) s.(as_CSRFToken) s.(as_ExpiresAt)) d_string);
   ("scopes", field as_Scopes (λ x s, mkAdminSession s.(as_Subject) s.(as_Email) x s.(as_CSRFToken) s.(as_ExpiresAt)) (d_slice d_string ""));
   ("csrf_token", field as_CSRFToken (λ x s, mkAdminSession s.(as_Subject) s.(as_Email) s.(as_Scopes) x s.(as_ExpiresAt)) d_string);
   ("expires_at", field as_ExpiresAt (λ x s, mkAdminSession s.(as_Subject) s.(as_Email) s.(as_Scopes) s.(as_CSRFToken) x) d_time)].

Definition session_of_text (text : bytes) : option AdminSession :=
  v ← json_parse (of_bytes text); unmarshal (d_struct session_fields) v zero_session.

(** The payload of the state. *)
Definition state_document (verifier : string) : document := AObj [("verifier", AStr verifier)].
Definition verifier_of_text (text : bytes) : option string :=
  v ← json_parse (of_bytes text); unmarshal (d_struct [("verifier", d_string)]) v "".

(** ** [AdminAuth] *)

Record AdminAuth := mkAdminAuth {
  aa_RequiredScope : string;
  aa_RedirectURL : string;
  aa_sessionTTL : Z;
}.

(** The configuration part of [NewAdminAuth]: the callback and the time a session
    lasts; the provider and the cipher are parameters. *)
Definition NewAdminAuth (cfg : Config) : AdminAuth :=
  let slash : ascii := "/"%char in
  let callbackURL := TrimRightByte cfg.(c_AdminExternalURL) slash +:+ "/admin/callback" in
  let callbackURL :=
    if bool_decide (callbackURL = "/admin/callback") then
      if HasPrefix cfg.(c_ListenAddr) ":" then "/admin/callback"
      else TrimRightByte cfg.(c_ListenAddr) slash +:+ "/admin/callback"
    else callbackURL in
  let ttl := if (cfg.(c_AdminSessionTTL) <=? 0)%Z then (480 * minute)%Z else cfg.(c_AdminSessionTTL) in
  mkAdminAuth cfg.(c_AdminRequiredScope) callbackURL ttl.

Context `{AEAD} `{TokenEndpoint} `{OIDCVerifier}.
Context (zone : Z) (a : AdminAuth).

(** A cookie the handlers set: always with [Path=/admin/], [HttpOnly], [Secure]
    and [SameSite=Strict]. *)
Record Cookie := mkCookie { ck_Name : string; ck_Value : string; ck_MaxAge : Z }.

Definition stateCookieName : string := "__mcpgw_state".
Definition sessionCookieName : string := "__mcpgw_admin".

(** What a handler answers. *)
Record AuthReply := mkAuthReply {
  ar_Status : Z;
  ar_Message : string;
  ar_Location : string;
  ar_Cookies : list Cookie;
}.
Definition refuse (status : Z) (message : string) (cookies : list Cookie) : AuthReply :=
  mkAuthReply status message "" cookies.

(** The tail of [encryptSession] and [generateState]. *)
Definition sealed (nonce plaintext : bytes) : string := base64_text (nonce ++ Seal nonce plaintext).

(** [encryptSession], [generateState]; [nonce] is what the reader delivers. *)
Definition encryptSession (nonce : option bytes) (s : AdminSession) : option string :=
  n ← nonce; Some (sealed n (json_print (session_document zone s))).
Definition generateState (nonce : option bytes) (verifier : string) : option string :=
  n ← nonce; Some (sealed n (json_print (state_document verifier))).

(** The opening of a sealed value. *)
Definition unseal (value : string) : option bytes :=
  data ← base64_bytes value;
  if length data <? NonceSize then None
  else Open (take NonceSize data) (drop NonceSize data).

(** [DecryptSession] at time [now]. *)
Definition DecryptSession (now : Z) (cookieValue : string) : option AdminSession :=
  plaintext ← unseal cookieValue;
  session ← session_of_text plaintext;
  if (session.(as_ExpiresAt) <? now)%Z then None else Some session.

(** [extractVerifierFromState]. *)
Definition extractVerifierFromState (state : string) : option string :=
  plaintext ← unseal state; verifier_of_text plaintext.

(** [generatePKCEVerifier], [generateRandomBase64], [pkceS256Challenge]. *)
Definition random_base64 (random : option bytes) : option string :=
  b ← random; Some (of_bytes (base64url b)).
Definition pkceS256Challenge (verifier : string) : string :=
  of_bytes (base64url (Sum256 (to_bytes verifier))).

(** [HandleLogin]; the address it redirects to carries the state and the
    challenge. *)
Record LoginReply := mkLoginReply { lr_Reply : AuthReply; lr_State : string; lr_Challenge : string }.

Definition HandleLogin (verifier_random nonce : option bytes) : AuthReply + LoginReply :=
  match random_base64 verifier_random with
  | None => inl (refuse 500 "internal error" [])
  | Some verifier =>
      let challenge := pkceS256Challenge verifier in
      match generateState nonce verifier with
      | None => inl (refuse 500 "internal error" [])
      | Some state =>
          inr (mkLoginReply (mkAuthReply 302 "" "" [mkCookie stateCookieName state 600]) state challenge)
      end
  end.

(** [hasScope]. *)
Definition hasScope (scopes : list string) (required : string) : bool := bool_decide (required ∈ scopes).

(** The request of the callback: its cookie and its query. *)
Record CallbackRequest := mkCallbackRequest {
  cb_StateCookie : option string;
  cb_State : string;
  cb_Code : string;
}.

(** The session of a login at time [now]. *)
Definition new_session (now : Z) (claims : oidcClaims) (csrf : string) : AdminSession :=
  mkAdminSession claims.(cl_Subject) claims.(cl_Email) (mergeScopes claims.(cl_Groups) claims.(cl_Scope))
    csrf (now + a.(aa_sessionTTL)).

(** [HandleCallback]. *)
Definition HandleCallback (now : Z) (csrf_random nonce : option bytes) (r : CallbackRequest) : AuthReply :=
  match r.(cb_StateCookie) with
  | None => refuse 400 "missing state cookie" []
  | Some cookie =>
      if negb (bool_decide (r.(cb_State) = cookie)) then refuse 400 "state mismatch" []
      else
        match extractVerifierFromState cookie with
        | None => refuse 400 "invalid state" []
        | Some verifier =>
            let cleared := [mkCookie stateCookieName "" (-1)] in
            if bool_decide (TrimSpace r.(cb_Code) = "") then refuse 400 "missing authorization code" cleared
            else
              match Exchange r.(cb_Code) verifier with
              | Err _ => refuse 500 "token exchange failed" cleared
              | Ok None => refuse 500 "missing id_token in response" cleared
              | Ok (Some rawIDToken) =>
                  match Verify rawIDToken with
                  | Err _ => refuse 401 "id_token verification failed" cleared
                  | Ok (_, Err _) => refuse 500 "parse claims failed" cleared
                  | Ok (_, Ok claims) =>
                      let scopes := mergeScopes claims.(cl_Groups) claims.(cl_Scope) in
                      if negb (hasScope scopes a.(aa_RequiredScope)) then
                        refuse 403 ("insufficient permissions: missing " +:+ a.(aa_RequiredScope) +:+ " scope") cleared
                      else
                        match random_base64 csrf_random with
                        | None => refuse 500 "internal error" cleared
                        | Some csrfToken =>
                            match encryptSession nonce (new_session now claims csrfToken) with
                            | None => refuse 500 "internal error" cleared
                            | Some encrypted =>
                                mkAuthReply 302 "" "/admin/"
                                  (cleared ++ [mkCookie sessionCookieName encrypted (a.(aa_sessionTTL) / second)])
                            end
                        end
                  end
              end
        end
  end.

(** ** Middlewares of the dashboard *)

Inductive DashboardVerdict :=
| ToLogin
| Forbid (message : string)
| Pass (session : AdminSession).

Definition dev_session (now : Z) : AdminSession :=
  mkAdminSession "dev-user" "dev@localhost" ["admin"] "dev-csrf-token" (now + 1440 * minute).

(** [AdminAuthMiddleware]; [cookie] is the one named [sessionCookieName]. *)
Definition AdminAuthMiddleware (devMode : bool) (now : Z) (cookie : option string) : DashboardVerdict :=
  if devMode then Pass (dev_session now)
  else
    match cookie with
    | None => ToLogin
    | Some value => match DecryptSession now value with None => ToLogin | Some session => Pass session end
    end.

(** [CSRFMiddleware], behind the other. *)
Definition safe_method (method : string) : bool := bool_decide (method ∈ ["GET"; "HEAD"; "OPTIONS"]).

Definition CSRFMiddleware (method formToken headerToken : string) (session : AdminSession) : DashboardVerdict :=
  if safe_method method then Pass session
  else
    let csrfToken := if bool_decide (formToken = "") then headerToken else formToken in
    if bool_decide (TrimSpace csrfToken = "") || negb (bool_decide (csrfToken = session.(as_CSRFToken)))
    then Forbid "invalid CSRF token" else Pass session.

(** A request to the dashboard up to its handler. *)
Record DashboardRequest := mkDashboardRequest {
  dr_Method : string;
  dr_Cookie : option string;
  dr_FormToken : string;
  dr_HeaderToken : string;
}.

Definition dashboard_chain (devMode : bool) (now : Z) (r : DashboardRequest) : DashboardVerdict :=
  match AdminAuthMiddleware devMode now r.(dr_Cookie) with
  | Pass session => CSRFMiddleware r.(dr_Method) r.(dr_FormToken) r.(dr_HeaderToken) session
  | v => v
  end.

End auth.

(** ** Delegated access of the integrated mode *)

Inductive errorCode :=
  errCodeInvalidToken | errCodeMissingHeader | errCodeInvalidGatewayRole | errCodeInsufficientRole
| errCodeInvalidRequest | errCodeNotFound | errCodeInternalError | errCodeMethodNotAllowed.

#[export] Instance errorCode_eq_dec : EqDecision errorCode.
Proof. solve_decision. Defined.

Record DelegatedIdentity := mkDelegatedIdentity {
  di_Subject : string;
  di_Email : string;
  di_TenantID : string;
  di_Role : string;
  di_GatewayRole : string;
}.

(** The headers of a request; [""] when absent. *)
Record DelegatedHeaders := mkDelegatedHeaders {
  dh_SessionCookie : bool;
  dh_Authorization : string;
  dh_Subject : string;
  dh_Email : string;
  dh_TenantID : string;
  dh_Role : string;
  dh_GatewayRole : string;
}.

Definition isValidGatewayRole (role : string) : bool := bool_decide (role ∈ ["viewer"; "editor"; "admin"]).

Definition roleRank (role : string) : Z :=
  if bool_decide (role = "admin") then 3 else if bool_decide (role = "editor") then 2 else 1.

(** [extractBearerToken] of the package. *)
Definition delegated_token (value : string) : option string :=
  let value := TrimSpace value in
  if negb (HasPrefix value "Bearer ") then None
  else
    let token := TrimSpace (TrimPrefix value "Bearer ") in
    if bool_decide (token = "") then None else Some token.

Abbreviation denied := (Z * errorCode * string)%type.

(** The first of the required headers that is missing. *)
Definition missing_header (h : list (string * string)) : option string :=
  fst <$> List.find (λ p, bool_decide (p.2 = "")) h.

Section delegated.
Context `{UnicodeTables}.

(** [IntegratedDelegatedAuthMiddleware]. *)
Definition IntegratedDelegatedAuthMiddleware (platformServiceToken : string) (h : DelegatedHeaders) :
    denied + DelegatedIdentity :=
  let expectedToken := TrimSpace platformServiceToken in
  if h.(dh_SessionCookie) then
    inl (403%Z, errCodeInvalidToken, "local admin cookie authentication is disabled in integrated mode")
  else
    match delegated_token h.(dh_Authorization) with
    | None => inl (401%Z, errCodeInvalidToken, "missing or invalid Authorization bearer token")
    | Some token =>
        if negb (bool_decide (token = expectedToken)) then
          inl (401%Z, errCodeInvalidToken, "invalid platform service token")
        else
          let subject := TrimSpace h.(dh_Subject) in
          let email := TrimSpace h.(dh_Email) in
          let tenantID := TrimSpace h.(dh_TenantID) in
          let role := TrimSpace h.(dh_Role) in
          let gatewayRole := ToLower (TrimSpace h.(dh_GatewayRole)) in
          match missing_header [("X-Cruvero-Subject", subject); ("X-Cruvero-Email", email);
                  ("X-Cruvero-Tenant-ID", tenantID); ("X-Cruvero-Role", role); ("X-Cruvero-Gateway-Role", gatewayRole)] with
          | Some missing => inl (400%Z, errCodeMissingHeader, "missing required header: " +:+ missing)
          | None =>
              if negb (isValidGatewayRole gatewayRole) then
                inl (403%Z, errCodeInvalidGatewayRole, "invalid X-Cruvero-Gateway-Role")
              else inr (mkDelegatedIdentity subject email tenantID role gatewayRole)
          end
    end.

(** [RequireGatewayRole], behind the other. *)
Definition RequireGatewayRole (minRole : string) (identity : DelegatedIdentity) : option denied :=
  if (roleRank identity.(di_GatewayRole) <? roleRank minRole)%Z
  then Some (403%Z, errCodeInsufficientRole, "insufficient gateway role") else None.

(** [delegatedActor], of a request the middleware let through. *)
Definition delegatedActor (identity : DelegatedIdentity) : string :=
  if negb (bool_decide (TrimSpace identity.(di_Email) = "")) then TrimSpace identity.(di_Email)
  else if negb (bool_decide (TrimSpace identity.(di_Subject) = "")) then TrimSpace identity.(di_Subject)
  else "platform".

End delegated.
