(* ===== verification/AdminAuthProps.v ===== *)
(** * Properties of the access to the administration *)

From S2P Require Import Prelude GoStrings Encoding GoNet GoFloat Json GoParse Document JsonText Codec.
From S2P Require Import Types Auth Config AdminAuth.

#[local] Open Scope string_scope.
#[local] Open Scope list_scope.
#[local] Open Scope nat_scope.
#[local] Open Scope go_scope.

(** ** Texts of ASCII characters *)

Lemma runes_ascii n l : is_ascii l = true → forallb (λ p, negb (bad_rune p)) (runes_fuel n l) = true.
Proof.
  revert l. induction n as [|n IH]; intros [|a l] Hl; [done..|]. cbn [is_ascii forallb] in Hl.
  apply andb_true_iff in Hl as [Ha Hl]. cbn [runes_fuel DecodeRune]. rewrite Ha.
  cbn [forallb take drop]. rewrite IH, andb_true_r by done. unfold bad_rune. cbn [fst snd].
  apply N.ltb_lt in Ha. rewrite (proj2 (N.eqb_neq _ _)); [done|]. unfold RuneError. lia.
Qed.

Lemma ascii_valid s : is_ascii (to_bytes s) = true → valid_utf8 s = true.
Proof. apply runes_ascii. Qed.

Lemma is_ascii_app l k : is_ascii (l ++ k) = is_ascii l && is_ascii k.
Proof. apply forallb_app. Qed.

Lemma digits_ascii l : forallb is_digit l = true → is_ascii l = true.
Proof.
  unfold is_ascii. induction l as [|a l IH]; [done|]. cbn [forallb]. intros [Ha Hl]%andb_true_iff.
  rewrite IH, andb_true_r by done. unfold is_digit in Ha. apply in_range_iff in Ha. apply N.ltb_lt. lia.
Qed.

Lemma pad_ascii n z : is_ascii (pad n z) = true.
Proof. apply digits_ascii, pad_digits. Qed.

Lemma format_ascii nano off t : is_ascii (to_bytes (FormatRFC3339 nano off t)) = true.
Proof.
  unfold FormatRFC3339. destruct (civil_from_days _) as [[y m] d]. rewrite to_of_bytes, !is_ascii_app, !pad_ascii.
  assert (Hz : is_ascii (zone_written off) = true).
  { unfold zone_written. destruct (off =? 0)%Z; [done|]. destruct (off <? 0)%Z; rewrite !is_ascii_app, !pad_ascii; done. }
  assert (Hf : is_ascii (if nano then fraction_written (t mod second) else []) = true).
  { destruct nano; [|done]. unfold fraction_written. destruct (_ =? 0)%Z; [done|].
    rewrite is_ascii_app, (digits_ascii (strip_zeros _)); [done|apply strip_zeros_digits, pad_digits]. }
  by rewrite Hz, Hf.
Qed.

Lemma base64url_valid l : valid_utf8 (of_bytes (base64url l)) = true.
Proof.
  apply ascii_valid. rewrite to_of_bytes. apply forallb_forall. intros a Ha.
  pose proof (base64url_chars l) as Hc. rewrite Forall_forall in Hc. specialize (Hc a (proj2 (list_elem_of_In _ _) Ha)).
  unfold url_char in Hc. rewrite !orb_true_iff, !in_range_iff, !N.eqb_eq in Hc. apply N.ltb_lt. lia.
Qed.

(** Evaluates the comparisons of keys. *)
Ltac fold_keys :=
  repeat match goal with |- context [EqualFold ?x ?y] =>
    let v := eval vm_compute in (EqualFold x y) in change (EqualFold x y) with v; cbv iota end.

Section props.
Context `{U : UnicodeTables}.

(** ** Sessions are read back *)

Lemma d_strings (l cur : list string) : d_elements d_string "" (AStr (N := string) <$> l) cur = (l, true).
Proof. revert cur. induction l as [|s l IH]; intros cur; [done|]. cbn. by rewrite IH. Qed.

(** A session whose texts are valid and whose expiry can be written. *)
Record session_ok (zone : Z) (s : AdminSession) : Prop := {
  so_texts : Forall (λ x, valid_utf8 x = true) (s.(as_Subject) :: s.(as_Email) :: s.(as_CSRFToken) :: s.(as_Scopes));
  so_zone : (Z.abs zone < 86400 ∧ zone mod 60 = 0)%Z;
  so_year : (0 <= (civil_from_days ((s.(as_ExpiresAt) / second + zone) / 86400)).1.1 <= 9999)%Z;
}.

Lemma strings_depth (k : list string) :
  foldr (λ (x : document) d, N.max (document_depth x) d) 0%N (AStr <$> k) = 0%N.
Proof. induction k as [|y k IH]; [done|]. rewrite fmap_cons. cbn [foldr document_depth]. by rewrite IH. Qed.

Lemma session_document_ok zone s : session_ok zone s →
  document_ok (session_document zone s) = true ∧ (document_depth (session_document zone s) <= maxNestingDepth)%N.
Proof.
  intros [Ht Hz Hy]. apply Forall_cons in Ht as [H1 Ht]. apply Forall_cons in Ht as [H2 Ht].
  apply Forall_cons in Ht as [H3 Ht]. split.
  - cbn [session_document document_ok forallb fst snd].
    change (valid_utf8 "sub") with true. change (valid_utf8 "email") with true. change (valid_utf8 "scopes") with true.
    change (valid_utf8 "csrf_token") with true. change (valid_utf8 "expires_at") with true.
    rewrite H1, H2, H3, (ascii_valid _ (format_ascii true zone _)). cbn [andb]. rewrite !andb_true_r.
    destruct (as_Scopes s) as [|x l]; [done|]. cbn [document_ok].
    apply forallb_forall. intros y (z & -> & Hz')%list_elem_of_In%list_elem_of_fmap.
    rewrite Forall_forall in Ht. by apply Ht.
  - cbn [session_document document_depth foldr snd].
    assert (Hd : (document_depth (match as_Scopes s with [] => ANil | l => AArr (AStr <$> l) end) <= 1)%N).
    { destruct (as_Scopes s) as [|x l]; [done|]. cbn [document_depth].
      by rewrite strings_depth. }
    unfold maxNestingDepth. lia.
Qed.

Lemma session_roundtrip zone s : session_ok zone s →
  session_of_text (json_print (session_document zone s)) = Some s.
Proof.
  intros Hok. destruct (session_document_ok zone s Hok) as [Hd Hdep]. destruct Hok as [_ [Hz Hz'] Hy].
  unfold session_of_text. rewrite json_roundtrip by done. cbn [mbind option_bind].
  unfold unmarshal, session_document. cbn [d_struct foldl]. unfold d_member at 1 2 3 4 5, session_fields.
  cbn [List.find fst snd]. fold_keys. cbn [field fst snd]. unfold field.
  cbn [d_string fst snd as_Subject as_Email as_Scopes as_CSRFToken as_ExpiresAt].
  assert (Hsc : d_slice d_string "" (match as_Scopes s with [] => ANil | l => AArr (AStr (N := string) <$> l) end)
    zero_session.(as_Scopes) = (as_Scopes s, true)).
  { destruct (as_Scopes s) as [|x l]; [done|]. apply d_strings. }
  rewrite Hsc. cbn [fst snd d_time as_ExpiresAt]. rewrite rfc3339_roundtrip by done. cbn. by destruct s.
Qed.

(** A state read as a session is one that has long expired. *)
Lemma state_not_session verifier : valid_utf8 verifier = true →
  session_of_text (json_print (state_document verifier)) = Some zero_session.
Proof.
  intros Hv. unfold session_of_text. rewrite json_roundtrip; [|cbn; by rewrite Hv|done].
  cbn [mbind option_bind]. unfold unmarshal, state_document. cbn [d_struct foldl]. unfold d_member, session_fields.
  cbn [List.find fst snd]. fold_keys. done.
Qed.

(** ** Issued cookies *)

Section dashboard.
Context `{A : AEAD} `{!AEADLaws A} `{TokenEndpoint} `{OIDCVerifier}.
Context (zone : Z) (a : AdminAuth).

Lemma unseal_sealed n p : length n = NonceSize → unseal (sealed n p) = Some p.
Proof.
  intros Hn. unfold unseal, sealed. rewrite base64_roundtrip. cbn [mbind option_bind].
  rewrite length_app, (proj2 (Nat.ltb_ge _ _)) by lia.
  rewrite take_app_length', drop_app_length' by done. apply open_seal.
Qed.

(** What the gateway has sealed: states of logins, and the sessions of callbacks
    with the time they were made. *)
Inductive Issued := IssuedState (value : string) | IssuedSession (value : string) (at_ : Z).
Definition issued_value (i : Issued) : string := match i with IssuedState v | IssuedSession v _ => v end.

(** The reader of random bytes fills the buffer or fails. *)
Definition full (n : nat) (random : option bytes) : Prop := ∀ b, random = Some b → length b = n.

(** A time that can be written in the zone of the host. *)
Definition writable (t : Z) : Prop :=
  (Z.abs zone < 86400 ∧ zone mod 60 = 0)%Z ∧
  (0 <= (civil_from_days ((t / second + zone) / 86400)).1.1 <= 9999)%Z.

(** The logins and callbacks so far. *)
Inductive ledger : list Issued → Prop :=
| ledger_nil : ledger []
| ledger_login l verifier_random nonce reply :
    ledger l → full NonceSize nonce → HandleLogin verifier_random nonce = inr reply →
    ledger (IssuedState reply.(lr_State) :: l)
| ledger_callback l now csrf_random nonce r value age :
    ledger l → full NonceSize nonce → writable (now + a.(aa_sessionTTL)) →
    mkCookie sessionCookieName value age ∈ (HandleCallback zone a now csrf_random nonce r).(ar_Cookies) →
    ledger (IssuedSession value now :: l).

(** No cookie opens to a text the gateway has not sealed. *)
Definition unforgeable (l : list Issued) (value : string) : Prop :=
  ∀ p, unseal value = Some p → ∃ i, i ∈ l ∧ unseal (issued_value i) = Some p.

(** The claims of a token are decoded from JSON, so that their texts are valid. *)
Definition claims_decoded : Prop := ∀ token issuer claims,
  Verify token = Ok (issuer, Ok claims) →
  Forall (λ x, valid_utf8 x = true)
    (claims.(cl_Subject) :: claims.(cl_Email) :: mergeScopes claims.(cl_Groups) claims.(cl_Scope)).

(** The login a session stems from: an ID token that was verified and carries the
    required scope. *)
Definition logged_in (at_ : Z) (s : AdminSession) : Prop := ∃ token issuer claims csrf,
  Verify token = Ok (issuer, Ok claims) ∧
  a.(aa_RequiredScope) ∈ mergeScopes claims.(cl_Groups) claims.(cl_Scope) ∧ valid_utf8 csrf = true ∧
  s = new_session a at_ claims csrf.

(** A callback sets the session cookie only at the end of a login. *)
Lemma callback_session now csrf_random nonce r value age :
  mkCookie sessionCookieName value age ∈ (HandleCallback zone a now csrf_random nonce r).(ar_Cookies) →
  ∃ s n, logged_in now s ∧ nonce = Some n ∧ value = sealed n (json_print (session_document zone s)).
Proof.
  assert (Hclear : ∀ x, x ∈ [mkCookie stateCookieName "" (-1)] → x.(ck_Name) ≠ sessionCookieName).
  { intros x ->%list_elem_of_singleton. done. }
  assert (Hno : ∀ st msg cs, (∀ x, x ∈ cs → x.(ck_Name) ≠ sessionCookieName) →
    mkCookie sessionCookieName value age ∈ (refuse st msg cs).(ar_Cookies) → False).
  { intros st msg cs Hcs Hin. by apply (Hcs _ Hin). }
  assert (Hnil : ∀ st msg, mkCookie sessionCookieName value age ∈ (refuse st msg []).(ar_Cookies) → False).
  { intros st msg. apply Hno. intros x []%elem_of_nil. }
  unfold HandleCallback.
  destruct (cb_StateCookie r) as [c|]; [|by intros ?%Hnil]. destruct (negb _); [by intros ?%Hnil|].
  destruct (extractVerifierFromState c) as [v|]; [|by intros ?%Hnil].
  destruct (bool_decide _); [by intros ?%Hno|].
  destruct (Exchange (cb_Code r) v) as [?|[token|]]; [by intros ?%Hno| |by intros ?%Hno].
  destruct (Verify token) as [?|[issuer [?|claims]]] eqn:Ev; [by intros ?%Hno|by intros ?%Hno|].
  destruct (negb (hasScope _ _)) eqn:Es; [by intros ?%Hno|]. apply negb_false_iff, bool_decide_eq_true in Es.
  destruct csrf_random as [b|]; [|by intros ?%Hno]. destruct nonce as [n|]; [|by intros ?%Hno].
  cbn [random_base64 encryptSession mbind option_bind ar_Cookies].
  intros [Hin|[= -> ->]%list_elem_of_singleton]%elem_of_app; [by apply Hclear in Hin|].
  exists (new_session a now claims (of_bytes (base64url b))), n. split_and!; [|done|done].
  exists token, issuer, claims, (of_bytes (base64url b)). split_and!; [done|done|apply base64url_valid|done].
Qed.

Lemma logged_in_ok at_ s : claims_decoded → writable (at_ + a.(aa_sessionTTL)) → logged_in at_ s → session_ok zone s.
Proof.
  intros Hc [Hz Hy] (token & issuer & claims & csrf & Hv & _ & Hcsrf & ->). specialize (Hc _ _ _ Hv).
  apply Forall_cons in Hc as [H1 Hc]. apply Forall_cons in Hc as [H2 Hc].
  constructor; [|done|done]. repeat constructor; done.
Qed.

(** What the issued values open to. *)
Lemma issued_opens l i : claims_decoded → ledger l → i ∈ l → ∃ p, unseal (issued_value i) = Some p ∧
  match i with
  | IssuedState _ => session_of_text p = Some zero_session
  | IssuedSession _ at_ => ∃ s, logged_in at_ s ∧ session_of_text p = Some s
  end.
Proof.
  intros Hc Hl. induction Hl as [|l vr nonce reply Hl IH Hn Hr|l now cr nonce r value age Hl IH Hn Hw Hin];
    [intros []%elem_of_nil|..]; intros [->|?]%elem_of_cons; [|by apply IH| |by apply IH].
  - unfold HandleLogin in Hr. destruct vr as [b|]; [|done]. destruct nonce as [n|]; [|done].
    cbn [random_base64 generateState mbind option_bind] in Hr. injection Hr as <-. cbn [lr_State issued_value].
    eexists. split; [by apply unseal_sealed, Hn|]. apply state_not_session, base64url_valid.
  - destruct (callback_session _ _ _ _ _ _ Hin) as (s & n & Hs & -> & ->). cbn [issued_value].
    eexists. split; [by apply unseal_sealed, Hn|]. exists s. split; [done|].
    apply session_roundtrip. by eapply logged_in_ok.
Qed.

(** The session a cookie of the ledger opens to. *)
Lemma opened_cookie l now value s :
  claims_decoded → ledger l → (zero_time < now)%Z → unforgeable l value →
  DecryptSession now value = Some s →
  ∃ v at_, IssuedSession v at_ ∈ l ∧ logged_in at_ s ∧ (now <= at_ + a.(aa_sessionTTL))%Z.
Proof.
  intros Hc Hl Hnow Hu Ed. unfold DecryptSession in Ed.
  destruct (unseal value) as [p|] eqn:Eu; [|done]. cbn [mbind option_bind] in Ed.
  destruct (session_of_text p) as [s1|] eqn:Et; [|done]. cbn [mbind option_bind] in Ed.
  destruct (_ <? _)%Z eqn:Ex; [done|]. injection Ed as ->. apply Z.ltb_ge in Ex.
  destruct (Hu _ Eu) as (i & Hi & Hp). destruct (issued_opens l i Hc Hl Hi) as (p' & Hp' & Hs).
  rewrite Hp in Hp'. injection Hp' as <-. destruct i as [v|v at_].
  { rewrite Et in Hs. injection Hs as ->. cbn in Ex. lia. }
  destruct Hs as (s' & Hlog & Hs). rewrite Et in Hs. injection Hs as <-.
  exists v, at_. split_and!; [done|done|].
  destruct Hlog as (? & ? & ? & ? & _ & _ & _ & ->). done.
Qed.

Lemma csrf_passes method form header s s' :
  CSRFMiddleware method form header s = Pass s' →
  s' = s ∧ (safe_method method = true ∨
            TrimSpace s.(as_CSRFToken) ≠ "" ∧ s.(as_CSRFToken) ∈ [form; header]).
Proof.
  unfold CSRFMiddleware. destruct (safe_method _); [intros [= ->]; auto|].
  destruct (_ || _) eqn:Eo; [done|]. intros [= ->]. split; [done|]. right.
  apply orb_false_iff in Eo as [E1 E2%negb_false_iff].
  apply bool_decide_eq_true in E2. apply bool_decide_eq_false in E1. rewrite <- E2. split; [done|].
  destruct (bool_decide (form = "")); set_solver.
Qed.

(** C13: The dashboard is guarded. A request that may change something reaches a
    handler only if it repeats the CSRF token of its session. In the development
    mode (devMode) every request has the session of the development user and no
    cookie is asked for. Otherwise a request that reaches a handler carries a
    cookie of a login whose ID token was verified and had the required scope, and
    the session is the one of that login and has not expired. The state of a
    login, which is sealed with the same key, is never a session. Conversely the
    cookie of a login is accepted until the session expires. It is assumed that
    no cookie opens to a text the gateway has not sealed. *)
Theorem dashboard_guarded devMode l now r s :
  claims_decoded → ledger l → (zero_time < now)%Z →
  (∀ value, r.(dr_Cookie) = Some value → unforgeable l value) →
  (dashboard_chain devMode now r = Pass s →
   (safe_method r.(dr_Method) = true ∨
    TrimSpace s.(as_CSRFToken) ≠ "" ∧ s.(as_CSRFToken) ∈ [r.(dr_FormToken); r.(dr_HeaderToken)]) ∧
   if devMode then s = dev_session now
   else ∃ value at_, IssuedSession value at_ ∈ l ∧ logged_in at_ s ∧ (now <= at_ + a.(aa_sessionTTL))%Z) ∧
  (∀ value at_, IssuedSession value at_ ∈ l → (now <= at_ + a.(aa_sessionTTL))%Z →
   ∃ s', logged_in at_ s' ∧ AdminAuthMiddleware false now (Some value) = Pass s').
Proof.
  intros Hc Hl Hnow Hu. split.
  - unfold dashboard_chain, AdminAuthMiddleware. destruct devMode.
    { intros [-> Hcsrf]%csrf_passes. done. }
    destruct (dr_Cookie r) as [value|]; [|done].
    destruct (DecryptSession now value) as [s0|] eqn:Ed; [|done].
    intros [-> Hcsrf]%csrf_passes. split; [done|]. by apply (opened_cookie l now value); auto.
  - intros value at_ Hi Hle. destruct (issued_opens l _ Hc Hl Hi) as (p & Hp & s' & Hlog & Hs).
    exists s'. split; [done|]. unfold AdminAuthMiddleware, DecryptSession. cbn [issued_value] in Hp. rewrite Hp.
    cbn [mbind option_bind]. rewrite Hs. cbn [mbind option_bind].
    destruct Hlog as (? & ? & ? & ? & _ & _ & _ & ->). cbn [new_session as_ExpiresAt].
    by rewrite (proj2 (Z.ltb_ge _ _)).
Qed.

End dashboard.

End props.

(** ** A login *)

#[local] Existing Instance ascii_tables.

(** A cipher that puts the nonce in front of the text. *)
Definition example_aead : AEAD := {| NonceSize := 2; Seal n p := n ++ p; Open n c := strip_prefix n c |}.

Lemma example_aead_laws : AEADLaws example_aead.
Proof.
  split.
  - intros n p. by apply strip_prefix_Some.
  - intros n c p. apply strip_prefix_Some.
Qed.

Definition example_claims : oidcClaims := mkOidcClaims "u-1" "ops@example.com" "" "" ["admin"; "dev"] "openid".
Definition example_endpoint : TokenEndpoint := λ code verifier,
  if bool_decide (code = "code-1") then Ok (Some "id-token") else Err (Opaque "invalid_grant").
Definition example_verifier : OIDCVerifier := λ token,
  if bool_decide (token = "id-token") then Ok ("https://idp", Ok example_claims) else Err (Opaque "bad signature").
Definition example_auth : AdminAuth := mkAdminAuth "admin" "/admin/callback" (480 * minute).

#[local] Existing Instances example_aead example_endpoint example_verifier.

Definition example_login_time : Z := 1772107200 * second.
Definition example_state : string :=
  match HandleLogin (Some (to_bytes "random")) (Some (to_bytes "n1")) with inr r => r.(lr_State) | inl _ => "" end.
Definition example_reply : AuthReply :=
  HandleCallback 3600 example_auth example_login_time (Some (to_bytes "csrf-random")) (Some (to_bytes "n2"))
    (mkCallbackRequest (Some example_state) example_state "code-1").
Definition example_cookie : string := match example_reply.(ar_Cookies) with [_; c] => c.(ck_Value) | _ => "" end.
Definition example_ledger : list Issued := [IssuedSession example_cookie example_login_time; IssuedState example_state].

Lemma example_writable t : (t = example_login_time + 480 * minute)%Z → writable 3600 t.
Proof. intros ->. unfold writable. split; [done|]. split; by vm_compute. Qed.

Lemma example_ledger_ok : ledger 3600 example_auth example_ledger.
Proof.
  unfold example_ledger. eapply ledger_callback with (age := 28800%Z) (nonce := Some (to_bytes "n2"))
    (csrf_random := Some (to_bytes "csrf-random")) (r := mkCallbackRequest (Some example_state) example_state "code-1").
  - eapply (ledger_login _ _ [] (Some (to_bytes "random")) (Some (to_bytes "n1")) (mkLoginReply _ example_state _)).
    + constructor.
    + intros b [= <-]. done.
    + vm_compute. reflexivity.
  - intros b [= <-]. done.
  - by apply example_writable.
  - change (HandleCallback _ _ _ _ _ _) with example_reply.
    assert (ar_Cookies example_reply = [mkCookie stateCookieName "" (-1); mkCookie sessionCookieName example_cookie 28800]) as ->
      by (by vm_compute).
    set_solver.
Qed.

Lemma example_claims_decoded : claims_decoded.
Proof.
  intros token issuer claims. cbv [Verify example_verifier]. destruct (bool_decide _); [|done].
  intros [= _ <-]. repeat constructor; by vm_compute.
Qed.

(** A change an hour after the login, with its cookie and its token. *)
Definition example_change : DashboardRequest :=
  mkDashboardRequest "POST" (Some example_cookie) "" (of_bytes (base64url (to_bytes "csrf-random"))).

Definition example_session : AdminSession :=
  new_session example_auth example_login_time example_claims (of_bytes (base64url (to_bytes "csrf-random"))).

Lemma dashboard_guarded_witness :
  dashboard_chain false (example_login_time + 60 * minute) example_change = Pass example_session ∧
  (∃ value at_, IssuedSession value at_ ∈ example_ledger ∧ logged_in example_auth at_ example_session) ∧
  AdminAuthMiddleware false (example_login_time + 60 * minute) (Some example_state) = ToLogin.
Proof.
  assert (Hp : dashboard_chain false (example_login_time + 60 * minute) example_change = Pass example_session)
    by by vm_compute.
  split; [exact Hp|]. split; [|by vm_compute].
  destruct (dashboard_guarded (A := example_aead) (AEADLaws0 := example_aead_laws) 3600 example_auth false
    example_ledger (example_login_time + 60 * minute) example_change example_session
    example_claims_decoded example_ledger_ok) as [Hg _].
  - done.
  - intros value [= <-] p Ho. exists (IssuedSession example_cookie example_login_time).
    split; [unfold example_ledger; left|exact Ho].
  - destruct (Hg Hp) as [_ (value & at_ & Hi & Hs & _)]. exists value, at_. exact (conj Hi Hs).
Defined.
