(* ===== verification/AdminOps.v ===== *)
(** * Operations of the administration

    What the dashboard ([internal/admin/handler.go], [handler_users.go],
    [handler_search.go]) and the integrated API ([integrated_api.go]) share: the
    state they work on, the operations that change it, the filters, the paging
    and the CSV export. The handlers publish what they changed on the bus;
    [deliver] is what the subscribers of the same gateway
    ([internal/registration/subscriber.go], [classification_subscriber.go]) make
    of a message, which on the bus of a single instance
    ([noop_broadcast.go]) never arrives. *)

From stdpp Require Import pretty.
From S2P Require Import Prelude GoStrings Encoding GoNet GoFloat Types Store Json GoParse Classification CapIndex Registration RegHandlers AccessStore Routing Search Discovery Document JsonText Codec AdminStore.

#[local] Open Scope string_scope.
#[local] Open Scope list_scope.
#[local] Open Scope nat_scope.
#[local] Open Scope go_scope.

(** ** The state *)

(** What the administration reaches: the registry with its index and its bus, the
    users, the tables of [AdminStore], the classification cache of the policy
    engine, and the discovery index. *)
Record AdminWorld (E : Type) := mkAdminWorld {
  aw_reg : World;
  aw_access : AccessDB;
  aw_admin : AdminDB;
  aw_cache : option ClassificationCache;
  aw_discovery : option (DiscoveryIndex E);
}.
Arguments mkAdminWorld {_}.
Arguments aw_reg {_}.
Arguments aw_access {_}.
Arguments aw_admin {_}.
Arguments aw_cache {_}.
Arguments aw_discovery {_}.

(** [SearchStatusSnapshot]. *)
Record SearchStatusSnapshot := mkSearchStatus {
  st_EngineType : string;
  st_EmbedderType : string;
  st_IndexedTools : Z;
  st_EngineReady : bool;
  st_VectorReady : option bool;
  st_VectorSearchFallbacks : Z;
  st_VectorIndexFallbacks : Z;
  st_EngineErrorFallbacks : Z;
}.

(** [AdminHandler]: which of its stores are set, and its settings. The status
    function is given by its value at the moment of the request. *)
Record AdminHandler := mkAdminHandler {
  ah_serverStore : bool;
  ah_auditStore : bool;
  ah_classificationStore : bool;
  ah_userStore : bool;
  ah_broadcaster : bool;
  ah_synonymStore : bool;
  ah_reindexLogStore : bool;
  ah_progressiveDiscovery : bool;
  ah_searchEngineType : string;
  ah_embedderType : string;
  ah_searchStatus : option SearchStatusSnapshot;
}.

(** The methods an engine may have beside those of [SearchEngine]; [None] when it
    lacks one. *)
Class EngineStatus (E : Type) := {
  engine_Ready : E → bool;
  engine_VectorReady : E → option bool;
  engine_VectorSearchFallbacks : E → option Z;
  engine_VectorIndexFallbacks : E → option Z;
}.

#[export] Instance bm25_status : EngineStatus BM25Engine := {|
  engine_Ready _ := true;
  engine_VectorReady _ := None;
  engine_VectorSearchFallbacks _ := None;
  engine_VectorIndexFallbacks _ := None;
|}.

(** ** Reading the request *)

Definition defaultPageSize : Z := 50.

(** [types.RiskLevel(s)] when it is valid. *)
Definition risk_of (s : string) : option RiskLevel :=
  List.find (λ r, bool_decide (RiskLevel_String r = s)) [RiskReadOnly; RiskWrite; RiskDestructive; RiskUnknown].

Definition UserRole_String (r : UserRole) : string :=
  match r with
  | RoleAdmin => "admin" | RoleUser => "user" | RoleViewer => "viewer" | RoleBlocked => "blocked"
  | RoleRaw t => t
  end.

(** [types.UserRole(s)] when it is valid. *)
Definition role_of (s : string) : option UserRole :=
  List.find (λ r, bool_decide (UserRole_String r = s)) [RoleAdmin; RoleUser; RoleViewer; RoleBlocked].

(** [types.ServerStatus(s)]. *)
Definition status_of (s : string) : ServerStatus := default (StatusRaw s) (parse_status s).

(** [parsePage]; [q] is [r.URL.Query().Get]. *)
Definition parsePage (q : string → string) : Z :=
  match Atoi (q "page") with Some n => if (0 <? n)%Z then n else 1 | None => 1 end.

(** The offset of a page. *)
Definition page_offset (page : Z) : Z := wrap_i64 (wrap_i64 (page - 1) * defaultPageSize).

(** [pagination]; the total is a count of rows. *)
Definition pagination (total : nat) (pageSize : Z) : Z * list Z :=
  let totalPages := Z.quot (Z.of_nat total + pageSize - 1) pageSize in
  (totalPages, Z.of_nat <$> seq 1 (Z.to_nat totalPages)).

(** [parseLimitOffset]. *)
Definition parseLimitOffset (q : string → string) (defaultLimit : Z) : string + (Z * Z) :=
  let raw := TrimSpace (q "limit") in
  let limit :=
    if bool_decide (raw = "") then Some defaultLimit
    else match Atoi raw with
         | Some n => if (n <=? 0)%Z then None else Some (if (1000 <? n)%Z then 1000%Z else n)
         | None => None
         end in
  match limit with
  | None => inl "invalid limit"
  | Some limit =>
      let cursor := TrimSpace (q "cursor") in
      if bool_decide (cursor = "") then inr (limit, 0%Z)
      else match Atoi cursor with
           | Some n => if (n <? 0)%Z then inl "invalid cursor" else inr (limit, n)
           | None => inl "invalid cursor"
           end
  end.

(** [nextCursor]; the addition is one of [int]. *)
Definition nextCursor (offset limit total : Z) : string :=
  if (limit <=? 0)%Z || (total <=? 0)%Z then ""
  else
    let next := wrap_i64 (offset + limit) in
    if (total <=? next)%Z then "" else pretty next.

(** [time.Parse("2006-01-02", s)]. *)
Definition ParseDate (s : string) : option Z :=
  '(year, l) ← year_text (to_bytes s);
  l ← skip "-" l;
  '(month, l) ← num_below true 13 l;
  l ← skip "-" l;
  '(day, l) ← getnum true l;
  match l with
  | [] =>
      if (1 <=? month)%Z && (1 <=? day)%Z && (day <=? days_in month year)%Z
      then Some (days_from_civil year month day * 86400 * second)%Z else None
  | _ :: _ => None
  end.

(** [parseAuditTimeValue]: the time, and whether only a date was given. *)
Definition parseAuditTimeValue (raw : string) : option (Z * bool) :=
  match ParseDate raw with
  | Some t => Some (t, true)
  | None => (λ t, (t, false)) <$> ParseRFC3339 raw
  end.

Section reading.
Context `{UnicodeTables}.

(** [buildAuditFilter], of the query of the request. *)
Definition buildAuditFilter (q : string → string) : AuditFilter :=
  let since := TrimSpace (q "since") in
  let until := TrimSpace (q "until") in
  mkAuditFilter (TrimSpace (q "decision")) (TrimSpace (q "client_id")) (TrimSpace (q "username"))
    (TrimSpace (q "tool_name")) (TrimSpace (q "details"))
    (NormalizeAuditSortBy (q "sort_by")) (NormalizeAuditSortDir (q "sort_dir"))
    (if bool_decide (since = "") then None else fst <$> parseAuditTimeValue since)
    (if bool_decide (until = "") then None
     else (λ p : Z * bool, if p.2 then p.1 + (1440 * minute - second) else p.1)%Z <$> parseAuditTimeValue until)
    0 0.

Definition with_window (limit offset : Z) (f : AuditFilter) : AuditFilter :=
  mkAuditFilter f.(af_EventType) f.(af_ClientID) f.(af_Username) f.(af_ServerName) f.(af_DetailsSearch)
    f.(af_SortBy) f.(af_SortDir) f.(af_Since) f.(af_Until) limit offset.

(** One alias of [buildIntegratedAuditFilter]: [key] stands for [alias] where it
    is empty. *)
Definition with_alias (key alias : string) (q : string → string) : string → string :=
  if bool_decide (q key = "") && negb (bool_decide (q alias = ""))
  then λ k, if bool_decide (k = key) then q alias else q k
  else q.

Definition buildIntegratedAuditFilter (q : string → string) : AuditFilter :=
  let q := with_alias "client_id" "actor" q in
  let q := with_alias "username" "actor" q in
  let q := with_alias "tool_name" "resource" q in
  let q := with_alias "decision" "action" q in
  let q := with_alias "details" "q" q in
  let q := with_alias "since" "from" q in
  let q := with_alias "until" "to" q in
  buildAuditFilter q.

(** [buildUserFilter]. *)
Definition buildUserFilter (q : string → string) (page : Z) : UserFilter :=
  mkUserFilter (TrimSpace (q "q")) (role_of (TrimSpace (q "role"))) defaultPageSize (page_offset page).

(** [parseRateLimitFormValues]. *)
Definition parse_rate (raw : string) : option (option Z) :=
  let v := TrimSpace raw in
  if bool_decide (v = "") then Some None
  else match Atoi v with
       | Some n => if (n <? 0)%Z then None else Some (Some n)
       | None => None
       end.

(** A burst without a rate is refused. *)
Definition burst_alone (rateLimit rateBurst : option Z) : bool :=
  match rateLimit, rateBurst with None, Some _ => true | _, _ => false end.

Definition parseRateLimitFormValues (rateLimitRaw rateBurstRaw : string) : string + (option Z * option Z) :=
  match parse_rate rateLimitRaw, parse_rate rateBurstRaw with
  | None, _ => inl "invalid rate limit value"
  | _, None => inl "invalid rate burst value"
  | Some rateLimit, Some rateBurst =>
      if burst_alone rateLimit rateBurst then inl "rate burst requires rate limit" else inr (rateLimit, rateBurst)
  end.

(** [parseSynonymList]. *)
Definition parseSynonymList (raw : string) : list string :=
  List.filter (λ s, negb (bool_decide (s = ""))) ((λ p, TrimSpace (ToLower p)) <$> Split raw ",").

End reading.

(** [splitFederatedName]. *)
Definition Cut (s sep : string) : string * string * bool :=
  match cut (to_bytes sep) (to_bytes s) with
  | Some (a, b) => (of_bytes a, of_bytes b, true)
  | None => (s, "", false)
  end.

Definition splitFederatedName (name : string) : string * string :=
  if HasPrefix name "mcp." then
    let '(server, tool, found) := Cut (TrimPrefix name "mcp.") "." in
    if found then (server, tool) else (server, "")
  else
    let '(server, tool, found) := Cut name "." in
    if found then (server, tool) else ("", name).

(** ** The CSV export *)

Definition newline : ascii := ascii_of_N 10.
Definition carriage : ascii := ascii_of_N 13.
Definition tab : ascii := ascii_of_N 9.

(** A first byte a spreadsheet takes for a formula. *)
Definition formula_start (a : ascii) : bool :=
  bool_decide (a ∈ ["="%char; "+"%char; "-"%char; "@"%char; tab; carriage]).

(** A byte that makes a field be quoted. *)
Definition csv_special (a : ascii) : bool := bool_decide (a ∈ [","%char; quote_byte; newline; carriage]).

Definition guard_formula (l : bytes) : bytes :=
  match l with
  | a :: _ => if formula_start a then "'"%char :: l else l
  | [] => l
  end.

(** [csvEscape]. *)
Definition csvEscape (s : string) : bytes :=
  let l := guard_formula (to_bytes s) in
  if existsb csv_special l then quote_byte :: replace_byte quote_byte [quote_byte; quote_byte] l ++ [quote_byte] else l.

(** [writeAuditCSV]: [zone] is the offset of the location the times are read in,
    [details_json] the text [json.Marshal] gives for details read back from their
    column. *)
Section csv.
Context (zone : Z) (details_json : list (string * document) → string).

Definition csv_header : bytes := to_bytes "time,event_type,client_id,username,server_name,details" ++ [newline].

Definition csv_line (e : AuditRow) : bytes :=
  to_bytes (FormatRFC3339 false zone e.(al_CreatedAt)) ++ to_bytes "," ++
  csvEscape e.(al_EventType) ++ to_bytes "," ++
  csvEscape e.(al_ClientID) ++ to_bytes "," ++
  csvEscape e.(al_Username) ++ to_bytes "," ++
  csvEscape e.(al_ServerName) ++ to_bytes "," ++
  csvEscape (details_json e.(al_Details)) ++ [newline].

Definition writeAuditCSV (entries : list AuditRow) : bytes := csv_header ++ mjoin (csv_line <$> entries).
End csv.

(** ** The operations *)

(** A call of a nil interface: a panic, which [RecoveryMiddleware] turns into a
    reply. *)
Definition nil_dereference : error := Sentinel "invalid memory address or nil pointer dereference".

Section operations.
Context `{UnicodeTables} `{Postgres} `{PgText} {E : Type} `{SearchEngine E}.
Context (h : AdminHandler).
Implicit Types w : AdminWorld E.

Definition set_reg (x : World) w : AdminWorld E :=
  mkAdminWorld x w.(aw_access) w.(aw_admin) w.(aw_cache) w.(aw_discovery).
Definition set_access (x : AccessDB) w : AdminWorld E :=
  mkAdminWorld w.(aw_reg) x w.(aw_admin) w.(aw_cache) w.(aw_discovery).
Definition set_admin (x : AdminDB) w : AdminWorld E :=
  mkAdminWorld w.(aw_reg) w.(aw_access) x w.(aw_cache) w.(aw_discovery).
Definition set_cache (x : option ClassificationCache) w : AdminWorld E :=
  mkAdminWorld w.(aw_reg) w.(aw_access) w.(aw_admin) x w.(aw_discovery).
Definition set_discovery (x : option (DiscoveryIndex E)) w : AdminWorld E :=
  mkAdminWorld w.(aw_reg) w.(aw_access) w.(aw_admin) w.(aw_cache) x.

Definition aw_now w : Z := w_now w.(aw_reg).

(** Calls of the stores. *)
Definition on_registry {A} (m : ST DB A) : ST (AdminWorld E) A := λ w,
  let '(r, x) := on_db m w.(aw_reg) in (r, set_reg x w).
Definition on_access {A} (m : ST AccessDB A) : ST (AdminWorld E) A := λ w,
  let '(r, x) := m w.(aw_access) in (r, set_access x w).
Definition on_admin {A} (m : ST AdminDB A) : ST (AdminWorld E) A := λ w,
  let '(r, x) := m w.(aw_admin) in (r, set_admin x w).

(** A step that is left out when its store is not set. *)
Definition if_set (b : bool) (m : ST (AdminWorld E) ()) : ST (AdminWorld E) () := if b then m else ret ().

(** [_ = h.auditStore.Log(...)]. *)
Definition log_audit (EventType ClientID ServerName : string) (details : list (string * document)) :
    ST (AdminWorld E) () :=
  if_set h.(ah_auditStore)
    (let* _ := attempt (on_admin (AuditLog (mkLoggedEntry EventType ClientID "" ServerName details))) in ret ()).

(** [_ = h.broadcaster.Publish(...)]. *)
Definition publish (message : Z → Broadcast) : ST (AdminWorld E) () :=
  if_set h.(ah_broadcaster)
    (modify (λ w, set_reg (add_broadcast (message (UnixMilli (aw_now w))) w.(aw_reg)) w)).

(** [upsertToolClassification]. *)
Definition upsertToolClassification (name : string) (riskLevel : RiskLevel) (reason updatedBy source : string) :
    ST (AdminWorld E) () :=
  let* now := gets aw_now in
  if_set h.(ah_classificationStore)
    (on_registry (ClassificationUpsert (mkToolClassification name riskLevel reason false updatedBy now))) ;;
  publish (ClassificationEvent name (RiskLevel_String riskLevel) updatedBy) ;;
  log_audit "tool_classification_updated" updatedBy name
    [("reason", AStr reason); ("risk_level", AStr (RiskLevel_String riskLevel)); ("source", AStr source)].

(** A member that is there when the value is. *)
Definition member_if (k : string) (v : option Z) : list (string * document) :=
  match v with Some n => [(k, ANum (pretty n))] | None => [] end.

(** [updateServerRateLimit]. *)
Definition updateServerRateLimit (id : string) (rateLimit rateBurst : option Z) (updatedBy source : string) :
    ST (AdminWorld E) () :=
  if_set h.(ah_serverStore) (on_registry (UpdateRateLimit id rateLimit rateBurst)) ;;
  log_audit "server_rate_limit_updated" updatedBy id
    (member_if "rate_burst" rateBurst ++ member_if "rate_limit" rateLimit ++ [("source", AStr source)]) ;;
  publish (RegistrationEvent "server_rate_limit_updated" id).

(** [deregisterServer]. *)
Definition deregisterServer (id deregisteredBy source : string) : ST (AdminWorld E) () :=
  if_set h.(ah_serverStore) (on_registry (Delete id)) ;;
  log_audit "server_deregistered" deregisteredBy id [("source", AStr source)] ;;
  publish (RegistrationEvent "deregistered" id).

(** The names of the tools of the servers, once each. *)
Definition exposed_tools (servers : list ServerRecord) : list string :=
  remove_dups (List.filter (λ n, negb (bool_decide (n = "")))
    (mjoin ((λ s, TrimSpace <$> s.(Capabilities).(Tools)) <$> servers))).

(** [pruneOrphanedToolClassifications]. *)
Definition pruneOrphanedToolClassifications (prunedBy source : string) : ST (AdminWorld E) Z :=
  if negb h.(ah_serverStore) then throw nil_dereference
  else
    let* servers := on_registry (ServerList (mkServerFilter (Some StatusActive) "" 0 0)) in
    if negb h.(ah_classificationStore) then throw nil_dereference
    else
      let activeToolNames := exposed_tools servers in
      let* pruned := on_registry (DeleteNotIn activeToolNames) in
      log_audit "tools_pruned" prunedBy ""
        [("active_tool_count", ANum (pretty (length activeToolNames))); ("pruned_count", ANum (pretty pruned));
         ("source", AStr source)] ;;
      publish (ClassificationEvent "*" "pruned" prunedBy) ;;
      ret pruned.

(** A slice of texts in the details of an entry; [None] is the nil slice. *)
Definition text_list (l : option (list string)) : document :=
  match l with None => ANil | Some l => AArr (AStr <$> l) end.

(** [replaceUserToolPermissions]. *)
Definition replaceUserToolPermissions (userID : string) (toolNames : option (list string)) (grantedBy source : string) :
    ST (AdminWorld E) () :=
  let* now := gets aw_now in
  if_set h.(ah_userStore) (on_access (SetToolPermissions now userID (default [] toolNames) grantedBy)) ;;
  log_audit "user.permissions_updated" grantedBy userID
    [("granted_by", AStr grantedBy); ("source", AStr source); ("tools", text_list toolNames); ("user_id", AStr userID)].

(** [searchUsers]. *)
Definition searchUsers (f : UserFilter) : AdminWorld E → (list User * nat) * AdminWorld E := λ w,
  if negb h.(ah_userStore) then (([], 0), w)
  else match on_access (UserSearch f) w with
       | (Ok r, w') => (r, w')
       | (Err _, w') => (([], 0), w')
       end.

End operations.

(** ** The bus *)

(** [selectBroadcaster]: NATS or Dragonfly, whose messages also reach the gateway
    that publishes them, or nothing. *)
Inductive Bus := NoopBroadcaster | SharedBroadcaster.

Definition selectBroadcaster (cruveroEnabled connected dragonfly : bool) : Bus :=
  if cruveroEnabled && connected then SharedBroadcaster
  else if dragonfly then SharedBroadcaster
  else NoopBroadcaster.

Section bus.
Context `{UnicodeTables} `{Postgres} {E : Type}.
Implicit Types w : AdminWorld E.

(** [ClassificationSubscriber.handle], on a decoded event. *)
Definition ClassificationHandle (ToolName : string) (cache : option ClassificationCache) : option ClassificationCache :=
  let toolName := TrimSpace ToolName in
  if bool_decide (toolName = "") then cache
  else if bool_decide (toolName = "*") then InvalidateAll <$> cache
  else (λ c, Invalidate c toolName) <$> cache.

(** What the subscribers of a gateway do with a message; the proxy's cache of tool
    lists, which follows capability changes, is not part of this state. *)
Definition handle_message (m : Broadcast) w : AdminWorld E :=
  match m with
  | RegistrationEvent t id _ => set_reg (SubscriberHandle t id w.(aw_reg)).2 w
  | ClassificationEvent name _ _ _ => set_cache (ClassificationHandle name w.(aw_cache)) w
  | CapabilitiesChanged _ _ _ => w
  end.

(** The messages published since [sent], delivered in order. *)
Definition deliver (bus : Bus) (sent : nat) w : AdminWorld E :=
  match bus with
  | NoopBroadcaster => w
  | SharedBroadcaster => foldl (λ w m, handle_message m w) w (drop sent w.(aw_reg).(w_broadcasts))
  end.
End bus.
