(* ===== verification/AdminAPI.v ===== *)
(** * The integrated admin API: [internal/admin/integrated_api.go]

    One function per handler, from the request to the reply and the new state, and
    [serve_integrated]: the middleware that authenticates the platform, the check
    of the role the route asks for, and the handler. Routes are the values of
    [Endpoint]; matching a path is chi's. A body arrives as text and is decoded as
    [encoding/json] does; the text of a float in [fmt.Sprint] is a parameter. *)

From stdpp Require Import pretty.
From S2P Require Import Prelude GoStrings Encoding GoNet GoFloat Types Store Json GoParse Classification CapIndex Registration RegHandlers AccessStore Routing Search Discovery Document JsonText Codec AdminStore AdminAuth AdminOps.

#[local] Open Scope string_scope.
#[local] Open Scope list_scope.
#[local] Open Scope nat_scope.
#[local] Open Scope go_scope.

(** ** Replies *)

Inductive AdminBody :=
| BError (code : errorCode) (message : string)
| BText (message : string)
| BOk
| BPruned (n : Z)
| BUpdated (n : nat)
| BServers (items : list ServerRecord) (total : nat) (next_cursor : string)
| BServer (item : ServerRecord)
| BTools (items : list ToolClassification) (total : nat) (next_cursor : string)
| BTool (item : ToolClassification)
| BSchema (item : AnnotatedTool)
| BStats (total_tools : nat) (categories : gmap string nat) (full summary : Z) (savings : spec_float)
    (vector_search vector_index engine_errors : Z)
| BUsers (items : list User) (total : nat) (next_cursor : string)
| BAudit (items : list AuditRow) (total : nat) (next_cursor : string)
| BAuditItems (items : list AuditRow)
| BCSV (text : bytes)
| BTuning (engine_type : string) (engine_ready : bool) (indexed_tools : Z) (synonyms : list SynonymEntry)
    (reindex_logs : list ReindexLogEntry)
| BSearch (query : string) (total : nat) (results : list ToolDefinition) (tested_at : string).

Abbreviation Reply := (Z * AdminBody)%type.

Definition refuse (status : Z) (code : errorCode) (message : string) : Reply := (status, BError code message).

(** A request to the API, its query as [Query().Get]. *)
Record IntegratedRequest := mkIntegratedRequest {
  ir_Headers : DelegatedHeaders;
  ir_Query : string → string;
  ir_Accept : string;
  ir_Body : string;
}.

(** ** Bodies *)

(** [json.NewDecoder(r.Body).Decode(&payload)] for a [map\[string\]any]. *)
Definition decode_payload (body : string) : option (list (string * any)) :=
  v ← json_first body; unmarshal d_object v [].

(** [payload\[k\]]. *)
Definition payload_get (m : list (string * any)) (k : string) : any := default ANil (lookup_key m k).

(** A pointer: null makes it nil, a value is decoded into what it points to. *)
Definition d_pointer {N A} (d : decoder_of N A) (zero : A) : decoder_of N (option A) := λ v cur,
  match v with
  | ANil => (None, true)
  | _ => let '(x, ok) := d v (default zero cur) in (Some x, ok)
  end.

Record rateBody := mkRateBody { rb_RateLimit : option Z; rb_RateBurst : option Z }.

Definition rate_fields : list (string * decoder_of string rateBody) := [
  ("rate_limit", field rb_RateLimit (λ x r, mkRateBody x r.(rb_RateBurst)) (d_pointer d_int 0%Z));
  ("rate_burst", field rb_RateBurst (λ x r, mkRateBody r.(rb_RateLimit) x) (d_pointer d_int 0%Z))].

Definition decode_rate `{UnicodeTables} (body : string) : option rateBody :=
  v ← json_first body; unmarshal (d_struct rate_fields) v (mkRateBody None None).

(** [integratedToolUpdateBody]. *)
Record integratedToolUpdateBody := mkToolUpdateBody {
  tu_RiskLevel : string;
  tu_Classification : string;
  tu_Risk : string;
  tu_Reason : string;
}.

Definition tool_update_fields : list (string * decoder_of string integratedToolUpdateBody) := [
  ("risk_level", field tu_RiskLevel (λ x r, mkToolUpdateBody x r.(tu_Classification) r.(tu_Risk) r.(tu_Reason)) d_string);
  ("classification", field tu_Classification (λ x r, mkToolUpdateBody r.(tu_RiskLevel) x r.(tu_Risk) r.(tu_Reason)) d_string);
  ("risk", field tu_Risk (λ x r, mkToolUpdateBody r.(tu_RiskLevel) r.(tu_Classification) x r.(tu_Reason)) d_string);
  ("reason", field tu_Reason (λ x r, mkToolUpdateBody r.(tu_RiskLevel) r.(tu_Classification) r.(tu_Risk) x) d_string)].

Definition decode_tool_update `{UnicodeTables} (body : string) : option integratedToolUpdateBody :=
  v ← json_first body; unmarshal (d_struct tool_update_fields) v (mkToolUpdateBody "" "" "" "").

(** Texts with a space between them. *)
Fixpoint spaced (l : list string) : string :=
  match l with
  | [] => ""
  | [x] => x
  | x :: l' => x +:+ " " +:+ spaced l'
  end.

Definition key_le (p q : string * string) : Prop := String.le p.1 q.1.
#[export] Instance key_le_dec : RelDecision key_le.
Proof. unfold key_le. intros p q. apply _. Defined.

(** The first of some texts that is not blank, trimmed. *)
Fixpoint first_text (l : list string) : string :=
  match l with
  | [] => ""
  | s :: l' => if bool_decide (TrimSpace s = "") then first_text l' else TrimSpace s
  end.

(** [acceptWantsJSON]. *)
Definition acceptWantsJSON `{UnicodeTables} (accept : string) : bool :=
  let accept := ToLower (TrimSpace accept) in
  if bool_decide (accept = "") then false else Contains accept "application/json".

(** The token estimates of the discovery statistics. *)
Definition tokensPerFullDefinition : Z := 170.
Definition tokensPerSummary : Z := 25.

Definition savings_percent (fullTokens summaryTokens : Z) : spec_float :=
  if (0 <? fullTokens)%Z
  then f_mul (f_div (f_of_Z (fullTokens - summaryTokens)) (f_of_Z fullTokens)) (f_of_Z 100)
  else f_zero.

Definition errProgressiveDiscoveryDisabled : string := "progressive discovery is not enabled".

Section api.
Context `{UnicodeTables} `{Postgres} `{PgText} {E : Type} `{SearchEngine E} `{EngineStatus E}.
Context (float_text : spec_float → string) (zone : Z) (details_json : list (string * document) → string).
Context (h : AdminHandler).
Implicit Types w : AdminWorld E.

(** [fmt.Sprint] of a decoded value; maps are printed in the order of their
    keys. *)
Fixpoint Sprint (v : any) : string :=
  match v with
  | ANil => "<nil>"
  | ABool b => if b then "true" else "false"
  | ANum f => float_text f
  | AStr s => s
  | AArr l => "[" +:+ spaced (Sprint <$> l) +:+ "]"
  | AObj m =>
      "map[" +:+ spaced ((λ p, p.1 +:+ ":" +:+ p.2) <$> merge_sort key_le ((λ p, (p.1, Sprint p.2)) <$> m)) +:+ "]"
  end.

(** A handler, and a call in it: [fail] is the reply when the call fails. *)
Abbreviation handler := (AdminWorld E → Reply * AdminWorld E).

Definition call {A} (m : ST (AdminWorld E) A) (fail : error → Reply) (k : A → handler) : handler := λ w,
  match m w with
  | (Ok x, w') => k x w'
  | (Err e, w') => (fail e, w')
  end.

Definition reply (r : Reply) : handler := λ w, (r, w).

(** A call that is left out, with the value [zero], when its store is not set. *)
Definition if_stored {A} (b : bool) (zero : A) (m : ST (AdminWorld E) A) : ST (AdminWorld E) A :=
  if b then m else ret zero.

Definition bad_request (message : string) : handler := reply (refuse 400 errCodeInvalidRequest message).
Definition internal_error (message : string) (_ : error) : Reply := refuse 500 errCodeInternalError message.

(** [len(...)] and the cursor of a page. *)
Definition page_cursor (offset limit : Z) (total : nat) : string := nextCursor offset limit (Z.of_nat total).

(** ** Servers *)

Definition matches_query (query : string) (srv : ServerRecord) : bool :=
  bool_decide (query = "") ||
  Contains (ToLower (TrimSpace srv.(Name))) query || Contains (ToLower (TrimSpace srv.(ID))) query.

(** [HandleIntegratedServers]. *)
Definition HandleIntegratedServers (q : string → string) : handler :=
  match parseLimitOffset q defaultPageSize with
  | inl message => bad_request message
  | inr (limit, offset) =>
      let raw := TrimSpace (q "status") in
      let statusFilter := if bool_decide (raw = "") then None else Some (status_of raw) in
      call (if_stored h.(ah_serverStore) [] (on_registry (ServerList (mkServerFilter statusFilter "" 0 0))))
        (internal_error "failed to list servers")
        (λ servers,
          let results := List.filter (matches_query (ToLower (TrimSpace (q "q")))) servers in
          let total := length results in
          let offset := Z.min offset (Z.of_nat total) in
          reply (200%Z, BServers (window limit offset results) total (page_cursor offset limit total)))
  end.

(** [HandleIntegratedServerDetail]. *)
Definition HandleIntegratedServerDetail (idParam : string) : handler :=
  let id := TrimSpace idParam in
  if bool_decide (id = "") then bad_request "server id is required"
  else if negb h.(ah_serverStore) then reply (refuse 404 errCodeNotFound "server not found")
  else call (on_registry (Get id)) (λ _, refuse 404 errCodeNotFound "server not found")
         (λ record, reply (200%Z, BServer record)).

(** [HandleIntegratedServerDeregister]. *)
Definition HandleIntegratedServerDeregister (actor idParam : string) : handler :=
  let id := TrimSpace idParam in
  if bool_decide (id = "") then bad_request "server id is required"
  else call (deregisterServer h id actor "integrated_api") (internal_error "failed to deregister server")
         (λ _, reply (200%Z, BOk)).

Definition negative (v : option Z) : bool := match v with Some n => (n <? 0)%Z | None => false end.

(** [HandleIntegratedServerRateLimits]. *)
Definition HandleIntegratedServerRateLimits (actor idParam body : string) : handler :=
  let id := TrimSpace idParam in
  if bool_decide (id = "") then bad_request "server id is required"
  else
    match decode_rate body with
    | None => bad_request "invalid JSON body"
    | Some b =>
        if negative b.(rb_RateLimit) then bad_request "invalid rate limit value"
        else if negative b.(rb_RateBurst) then bad_request "invalid rate burst value"
        else if burst_alone b.(rb_RateLimit) b.(rb_RateBurst) then bad_request "rate burst requires rate limit"
        else call (updateServerRateLimit h id b.(rb_RateLimit) b.(rb_RateBurst) actor "integrated_api")
               (internal_error "failed to update server rate limits") (λ _, reply (200%Z, BOk))
    end.

(** [HandleIntegratedServerPrune]. *)
Definition HandleIntegratedServerPrune (actor : string) : handler :=
  call (pruneOrphanedToolClassifications h actor "integrated_api")
    (λ e, if bool_decide (e = nil_dereference) then (500%Z, BText "Internal Server Error")
          else refuse 500 errCodeInternalError "failed to prune orphaned tools")
    (λ pruned, reply (200%Z, BPruned pruned)).

(** ** Tools *)

(** [HandleIntegratedTools]. *)
Definition HandleIntegratedTools (q : string → string) : handler :=
  match parseLimitOffset q defaultPageSize with
  | inl message => bad_request message
  | inr (limit, offset) =>
      let filter := mkToolFilter (TrimSpace (q "q")) (risk_of (first_text [q "classification"; q "risk"])) limit offset in
      call (if_stored h.(ah_classificationStore) ([], 0) (on_registry (ClassificationSearch filter)))
        (internal_error "failed to list tools")
        (λ r, reply (200%Z, BTools r.1 r.2 (page_cursor offset limit r.2)))
  end.

(** [HandleIntegratedToolDetail]. *)
Definition unknown_tool (id : string) : ToolClassification :=
  mkToolClassification id RiskUnknown "" false "" zero_time.

Definition HandleIntegratedToolDetail (idParam : string) : handler :=
  let id := TrimSpace idParam in
  if bool_decide (id = "") then bad_request "tool id is required"
  else call (attempt (if_stored h.(ah_classificationStore) None (on_registry (ClassificationGet id))))
         (internal_error "")
         (λ r, reply (200%Z, BTool (match r with Ok (Some tool) => tool | _ => unknown_tool id end))).

(** [handleIntegratedToolMutation]: [HandleIntegratedToolClassification] and
    [HandleIntegratedToolUpdate]. *)
Definition handleIntegratedToolMutation (actor idParam body : string) : handler :=
  let id := TrimSpace idParam in
  if bool_decide (id = "") then bad_request "tool id is required"
  else
    match decode_tool_update body with
    | None => bad_request "invalid JSON body"
    | Some b =>
        match risk_of (first_text [b.(tu_RiskLevel); b.(tu_Classification); b.(tu_Risk)]) with
        | None => bad_request "invalid risk level"
        | Some riskLevel =>
            call (upsertToolClassification h id riskLevel (TrimSpace b.(tu_Reason)) actor "integrated_api")
              (internal_error "failed to update tool classification") (λ _, reply (200%Z, BOk))
        end
    end.

(** The discovery index, when progressive discovery is on. *)
Definition progressive w : option (DiscoveryIndex E) :=
  if h.(ah_progressiveDiscovery) then w.(aw_discovery) else None.

(** [HandleIntegratedToolSchema]. *)
Definition HandleIntegratedToolSchema (idParam : string) : handler := λ w,
  match progressive w with
  | None => reply (refuse 501 errCodeInvalidRequest errProgressiveDiscoveryDisabled) w
  | Some index =>
      let name := TrimSpace idParam in
      if bool_decide (name = "") then bad_request "tool id is required" w
      else match GetTools [name] index with
           | [] => reply (refuse 404 errCodeNotFound "tool not found") w
           | tool :: _ => reply (200%Z, BSchema tool) w
           end
  end.

(** [HandleIntegratedToolDiscoveryStats]. *)
Definition HandleIntegratedToolDiscoveryStats : handler := λ w,
  match progressive w with
  | None => reply (refuse 501 errCodeInvalidRequest errProgressiveDiscoveryDisabled) w
  | Some index =>
      let '(total, categories) := Stats index in
      let fullTokens := (Z.of_nat total * tokensPerFullDefinition)%Z in
      let summaryTokens := (Z.of_nat total * tokensPerSummary)%Z in
      let counter (f : E → option Z) := default 0%Z (index.(di_engine) ≫= f) in
      reply (200%Z, BStats total categories fullTokens summaryTokens (savings_percent fullTokens summaryTokens)
        (counter engine_VectorSearchFallbacks) (counter engine_VectorIndexFallbacks) index.(di_fallbacks)) w
  end.

(** ** Users *)

(** [HandleIntegratedUsers]. *)
Definition HandleIntegratedUsers (q : string → string) : handler :=
  match parseLimitOffset q defaultPageSize with
  | inl message => bad_request message
  | inr (limit, offset) => λ w,
      let filter := mkUserFilter (TrimSpace (q "q")) (role_of (TrimSpace (q "role"))) limit offset in
      let '((items, total), w) := searchUsers h filter w in
      reply (200%Z, BUsers items total (page_cursor offset limit total)) w
  end.

(** [collect] in [HandleIntegratedUserPermissions]. *)
Definition collect (value : any) : list string :=
  match value with
  | AArr l => List.filter (λ s, negb (bool_decide (s = ""))) ((λ item, TrimSpace (Sprint item)) <$> l)
  | _ => []
  end.

Definition permission_names (payload : list (string * any)) : list string :=
  collect (payload_get payload "tool_names") ++ collect (payload_get payload "tools") ++
  collect (payload_get payload "permissions").

(** [HandleIntegratedUserPermissions]. *)
Definition HandleIntegratedUserPermissions (actor idParam body : string) : handler :=
  let id := TrimSpace idParam in
  if bool_decide (id = "") then bad_request "user id is required"
  else
    match decode_payload body with
    | None => bad_request "invalid JSON body"
    | Some payload =>
        call (replaceUserToolPermissions h id (Some (permission_names payload)) actor "integrated_api")
          (internal_error "failed to update user permissions") (λ _, reply (200%Z, BOk))
    end.

(** ** The audit log *)

(** [HandleIntegratedAuditQuery]. *)
Definition HandleIntegratedAuditQuery (q : string → string) : handler :=
  match parseLimitOffset q defaultPageSize with
  | inl message => bad_request message
  | inr (limit, offset) =>
      let filter := with_window limit offset (buildIntegratedAuditFilter q) in
      call (if_stored h.(ah_auditStore) [] (on_admin (AuditQuery filter)))
        (internal_error "failed to query audit entries")
        (λ entries,
          call (if_stored h.(ah_auditStore) 0 (on_admin (AuditCount filter)))
            (internal_error "failed to count audit entries")
            (λ total, reply (200%Z, BAudit entries total (page_cursor offset limit total))))
  end.

(** [HandleIntegratedAuditExport]. *)
Definition HandleIntegratedAuditExport (q : string → string) (accept : string) : handler :=
  let filter := with_window 10000 0 (buildIntegratedAuditFilter q) in
  call (if_stored h.(ah_auditStore) [] (on_admin (AuditQuery filter)))
    (internal_error "failed to export audit entries")
    (λ entries,
      reply (200%Z, if acceptWantsJSON accept then BAuditItems entries
                    else BCSV (writeAuditCSV zone details_json entries))).

(** ** Search tuning *)

(** The engine as the handlers report it: type, readiness, number of tools. *)
Definition search_state w : string * bool * Z :=
  let engineType := if bool_decide (h.(ah_searchEngineType) = "") then "substring" else h.(ah_searchEngineType) in
  match h.(ah_searchStatus), w.(aw_discovery) with
  | Some status, _ =>
      (if bool_decide (TrimSpace status.(st_EngineType) = "") then engineType else status.(st_EngineType),
       status.(st_EngineReady), status.(st_IndexedTools))
  | None, Some index =>
      (engineType, match index.(di_engine) with Some e => engine_Ready e | None => true end, Z.of_nat (Stats index).1)
  | None, None => (engineType, true, 0%Z)
  end.

(** [HandleIntegratedSearchTuningGet]. *)
Definition HandleIntegratedSearchTuningGet : handler := λ w,
  let '(engineType, engineReady, indexedTools) := search_state w in
  call (if_stored h.(ah_synonymStore) [] (on_admin SynonymList)) (internal_error "failed to list search tuning")
    (λ synonyms,
      call (if_stored h.(ah_reindexLogStore) [] (on_admin (ReindexRecent 10)))
        (internal_error "failed to read search tuning logs")
        (λ logs, reply (200%Z, BTuning engineType engineReady indexedTools synonyms logs))) w.

(** [parseSynonymsPayload] of a decoded value. *)
Definition parseSynonymsPayload (value : any) : list string :=
  match value with
  | AStr s => parseSynonymList s
  | AArr l => List.filter (λ s, negb (bool_decide (s = ""))) ((λ item, ToLower (TrimSpace (Sprint item))) <$> l)
  | _ => []
  end.

(** A term with its synonyms; [None] when one is missing. *)
Definition synonym_update (term synonyms : any) : option (string * list string) :=
  let term := ToLower (TrimSpace (Sprint term)) in
  match parseSynonymsPayload synonyms with
  | [] => None
  | l => if bool_decide (term = "") then None else Some (term, l)
  end.

(** The updates of the lists of the payload; the others are skipped. *)
Definition entry_update (v : any) : option (string * list string) :=
  match v with
  | AObj m => synonym_update (payload_get m "term") (payload_get m "synonyms")
  | _ => None
  end.

Definition list_updates (payload : list (string * any)) : list (string * list string) :=
  mjoin ((λ key, match payload_get payload key with AArr l => omap entry_update l | _ => [] end)
    <$> ["items"; "entries"; "synonyms"]).

Definition upsert_all (l : list (string * list string)) : ST (AdminWorld E) () :=
  for_each (λ p, on_admin (SynonymUpsert p.1 p.2)) l.

(** [HandleIntegratedSearchTuningUpdate]. *)
Definition HandleIntegratedSearchTuningUpdate (body : string) : handler :=
  if negb h.(ah_synonymStore) then reply (refuse 503 errCodeInternalError "synonym store is not configured")
  else
    match decode_payload body with
    | None => bad_request "invalid JSON body"
    | Some payload =>
        match lookup_key payload "term", synonym_update (payload_get payload "term") (payload_get payload "synonyms") with
        | Some _, None => bad_request "term and synonyms are required"
        | termRaw, first =>
            let updates := match termRaw, first with Some _, Some u => [u] | _, _ => [] end ++ list_updates payload in
            call (upsert_all updates) (internal_error "failed to update search tuning")
              (λ _, match updates with
                    | [] => bad_request "no valid search tuning updates provided"
                    | _ => reply (200%Z, BUpdated (length updates))
                    end)
        end
    end.

(** [HandleIntegratedSearchTuningTest]. *)
Definition HandleIntegratedSearchTuningTest (body : string) : handler := λ w,
  match w.(aw_discovery) with
  | None => reply (refuse 503 errCodeInternalError "discovery index is not available") w
  | Some index =>
      match decode_payload body with
      | None => bad_request "invalid JSON body" w
      | Some payload =>
          let query := TrimSpace (Sprint (payload_get payload "query")) in
          if bool_decide (query = "") then bad_request "query is required" w
          else
            let '((results, total), index) := DiscoverySearch query "" 0 20 index in
            reply (200%Z, BSearch query total results (FormatRFC3339 false 0 (aw_now w))) (set_discovery (Some index) w)
      end
  end.

(** ** Routes *)

(** The endpoints of [newIntegratedRouter]. *)
Inductive Endpoint :=
| GetServers | GetServer (id : string) | PostDeregister (id : string) | PutRateLimits (id : string) | PostPrune
| GetToolList | GetTool (id : string) | PutTool (id : string) | PutClassification (id : string)
| GetSchema (id : string) | GetDiscoveryStats
| GetUsers | PutPermissions (id : string)
| GetAudit | GetAuditExport
| GetSearchTuning | PutSearchTuning | PostSearchTest.

Definition endpoint_role (e : Endpoint) : string :=
  match e with
  | PostDeregister _ | PostPrune | PutPermissions _ => "admin"
  | PutRateLimits _ | PutTool _ | PutClassification _ | PutSearchTuning => "editor"
  | _ => "viewer"
  end.

Definition endpoint_handler (e : Endpoint) (actor : string) (r : IntegratedRequest) : handler :=
  match e with
  | GetServers => HandleIntegratedServers r.(ir_Query)
  | GetServer id => HandleIntegratedServerDetail id
  | PostDeregister id => HandleIntegratedServerDeregister actor id
  | PutRateLimits id => HandleIntegratedServerRateLimits actor id r.(ir_Body)
  | PostPrune => HandleIntegratedServerPrune actor
  | GetToolList => HandleIntegratedTools r.(ir_Query)
  | GetTool id => HandleIntegratedToolDetail id
  | PutTool id | PutClassification id => handleIntegratedToolMutation actor id r.(ir_Body)
  | GetSchema id => HandleIntegratedToolSchema id
  | GetDiscoveryStats => HandleIntegratedToolDiscoveryStats
  | GetUsers => HandleIntegratedUsers r.(ir_Query)
  | PutPermissions id => HandleIntegratedUserPermissions actor id r.(ir_Body)
  | GetAudit => HandleIntegratedAuditQuery r.(ir_Query)
  | GetAuditExport => HandleIntegratedAuditExport r.(ir_Query) r.(ir_Accept)
  | GetSearchTuning => HandleIntegratedSearchTuningGet
  | PutSearchTuning => HandleIntegratedSearchTuningUpdate r.(ir_Body)
  | PostSearchTest => HandleIntegratedSearchTuningTest r.(ir_Body)
  end.

(** Where chi sends a request: outside the API, to the API without an endpoint of
    that path or method, or to an endpoint. *)
Inductive AdminRoute := Outside | NoEndpoint | NoMethod | At (e : Endpoint).

Definition integratedManagedMessage : string := "Admin UI is managed by Cruvero Platform".

Definition denial (d : denied) : Reply := refuse d.1.1 d.1.2 d.2.

(** [newIntegratedRouter]. *)
Definition serve_integrated (platformServiceToken : string) (route : AdminRoute) (r : IntegratedRequest) : handler :=
  match route with
  | Outside => reply (403%Z, BText integratedManagedMessage)
  | _ =>
      match IntegratedDelegatedAuthMiddleware platformServiceToken r.(ir_Headers) with
      | inl d => reply (denial d)
      | inr identity =>
          match route with
          | At e =>
              match RequireGatewayRole (endpoint_role e) identity with
              | Some d => reply (denial d)
              | None => endpoint_handler e (delegatedActor identity) r
              end
          | NoMethod => reply (refuse 405 errCodeMethodNotAllowed "method not allowed")
          | _ => reply (refuse 404 errCodeNotFound "admin API endpoint not found")
          end
      end
  end.

End api.
