(* ===== verification/Dashboard.v ===== *)
(** * The admin dashboard: [internal/admin/handler.go], [handler_users.go],
    [handler_search.go], [tools_browser.go]

    The handlers behind the session and the CSRF check of [AdminAuth], from the
    form, the query and the session to the page or the redirect, and the new
    state. Templates are not modelled: a page is the data it is rendered from.
    [serve_dashboard] puts the middleware in front of a handler. *)

From stdpp Require Import pretty.
From S2P Require Import Prelude GoStrings Encoding GoNet GoFloat Types Store Json GoParse Classification CapIndex Registration RegHandlers AccessStore Routing Search Discovery Document JsonText Codec AdminStore AdminAuth AdminOps AdminAPI.

#[local] Open Scope string_scope.
#[local] Open Scope list_scope.
#[local] Open Scope nat_scope.
#[local] Open Scope go_scope.

(** ** Pages *)

(** [toolEntry] of [HandleUserDetail]. *)
Record toolEntry := mkToolEntry { te_Name : string; te_RiskLevel : string; te_Server : string }.

(** What [HandleSearch] shows of the engine. *)
Record SearchView := mkSearchView {
  sv_EngineType : string;
  sv_EngineReady : bool;
  sv_IndexedTools : Z;
  sv_EmbedderType : string;
  sv_VectorReady : option bool;
  sv_VectorSearchFallbacks : Z;
  sv_VectorIndexFallbacks : Z;
  sv_EngineErrorFallbacks : Z;
}.

Inductive Page :=
| PDashboard (serverCount toolCount userCount auditCount : nat)
| PTools (tools : list ToolClassification) (query riskFilter : string)
| PToolEdit (tool : ToolClassification)
| PAudit (entries : list AuditRow) (filter : AuditFilter) (since until : string)
| PServers (servers : list ServerRecord)
| PServerRateLimit (server : ServerRecord)
| PUsers (users : list User) (query roleFilter : string)
| PUserDetail (user : User) (permissions : list UserToolPermission)
    (allowed available : gmap string (list toolEntry))
| PSearch (view : SearchView) (synonyms : list SynonymEntry) (logs : list ReindexLogEntry)
| PSynonyms (synonyms : list SynonymEntry).

Inductive DashboardReply :=
| Redirect (location : string)
| Failure (status : Z) (message : string)
| ErrorPage (status : Z) (message : string)
| Render (p : Page)
| RenderList (p : Page) (totalPages : Z) (pageNumbers : list Z) (currentPage : Z)
| Attachment (text : bytes)
| JsonError (status : Z) (message : string)
| JsonTools (tools : list ToolDefinition) (total : nat) (page perPage : Z)
| JsonTool (tool : AnnotatedTool)
| JsonStats (total : nat) (categories : gmap string nat) (full summary : Z) (savings : spec_float).

(** [renderListPage]. *)
Definition renderListPage (total : nat) (page : Z) (p : Page) : DashboardReply :=
  let '(totalPages, pageNumbers) := pagination total defaultPageSize in RenderList p totalPages pageNumbers page.

(** [parseIntParam]. *)
Definition parseIntParam (q : string → string) (key : string) (defaultVal : Z) : Z :=
  match Atoi (TrimSpace (q key)) with
  | Some n => if (n <=? 0)%Z then defaultVal else n
  | None => defaultVal
  end.

(** Grouping by server, in the order of the tools. *)
Definition add_entry (m : gmap string (list toolEntry)) (e : toolEntry) : gmap string (list toolEntry) :=
  <[e.(te_Server) := default [] (m !! e.(te_Server)) ++ [e]]> m.

(** The entry of a classified tool. *)
Definition classified_entry (tc : ToolClassification) : toolEntry :=
  let '(server, tool) := splitFederatedName tc.(tc_ToolName) in
  mkToolEntry tc.(tc_ToolName) (RiskLevel_String tc.(tc_RiskLevel)) (if bool_decide (tool = "") then "other" else server).

(** The entry of a permission for a tool that is no longer classified. *)
Definition offline_entry (p : UserToolPermission) : toolEntry :=
  let server := (splitFederatedName p.(up_ToolName)).1 in
  mkToolEntry p.(up_ToolName) "offline" (if bool_decide (server = "") then "other" else server).

(** The two panels of [HandleUserDetail]. *)
Definition allowed_entries (perms : list UserToolPermission) (tools : list ToolClassification) : list toolEntry :=
  (classified_entry <$> List.filter (λ tc, bool_decide (tc.(tc_ToolName) ∈ (up_ToolName <$> perms))) tools) ++
  (offline_entry <$> List.filter (λ p, negb (bool_decide (p.(up_ToolName) ∈ (tc_ToolName <$> tools)))) perms).
Definition available_entries (perms : list UserToolPermission) (tools : list ToolClassification) : list toolEntry :=
  classified_entry <$> List.filter (λ tc, negb (bool_decide (tc.(tc_ToolName) ∈ (up_ToolName <$> perms)))) tools.

(** A request behind the middleware: [rq_Names] is the form field [tool_names],
    [None] when it is absent; [None] as the whole when the form does not parse. *)
Record AdminRequest := mkAdminRequest {
  rq_Query : string → string;
  rq_Form : string → string;
  rq_Names : option (option (list string));
}.

Section dashboard.
Context `{UnicodeTables} `{Postgres} `{PgText} {E : Type} `{SearchEngine E} `{EngineStatus E}.
Context (zone : Z) (details_json : list (string * document) → string).
Context (h : AdminHandler).
Implicit Types w : AdminWorld E.

Abbreviation page_handler := (AdminWorld E → DashboardReply * AdminWorld E).

Definition show (r : DashboardReply) : page_handler := λ w, (r, w).

(** A call whose error is only logged: [zero] stands for its result. *)
Definition or_else {A} (zero : A) (m : ST (AdminWorld E) A) : AdminWorld E → A * AdminWorld E := λ w,
  match m w with
  | (Ok x, w') => (x, w')
  | (Err _, w') => (zero, w')
  end.

(** A call whose error ends the handler. *)
Definition do_or {A} (fail : DashboardReply) (m : ST (AdminWorld E) A) (k : A → page_handler) : page_handler := λ w,
  match m w with
  | (Ok x, w') => k x w'
  | (Err _, w') => (fail, w')
  end.

Definition stored {A} (b : bool) (zero : A) (m : ST (AdminWorld E) A) : AdminWorld E → A * AdminWorld E :=
  or_else zero (if_stored b zero m).

(** ** Pages that read *)

(** [HandleDashboard]. *)
Definition HandleDashboard : page_handler := λ w,
  let '(servers, w) := stored h.(ah_serverStore) [] (on_registry (ServerList (mkServerFilter (Some StatusActive) "" 0 0))) w in
  let '(tools, w) := stored h.(ah_classificationStore) [] (on_registry ClassificationGetAll) w in
  let '(users, w) := stored h.(ah_userStore) ([], 0) (on_access (UserSearch (mkUserFilter "" None 1 0))) w in
  let since := (aw_now w - 1440 * minute)%Z in
  let '(entries, w) := stored h.(ah_auditStore) []
    (on_admin (AuditQuery (mkAuditFilter "" "" "" "" "" "" "" (Some since) None 0 0))) w in
  show (Render (PDashboard (length servers) (length tools) users.2 (length entries))) w.

(** [HandleTools]. *)
Definition HandleTools (q : string → string) : page_handler := λ w,
  let query := TrimSpace (q "q") in
  let riskFilter := TrimSpace (q "risk") in
  let page := parsePage q in
  let filter := mkToolFilter query (risk_of riskFilter) defaultPageSize (page_offset page) in
  let '(r, w) := stored h.(ah_classificationStore) ([], 0) (on_registry (ClassificationSearch filter)) w in
  show (renderListPage r.2 page (PTools r.1 query riskFilter)) w.

(** [HandleToolEdit]. *)
Definition HandleToolEdit (name : string) : page_handler := λ w,
  if bool_decide (TrimSpace name = "") then show (ErrorPage 400 "A tool name is required to load the editor.") w
  else
    let '(found, w) := stored h.(ah_classificationStore) None (on_registry (ClassificationGet name)) w in
    show (Render (PToolEdit (default (unknown_tool name) found))) w.

(** [HandleAudit]. *)
Definition HandleAudit (q : string → string) : page_handler := λ w,
  let page := parsePage q in
  let filter := with_window defaultPageSize (page_offset page) (buildAuditFilter q) in
  let '(entries, w) := stored h.(ah_auditStore) [] (on_admin (AuditQuery filter)) w in
  let '(total, w) := stored h.(ah_auditStore) 0 (on_admin (AuditCount filter)) w in
  show (renderListPage total page (PAudit entries filter (q "since") (q "until"))) w.

(** [HandleAuditExport]. *)
Definition HandleAuditExport (q : string → string) : page_handler := λ w,
  let filter := with_window 10000 0 (buildAuditFilter q) in
  let '(entries, w) := stored h.(ah_auditStore) [] (on_admin (AuditQuery filter)) w in
  show (Attachment (writeAuditCSV zone details_json entries)) w.

(** [HandleServers]. *)
Definition HandleServers : page_handler := λ w,
  let '(servers, w) := stored h.(ah_serverStore) [] (on_registry (ServerList (mkServerFilter None "" 0 0))) w in
  show (Render (PServers servers)) w.

(** [HandleServerRateLimitEdit]. *)
Definition HandleServerRateLimitEdit (id : string) : page_handler :=
  let missing := ErrorPage 404 "The requested server could not be found." in
  if bool_decide (TrimSpace id = "") then show (ErrorPage 400 "A server ID is required to load rate limit settings.")
  else if negb h.(ah_serverStore) then show missing
  else do_or missing (on_registry (Get id)) (λ server, show (Render (PServerRateLimit server))).

(** [HandleUsers]. *)
Definition HandleUsers (q : string → string) : page_handler := λ w,
  let page := parsePage q in
  let filter := buildUserFilter q page in
  let '((users, total), w) := searchUsers h filter w in
  show (renderListPage total page
    (PUsers users filter.(uf_Query) (match filter.(uf_Role) with Some r => UserRole_String r | None => "" end))) w.

(** [HandleUserDetail]. *)
Definition HandleUserDetail (id : string) : page_handler :=
  if bool_decide (TrimSpace id = "") then show (ErrorPage 400 "A user ID is required.")
  else if negb h.(ah_userStore) then show (ErrorPage 500 "User store is not configured.")
  else
    do_or (ErrorPage 500 "Failed to load user.") (on_access (UserGet id))
      (λ found, match found with
                | None => show (ErrorPage 404 "The requested user could not be found.")
                | Some user => λ w,
                    let '(perms, w) := or_else [] (on_access (GetToolPermissions user.(u_ID))) w in
                    let '(tools, w) := stored h.(ah_classificationStore) [] (on_registry ClassificationGetAll) w in
                    show (Render (PUserDetail user perms (foldl add_entry ∅ (allowed_entries perms tools))
                                    (foldl add_entry ∅ (available_entries perms tools)))) w
                end).

(** ** Pages of the search *)

Definition search_view w : SearchView :=
  let '(engineType, ready, indexed) := search_state h w in
  match h.(ah_searchStatus), w.(aw_discovery) with
  | Some status, _ =>
      mkSearchView engineType ready indexed
        (if bool_decide (TrimSpace status.(st_EmbedderType) = "") then h.(ah_embedderType) else status.(st_EmbedderType))
        status.(st_VectorReady) status.(st_VectorSearchFallbacks) status.(st_VectorIndexFallbacks)
        status.(st_EngineErrorFallbacks)
  | None, Some index =>
      let vector := index.(di_engine) ≫= engine_VectorReady in
      mkSearchView engineType (ready && default true vector) indexed h.(ah_embedderType) vector
        (default 0%Z (index.(di_engine) ≫= engine_VectorSearchFallbacks))
        (default 0%Z (index.(di_engine) ≫= engine_VectorIndexFallbacks)) index.(di_fallbacks)
  | None, None => mkSearchView engineType ready indexed h.(ah_embedderType) None 0 0 0
  end.

(** [HandleSearch]. *)
Definition HandleSearch : page_handler := λ w,
  let view := search_view w in
  let '(synonyms, w) := stored h.(ah_synonymStore) [] (on_admin SynonymList) w in
  let '(logs, w) := stored h.(ah_reindexLogStore) [] (on_admin (ReindexRecent 10)) w in
  show (Render (PSearch view synonyms logs)) w.

(** [HandleSynonymList]. *)
Definition HandleSynonymList : page_handler := λ w,
  let '(synonyms, w) := stored h.(ah_synonymStore) [] (on_admin SynonymList) w in
  show (Render (PSynonyms synonyms)) w.

(** [HandleSynonymCreate]. *)
Definition HandleSynonymCreate (r : AdminRequest) : page_handler :=
  if negb h.(ah_synonymStore) then show (Failure 503 "synonym store not available")
  else
    let term := TrimSpace (r.(rq_Form) "term") in
    let synonymsRaw := TrimSpace (r.(rq_Form) "synonyms") in
    if bool_decide (term = "") || bool_decide (synonymsRaw = "")
    then show (Failure 400 "term and synonyms are required")
    else do_or (Failure 500 "failed to save synonym")
           (on_admin (SynonymUpsert (ToLower term) (parseSynonymList synonymsRaw))) (λ _, HandleSynonymList).

(** [HandleSynonymDelete]. *)
Definition HandleSynonymDelete (term : string) : page_handler :=
  if negb h.(ah_synonymStore) then show (Failure 503 "synonym store not available")
  else if bool_decide (term = "") then show (Failure 400 "term is required")
  else do_or (Failure 500 "failed to delete synonym") (on_admin (SynonymDelete term)) (λ _, HandleSynonymList).

(** [HandleToolBrowse]. *)
Definition HandleToolBrowse (q : string → string) : page_handler := λ w,
  match progressive h w with
  | None => show (JsonError 501 errProgressiveDiscoveryDisabled) w
  | Some index =>
      let query := TrimSpace (q "q") in
      let category := TrimSpace (q "category") in
      let page := Z.min 10000 (parseIntParam q "page" 1) in
      let perPage := Z.min 100 (parseIntParam q "per_page" 50) in
      let offset := ((page - 1) * perPage)%Z in
      if bool_decide (query = "") then
        let '(results, total) := Browse category offset perPage index in
        show (JsonTools results total page perPage) w
      else
        let '((results, total), index) := DiscoverySearch query category offset perPage index in
        show (JsonTools results total page perPage) (set_discovery (Some index) w)
  end.

(** [HandleToolSchema]. *)
Definition HandleToolSchema (nameParam : string) : page_handler := λ w,
  match progressive h w with
  | None => show (JsonError 501 errProgressiveDiscoveryDisabled) w
  | Some index =>
      let name := TrimSpace nameParam in
      if bool_decide (name = "") then show (JsonError 400 "tool name is required") w
      else match GetTools [name] index with
           | [] => show (JsonError 404 "tool not found") w
           | tool :: _ => show (JsonTool tool) w
           end
  end.

(** [HandleDiscoveryStats]. *)
Definition HandleDiscoveryStats : page_handler := λ w,
  match progressive h w with
  | None => show (JsonError 501 errProgressiveDiscoveryDisabled) w
  | Some index =>
      let '(total, categories) := Stats index in
      let fullTokens := (Z.of_nat total * tokensPerFullDefinition)%Z in
      let summaryTokens := (Z.of_nat total * tokensPerSummary)%Z in
      show (JsonStats total categories fullTokens summaryTokens (savings_percent fullTokens summaryTokens)) w
  end.

(** ** Pages that change something *)

(** The name a change is attributed to. *)
Definition session_actor (session : option AdminSession) : string :=
  match session with Some s => s.(as_Email) | None => "admin" end.

(** [HandleToolUpdate]. *)
Definition HandleToolUpdate (session : option AdminSession) (name : string) (r : AdminRequest) : page_handler :=
  if bool_decide (TrimSpace name = "") then show (Failure 400 "tool name required")
  else
    match risk_of (TrimSpace (r.(rq_Form) "risk_level")) with
    | None => show (Failure 400 "invalid risk level")
    | Some riskLevel =>
        do_or (Failure 500 "failed to save classification")
          (upsertToolClassification h name riskLevel (TrimSpace (r.(rq_Form) "reason")) (session_actor session) "admin_dashboard")
          (λ _, show (Redirect "/admin/tools"))
    end.

(** [HandleServerRateLimitUpdate]. *)
Definition HandleServerRateLimitUpdate (session : option AdminSession) (id : string) (r : AdminRequest) : page_handler :=
  if bool_decide (TrimSpace id = "") then show (Failure 400 "server ID required")
  else
    match parseRateLimitFormValues (r.(rq_Form) "rate_limit") (r.(rq_Form) "rate_burst") with
    | inl message => show (Failure 400 message)
    | inr (rateLimit, rateBurst) =>
        do_or (Failure 500 "failed to update rate limit")
          (updateServerRateLimit h id rateLimit rateBurst (session_actor session) "admin_dashboard")
          (λ _, show (Redirect "/admin/servers"))
    end.

(** [HandleServerDeregister]. *)
Definition HandleServerDeregister (session : option AdminSession) (id : string) : page_handler :=
  if bool_decide (TrimSpace id = "") then show (Failure 400 "server ID required")
  else do_or (Failure 500 "failed to deregister server") (deregisterServer h id (session_actor session) "admin_dashboard")
         (λ _, show (Redirect "/admin/servers")).

(** [HandlePruneOrphanedTools]. *)
Definition HandlePruneOrphanedTools (session : option AdminSession) : page_handler :=
  if negb h.(ah_serverStore) || negb h.(ah_classificationStore) then show (Redirect "/admin/servers")
  else do_or (Failure 500 "failed to prune orphaned tools")
         (pruneOrphanedToolClassifications h (session_actor session) "admin_dashboard")
         (λ _, show (Redirect "/admin/servers")).

(** [HandleUserRoleUpdate]. *)
Definition HandleUserRoleUpdate (session : option AdminSession) (id : string) (r : AdminRequest) : page_handler :=
  if bool_decide (TrimSpace id = "") then show (Failure 400 "user ID required")
  else
    match role_of (TrimSpace (r.(rq_Form) "role")) with
    | None => show (Failure 400 "invalid role")
    | Some role =>
        if negb h.(ah_userStore) then show (Failure 500 "user store not configured")
        else λ w,
          let '(user, w) := or_else None (on_access (UserGet id)) w in
          do_or (Failure 500 "failed to update role") (on_access (UpdateRole (aw_now w) id role))
            (λ _, do_or (Failure 500 "failed to update role")
               (log_audit h "user.role_changed" (session_actor session) id
                 [("email", AStr (match user with Some u => u.(u_Email) | None => "" end));
                  ("new_role", AStr (UserRole_String role));
                  ("old_role", AStr (match user with Some u => UserRole_String u.(u_Role) | None => "" end));
                  ("user_id", AStr id)])
               (λ _, show (Redirect ("/admin/users/" +:+ id)))) w
    end.

(** [HandleUserPermissionsUpdate]. *)
Definition HandleUserPermissionsUpdate (session : option AdminSession) (id : string) (r : AdminRequest) : page_handler :=
  if bool_decide (TrimSpace id = "") then show (Failure 400 "user ID required")
  else
    match r.(rq_Names) with
    | None => show (Failure 400 "invalid form data")
    | Some toolNames =>
        if negb h.(ah_userStore) then show (Failure 500 "user store not configured")
        else do_or (Failure 500 "failed to update permissions")
               (replaceUserToolPermissions h id toolNames (session_actor session) "admin_dashboard")
               (λ _, show (Redirect ("/admin/users/" +:+ id)))
    end.

(** The names after tools are added: those of the map [merged]. *)
Definition merged_names (existing : list UserToolPermission) (newTools : list string) : list string :=
  remove_dups ((up_ToolName <$> existing) ++ (TrimSpace <$> newTools)).

(** The names after tools are removed. *)
Definition remaining_names (existing : list UserToolPermission) (removeTools : list string) : list string :=
  List.filter (λ n, negb (bool_decide (n ∈ (TrimSpace <$> removeTools)))) (up_ToolName <$> existing).

(** [HandleUserToolsAdd] and [HandleUserToolsRemove]: the names that stay, the
    event and the key of the actor are what they differ in. *)
Definition change_tools (names : list UserToolPermission → list string → list string) (event byKey : string)
    (session : option AdminSession) (id : string) (r : AdminRequest) : page_handler :=
  if bool_decide (TrimSpace id = "") then show (Failure 400 "user ID required")
  else
    match r.(rq_Names) with
    | None => show (Failure 400 "invalid form data")
    | Some tools =>
        if negb h.(ah_userStore) then show (Failure 500 "user store not configured")
        else
          do_or (Failure 500 "failed to read current permissions") (on_access (GetToolPermissions id))
            (λ existing w,
              let actor := session_actor session in
              do_or (Failure 500 "failed to update permissions")
                (on_access (SetToolPermissions (aw_now w) id (names existing (default [] tools)) actor) ;;
                 log_audit h event actor id [(byKey, AStr actor); ("tools", text_list tools); ("user_id", AStr id)])
                (λ _, show (Redirect ("/admin/users/" +:+ id))) w)
    end.

Definition HandleUserToolsAdd := change_tools merged_names "user.tools_granted" "granted_by".
Definition HandleUserToolsRemove := change_tools remaining_names "user.tools_revoked" "revoked_by".

(** ** Routes *)

(** The routes of [NewRouter] behind the session, those modelled; the rate limit
    page and the search test only read. *)
Inductive DashboardRoute :=
| RDashboard | RTools | RBrowse | RStats | RToolEdit (name : string) | RToolSchema (name : string)
| RToolUpdate (name : string) | RAudit | RAuditExport | RUsers | RUserDetail (id : string)
| RUserRole (id : string) | RUserPermissions (id : string) | RToolsAdd (id : string) | RToolsRemove (id : string)
| RSearch | RSynonyms | RSynonymCreate | RSynonymDelete (term : string)
| RServers | RServerRateEdit (id : string) | RServerRateUpdate (id : string) | RPruneTools | RDeregister (id : string).

(** The method a route is registered with. *)
Definition route_method (r : DashboardRoute) : string :=
  match r with
  | RToolUpdate _ | RUserRole _ | RUserPermissions _ | RToolsAdd _ | RToolsRemove _ | RSynonymCreate
  | RSynonymDelete _ | RServerRateUpdate _ | RPruneTools | RDeregister _ => "POST"
  | _ => "GET"
  end.

Definition dashboard_handler (route : DashboardRoute) (s : option AdminSession) (r : AdminRequest) : page_handler :=
  match route with
  | RDashboard => HandleDashboard
  | RTools => HandleTools r.(rq_Query)
  | RBrowse => HandleToolBrowse r.(rq_Query)
  | RStats => HandleDiscoveryStats
  | RToolEdit name => HandleToolEdit name
  | RToolSchema name => HandleToolSchema name
  | RToolUpdate name => HandleToolUpdate s name r
  | RAudit => HandleAudit r.(rq_Query)
  | RAuditExport => HandleAuditExport r.(rq_Query)
  | RUsers => HandleUsers r.(rq_Query)
  | RUserDetail id => HandleUserDetail id
  | RUserRole id => HandleUserRoleUpdate s id r
  | RUserPermissions id => HandleUserPermissionsUpdate s id r
  | RToolsAdd id => HandleUserToolsAdd s id r
  | RToolsRemove id => HandleUserToolsRemove s id r
  | RSearch => HandleSearch
  | RSynonyms => HandleSynonymList
  | RSynonymCreate => HandleSynonymCreate r
  | RSynonymDelete term => HandleSynonymDelete term
  | RServers => HandleServers
  | RServerRateEdit id => HandleServerRateLimitEdit id
  | RServerRateUpdate id => HandleServerRateLimitUpdate s id r
  | RPruneTools => HandlePruneOrphanedTools s
  | RDeregister id => HandleServerDeregister s id
  end.

(** A request to such a route: the middleware, then the handler. *)
Definition serve_dashboard (chain : DashboardVerdict) (route : DashboardRoute) (r : AdminRequest) : page_handler :=
  match chain with
  | ToLogin => show (Redirect "/admin/login")
  | Forbid message => show (Failure 403 message)
  | Pass session => dashboard_handler route (Some session) r
  end.

End dashboard.
