(* ===== verification/AdminProps.v ===== *)
(** * Properties of the administration

    Who can change what: the frames of the handlers, and the theorems on the
    integrated API and on the dashboard. What a change leaves behind: the audit
    entry, and the messages on the bus. *)

From stdpp Require Import pretty.
From S2P Require Import Prelude GoStrings Encoding GoNet GoFloat Types Store Json GoParse Classification CapIndex Registration RegHandlers AccessStore Routing Search Discovery Document JsonText Codec AdminStore AdminAuth AdminOps AdminAPI Dashboard.

#[local] Open Scope string_scope.
#[local] Open Scope list_scope.
#[local] Open Scope nat_scope.
#[local] Open Scope go_scope.

(** ** Frames

    [keeps f m]: the call [m] leaves the part [f] of the state as it is. *)
Section frames.
Context {S T : Type} (f : S → T).

Definition keeps {R} (m : S → R * S) : Prop := ∀ s, f (m s).2 = f s.

Lemma keeps_same {R} (g : S → R) : keeps (λ s, (g s, s)).
Proof. by intros s. Qed.

Lemma keeps_ret {A} (x : A) : keeps (ret x).
Proof. by intros s. Qed.

Lemma keeps_throw {A} e : keeps (@throw S A e).
Proof. by intros s. Qed.

Lemma keeps_gets {A} (g : S → A) : keeps (gets g).
Proof. by intros s. Qed.

Lemma keeps_bind {A B} (m : ST S A) (k : A → ST S B) : keeps m → (∀ x, keeps (k x)) → keeps (bind m k).
Proof.
  intros Hm Hk s. unfold bind. specialize (Hm s). destruct (m s) as [[e|x] s']; [done|].
  rewrite <-Hm. apply Hk.
Qed.

Lemma keeps_attempt {A} (m : ST S A) : keeps m → keeps (attempt m).
Proof. intros Hm s. unfold attempt. specialize (Hm s). by destruct (m s). Qed.

Lemma keeps_for_each {A} (k : A → ST S ()) l : (∀ x, keeps (k x)) → keeps (for_each k l).
Proof. intros Hk. induction l as [|x l IH]; [apply keeps_ret|]. by apply keeps_bind. Qed.

Lemma keeps_fault {A} (faults : S → list bool) (set : list bool → S → S) (m : ST S A) e :
  (∀ l s, f (set l s) = f s) → keeps m →
  keeps (λ s, match faults s with
              | true :: fs => (Err e, set fs s)
              | false :: fs => m (set fs s)
              | [] => m s
              end).
Proof. intros Hset Hm s. destruct (faults s) as [|[] fs]; [apply Hm|apply Hset|]. by rewrite Hm. Qed.

Lemma frame_wrap {A} (m : ST S A) (ctx : error → error) :
  keeps m → keeps (λ s, match m s with (Err e, s') => (Err (ctx e), s') | r => r end).
Proof. intros Hm s. specialize (Hm s). by destruct (m s) as [[e|x] s']. Qed.
End frames.

(** The tables of the databases, without the schedules of failures. *)
Definition registry_tables (db : DB) := (db.(db_servers), db.(db_classifications)).
Definition access_tables (db : AccessDB) := (db.(ac_keys), db.(ac_users), db.(ac_perms)).
Definition admin_tables (db : AdminDB) := (db.(ad_audit), db.(ad_synonyms), db.(ad_reindex)).

Lemma frame_statement {A T} (f : DB → T) (m : ST DB A) :
  (∀ l db, f (set_faults l db) = f db) → keeps f m → keeps f (statement m).
Proof. intros Hf Hm. exact (keeps_fault f db_faults set_faults m _ Hf Hm). Qed.

Lemma keeps_wrap_error {A T} (f : DB → T) ctx (m : ST DB A) : keeps f m → keeps f (wrap_error ctx m).
Proof. apply (frame_wrap f m (Wrap ctx)). Qed.

Lemma keeps_exec {A T} (f : AccessDB → T) (m : ST AccessDB A) :
  (∀ l db, f (set_ac_faults l db) = f db) → keeps f m → keeps f (exec m).
Proof. intros Hf Hm. exact (keeps_fault f ac_faults set_ac_faults m _ Hf Hm). Qed.

Lemma keeps_in_context {A T} (f : AccessDB → T) ctx (m : ST AccessDB A) : keeps f m → keeps f (in_context ctx m).
Proof. apply (frame_wrap f m (Wrap ctx)). Qed.

Lemma keeps_ad_exec {A T} (f : AdminDB → T) (m : ST AdminDB A) :
  (∀ l db, f (set_ad_faults l db) = f db) → keeps f m → keeps f (ad_exec m).
Proof. intros Hf Hm. exact (keeps_fault f ad_faults set_ad_faults m _ Hf Hm). Qed.

Lemma keeps_ad_context {A T} (f : AdminDB → T) ctx (m : ST AdminDB A) : keeps f m → keeps f (ad_context ctx m).
Proof. apply (frame_wrap f m (Wrap ctx)). Qed.

(** Proves a frame by the shape of the code. *)
Ltac frame :=
  repeat match goal with
  | |- keeps _ (bind _ _) => apply keeps_bind; [|intros ?]
  | |- keeps _ (attempt _) => apply keeps_attempt
  | |- keeps _ (for_each _ _) => apply keeps_for_each; intros ?
  | |- keeps _ (ret _) => apply keeps_ret
  | |- keeps _ (throw _) => apply keeps_throw
  | |- keeps _ (gets _) => apply keeps_gets
  | |- keeps _ (statement _) => apply frame_statement; [done|]
  | |- keeps _ (wrap_error _ _) => apply keeps_wrap_error
  | |- keeps _ (exec _) => apply keeps_exec; [done|]
  | |- keeps _ (in_context _ _) => apply keeps_in_context
  | |- keeps _ (ad_exec _) => apply keeps_ad_exec; [done|]
  | |- keeps _ (ad_context _ _) => apply keeps_ad_context
  | |- keeps _ (λ s, (_, s)) => apply keeps_same
  | |- keeps _ (if ?b then _ else _) => destruct b
  | |- keeps _ (match ?x with _ => _ end) => destruct x
  end.

(** The calls that only read. *)
Section reads.
Context `{UnicodeTables} `{Postgres} `{PgText}.

Lemma ServerList_reads f : keeps registry_tables (ServerList f).
Proof. unfold ServerList. frame. intros db. by destruct (existsb _ _). Qed.

Lemma Get_reads id : keeps registry_tables (Get id).
Proof. unfold Get. frame. intros db. destruct (uuid_in id); [|done]. by destruct (_ !! _). Qed.

Lemma ClassificationSearch_reads f : keeps registry_tables (ClassificationSearch f).
Proof. unfold ClassificationSearch. frame. Qed.

Lemma ClassificationGet_reads name : keeps registry_tables (ClassificationGet name).
Proof. unfold ClassificationGet. frame. Qed.

Lemma ClassificationGetAll_reads : keeps registry_tables ClassificationGetAll.
Proof. unfold ClassificationGetAll. frame. Qed.

Lemma UserSearch_reads f : keeps access_tables (UserSearch f).
Proof. unfold UserSearch. frame. Qed.

Lemma UserGet_reads id : keeps access_tables (UserGet id).
Proof. unfold UserGet. frame. Qed.

Lemma GetToolPermissions_reads id : keeps access_tables (GetToolPermissions id).
Proof. unfold GetToolPermissions. frame. Qed.

Lemma AuditQuery_reads f : keeps admin_tables (AuditQuery f).
Proof. unfold AuditQuery. frame. Qed.

Lemma AuditCount_reads f : keeps admin_tables (AuditCount f).
Proof. unfold AuditCount. frame. Qed.

Lemma SynonymList_reads : keeps admin_tables SynonymList.
Proof. unfold SynonymList. frame. Qed.

Lemma ReindexRecent_reads n : keeps admin_tables (ReindexRecent n).
Proof. unfold ReindexRecent. frame. Qed.
End reads.

#[export] Hint Resolve ServerList_reads Get_reads ClassificationSearch_reads ClassificationGet_reads ClassificationGetAll_reads
  UserSearch_reads UserGet_reads GetToolPermissions_reads AuditQuery_reads AuditCount_reads SynonymList_reads
  ReindexRecent_reads : gateway.

(** ** The state of the administration *)

Section admin.
Context `{U : UnicodeTables} `{P : Postgres} `{PT : PgText} {E : Type} `{SE : SearchEngine E} `{ES : EngineStatus E}.
Context (float_text : spec_float → string) (zone : Z) (details_json : list (string * document) → string).
Context (h : AdminHandler).
Implicit Types w : AdminWorld E.

(** All that the administration can change for good: the tables, the routing
    index, the classification cache, and what is published on the bus. *)
Definition tables w :=
  (registry_tables w.(aw_reg).(w_db), access_tables w.(aw_access), admin_tables w.(aw_admin),
   w.(aw_reg).(w_index), w.(aw_cache), w.(aw_reg).(w_broadcasts)).

(** The users, their permissions and the keys, and which servers there are. *)
Definition reserved w := (access_tables w.(aw_access), dom w.(aw_reg).(w_db).(db_servers), w.(aw_reg).(w_index)).

Lemma on_registry_tables {A} (m : ST DB A) : keeps registry_tables m → keeps tables (on_registry m).
Proof.
  intros Hm w. unfold on_registry, on_db. specialize (Hm w.(aw_reg).(w_db)).
  destruct (m _) as [r db]. unfold tables. cbn in *. by rewrite Hm.
Qed.

Lemma on_access_tables {A} (m : ST AccessDB A) : keeps access_tables m → keeps tables (on_access m).
Proof.
  intros Hm w. unfold on_access. specialize (Hm w.(aw_access)). destruct (m _) as [r db].
  unfold tables. cbn in *. by rewrite Hm.
Qed.

Lemma on_admin_tables {A} (m : ST AdminDB A) : keeps admin_tables m → keeps tables (on_admin m).
Proof.
  intros Hm w. unfold on_admin. specialize (Hm w.(aw_admin)). destruct (m _) as [r db].
  unfold tables. cbn in *. by rewrite Hm.
Qed.

Lemma on_registry_reserved {A} (m : ST DB A) : keeps (λ db, dom db.(db_servers)) m → keeps reserved (on_registry m).
Proof.
  intros Hm w. unfold on_registry, on_db. specialize (Hm w.(aw_reg).(w_db)).
  destruct (m _) as [r db]. unfold reserved. cbn in *. by rewrite Hm.
Qed.

Lemma on_admin_reserved {A} (m : ST AdminDB A) : keeps reserved (on_admin m).
Proof. intros w. unfold on_admin. by destruct (m _). Qed.

Lemma log_audit_reserved t c s d : keeps reserved (log_audit h t c s d).
Proof. unfold log_audit, if_set. frame. apply on_admin_reserved. Qed.

Lemma publish_reserved m : keeps reserved (publish h m).
Proof. unfold publish, if_set. frame. by intros w. Qed.

(** ** Handlers *)

Lemma keeps_call {A T} (f : AdminWorld E → T) (m : ST (AdminWorld E) A) fail k :
  keeps f m → (∀ x, keeps f (k x)) → keeps f (call m fail k).
Proof.
  intros Hm Hk w. unfold call. specialize (Hm w). destruct (m w) as [[e|x] w']; [done|].
  rewrite <-Hm. apply Hk.
Qed.

Lemma keeps_if_stored {A T} (f : AdminWorld E → T) b (zero : A) (m : ST (AdminWorld E) A) :
  keeps f m → keeps f (if_stored b zero m).
Proof. intros Hm. unfold if_stored. destruct b; [done|apply keeps_ret]. Qed.

Lemma keeps_or_else {A T} (f : AdminWorld E → T) (zero : A) (m : ST (AdminWorld E) A) :
  keeps f m → keeps f (or_else zero m).
Proof. intros Hm w. unfold or_else. specialize (Hm w). by destruct (m w) as [[e|x] w']. Qed.

Lemma keeps_stored {A T} (f : AdminWorld E → T) b (zero : A) (m : ST (AdminWorld E) A) :
  keeps f m → keeps f (stored b zero m).
Proof. intros Hm. by apply keeps_or_else, keeps_if_stored. Qed.

Lemma keeps_do_or {A T} (f : AdminWorld E → T) fail (m : ST (AdminWorld E) A) k :
  keeps f m → (∀ x, keeps f (k x)) → keeps f (do_or fail m k).
Proof.
  intros Hm Hk w. unfold do_or. specialize (Hm w). destruct (m w) as [[e|x] w']; [done|].
  rewrite <-Hm. apply Hk.
Qed.

Lemma keeps_let {A R T} (f : AdminWorld E → T) (m : AdminWorld E → A * AdminWorld E)
    (k : A → AdminWorld E → R * AdminWorld E) :
  keeps f m → (∀ x, keeps f (k x)) → keeps f (λ w, let '(x, w') := m w in k x w').
Proof. intros Hm Hk w. specialize (Hm w). destruct (m w) as [x w']. rewrite <-Hm. apply Hk. Qed.

Lemma searchUsers_tables f : keeps tables (searchUsers h f).
Proof.
  intros w. unfold searchUsers. destruct (negb _); [done|].
  pose proof (on_access_tables _ (UserSearch_reads f) w) as Hw.
  by destruct (on_access _ w) as [[e|x] w'].
Qed.

Hint Resolve on_registry_tables on_access_tables on_admin_tables keeps_if_stored keeps_attempt keeps_stored keeps_or_else
  searchUsers_tables on_admin_reserved log_audit_reserved publish_reserved : gateway.

Ltac handler_frame :=
  repeat match goal with
  | |- keeps _ (call _ _ _) => apply keeps_call; [|intros ?]
  | |- keeps _ (do_or _ _ _) => apply keeps_do_or; [|intros ?]
  | |- keeps _ (reply _) => apply keeps_same
  | |- keeps _ (bad_request _) => apply keeps_same
  | |- keeps _ (show _) => apply keeps_same
  | |- keeps _ (λ w, let '(x, w') := _ w in _) => apply keeps_let; [|intros ?]
  | |- keeps _ (if ?b then _ else _) => destruct b
  | |- keeps _ (match ?x with _ => _ end) => destruct x
  end; auto with gateway.

(** The endpoints a viewer can use change nothing. *)
Lemma viewer_reads e actor r :
  endpoint_role e = "viewer" → keeps tables (endpoint_handler float_text zone details_json h e actor r).
Proof.
  intros He. destruct e; try (exfalso; discriminate He); cbn [endpoint_handler].
  - unfold HandleIntegratedServers. handler_frame.
  - unfold HandleIntegratedServerDetail. handler_frame.
  - unfold HandleIntegratedTools. handler_frame.
  - unfold HandleIntegratedToolDetail. handler_frame.
  - intros w. unfold HandleIntegratedToolSchema. repeat case_match; done.
  - intros w. unfold HandleIntegratedToolDiscoveryStats. repeat case_match; done.
  - unfold HandleIntegratedUsers. destruct (parseLimitOffset _ _) as [m|[limit offset]]; [handler_frame|].
    intros w. pose proof (searchUsers_tables (mkUserFilter (TrimSpace (ir_Query r "q"))
      (role_of (TrimSpace (ir_Query r "role"))) limit offset) w) as Hw.
    by destruct (searchUsers _ _ _) as [[items total] w'].
  - unfold HandleIntegratedAuditQuery. handler_frame.
  - unfold HandleIntegratedAuditExport. handler_frame.
  - intros w. unfold HandleIntegratedSearchTuningGet. destruct (search_state h w) as [[t b] n].
    revert w. change (keeps tables (call (if_stored (ah_synonymStore h) [] (on_admin SynonymList))
      (internal_error "failed to list search tuning") (λ synonyms,
        call (if_stored (ah_reindexLogStore h) [] (on_admin (ReindexRecent 10)))
          (internal_error "failed to read search tuning logs") (λ logs, reply (200%Z, BTuning t b n synonyms logs))))).
    handler_frame.
  - intros w. unfold HandleIntegratedSearchTuningTest. repeat case_match; done.
Qed.

Lemma UpdateRateLimit_dom id l b : keeps (λ db, dom db.(db_servers)) (UpdateRateLimit id l b).
Proof.
  unfold UpdateRateLimit, on_row. frame. intros db. destruct (uuid_in id) as [c|]; [|done].
  destruct (_ !! c) as [row|] eqn:Ec; [|done]. destruct (rate_ok l b); [|done].
  cbn. rewrite dom_insert_L. apply elem_of_dom_2 in Ec. set_solver.
Qed.

Lemma ClassificationUpsert_dom c : keeps (λ db, dom db.(db_servers)) (ClassificationUpsert c).
Proof. unfold ClassificationUpsert. frame. by intros db. Qed.

Hint Resolve on_registry_reserved UpdateRateLimit_dom ClassificationUpsert_dom : gateway.

Lemma upsertToolClassification_reserved name r reason by_ source :
  keeps reserved (upsertToolClassification h name r reason by_ source).
Proof. unfold upsertToolClassification, if_set. frame; auto with gateway. Qed.

Lemma updateServerRateLimit_reserved id l b by_ source :
  keeps reserved (updateServerRateLimit h id l b by_ source).
Proof. unfold updateServerRateLimit, if_set. frame; auto with gateway. Qed.

Lemma upsert_all_reserved l : keeps reserved (upsert_all l).
Proof. unfold upsert_all. frame. auto with gateway. Qed.

Hint Resolve upsertToolClassification_reserved updateServerRateLimit_reserved upsert_all_reserved : gateway.

(** The endpoints of an editor leave users, keys and the set of servers alone. *)
Lemma editor_reserved e actor r :
  endpoint_role e = "editor" → keeps reserved (endpoint_handler float_text zone details_json h e actor r).
Proof.
  intros He. destruct e; try (exfalso; discriminate He); cbn [endpoint_handler].
  - unfold HandleIntegratedServerRateLimits. handler_frame.
  - unfold handleIntegratedToolMutation. handler_frame.
  - unfold handleIntegratedToolMutation. handler_frame.
  - unfold HandleIntegratedSearchTuningUpdate. handler_frame.
Qed.

Lemma endpoint_roles e : endpoint_role e ∈ ["viewer"; "editor"; "admin"].
Proof. destruct e; cbn; set_solver. Qed.

Lemma middleware_identity token hs identity :
  IntegratedDelegatedAuthMiddleware token hs = inr identity →
  hs.(dh_SessionCookie) = false ∧ delegated_token hs.(dh_Authorization) = Some (TrimSpace token) ∧
  TrimSpace token ≠ "" ∧ di_GatewayRole identity ∈ ["viewer"; "editor"; "admin"].
Proof.
  unfold IntegratedDelegatedAuthMiddleware. destruct (dh_SessionCookie hs); [done|].
  destruct (delegated_token _) as [t|] eqn:Et; [|done].
  destruct (bool_decide_reflect (t = TrimSpace token)) as [->|]; [|done]. cbn [negb].
  destruct (missing_header _); [done|]. destruct (isValidGatewayRole _) eqn:Er; [|done].
  cbn [negb]. intros [= <-]. cbn. split; [done|]. split; [done|]. split.
  - unfold delegated_token in Et. destruct (negb _); [done|]. case_bool_decide; [done|]. by injection Et as <-.
  - unfold isValidGatewayRole in Er. by apply bool_decide_eq_true in Er.
Qed.

(** C12: Access to the integrated API: a request that changes anything is one to an
    endpoint, without a session cookie, with the platform's service token, which
    is not empty, and with an identity whose gateway role is at least the one
    of the endpoint; that is never a viewer, and an editor changes neither users,
    permissions and keys, nor which servers there are or are routed to. *)
Theorem admin_api_guarded token route r w :
  let '(_, w') := serve_integrated float_text zone details_json h token route r w in
  tables w' ≠ tables w →
  ∃ e identity, route = At e ∧
    IntegratedDelegatedAuthMiddleware token r.(ir_Headers) = inr identity ∧
    r.(ir_Headers).(dh_SessionCookie) = false ∧
    delegated_token r.(ir_Headers).(dh_Authorization) = Some (TrimSpace token) ∧ TrimSpace token ≠ "" ∧
    (roleRank (endpoint_role e) <= roleRank identity.(di_GatewayRole))%Z ∧
    identity.(di_GatewayRole) ∈ ["editor"; "admin"] ∧
    (identity.(di_GatewayRole) = "editor" → reserved w' = reserved w).
Proof.
  destruct (serve_integrated _ _ _ _ _ _ _ _) as [rep w'] eqn:Es. intros Hne.
  unfold serve_integrated in Es. destruct route as [| | |e];
    [by injection Es as _ ->|by (destruct (IntegratedDelegatedAuthMiddleware _ _); injection Es as _ ->)..|].
  destruct (IntegratedDelegatedAuthMiddleware _ _) as [d|identity] eqn:Em; [by injection Es as _ ->|].
  destruct (middleware_identity _ _ _ Em) as (Hc & Ht & Hn & Hr).
  unfold RequireGatewayRole in Es. destruct (_ <? _)%Z eqn:El; [by injection Es as _ ->|].
  apply Z.ltb_ge in El. exists e, identity. split_and!; try done.
  - pose proof (viewer_reads e (delegatedActor identity) r) as Hv. pose proof (endpoint_roles e) as Hroles.
    destruct (decide (endpoint_role e = "viewer")) as [He|He].
    { destruct Hne. specialize (Hv He w). by rewrite Es in Hv. }
    assert (2 <= roleRank (endpoint_role e))%Z as Hrank.
    { apply list_elem_of_In in Hroles. destruct Hroles as [Hq|[Hq|[Hq|[]]]]; rewrite <-Hq in *; done. }
    apply list_elem_of_In in Hr. destruct Hr as [Hq|[Hq|[Hq|[]]]]; rewrite <-Hq in *; [|set_solver..].
    change (roleRank "viewer") with 1%Z in El. lia.
  - intros Hed. rewrite Hed in El. change (roleRank "editor") with 2%Z in El.
    pose proof (endpoint_roles e) as Hroles. apply list_elem_of_In in Hroles.
    destruct Hroles as [Hq|[Hq|[Hq|[]]]].
    + destruct Hne. pose proof (viewer_reads e (delegatedActor identity) r (eq_sym Hq) w) as Hv. by rewrite Es in Hv.
    + pose proof (editor_reserved e (delegatedActor identity) r (eq_sym Hq) w) as Hv. by rewrite Es in Hv.
    + rewrite <-Hq in El. change (roleRank "admin") with 3%Z in El. lia.
Qed.

(** ** The audit trail *)

(** The next write of the audit log succeeds: there is a log, and the connection
    does not fail. *)
Definition log_writable w : bool :=
  h.(ah_auditStore) && match w.(aw_admin).(ad_faults) with true :: _ => false | _ => true end.

(** The log of [w'] is that of [w] and one entry, when it can be written, and
    otherwise that of [w]. *)
Definition logged_once (EventType ClientID ServerName : string) w w' : Prop :=
  if log_writable w then ∃ id details,
    w'.(aw_admin).(ad_audit) = w.(aw_admin).(ad_audit) ++
      [mkAuditRow id EventType ClientID (normalizeAuditUsername ClientID) ServerName details w.(aw_admin).(ad_now)]
  else w'.(aw_admin).(ad_audit) = w.(aw_admin).(ad_audit).

(** [m] logs when it succeeds. *)
Definition logs {A} (EventType ClientID ServerName : string) (m : ST (AdminWorld E) A) : Prop :=
  ∀ w x w', m w = (Ok x, w') → logged_once EventType ClientID ServerName w w'.

Lemma logs_after {A B} t c s (m : ST (AdminWorld E) A) (k : A → ST (AdminWorld E) B) :
  keeps aw_admin m → (∀ x, logs t c s (k x)) → logs t c s (bind m k).
Proof.
  intros Hm Hk w y w' Hr. unfold bind in Hr. specialize (Hm w). destruct (m w) as [[e|x] w1]; [done|].
  cbn in Hm. unfold logged_once, log_writable. rewrite <-Hm. by eapply Hk.
Qed.

Lemma logs_before {A B} t c s (m : ST (AdminWorld E) A) (k : A → ST (AdminWorld E) B) :
  logs t c s m → (∀ x, keeps aw_admin (k x)) → logs t c s (bind m k).
Proof.
  intros Hm Hk w y w' Hr. unfold bind in Hr. destruct (m w) as [[e|x] w1] eqn:Em; [done|].
  specialize (Hk x w1). rewrite Hr in Hk. cbn in Hk. unfold logged_once. rewrite Hk. by eapply Hm.
Qed.

Lemma log_audit_logs t c s d : logs t c s (log_audit h t c s d).
Proof.
  intros w x w'. unfold logged_once, log_writable, log_audit, if_set. destruct (ah_auditStore h); [|by intros [= <- <-]].
  unfold bind, attempt, on_admin, AuditLog, ad_context, ad_exec.
  destruct (ad_faults (aw_admin w)) as [|[] fs]; cbn; intros [= <- <-]; eauto.
Qed.

Lemma on_registry_admin {A} (m : ST DB A) : keeps aw_admin (on_registry (E := E) m).
Proof. intros w. unfold on_registry, on_db. by destruct (m _). Qed.

Lemma on_access_admin {A} (m : ST AccessDB A) : keeps aw_admin (on_access (E := E) m).
Proof. intros w. unfold on_access. by destruct (m _). Qed.

Lemma publish_admin m : keeps aw_admin (publish (E := E) h m).
Proof. unfold publish, if_set. frame. by intros w. Qed.

Hint Resolve log_audit_logs on_registry_admin on_access_admin publish_admin : gateway.

Ltac logged :=
  repeat match goal with
  | |- logs _ _ _ (bind (log_audit _ _ _ _ _) _) => apply logs_before; [|intros ?]
  | |- logs _ _ _ (bind _ _) => apply logs_after; [|intros ?]
  | |- logs _ _ _ (if ?b then _ else _) => destruct b
  | |- logs _ _ _ (throw _) => by intros ? ? ? ?
  end; unfold if_set; frame; auto with gateway.

Lemma upsertToolClassification_logs name r reason by_ source :
  logs "tool_classification_updated" by_ name (upsertToolClassification h name r reason by_ source).
Proof. unfold upsertToolClassification. logged. Qed.

Lemma updateServerRateLimit_logs id l b by_ source :
  logs "server_rate_limit_updated" by_ id (updateServerRateLimit h id l b by_ source).
Proof. unfold updateServerRateLimit. logged. Qed.

Lemma deregisterServer_logs id by_ source :
  logs "server_deregistered" by_ id (deregisterServer h id by_ source).
Proof. unfold deregisterServer. logged. Qed.

Lemma prune_logs by_ source : logs "tools_pruned" by_ "" (pruneOrphanedToolClassifications h by_ source).
Proof. unfold pruneOrphanedToolClassifications. logged. Qed.

Lemma replaceUserToolPermissions_logs id names by_ source :
  logs "user.permissions_updated" by_ id (replaceUserToolPermissions h id names by_ source).
Proof. unfold replaceUserToolPermissions. logged. Qed.

(** A handler that ends in a call. *)
Lemma call_ok {A} (m : ST (AdminWorld E) A) fail (k : A → Reply) w b w' :
  (∀ e, (fail e).1 ≠ 200%Z) → call m fail (λ x, reply (k x)) w = ((200%Z, b), w') → ∃ x, m w = (Ok x, w').
Proof.
  intros Hf. unfold call. destruct (m w) as [[e|x] w1].
  - specialize (Hf e). intros [= Hr _]. by rewrite Hr in Hf.
  - intros [= _ <-]. eauto.
Qed.

(** The event a successful request to an endpoint is logged as, and its subject. *)
Definition audit_subject (e : Endpoint) : option (string * string) :=
  match e with
  | PostDeregister id => Some ("server_deregistered", TrimSpace id)
  | PutRateLimits id => Some ("server_rate_limit_updated", TrimSpace id)
  | PostPrune => Some ("tools_pruned", "")
  | PutTool id | PutClassification id => Some ("tool_classification_updated", TrimSpace id)
  | PutPermissions id => Some ("user.permissions_updated", TrimSpace id)
  | _ => None
  end.

Lemma endpoint_logged e actor r w b w' event subject :
  endpoint_handler float_text zone details_json h e actor r w = ((200%Z, b), w') →
  audit_subject e = Some (event, subject) → logged_once event actor subject w w'.
Proof.
  intros He Hs. destruct e; try done; injection Hs as <- <-; cbn [endpoint_handler] in He.
  - unfold HandleIntegratedServerDeregister in He. destruct (bool_decide _); [done|].
    apply call_ok in He as [x Hx]; [|done]. by eapply deregisterServer_logs.
  - unfold HandleIntegratedServerRateLimits in He. destruct (bool_decide _); [done|].
    destruct (decode_rate _) as [rb|]; [|done]. repeat (match type of He with (if ?c then _ else _) _ = _ => destruct c end; [done|]).
    apply call_ok in He as [x Hx]; [|done]. by eapply updateServerRateLimit_logs.
  - unfold HandleIntegratedServerPrune in He. apply call_ok in He as [x Hx]; [by eapply prune_logs|].
    intros e. by destruct (bool_decide _).
  - unfold handleIntegratedToolMutation in He. destruct (bool_decide _); [done|].
    destruct (decode_tool_update _); [|done]. destruct (risk_of _); [|done].
    apply call_ok in He as [x Hx]; [|done]. by eapply upsertToolClassification_logs.
  - unfold handleIntegratedToolMutation in He. destruct (bool_decide _); [done|].
    destruct (decode_tool_update _); [|done]. destruct (risk_of _); [|done].
    apply call_ok in He as [x Hx]; [|done]. by eapply upsertToolClassification_logs.
  - unfold HandleIntegratedUserPermissions in He. destruct (bool_decide _); [done|].
    destruct (decode_payload _); [|done].
    apply call_ok in He as [x Hx]; [|done]. by eapply replaceUserToolPermissions_logs.
Qed.

Definition audit_log w : list AuditRow := w.(aw_admin).(ad_audit).

Lemma tables_audit_log w w' : tables w' = tables w → audit_log w' = audit_log w.
Proof. unfold tables, admin_tables, audit_log. by intros [=]. Qed.

Lemma upsert_all_unlogged l : keeps audit_log (upsert_all l).
Proof.
  unfold upsert_all. frame. intros w. unfold on_admin.
  assert (keeps ad_audit (SynonymUpsert x.1 x.2)) as Hk by (unfold SynonymUpsert; frame; by intros db).
  specialize (Hk w.(aw_admin)). by destruct (SynonymUpsert _ _ _) as [r' db].
Qed.

Lemma endpoint_unlogged e actor r w :
  audit_subject e = None → audit_log (endpoint_handler float_text zone details_json h e actor r w).2 = audit_log w.
Proof.
  intros Hs. destruct (decide (endpoint_role e = "viewer")) as [Hv|Hv]; [by apply tables_audit_log, viewer_reads|].
  destruct e; try done. pose proof upsert_all_unlogged as Hu. cbn [endpoint_handler]. revert w.
  change (keeps audit_log (HandleIntegratedSearchTuningUpdate (E := E) float_text h r.(ir_Body))).
  unfold HandleIntegratedSearchTuningUpdate. handler_frame.
Qed.

(** C27: The audit trail of the integrated API, for every request that is answered
    with success. A change of a server, of a tool or of permissions leaves exactly
    one entry, with the event of its endpoint, the subject of the change and the
    actor the platform named, when there is an audit store and its write succeeds;
    the code ignores a failed write, so that without a store, or when the write
    fails, the change is done and leaves no entry at all. The other requests leave
    none in any case: those that read, and those that change the synonyms, whose
    changes are not logged. *)
Theorem admin_changes_logged token e r w b w' :
  serve_integrated float_text zone details_json h token (At e) r w = ((200%Z, b), w') →
  match audit_subject e with
  | Some (event, subject) =>
      ∃ identity, IntegratedDelegatedAuthMiddleware token r.(ir_Headers) = inr identity ∧
        if log_writable w then
          ∃ id details, audit_log w' = audit_log w ++
            [mkAuditRow id event (delegatedActor identity) (normalizeAuditUsername (delegatedActor identity)) subject
               details w.(aw_admin).(ad_now)]
        else audit_log w' = audit_log w
  | None => audit_log w' = audit_log w ∧ (endpoint_role e = "viewer" ∨ e = PutSearchTuning)
  end.
Proof.
  intros Hs. unfold serve_integrated in Hs.
  destruct (IntegratedDelegatedAuthMiddleware _ _) as [d|identity] eqn:Em.
  { exfalso. unfold IntegratedDelegatedAuthMiddleware in Em. repeat case_match; simplify_eq. }
  unfold RequireGatewayRole in Hs. destruct (_ <? _)%Z; [done|].
  destruct (audit_subject e) as [[event subject]|] eqn:Ee.
  - exists identity. split; [done|]. exact (endpoint_logged e _ r w b w' event subject Hs Ee).
  - split; [|by destruct e; try done; (left + right)].
    pose proof (endpoint_unlogged e (delegatedActor identity) r w Ee) as Hu. by rewrite Hs in Hu.
Qed.

(** ** The dashboard *)

Lemma stored_tables {A} b (zero : A) (m : ST (AdminWorld E) A) w :
  keeps tables m → tables (stored b zero m w).2 = tables w.
Proof. intros Hm. by apply keeps_stored. Qed.

(** Follows the reads of a page. *)
Ltac read_page :=
  repeat match goal with
  | |- context [let '(_, _) := stored ?b ?z ?m ?w in _] =>
      let Hr := fresh in
      assert (tables (stored b z m w).2 = tables w) as Hr by (apply stored_tables; auto with gateway);
      destruct (stored b z m w) as [? ?]; cbn [snd] in Hr; rewrite <-Hr; clear Hr
  | |- context [let '(_, _) := or_else ?z ?m ?w in _] =>
      let Hr := fresh in
      assert (tables (or_else z m w).2 = tables w) as Hr by (apply keeps_or_else; auto with gateway);
      destruct (or_else z m w) as [? ?]; cbn [snd] in Hr; rewrite <-Hr; clear Hr
  end; try reflexivity.

(** The pages that are asked for with GET change nothing. *)
Lemma get_reads route s r :
  route_method route = "GET" → keeps tables (dashboard_handler zone details_json h route s r).
Proof.
  intros Hm. destruct route; try (exfalso; discriminate Hm); cbn [dashboard_handler].
  - intros w. unfold HandleDashboard. read_page.
  - intros w. unfold HandleTools. read_page.
  - intros w. unfold HandleToolBrowse. repeat case_match; done.
  - intros w. unfold HandleDiscoveryStats. repeat case_match; done.
  - intros w. unfold HandleToolEdit. destruct (bool_decide _); [done|]. read_page.
  - intros w. unfold HandleToolSchema. repeat case_match; done.
  - intros w. unfold HandleAudit. read_page.
  - intros w. unfold HandleAuditExport. read_page.
  - intros w. unfold HandleUsers. pose proof (searchUsers_tables (buildUserFilter (rq_Query r) (parsePage (rq_Query r))) w) as Hw.
    by destruct (searchUsers _ _ _) as [[users total] w'].
  - unfold HandleUserDetail. handler_frame. intros w. read_page.
  - intros w. unfold HandleSearch. read_page.
  - intros w. unfold HandleSynonymList. read_page.
  - intros w. unfold HandleServers. read_page.
  - unfold HandleServerRateLimitEdit. handler_frame.
Qed.

Section sessions.
Context `{A : AEAD}.

(** Changes through the dashboard: a request that changes anything is a POST whose
    cookie opens as a session, or the gateway runs in development mode, and which
    repeats the CSRF token of that session. *)
Theorem dashboard_changes_guarded devMode now req route r w :
  req.(dr_Method) = route_method route →
  let '(_, w') := serve_dashboard zone details_json h (dashboard_chain devMode now req) route r w in
  tables w' ≠ tables w →
  req.(dr_Method) = "POST" ∧
  ∃ session, dashboard_chain devMode now req = Pass session ∧
    (devMode = true ∧ session = dev_session now ∨
     ∃ value, req.(dr_Cookie) = Some value ∧ DecryptSession now value = Some session) ∧
    TrimSpace session.(as_CSRFToken) ≠ "" ∧ session.(as_CSRFToken) ∈ [req.(dr_FormToken); req.(dr_HeaderToken)].
Proof.
  intros Hm. destruct (serve_dashboard _ _ _ _ _ _ _) as [rep w'] eqn:Es. intros Hne.
  unfold serve_dashboard in Es. destruct (dashboard_chain devMode now req) as [|m|session] eqn:Ec;
    [by injection Es as _ ->|by injection Es as _ ->|].
  assert (req.(dr_Method) = "POST") as Hpost.
  { pose proof (get_reads route (Some session) r) as Hg. rewrite Hm in *.
    destruct route; try done; destruct Hne; specialize (Hg eq_refl w); by rewrite Es in Hg. }
  split; [done|]. exists session. split; [done|]. unfold dashboard_chain in Ec.
  destruct (AdminAuthMiddleware devMode now (dr_Cookie req)) as [| |s0] eqn:Ea; [done..|].
  unfold CSRFMiddleware in Ec. rewrite Hpost in Ec. change (safe_method "POST") with false in Ec. cbv iota zeta in Ec.
  set (t := if bool_decide (dr_FormToken req = "") then dr_HeaderToken req else dr_FormToken req) in *.
  assert (t ∈ [dr_FormToken req; dr_HeaderToken req]) as Ht by (unfold t; destruct (bool_decide _); set_solver).
  destruct (bool_decide_reflect (TrimSpace t = "")) as [|Hblank]; [done|].
  destruct (bool_decide_reflect (t = as_CSRFToken s0)) as [Heq|]; [|done].
  cbn [orb negb] in Ec. injection Ec as <-. rewrite <-Heq. split; [|done].
  unfold AdminAuthMiddleware in Ea. destruct devMode; [by left; injection Ea as <-|]. right.
  destruct (dr_Cookie req) as [value|]; [|done]. destruct (DecryptSession now value) eqn:Ed; [|done].
  injection Ea as ->. eauto.
Qed.
End sessions.

(** ** Deregistration *)

Lemma LookupTool_Remove id i name r :
  TrimSpace id ≠ "" → r ∈ LookupTool (Remove id i) name ↔ r ∈ LookupTool i name ∧ r.(ID) ≠ id.
Proof.
  intros Hid. unfold Remove. rewrite bool_decide_eq_false_2 by done. rewrite !LookupTool_under.
  destruct (bool_decide _); [set_solver|]. cbn [removeLocked tools SetActiveToolCount].
  by rewrite under_remove_id, elem_of_removeServer.
Qed.

Lemma log_audit_reg t c s d : keeps aw_reg (log_audit (E := E) h t c s d).
Proof. unfold log_audit, if_set. frame. intros w. unfold on_admin. by destruct (AuditLog _ _). Qed.

Lemma log_audit_ok t c s d w : (log_audit (E := E) h t c s d w).1 = Ok ().
Proof. unfold log_audit, if_set. destruct (ah_auditStore h); [|done]. unfold bind, attempt. by destruct (on_admin _ w). Qed.

(** The steps of a deregistration whose statement is run. *)
Lemma deregisterServer_steps id c actor source w :
  h.(ah_serverStore) = true → h.(ah_broadcaster) = true → w.(aw_reg).(w_db).(db_faults) = [] → uuid_in id = Some c →
  ∃ w', deregisterServer h id actor source w = (Ok (), w') ∧
    w'.(aw_reg).(w_db).(db_servers) = delete c w.(aw_reg).(w_db).(db_servers) ∧
    w'.(aw_reg).(w_index) = w.(aw_reg).(w_index) ∧
    w'.(aw_reg).(w_broadcasts) = w.(aw_reg).(w_broadcasts) ++ [RegistrationEvent "deregistered" id (UnixMilli (aw_now w))].
Proof.
  intros Hs Hb Hf Hid. unfold deregisterServer, if_set, publish, if_set. rewrite Hs, Hb.
  set (w1 := (on_registry (Delete id) w).2).
  assert (on_registry (Delete id) w = (Ok (), w1) ∧
    w1.(aw_reg).(w_db).(db_servers) = delete c w.(aw_reg).(w_db).(db_servers) ∧
    w1.(aw_reg).(w_index) = w.(aw_reg).(w_index) ∧ w1.(aw_reg).(w_broadcasts) = w.(aw_reg).(w_broadcasts) ∧
    aw_now w1 = aw_now w) as (Hdel & Hdb & Hi & Hbr & Hn).
  { unfold w1, on_registry, on_db, Delete, wrap_error, bind, on_row, statement. rewrite Hf, Hid.
    destruct (_ !! c) as [row|] eqn:Ec; cbn; [done|]. by rewrite delete_id. }
  unfold bind at 1. rewrite Hdel. cbv iota beta. unfold bind at 1.
  pose proof (log_audit_reg "server_deregistered" actor id [("source", AStr source)] w1) as Hreg.
  pose proof (log_audit_ok "server_deregistered" actor id [("source", AStr source)] w1) as Hok.
  destruct (log_audit _ _ _ _ _ w1) as [r2 w2]. cbn in Hok, Hreg. subst r2. eexists. split; [reflexivity|].
  cbn. unfold aw_now. rewrite Hreg. split; [done|]. split; [done|]. unfold aw_now in Hn. by rewrite Hbr, Hn.
Qed.

(** Deregistering a server through the administration: the row goes, and the
    routing index follows only through the bus. Where the gateway shares a bus,
    exactly the servers with that id, as the request wrote it, leave every tool;
    on the bus of a single instance the index stays as it was, so that the tools
    of the deleted server are still routed to it. *)
Theorem admin_deregister_routing bus id c actor source w :
  h.(ah_serverStore) = true → h.(ah_broadcaster) = true → w.(aw_reg).(w_db).(db_faults) = [] →
  uuid_in id = Some c → TrimSpace id ≠ "" →
  ∃ w', deregisterServer h id actor source w = (Ok (), w') ∧
    w'.(aw_reg).(w_db).(db_servers) = delete c w.(aw_reg).(w_db).(db_servers) ∧
    let routed := deliver bus (length w.(aw_reg).(w_broadcasts)) w' in
    match bus with
    | NoopBroadcaster => routed.(aw_reg).(w_index) = w.(aw_reg).(w_index)
    | SharedBroadcaster => ∀ name r,
        r ∈ LookupTool routed.(aw_reg).(w_index) name ↔
        r ∈ LookupTool w.(aw_reg).(w_index) name ∧ r.(ID) ≠ TrimSpace id
    end.
Proof.
  intros Hs Hb Hf Hid Hne. destruct (deregisterServer_steps id c actor source w Hs Hb Hf Hid) as (w' & Hr & Hdb & Hi & Hbr).
  exists w'. split; [done|]. split; [done|]. destruct bus; cbn [deliver]; [done|]. intros name r.
  rewrite Hbr, drop_app_length. cbn [foldl handle_message]. unfold SubscriberHandle.
  rewrite (bool_decide_eq_false_2 (TrimSpace id = "")) by done.
  change (bool_decide ("deregistered" = "registered") || bool_decide ("deregistered" = "status_changed")) with false.
  change (bool_decide ("deregistered" = "deregistered")) with true. cbv iota.
  change (w_index (aw_reg (set_reg (indexRemove (TrimSpace id) (aw_reg w')).2 w')))
    with (Remove (TrimSpace id) (w_index (aw_reg w'))).
  rewrite Hi, LookupTool_Remove; [done|]. by rewrite TrimSpace_idemp.
Qed.

End admin.
