(* ===== verification/AdminData.v ===== *)
(** * Properties of what the administration stores and shows

    The permissions after tools are added or removed, the audit query and its
    patterns, the pages a client walks through with cursors, and the CSV export
    read back. *)

From stdpp Require Import pretty.
From S2P Require Import Prelude GoStrings Encoding GoNet GoFloat Types Store Json GoParse Classification CapIndex Registration RegHandlers AccessStore Routing Search Discovery Document JsonText Codec AdminStore AdminAuth AdminOps AdminAPI Dashboard AdminProps.

#[local] Open Scope string_scope.
#[local] Open Scope list_scope.
#[local] Open Scope nat_scope.
#[local] Open Scope go_scope.

(** ** Permissions *)

Lemma lookup_granted (uid by_ : string) (now : Z) (names : list string) (m : gmap (string * string) UserToolPermission)
    (u t : string) :
  foldl (λ m n, <[(uid, n) := mkUserToolPermission uid n by_ now]> m) m names !! (u, t) =
  if bool_decide (u = uid ∧ t ∈ names) then Some (mkUserToolPermission uid t by_ now) else m !! (u, t).
Proof.
  revert m. induction names as [|n names IH]; intros m; cbn [foldl].
  - rewrite bool_decide_eq_false_2; [done|]. set_solver.
  - rewrite IH. destruct (decide (u = uid ∧ t ∈ names)) as [Hin|Hout].
    { rewrite !bool_decide_eq_true_2; [done|set_solver|done]. }
    rewrite (bool_decide_eq_false_2 _ Hout). destruct (decide (u = uid ∧ t = n)) as [[-> ->]|Hn].
    + rewrite lookup_insert_eq, bool_decide_eq_true_2; [done|set_solver].
    + rewrite lookup_insert_ne by naive_solver. rewrite bool_decide_eq_false_2; [done|]. set_solver.
Qed.

(** The replacement of the permissions of a user, when nothing fails. *)
Lemma SetToolPermissions_replaces now userID names by_ db :
  db.(ac_faults) = [] → TrimSpace userID ≠ "" → is_Some (db.(ac_users) !! TrimSpace userID) →
  NoDup (TrimSpace <$> names) →
  SetToolPermissions now userID names by_ db =
    (Ok (), set_ac_perms
      (foldl (λ m n, <[(TrimSpace userID, n) := mkUserToolPermission (TrimSpace userID) n (TrimSpace by_) now]> m)
         (filter (λ p, p.1.1 ≠ TrimSpace userID) db.(ac_perms)) (TrimSpace <$> names)) db).
Proof.
  intros Hf Hid [u Hu] Hnd. destruct db as [dnow keys users perms faults next]. cbn in Hf, Hu. subst faults.
  unfold SetToolPermissions. rewrite bool_decide_eq_false_2 by done.
  unfold transaction, bind, in_context, AccessStore.exec, delete_perms, ret. cbn.
  destruct names as [|n names]; [done|]. unfold insert_perms. cbn [ac_users set_ac_perms ac_perms ac_faults]. rewrite Hu.
  by rewrite bool_decide_eq_true_2.
Qed.

(** Rows are filed under their user and their tool, whose name is trimmed. *)
Definition permissions_ok (db : AccessDB) : Prop :=
  ∀ k p, db.(ac_perms) !! k = Some p → p.(up_UserID) = k.1 ∧ p.(up_ToolName) = k.2 ∧ trimmed k.2.

Definition granted {E} (w : AdminWorld E) (user tool : string) : Prop :=
  is_Some (w.(aw_access).(ac_perms) !! (user, tool)).

Section users.
Context `{U : UnicodeTables} `{P : Postgres} `{PT : PgText} {E : Type} `{SE : SearchEngine E} `{ES : EngineStatus E}.
Context (h : AdminHandler).
Implicit Types w : AdminWorld E.

Lemma trimmed_fmap l : Forall trimmed l → TrimSpace <$> l = l.
Proof. induction 1 as [|x l Hx _ IH]; [done|]. cbn. by rewrite IH, Hx. Qed.

(** The tools [GetToolPermissions] lists. *)
Lemma listed_tools db uid t : permissions_ok db →
  t ∈ up_ToolName <$> (map_to_list (filter (λ p, p.1.1 = uid) db.(ac_perms))).*2 ↔ is_Some (db.(ac_perms) !! (uid, t)).
Proof.
  intros Hok. rewrite !list_elem_of_fmap. split.
  - intros (p & -> & Hp). apply list_elem_of_fmap in Hp as ([[u t] p'] & -> & Hp). apply elem_of_map_to_list in Hp.
    apply map_lookup_filter_Some in Hp as [Hp Hu]. cbn in *. subst u. destruct (Hok _ _ Hp) as (_ & -> & _). by eexists.
  - intros [p Hp]. exists p. destruct (Hok _ _ Hp) as (_ & -> & _). split; [done|].
    apply list_elem_of_fmap. exists ((uid, t), p). split; [done|]. apply elem_of_map_to_list.
    by apply map_lookup_filter_Some.
Qed.

Lemma listed_tools_NoDup db uid : permissions_ok db →
  NoDup (up_ToolName <$> (map_to_list (filter (λ p, p.1.1 = uid) db.(ac_perms))).*2).
Proof.
  intros Hok. set (m := filter _ _). assert (∀ k p, m !! k = Some p → k = (uid, p.(up_ToolName))) as Hm.
  { intros [u t] p [Hp Hu]%map_lookup_filter_Some. cbn in Hu. subst u. by destruct (Hok _ _ Hp) as (_ & -> & _). }
  apply (NoDup_fmap_1 (λ t, (uid, t))). rewrite <-!list_fmap_compose.
  rewrite (list_fmap_ext _ fst); [apply NoDup_fst_map_to_list|].
  intros i [k p] Hi. cbn. symmetry. apply Hm, elem_of_map_to_list. by apply list_elem_of_lookup_2 in Hi.
Qed.

(** What [change_tools] does when nothing fails. *)
Lemma change_tools_replaces names event byKey session id r tools w :
  h.(ah_userStore) = true → w.(aw_access).(ac_faults) = [] → TrimSpace id ≠ "" →
  is_Some (w.(aw_access).(ac_users) !! TrimSpace id) → r.(rq_Names) = Some tools →
  let existing := (map_to_list (filter (λ p, p.1.1 = TrimSpace id) w.(aw_access).(ac_perms))).*2 in
  let l := names existing (default [] tools) in
  NoDup l → Forall trimmed l →
  ∃ w', change_tools h names event byKey session id r w = (Redirect ("/admin/users/" +:+ id), w') ∧
    w'.(aw_access).(ac_perms) =
      foldl (λ m n, <[(TrimSpace id, n) := mkUserToolPermission (TrimSpace id) n (TrimSpace (session_actor session)) (aw_now w)]> m)
        (filter (λ p, p.1.1 ≠ TrimSpace id) w.(aw_access).(ac_perms)) l.
Proof.
  intros Hs Hf Hid Hu Hr existing l Hnd Ht. unfold change_tools. rewrite bool_decide_eq_false_2 by done.
  rewrite Hr, Hs. cbn [negb]. unfold do_or.
  assert (on_access (GetToolPermissions id) w = (Ok existing, w)) as ->.
  { unfold on_access, GetToolPermissions, in_context, AccessStore.exec. rewrite Hf. by destruct w. }
  cbv iota beta zeta. unfold bind at 1, on_access at 1. fold l.
  rewrite SetToolPermissions_replaces by (rewrite ?trimmed_fmap; done). rewrite (trimmed_fmap l Ht).
  set (w1 := set_access _ w). set (d := _ :: _).
  pose proof (log_audit_ok h event (session_actor session) id d w1) as Hok.
  destruct (log_audit _ _ _ _ _ w1) as [r2 w2] eqn:El. cbn in Hok. subst r2. exists w2. split; [done|].
  assert (aw_access w2 = aw_access w1) as ->; [|done].
  unfold log_audit, if_set in El. destruct (ah_auditStore h); [|by injection El as <-].
  unfold bind, attempt, on_admin in El. destruct (AuditLog _ _). by injection El as <-.
Qed.

Lemma existing_trimmed db uid : permissions_ok db →
  Forall trimmed (up_ToolName <$> (map_to_list (filter (λ p, p.1.1 = uid) db.(ac_perms))).*2).
Proof.
  intros Hok. apply Forall_forall. intros t Ht. apply (listed_tools db uid t Hok) in Ht as [p Hp].
  by destruct (Hok _ _ Hp) as (_ & _ & ?).
Qed.

(** Who holds what after a replacement with the names [l]. *)
Lemma replaced_holders (perms : gmap (string * string) UserToolPermission) (uid by_ : string) (now : Z) l :
  let perms' := foldl (λ m n, <[(uid, n) := mkUserToolPermission uid n by_ now]> m)
                  (filter (λ p, p.1.1 ≠ uid) perms) l in
  (∀ u t, is_Some (perms' !! (u, t)) ↔ if bool_decide (u = uid) then t ∈ l else is_Some (perms !! (u, t))) ∧
  (∀ u t, u ≠ uid → perms' !! (u, t) = perms !! (u, t)) ∧
  (∀ t p, perms' !! (uid, t) = Some p → p = mkUserToolPermission uid t by_ now ∧ t ∈ l).
Proof.
  assert (∀ u t, u ≠ uid → filter (λ p, p.1.1 ≠ uid) perms !! (u, t) = perms !! (u, t)) as Hother.
  { intros u t Hu. destruct (perms !! (u, t)) as [p|] eqn:Ep.
    - by apply map_lookup_filter_Some.
    - apply map_lookup_filter_None. by left. }
  assert (∀ t, filter (λ p, p.1.1 ≠ uid) perms !! (uid, t) = None) as Hown.
  { intros t. apply map_lookup_filter_None. right. cbn. intros _ _. naive_solver. }
  cbn zeta. split_and!.
  - intros u t. rewrite lookup_granted. destruct (decide (u = uid)) as [->|Hu].
    + rewrite (bool_decide_eq_true_2 (uid = uid)) by done. rewrite Hown. case_bool_decide as Hin; [naive_solver|].
      split; [by intros []|]. intros Ht. by destruct Hin.
    + rewrite (bool_decide_eq_false_2 (u = uid)), (bool_decide_eq_false_2 (u = uid ∧ _)) by naive_solver.
      by rewrite Hother.
  - intros u t Hu. rewrite lookup_granted, bool_decide_eq_false_2 by naive_solver. by apply Hother.
  - intros t p. rewrite lookup_granted, Hown. case_bool_decide; [|done]. intros [= <-]. naive_solver.
Qed.

(** Adding and removing tools: with the stores working and the user known, the
    user holds afterwards the tools held before with the new ones, or without the
    removed ones, whatever white space surrounds the names, and nobody else's
    permissions change. Both rewrite every permission the user keeps, so that each
    of them is then recorded as granted by the one who made the change, now. *)
Theorem user_tools_correct session id r tools w :
  h.(ah_userStore) = true → w.(aw_access).(ac_faults) = [] → permissions_ok w.(aw_access) →
  TrimSpace id ≠ "" → is_Some (w.(aw_access).(ac_users) !! TrimSpace id) → r.(rq_Names) = Some tools →
  let named t := t ∈ TrimSpace <$> default [] tools in
  let done_by handler (holds : string → Prop) :=
    ∃ w', handler h session id r w = (Redirect ("/admin/users/" +:+ id), w') ∧
      (∀ t, granted w' (TrimSpace id) t ↔ holds t) ∧
      (∀ u t, u ≠ TrimSpace id → w'.(aw_access).(ac_perms) !! (u, t) = w.(aw_access).(ac_perms) !! (u, t)) ∧
      (∀ t p, w'.(aw_access).(ac_perms) !! (TrimSpace id, t) = Some p →
        p.(up_GrantedBy) = TrimSpace (session_actor session) ∧ p.(up_GrantedAt) = aw_now w) in
  done_by HandleUserToolsAdd (λ t, granted w (TrimSpace id) t ∨ named t) ∧
  done_by HandleUserToolsRemove (λ t, granted w (TrimSpace id) t ∧ ¬ named t).
Proof.
  intros Hs Hf Hok Hid Hu Hr named done_by.
  set (existing := (map_to_list (filter (λ p, p.1.1 = TrimSpace id) w.(aw_access).(ac_perms))).*2).
  assert (∀ handler names event byKey (holds : string → Prop),
    (∀ s i q, handler h s i q = change_tools h names event byKey s i q) →
    NoDup (names existing (default [] tools)) → Forall trimmed (names existing (default [] tools)) →
    (∀ t, t ∈ names existing (default [] tools) ↔ holds t) → done_by handler holds) as Hall.
  { intros handler names event byKey holds Hh Hnd Ht Hl.
    destruct (change_tools_replaces names event byKey session id r tools w Hs Hf Hid Hu Hr Hnd Ht) as (w' & Hw & Hp).
    exists w'. rewrite Hh. split; [done|]. unfold granted. rewrite Hp.
    destruct (replaced_holders w.(aw_access).(ac_perms) (TrimSpace id) (TrimSpace (session_actor session)) (aw_now w)
      (names existing (default [] tools))) as (H1 & H2 & H3).
    split_and!; [|done|].
    - intros t. pose proof (H1 (TrimSpace id) t) as Hgt. rewrite bool_decide_eq_true_2 in Hgt by done.
      rewrite <-Hl. exact Hgt.
    - intros t p Hp'. by destruct (H3 _ _ Hp') as [-> _]. }
  pose proof (existing_trimmed _ (TrimSpace id) Hok) as Htr.
  assert (∀ t, t ∈ up_ToolName <$> existing ↔ granted w (TrimSpace id) t) as Hlisted by (intros t; by apply listed_tools).
  split; eapply Hall; try (intros; reflexivity).
  - apply NoDup_remove_dups.
  - apply Forall_forall. intros t [Ht|Ht]%elem_of_remove_dups%elem_of_app.
    + by eapply Forall_forall in Htr.
    + apply list_elem_of_fmap in Ht as (x & -> & _). apply TrimSpace_trimmed.
  - intros t. unfold merged_names. by rewrite elem_of_remove_dups, elem_of_app, Hlisted.
  - unfold remaining_names. apply NoDup_ListNoDup, List.NoDup_filter, NoDup_ListNoDup. by apply listed_tools_NoDup.
  - unfold remaining_names. apply Forall_forall. intros t Ht. apply list_elem_of_In, filter_In in Ht as [Ht _].
    apply list_elem_of_In in Ht. by eapply Forall_forall in Htr.
  - intros t. unfold remaining_names. rewrite list_elem_of_In, filter_In, <-list_elem_of_In, Hlisted.
    rewrite negb_true_iff, bool_decide_eq_false. done.
Qed.

End users.

(** ** The CSV export *)

(** A reader of CSV after RFC 4180: fields separated by commas, records ended by
    line feeds, quoted fields with doubled quotes. *)
Inductive csv_state := Start | Plain | Quoted | QuoteSeen.
#[export] Instance csv_state_eq_dec : EqDecision csv_state.
Proof. solve_decision. Defined.

Fixpoint csv_go (st : csv_state) (cell : bytes) (row : list bytes) (l : bytes) : option (list (list bytes)) :=
  match l with
  | [] => match st, row with
          | Quoted, _ => None
          | Start, [] => Some []
          | _, _ => Some [row ++ [cell]]
          end
  | a :: l' =>
      let ended := bool_decide (st ≠ Quoted) in
      if ended && bool_decide (a = ","%char) then csv_go Start [] (row ++ [cell]) l'
      else if ended && bool_decide (a = newline) then cons (row ++ [cell]) <$> csv_go Start [] [] l'
      else
        match st, bool_decide (a = quote_byte) with
        | Start, true => csv_go Quoted [] row l'
        | Start, false | Plain, false => csv_go Plain (cell ++ [a]) row l'
        | Plain, true | QuoteSeen, false => None
        | Quoted, true => csv_go QuoteSeen cell row l'
        | Quoted, false => csv_go Quoted (cell ++ [a]) row l'
        | QuoteSeen, true => csv_go Quoted (cell ++ [a]) row l'
        end
  end.

Definition csv_read (l : bytes) : option (list (list bytes)) := csv_go Start [] [] l.

(** After a cell: the next one, or the next record. *)
Definition cell_end (sep : ascii) (row : list bytes) (cell rest : bytes) : option (list (list bytes)) :=
  if bool_decide (sep = ","%char) then csv_go Start [] (row ++ [cell]) rest
  else cons (row ++ [cell]) <$> csv_go Start [] [] rest.

Definition separator (sep : ascii) : Prop := sep = ","%char ∨ sep = newline.

Lemma csv_end st sep row cell rest :
  separator sep → st ≠ Quoted → csv_go st cell row (sep :: rest) = cell_end sep row cell rest.
Proof.
  intros Hsep Hst. cbn [csv_go]. rewrite (bool_decide_eq_true_2 (st ≠ Quoted)) by done. cbn [andb]. unfold cell_end.
  destruct Hsep as [-> | ->]; [by rewrite bool_decide_eq_true_2|].
  change (bool_decide (newline = ","%char)) with false. by rewrite (bool_decide_eq_true_2 (newline = newline)).
Qed.

(** A byte that is not special goes to its cell. *)
Lemma csv_byte st a cell row l :
  st = Start ∨ st = Plain → csv_special a = false → csv_go st cell row (a :: l) = csv_go Plain (cell ++ [a]) row l.
Proof.
  intros Hst Ha%bool_decide_eq_false. cbn [csv_go].
  rewrite (bool_decide_eq_false_2 (a = ","%char)), (bool_decide_eq_false_2 (a = newline)),
    (bool_decide_eq_false_2 (a = quote_byte)) by set_solver.
  rewrite !andb_false_r. by destruct Hst as [-> | ->].
Qed.

Lemma csv_plain l sep row cell rest :
  separator sep → existsb csv_special l = false →
  csv_go Plain cell row (l ++ sep :: rest) = cell_end sep row (cell ++ l) rest.
Proof.
  intros Hsep. revert cell. induction l as [|a l IH]; intros cell Hl; cbn [app].
  - rewrite csv_end by done. by rewrite app_nil_r.
  - cbn [existsb] in Hl. apply orb_false_iff in Hl as [Ha Hl].
    rewrite csv_byte by (done || by right). rewrite IH by done. by rewrite <-app_assoc.
Qed.

Lemma csv_quoted l sep row cell rest :
  separator sep →
  csv_go Quoted cell row (replace_byte quote_byte [quote_byte; quote_byte] l ++ quote_byte :: sep :: rest) =
  cell_end sep row (cell ++ l) rest.
Proof.
  intros Hsep. revert cell. induction l as [|a l IH]; intros cell.
  - change (csv_go QuoteSeen cell row (sep :: rest) = cell_end sep row (cell ++ []) rest).
    rewrite csv_end by done. by rewrite app_nil_r.
  - change (replace_byte quote_byte [quote_byte; quote_byte] (a :: l)) with
      ((if bool_decide (a = quote_byte) then [quote_byte; quote_byte] else [a]) ++
       replace_byte quote_byte [quote_byte; quote_byte] l).
    specialize (IH (cell ++ [a])). rewrite <-app_assoc in IH. cbn [app] in IH. rewrite <-IH.
    destruct (bool_decide_reflect (a = quote_byte)) as [->|Ha]; [done|]. cbn [app csv_go].
    by rewrite (bool_decide_eq_false_2 (a = quote_byte)).
Qed.

Definition csv_cell (s : string) : bytes := guard_formula (to_bytes s).

(** A cell without special bytes, and any escaped one. *)
Lemma csv_bare l sep row rest :
  separator sep → existsb csv_special l = false → csv_go Start [] row (l ++ sep :: rest) = cell_end sep row l rest.
Proof.
  intros Hsep Hl. destruct l as [|a l]; [by apply csv_end|].
  cbn [existsb] in Hl. apply orb_false_iff in Hl as [Ha Hl]. cbn [app].
  rewrite csv_byte by (done || by left). by rewrite csv_plain.
Qed.

Lemma csv_escaped s sep row rest :
  separator sep → csv_go Start [] row (csvEscape s ++ sep :: rest) = cell_end sep row (csv_cell s) rest.
Proof.
  intros Hsep. unfold csvEscape. fold (csv_cell s). destruct (existsb csv_special (csv_cell s)) eqn:El; [|by apply csv_bare].
  cbn [app]. rewrite <-app_assoc. exact (csv_quoted (csv_cell s) sep row [] rest Hsep).
Qed.

(** Times are written without special bytes, and begin with a digit. *)
Definition time_byte (a : ascii) : bool := is_digit a || one_of "-T:Z+" a.

Lemma time_byte_plain a : time_byte a = true → csv_special a = false.
Proof. revert a. refine (every_byte _ _). by_evaluation. Qed.

Lemma dec_char_digit z : is_digit (dec_char (z mod 10)) = true.
Proof. apply dec_char_spec, Z.mod_pos_bound. lia. Qed.

Lemma pad_time_bytes n z : forallb time_byte (pad n z) = true.
Proof.
  revert z. induction n as [|n IH]; intros z; [done|]. cbn [pad]. rewrite forallb_app, IH. cbn [forallb].
  unfold time_byte. by rewrite dec_char_digit.
Qed.

Lemma pad_head n z : ∃ a l, pad (S n) z = a :: l ∧ is_digit a = true.
Proof.
  revert z. induction n as [|n IH]; intros z.
  - exists (dec_char (z mod 10)), []. split; [done|apply dec_char_digit].
  - destruct (IH (z / 10)%Z) as (a & l & Hp & Ha). exists a, (l ++ [dec_char (z mod 10)]).
    split; [|done]. change (pad (S (S n)) z) with (pad (S n) (z / 10) ++ [dec_char (z mod 10)]). by rewrite Hp.
Qed.

Lemma zone_written_bytes off : forallb time_byte (zone_written off) = true.
Proof.
  unfold zone_written. destruct (off =? 0)%Z; [done|]. rewrite !forallb_app, !pad_time_bytes.
  by destruct (off <? 0)%Z.
Qed.

Lemma format_bytes off t :
  existsb csv_special (to_bytes (FormatRFC3339 false off t)) = false ∧
  ∃ a l, to_bytes (FormatRFC3339 false off t) = a :: l ∧ is_digit a = true.
Proof.
  unfold FormatRFC3339. destruct (civil_from_days _) as [[year month] day]. rewrite to_of_bytes. split.
  - match goal with |- existsb _ ?l = _ => assert (forallb time_byte l = true) as Hl end.
    { rewrite !forallb_app, !pad_time_bytes, zone_written_bytes. done. }
    apply not_true_iff_false. rewrite existsb_exists. intros (a & Ha & Hs).
    rewrite forallb_forall in Hl. by rewrite (time_byte_plain a (Hl a Ha)) in Hs.
  - destruct (pad_head 3 year) as (a & l & -> & Ha). by eexists a, _.
Qed.

(** The cells of a record of the export. *)
Definition export_cells (zone : Z) (details_json : list (string * document) → string) (e : AuditRow) : list bytes :=
  [to_bytes (FormatRFC3339 false zone e.(al_CreatedAt)); csv_cell e.(al_EventType); csv_cell e.(al_ClientID);
   csv_cell e.(al_Username); csv_cell e.(al_ServerName); csv_cell (details_json e.(al_Details))].

Lemma csv_line_read zone dj e rest :
  csv_go Start [] [] (csv_line zone dj e ++ rest) = cons (export_cells zone dj e) <$> csv_go Start [] [] rest.
Proof.
  unfold csv_line. change (to_bytes ",") with [","%char]. rewrite <-!app_assoc. cbn [app].
  assert (separator ","%char) as Hc by by left. assert (separator newline) as Hn by by right.
  rewrite csv_bare by (done || apply format_bytes). change (cell_end ","%char ?r ?c ?l) with (csv_go Start [] (r ++ [c]) l).
  do 4 (rewrite csv_escaped by done; change (cell_end ","%char ?r ?c ?l) with (csv_go Start [] (r ++ [c]) l)).
  by rewrite csv_escaped.
Qed.

Definition harmless (cell : bytes) : bool := match cell with a :: _ => negb (formula_start a) | [] => true end.

Lemma csv_cell_harmless s : harmless (csv_cell s) = true.
Proof. unfold csv_cell, guard_formula. destruct (to_bytes s) as [|a l]; [done|]. destruct (formula_start a) eqn:Ea; [done|]. cbn. by rewrite Ea. Qed.

Lemma digit_harmless a : is_digit a = true → formula_start a = false.
Proof. revert a. refine (every_byte _ _). by_evaluation. Qed.

(** C29: The CSV export: a reader of CSV gets back the header and one record of six
    cells for each entry, in order, whatever commas, quotes and line breaks the
    entries contain; a cell is the text of its field, after a single quote where
    the text begins like a formula, and no cell begins like a formula. *)
Theorem export_roundtrip zone details_json entries :
  csv_read (writeAuditCSV zone details_json entries) =
    Some ((to_bytes <$> ["time"; "event_type"; "client_id"; "username"; "server_name"; "details"]) ::
          (export_cells zone details_json <$> entries)) ∧
  Forall (Forall (λ cell, harmless cell = true)) (export_cells zone details_json <$> entries).
Proof.
  split.
  - unfold csv_read, writeAuditCSV. trans (cons (to_bytes <$> ["time"; "event_type"; "client_id"; "username"; "server_name"; "details"])
      <$> csv_go Start [] [] (mjoin (csv_line zone details_json <$> entries))); [reflexivity|].
    assert (csv_go Start [] [] (mjoin (csv_line zone details_json <$> entries)) =
      Some (export_cells zone details_json <$> entries)) as ->; [|done].
    induction entries as [|e entries IH]; [done|].
    change (mjoin (csv_line zone details_json <$> e :: entries))
      with (csv_line zone details_json e ++ mjoin (csv_line zone details_json <$> entries)).
    by rewrite csv_line_read, IH.
  - apply Forall_fmap, Forall_forall. intros e _. unfold compose, export_cells.
    repeat constructor; try apply csv_cell_harmless.
    destruct (format_bytes zone e.(al_CreatedAt)) as [_ (a & l & -> & Ha)]. cbn. by rewrite digit_harmless.
Qed.

(** ** The audit query *)

(** The escape of a pattern, byte by byte. *)
Definition escaped_byte (a : ascii) : bytes :=
  if bool_decide (a ∈ [backslash; percent; underscore]) then [backslash; a] else [a].
Definition escaped (l : bytes) : bytes := mjoin (escaped_byte <$> l).

Lemma replace_byte_cons c new a l :
  replace_byte c new (a :: l) = (if bool_decide (a = c) then new else [a]) ++ replace_byte c new l.
Proof. done. Qed.

Lemma replace_byte_app c new l k : replace_byte c new (l ++ k) = replace_byte c new l ++ replace_byte c new k.
Proof.
  induction l as [|a l IH]; [done|]. rewrite <-app_comm_cons, !replace_byte_cons, IH. by rewrite app_assoc.
Qed.

Lemma escaped_one a :
  replace_byte underscore [backslash; underscore] (replace_byte percent [backslash; percent]
    (if bool_decide (a = backslash) then [backslash; backslash] else [a])) = escaped_byte a.
Proof. revert a. refine (every_byte _ _). by_evaluation. Qed.

Lemma escape_bytes s : to_bytes (escapeILikePattern s) = escaped (to_bytes s).
Proof.
  unfold escapeILikePattern. rewrite to_of_bytes. induction (to_bytes s) as [|a l IH]; [done|].
  rewrite (replace_byte_cons backslash), !replace_byte_app, escaped_one, IH. done.
Qed.

Lemma like_percent s : like [percent] s = Some true.
Proof. induction s as [|b s IH]; [done|]. exact IH. Qed.

(** An escaped byte matches itself only. *)
Lemma like_escaped_byte a p s :
  like (escaped_byte a ++ p) s =
  match s with [] => Some false | b :: s' => if bool_decide (a = b) then like p s' else Some false end.
Proof.
  unfold escaped_byte. case_bool_decide as Ha.
  - destruct s as [|b s]; [done|]. cbn [app like].
    change (bool_decide (backslash = percent)) with false. change (bool_decide (backslash = underscore)) with false.
    change (bool_decide (backslash = backslash)) with true. done.
  - destruct s as [|b s]; cbn [app like]; rewrite (bool_decide_eq_false_2 (a = percent)) by set_solver; [done|].
    rewrite (bool_decide_eq_false_2 (a = underscore)), (bool_decide_eq_false_2 (a = backslash)) by set_solver. done.
Qed.

Lemma like_escaped l s : like (escaped l ++ [percent]) s = Some (bool_decide (is_Some (strip_prefix l s))).
Proof.
  revert s. induction l as [|a l IH]; intros s; [by rewrite like_percent|].
  change (escaped (a :: l)) with (escaped_byte a ++ escaped l). rewrite <-app_assoc, like_escaped_byte.
  destruct s as [|b s]; [done|]. cbn [strip_prefix]. destruct (bool_decide (a = b)); [apply IH|done].
Qed.

(** An escaped pattern between two [%] finds the text it stands for, literally. *)
Lemma like_contains l s :
  like (percent :: escaped l ++ [percent]) s = Some (match cut l s with Some _ => true | None => false end).
Proof.
  cbn [like]. change (bool_decide (percent = percent)) with true. cbv iota.
  induction s as [|b s IH]; rewrite like_escaped; cbn [cut].
  - by destruct (strip_prefix l []).
  - destruct (strip_prefix l (b :: s)); [done|]. cbn [is_Some]. rewrite bool_decide_eq_false_2 by (by intros []).
    rewrite IH. by destruct (cut l s) as [[]|].
Qed.

Section query.
Context `{U : UnicodeTables} `{P : Postgres} `{PT : PgText} `{!PgTextLaws PT}.

Definition lower (s : string) : string := of_bytes (pg_lower (to_bytes s)).

Lemma ilike_literal p s : ilike_around (escapeILikePattern p) s = Contains (lower s) (lower p).
Proof.
  unfold ilike_around, ilike. rewrite pg_lower_around, pg_lower_escape, escape_bytes, to_of_bytes, like_contains.
  unfold Contains, lower. by rewrite !to_of_bytes.
Qed.

(** A text is searched for when it is not blank. *)
Definition searched (needle hay : string) : Prop :=
  TrimSpace needle = "" ∨ Contains (lower hay) (lower (TrimSpace needle)) = true.
Definition asked (needle hay : string) : Prop := TrimSpace needle = "" ∨ hay = TrimSpace needle.

(** The entries a filter asks for. *)
Definition audit_matches (f : AuditFilter) (r : AuditRow) : Prop :=
  asked f.(af_EventType) r.(al_EventType) ∧ asked f.(af_ClientID) r.(al_ClientID) ∧
  searched f.(af_ServerName) r.(al_ServerName) ∧
  (∀ t, f.(af_Since) = Some t → (t <= r.(al_CreatedAt))%Z) ∧ (∀ t, f.(af_Until) = Some t → (r.(al_CreatedAt) <= t)%Z) ∧
  searched f.(af_DetailsSearch) (jsonb_text r.(al_Details)) ∧ searched f.(af_Username) r.(al_Username).

Lemma when_searched needle hay : when (optionalILikeString needle) (λ x, ilike_around x hay) = true ↔ searched needle hay.
Proof.
  unfold optionalILikeString, searched. case_bool_decide as Hn; cbn [when]; [naive_solver|].
  rewrite ilike_literal. naive_solver.
Qed.

Lemma when_asked needle hay : when (optionalString needle) (λ x, bool_decide (hay = x)) = true ↔ asked needle hay.
Proof.
  unfold optionalString, asked. case_bool_decide as Hn; cbn [when]; [naive_solver|].
  rewrite bool_decide_eq_true. naive_solver.
Qed.

Lemma when_time (o : option Z) (f : Z → bool) (Q : Z → Prop) :
  (∀ t, f t = true ↔ Q t) → when o f = true ↔ ∀ t, o = Some t → Q t.
Proof. intros Hf. destruct o as [t|]; cbn [when]; [rewrite Hf|]; naive_solver. Qed.

Lemma audit_where_matches f r : audit_where f r = true ↔ audit_matches f r.
Proof.
  unfold audit_where, audit_matches. rewrite !andb_true_iff, !when_searched, !when_asked.
  rewrite (when_time _ _ (λ t, t <= al_CreatedAt r)%Z) by (intros t; apply Z.leb_le).
  rewrite (when_time _ _ (λ t, al_CreatedAt r <= t)%Z) by (intros t; apply Z.leb_le). tauto.
Qed.

Lemma column_le_total column : Total (column_le column).
Proof.
  pose proof collation_total. intros r s. unfold column_le. repeat (destruct (bool_decide _); [apply (total collation)|]). lia.
Qed.

Lemma order_by_total column dir : Total (order_by column dir).
Proof. pose proof (column_le_total column) as Ht. intros r s. unfold order_by. destruct (bool_decide _); apply Ht. Qed.

(** C28: The audit query: it answers with a window of the entries the filter asks for,
    each once and in the order asked for, and the count is the number of those
    entries. The texts that are searched for are found literally and without
    regard to case: the signs of patterns in them stand for themselves. *)
Theorem audit_query_correct f db :
  db.(ad_faults) = [] →
  ∃ rows, AuditQuery f db = (Ok (window (row_limit f.(af_Limit)) (row_offset f.(af_Offset)) rows), db) ∧
    AuditCount f db = (Ok (length rows), db) ∧
    Sorted (order_by (NormalizeAuditSortBy f.(af_SortBy)) (NormalizeAuditSortDir f.(af_SortDir))) rows ∧
    ∃ asked_for, (∀ r, asked_for r = true ↔ audit_matches f r) ∧ rows ≡ₚ List.filter asked_for db.(ad_audit).
Proof.
  intros Hf. exists (audit_rows f db).
  pose proof (order_by_total (NormalizeAuditSortBy (af_SortBy f)) (NormalizeAuditSortDir (af_SortDir f))) as Ht.
  split_and!.
  - unfold AuditQuery, ad_context, ad_exec. by rewrite Hf.
  - unfold AuditCount, ad_context, ad_exec. rewrite Hf. unfold audit_rows. by rewrite merge_sort_Permutation.
  - apply (Sorted_merge_sort _).
  - exists (audit_where f). split; [apply audit_where_matches|apply merge_sort_Permutation].
Qed.
End query.

(** ** Walking through pages *)

Lemma digit_written d : (d < 10)%N → digit (pretty_N_char d) = Some d.
Proof. destruct d as [|p]; [done|]. intros Hp. do 4 (destruct p as [p|p|]; try reflexivity; try lia). Qed.

Lemma pretty_N_go_value x s : dec_value 0 (to_bytes (pretty_N_go x s)) = dec_value x (to_bytes s).
Proof.
  revert s. induction (N.lt_wf_0 x) as [x _ IH]. intros s. destruct (decide (0 < x)%N) as [Hx|Hx].
  - rewrite pretty_N_go_step by done. rewrite IH by (apply N.div_lt; lia).
    cbn [to_bytes String.list_ascii_of_string dec_value].
    rewrite digit_written by (apply N.mod_lt; lia).
    f_equal. pose proof (N.div_mod x 10). lia.
  - assert (x = 0)%N as -> by lia. by rewrite pretty_N_go_0.
Qed.

Definition digit_byte (a : ascii) : bool := bool_decide (is_Some (digit a)).

Lemma pretty_N_go_digits x s :
  forallb digit_byte (to_bytes s) = true → forallb digit_byte (to_bytes (pretty_N_go x s)) = true.
Proof.
  revert s. induction (N.lt_wf_0 x) as [x _ IH]; intros s Hs. destruct (decide (0 < x)%N).
  - rewrite pretty_N_go_step by done. apply IH; [apply N.div_lt; lia|].
    cbn [to_bytes String.list_ascii_of_string forallb]. rewrite Hs, andb_true_r. unfold digit_byte.
    by rewrite digit_written by (apply N.mod_lt; lia).
  - replace x with 0%N by lia. by rewrite pretty_N_go_0.
Qed.

Lemma digit_byte_plain a : digit_byte a = true → a ≠ "-"%char ∧ a ≠ "+"%char ∧ graphic a = true.
Proof. revert a. refine (every_byte _ _). by_evaluation. Qed.

(** A number that is written is read back. *)
Lemma Atoi_written z : (0 <= z <= max_int64)%Z → Atoi (pretty z) = Some z ∧ TrimSpace (pretty z) = pretty z ∧ pretty z ≠ "".
Proof.
  intros Hz. destruct z as [|p|p]; [by vm_compute| |lia].
  change (pretty (Z.pos p)) with (pretty_N_go (N.pos p) "").
  pose proof (pretty_N_go_digits (N.pos p) "" eq_refl) as Hd. pose proof (pretty_N_go_value (N.pos p) "") as Hv.
  change (dec_value (N.pos p) (to_bytes "")) with (Some (N.pos p)) in Hv. split_and!.
  - unfold Atoi. destruct (to_bytes _) as [|a l]; [done|]. cbn [forallb] in Hd. apply andb_true_iff in Hd as [Ha _].
    destruct (digit_byte_plain a Ha) as (Hm & Hp & _).
    rewrite (bool_decide_eq_false_2 _ Hm), (bool_decide_eq_false_2 _ Hp), Hv. cbn.
    rewrite (proj2 (Z.leb_le _ max_int64)) by lia. done.
  - apply TrimSpace_graphic. rewrite forallb_forall in *. intros a Ha. by destruct (digit_byte_plain a (Hd a Ha)) as (_ & _ & ?).
  - intros He. rewrite He in Hv. done.
Qed.

Section walk.
Context `{U : UnicodeTables} `{P : Postgres} `{PT : PgText} {E : Type} `{SE : SearchEngine E} `{ES : EngineStatus E}.
Context (h : AdminHandler).
Implicit Types w : AdminWorld E.

(** A query with another cursor. *)
Definition with_cursor (q : string → string) (cursor : string) : string → string :=
  λ k, if bool_decide (k = "cursor") then cursor else q k.

(** A client that lists the tools and follows [next_cursor] until it is empty. *)
Fixpoint walk_tools (fuel : nat) (q : string → string) (cursor : string) w : option (list ToolClassification) :=
  match fuel with
  | O => None
  | S fuel' =>
      match HandleIntegratedTools h (with_cursor q cursor) w with
      | ((_, BTools items _ next), w') =>
          if bool_decide (next = "") then Some items else app items <$> walk_tools fuel' q next w'
      | _ => None
      end
  end.

(** The tools a query asks for, in order. *)
Definition asked_tools (q : string → string) w : list ToolClassification :=
  tool_rows (mkToolFilter (TrimSpace (q "q")) (risk_of (first_text [q "classification"; q "risk"])) 0 0) w.(aw_reg).(w_db).

Lemma tool_rows_length f db :
  length (List.filter (tool_where f) (map_to_list db.(db_classifications)).*2) = length (tool_rows f db).
Proof. unfold tool_rows. by rewrite merge_sort_Permutation. Qed.

(** One page. *)
Lemma tools_page q cursor limit offset w :
  h.(ah_classificationStore) = true → w.(aw_reg).(w_db).(db_faults) = [] → (0 < limit)%Z → (0 <= offset)%Z →
  parseLimitOffset (with_cursor q cursor) defaultPageSize = inr (limit, offset) →
  HandleIntegratedTools h (with_cursor q cursor) w =
    ((200%Z, BTools (window limit offset (asked_tools q w)) (length (asked_tools q w))
       (page_cursor offset limit (length (asked_tools q w)))), w).
Proof.
  intros Hs Hf Hl Ho Hp. unfold HandleIntegratedTools. rewrite Hp. unfold if_stored. rewrite Hs.
  set (f := mkToolFilter _ _ _ _). change (asked_tools q w) with (tool_rows f (w_db (aw_reg w))).
  assert (on_registry (ClassificationSearch f) w =
    (Ok (window limit offset (tool_rows f (w_db (aw_reg w))), length (tool_rows f (w_db (aw_reg w)))), w)) as Hc.
  { unfold on_registry, on_db, ClassificationSearch, bind, wrap_error, statement. rewrite Hf, Hf.
    rewrite tool_rows_length. cbn [tf_Limit tf_Offset f]. unfold page_limit.
    rewrite (proj2 (Z.leb_gt limit 0)), Z.max_l by lia. by destruct w as [[] ? ? ? ?]. }
  unfold call. by rewrite Hc.
Qed.

Lemma parse_limit_bounds q limit offset :
  parseLimitOffset q defaultPageSize = inr (limit, offset) → (0 < limit <= 1000)%Z.
Proof.
  unfold parseLimitOffset, defaultPageSize. intros Hp. cbv zeta in Hp.
  match type of Hp with match ?l with _ => _ end = _ => destruct l as [x|] eqn:El; [|done] end.
  assert (x = limit) as ->.
  { clear El. revert Hp. destruct (bool_decide _); [by intros [=]|]. destruct (Atoi _) as [n|]; [|done].
    destruct (n <? 0)%Z; [done|]. by intros [=]. }
  clear Hp. revert El. destruct (bool_decide _); [by intros [= <-]|]. destruct (Atoi _) as [n|]; [|done].
  destruct (n <=? 0)%Z eqn:E1; [done|]. intros [= <-]. destruct (1000 <? n)%Z eqn:E2; lia.
Qed.

Lemma parse_cursor q limit n :
  parseLimitOffset (with_cursor q "") defaultPageSize = inr (limit, 0%Z) → (0 <= n <= max_int64)%Z →
  parseLimitOffset (with_cursor q (pretty n)) defaultPageSize = inr (limit, n).
Proof.
  intros Hp Hn. destruct (Atoi_written n Hn) as (Ha & Ht & Hne). unfold parseLimitOffset in *. cbv zeta in *.
  change (with_cursor q ?c "limit") with (q "limit") in *. change (with_cursor q ?c "cursor") with c in *.
  match type of Hp with match ?l with _ => _ end = _ => destruct l as [x|] eqn:El; [|done] end.
  change (bool_decide (TrimSpace "" = "")) with true in Hp. injection Hp as ->.
  rewrite Ht, Ha, bool_decide_eq_false_2 by done. by rewrite (proj2 (Z.ltb_ge n 0)) by lia.
Qed.

(** What a walk from an offset on collects. *)
Lemma walk_from q limit w fuel cursor offset :
  h.(ah_classificationStore) = true → w.(aw_reg).(w_db).(db_faults) = [] →
  parseLimitOffset (with_cursor q "") defaultPageSize = inr (limit, 0%Z) →
  (Z.of_nat (length (asked_tools q w)) + 1000 <= max_int64)%Z →
  parseLimitOffset (with_cursor q cursor) defaultPageSize = inr (limit, Z.of_nat offset) →
  offset ≤ length (asked_tools q w) → length (asked_tools q w) < fuel + offset →
  walk_tools fuel q cursor w = Some (drop offset (asked_tools q w)).
Proof.
  intros Hs Hf Hq Hmax. pose proof (parse_limit_bounds _ _ _ Hq) as Hl. set (rows := asked_tools q w) in *.
  revert cursor offset. induction fuel as [|fuel IH]; intros cursor offset Hc Ho Hfuel; [lia|].
  cbn [walk_tools]. rewrite (tools_page q cursor limit (Z.of_nat offset) w Hs Hf) by (lia || done). fold rows.
  rewrite window_spec, Nat2Z.id. unfold page_cursor, nextCursor. rewrite (proj2 (Z.leb_gt limit 0)) by lia. cbn [orb].
  rewrite wrap_i64_id by (unfold int64_range, min_int64, max_int64 in *; lia).
  destruct (Z.of_nat (length rows) <=? 0)%Z eqn:E0.
  { apply Z.leb_le in E0. cbn. rewrite take_ge; [done|]. rewrite length_drop. lia. }
  destruct (Z.of_nat (length rows) <=? Z.of_nat offset + limit)%Z eqn:E1.
  { apply Z.leb_le in E1. cbn. rewrite take_ge; [done|]. rewrite length_drop. lia. }
  apply Z.leb_gt in E1. destruct (Atoi_written (Z.of_nat offset + limit)) as (_ & _ & Hne); [lia|].
  rewrite bool_decide_eq_false_2 by done. rewrite (IH _ (offset + Z.to_nat limit)); [|rewrite (parse_cursor q limit) by (done || lia)|lia..].
  - cbn. f_equal. rewrite <-drop_drop. apply take_drop.
  - repeat f_equal. lia.
Qed.

(** C30: Walking through the tools: a client that follows the cursors of the listing,
    with any limit and any filter the API accepts, ends, and has then seen every
    tool that matches, once each and in order. *)
Theorem cursor_walk_complete q limit w :
  h.(ah_classificationStore) = true → w.(aw_reg).(w_db).(db_faults) = [] →
  parseLimitOffset (with_cursor q "") defaultPageSize = inr (limit, 0%Z) →
  (Z.of_nat (length (asked_tools q w)) + 1000 <= max_int64)%Z →
  walk_tools (S (length (asked_tools q w))) q "" w = Some (asked_tools q w).
Proof. intros Hs Hf Hq Hmax. rewrite (walk_from q limit w _ "" 0); [done..|exact Hq|lia|lia]. Qed.

End walk.
