(* ===== verification/AdminWitness.v ===== *)
(** * The administration on concrete states

    Instances of the parameters, and the theorems on the administration applied to
    a gateway with one server, one user and the BM25 engine. *)

From stdpp Require Import pretty.
From S2P Require Import Prelude GoStrings Encoding GoNet GoFloat Types Store Json GoParse Classification CapIndex Registration RegHandlers RegWitness AccessStore Routing Search Discovery Document JsonText Codec AdminStore AdminAuth AdminAuthProps AdminOps AdminAPI Dashboard AdminProps AdminData.

#[local] Open Scope string_scope.
#[local] Open Scope list_scope.
#[local] Open Scope nat_scope.
#[local] Open Scope go_scope.

#[local] Existing Instance ascii_tables.
#[local] Existing Instance example_pg.

(** A database in the C locale. *)
Definition example_text : PgText := {|
  pg_lower l := lower_byte <$> l;
  jsonb_text d := of_bytes (json_print (AObj d));
  collation := String.le;
  collation_dec := _;
|}.
#[local] Existing Instance example_text.

Lemma lower_escaped_byte a : lower_byte <$> escaped_byte a = escaped_byte (lower_byte a).
Proof. revert a. refine (every_byte _ _). by_evaluation. Qed.

Lemma example_text_laws : PgTextLaws example_text.
Proof.
  split.
  - intros l. cbn. by rewrite fmap_app.
  - intros s. rewrite !escape_bytes. cbn [pg_lower example_text]. rewrite to_of_bytes.
    induction (to_bytes s) as [|a l IH]; [done|].
    change (escaped (a :: l)) with (escaped_byte a ++ escaped l). rewrite fmap_app, lower_escaped_byte, IH. done.
  - apply _.
  - apply _.
Qed.

#[local] Instance example_engine : SearchEngine BM25Engine := bm25_engine id.

(** ** The state *)

Definition example_user : User := mkUser "u1" "sub" "ann@x" "Ann" RoleUser 0 0.
Definition example_access : AccessDB :=
  mkAccessDB 0 ∅ {["u1" := example_user]} {[("u1", "files.read") := mkUserToolPermission "u1" "files.read" "root" 5]} [] 0.
Definition example_admin_db : AdminDB := mkAdminDB 7 [] ∅ [] [] 0.
Definition example_tools : gmap string ToolClassification :=
  list_to_map ((λ n, (n, mkToolClassification n RiskWrite "" true "" 0)) <$> ["a"; "b"; "c"]).
Definition example_world : AdminWorld BM25Engine :=
  mkAdminWorld (set_db (set_classifications example_tools once_indexed.(w_db)) once_indexed)
    example_access example_admin_db None None.
Definition example_admin : AdminHandler := mkAdminHandler true true true true true true true true "" "" None.

Definition example_headers (role : string) : DelegatedHeaders :=
  mkDelegatedHeaders false "Bearer secret" "sub" "ann@x" "t1" "owner" role.
Definition example_delegated (role body : string) : IntegratedRequest :=
  mkIntegratedRequest (example_headers role) (λ _, "") "" body.

Definition example_serve := serve_integrated (E := BM25Engine) (λ _, "0") 0 (λ d, of_bytes (json_print (AObj d))) example_admin.

Lemma admin_api_guarded_witness :
  let '(_, w') := example_serve "secret" (At (PostDeregister "d0")) (example_delegated "admin" "") example_world in
  tables w' ≠ tables example_world ∧
  ∃ identity, identity.(di_GatewayRole) ∈ ["editor"; "admin"] ∧
    IntegratedDelegatedAuthMiddleware "secret" (example_headers "admin") = inr identity.
Proof.
  pose proof (admin_api_guarded (E := BM25Engine) (λ _, "0") 0 (λ d, of_bytes (json_print (AObj d))) example_admin
    "secret" (At (PostDeregister "d0")) (example_delegated "admin" "") example_world) as Hg.
  unfold example_serve. destruct (serve_integrated _ _ _ _ _ _ _ _) as [rep w'] eqn:Es.
  assert (tables w' ≠ tables example_world) as Hne.
  { intros Heq. apply tables_audit_log in Heq. apply (f_equal (λ p, length (audit_log p.2))) in Es.
    cbn [snd] in Es. rewrite Heq in Es. by vm_compute in Es. }
  split; [exact Hne|]. destruct (Hg Hne) as (e & identity & _ & Hm & _ & _ & _ & _ & Hr & _).
  exists identity. exact (conj Hr Hm).
Defined.

Lemma reply_parts {R W} (x : (Z * R) * W) n : x.1.1 = n → x = ((n, x.1.2), x.2).
Proof. by destruct x as [[m b] w]; cbn; intros ->. Qed.

(** The same gateway with a connection that fails on the audit log. *)
Definition example_failing : AdminWorld BM25Engine :=
  mkAdminWorld example_world.(aw_reg) example_access (mkAdminDB 7 [] ∅ [] [true] 0) None None.

Lemma admin_changes_logged_witness :
  (∃ b w' id details,
    example_serve "secret" (At PostPrune) (example_delegated "admin" "") example_world = ((200%Z, b), w') ∧
    audit_log w' = [mkAuditRow id "tools_pruned" "ann@x" "ann@x" "" details 7]) ∧
  (∃ b w',
    example_serve "secret" (At PostPrune) (example_delegated "admin" "") example_failing = ((200%Z, b), w') ∧
    audit_log w' = []).
Proof.
  split.
  - set (r := example_serve "secret" (At PostPrune) (example_delegated "admin" "") example_world).
    assert (r = ((200%Z, r.1.2), r.2)) as Hr by (apply reply_parts; vm_compute; reflexivity).
    destruct (admin_changes_logged (E := BM25Engine) (λ _, "0") 0 (λ d, of_bytes (json_print (AObj d))) example_admin
      "secret" PostPrune (example_delegated "admin" "") example_world r.1.2 r.2 Hr)
      as (identity & Hm & id & details & Hlog).
    exists r.1.2, r.2, id, details. split; [exact Hr|]. rewrite Hlog.
    vm_compute in Hm. injection Hm as <-. reflexivity.
  - set (r := example_serve "secret" (At PostPrune) (example_delegated "admin" "") example_failing).
    assert (r = ((200%Z, r.1.2), r.2)) as Hr by (apply reply_parts; vm_compute; reflexivity).
    destruct (admin_changes_logged (E := BM25Engine) (λ _, "0") 0 (λ d, of_bytes (json_print (AObj d))) example_admin
      "secret" PostPrune (example_delegated "admin" "") example_failing r.1.2 r.2 Hr) as (identity & Hm & Hlog).
    exists r.1.2, r.2. split; [exact Hr|exact Hlog].
Defined.

Definition example_post : DashboardRequest := mkDashboardRequest "POST" None "dev-csrf-token" "".
Definition example_form (names : list string) : AdminRequest := mkAdminRequest (λ _, "") (λ _, "") (Some (Some names)).

Lemma dashboard_changes_guarded_witness :
  let w' := (serve_dashboard (E := BM25Engine) 0 (λ _, "") example_admin
    (dashboard_chain (H0 := example_aead) true 9 example_post) (RDeregister "d0") (example_form []) example_world).2 in
  tables w' ≠ tables example_world ∧
  ∃ session, dashboard_chain (H0 := example_aead) true 9 example_post = Pass session ∧ session.(as_CSRFToken) = "dev-csrf-token".
Proof.
  pose proof (dashboard_changes_guarded (E := BM25Engine) 0 (λ _, "") example_admin (A := example_aead) true 9 example_post
    (RDeregister "d0") (example_form []) example_world eq_refl) as Hg.
  destruct (serve_dashboard _ _ _ _ _ _ _) as [rep w'] eqn:Es. cbn [snd].
  assert (tables w' ≠ tables example_world) as Hne.
  { intros Heq. apply tables_audit_log in Heq. apply (f_equal (λ p, length (audit_log p.2))) in Es.
    cbn [snd] in Es. rewrite Heq in Es. by vm_compute in Es. }
  split; [exact Hne|]. destruct (Hg Hne) as (_ & session & Hs & _ & _ & Hin). exists session. split; [exact Hs|].
  vm_compute in Hs. injection Hs as <-. reflexivity.
Defined.

(** The deleted server is still routed to by a gateway that runs alone. *)
Lemma admin_deregister_routing_witness :
  ∃ w', deregisterServer (E := BM25Engine) example_admin "d0" "ann@x" "integrated_api" example_world = (Ok (), w') ∧
    w'.(aw_reg).(w_db).(db_servers) !! "d0" = None ∧
    row_a ∈ LookupTool (deliver NoopBroadcaster 0 w').(aw_reg).(w_index) "read_file".
Proof.
  destruct (admin_deregister_routing (E := BM25Engine) example_admin NoopBroadcaster "d0" "d0" "ann@x" "integrated_api"
    example_world eq_refl eq_refl eq_refl) as (w' & Hr & Hdb & Hi); [by vm_compute|by vm_compute|].
  exists w'. split; [exact Hr|]. split.
  - rewrite Hdb. apply lookup_delete_eq.
  - change (row_a ∈ LookupTool w'.(aw_reg).(w_index) "read_file"). cbn [deliver] in Hi. rewrite Hi.
    apply (bool_decide_unpack _). vm_compute. exact I.
Defined.

Lemma example_permissions_ok : permissions_ok example_access.
Proof.
  intros k p. cbn [ac_perms example_access]. intros Hp. apply lookup_singleton_Some in Hp as [<- <-].
  split; [done|]. split; [done|]. by vm_compute.
Qed.

Lemma user_tools_correct_witness :
  ∃ w', HandleUserToolsAdd example_admin None "u1" (example_form [" git.push "]) example_world =
      (Redirect "/admin/users/u1", w') ∧
    granted w' "u1" "git.push" ∧ granted w' "u1" "files.read" ∧
    ∀ p, w'.(aw_access).(ac_perms) !! ("u1", "files.read") = Some p → p.(up_GrantedBy) = "admin".
Proof.
  destruct (user_tools_correct (E := BM25Engine) example_admin None "u1" (example_form [" git.push "]) (Some [" git.push "])
    example_world) as [(w' & Hr & Hheld & _ & Hby) _].
  - reflexivity.
  - reflexivity.
  - exact example_permissions_ok.
  - by vm_compute.
  - vm_compute. eexists. reflexivity.
  - reflexivity.
  - exists w'. split; [exact Hr|]. split_and!.
    + apply (proj2 (Hheld "git.push")). right. apply (bool_decide_unpack _). vm_compute. exact I.
    + apply (proj2 (Hheld "files.read")). left. apply (bool_decide_unpack (is_Some _)). vm_compute. exact I.
    + intros p Hp. exact (proj1 (Hby "files.read" p Hp)).
Defined.

Definition example_row (event details : string) (t : Z) : AuditRow :=
  mkAuditRow event event "ann" "ann" "100%_done" [("note", AStr details)] t.

Lemma audit_query_correct_witness :
  ∃ rows, (AuditQuery (mkAuditFilter "" "" "" "0%_DONE" "" "" "asc" (Some 2%Z) None 1 0)
      (set_ad_audit [example_row "a" "" 1; example_row "b" "" 3; example_row "c" "" 2] example_admin_db)).1 =
      Ok (window 1 0 rows) ∧ length rows = 2.
Proof.
  destruct (audit_query_correct (PT := example_text) (PgTextLaws0 := example_text_laws)
    (mkAuditFilter "" "" "" "0%_DONE" "" "" "asc" (Some 2%Z) None 1 0)
    (set_ad_audit [example_row "a" "" 1; example_row "b" "" 3; example_row "c" "" 2] example_admin_db) eq_refl)
    as (rows & Hq & Hc & _).
  exists rows. rewrite Hq. split; [reflexivity|]. apply (f_equal (λ p : result nat * AdminDB, match p.1 with inr n => n | inl _ => 0 end)) in Hc.
  etrans; [exact (eq_sym Hc)|vm_compute; reflexivity].
Defined.

Lemma cursor_walk_complete_witness :
  option_map (List.map tc_ToolName) (walk_tools (E := BM25Engine) example_admin 4 (λ k, if bool_decide (k = "limit") then "2" else "") "" example_world) =
  Some ["a"; "b"; "c"].
Proof.
  set (q := λ k, if bool_decide (k = "limit") then "2" else "").
  change 4 with (S (length (asked_tools q example_world))).
  rewrite (cursor_walk_complete (E := BM25Engine) example_admin q 2 example_world);
    [vm_compute; reflexivity|reflexivity|reflexivity|vm_compute; reflexivity|vm_compute; discriminate].
Defined.
