(* ===== verification/Listings.v ===== *)
(** * Listings

    What the gateway tells its clients it has: the list of servers
    ([internal/proxy/server_list.go]), the well-known document with its cache
    ([discovery_doc.go]), the catalogue of tools for the platform
    ([internal/proxy/catalog.go], [internal/server/catalog_api.go]), resources
    ([internal/proxy/resources.go]), and the middlewares every answer passes
    ([internal/server/middleware.go]). The backends are parameters. *)

From stdpp Require Import pretty.
From S2P Require Import Prelude GoStrings Encoding GoNet Types Store Json Classification CapIndex Registration RegHandlers Routing Document JsonText Codec Config AdminStore.

#[local] Open Scope string_scope.
#[local] Open Scope list_scope.
#[local] Open Scope nat_scope.
#[local] Open Scope go_scope.

(** ** The address of the gateway *)

(** The parts of a request the address is read from; [""] when absent. *)
Record ListingRequest := mkListingRequest {
  lr_Method : string;
  lr_ForwardedHost : string;
  lr_ForwardedProto : string;
  lr_Host : string;
  lr_TLS : bool;
}.

(** [strings.TrimRight(s, "/")]. *)
Definition trim_slashes (s : string) : string := TrimRightByte s "/".

(** [strings.TrimSpace(strings.Split(s, ",")\[0\])]. *)
Definition first_part (s : string) : string := TrimSpace (default "" (head (Split s ","))).

(** [resolveBaseURLFromRequest]; [base] is the configured address. *)
Definition resolveBaseURLFromRequest (base : string) (r : ListingRequest) : string :=
  if negb (bool_decide (base = "")) then trim_slashes base
  else
    let host := first_part r.(lr_ForwardedHost) in
    if negb (bool_decide (r.(lr_ForwardedHost) = "")) && negb (bool_decide (host = "")) then
      let scheme := if bool_decide (r.(lr_ForwardedProto) = "") then "https" else first_part r.(lr_ForwardedProto) in
      trim_slashes (scheme +:+ "://" +:+ host)
    else if negb (bool_decide (r.(lr_Host) = "")) then
      trim_slashes ((if r.(lr_TLS) then "https" else "http") +:+ "://" +:+ r.(lr_Host))
    else "".

(** [serverKey]. *)
Definition serverKey (name : string) : string :=
  let key := TrimPrefix (TrimPrefix (TrimSpace name) "mcp-") "mcp_" in
  if bool_decide (key = "") then name else key.

Definition server_url (baseURL name : string) : string := baseURL +:+ "/mcp/servers/" +:+ serverKey name +:+ "/".

(** What an endpoint answers. *)
Abbreviation TextReply := (Z * bytes)%type.

(** [http.Error] ends the text with a line break. *)
Definition method_not_allowed : TextReply := (405%Z, to_bytes "Method Not Allowed" ++ ["010"%char]).
Definition readable (method : string) : bool := bool_decide (method ∈ ["GET"; "HEAD"]).

(** ** The list of servers *)

(** [ServerListEntry]. *)
Definition list_entry (baseURL : string) (s : ServerStats) : document :=
  AObj [("name", AStr s.(st_Record).(Name)); ("url", AStr (server_url baseURL s.(st_Record).(Name)));
        ("version", AStr s.(st_Record).(Version)); ("status", AStr (ServerStatus_String s.(st_Record).(Status)));
        ("tool_count", ANum (pretty s.(st_ToolCount))); ("resource_count", ANum (pretty s.(st_ResourceCount)))].

(** [ServerListHandler.ServeHTTP]. *)
Definition ServerListServeHTTP (base : string) (index : CapabilityIndex) (r : ListingRequest) : TextReply :=
  if negb (readable r.(lr_Method)) then method_not_allowed
  else (200%Z, json_print (AArr (list_entry (resolveBaseURLFromRequest base r) <$> ListServers index))).

(** ** The well-known document *)

(** [discoveryServerEntry]. *)
Definition doc_entry (baseURL : string) (s : ServerStats) : document :=
  AObj [("url", AStr (server_url baseURL s.(st_Record).(Name))); ("name", AStr s.(st_Record).(Name));
        ("version", AStr s.(st_Record).(Version)); ("status", AStr (ServerStatus_String s.(st_Record).(Status)))].

Definition doc_key_le (p q : string * document) : Prop := String.le p.1 q.1.
#[export] Instance doc_key_le_dec : RelDecision doc_key_le.
Proof. unfold doc_key_le. intros p q. apply _. Defined.

(** The map of the document: of servers with the same key the last one stays. *)
Definition doc_servers (baseURL : string) (servers : list ServerStats) : gmap string document :=
  foldl (λ m s, <[serverKey s.(st_Record).(Name) := doc_entry baseURL s]> m) ∅ servers.

(** [generate]; [json.Marshal] writes the keys of a map in order. *)
Definition generate (base : string) (index : CapabilityIndex) (r : ListingRequest) : bytes :=
  json_print (AObj [("mcpServers",
    AObj (merge_sort doc_key_le (map_to_list (doc_servers (resolveBaseURLFromRequest base r) (ListServers index)))))]).

(** [cachedDoc]. *)
Record cachedDoc := mkCachedDoc { cd_body : bytes; cd_createdAt : Z }.

(** [cacheTTL]; [ttl] is the setting. *)
Definition cacheTTL (ttl : Z) : Z := if (0 <? ttl)%Z then ttl else (5 * second)%Z.

(** The cached document, while [time.Since] of it is less than the lifetime. *)
Definition doc_fresh (ttl now : Z) (cached : option cachedDoc) : option cachedDoc :=
  match cached with
  | Some c => if (time_sub now c.(cd_createdAt) <? cacheTTL ttl)%Z then Some c else None
  | None => None
  end.

(** [DiscoveryDocHandler.ServeHTTP]: [now] is the time at the check of the age, and
    [after] the time read when a new document is made. *)
Definition DiscoveryDocServeHTTP (base : string) (ttl now after : Z) (index : CapabilityIndex) (r : ListingRequest)
    (cached : option cachedDoc) : TextReply * option cachedDoc :=
  if negb (readable r.(lr_Method)) then (method_not_allowed, cached)
  else
    match doc_fresh ttl now cached with
    | Some c => ((200%Z, c.(cd_body)), cached)
    | None =>
        let body := generate base index r in
        ((200%Z, body), Some (mkCachedDoc body after))
    end.

(** [Invalidate], which nothing in the program calls. *)
Definition DocInvalidate (_ : option cachedDoc) : option cachedDoc := None.

(** ** The catalogue *)

(** [canonicalCatalogName], [canonicalCatalogServerName]. *)
Definition canonicalCatalogName (federatedName : string) : string :=
  let name := TrimSpace federatedName in
  if bool_decide (name = "") || HasPrefix name "mcp." then name else "mcp." +:+ name.
Definition canonicalCatalogServerName (serverName : string) : string := TrimPrefix (TrimSpace serverName) "mcp-".

(** [ToolCache.GetWithMeta]; an entry past its time is removed. *)
Definition GetWithMeta (now : Z) (name : string) (c : ToolCache) : option cachedTool * ToolCache :=
  let key := TrimSpace name in
  if bool_decide (key = "") then (None, c)
  else
    match c.(tlc_tools) !! key with
    | None => (None, c)
    | Some entry =>
        if (c.(tlc_ttl) <? time_sub now entry.(ch_fetchedAt))%Z
        then (None, mkToolCache (delete key c.(tlc_tools)) c.(tlc_ttl))
        else (Some entry, c)
    end.

(** [CatalogEntry]. *)
Record CatalogEntry := mkCatalogEntry { ce_def : ToolDefinition; ce_ServerID : string; ce_ServerName : string }.

(** One round of the loop of [ListCatalogTools]. *)
Definition catalog_step (now : Z) (acc : list CatalogEntry * ToolCache) (tool : ToolDefinition) :
    list CatalogEntry * ToolCache :=
  let '(entries, cache) := acc in
  if bool_decide (tool.(tl_Name) ∈ metaToolNames) then acc
  else
    let '(found, cache) := GetWithMeta now tool.(tl_Name) cache in
    let '(def, serverID, serverName) :=
      match found with Some e => (e.(ch_definition), e.(ch_serverID), e.(ch_serverName)) | None => (tool, "", "") end in
    let name := canonicalCatalogName def.(tl_Name) in
    if bool_decide (name = "") then (entries, cache)
    else (entries ++ [mkCatalogEntry (mkToolDefinition name def.(tl_Description) def.(tl_InputSchema)) serverID
            (canonicalCatalogServerName serverName)], cache).

(** [ListCatalogTools], of the tools of [handleListTools]. *)
Definition ListCatalogTools (now : Z) (index : CapabilityIndex) (ns : option NamespaceResolver)
    (list_backend : ServerRecord → result (list ToolDefinition)) (cache : ToolCache) : list CatalogEntry * ToolCache :=
  let '(tools, cache) := handleListTools now index ns list_backend cache in
  foldl (catalog_step now) ([], cache) tools.

Section catalog.
Context `{UnicodeTables, PgText}.

(** [catalogServerView], [catalogToolView], [catalogResponse]. *)
Record catalogServerView := mkCatalogServer {
  cs_Name : string;
  cs_ID : string;
  cs_Version : string;
  cs_Status : string;
  cs_ToolCount : Z;
}.
Record catalogToolView := mkCatalogTool { ct_entry : CatalogEntry; ct_RiskLevel : string }.
Record catalogResponse := mkCatalogResponse {
  cr_Servers : list catalogServerView;
  cr_Tools : list catalogToolView;
  cr_TotalTools : nat;
  cr_GeneratedAt : Z;
  cr_GatewayID : string;
}.

(** [loadClassifications]; [None] is the nil map. *)
Definition loadClassifications (classificationStore : bool) (db : DB) : option (gmap string RiskLevel) * DB :=
  if negb classificationStore then (None, db)
  else
    match ClassificationGetAll db with
    | (Ok all, db) => (Some (foldl (λ m tc, <[tc.(tc_ToolName) := tc.(tc_RiskLevel)]> m) ∅ all), db)
    | (Err _, db) => (None, db)
    end.

(** [resolveRiskLevel]. *)
Definition resolveRiskLevel (entry : CatalogEntry) (classificationMap : option (gmap string RiskLevel)) : string :=
  match classificationMap ≫= (.!! entry.(ce_def).(tl_Name)) with
  | Some level => RiskLevel_String level
  | None => RiskLevel_String (AutoClassify entry.(ce_def).(tl_Name) entry.(ce_def).(tl_Description)).1
  end.

(** [serverToolCounts]. *)
Definition server_tool_counts (entries : list CatalogEntry) : gmap string Z :=
  foldl (λ m e, <[e.(ce_ServerID) := (default 0 (m !! e.(ce_ServerID)) + 1)%Z]> m) ∅ entries.

(** [buildServerViews]. *)
Definition server_view (toolCounts : gmap string Z) (rec : ServerRecord) : catalogServerView :=
  mkCatalogServer (TrimPrefix rec.(Name) "mcp-") rec.(ID) rec.(Version) (ServerStatus_String rec.(Status))
    (default 0%Z (toolCounts !! rec.(ID))).
Definition buildServerViews (serverStore : bool) (toolCounts : gmap string Z) (db : DB) : list catalogServerView * DB :=
  if negb serverStore then ([], db)
  else
    match ServerList (mkServerFilter (Some StatusActive) "" 0 0) db with
    | (Ok records, db) => (server_view toolCounts <$> records, db)
    | (Err _, db) => ([], db)
    end.

(** [handleList], with the tools of [ListCatalogTools]. *)
Definition catalogHandleList (classificationStore serverStore : bool) (now : Z) (gatewayID : string)
    (entries : list CatalogEntry) (db : DB) : catalogResponse * DB :=
  let '(classificationMap, db) := loadClassifications classificationStore db in
  let tools := (λ e, mkCatalogTool e (resolveRiskLevel e classificationMap)) <$> entries in
  let '(servers, db) := buildServerViews serverStore (server_tool_counts entries) db in
  (mkCatalogResponse servers tools (length tools) now gatewayID, db).

End catalog.

(** ** Resources *)

(** [ResourceDefinition]. *)
Record ResourceDefinition := mkResource { rs_URI : string; rs_Name : string; rs_Description : string; rs_MimeType : string }.

(** [ErrResourceNotFound]. *)
Definition ErrResourceNotFound : error := Opaque "resource not found".

Section resources.
Context (index : CapabilityIndex).
(** The calls to a backend; they can fail. *)
Context {Content : Type}.
Context (list_resources : ServerRecord → result (list ResourceDefinition)).
Context (read_resource : ServerRecord → string → result Content).

(** Keeps the first value under a key. *)
Definition keep_first {A} (key : A → string) (m : gmap string A) (x : A) : gmap string A :=
  match m !! key x with Some _ => m | None => <[key x := x]> m end.

(** [deduplicateServers]. *)
Definition deduplicateServers (prefixes : list string) : gmap string ServerRecord :=
  foldl (λ m prefix, foldl (keep_first ID) m (LookupResource index prefix)) ∅ prefixes.

(** [collectResources]; a backend that fails is skipped. *)
Definition collectResources (serverIDs : list string) (serverByID : gmap string ServerRecord) :
    gmap string ResourceDefinition :=
  foldl (λ m id,
      match serverByID !! id with
      | Some srv => match list_resources srv with Ok l => foldl (keep_first rs_URI) m l | Err _ => m end
      | None => m
      end) ∅ serverIDs.

(** [sortedKeys] and [sortedMapKeys]. *)
Definition sortedKeys {A} (m : gmap string A) : list string := sort_strings (map_to_list m).*1.

(** [handleListResources]. *)
Definition handleListResources : list ResourceDefinition :=
  let prefixes := ListResources index in
  if bool_decide (prefixes = []) then []
  else
    let serverByID := deduplicateServers prefixes in
    let resourcesByURI := collectResources (sortedKeys serverByID) serverByID in
    omap (resourcesByURI !!.) (sortedKeys resourcesByURI).

(** [handleReadResource], with the server it asks. *)
Definition handleReadResource (uri : string) : result (ServerRecord * Content) :=
  let trimmedURI := TrimSpace uri in
  if bool_decide (trimmedURI = "") then Err (Opaque "read resource: missing uri")
  else
    match LookupResource index trimmedURI with
    | [] => Err (Wrap "read resource" ErrResourceNotFound)
    | server :: _ =>
        match read_resource server trimmedURI with
        | Ok content => Ok (server, content)
        | Err err => Err (Wrap ("read resource: backend " +:+ server.(ID)) err)
        end
    end.

End resources.

(** ** Middlewares *)

Section middleware.
Context `{UnicodeTables}.

(** [CORSMiddleware]: the headers it sets, and the answer when it does not call
    the next handler. *)
Definition cors_allowed (allowedOrigins : list string) : gset string :=
  list_to_set ((λ o, ToLower (TrimSpace o)) <$> allowedOrigins).
Definition CORSMiddleware (allowedOrigins : list string) (method originHeader : string) :
    list (string * string) * option Z :=
  let origin := TrimSpace originHeader in
  ([("Vary", "Origin")] ++
     (if negb (bool_decide (origin = "")) && bool_decide (ToLower origin ∈ cors_allowed allowedOrigins) then
        [("Access-Control-Allow-Origin", origin);
         ("Access-Control-Allow-Methods", "GET, POST, PUT, PATCH, DELETE, OPTIONS");
         ("Access-Control-Allow-Headers", "Authorization, Content-Type, X-Request-ID");
         ("Access-Control-Allow-Credentials", "true")]
      else []),
   if bool_decide (method = "OPTIONS") then Some 204%Z else None).

End middleware.

(** [RequestBodyLimitMiddleware]: the limit on the body, if it sets one. *)
Definition defaultMaxRequestBodyBytes : Z := 1024 * 1024.
Definition RequestBodyLimit (maxBytes : Z) (method : string) : option Z :=
  let maxBytes := if (maxBytes <=? 0)%Z then defaultMaxRequestBodyBytes else maxBytes in
  if bool_decide (method ∈ ["POST"; "PUT"; "PATCH"]) then Some maxBytes else None.

(** [generateRequestID], of the sixteen random bytes, or of the time when there
    are none. *)
Definition generateRequestID (random : option bytes) (now : Z) : string :=
  match random with
  | None => "req-" +:+ pretty now
  | Some b =>
      let encoded := hex_encode (uuid_bytes b) in
      let part i j := of_bytes (take (j - i) (drop i encoded)) in
      part 0 8 +:+ "-" +:+ part 8 12 +:+ "-" +:+ part 12 16 +:+ "-" +:+ part 16 20 +:+ "-" +:+ part 20 32
  end.

(** [RequestIDMiddleware]: the id of the request. *)
Definition RequestIDMiddleware (header : string) (random : option bytes) (now : Z) : string :=
  if bool_decide (header = "") then generateRequestID random now else header.
