(* ===== verification/ListingsProps.v ===== *)
(** * Correctness of the listings

    - [list_servers_correct]: the list has every live server with a capability
      once, with the number of its tools and resources.
    - [advertised_url_served]: when the address a server is listed under leads to
      a server; [prefixed_server_unreachable]: a name with the [mcp-] prefix.
    - [well_known_document]: how old the cached document can be;
      [well_known_shared]: whose address it carries.
    - [catalog_complete], [catalog_risk_ignored]: what the catalogue lists, and
      the classifications it does not see.
    - [list_resources_correct], [read_resource_correct]: resources. *)

From stdpp Require Import pretty.
From S2P Require Import Prelude GoStrings Encoding GoNet Types Store Json Classification CapIndex Registration RegHandlers Routing Document JsonText Codec Config AdminStore Listings.

#[local] Open Scope string_scope.
#[local] Open Scope list_scope.
#[local] Open Scope nat_scope.
#[local] Open Scope go_scope.

(** ** The servers of the index *)

(** How often a server occurs in a list. *)
Definition occurrences (id : string) (l : list ServerRecord) : nat := length (filter (λ r, r.(ID) = id) l).

(** The map of counts over records that are determined by their ids. *)
Section counts.
Context (v : view).
Definition from_view (l : list ServerRecord) : Prop := ∀ r, r ∈ l → v !! r.(ID) = Some r.

(** The entry of a server after [t] of its tools and [r] of its resources. *)
Definition counted (id : string) (t r : nat) : option ServerStats :=
  if bool_decide (t + r = 0) then None else (λ rec, mkStats rec (Z.of_nat t) (Z.of_nat r)) <$> v !! id.

Lemma count_tools_spec l m (t r : string → nat) : from_view l → (∀ id, m !! id = counted id (t id) (r id)) →
  ∀ id, foldl count_tool m l !! id = counted id (t id + occurrences id l) (r id).
Proof.
  revert m t. induction l as [|x l IH]; intros m t Hv Hm id.
  - cbn. rewrite Hm. unfold occurrences. cbn. by rewrite Nat.add_0_r.
  - cbn [foldl]. assert (Hx : v !! x.(ID) = Some x) by (apply Hv; left).
    rewrite (IH _ (λ i, if bool_decide (i = x.(ID)) then S (t i) else t i)).
    + unfold occurrences. rewrite filter_cons. case_bool_decide as E.
      * subst id. rewrite decide_True by done. cbn [length]. f_equal. lia.
      * rewrite decide_False by done. done.
    + intros y Hy. apply Hv. by right.
    + intros i. unfold count_tool. case_bool_decide as E.
      * subst i. rewrite lookup_insert_eq, Hm. unfold counted. rewrite Hx.
        repeat case_bool_decide; cbn; f_equal; f_equal; lia.
      * by rewrite lookup_insert_ne, Hm by done.
Qed.

Lemma count_resources_spec l m (t r : string → nat) : from_view l → (∀ id, m !! id = counted id (t id) (r id)) →
  ∀ id, foldl count_resource m l !! id = counted id (t id) (r id + occurrences id l).
Proof.
  revert m r. induction l as [|x l IH]; intros m r Hv Hm id.
  - cbn. rewrite Hm. unfold occurrences. cbn. by rewrite Nat.add_0_r.
  - cbn [foldl]. assert (Hx : v !! x.(ID) = Some x) by (apply Hv; left).
    rewrite (IH _ (λ i, if bool_decide (i = x.(ID)) then S (r i) else r i)).
    + unfold occurrences. rewrite filter_cons. case_bool_decide as E.
      * subst id. rewrite decide_True by done. cbn [length]. f_equal. lia.
      * rewrite decide_False by done. done.
    + intros y Hy. apply Hv. by right.
    + intros i. unfold count_resource. case_bool_decide as E.
      * subst i. rewrite lookup_insert_eq, Hm. unfold counted. rewrite Hx.
        repeat case_bool_decide; cbn; f_equal; f_equal; lia.
      * by rewrite lookup_insert_ne, Hm by done.
Qed.
End counts.

Lemma occurrences_app id l k : occurrences id (l ++ k) = occurrences id l + occurrences id k.
Proof. unfold occurrences. by rewrite filter_app, length_app. Qed.

Lemma occurrences_nodup id l : NoDup (ID <$> l) → occurrences id l = if bool_decide (id ∈ ID <$> l) then 1 else 0.
Proof.
  unfold occurrences. induction l as [|x l IH]; [done|]. rewrite fmap_cons, NoDup_cons, filter_cons.
  intros [Hx Hl]. specialize (IH Hl). destruct (decide (x.(ID) = id)) as [<-|E].
  - rewrite bool_decide_eq_true_2 by left. rewrite bool_decide_eq_false_2 in IH by done.
    cbn [length]. lia.
  - rewrite IH, (bool_decide_ext (id ∈ _ :: _) (id ∈ ID <$> l)); [done|]. rewrite elem_of_cons. naive_solver.
Qed.

(** Under how many names a server is listed. *)
Lemma occurrences_side caps (m : entries) v r :
  side_wf caps m → side_represents caps m v → v !! r.(ID) = Some r →
  occurrences r.(ID) (mjoin (map_to_list m).*2) = length (remove_dups (names (caps r))).
Proof.
  intros Hwf Hrep Hv.
  assert (Hsum : occurrences r.(ID) (mjoin (map_to_list m).*2) =
    length (filter (λ p : string * list ServerRecord, r.(ID) ∈ ID <$> p.2) (map_to_list m)).*1).
  { assert (Hall : Forall (λ p : string * list ServerRecord, NoDup (ID <$> p.2)) (map_to_list m)).
    { apply Forall_forall. intros [k l] Hk%elem_of_map_to_list. by destruct (Hwf k l Hk) as (_ & ? & _). }
    induction Hall as [|[k l] ps Hp _ IH]; [done|]. change (mjoin ((k, l) :: ps).*2) with (l ++ mjoin ps.*2).
    rewrite occurrences_app, IH, occurrences_nodup, filter_cons by done. cbn [snd].
    destruct (decide (r.(ID) ∈ ID <$> l)); [by rewrite bool_decide_eq_true_2|by rewrite bool_decide_eq_false_2]. }
  rewrite Hsum. apply Permutation_length, NoDup_Permutation.
  - apply (sublist_NoDup _ (map_to_list m).*1); [apply NoDup_fst_map_to_list|apply fmap_sublist, sublist_filter].
  - apply NoDup_remove_dups.
  - intros k. rewrite elem_of_remove_dups, list_elem_of_fmap. split.
    + intros ([k' l] & -> & [(r' & Hid & Hr')%list_elem_of_fmap Hk%elem_of_map_to_list]%list_elem_of_filter).
      cbn [fst snd] in *. assert (Hu : r' ∈ under m k') by (unfold under; by rewrite Hk).
      apply Hrep in Hu as [Hv' Hn]. rewrite <- Hid in Hv'. by simplify_eq.
    + intros Hn. assert (Hu : r ∈ under m k) by (by apply Hrep).
      unfold under in Hu. destruct (m !! k) as [l|] eqn:Hk; [|set_solver]. cbn in Hu.
      exists (k, l). split; [done|]. rewrite list_elem_of_filter, elem_of_map_to_list. split; [|done].
      cbn. rewrite list_elem_of_fmap. eauto.
Qed.

Lemma occurrences_absent id l : (∀ r, r ∈ l → r.(ID) ≠ id) → occurrences id l = 0.
Proof.
  intros Hl. unfold occurrences. destruct (filter _ l) as [|x k] eqn:E; [done|].
  assert (x ∈ filter (λ r, r.(ID) = id) l) as [Hx Hin]%list_elem_of_filter by (rewrite E; left).
  by destruct (Hl x Hin).
Qed.

Lemma side_from_view caps (m : entries) v : side_represents caps m v → from_view v (mjoin (map_to_list m).*2).
Proof.
  intros Hrep r (l & Hr & ([k l'] & -> & Hk%elem_of_map_to_list)%list_elem_of_fmap)%list_elem_of_join.
  apply (Hrep k). unfold under. by rewrite Hk.
Qed.

(** The entry of a live server: none without a capability. *)
Definition live_stats (r : ServerRecord) : option ServerStats :=
  let t := length (remove_dups (names (tool_caps r))) in
  let n := length (remove_dups (names (resource_caps r))) in
  if bool_decide (t + n = 0) then None else Some (mkStats r (Z.of_nat t) (Z.of_nat n)).

Lemma server_stats_spec i v id :
  represents i v → server_stats i !! id = v !! id ≫= λ r, if bool_decide (r.(ID) = id) then live_stats r else None.
Proof.
  intros ([Hwt Hwr] & Ht & Hr). unfold server_stats.
  pose proof (side_from_view _ _ _ Ht) as Hft. pose proof (side_from_view _ _ _ Hr) as Hfr.
  rewrite (count_resources_spec v _ _ (λ i', 0 + occurrences i' (mjoin (map_to_list i.(tools)).*2)) (λ _, 0) Hfr).
  2:{ apply (count_tools_spec v _ _ (λ _, 0) (λ _, 0) Hft). intros i'. by rewrite lookup_empty. }
  cbn [Nat.add]. unfold counted. destruct (v !! id) as [r|] eqn:Hv; [|by case_bool_decide].
  destruct (decide (r.(ID) = id)) as [<-|Hne].
  - rewrite (occurrences_side tool_caps _ v), (occurrences_side resource_caps _ v) by done.
    cbn [option_bind mbind]. by rewrite (bool_decide_eq_true_2 (r.(ID) = r.(ID))).
  - rewrite !occurrences_absent; [cbn [option_bind mbind]; by rewrite (bool_decide_eq_false_2 (r.(ID) = id))| |];
      intros x Hx Hid; [apply Hfr in Hx|apply Hft in Hx]; rewrite Hid in Hx; congruence.
Qed.

#[local] Instance stats_name_trans : Transitive stats_name_le.
Proof. unfold stats_name_le. intros a b c. apply (transitivity (R := String.le)). Qed.
#[local] Instance stats_name_total : Total stats_name_le.
Proof. unfold stats_name_le. intros a b. apply (total String.le). Qed.

Lemma server_listed i v s : represents i v →
  s ∈ ListServers i ↔ v !! s.(st_Record).(ID) = Some s.(st_Record) ∧ live_stats s.(st_Record) = Some s.
Proof.
  intros Hrep. unfold ListServers. rewrite merge_sort_Permutation, list_elem_of_fmap. split.
  - intros ([id s'] & -> & Hs%elem_of_map_to_list). cbn [snd].
    rewrite (server_stats_spec i v) in Hs by done. apply bind_Some in Hs as (r & Hr & Hs).
    case_bool_decide as E; [|done]. subst id.
    assert (s'.(st_Record) = r) as ->; [|done]. revert Hs. unfold live_stats. case_bool_decide; naive_solver.
  - intros [Hv Hl]. exists (s.(st_Record).(ID), s). split; [done|].
    rewrite elem_of_map_to_list, (server_stats_spec i v), Hv by done. cbn. by rewrite bool_decide_eq_true_2.
Qed.

(** The list of servers, sorted by name, has exactly one entry for every live
    server that declares a tool or a resource, with the number of the different
    tools and resources it declares. *)
Theorem list_servers_correct i v :
  represents i v →
  StronglySorted stats_name_le (ListServers i) ∧ NoDup ((λ s, s.(st_Record).(ID)) <$> ListServers i) ∧
  ∀ s, s ∈ ListServers i ↔ v !! s.(st_Record).(ID) = Some s.(st_Record) ∧ live_stats s.(st_Record) = Some s.
Proof.
  intros Hrep. split_and!; [apply StronglySorted_merge_sort; apply _| |intros s; by apply server_listed].
  unfold ListServers. rewrite merge_sort_Permutation.
  replace ((λ s, s.(st_Record).(ID)) <$> (map_to_list (server_stats i)).*2) with (map_to_list (server_stats i)).*1;
    [apply NoDup_fst_map_to_list|].
  rewrite <- list_fmap_compose. apply list_fmap_ext. intros n [id s] Hs%list_elem_of_lookup_2%elem_of_map_to_list.
  cbn. rewrite (server_stats_spec i v) in Hs by done. apply bind_Some in Hs as (r & Hr & Hs).
  case_bool_decide; [|done]. revert Hs. unfold live_stats. case_bool_decide; naive_solver.
Qed.

(** ** The addresses of the list *)

Section addresses.
Context `{UnicodeTables}.

(** A live server with tools whose name is the key, up to case. *)
Definition answers_to (v : view) (key : string) (r : ServerRecord) : Prop :=
  v !! r.(ID) = Some r ∧ names (tool_caps r) ≠ [] ∧ EqualFold (TrimSpace r.(Name)) key = true.

Lemma matches_bytes k : matches_server_name k = true →
  k ≠ "" ∧ forallb graphic (to_bytes k) = true ∧ is_ascii (to_bytes k) = true.
Proof.
  unfold matches_server_name. destruct (to_bytes k) as [|a l] eqn:E; [done|].
  intros [[Ha Hl]%andb_true_iff _]%andb_true_iff.
  assert (Hc : ∀ b f, server_name_char f b = true → graphic b = true ∧ (code b <? 128)%N = true).
  { intros b f Hb. assert (Hb' : server_name_char false b = true).
    { revert Hb. unfold server_name_char. destruct f; [|done]. cbn [negb andb]. rewrite orb_false_r. by intros ->. }
    clear Hb. revert b Hb'.
    apply (every_byte (λ b, server_name_char false b = true → graphic b = true ∧ (code b <? 128)%N = true)).
    apply (bool_decide_unpack _). by vm_compute. }
  assert (Hall : ∀ b, b ∈ a :: l → graphic b = true ∧ (code b <? 128)%N = true).
  { intros b [->|Hb]%elem_of_cons; [by apply (Hc _ true)|]. apply (Hc _ false).
    rewrite forallb_forall in Hl. by apply Hl, list_elem_of_In. }
  split_and!; [by intros ->|apply forallb_forall; intros b Hb%list_elem_of_In; by apply Hall..].
Qed.

Lemma EqualFold_longer p k : is_ascii (to_bytes p) = true → is_ascii (to_bytes k) = true → p ≠ "" →
  EqualFold (p +:+ k) k = false.
Proof.
  intros Hp Hk Hne. unfold EqualFold. rewrite to_bytes_app. unfold is_ascii in *. rewrite forallb_app, Hp, Hk.
  cbn [andb]. apply bool_decide_eq_false_2. intros Hl%(f_equal length).
  rewrite !length_map, length_app in Hl. destruct p; [done|]. cbn in Hl. lia.
Qed.

(** What the endpoint of a name does, whatever the order of the map. *)
Lemma virtual_reply i v order name inst :
  represents i v → order ≡ₚ (map_to_list i.(tools)).*2 →
  let key := TrimSpace name in
  match (VirtualServeHTTP order name inst).1 with
  | VirtualForward url =>
      matches_server_name key = true ∧ ∃ r, answers_to v key r ∧ url = default (client_url r) (inst !! r.(ID))
  | VirtualError code =>
      (code = 400%Z ∧ matches_server_name key = false) ∨ (code = 404%Z ∧ ∀ r, ¬ answers_to v key r)
  end.
Proof.
  intros Hrep Hord. cbv zeta. unfold VirtualServeHTTP.
  destruct (matches_server_name (TrimSpace name)) eqn:Hm; cbn [negb]; [|by left].
  destruct (matches_bytes _ Hm) as (Hne & Htrim%TrimSpace_graphic & _).
  pose proof (lookup_server_correct i v order (TrimSpace name) Hrep Hord) as Hl. rewrite Htrim in Hl.
  specialize (Hl Hne). destruct (LookupServerIn _ _) as [r|].
  - destruct Hl as (Hv & Hn & Hf). assert (Hact : r.(Status) = StatusActive).
    { destruct Hrep as ([Hwf _] & Ht & _). destruct (names (tool_caps r)) as [|k ks] eqn:E; [done|].
      apply (side_wf_elem tool_caps i.(tools) k r Hwf), Ht. rewrite E. split; [done|left]. }
    rewrite Hact. cbn [IsRoutable negb]. unfold getOrCreateHandler.
    destruct (inst !! r.(ID)) eqn:Hi; cbn [fst]; (split; [done|]); exists r; rewrite Hi; done.
  - right. split; [done|]. intros r (Hv & Hn & Hf). rewrite (Hl r Hv Hn) in Hf. done.
Qed.

(** The address a server is listed under. Every server of the list is live;
    its address is the endpoint of its key, and the endpoint forwards exactly when
    the key is a valid name and some live server with tools has it as its name, up
    to case; then the request goes to such a server, and otherwise the answer is
    400 or 404. *)
Theorem advertised_url_served i v order s inst :
  represents i v → order ≡ₚ (map_to_list i.(tools)).*2 → s ∈ ListServers i →
  let r := s.(st_Record) in
  let key := TrimSpace (serverKey r.(Name)) in
  v !! r.(ID) = Some r ∧
  match (VirtualServeHTTP order (serverKey r.(Name)) inst).1 with
  | VirtualForward url =>
      matches_server_name key = true ∧ ∃ r', answers_to v key r' ∧ url = default (client_url r') (inst !! r'.(ID))
  | VirtualError code =>
      (code = 400%Z ∧ matches_server_name key = false) ∨ (code = 404%Z ∧ ∀ r', ¬ answers_to v key r')
  end.
Proof.
  intros Hrep Hord Hs r key. split; [|by apply (virtual_reply i v)].
  apply (server_listed i v) in Hs; [|done]. by destruct Hs.
Qed.

(** A server whose name starts with [mcp-] is listed under an address that
    never leads to it: the key is the name without the prefix, and the endpoint
    compares it with the whole name. The answer is 404, or another server, one
    named like the key, gets the requests. *)
Theorem prefixed_server_unreachable i v order s k inst :
  represents i v → order ≡ₚ (map_to_list i.(tools)).*2 → s ∈ ListServers i →
  s.(st_Record).(Name) = "mcp-" +:+ k → matches_server_name k = true → HasPrefix k "mcp_" = false →
  serverKey s.(st_Record).(Name) = k ∧
  match (VirtualServeHTTP order k inst).1 with
  | VirtualForward url =>
      ∃ r, answers_to v k r ∧ r.(ID) ≠ s.(st_Record).(ID) ∧ url = default (client_url r) (inst !! r.(ID))
  | VirtualError code => code = 404%Z
  end.
Proof.
  intros Hrep Hord [Hv _]%(server_listed i v) Hname Hk Hu; [|done].
  destruct (matches_bytes _ Hk) as (Hne & Hg & Ha).
  assert (Htrim : TrimSpace ("mcp-" +:+ k) = "mcp-" +:+ k).
  { apply TrimSpace_graphic. rewrite to_bytes_app, forallb_app, Hg. done. }
  split.
  - rewrite Hname. unfold serverKey. rewrite Htrim, TrimPrefix_app, TrimPrefix_no by done.
    by rewrite bool_decide_eq_false_2.
  - pose proof (virtual_reply i v order k inst Hrep Hord) as Hr. cbv zeta in Hr.
    rewrite (TrimSpace_graphic k Hg) in Hr. destruct (VirtualServeHTTP order k inst).1 as [code|url].
    + destruct Hr as [[_ Hf]|[-> _]]; congruence.
    + destruct Hr as (_ & r & Hr & ->). exists r. split_and!; [done| |done].
      destruct Hr as (Hr & _ & Hf). intros Hid. rewrite Hid, Hv in Hr. simplify_eq.
      rewrite Hname, Htrim in Hf. by rewrite EqualFold_longer in Hf.
Qed.

End addresses.

(** ** The well-known document *)

(** Concurrent requests. Each runs [DiscoveryDocServeHTTP] in the steps that the
    others can come between: the load of the pointer, the check of the age, the
    snapshot of the index, the reading of the clock, and the store of the pointer. *)
Inductive doc_pc :=
| DocArrived (at_ : Z) (r : ListingRequest)
| DocLoaded (at_ : Z) (r : ListingRequest) (cached : option cachedDoc)
| DocStale (at_ : Z) (r : ListingRequest)
| DocMade (at_ : Z) (r : ListingRequest) (body : bytes)
| DocStamped (at_ : Z) (r : ListingRequest) (c : cachedDoc).

(** An answer: the request, when it came, when it was decided, and the reply. *)
Record DocSent := mkDocSent { ds_request : ListingRequest; ds_arrived : Z; ds_at : Z; ds_reply : TextReply }.

(** The gateway: the clock, the index, all indexes so far with their times, the
    pointer, the requests so far, those that run, and the answers. *)
Record DocConfig := mkDocConfig {
  wk_now : Z;
  wk_index : CapabilityIndex;
  wk_past : list (Z * CapabilityIndex);
  wk_cached : option cachedDoc;
  wk_asked : list ListingRequest;
  wk_running : gmap nat doc_pc;
  wk_sent : list DocSent;
}.

Definition doc_start (now : Z) (index : CapabilityIndex) : DocConfig := mkDocConfig now index [(now, index)] None [] ∅ [].

(** Time passes, and the servers of the index change. *)
Definition doc_later (now : Z) (index : CapabilityIndex) (s : DocConfig) : DocConfig :=
  mkDocConfig now index ((now, index) :: s.(wk_past)) s.(wk_cached) s.(wk_asked) s.(wk_running) s.(wk_sent).
Definition doc_arrive (k : nat) (r : ListingRequest) (s : DocConfig) : DocConfig :=
  mkDocConfig s.(wk_now) s.(wk_index) s.(wk_past) s.(wk_cached) (r :: s.(wk_asked))
    (<[k := DocArrived s.(wk_now) r]> s.(wk_running)) s.(wk_sent).
Definition doc_at (k : nat) (pc : doc_pc) (s : DocConfig) : DocConfig :=
  mkDocConfig s.(wk_now) s.(wk_index) s.(wk_past) s.(wk_cached) s.(wk_asked) (<[k := pc]> s.(wk_running)) s.(wk_sent).
Definition doc_answer (k : nat) (cached : option cachedDoc) (d : DocSent) (s : DocConfig) : DocConfig :=
  mkDocConfig s.(wk_now) s.(wk_index) s.(wk_past) cached s.(wk_asked) (delete k s.(wk_running)) (s.(wk_sent) ++ [d]).

Section document.
Context (base : string) (ttl : Z).

Inductive doc_step : DocConfig → DocConfig → Prop :=
| doc_time s now index : (s.(wk_now) <= now)%Z → doc_step s (doc_later now index s)
| doc_arrives s k r : s.(wk_running) !! k = None → doc_step s (doc_arrive k r s)
| doc_refuses s k t r : s.(wk_running) !! k = Some (DocArrived t r) → readable r.(lr_Method) = false →
    doc_step s (doc_answer k s.(wk_cached) (mkDocSent r t s.(wk_now) method_not_allowed) s)
| doc_loads s k t r : s.(wk_running) !! k = Some (DocArrived t r) → readable r.(lr_Method) = true →
    doc_step s (doc_at k (DocLoaded t r s.(wk_cached)) s)
| doc_hits s k t r cached c : s.(wk_running) !! k = Some (DocLoaded t r cached) →
    doc_fresh ttl s.(wk_now) cached = Some c →
    doc_step s (doc_answer k s.(wk_cached) (mkDocSent r t s.(wk_now) (200%Z, c.(cd_body))) s)
| doc_misses s k t r cached : s.(wk_running) !! k = Some (DocLoaded t r cached) →
    doc_fresh ttl s.(wk_now) cached = None → doc_step s (doc_at k (DocStale t r) s)
| doc_makes s k t r : s.(wk_running) !! k = Some (DocStale t r) →
    doc_step s (doc_at k (DocMade t r (generate base s.(wk_index) r)) s)
| doc_stamps s k t r body : s.(wk_running) !! k = Some (DocMade t r body) →
    doc_step s (doc_at k (DocStamped t r (mkCachedDoc body s.(wk_now))) s)
| doc_stores s k t r c : s.(wk_running) !! k = Some (DocStamped t r c) →
    doc_step s (doc_answer k (Some c) (mkDocSent r t s.(wk_now) (200%Z, c.(cd_body))) s).

(** The document of an index the gateway had, between two times, for a request. *)
Definition document_of (s : DocConfig) (from to : Z) (r : ListingRequest) (body : bytes) : Prop :=
  ∃ t index, (t, index) ∈ s.(wk_past) ∧ (from <= t <= to)%Z ∧ body = generate base index r.

(** The document was made for a request of the run, from an index the gateway had
    at or before the time it is stamped with. *)
Definition made_for (s : DocConfig) (c : cachedDoc) : Prop :=
  ∃ r from, r ∈ s.(wk_asked) ∧ readable r.(lr_Method) = true ∧ document_of s from c.(cd_createdAt) r c.(cd_body).

(** What an answer is. *)
Definition answered_well (s : DocConfig) (d : DocSent) : Prop :=
  d.(ds_reply) = method_not_allowed ∧ readable d.(ds_request).(lr_Method) = false ∨
  readable d.(ds_request).(lr_Method) = true ∧ d.(ds_reply).1 = 200%Z ∧
    (document_of s d.(ds_arrived) d.(ds_at) d.(ds_request) d.(ds_reply).2 ∨
     ∃ c, made_for s c ∧ d.(ds_reply).2 = c.(cd_body) ∧ (time_sub d.(ds_at) c.(cd_createdAt) < cacheTTL ttl)%Z).

(** What a running request has. *)
Definition pc_ok (s : DocConfig) (pc : doc_pc) : Prop :=
  match pc with
  | DocArrived t r => (t <= s.(wk_now))%Z ∧ r ∈ s.(wk_asked)
  | DocLoaded t r cached =>
      ((t <= s.(wk_now))%Z ∧ r ∈ s.(wk_asked) ∧ readable r.(lr_Method) = true) ∧ (∀ c, cached = Some c → made_for s c)
  | DocStale t r => (t <= s.(wk_now))%Z ∧ r ∈ s.(wk_asked) ∧ readable r.(lr_Method) = true
  | DocMade t r body =>
      ((t <= s.(wk_now))%Z ∧ r ∈ s.(wk_asked) ∧ readable r.(lr_Method) = true) ∧ document_of s t s.(wk_now) r body
  | DocStamped t r c =>
      ((t <= s.(wk_now))%Z ∧ r ∈ s.(wk_asked) ∧ readable r.(lr_Method) = true) ∧
      document_of s t s.(wk_now) r c.(cd_body) ∧ made_for s c
  end.

Record doc_ok (s : DocConfig) : Prop := {
  dk_current : (s.(wk_now), s.(wk_index)) ∈ s.(wk_past);
  dk_cached : ∀ c, s.(wk_cached) = Some c → made_for s c;
  dk_running : ∀ k pc, s.(wk_running) !! k = Some pc → pc_ok s pc;
  dk_sent : ∀ d, d ∈ s.(wk_sent) → answered_well s d;
}.

(** A later configuration has seen at least as much. *)
Record extends (s s' : DocConfig) : Prop := {
  ex_now : (s.(wk_now) <= s'.(wk_now))%Z;
  ex_past : s.(wk_past) ⊆ s'.(wk_past);
  ex_asked : s.(wk_asked) ⊆ s'.(wk_asked);
}.

Lemma document_later s s' a b b' r body : extends s s' → (b <= b')%Z → document_of s a b r body → document_of s' a b' r body.
Proof. intros [_ Hp _] Hb (t & i & Hin & Ht & He). exists t, i. split_and!; [by apply Hp|lia|lia|done]. Qed.

Lemma made_later s s' c : extends s s' → made_for s c → made_for s' c.
Proof.
  intros He (r & from & Hr & Hread & Hd). exists r, from. split_and!; [by apply (ex_asked _ _ He)|done|].
  by eapply document_later.
Qed.

Lemma answered_later s s' d : extends s s' → answered_well s d → answered_well s' d.
Proof.
  intros He [?|(Hr & H2 & Hd)]; [by left|right]. split_and!; [done..|]. destruct Hd as [Hd|(c & Hc & ?)].
  - left. by eapply document_later.
  - right. exists c. split; [by eapply made_later|done].
Qed.

Lemma pc_later s s' pc : extends s s' → pc_ok s pc → pc_ok s' pc.
Proof.
  intros He. pose proof (ex_now _ _ He). pose proof (ex_asked _ _ He).
  destruct pc; cbn [pc_ok]; intuition eauto using document_later, made_later; lia.
Qed.

(** The rest of the invariant, when a step changes one request. *)
Lemma doc_ok_step s s' : doc_ok s → extends s s' →
  (s'.(wk_now), s'.(wk_index)) ∈ s'.(wk_past) →
  (∀ c, s'.(wk_cached) = Some c → s.(wk_cached) = Some c ∨ made_for s' c) →
  (∀ k pc, s'.(wk_running) !! k = Some pc → s.(wk_running) !! k = Some pc ∨ pc_ok s' pc) →
  (∀ d, d ∈ s'.(wk_sent) → d ∈ s.(wk_sent) ∨ answered_well s' d) → doc_ok s'.
Proof.
  intros [_ Hc Hr Hs] He Hcur Hc' Hr' Hs'. split; [done|..].
  - intros c [?|?]%Hc'; [|done]. eapply made_later; eauto.
  - intros k pc [?|?]%Hr'; [|done]. eapply pc_later; eauto.
  - intros d [?|?]%Hs'; [|done]. eapply answered_later; eauto.
Qed.

Lemma extends_same s s' : s'.(wk_now) = s.(wk_now) → s'.(wk_past) = s.(wk_past) → s.(wk_asked) ⊆ s'.(wk_asked) → extends s s'.
Proof. intros H1 H2 H3. split; [by rewrite H1|by rewrite H2|done]. Qed.

Lemma doc_at_ok k pc s : doc_ok s → pc_ok (doc_at k pc s) pc → doc_ok (doc_at k pc s).
Proof.
  intros Hs Hpc. apply (doc_ok_step s); [done|by apply extends_same|apply Hs|by left| |by left].
  cbn [doc_at wk_running]. intros k' pc' [[_ <-]|[_ ?]]%lookup_insert_Some; [by right|by left].
Qed.

Lemma doc_answer_ok k cached d s : doc_ok s → (∀ c, cached = Some c → s.(wk_cached) = Some c ∨ made_for s c) →
  answered_well s d → doc_ok (doc_answer k cached d s).
Proof.
  intros Hs Hc Hd. apply (doc_ok_step s); [done|by apply extends_same|apply Hs|exact Hc| |].
  - cbn [doc_answer wk_running]. intros k' pc [_ ?]%lookup_delete_Some. by left.
  - cbn [doc_answer wk_sent]. intros d' [?|Hd'%list_elem_of_singleton]%elem_of_app; [by left|subst d'; by right].
Qed.

Lemma doc_step_ok s s' : doc_step s s' → doc_ok s → doc_ok s'.
Proof.
  intros Hstep Hs. destruct Hstep as [s now index Hle|s k r Hk|s k t r Hk Hr|s k t r Hk Hr|s k t r cached c Hk Hf
    |s k t r cached Hk Hf|s k t r Hk|s k t r body Hk|s k t r c Hk]; try (pose proof (dk_running _ Hs _ _ Hk) as Hpc).
  - apply (doc_ok_step s); [done|split; cbn; [done|set_solver|done]|left|by left..].
  - apply (doc_ok_step s); [done|by apply extends_same; [..|set_solver]|apply Hs|by left| |by left].
    cbn [doc_arrive wk_running]. intros k' pc [[_ <-]|[_ ?]]%lookup_insert_Some; [|by left]. right. split; [done|left].
  - apply doc_answer_ok; [done|by left|by left].
  - apply doc_at_ok; [done|]. split; [by destruct Hpc|]. apply Hs.
  - destruct Hpc as [(? & ? & Hr) Hc]. apply doc_answer_ok; [done|by left|]. right. split_and!; [done..|]. right.
    exists c. unfold doc_fresh in Hf. destruct cached as [c'|]; [|done]. destruct (Z.ltb_spec (time_sub s.(wk_now) c'.(cd_createdAt)) (cacheTTL ttl)); [|done].
    injection Hf as ->. split; [by apply Hc|done].
  - by apply doc_at_ok; [|destruct Hpc].
  - apply doc_at_ok; [done|]. split; [done|]. exists s.(wk_now), s.(wk_index). split_and!; [apply Hs|apply Hpc|done|done].
  - destruct Hpc as [Hpc Hd]. apply doc_at_ok; [done|]. split_and!; [apply Hpc..|exact Hd|]. exists r, t.
    split_and!; [apply Hpc..|exact Hd].
  - destruct Hpc as ((? & ? & Hr) & Hd & Hm). apply doc_answer_ok; [done|by intros ? [= <-]; right|].
    right. split_and!; [done..|by left].
Qed.

Lemma doc_reachable now index s : rtc doc_step (doc_start now index) s → doc_ok s.
Proof.
  assert (Hstart : doc_ok (doc_start now index)).
  { split; [left|done|by intros k pc Hk; cbn in Hk; rewrite lookup_empty in Hk|by intros d ?%elem_of_nil]. }
  intros Hr. revert Hstart. induction Hr as [|s1 s2 s3 Hstep _ IH]; [done|]. intros Hs. by eapply IH, doc_step_ok.
Qed.

(** One request that nobody comes between runs as the handler. *)
Lemma doc_alone s k r after : s.(wk_running) !! k = None → (s.(wk_now) <= after)%Z →
  let '(reply, cached) := DiscoveryDocServeHTTP base ttl s.(wk_now) after s.(wk_index) r s.(wk_cached) in
  ∃ s', rtc doc_step s s' ∧ s'.(wk_cached) = cached ∧
    ∃ t, s'.(wk_sent) = s.(wk_sent) ++ [mkDocSent r s.(wk_now) t reply].
Proof.
  intros Hk Hafter. unfold DiscoveryDocServeHTTP.
  assert (Ha := doc_arrives s k r Hk). set (s1 := doc_arrive k r s) in *.
  assert (Hk1 : s1.(wk_running) !! k = Some (DocArrived s.(wk_now) r)) by apply lookup_insert_eq.
  destruct (readable r.(lr_Method)) eqn:Hr; cbn [negb].
  2:{ eexists. split; [eapply rtc_l; [exact Ha|]; by eapply rtc_once, doc_refuses|]. split; [done|]. by eexists. }
  assert (Hl := doc_loads s1 k _ r Hk1 Hr). set (s2 := doc_at k _ s1) in *.
  assert (Hk2 : s2.(wk_running) !! k = Some (DocLoaded s.(wk_now) r s.(wk_cached))) by apply lookup_insert_eq.
  destruct (doc_fresh ttl s.(wk_now) s.(wk_cached)) as [c|] eqn:Hf.
  { eexists. split; [eapply rtc_l; [exact Ha|]; eapply rtc_l; [exact Hl|]; by eapply rtc_once, doc_hits|].
    split; [done|]. by eexists. }
  assert (Hm := doc_misses s2 k _ r _ Hk2 Hf). set (s3 := doc_at k _ s2) in *.
  assert (Hg := doc_makes s3 k _ r (lookup_insert_eq _ _ _)). set (s4 := doc_at k _ s3) in *.
  assert (Ht := doc_time s4 after s.(wk_index) Hafter). set (s5 := doc_later _ _ s4) in *.
  assert (Hst := doc_stamps s5 k s.(wk_now) r (generate base s.(wk_index) r) (lookup_insert_eq _ _ _)).
  set (s6 := doc_at k _ s5) in *.
  assert (Hso := doc_stores s6 k _ r _ (lookup_insert_eq _ _ _)). set (s7 := doc_answer k _ _ s6) in *.
  exists s7. split; [|split; [done|by eexists]].
  eapply rtc_l; [exact Ha|]. eapply rtc_l; [exact Hl|]. eapply rtc_l; [exact Hm|]. eapply rtc_l; [exact Hg|].
  eapply rtc_l; [exact Ht|]. eapply rtc_l; [exact Hst|]. by apply rtc_once.
Qed.

(** C37: How old the well-known document can be, for requests that run concurrently
    while time passes and the index changes. Every answered request was refused
    for its method, or got the document of an index that the gateway had while the
    request ran, or one stamped less than the lifetime before the check of its age;
    that one was made for a request of the run, from an index the gateway had at
    or before the stamp, with the address of that request. The steps are those of
    the handler: a request that nobody comes between is answered, and leaves the
    cache, as [DiscoveryDocServeHTTP] says. Until a document expires, every
    request gets it, whatever the index then is: a server registered or removed in
    between is not seen, since nothing in the program calls [Invalidate], although
    the documents say that registrations invalidate the cache. *)
Theorem well_known_document now index s :
  rtc doc_step (doc_start now index) s →
  (∀ d, d ∈ s.(wk_sent) → answered_well s d) ∧
  (∀ k r after, s.(wk_running) !! k = None → (s.(wk_now) <= after)%Z →
    let '(reply, cached) := DiscoveryDocServeHTTP base ttl s.(wk_now) after s.(wk_index) r s.(wk_cached) in
    ∃ s', rtc doc_step s s' ∧ s'.(wk_cached) = cached ∧
      ∃ t, s'.(wk_sent) = s.(wk_sent) ++ [mkDocSent r s.(wk_now) t reply]) ∧
  (∀ c now after index' r, readable r.(lr_Method) = true → (time_sub now c.(cd_createdAt) < cacheTTL ttl)%Z →
    DiscoveryDocServeHTTP base ttl now after index' r (Some c) = ((200%Z, c.(cd_body)), Some c)).
Proof.
  intros Hr. split_and!.
  - apply (doc_reachable _ _ _ Hr).
  - intros k r after. apply doc_alone.
  - intros c t after index' r Hread Ht. unfold DiscoveryDocServeHTTP, doc_fresh. rewrite Hread. cbn [negb].
    by rewrite (proj2 (Z.ltb_lt _ _) Ht).
Qed.

End document.

(** Without a configured address, the document carries the address that the
    client who caused it claims in [X-Forwarded-Host], and until it expires every
    other client gets it: all the addresses of servers in it are at that host,
    whatever the host the other client asked. *)
Theorem well_known_shared ttl cached t1 t1' i1 r1 t2 t2' i2 r2 :
  readable r1.(lr_Method) = true → readable r2.(lr_Method) = true →
  doc_fresh ttl t1 cached = None → (time_sub t2 t1' < cacheTTL ttl)%Z →
  first_part r1.(lr_ForwardedHost) ≠ "" → r1.(lr_ForwardedProto) = "" →
  (DiscoveryDocServeHTTP "" ttl t2 t2' i2 r2 (DiscoveryDocServeHTTP "" ttl t1 t1' i1 r1 cached).2).1 =
  (200%Z, json_print (AObj [("mcpServers", AObj (merge_sort doc_key_le (map_to_list
     (doc_servers (trim_slashes ("https://" +:+ first_part r1.(lr_ForwardedHost))) (ListServers i1)))))])).
Proof.
  intros H1 H2 Hold Ht Hh Hp.
  assert (Hne : r1.(lr_ForwardedHost) ≠ "") by (intros E; by rewrite E in Hh).
  unfold DiscoveryDocServeHTTP at 2. rewrite H1, Hold. cbn [negb snd].
  unfold DiscoveryDocServeHTTP, doc_fresh. rewrite H2. cbn [negb cd_createdAt].
  rewrite (proj2 (Z.ltb_lt _ _)) by done. cbn [fst cd_body]. unfold generate, resolveBaseURLFromRequest.
  rewrite Hp, (bool_decide_eq_false_2 (r1.(lr_ForwardedHost) = "")), (bool_decide_eq_false_2 (first_part _ = "")) by done.
  done.
Qed.

(** ** The catalogue *)

(** A cache has its definitions under their names. *)
Definition cache_named (c : ToolCache) : Prop := ∀ k e, c.(tlc_tools) !! k = Some e → TrimSpace e.(ch_definition).(tl_Name) = k.

Lemma cache_named_delete k c : cache_named c → cache_named (mkToolCache (delete k c.(tlc_tools)) c.(tlc_ttl)).
Proof. intros Hc k' e. cbn. intros [_ He]%lookup_delete_Some. by apply Hc. Qed.

Lemma cache_named_get now name c : cache_named c → cache_named (ToolCacheGet now name c).2.
Proof.
  intros Hc. unfold ToolCacheGet. case_bool_decide; [done|]. destruct (_ !! _); [|done].
  destruct (_ <? _)%Z; [by apply cache_named_delete|done].
Qed.

Lemma cache_named_meta now name c : cache_named c →
  cache_named (GetWithMeta now name c).2 ∧
  ∀ e, (GetWithMeta now name c).1 = Some e → TrimSpace e.(ch_definition).(tl_Name) = TrimSpace name.
Proof.
  intros Hc. unfold GetWithMeta. case_bool_decide; [done|]. destruct (_ !! _) as [e|] eqn:E; [|done].
  destruct (_ <? _)%Z; cbn [fst snd]; split; [by apply cache_named_delete|done..|]. intros e' [= <-]. by apply Hc.
Qed.

Lemma cache_named_set now name def id server c :
  TrimSpace def.(tl_Name) = TrimSpace name → cache_named c → cache_named (ToolCacheSet now name def id server c).
Proof.
  intros Hd Hc. unfold ToolCacheSet. case_bool_decide; [done|].
  intros k e. cbn. intros [[<- <-]|[_ He]]%lookup_insert_Some; [done|by apply Hc].
Qed.

Lemma foldl_invariant {A B} (I : A → Prop) (f : A → B → A) l a : (∀ a b, I a → I (f a b)) → I a → I (foldl f a l).
Proof. intros Hf. revert a. induction l as [|b l IH]; intros a Ha; [done|]. by apply IH, Hf. Qed.

Section catalogue.
Context (now : Z) (index : CapabilityIndex) (ns : option NamespaceResolver).
Context (list_backend : ServerRecord → result (list ToolDefinition)).

Lemma cache_named_list cache : cache_named cache → cache_named (handleListTools now index ns list_backend cache).2.
Proof.
  intros Hc. unfold handleListTools. cbn [snd].
  apply (foldl_invariant (λ a, cache_named a.(ag_cache))); [|done].
  intros a toolName Ha. case_bool_decide; [done|]. unfold aggregateTool.
  apply (foldl_invariant (λ a, cache_named a.(ag_cache))); [|done].
  clear. intros a backend Ha. unfold aggregate_candidate.
  case_bool_decide; [done|]. case_bool_decide; [done|].
  pose proof (cache_named_get now (listed_name index ns backend (TrimSpace toolName)) _ Ha) as Hg.
  destruct (ToolCacheGet _ _ _) as [[def|] c]; [done|]. cbn [snd] in Hg.
  destruct (loadBackendDefinitions _ _ _) as [defs b]. destruct (defs !! _); [|done].
  by apply cache_named_set.
Qed.

Lemma canonical_prefix name : canonicalCatalogName name ≠ "" → HasPrefix (canonicalCatalogName name) "mcp." = true.
Proof.
  unfold canonicalCatalogName. case_bool_decide; [done|]. cbn [orb]. destruct (HasPrefix _ _) eqn:E; [done|].
  intros _. apply HasPrefix_spec. eauto.
Qed.

(** The names of the catalogue, from the names of the list. *)
Definition catalog_names (tools : list string) : list string :=
  filter (λ n, n ≠ "") (canonicalCatalogName <$> filter (λ n, n ∉ metaToolNames) tools).

Lemma catalog_fold tools entries cache : cache_named cache →
  (λ e, e.(ce_def).(tl_Name)) <$> (foldl (catalog_step now) (entries, cache) tools).1 =
  ((λ e, e.(ce_def).(tl_Name)) <$> entries) ++ catalog_names (tl_Name <$> tools).
Proof.
  revert entries cache. induction tools as [|tool tools IH]; intros entries cache Hc; [by rewrite app_nil_r|].
  cbn [foldl]. unfold catalog_step at 2. unfold catalog_names. rewrite fmap_cons, filter_cons.
  destruct (decide (tool.(tl_Name) ∈ metaToolNames)) as [Hm|Hm].
  - rewrite bool_decide_eq_true_2, decide_False by naive_solver. by apply IH.
  - rewrite bool_decide_eq_false_2, decide_True, fmap_cons, filter_cons by done.
    destruct (cache_named_meta now tool.(tl_Name) cache Hc) as [Hc' Hd].
    destruct (GetWithMeta _ _ _) as [found cache']. cbn [fst snd] in Hc', Hd.
    set (def := match found with Some e => e.(ch_definition) | None => tool end).
    assert (Hname : canonicalCatalogName def.(tl_Name) = canonicalCatalogName tool.(tl_Name)).
    { unfold canonicalCatalogName, def. destruct found as [e|]; [|done]. by rewrite (Hd e eq_refl). }
    replace (match found with Some e => _ | None => (tool, "", "") end) with
      (def, match found with Some e => e.(ch_serverID) | None => "" end,
       match found with Some e => e.(ch_serverName) | None => "" end) by (by destruct found).
    rewrite Hname. destruct (decide (canonicalCatalogName tool.(tl_Name) = "")) as [Hn|Hn].
    + rewrite bool_decide_eq_true_2, decide_False by naive_solver. by apply IH.
    + rewrite bool_decide_eq_false_2, decide_True by done. rewrite IH by done.
      rewrite fmap_app, <- app_assoc. done.
Qed.

Lemma catalog_listed cache : cache_named cache →
  (λ e, e.(ce_def).(tl_Name)) <$> (ListCatalogTools now index ns list_backend cache).1 =
    catalog_names (tl_Name <$> (handleListTools now index ns list_backend cache).1).
Proof.
  intros Hc. unfold ListCatalogTools. pose proof (cache_named_list cache Hc) as Hc'.
  destruct (handleListTools _ _ _ _ _) as [tools cache']. exact (catalog_fold tools [] cache' Hc').
Qed.

Lemma catalog_prefixed cache : cache_named cache →
  Forall (λ e, HasPrefix e.(ce_def).(tl_Name) "mcp." = true) (ListCatalogTools now index ns list_backend cache).1.
Proof.
  intros Hc. apply (proj1 (Forall_fmap (λ e, e.(ce_def).(tl_Name)) (λ n, HasPrefix n "mcp." = true) _)).
  rewrite (catalog_listed cache Hc). apply Forall_forall.
  intros n [Hne (x & -> & _)%list_elem_of_fmap]%list_elem_of_filter. by apply canonical_prefix.
Qed.

(** The catalogue has every tool of the list but the gateway's own, in the
    order of the list and each under its name with the [mcp.] prefix. *)
Theorem catalog_complete cache :
  cache_named cache →
  let entries := (ListCatalogTools now index ns list_backend cache).1 in
  (λ e, e.(ce_def).(tl_Name)) <$> entries =
    catalog_names (tl_Name <$> (handleListTools now index ns list_backend cache).1) ∧
  Forall (λ e, HasPrefix e.(ce_def).(tl_Name) "mcp." = true) entries.
Proof. split; [by apply catalog_listed|by apply catalog_prefixed]. Qed.
End catalogue.

(** *** The risk levels of the catalogue *)

Section risk.
Context `{UnicodeTables} `{PgText}.

(** The rows of the table are under their names. *)
Definition rows_named (m : gmap string ToolClassification) : Prop := ∀ k c, m !! k = Some c → c.(tc_ToolName) = k.

Lemma levels_of_rows (rows : list ToolClassification) (m : gmap string ToolClassification) name :
  rows_named m → rows ≡ₚ (map_to_list m).*2 →
  (foldl (λ acc tc, <[tc.(tc_ToolName) := tc.(tc_RiskLevel)]> acc) ∅ rows : gmap string RiskLevel) !! name =
  tc_RiskLevel <$> m !! name.
Proof.
  intros Hm Hrows.
  assert (Hin : ∀ c, c ∈ rows ↔ m !! c.(tc_ToolName) = Some c).
  { intros c. rewrite Hrows, list_elem_of_fmap. split.
    - intros ([k c'] & -> & Hc%elem_of_map_to_list). cbn. by rewrite (Hm _ _ Hc).
    - intros Hc. exists (c.(tc_ToolName), c). by rewrite elem_of_map_to_list. }
  assert (Hgo : ∀ l (acc : gmap string RiskLevel), (∀ c, c ∈ l → m !! c.(tc_ToolName) = Some c) →
    foldl (λ acc tc, <[tc.(tc_ToolName) := tc.(tc_RiskLevel)]> acc) acc l !! name =
    if bool_decide (name ∈ tc_ToolName <$> l) then tc_RiskLevel <$> m !! name else acc !! name).
  { induction l as [|c l IH]; intros acc Hl; [done|]. cbn [foldl].
    rewrite IH by (intros c' Hc'; apply Hl; by right).
    destruct (decide (name ∈ tc_ToolName <$> l)) as [Hn|Hn].
    - rewrite !bool_decide_eq_true_2; [done|by right|done].
    - rewrite (bool_decide_eq_false_2 _ Hn). destruct (decide (name = c.(tc_ToolName))) as [->|Hne].
      + rewrite bool_decide_eq_true_2, lookup_insert_eq, (Hl c) by left. done.
      + rewrite lookup_insert_ne by done. rewrite bool_decide_eq_false_2; [done|].
        rewrite fmap_cons, elem_of_cons. naive_solver. }
  rewrite Hgo by (intros c; apply Hin). case_bool_decide as Hn; [done|].
  rewrite lookup_empty. destruct (m !! name) as [c|] eqn:Hc; [|done]. destruct Hn.
  apply list_elem_of_fmap. exists c. rewrite Hin. by rewrite (Hm _ _ Hc).
Qed.

Lemma loadClassifications_rows store db rows' :
  rows_named db.(db_classifications) → rows_named rows' →
  (∀ name, HasPrefix name "mcp." = true → rows' !! name = db.(db_classifications) !! name) →
  let '(m, db1) := loadClassifications store db in
  let '(m', db1') := loadClassifications store (set_classifications rows' db) in
  db1' = set_classifications rows' db1 ∧
  ∀ name, HasPrefix name "mcp." = true → m' ≫= (.!! name) = m ≫= (.!! name).
Proof.
  intros Hm Hm' Hsame. unfold loadClassifications. destruct store; cbn [negb]; [|done].
  unfold ClassificationGetAll, wrap_error, statement. cbn [set_classifications db_faults].
  destruct db.(db_faults) as [|[] fs]; [|done|]; (split; [done|]); intros name Hn; cbn [mbind option_bind set_faults db_classifications];
    (rewrite (levels_of_rows _ _ name Hm') by apply merge_sort_Permutation);
    (rewrite (levels_of_rows _ _ name Hm) by apply merge_sort_Permutation); by rewrite Hsame.
Qed.

Lemma buildServerViews_rows store counts db rows' :
  (buildServerViews store counts (set_classifications rows' db)).1 = (buildServerViews store counts db).1.
Proof.
  unfold buildServerViews. destruct store; [|done]. cbn [negb]. unfold ServerList, wrap_error, statement.
  cbn [set_classifications db_faults]. destruct db.(db_faults) as [|[] fs]; [|done|];
    cbn [set_faults db_servers]; by destruct (existsb _ _).
Qed.

(** The risk levels of the catalogue do not depend on the classification of
    any tool whose name lacks the [mcp.] prefix: with other rows for those tools,
    or none, the answer is the same. Servers declare their tools without the
    prefix, so what an administrator stores for one is not shown. *)
Theorem catalog_risk_ignored now index ns list_backend cache classificationStore serverStore t gatewayID db rows' :
  cache_named cache → rows_named db.(db_classifications) → rows_named rows' →
  (∀ name, HasPrefix name "mcp." = true → rows' !! name = db.(db_classifications) !! name) →
  let entries := (ListCatalogTools now index ns list_backend cache).1 in
  (catalogHandleList classificationStore serverStore t gatewayID entries (set_classifications rows' db)).1 =
  (catalogHandleList classificationStore serverStore t gatewayID entries db).1.
Proof.
  intros Hc Hm Hm' Hsame. cbv zeta. pose proof (catalog_prefixed now index ns list_backend cache Hc) as Hall.
  set (entries := (ListCatalogTools now index ns list_backend cache).1) in *. unfold catalogHandleList.
  pose proof (loadClassifications_rows classificationStore db rows' Hm Hm' Hsame) as Hload.
  destruct (loadClassifications classificationStore db) as [m db1].
  destruct (loadClassifications classificationStore (set_classifications rows' db)) as [m' db1'].
  destruct Hload as [-> Hmap]. pose proof (buildServerViews_rows serverStore (server_tool_counts entries) db1 rows') as Hv.
  destruct (buildServerViews _ _ (set_classifications rows' db1)) as [views' db2'].
  destruct (buildServerViews _ _ db1) as [views db2]. cbn [fst] in *. subst views'.
  assert (Htools : (λ e, mkCatalogTool e (resolveRiskLevel e m')) <$> entries =
                   (λ e, mkCatalogTool e (resolveRiskLevel e m)) <$> entries); [|by rewrite Htools].
  apply list_fmap_ext. intros n e He%list_elem_of_lookup_2. rewrite Forall_forall in Hall. f_equal.
  unfold resolveRiskLevel. by rewrite Hmap by (by apply Hall).
Qed.
End risk.

(** ** Resources *)

Lemma keep_first_lookup {A} (key : A → string) (l : list A) m k :
  foldl (keep_first key) m l !! k =
  match m !! k with Some x => Some x | None => List.find (λ x, bool_decide (key x = k)) l end.
Proof.
  revert m. induction l as [|x l IH]; intros m; cbn [foldl List.find]; [by destruct (m !! k)|]. rewrite IH.
  unfold keep_first. destruct (m !! key x) as [y|] eqn:E.
  - destruct (m !! k) eqn:Ek; [done|]. rewrite bool_decide_eq_false_2; [done|]. intros Hk. subst k. congruence.
  - destruct (decide (key x = k)) as [<-|Hne].
    + by rewrite lookup_insert_eq, E, bool_decide_eq_true_2.
    + rewrite lookup_insert_ne by done. by rewrite bool_decide_eq_false_2.
Qed.

Lemma find_app {A} (p : A → bool) l k :
  List.find p (l ++ k) = match List.find p l with Some x => Some x | None => List.find p k end.
Proof. induction l as [|x l IH]; [done|]. cbn. by destruct (p x). Qed.

Lemma find_Some_elem {A} (p : A → bool) l x : List.find p l = Some x → x ∈ l ∧ p x = true.
Proof. intros [H%list_elem_of_In ?]%find_some. done. Qed.

Lemma sortedKeys_spec {A} (m : gmap string A) k : k ∈ sortedKeys m ↔ is_Some (m !! k).
Proof.
  unfold sortedKeys. rewrite sort_strings_perm, list_elem_of_fmap. split.
  - intros ([k' x] & -> & H%elem_of_map_to_list). eauto.
  - intros [x H]. exists (k, x). by rewrite elem_of_map_to_list.
Qed.

Section resource_list.
Context (index : CapabilityIndex) (v : view) (list_resources : ServerRecord → result (list ResourceDefinition)).

(** What a server lists; nothing when the call fails. *)
Definition listing (r : ServerRecord) : list ResourceDefinition :=
  match list_resources r with Ok l => l | Err _ => [] end.

(** A live server with resources lists the definition, the first with its URI. *)
Definition offers (r : ServerRecord) (d : ResourceDefinition) : Prop :=
  v !! r.(ID) = Some r ∧ names (resource_caps r) ≠ [] ∧
  List.find (λ x, bool_decide (x.(rs_URI) = d.(rs_URI))) (listing r) = Some d.

Lemma lookup_own_prefix k r : represents index v → r ∈ LookupResource index k →
  v !! r.(ID) = Some r ∧ names (resource_caps r) ≠ [].
Proof.
  intros (Hwf & _ & Hr) Hin. apply (lookup_resource_longest index _ k r Hwf (reflexivity _)) in Hin as (key & Hin & _).
  apply Hr in Hin as [Hv Hk]. split; [done|]. intros E. rewrite E in Hk. by apply not_elem_of_nil in Hk.
Qed.

Lemma live_found r : represents index v → v !! r.(ID) = Some r → names (resource_caps r) ≠ [] →
  ∃ k, k ∈ ListResources index ∧ r ∈ LookupResource index k.
Proof.
  intros (Hwf & _ & Hr) Hv Hn. destruct (names (resource_caps r)) as [|k ks] eqn:E; [done|]. exists k.
  assert (Hk : k ∈ names (resource_caps r)) by (rewrite E; left).
  assert (Hu : r ∈ under index.(resources) k) by (by apply Hr).
  assert (HS : is_Some (index.(resources) !! k)) by (unfold under in Hu; destruct (_ !! k); [eauto|set_solver]).
  split; [unfold ListResources; by rewrite sort_strings_perm, elem_of_keys_of|].
  apply (lookup_resource_longest index _ k r Hwf (reflexivity _)). exists k.
  destruct (names_trimmed _ _ Hk) as [Ht _]. rewrite Ht. split_and!; [done| |].
  - apply HasPrefix_spec. exists "". apply to_bytes_inj. by rewrite to_bytes_app, app_nil_r.
  - intros k' _ [s Hs]%HasPrefix_spec. unfold len. rewrite Hs, to_bytes_app, length_app. lia.
Qed.

Lemma deduplicated id r : represents index v →
  deduplicateServers index (ListResources index) !! id = Some r ↔
  id = r.(ID) ∧ v !! r.(ID) = Some r ∧ names (resource_caps r) ≠ [].
Proof.
  intros Hrep. unfold deduplicateServers.
  assert (Hgo : ∀ l m, foldl (λ m prefix, foldl (keep_first ID) m (LookupResource index prefix)) m l =
    foldl (keep_first ID) m (mjoin (LookupResource index <$> l))).
  { induction l as [|k l IH]; intros m; [done|]. cbn [foldl]. rewrite IH, <- foldl_app. done. }
  rewrite Hgo, keep_first_lookup, lookup_empty. clear Hgo. split.
  - intros [(l & Hl & (k & -> & _)%list_elem_of_fmap)%list_elem_of_join Hid%bool_decide_eq_true]%find_Some_elem.
    split; [done|]. by apply (lookup_own_prefix k).
  - intros (-> & Hv & Hn). destruct (live_found r Hrep Hv Hn) as (k & Hk & Hr).
    destruct (List.find _ _) as [r'|] eqn:E.
    + apply find_Some_elem in E as [(l & Hl & (k' & -> & _)%list_elem_of_fmap)%list_elem_of_join Hid%bool_decide_eq_true].
      apply lookup_own_prefix in Hl as [Hv' _]; [|done]. rewrite Hid in Hv'. congruence.
    + assert (Hin : r ∈ mjoin (LookupResource index <$> ListResources index)).
      { apply list_elem_of_join. exists (LookupResource index k). split; [done|]. apply list_elem_of_fmap. eauto. }
      apply list_elem_of_In in Hin. pose proof (find_none _ _ E r Hin) as Hf. cbv beta in Hf.
      by rewrite bool_decide_eq_true_2 in Hf.
Qed.

(** The servers asked, by id. *)
Definition asked : list ServerRecord :=
  let m := deduplicateServers index (ListResources index) in omap (m !!.) (sortedKeys m).

Lemma collected uri :
  let m := deduplicateServers index (ListResources index) in
  collectResources list_resources (sortedKeys m) m !! uri =
  List.find (λ x, bool_decide (x.(rs_URI) = uri)) (mjoin (listing <$> asked)).
Proof.
  cbv zeta. unfold collectResources, asked. set (m := deduplicateServers _ _). generalize (sortedKeys m) as ids.
  assert (Hgo : ∀ ids acc, foldl (λ acc id,
      match m !! id with
      | Some srv => match list_resources srv with Ok l => foldl (keep_first rs_URI) acc l | Err _ => acc end
      | None => acc
      end) acc ids = foldl (keep_first rs_URI) acc (mjoin (listing <$> omap (m !!.) ids))).
  { induction ids as [|id ids IH]; intros acc; [done|]. cbn [foldl omap list_omap]. rewrite IH. clear IH.
    destruct (m !! id) as [srv|] eqn:E; [|done]. rewrite fmap_cons. cbn [mjoin list_join].
    rewrite foldl_app. f_equal. unfold listing. by destruct (list_resources srv). }
  intros ids. rewrite Hgo, keep_first_lookup, lookup_empty. done.
Qed.

Lemma asked_spec : represents index v →
  StronglySorted (λ a b, String.le a.(ID) b.(ID)) asked ∧
  ∀ r, r ∈ asked ↔ v !! r.(ID) = Some r ∧ names (resource_caps r) ≠ [].
Proof.
  intros Hrep. unfold asked. set (m := deduplicateServers _ _).
  assert (Hm : ∀ id r, m !! id = Some r ↔ id = r.(ID) ∧ v !! r.(ID) = Some r ∧ names (resource_caps r) ≠ []).
  { intros id r. by apply deduplicated. }
  split.
  - assert (Hs : StronglySorted String.le (sortedKeys m)) by apply sort_strings_sorted.
    induction Hs as [|id ids _ IH Hid]; [constructor|]. cbn [omap list_omap].
    destruct (m !! id) as [r|] eqn:E; [|done]. constructor; [done|].
    apply Forall_forall. intros r' (id' & Hin & Hr')%list_elem_of_omap.
    apply Hm in E as [-> _]. apply Hm in Hr' as [-> _]. rewrite Forall_forall in Hid. by apply Hid.
  - intros r. rewrite list_elem_of_omap. setoid_rewrite Hm. split; [naive_solver|].
    intros Hr. exists r.(ID). split; [|done]. apply sortedKeys_spec. exists r. by apply Hm.
Qed.

(** The definition found first comes from the first server that lists its URI. *)
Lemma found_first p l d : StronglySorted (λ a b, String.le a.(ID) b.(ID)) l →
  List.find p (mjoin (listing <$> l)) = Some d →
  ∃ r, r ∈ l ∧ List.find p (listing r) = Some d ∧
    ∀ r', r' ∈ l → is_Some (List.find p (listing r')) → String.le r.(ID) r'.(ID).
Proof.
  intros Hs. induction Hs as [|r l _ IH Hr]; [done|]. rewrite fmap_cons. cbn [mjoin list_join]. rewrite find_app.
  rewrite Forall_forall in Hr. destruct (List.find p (listing r)) as [x|] eqn:E.
  - intros [= ->]. exists r. split_and!; [left|done|]. intros r' [->|Hin]%elem_of_cons _; [done|by apply Hr].
  - intros (r1 & Hin & Hf & Hmin)%IH. exists r1. split_and!; [by right|done|].
    intros r' [->|Hin']%elem_of_cons [y Hy]; [congruence|]. apply Hmin; [done|]. by exists y.
Qed.

Lemma found_some p l r : r ∈ l → is_Some (List.find p (listing r)) → is_Some (List.find p (mjoin (listing <$> l))).
Proof.
  intros Hr [x Hx]. destruct (List.find p (mjoin _)) as [y|] eqn:E; [eauto|].
  apply find_Some_elem in Hx as [Hin Hp].
  assert (Hj : x ∈ mjoin (listing <$> l)).
  { apply list_elem_of_join. exists (listing r). split; [done|]. apply list_elem_of_fmap. eauto. }
  apply list_elem_of_In in Hj. pose proof (find_none _ _ E x Hj). congruence.
Qed.

(** A definition is collected exactly when it is that of the lowest server id. *)
Lemma collected_iff d : represents index v →
  List.find (λ x, bool_decide (x.(rs_URI) = d.(rs_URI))) (mjoin (listing <$> asked)) = Some d ↔
  ∃ r, offers r d ∧ ∀ r' d', offers r' d' → d'.(rs_URI) = d.(rs_URI) → String.le r.(ID) r'.(ID).
Proof.
  intros Hrep. destruct (asked_spec Hrep) as [Hs Hin]. unfold offers. split.
  - intros (r & Hr & Hf & Hmin)%found_first; [|done]. apply Hin in Hr as [Hv Hn]. exists r. split; [done|].
    intros r' d' (Hv' & Hn' & Hf') Hu. rewrite Hu in Hf'. apply Hmin; [by apply Hin|eauto].
  - intros (r & (Hv & Hn & Hf) & Hmin).
    destruct (found_some _ asked r (proj2 (Hin r) (conj Hv Hn)) (ex_intro _ d Hf)) as [d1 Hd1]. rewrite Hd1.
    apply found_first in Hd1 as (r1 & [Hv1 Hn1]%Hin & Hf1 & Hmin1); [|done].
    assert (Hu : d1.(rs_URI) = d.(rs_URI)) by (by apply find_Some_elem in Hf1 as [_ ?%bool_decide_eq_true]).
    assert (Hid : r1.(ID) = r.(ID)).
    { apply (anti_symm String.le); [apply Hmin1; [by apply Hin|eauto]|].
      apply (Hmin r1 d1); [|done]. rewrite Hu. by split_and!. }
    rewrite Hid in Hv1. simplify_eq. congruence.
Qed.

Lemma lookup_serves uri r : represents index v → r ∈ LookupResource index uri →
  ∃ key, v !! r.(ID) = Some r ∧ key ∈ names (resource_caps r) ∧ HasPrefix (TrimSpace uri) key = true ∧
    ∀ r' key', v !! r'.(ID) = Some r' → key' ∈ names (resource_caps r') → HasPrefix (TrimSpace uri) key' = true →
      len key' <= len key.
Proof.
  intros (Hwf & _ & Hr) (key & [Hv Hk]%Hr & Hp & Hmax)%(lookup_resource_longest index _ _ _ Hwf (reflexivity _)).
  exists key. split_and!; [done..|]. intros r' key' Hv' Hk' Hp'. apply Hmax; [|done].
  assert (Hu : r' ∈ under index.(resources) key') by (by apply Hr).
  unfold under in Hu. destruct (_ !! key'); [eauto|set_solver].
Qed.

Lemma lookup_found uri r key : represents index v → v !! r.(ID) = Some r → key ∈ names (resource_caps r) →
  HasPrefix (TrimSpace uri) key = true → TrimSpace uri ≠ "" → LookupResource index uri ≠ [].
Proof.
  intros ([_ Hwf] & _ & Hr) Hv Hk Hp Hne. unfold LookupResource, LookupResourceIn, longest_prefix.
  rewrite bool_decide_eq_false_2 by done.
  destruct (longest_prefix_go (TrimSpace uri) (keys_of index.(resources)) "") as (Hm & _ & Hmax). cbv zeta in *.
  set (m := foldl _ _ _) in *.
  assert (Hu : r ∈ under index.(resources) key) by (by apply Hr).
  assert (HS : key ∈ keys_of index.(resources)).
  { apply elem_of_keys_of. unfold under in Hu. destruct (_ !! key); [eauto|set_solver]. }
  pose proof (Hmax key HS Hp) as Hlen. destruct (names_trimmed _ _ Hk) as [_ Hk0].
  assert (0 < len key) by (unfold len; destruct key; [done|cbn; lia]).
  assert (Hm0 : m ≠ "") by (intros E; rewrite E in Hlen; unfold len in Hlen at 2; cbn in Hlen; lia).
  rewrite bool_decide_eq_false_2 by done. destruct Hm as [|[[l Hl]%elem_of_keys_of _]]; [done|].
  unfold under. rewrite Hl. by destruct (Hwf m l Hl).
Qed.

(** The list of resources. It is sorted by URI without duplicates; it has a
    definition exactly when a live server that declares resources answers with it,
    and no server with a smaller id answers with a definition of the same URI.
    Servers that fail are left out. *)
Theorem list_resources_correct :
  represents index v →
  let out := handleListResources index list_resources in
  StronglySorted String.le (rs_URI <$> out) ∧ NoDup (rs_URI <$> out) ∧
  ∀ d, d ∈ out ↔
    ∃ r, offers r d ∧ ∀ r' d', offers r' d' → d'.(rs_URI) = d.(rs_URI) → String.le r.(ID) r'.(ID).
Proof.
  intros Hrep. cbv zeta. unfold handleListResources. cbv zeta.
  set (m := collectResources _ _ _).
  assert (Hm : ∀ uri, m !! uri = List.find (λ x, bool_decide (x.(rs_URI) = uri)) (mjoin (listing <$> asked))).
  { intros uri. apply collected. }
  assert (Hkey : ∀ uri d, m !! uri = Some d → d.(rs_URI) = uri).
  { intros uri d. rewrite Hm. by intros [_ ?%bool_decide_eq_true]%find_Some_elem. }
  assert (Hout : (if bool_decide (ListResources index = []) then [] else omap (m !!.) (sortedKeys m)) =
    omap (m !!.) (sortedKeys m)).
  { case_bool_decide as E; [|done]. assert (Hempty : m = ∅); [|by rewrite Hempty].
    unfold m. by rewrite E. }
  rewrite Hout. clear Hout.
  assert (Huris : rs_URI <$> omap (m !!.) (sortedKeys m) = sortedKeys m).
  { assert (Hall : Forall (λ k, is_Some (m !! k)) (sortedKeys m)) by (apply Forall_forall; intros k; apply sortedKeys_spec).
    induction Hall as [|k ks [d Hd] _ IH]; [done|]. cbn [omap list_omap]. rewrite Hd, fmap_cons, IH. by rewrite (Hkey _ _ Hd). }
  rewrite Huris. split_and!; [apply sort_strings_sorted| |].
  - unfold sortedKeys. rewrite sort_strings_perm. apply NoDup_fst_map_to_list.
  - intros d. rewrite <- (collected_iff d Hrep), <- Hm, list_elem_of_omap. split.
    + intros (k & _ & Hd). by rewrite (Hkey _ _ Hd).
    + intros Hd. exists d.(rs_URI). split; [|done]. apply sortedKeys_spec. eauto.
Qed.

(** A resource is read from a live server that declares the longest prefix of
    its URI that any server declares, and from no other; without such a server the
    answer is [ErrResourceNotFound]. *)
Theorem read_resource_correct {Content} (read : ServerRecord → string → result Content) uri :
  represents index v → TrimSpace uri ≠ "" →
  let serves r key := v !! r.(ID) = Some r ∧ key ∈ names (resource_caps r) ∧ HasPrefix (TrimSpace uri) key = true in
  match handleReadResource index read uri with
  | Ok (r, content) =>
      read r (TrimSpace uri) = Ok content ∧
      ∃ key, serves r key ∧ ∀ r' key', serves r' key' → len key' <= len key
  | Err e =>
      (e = Wrap "read resource" ErrResourceNotFound ∧ ∀ r key, ¬ serves r key) ∨
      ∃ r key e', read r (TrimSpace uri) = Err e' ∧ serves r key ∧ e = Wrap ("read resource: backend " +:+ r.(ID)) e'
  end.
Proof.
  intros Hrep Hne serves. unfold handleReadResource. rewrite bool_decide_eq_false_2 by done.
  destruct (LookupResource index (TrimSpace uri)) as [|r l] eqn:E.
  - left. split; [done|]. intros r key (Hv & Hk & Hp). by destruct (lookup_found (TrimSpace uri) r key Hrep Hv Hk); rewrite ?TrimSpace_idemp.
  - destruct (lookup_serves (TrimSpace uri) r Hrep) as (key & Hv & Hk & Hp & Hmax); [rewrite E; left|].
    rewrite TrimSpace_idemp in Hp, Hmax.
    destruct (read r (TrimSpace uri)) as [e'|content] eqn:Eread.
    + right. exists r, key, e'. by split_and!.
    + split; [done|]. exists key. split; [done|]. intros r' key' (Hv' & Hk' & Hp'). by apply (Hmax r').
Qed.

End resource_list.

(** ** Instances *)

#[local] Existing Instance ascii_tables.

(** Two servers, one of them named with the prefix. *)
Definition shop : ServerRecord := example_server "1" "mcp-shop" StatusActive ["buy"; "sell"] ["shop://"].
Definition wiki_pages : ServerRecord := example_server "2" "wiki" StatusActive ["read"] ["shop://"; "wiki://"].
Definition two_servers : CapabilityIndex := exec NewCapabilityIndex (OpRebuild [shop; wiki_pages]).
Definition two_live : view := exec_view ∅ (OpRebuild [shop; wiki_pages]).

Lemma two_represented : represents two_servers two_live.
Proof. apply represents_exec; [by_evaluation|apply represents_new]. Qed.

Definition shop_stats : ServerStats := mkStats shop 2 1.

Lemma shop_listed : shop_stats ∈ ListServers two_servers.
Proof. apply (server_listed _ two_live _ two_represented). split; by vm_compute. Qed.

Lemma list_servers_correct_witness : shop_stats ∈ ListServers two_servers.
Proof.
  destruct (list_servers_correct two_servers two_live two_represented) as (_ & _ & H). apply H. split; by vm_compute.
Defined.

Lemma advertised_url_served_witness :
  VirtualServeHTTP (map_to_list two_servers.(tools)).*2 (serverKey "wiki") ∅ =
    (VirtualForward (client_url wiki_pages), <["2" := client_url wiki_pages]> ∅) ∧
  two_live !! "2" = Some wiki_pages.
Proof.
  split; [by vm_compute|].
  assert (Hs : mkStats wiki_pages 1 2 ∈ ListServers two_servers)
    by (apply (server_listed _ two_live _ two_represented); split; by vm_compute).
  exact (proj1 (advertised_url_served two_servers two_live _ _ ∅ two_represented (reflexivity _) Hs)).
Defined.

Lemma prefixed_server_unreachable_witness :
  serverKey "mcp-shop" = "shop" ∧
  (VirtualServeHTTP (map_to_list two_servers.(tools)).*2 "shop" ∅).1 = VirtualError 404.
Proof.
  destruct (prefixed_server_unreachable two_servers two_live _ shop_stats "shop" ∅ two_represented (reflexivity _)
    shop_listed) as [H1 H2]; [by vm_compute..|]. split; [exact H1|]. revert H2. by vm_compute.
Defined.

(** Somebody names the host, and another client gets the document. *)
Definition claimed : ListingRequest := mkListingRequest "GET" "evil.example" "" "gateway" true.
Definition plain_request : ListingRequest := mkListingRequest "GET" "" "" "gateway" true.

(** A request makes the document, and a second later, without servers, it is sent
    again. *)
Lemma well_known_document_witness :
  ∃ s d, rtc (doc_step "" 0) (doc_start 0 two_servers) s ∧ d ∈ s.(wk_sent) ∧ answered_well "" 0 s d ∧
    d.(ds_reply) = (200%Z, generate "" two_servers claimed) ∧
    (∃ c, s.(wk_cached) = Some c ∧
      (DiscoveryDocServeHTTP "" 0 second second NewCapabilityIndex plain_request s.(wk_cached)).1 = d.(ds_reply)).
Proof.
  destruct (well_known_document "" 0 0 two_servers (doc_start 0 two_servers) (rtc_refl _ _)) as (_ & Halone & _).
  destruct (Halone 0 claimed 0%Z (lookup_empty _) ltac:(done)) as (s & Hs & Hc & t & Hsent).
  destruct (well_known_document "" 0 0 two_servers s Hs) as (Hans & _ & Hstale).
  assert (Hd : mkDocSent claimed 0 t (200%Z, generate "" two_servers claimed) ∈ s.(wk_sent)) by (rewrite Hsent; left).
  exists s, (mkDocSent claimed 0 t (200%Z, generate "" two_servers claimed)).
  split_and!; [exact Hs|exact Hd|exact (Hans _ Hd)|reflexivity|].
  eexists. split; [exact Hc|]. rewrite Hc. cbn [wk_cached wk_now wk_index doc_start].
  rewrite (Hstale (mkCachedDoc (generate "" two_servers claimed) 0) second second NewCapabilityIndex plain_request eq_refl);
    [reflexivity|]. vm_compute. reflexivity.
Defined.

Lemma well_known_shared_witness :
  (DiscoveryDocServeHTTP "" 0 second second two_servers plain_request
     (DiscoveryDocServeHTTP "" 0 0 0 two_servers claimed None).2).1 =
  (200%Z, json_print (AObj [("mcpServers", AObj (merge_sort doc_key_le (map_to_list
     (doc_servers "https://evil.example" (ListServers two_servers)))))])).
Proof. exact (well_known_shared 0 None 0 0 two_servers claimed second second two_servers plain_request eq_refl eq_refl
  eq_refl ltac:(done) ltac:(by vm_compute) eq_refl). Defined.

(** The backends list their tools. *)
Definition example_listing (r : ServerRecord) : result (list ToolDefinition) :=
  Ok ((λ t, mkToolDefinition t "" "{}") <$> r.(Capabilities).(Tools)).

Lemma empty_named ttl : cache_named (NewToolCache ttl).
Proof. intros k e He. cbn in He. by apply lookup_empty_Some in He. Qed.

Lemma catalog_complete_witness :
  (λ e, e.(ce_def).(tl_Name)) <$> (ListCatalogTools 0 two_servers None example_listing (NewToolCache 0)).1 =
    ["mcp.shop.buy"; "mcp.wiki.read"; "mcp.shop.sell"].
Proof.
  destruct (catalog_complete 0 two_servers None example_listing (NewToolCache 0) (empty_named 0)) as [H _].
  etransitivity; [exact H|by vm_compute].
Defined.

(** A level stored by an administrator for the tool of a server. *)
Definition example_collation : PgText := {|
  pg_lower l := lower_byte <$> l;
  jsonb_text d := of_bytes (json_print (AObj d));
  collation := String.le;
  collation_dec := _;
|}.
#[local] Existing Instance example_collation.

Definition stored_levels : gmap string ToolClassification :=
  {["sell" := mkToolClassification "sell" RiskDestructive "money" false "admin" 0]}.
Definition example_rows : DB := mkDB 0 ∅ stored_levels [] 0.
Definition example_entries : list CatalogEntry :=
  (ListCatalogTools 0 two_servers None example_listing (NewToolCache 0)).1.

Lemma catalog_risk_ignored_witness :
  (catalogHandleList true true 0 "gw" example_entries (set_classifications ∅ example_rows)).1 =
    (catalogHandleList true true 0 "gw" example_entries example_rows).1 ∧
  ct_RiskLevel <$> (catalogHandleList true true 0 "gw" example_entries example_rows).1.(cr_Tools) =
    ["unknown"; "read_only"; "unknown"].
Proof.
  split; [|by vm_compute].
  apply (catalog_risk_ignored 0 two_servers None example_listing (NewToolCache 0) true true 0 "gw" example_rows ∅).
  - apply empty_named.
  - cbn [db_classifications example_rows]. unfold stored_levels. by intros k c [<- <-]%lookup_singleton_Some.
  - intros k c Hc. by apply lookup_empty_Some in Hc.
  - intros name Hn. cbn [db_classifications example_rows]. unfold stored_levels.
    rewrite lookup_singleton_ne; [done|]. by intros <-.
Defined.

(** Both servers list a resource under the same URI. *)
Definition resource_of (r : ServerRecord) : result (list ResourceDefinition) :=
  Ok [mkResource "shop://a" r.(Name) "" ""].

Lemma list_resources_correct_witness :
  mkResource "shop://a" "mcp-shop" "" "" ∈ handleListResources two_servers resource_of ∧
  handleListResources two_servers resource_of = [mkResource "shop://a" "mcp-shop" "" ""].
Proof.
  destruct (list_resources_correct two_servers two_live resource_of two_represented) as (_ & Hnd & Hin). split.
  - apply Hin. exists shop. split; [by vm_compute|]. intros r' d' (Hv & _ & _) _. revert Hv.
    assert (Hall : map_Forall (λ _ r, String.le "1" r.(ID)) two_live) by by_evaluation.
    intros Hv. exact (Hall _ _ Hv).
  - by vm_compute.
Defined.

Lemma read_resource_correct_witness :
  handleReadResource two_servers (λ r uri, Ok (r.(Name), uri)) " wiki://p " = Ok (wiki_pages, ("wiki", "wiki://p")).
Proof.
  pose proof (read_resource_correct two_servers two_live (λ r uri, Ok (r.(Name), uri)) " wiki://p "
    two_represented ltac:(by vm_compute)) as H.
  destruct (handleReadResource _ _ _) as [e|[r c]] eqn:E; [clear H; by vm_compute in E|].
  destruct H as [_ _]. rewrite <- E. by vm_compute.
Defined.
