(* ===== verification/Forms.v ===== *)
(** * Forms

    The forms of [net/url] and [net/http] the device flow is built on:
    [url.Values.Encode], [url.ParseQuery], [Request.ParseForm] and [FormValue].
    The code only makes forms with one value for each name; a form that was read
    is the list of its pairs in the order of the text, of which [FormValue] takes
    the first. What one side writes the other reads ([form_read]). *)

From S2P Require Import Prelude GoStrings Encoding GoNet Json Document JsonText.

#[local] Open Scope string_scope.
#[local] Open Scope list_scope.
#[local] Open Scope nat_scope.
#[local] Open Scope go_scope.

(** ** Writing *)

Definition plain_byte (a : ascii) : bool := alnum a || one_of "-_.~" a.

(** [url.QueryEscape]. *)
Definition escape_byte (a : ascii) : bytes :=
  if plain_byte a then [a]
  else if one_of " " a then to_bytes "+"
  else "%"%char :: [upper_hex_digit (code a / 16); upper_hex_digit (code a mod 16)].
Definition QueryEscape (l : bytes) : bytes := mjoin (escape_byte <$> l).

(** The texts with a byte between them. *)
Fixpoint join_bytes (c : ascii) (l : list bytes) : bytes :=
  match l with
  | [] => []
  | [x] => x
  | x :: l' => x ++ c :: join_bytes c l'
  end.

Definition pair_le (p q : string * string) : Prop := String.le p.1 q.1.
#[export] Instance pair_le_dec : RelDecision pair_le.
Proof. unfold pair_le. intros p q. apply _. Defined.

Abbreviation form := (gmap string string).

(** The pairs of a form by their names, and [Encode]. *)
Definition form_pairs (f : form) : list (string * string) := merge_sort pair_le (map_to_list f).
Definition pair_text (p : string * string) : bytes :=
  QueryEscape (to_bytes p.1) ++ "="%char :: QueryEscape (to_bytes p.2).
Definition Encode (f : form) : bytes := join_bytes "&" (pair_text <$> form_pairs f).

(** ** Reading *)

(** [url.QueryUnescape]. *)
Fixpoint QueryUnescape (l : bytes) : option bytes :=
  match l with
  | [] => Some []
  | a :: l' =>
      if one_of "%" a then
        match l' with
        | h1 :: h2 :: l'' =>
            x ← hex_value h1; y ← hex_value h2; cons (ascii_of_N (16 * x + y)) <$> QueryUnescape l''
        | _ => None
        end
      else cons (if one_of "+" a then " "%char else a) <$> QueryUnescape l'
  end.

(** The pieces between the bytes [c]. *)
Fixpoint pieces (c : ascii) (l : bytes) : list bytes :=
  match l with
  | [] => [[]]
  | a :: l' =>
      if bool_decide (a = c) then [] :: pieces c l'
      else match pieces c l' with x :: xs => (a :: x) :: xs | [] => [[a]] end
  end.

(** [strings.Cut] at a byte. *)
Fixpoint cut_byte (c : ascii) (l : bytes) : bytes * bytes :=
  match l with
  | [] => ([], [])
  | a :: l' => if bool_decide (a = c) then ([], l') else let '(x, y) := cut_byte c l' in (a :: x, y)
  end.

(** One piece of [url.ParseQuery]: no pair, a pair, or an error. *)
Definition parse_pair (piece : bytes) : option (list (string * string)) :=
  if existsb (one_of ";") piece then None
  else if bool_decide (piece = []) then Some []
  else
    let '(k, v) := cut_byte "=" piece in
    k ← QueryUnescape k; v ← QueryUnescape v; Some [(of_bytes k, of_bytes v)].

(** [url.ParseQuery]: the pairs that can be read, and whether all could. *)
Definition ParseQuery (query : bytes) : list (string * string) * bool :=
  let parsed := parse_pair <$> pieces "&" query in
  (mjoin (default [] <$> parsed), forallb (λ p, bool_decide (is_Some p)) parsed).

(** What [mime.ParseMediaType] makes of the header. *)
Inductive ContentType := FormContent | OtherContent | InvalidContent.

Record FormRequest := mkFormRequest { fr_Content : ContentType; fr_RawQuery : bytes; fr_Body : bytes }.

(** [ParseForm] of a [POST] whose body is limited to [limit] bytes: the pairs of
    the body before those of the query. *)
Definition ParseForm (limit : N) (r : FormRequest) : option (list (string * string)) :=
  let '(post, ok) :=
    match r.(fr_Content) with
    | FormContent => if (limit <? N.of_nat (length r.(fr_Body)))%N then ([], false) else ParseQuery r.(fr_Body)
    | OtherContent => ([], true)
    | InvalidContent => ([], false)
    end in
  let '(query, ok') := ParseQuery r.(fr_RawQuery) in
  if ok && ok' then Some (post ++ query) else None.

(** [FormValue]. *)
Definition FormValue (pairs : list (string * string)) (key : string) : string :=
  default "" (snd <$> List.find (λ p, bool_decide (p.1 = key)) pairs).

(** The request [http.PostForm] makes. *)
Definition posted (f : form) : FormRequest := mkFormRequest FormContent [] (Encode f).

(** ** What is written is read *)

Definition escapes_well (a : ascii) : Prop :=
  (∀ b, b ∈ escape_byte a → one_of "&=;" b = false) ∧
  if plain_byte a then one_of "%" a = false ∧ one_of "+" a = false
  else if one_of " " a then a = " "%char
  else hex_value (upper_hex_digit (code a / 16)) = Some (code a / 16)%N ∧
       hex_value (upper_hex_digit (code a mod 16)) = Some (code a mod 16)%N.

Lemma escape_well a : escapes_well a.
Proof.
  revert a. assert (Hc : ∀ a, Forall (λ b, one_of "&=;" b = false) (escape_byte a) ∧
    if plain_byte a then one_of "%" a = false ∧ one_of "+" a = false
    else if one_of " " a then a = " "%char
    else hex_value (upper_hex_digit (code a / 16)) = Some (code a / 16)%N ∧
         hex_value (upper_hex_digit (code a mod 16)) = Some (code a mod 16)%N).
  { apply every_byte. repeat (apply Forall_cons_2; [split; [by_evaluation|by vm_compute]|]). apply Forall_nil_2. }
  intros a. destruct (Hc a) as [H1 H2]. split; [|done]. by apply Forall_forall.
Qed.

Lemma unescape_byte a rest : QueryUnescape (escape_byte a ++ rest) = cons a <$> QueryUnescape rest.
Proof.
  destruct (escape_well a) as [_ Ha]. unfold escape_byte.
  destruct (plain_byte a); [|destruct (one_of " " a)].
  - destruct Ha as [H1 H2]. cbn [app QueryUnescape]. by rewrite H1, H2.
  - subst a. done.
  - destruct Ha as [H1 H2]. cbn [app QueryUnescape].
    change (one_of "%" "%") with true. cbv iota. rewrite H1, H2. cbn [mbind option_bind].
    rewrite <- N.div_mod by done. by rewrite code_ascii.
Qed.

Lemma QueryUnescape_escape l : QueryUnescape (QueryEscape l) = Some l.
Proof.
  induction l as [|a l IH]; [done|]. change (QueryEscape (a :: l)) with (escape_byte a ++ QueryEscape l).
  by rewrite unescape_byte, IH.
Qed.

Lemma QueryEscape_clean l b : b ∈ QueryEscape l → one_of "&=;" b = false.
Proof.
  unfold QueryEscape. intros (x & Hb & (a & -> & _)%list_elem_of_fmap)%list_elem_of_join. by apply (escape_well a).
Qed.

Lemma cut_byte_app c x y : c ∉ x → cut_byte c (x ++ c :: y) = (x, y).
Proof.
  induction x as [|a x IH]; intros Hc; cbn.
  - by rewrite bool_decide_eq_true_2.
  - apply not_elem_of_cons in Hc as [Ha Hx]. rewrite bool_decide_eq_false_2 by congruence. by rewrite IH.
Qed.

Lemma pieces_none c x : c ∉ x → pieces c x = [x].
Proof.
  induction x as [|a x IH]; [done|]. intros [Ha Hx]%not_elem_of_cons. cbn.
  rewrite bool_decide_eq_false_2 by congruence. by rewrite IH.
Qed.

Lemma pieces_app c x y : c ∉ x → pieces c (x ++ c :: y) = x :: pieces c y.
Proof.
  induction x as [|a x IH]; intros Hc; cbn.
  - by rewrite bool_decide_eq_true_2.
  - apply not_elem_of_cons in Hc as [Ha Hx]. rewrite bool_decide_eq_false_2 by congruence. by rewrite IH.
Qed.

Lemma pieces_join c l : l ≠ [] → Forall (λ x, c ∉ x) l → pieces c (join_bytes c l) = l.
Proof.
  intros Hne Hl. induction Hl as [|x l Hx Hl IH]; [done|]. destruct l as [|y l]; [by apply pieces_none|].
  change (join_bytes c (x :: y :: l)) with (x ++ c :: join_bytes c (y :: l)). by rewrite pieces_app, IH.
Qed.

Lemma pair_text_clean p b : b ∈ pair_text p → one_of "&;" b = false.
Proof.
  unfold pair_text. rewrite elem_of_app, elem_of_cons.
  assert (Hc : ∀ l, b ∈ QueryEscape l → one_of "&;" b = false).
  { intros l Hb%QueryEscape_clean. revert Hb. unfold one_of. rewrite !bool_decide_eq_false. cbn. set_solver. }
  intros [?|[->|?]]; [by eapply Hc|done|by eapply Hc].
Qed.

Lemma parse_pair_text p : parse_pair (pair_text p) = Some [p].
Proof.
  unfold parse_pair.
  assert (Hs : existsb (one_of ";") (pair_text p) = false).
  { apply not_true_iff_false. rewrite existsb_exists. intros (b & Hb%list_elem_of_In%pair_text_clean & H).
    revert Hb H. unfold one_of. rewrite bool_decide_eq_false, bool_decide_eq_true. cbn. set_solver. }
  rewrite Hs. rewrite bool_decide_eq_false_2 by (unfold pair_text; by destruct (QueryEscape (to_bytes p.1))).
  unfold pair_text. rewrite cut_byte_app.
  - rewrite !QueryUnescape_escape. cbn [mbind option_bind]. rewrite !of_to_bytes. by destruct p.
  - intros Hb%QueryEscape_clean. done.
Qed.

(** A form is read as its pairs. *)
Lemma ParseQuery_Encode f : ParseQuery (Encode f) = (form_pairs f, true).
Proof.
  unfold ParseQuery, Encode. destruct (form_pairs f) as [|p l] eqn:E; [done|].
  rewrite pieces_join; [|done|].
  - clear E. assert (Hall : ∀ ps : list (string * string), parse_pair <$> (pair_text <$> ps) = (λ p, Some [p]) <$> ps).
    { intros ps. rewrite <- list_fmap_compose. apply list_fmap_ext. intros ???. apply parse_pair_text. }
    rewrite Hall. f_equal.
    + generalize (p :: l) as ps. induction ps as [|q qs IH]; [done|]. rewrite !fmap_cons.
      change (mjoin (default [] (Some [q]) :: ?t)) with (q :: mjoin t). by rewrite IH.
    + apply forallb_forall. intros x (q & -> & _)%list_elem_of_In%list_elem_of_fmap. by apply bool_decide_eq_true_2.
  - apply Forall_forall. intros x (q & -> & _)%list_elem_of_fmap. by intros Hb%pair_text_clean.
Qed.

(** The values of a posted form are those it was made with, when the text is not
    longer than the limit. *)
Lemma form_read limit f : (N.of_nat (length (Encode f)) <= limit)%N →
  ∃ pairs, ParseForm limit (posted f) = Some pairs ∧ ∀ k, FormValue pairs k = default "" (f !! k).
Proof.
  intros Hl. unfold ParseForm, posted. cbn [fr_Content fr_Body fr_RawQuery].
  rewrite (proj2 (N.ltb_ge _ _)) by done. rewrite ParseQuery_Encode. cbn [andb].
  exists (form_pairs f). split; [cbn; by rewrite app_nil_r|]. intros k. unfold FormValue, form_pairs.
  destruct (List.find _ _) as [[k' x]|] eqn:E.
  - apply find_some in E as [Hin%list_elem_of_In Hk%bool_decide_eq_true]. cbn in Hk. subst k'.
    rewrite merge_sort_Permutation in Hin. apply elem_of_map_to_list in Hin. by rewrite Hin.
  - destruct (f !! k) as [x|] eqn:Hx; [|done]. apply elem_of_map_to_list in Hx.
    rewrite <- (merge_sort_Permutation pair_le (map_to_list f)) in Hx. apply list_elem_of_In in Hx.
    pose proof (find_none _ _ E _ Hx) as H. cbn in H. by rewrite bool_decide_eq_true_2 in H.
Qed.
