(* ===== verification/DeviceFlow.v ===== *)
(** * The device flow

    Logging in from the command line: the endpoints of the gateway that pass the
    requests on to the identity provider ([internal/auth/device_flow.go]), the file
    of tokens ([internal/auth/token_cache.go]), and the commands
    [auth login], [status] and [logout] ([cmd/mcpgw/auth.go]) that poll those
    endpoints. The identity provider and the network are parameters. Operations of
    the file system fail when a schedule says so. *)

From stdpp Require Import pretty.
From S2P Require Import Prelude GoStrings Encoding GoNet Json GoParse Document JsonText Codec Config Forms.

#[local] Open Scope string_scope.
#[local] Open Scope list_scope.
#[local] Open Scope nat_scope.
#[local] Open Scope go_scope.

(** What comes of a request: no answer, an answer whose body cannot be read, or
    the status and the body. *)
Inductive HttpAnswer := NoAnswer | BrokenAnswer (status : Z) | Answer (status : Z) (body : bytes).

(** ** The endpoints *)

Definition deviceFlowMaxBodyBytes : N := 4096.
Definition deviceFlowMaxIdPResponseBytes : N := N.shiftl 1 20.
Definition deviceGrantType : string := "urn:ietf:params:oauth:grant-type:device_code".

(** [writeDeviceError]. *)
Definition writeDeviceError (status : Z) (errorCode description : string) : Z * bytes :=
  (status, json_print (AObj [("error", AStr errorCode); ("error_description", AStr description)]) ++ ["010"%char]).

(** What the provider's answer becomes: [remap] chooses the status. *)
Definition relay (remap : Z → bytes → Z) (answer : HttpAnswer) : Z * bytes :=
  match answer with
  | NoAnswer => writeDeviceError 502 "server_error" "failed to contact identity provider"
  | BrokenAnswer _ => writeDeviceError 502 "server_error" "failed to read identity provider response"
  | Answer status body =>
      if (deviceFlowMaxIdPResponseBytes <? N.of_nat (length body))%N
      then writeDeviceError 502 "server_error" "identity provider response too large"
      else (remap status body, body)
  end.

Section device.
Context `{UnicodeTables} {W : Type}.
(** [http.Client.PostForm] to the identity provider. *)
Context (PostForm : string → form → W → HttpAnswer * W).
Context (cfg : Config).

(** [handleDeviceCode]. *)
Definition handleDeviceCode (r : FormRequest) (w : W) : (Z * bytes) * W :=
  match ParseForm deviceFlowMaxBodyBytes r with
  | None => (writeDeviceError 400 "invalid_request" "failed to parse request body", w)
  | Some pairs =>
      let scope := TrimSpace (FormValue pairs "scope") in
      if bool_decide (scope = "") || negb (Contains scope "openid")
      then (writeDeviceError 400 "invalid_scope" "scope must include openid", w)
      else
        let '(answer, w) := PostForm cfg.(c_DeviceFlowIDPDeviceURL)
          (<["client_id" := cfg.(c_DeviceFlowClientID)]> (<["scope" := scope]> ∅)) w in
        (relay (λ status _, status) answer, w)
  end.

(** The error of an answer of the provider; [None] when it cannot be decoded. *)
Definition error_field (body : bytes) : option string :=
  v ← json_parse (of_bytes body); unmarshal (d_struct [("error", d_string)]) v "".

(** The status of the answer to a token request. *)
Definition token_status (status : Z) (body : bytes) : Z :=
  if (status =? 400)%Z then
    match error_field body with
    | Some e =>
        if bool_decide (e ∈ ["authorization_pending"; "slow_down"]) then 425%Z
        else if bool_decide (e = "expired_token") then 410%Z
        else if bool_decide (e = "access_denied") then 403%Z
        else status
    | None => status
    end
  else status.

(** The form of a token request, or the refusal. *)
Definition token_form (pairs : list (string * string)) : (Z * bytes) + form :=
  let grantType := TrimSpace (FormValue pairs "grant_type") in
  if bool_decide (grantType = deviceGrantType) then
    let deviceCode := TrimSpace (FormValue pairs "device_code") in
    if bool_decide (deviceCode = "") then inl (writeDeviceError 400 "invalid_request" "device_code is required")
    else inr (<["client_id" := cfg.(c_DeviceFlowClientID)]> (<["grant_type" := deviceGrantType]>
               (<["device_code" := deviceCode]> ∅)))
  else if bool_decide (grantType = "refresh_token") then
    let refreshToken := TrimSpace (FormValue pairs "refresh_token") in
    if bool_decide (refreshToken = "") then inl (writeDeviceError 400 "invalid_request" "refresh_token is required")
    else inr (<["client_id" := cfg.(c_DeviceFlowClientID)]> (<["grant_type" := "refresh_token"]>
               (<["refresh_token" := refreshToken]> ∅)))
  else inl (writeDeviceError 400 "unsupported_grant_type"
              ("grant_type must be " +:+ deviceGrantType +:+ " or refresh_token")).

(** [handleDeviceToken]. *)
Definition handleDeviceToken (r : FormRequest) (w : W) : (Z * bytes) * W :=
  match ParseForm deviceFlowMaxBodyBytes r with
  | None => (writeDeviceError 400 "invalid_request" "failed to parse request body", w)
  | Some pairs =>
      match token_form pairs with
      | inl refusal => (refusal, w)
      | inr f =>
          let f := if bool_decide (TrimSpace cfg.(c_DeviceFlowClientSecret) = "") then f
                   else <["client_secret" := cfg.(c_DeviceFlowClientSecret)]> f in
          let '(answer, w) := PostForm cfg.(c_DeviceFlowIDPTokenURL) f w in
          (relay token_status answer, w)
      end
  end.

End device.

(** [handleVerify]: a refusal, or the page with the code and the address;
    [query] is the query of the URL. *)
Inductive VerifyReply := VerifyRefused (reply : Z * bytes) | VerifyPage (userCode verificationURI : string).
Definition handleVerify (query : bytes) : VerifyReply :=
  let pairs := (ParseQuery query).1 in
  let userCode := TrimSpace (FormValue pairs "user_code") in
  if bool_decide (userCode = "") then VerifyRefused (writeDeviceError 400 "invalid_request" "user_code is required")
  else VerifyPage userCode (TrimSpace (FormValue pairs "verification_uri")).

(** ** The file of tokens *)

(** [CachedTokens]; a time is in nanoseconds. *)
Record CachedTokens := mkTokens {
  tk_AccessToken : string;
  tk_RefreshToken : string;
  tk_IDToken : string;
  tk_TokenType : string;
  tk_ExpiresAt : Z;
  tk_GatewayURL : string;
}.

Definition tokenRefreshWindow : Z := 5 * minute.

(** [IsExpired] and [NeedsRefresh]. *)
Definition IsExpired (now : Z) (t : CachedTokens) : bool := (t.(tk_ExpiresAt) <? now)%Z.
Definition NeedsRefresh (now : Z) (t : CachedTokens) : bool := (t.(tk_ExpiresAt) <? now + tokenRefreshWindow)%Z.

(** [time.Time.MarshalJSON] in a zone with the given offset: years of four digits. *)
Definition marshal_time (off t : Z) : option string :=
  let year := (civil_from_days ((t / second + off) / 86400)).1.1 in
  if (0 <=? year)%Z && (year <=? 9999)%Z then Some (FormatRFC3339 true off t) else None.

(** The members of the document; an empty text is left out where the tag says so. *)
Definition omitempty (key value : string) : list (string * document) :=
  if bool_decide (value = "") then [] else [(key, AStr value)].
Definition tokens_members (t : CachedTokens) (expires : string) : list (string * document) :=
  [("access_token", AStr t.(tk_AccessToken))] ++ omitempty "refresh_token" t.(tk_RefreshToken) ++
  omitempty "id_token" t.(tk_IDToken) ++ [("token_type", AStr t.(tk_TokenType)); ("expires_at", AStr expires)] ++
  omitempty "gateway_url" t.(tk_GatewayURL).

(** [json.MarshalIndent] of members that are not nested: one to a line. *)
Definition line_break : bytes := ["010"%char].
Fixpoint indented (m : list (string * document)) : bytes :=
  match m with
  | [] => []
  | p :: m' =>
      line_break ++ to_bytes "  " ++ json_string p.1 ++ to_bytes ": " ++ json_print p.2 ++
      (match m' with [] => line_break | _ => to_bytes "," end) ++ indented m'
  end.
Definition marshal_indent (m : list (string * document)) : bytes := to_bytes "{" ++ indented m ++ to_bytes "}".

(** A failed operation of the file system: before anything was done, or for a
    write after some bytes. *)
Inductive DiskFault := FailBefore | FailAfter (written : nat).

(** The home directory is known or not; the file, and the one it is written to
    first; the faults to come. *)
Record TokenDisk := mkDisk {
  td_home : bool;
  td_file : option bytes;
  td_tmp : option bytes;
  td_faults : list (option DiskFault);
}.

Definition next_fault (d : TokenDisk) : option DiskFault * TokenDisk :=
  match d.(td_faults) with
  | f :: fs => (f, mkDisk d.(td_home) d.(td_file) d.(td_tmp) fs)
  | [] => (None, d)
  end.

(** An operation: it fails without effect, or does [f]. *)
Definition disk_op {A} (f : ST TokenDisk A) : ST TokenDisk A := λ d,
  match next_fault d with
  | (Some _, d) => (Err (Opaque "file system"), d)
  | (None, d) => f d
  end.

Definition set_file (file tmp : option bytes) (d : TokenDisk) : TokenDisk := mkDisk d.(td_home) file tmp d.(td_faults).

(** [os.WriteFile] of the temporary file. *)
Definition write_tmp (data : bytes) : ST TokenDisk () := λ d,
  match next_fault d with
  | (Some FailBefore, d) => (Err (Opaque "file system"), d)
  | (Some (FailAfter n), d) => (Err (Opaque "file system"), set_file d.(td_file) (Some (take n data)) d)
  | (None, d) => (Ok (), set_file d.(td_file) (Some data) d)
  end.

Definition tokenCachePath : ST TokenDisk () := λ d,
  if d.(td_home) then (Ok (), d) else (Err (Opaque "token cache: resolve home dir"), d).

Definition context {A} (ctx : string) (m : ST TokenDisk A) : ST TokenDisk A := λ d,
  match m d with (Err e, d) => (Err (Wrap ctx e), d) | r => r end.

(** [SaveTokens]; [off] is the offset of the local zone. *)
Definition SaveTokens (off : Z) (t : CachedTokens) : ST TokenDisk () :=
  tokenCachePath ;;
  context "save tokens: create dir" (disk_op (ret ())) ;;
  match marshal_time off t.(tk_ExpiresAt) with
  | None => throw (Opaque "save tokens: marshal")
  | Some expires =>
      context "save tokens: write temp" (write_tmp (marshal_indent (tokens_members t expires))) ;;
      let* renamed := attempt (disk_op (λ d, (Ok (), set_file d.(td_tmp) None d))) in
      match renamed with
      | Ok _ => ret ()
      | Err e =>
          let* _ := attempt (disk_op (λ d, (Ok (), set_file d.(td_file) None d))) in
          throw (Wrap "save tokens: rename" e)
      end
  end.

Section cache.
Context `{UnicodeTables}.

Definition set_AccessToken x t := mkTokens x t.(tk_RefreshToken) t.(tk_IDToken) t.(tk_TokenType) t.(tk_ExpiresAt) t.(tk_GatewayURL).
Definition set_RefreshToken x t := mkTokens t.(tk_AccessToken) x t.(tk_IDToken) t.(tk_TokenType) t.(tk_ExpiresAt) t.(tk_GatewayURL).
Definition set_IDToken x t := mkTokens t.(tk_AccessToken) t.(tk_RefreshToken) x t.(tk_TokenType) t.(tk_ExpiresAt) t.(tk_GatewayURL).
Definition set_TokenType x t := mkTokens t.(tk_AccessToken) t.(tk_RefreshToken) t.(tk_IDToken) x t.(tk_ExpiresAt) t.(tk_GatewayURL).
Definition set_ExpiresAt x t := mkTokens t.(tk_AccessToken) t.(tk_RefreshToken) t.(tk_IDToken) t.(tk_TokenType) x t.(tk_GatewayURL).
Definition set_GatewayURL x t := mkTokens t.(tk_AccessToken) t.(tk_RefreshToken) t.(tk_IDToken) t.(tk_TokenType) t.(tk_ExpiresAt) x.

Definition d_tokens : decoder_of string CachedTokens :=
  d_struct [("access_token", field tk_AccessToken set_AccessToken d_string);
            ("refresh_token", field tk_RefreshToken set_RefreshToken d_string);
            ("id_token", field tk_IDToken set_IDToken d_string);
            ("token_type", field tk_TokenType set_TokenType d_string);
            ("expires_at", field tk_ExpiresAt set_ExpiresAt d_time);
            ("gateway_url", field tk_GatewayURL set_GatewayURL d_string)].
Definition no_tokens : CachedTokens := mkTokens "" "" "" "" zero_time "".

(** [LoadTokens]. *)
Definition LoadTokens : ST TokenDisk CachedTokens :=
  tokenCachePath ;;
  let* data := context "load tokens: read" (disk_op (gets td_file)) in
  match data with
  | None => throw (Opaque "load tokens: not logged in (no cached tokens)")
  | Some data =>
      match v ← json_parse (of_bytes data); unmarshal d_tokens v no_tokens with
      | Some t => ret t
      | None => throw (Opaque "load tokens: unmarshal")
      end
  end.

(** [DeleteTokens]. *)
Definition DeleteTokens : ST TokenDisk () :=
  tokenCachePath ;; context "delete tokens" (disk_op (λ d, (Ok (), set_file None d.(td_tmp) d))).

(** The answer of a token endpoint. *)
Record tokenResponse := mkTokenResponse {
  tr_AccessToken : string;
  tr_RefreshToken : string;
  tr_IDToken : string;
  tr_TokenType : string;
  tr_ExpiresIn : Z;
}.
Definition d_token_response : decoder_of string tokenResponse :=
  d_struct [("access_token", field tr_AccessToken (λ x r, mkTokenResponse x r.(tr_RefreshToken) r.(tr_IDToken) r.(tr_TokenType) r.(tr_ExpiresIn)) d_string);
            ("refresh_token", field tr_RefreshToken (λ x r, mkTokenResponse r.(tr_AccessToken) x r.(tr_IDToken) r.(tr_TokenType) r.(tr_ExpiresIn)) d_string);
            ("id_token", field tr_IDToken (λ x r, mkTokenResponse r.(tr_AccessToken) r.(tr_RefreshToken) x r.(tr_TokenType) r.(tr_ExpiresIn)) d_string);
            ("token_type", field tr_TokenType (λ x r, mkTokenResponse r.(tr_AccessToken) r.(tr_RefreshToken) r.(tr_IDToken) x r.(tr_ExpiresIn)) d_string);
            ("expires_in", field tr_ExpiresIn (λ x r, mkTokenResponse r.(tr_AccessToken) r.(tr_RefreshToken) r.(tr_IDToken) r.(tr_TokenType) x) d_int)].
Definition no_response : tokenResponse := mkTokenResponse "" "" "" "" 0.

(** [time.Now().Add(time.Duration(n) * time.Second)]. *)
Definition in_seconds (now n : Z) : Z := (now + wrap_i64 (n * second))%Z.

End cache.

(** ** The commands *)

(** What a command works on: the clock, the file of tokens, and the rest of the
    world with the gateway in it. *)
Record ClientWorld (G : Type) := mkClient { cl_now : Z; cl_disk : TokenDisk; cl_gateway : G }.
Arguments mkClient {_}.
Arguments cl_now {_}.
Arguments cl_disk {_}.
Arguments cl_gateway {_}.

Section commands.
Context `{UnicodeTables} {G : Type}.
(** [http.Client.PostForm] to the gateway: the answer, and the time it takes. *)
Context (post : string → form → G → HttpAnswer * Z * G).
(** The offset of the local zone. *)
Context (off : Z).

Abbreviation Client := (ClientWorld G).

Definition on_disk {A} (m : ST TokenDisk A) : ST Client A := λ c,
  let '(r, d) := m c.(cl_disk) in (r, mkClient c.(cl_now) d c.(cl_gateway)).
Definition in_context {A} (ctx : string) (m : ST Client A) : ST Client A := λ c,
  match m c with (Err e, c) => (Err (Wrap ctx e), c) | r => r end.
(** [time.Sleep]; a negative duration returns at once. *)
Definition sleep (d : Z) : ST Client () := λ c,
  (Ok (), mkClient (c.(cl_now) + Z.max 0 d) c.(cl_disk) c.(cl_gateway)).
Definition PostToGateway (url : string) (f : form) : ST Client HttpAnswer := λ c,
  let '(answer, took, g) := post url f c.(cl_gateway) in
  (Ok answer, mkClient (c.(cl_now) + Z.max 0 took) c.(cl_disk) g).

(** [RefreshAccessToken]. *)
Definition RefreshAccessToken (t : CachedTokens) (tokenURL clientID : string) : ST Client CachedTokens :=
  if bool_decide (TrimSpace t.(tk_RefreshToken) = "") then throw (Opaque "refresh token: no refresh token available")
  else
    let* answer := PostToGateway tokenURL
      (<["grant_type" := "refresh_token"]> (<["refresh_token" := t.(tk_RefreshToken)]> (<["client_id" := clientID]> ∅))) in
    match answer with
    | NoAnswer => throw (Opaque "refresh token: post")
    | BrokenAnswer status | Answer status _ =>
        if negb (status =? 200)%Z then throw (Opaque ("refresh token: idp returned status " +:+ pretty status))
        else
          let body := match answer with Answer _ body => body | _ => [] end in
          match v ← json_first (of_bytes body); unmarshal d_token_response v no_response with
          | None => throw (Opaque "refresh token: decode")
          | Some r =>
              let* now := gets cl_now in
              let refreshToken := if bool_decide (r.(tr_RefreshToken) = "") then t.(tk_RefreshToken) else r.(tr_RefreshToken) in
              let updated := mkTokens r.(tr_AccessToken) refreshToken r.(tr_IDToken) r.(tr_TokenType)
                               (in_seconds now r.(tr_ExpiresIn)) t.(tk_GatewayURL) in
              in_context "refresh token: save" (on_disk (SaveTokens off updated)) ;;
              ret updated
          end
    end.

(** [deviceCodeResponse]. *)
Record deviceCodeResponse := mkCodeResponse {
  dc_DeviceCode : string;
  dc_UserCode : string;
  dc_VerificationURI : string;
  dc_VerificationURIComplete : string;
  dc_ExpiresIn : Z;
  dc_Interval : Z;
}.
Definition d_code_response : decoder_of string deviceCodeResponse :=
  d_struct [("device_code", field dc_DeviceCode (λ x r, mkCodeResponse x r.(dc_UserCode) r.(dc_VerificationURI) r.(dc_VerificationURIComplete) r.(dc_ExpiresIn) r.(dc_Interval)) d_string);
            ("user_code", field dc_UserCode (λ x r, mkCodeResponse r.(dc_DeviceCode) x r.(dc_VerificationURI) r.(dc_VerificationURIComplete) r.(dc_ExpiresIn) r.(dc_Interval)) d_string);
            ("verification_uri", field dc_VerificationURI (λ x r, mkCodeResponse r.(dc_DeviceCode) r.(dc_UserCode) x r.(dc_VerificationURIComplete) r.(dc_ExpiresIn) r.(dc_Interval)) d_string);
            ("verification_uri_complete", field dc_VerificationURIComplete (λ x r, mkCodeResponse r.(dc_DeviceCode) r.(dc_UserCode) r.(dc_VerificationURI) x r.(dc_ExpiresIn) r.(dc_Interval)) d_string);
            ("expires_in", field dc_ExpiresIn (λ x r, mkCodeResponse r.(dc_DeviceCode) r.(dc_UserCode) r.(dc_VerificationURI) r.(dc_VerificationURIComplete) x r.(dc_Interval)) d_int);
            ("interval", field dc_Interval (λ x r, mkCodeResponse r.(dc_DeviceCode) r.(dc_UserCode) r.(dc_VerificationURI) r.(dc_VerificationURIComplete) r.(dc_ExpiresIn) x) d_int)].
Definition no_code : deviceCodeResponse := mkCodeResponse "" "" "" "" 0 0.

(** [requestDeviceCode]. *)
Definition requestDeviceCode (baseURL : string) : ST Client deviceCodeResponse :=
  let* answer := PostToGateway (baseURL +:+ "/device/code") (<["scope" := "openid profile email"]> ∅) in
  match answer with
  | NoAnswer => throw (Opaque "auth login: request device code")
  | BrokenAnswer status | Answer status _ =>
      if negb (status =? 200)%Z then throw (Opaque ("auth login: device code request failed with status " +:+ pretty status))
      else
        let body := match answer with Answer _ body => body | _ => [] end in
        match v ← json_first (of_bytes body); unmarshal d_code_response v no_code with
        | None => throw (Opaque "auth login: decode device code response")
        | Some r => ret r
        end
  end.

(** [parseErrorDescription]. *)
Definition parseErrorDescription (body : bytes) : string :=
  default "" (v ← json_parse (of_bytes body);
              snd <$> unmarshal (d_struct [("error", field fst (λ x p, (x, p.2)) d_string);
                                           ("error_description", field snd (λ x p, (p.1, x)) d_string)]) v ("", "")).

(** [saveTokenResponse]. *)
Definition saveTokenResponse (body : bytes) (baseURL : string) : ST Client () :=
  match v ← json_parse (of_bytes body); unmarshal d_token_response v no_response with
  | None => throw (Opaque "auth login: decode token response")
  | Some r =>
      let* now := gets cl_now in
      in_context "auth login: save tokens" (on_disk (SaveTokens off
        (mkTokens r.(tr_AccessToken) r.(tr_RefreshToken) r.(tr_IDToken) r.(tr_TokenType)
           (in_seconds now r.(tr_ExpiresIn)) baseURL)))
  end.

(** [pollTokenOnce]: [true] when the answer is still pending. *)
Definition pollTokenOnce (baseURL deviceCode : string) : ST Client bool :=
  let* answer := PostToGateway (baseURL +:+ "/device/token")
    (<["grant_type" := deviceGrantType]> (<["device_code" := deviceCode]> ∅)) in
  match answer with
  | NoAnswer | BrokenAnswer _ => ret true
  | Answer status body =>
      if (status =? 425)%Z then ret true
      else if (status =? 410)%Z then throw (Opaque "auth login: device code expired — please restart the login flow")
      else if (status =? 403)%Z then throw (Opaque "auth login: access denied by the identity provider")
      else if negb (status =? 200)%Z then
        let msg := parseErrorDescription body in
        let msg := if bool_decide (msg = "") then of_bytes body else msg in
        throw (Opaque ("auth login: token request failed with status " +:+ pretty status +:+ ": " +:+ msg))
      else saveTokenResponse body baseURL ;; ret false
  end.

Definition poll_interval (n : Z) : Z :=
  let interval := wrap_i64 (n * second) in if (interval <? 5 * second)%Z then (5 * second)%Z else interval.

(** The loop of [pollForToken]. *)
Fixpoint poll_loop (fuel : nat) (baseURL deviceCode : string) (interval deadline : Z) : ST Client () :=
  let* now := gets cl_now in
  if negb (now <? deadline)%Z then throw (Opaque "auth login: device code expired")
  else
    match fuel with
    | O => throw (Opaque "out of fuel")
    | S fuel =>
        sleep interval ;;
        let* pending := pollTokenOnce baseURL deviceCode in
        if pending then poll_loop fuel baseURL deviceCode interval deadline else ret ()
    end.

(** Every round sleeps for at least five seconds. *)
Definition poll_fuel (now deadline : Z) : nat := Z.to_nat ((deadline - now) / (5 * second) + 1).

(** [pollForToken]. *)
Definition pollForToken (baseURL : string) (r : deviceCodeResponse) : ST Client () :=
  let* now := gets cl_now in
  let deadline := in_seconds now r.(dc_ExpiresIn) in
  poll_loop (poll_fuel now deadline) baseURL r.(dc_DeviceCode) (poll_interval r.(dc_Interval)) deadline.

(** [performLogin]; what it prints and the browser are left out. *)
Definition performLogin (baseURL : string) : ST Client () :=
  let* r := requestDeviceCode baseURL in pollForToken baseURL r.

(** [authStatusCommand]: the last line it prints. *)
Definition authStatus : ST Client string :=
  let* t := in_context "auth status" (on_disk LoadTokens) in
  let* now := gets cl_now in
  ret (if IsExpired now t then "Status: expired" else if NeedsRefresh now t then "Status: needs refresh" else "Status: valid").

(** [authLogoutCommand]. *)
Definition authLogout : ST Client () := in_context "auth logout" (on_disk DeleteTokens).

End commands.
