(* ===== verification/Client.v ===== *)
(** * The client and its streams

    The command [mcp-proxy] ([cmd/mcpgw/proxy.go]) passes the lines of its input to
    the gateway with the cached token, renews the token, tries again and reads
    server-sent events; [SSEWriter] ([internal/proxy/stream.go]) writes them. The
    gateway is a parameter. *)

From stdpp Require Import pretty.
From S2P Require Import Prelude GoStrings Encoding GoNet Json GoParse Document JsonText Codec Config Forms DeviceFlow.

#[local] Open Scope string_scope.
#[local] Open Scope list_scope.
#[local] Open Scope nat_scope.
#[local] Open Scope go_scope.

(** ** Lines *)

(** The text between line breaks; the last line may lack its break. *)
Fixpoint raw_lines (l : bytes) : list bytes :=
  match l with
  | [] => []
  | a :: l' =>
      if bool_decide (a = "010"%char) then [] :: raw_lines l'
      else match raw_lines l' with x :: xs => (a :: x) :: xs | [] => [[a]] end
  end.

(** [dropCR]. *)
Definition drop_cr (l : bytes) : bytes :=
  match last l with
  | Some a => if bool_decide (a = "013"%char) then take (length l - 1) l else l
  | None => l
  end.

(** [bufio.Scanner] with a buffer of at most [max] bytes: the lines up to the
    first that does not fit with its line break, and whether all did. *)
Fixpoint scan_lines (max : N) (l : list bytes) : list bytes * bool :=
  match l with
  | [] => ([], true)
  | x :: l' =>
      if (N.of_nat (length x) <? max)%N
      then let '(xs, ok) := scan_lines max l' in (drop_cr x :: xs, ok)
      else ([], false)
  end.

Definition max_line : N := 1024 * 1024.

(** ** Server-sent events *)

(** The data of one line, if it has some. *)
Definition sse_data (line : bytes) : option bytes :=
  match strip_prefix (to_bytes "data:") line with
  | Some rest => let data := to_bytes (TrimSpace (of_bytes rest)) in if bool_decide (data = []) then None else Some data
  | None => None
  end.

(** [extractSSEData]. *)
Definition extractSSEData (body : bytes) : bytes :=
  join_bytes "010" (omap sse_data (scan_lines max_line (raw_lines body)).1).

(** A response writer: what was written, and which writes will fail. *)
Record Stream := mkStream { so_out : bytes; so_faults : list bool }.
Definition stream_write (data : bytes) : ST Stream () := λ s,
  match s.(so_faults) with
  | true :: fs => (Err (Opaque "broken pipe"), mkStream s.(so_out) fs)
  | false :: fs => (Ok (), mkStream (s.(so_out) ++ data) fs)
  | [] => (Ok (), mkStream (s.(so_out) ++ data) [])
  end.
Definition stream_context {A} (ctx : string) (m : ST Stream A) : ST Stream A := λ s,
  match m s with (Err e, s) => (Err (Wrap ctx e), s) | r => r end.

(** [SSEWriter.WriteEvent]; [Flush] is part of the last write. *)
Definition WriteEvent (event data : string) : ST Stream () :=
  (if bool_decide (TrimSpace event = "") then ret ()
   else stream_context "sse writer: write event name" (stream_write (to_bytes "event: " ++ to_bytes event ++ line_break))) ;;
  for_each (λ line, stream_context "sse writer: write data" (stream_write (to_bytes "data: " ++ line ++ line_break)))
    (pieces "010" (to_bytes data)) ;;
  stream_context "sse writer: finalize event" (stream_write line_break).

(** [SSEWriter.WriteToolResult] of a result as [json.Marshal] writes it; the
    writer itself is not nil. *)
Definition WriteToolResult (result : option document) : ST Stream () :=
  match result with
  | None => throw (Opaque "sse writer: tool result is nil")
  | Some v => WriteEvent "tool_result" (of_bytes (json_print v))
  end.

(** One tick of [SSEWriter.Keepalive]. *)
Definition keepalive_tick : ST Stream () := stream_write (to_bytes ": keepalive" ++ line_break ++ line_break).

(** ** Requests *)

(** A request to the gateway, and what comes of it: no answer, or one, whose body
    may fail to be read. *)
Record McpRequest := mkMcpRequest { mr_Endpoint : string; mr_Token : string; mr_Session : string; mr_Body : bytes }.
Record McpResponse := mkMcpResponse {
  ms_Status : Z;
  ms_ContentType : string;
  ms_Session : string;
  ms_RetryAfter : string;
  ms_Body : option bytes;
}.

Section proxy.
Context `{UnicodeTables} {G : Type}.
Context (post : string → form → G → HttpAnswer * Z * G).
Context (call : McpRequest → G → option McpResponse * Z * G).
Context (off : Z).
(** When the command is interrupted, if it is. *)
Context (cancelled : option Z).

Abbreviation Client := (ClientWorld G).

Definition is_cancelled (now : Z) : bool := match cancelled with Some t => (t <=? now)%Z | None => false end.

(** A [select] on the interrupt and on a timer: [true] for the timer. *)
Definition wait_for (d : Z) : ST Client bool := λ c,
  let until := (c.(cl_now) + Z.max 0 d)%Z in
  if is_cancelled until
  then (Ok false, mkClient (Z.max c.(cl_now) (default until cancelled)) c.(cl_disk) c.(cl_gateway))
  else (Ok true, mkClient until c.(cl_disk) c.(cl_gateway)).

Definition CallGateway (r : McpRequest) : ST Client (option McpResponse) := λ c,
  let '(answer, took, g) := call r c.(cl_gateway) in
  (Ok answer, mkClient (c.(cl_now) + Z.max 0 took) c.(cl_disk) g).

(** [loadAndRefreshToken]. *)
Definition loadAndRefreshToken : ST Client CachedTokens :=
  let* t := in_context "load tokens" (on_disk LoadTokens) in
  let* now := gets cl_now in
  if negb (NeedsRefresh now t) then ret t
  else if bool_decide (TrimSpace t.(tk_RefreshToken) = "") then
    throw (Opaque "access token expired and no refresh token available")
  else in_context "token refresh failed" (RefreshAccessToken post off t (t.(tk_GatewayURL) +:+ "/device/token") "").

(** [ensureValidToken]. *)
Definition ensureValidToken (baseURL : string) : ST Client CachedTokens :=
  let* t := attempt loadAndRefreshToken in
  match t with
  | Ok t => ret t
  | Err _ => in_context "auto-login failed" (performLogin post off baseURL) ;; on_disk LoadTokens
  end.

(** [waitForRetryAfter]. *)
Definition waitForRetryAfter (retryAfter : string) : ST Client () :=
  if bool_decide (retryAfter = "") then ret ()
  else
    match ParseDuration (retryAfter +:+ "s") with
    | None => ret ()
    | Some d => wait_for d ;; ret ()
    end.

(** The results of [handleMCPResponse]: a result, or an error to try again after,
    with a new token or none. Errors of the call are final. *)
Inductive McpOutcome := McpDone (result : bytes) | McpRetry (newToken : string) (err : error).

(** [handleMCPResponse]. *)
Definition handleMCPResponse (resp : McpResponse) (baseURL : string) : ST Client McpOutcome :=
  match resp.(ms_Body) with
  | None => ret (McpRetry "" (Opaque "read body"))
  | Some respBody =>
      if (resp.(ms_Status) =? 200)%Z then
        ret (McpDone (if Contains resp.(ms_ContentType) "text/event-stream" then extractSSEData respBody else respBody))
      else if (resp.(ms_Status) =? 202)%Z then ret (McpDone [])
      else if (resp.(ms_Status) =? 401)%Z then
        let* t := in_context "auth failed and refresh failed" (ensureValidToken baseURL) in
        ret (McpRetry t.(tk_AccessToken) (Opaque "unauthorized"))
      else if (resp.(ms_Status) =? 429)%Z then
        waitForRetryAfter resp.(ms_RetryAfter) ;; ret (McpRetry "" (Opaque "rate limited (status 429)"))
      else throw (Opaque ("unexpected status " +:+ pretty resp.(ms_Status) +:+ ": " +:+ of_bytes respBody))
  end.

(** The attempts of [sendMCPRequest]; the session stays known when the call fails. *)
Fixpoint send_attempts (todo attempt : nat) (baseURL accessToken session : string) (body : bytes) (lastErr : option error) :
    Client → (result bytes * string) * Client := λ c,
  match todo with
  | O => ((Err (match lastErr with
               | Some e => Wrap "after retries" e
               | None => Opaque "request failed after retries"
               end), session), c)
  | S todo =>
      match (if attempt =? 0 then (Ok true, c) else wait_for (Z.of_nat attempt * second) c) with
      | (Err e, c) => ((Err e, session), c)
      | (Ok false, c) => ((Err (Opaque "context canceled"), session), c)
      | (Ok true, c) =>
          if bool_decide (url_Parse (baseURL +:+ "/mcp") = None) then ((Err (Opaque "build request"), session), c)
          else
          match CallGateway (mkMcpRequest (baseURL +:+ "/mcp") accessToken session body) c with
          | (Err e, c) => ((Err e, session), c)
          | (Ok None, c) =>
              send_attempts todo (S attempt) baseURL accessToken session body (Some (Opaque "request")) c
          | (Ok (Some resp), c) =>
              let session := if bool_decide (resp.(ms_Session) = "") then session else resp.(ms_Session) in
              match handleMCPResponse resp baseURL c with
              | (Err fatal, c) => ((Err fatal, session), c)
              | (Ok (McpDone result), c) => ((Ok result, session), c)
              | (Ok (McpRetry newToken err), c) =>
                  let accessToken := if bool_decide (newToken = "") then accessToken else newToken in
                  send_attempts todo (S attempt) baseURL accessToken session body (Some err) c
              end
          end
      end
  end.

(** [sendMCPRequest]. *)
Definition sendMCPRequest (baseURL accessToken session : string) (body : bytes) :
    Client → (result bytes * string) * Client :=
  send_attempts 3 0 baseURL accessToken session body None.

(** How the loop of [runProxy] ends: with its input, with an interrupt, or with an
    error. *)
Inductive ProxyEnd := InputEnded | Interrupted | ProxyFailed (e : error).

(** The loop of [runProxy] over the lines of the input, with its output. *)
Fixpoint proxy_lines (baseURL session : string) (lines : list bytes) (c : Client) : (bytes * ProxyEnd) * Client :=
  match lines with
  | [] => (([], InputEnded), c)
  | line :: lines' =>
      if is_cancelled c.(cl_now) then (([], Interrupted), c)
      else if bool_decide (TrimSpace (of_bytes line) = "") then proxy_lines baseURL session lines' c
      else
        match ensureValidToken baseURL c with
        | (Err e, c) => (([], ProxyFailed (Wrap "mcp-proxy" e)), c)
        | (Ok t, c) =>
            let '((answer, newSession), c) := sendMCPRequest baseURL t.(tk_AccessToken) session line c in
            match answer with
            | Err _ => proxy_lines baseURL session lines' c
            | Ok respBody =>
                let session := if bool_decide (newSession = "") then session else newSession in
                let '((out, e), c) := proxy_lines baseURL session lines' c in
                (((if bool_decide (respBody = []) then [] else respBody ++ line_break) ++ out, e), c)
            end
        end
  end.

(** [runProxy]: what it prints, and its error. *)
Definition runProxy (baseURL : string) (input : bytes) (c : Client) : (bytes * option error) * Client :=
  let '(lines, ok) := scan_lines max_line (raw_lines input) in
  let '((out, e), c) := proxy_lines baseURL "" lines c in
  ((out, match e with
         | InputEnded => if ok then None else Some (Opaque "bufio.Scanner: token too long")
         | Interrupted => None
         | ProxyFailed e => Some e
         end), c).

(** [mcpProxyCommand] after its flags. *)
Definition mcpProxyCommand (gatewayURL : string) (input : bytes) (c : Client) : (bytes * option error) * Client :=
  if bool_decide (TrimSpace gatewayURL = "") then (([], Some (Opaque "mcp-proxy: --gateway-url is required")), c)
  else runProxy (TrimRightByte (TrimSpace gatewayURL) "/") input c.

End proxy.
