(* ===== verification/DeviceFlowProps.v ===== *)
(** * Correctness of the device flow

    - [save_tokens_atomic]: the file of tokens.
    - [login_terminates]: the polling ends in time, whatever the gateway does.
    - [login_succeeds]: the command, the gateway and the provider together. *)

From stdpp Require Import pretty.
From S2P Require Import Prelude GoStrings Encoding GoNet Json GoParse Document JsonText Codec Config ConfigProps AdminAuth AdminAuthProps Forms DeviceFlow.

#[local] Open Scope string_scope.
#[local] Open Scope list_scope.
#[local] Open Scope nat_scope.
#[local] Open Scope go_scope.

(** ** The file of tokens *)

(** Members that are valid texts. *)
Definition text_member (p : string * document) : Prop :=
  valid_utf8 p.1 = true ∧ ∃ s, p.2 = AStr s ∧ valid_utf8 s = true.

Lemma value_text n d s rest : valid_utf8 s = true →
  value (S n) d (" "%char :: json_string s ++ rest) = Some (AStr s, rest).
Proof.
  intros Hs. destruct (string_written s rest Hs) as (body & -> & E). cbn [value].
  change (skip_space (" "%char :: quote_byte :: body)) with (quote_byte :: body).
  change (one_of "{" quote_byte) with false. change (one_of "[" quote_byte) with false.
  cbv iota. rewrite bool_decide_eq_true_2 by done. by rewrite E.
Qed.

Lemma member_indented k s n d rest : valid_utf8 k = true → valid_utf8 s = true →
  members (S (S n)) d (line_break ++ to_bytes "  " ++ json_string k ++ to_bytes ": " ++ json_string s ++ rest) =
  match skip_space rest with
  | b :: r =>
      if one_of "," b then '(m, r') ← members (S n) d r; Some ((k, AStr s) :: m, r')
      else if one_of "}" b then Some ([(k, AStr s)], r) else None
  | [] => None
  end.
Proof.
  intros Hk Hs. destruct (string_written k (to_bytes ": " ++ json_string s ++ rest) Hk) as (body & E & Et).
  rewrite E. change (line_break ++ to_bytes "  " ++ quote_byte :: body)
    with ("010"%char :: " "%char :: " "%char :: quote_byte :: body).
  remember (S n) as n' eqn:Hn. cbn [members].
  change (skip_space ("010"%char :: " "%char :: " "%char :: quote_byte :: body)) with (quote_byte :: body). cbv iota.
  rewrite bool_decide_eq_true_2 by done. rewrite Et. cbn [mbind option_bind].
  change (strip_prefix (to_bytes ":") (skip_space (to_bytes ": " ++ ?t))) with (Some (" "%char :: t)).
  cbn [mbind option_bind]. subst n'. by rewrite value_text.
Qed.

Lemma indented_cons k s m : indented ((k, AStr s) :: m) = line_break ++ to_bytes "  " ++ json_string k ++
  to_bytes ": " ++ json_string s ++ match m with [] => line_break | _ => to_bytes "," ++ indented m end.
Proof. cbn [indented fst snd json_print]. destruct m; by rewrite ?app_nil_r. Qed.

Lemma members_indented p m n d rest : Forall text_member (p :: m) → length m + 2 <= n →
  members n d (indented (p :: m) ++ "}"%char :: rest) = Some (p :: m, rest).
Proof.
  revert p n. induction m as [|q m IH]; intros p n [[Hk (s & Hp & Hs)] Hm]%Forall_cons Hn; destruct p as [k v];
    cbn [fst snd] in *; subst v; (destruct n as [|[|n]]; [cbn [length] in Hn; lia..|]);
    rewrite indented_cons, <- !(assoc_L (++)), member_indented by done; [done|].
  change (skip_space (to_bytes "," ++ ?t)) with (","%char :: t). cbv iota.
  change (one_of "," ",") with true. cbv iota. rewrite IH; [done|done|cbn [length] in Hn; lia].
Qed.

(** What [json.MarshalIndent] writes is read back. *)
Lemma indented_read p m : Forall text_member (p :: m) →
  json_parse (of_bytes (marshal_indent (p :: m))) = Some (AObj (p :: m)).
Proof.
  intros Hm. unfold json_parse, marshal_indent. rewrite to_of_bytes.
  change (to_bytes "{" ++ ?t) with ("{"%char :: t). set (l := indented (p :: m) ++ to_bytes "}").
  assert (Hlen : length m + 2 <= enough ("{"%char :: l) - 1).
  { unfold enough, l. cbn [length]. rewrite length_app.
    assert (length (p :: m) <= length (indented (p :: m))); [|cbn [length] in *; lia].
    clear. induction (p :: m) as [|q qs IH]; [done|]. cbn [indented length].
    rewrite !length_app. cbn [length line_break]. lia. }
  destruct (enough ("{"%char :: l)) as [|n]; [lia|]. cbn [value].
  change (skip_space ("{"%char :: l)) with ("{"%char :: l). cbv iota.
  change (one_of "{" "{") with true. cbv iota. change (maxNestingDepth =? 0)%N with false. cbv iota.
  assert (Hskip : ∃ body, skip_space l = quote_byte :: body).
  { unfold l. destruct p as [k v]. cbn [indented fst]. by eexists. }
  destruct Hskip as [body Hskip]. rewrite Hskip. change (one_of "}" quote_byte) with false. cbv iota.
  assert (Hsame : members n (maxNestingDepth - 1) (quote_byte :: body) = members n (maxNestingDepth - 1) l).
  { destruct n; [done|]. cbn [members]. by rewrite Hskip. }
  rewrite Hsame. unfold l. change (to_bytes "}") with ["}"%char]. rewrite members_indented; [done|done|lia].
Qed.

(** Tokens that can be written: valid texts, and a time of four digits for the
    year in a zone of whole minutes. *)
Definition writable (off : Z) (t : CachedTokens) : Prop :=
  Forall (λ s, valid_utf8 s = true)
    [t.(tk_AccessToken); t.(tk_RefreshToken); t.(tk_IDToken); t.(tk_TokenType); t.(tk_GatewayURL)] ∧
  (Z.abs off < 86400)%Z ∧ (off mod 60 = 0)%Z ∧ is_Some (marshal_time off t.(tk_ExpiresAt)).

Section decode.
Context `{UnicodeTables}.

Definition token_fields : list (string * decoder_of string CachedTokens) :=
  [("access_token", field tk_AccessToken set_AccessToken d_string);
   ("refresh_token", field tk_RefreshToken set_RefreshToken d_string);
   ("id_token", field tk_IDToken set_IDToken d_string);
   ("token_type", field tk_TokenType set_TokenType d_string);
   ("expires_at", field tk_ExpiresAt set_ExpiresAt d_time);
   ("gateway_url", field tk_GatewayURL set_GatewayURL d_string)].

Lemma member_access t ok s : d_member token_fields (t, ok) ("access_token", AStr s) = (set_AccessToken s t, ok && true).
Proof. reflexivity. Qed.
Lemma member_refresh t ok s : d_member token_fields (t, ok) ("refresh_token", AStr s) = (set_RefreshToken s t, ok && true).
Proof. reflexivity. Qed.
Lemma member_id t ok s : d_member token_fields (t, ok) ("id_token", AStr s) = (set_IDToken s t, ok && true).
Proof. reflexivity. Qed.
Lemma member_type t ok s : d_member token_fields (t, ok) ("token_type", AStr s) = (set_TokenType s t, ok && true).
Proof. reflexivity. Qed.
Lemma member_url t ok s : d_member token_fields (t, ok) ("gateway_url", AStr s) = (set_GatewayURL s t, ok && true).
Proof. reflexivity. Qed.
Lemma member_expires t ok s x : ParseRFC3339 s = Some x →
  d_member token_fields (t, ok) ("expires_at", AStr s) = (set_ExpiresAt x t, ok && true).
Proof.
  intros Hx. change (d_member token_fields (t, ok) ("expires_at", AStr s)) with
    (let '(x, ok') := field tk_ExpiresAt set_ExpiresAt d_time (AStr s) t in (x, ok && ok')).
  unfold field, d_time. by rewrite Hx.
Qed.

Lemma tokens_decoded t expires : ParseRFC3339 expires = Some t.(tk_ExpiresAt) →
  unmarshal d_tokens (AObj (tokens_members t expires)) no_tokens = Some t.
Proof.
  intros Htime. unfold unmarshal, d_tokens. fold token_fields. unfold d_struct, tokens_members, omitempty.
  destruct t as [access refresh id type exp url]. cbn [tk_AccessToken tk_RefreshToken tk_IDToken tk_TokenType tk_GatewayURL tk_ExpiresAt] in *.
  repeat case_bool_decide; subst; cbn [app foldl];
    rewrite ?member_access, ?member_refresh, ?member_id, ?member_type, (member_expires _ _ _ _ Htime), ?member_url;
    reflexivity.
Qed.

Definition without_faults (d : TokenDisk) : TokenDisk := mkDisk d.(td_home) d.(td_file) d.(td_tmp) [].

(** The text of the tokens reads as the tokens. *)
Lemma tokens_read off t expires : writable off t → marshal_time off t.(tk_ExpiresAt) = Some expires →
  (v ← json_parse (of_bytes (marshal_indent (tokens_members t expires))); unmarshal d_tokens v no_tokens) = Some t.
Proof.
  intros (Htexts & Hoff & H60 & _) Hexp. revert Hexp. unfold marshal_time.
  destruct (_ && _) eqn:Hy; [|done]. intros [= <-]. apply andb_true_iff in Hy as [Hy1%Z.leb_le Hy2%Z.leb_le].
  set (expires := FormatRFC3339 true off _). rewrite !Forall_cons in Htexts. destruct Htexts as (Ha & Hr & Hi & Ht & Hu & _).
  assert (Hm : Forall text_member (tokens_members t expires)).
  { assert (He : valid_utf8 expires = true) by (apply ascii_valid, format_ascii).
    assert (Hone : ∀ k s, valid_utf8 k = true → valid_utf8 s = true → text_member (k, AStr s)) by (intros k s ??; split; eauto).
    unfold tokens_members, omitempty. repeat case_bool_decide; cbn [app]; repeat (apply Forall_cons_2; [by apply Hone|]); apply Forall_nil_2. }
  unfold tokens_members in *. cbn [app] in *. rewrite indented_read by done. cbn [mbind option_bind].
  apply (tokens_decoded t expires). by apply rfc3339_roundtrip.
Qed.

Lemma load_file t data tmp : (v ← json_parse (of_bytes data); unmarshal d_tokens v no_tokens) = Some t →
  LoadTokens (mkDisk true (Some data) tmp []) = (Ok t, mkDisk true (Some data) tmp []).
Proof.
  intros Ht. change (LoadTokens (mkDisk true (Some data) tmp [])) with
    ((match v ← json_parse (of_bytes data); unmarshal d_tokens v no_tokens with
      | Some t => ret t
      | None => throw (Opaque "load tokens: unmarshal")
      end : ST TokenDisk CachedTokens) (mkDisk true (Some data) tmp [])).
  by rewrite Ht.
Qed.

Lemma save_cases off t d :
  match SaveTokens off t d with
  | (Ok _, d') => d'.(td_home) = true ∧ ∃ expires, marshal_time off t.(tk_ExpiresAt) = Some expires ∧
      d'.(td_file) = Some (marshal_indent (tokens_members t expires))
  | (Err _, d') => d'.(td_file) = d.(td_file) ∧
      (d.(td_home) = true → d.(td_faults) = [] → is_Some (marshal_time off t.(tk_ExpiresAt)) → False)
  end.
Proof.
  destruct d as [home file tmp faults]. unfold SaveTokens, tokenCachePath, context, disk_op, bind, attempt, ret, throw.
  cbn [td_home]. destruct home; [|by split].
  destruct (marshal_time off _) as [expires|] eqn:Hexp.
  - destruct faults as [|[[|n]|] [|[[|m]|] [|[[|k]|] [|[[|j]|] fs]]]]; cbn; try (split; [done|naive_solver]); eauto.
  - destruct faults as [|[[|n]|] fs]; cbn; (split; [done|]); try done; intros _ _ [? ?]; done.
Qed.

Lemma save_works off t expires file tmp : marshal_time off t.(tk_ExpiresAt) = Some expires →
  SaveTokens off t (mkDisk true file tmp []) = (Ok (), mkDisk true (Some (marshal_indent (tokens_members t expires))) None []).
Proof. intros E. unfold SaveTokens, bind, tokenCachePath, context, disk_op. cbn -[marshal_indent tokens_members]. by rewrite E. Qed.

(** C36: The file of tokens changes in one step. Saving tokens either succeeds, and
    then loading gives the same tokens back, or fails and leaves the file as it
    was, whatever operations of the file system fail; it succeeds when none
    does. *)
Theorem save_tokens_atomic off t d :
  writable off t →
  let '(r, d') := SaveTokens off t d in
  match r with
  | Ok _ => (LoadTokens (without_faults d')).1 = Ok t
  | Err _ => d'.(td_file) = d.(td_file)
  end ∧ (d.(td_home) = true → d.(td_faults) = [] → r = Ok ()).
Proof.
  intros Hw. destruct (SaveTokens off t d) as [r d'] eqn:E.
  pose proof (save_cases off t d) as Hc. rewrite E in Hc. destruct r as [e|[]].
  - destruct Hc as [Hf Hok]. split; [done|]. intros Hh Hn. exfalso. destruct Hw as (_ & _ & _ & He). by apply Hok.
  - split; [|done]. destruct Hc as (Hh & expires & Hexp & Hf). 
    unfold without_faults. by rewrite Hh, Hf, (load_file t _ _ (tokens_read off t expires Hw Hexp)).
Qed.
End decode.

(** ** Polling ends *)

Section polling.
Context `{UnicodeTables} {G : Type} (post : string → form → G → HttpAnswer * Z * G) (off : Z).

(** The gateway with a count of the requests it gets. *)
Definition counted_post (url : string) (f : form) (g : nat * G) : HttpAnswer * Z * (nat * G) :=
  let '(answer, took, g') := post url f g.2 in (answer, took, (S g.1, g')).

Lemma in_disk_frame {A} (m : ST TokenDisk A) ctx (c : ClientWorld (nat * G)) :
  let c' := (in_context ctx (on_disk m) c).2 in c'.(cl_now) = c.(cl_now) ∧ c'.(cl_gateway) = c.(cl_gateway).
Proof. unfold in_context, on_disk. by destruct (m _) as [[|] ?]. Qed.

Lemma poll_once_cost baseURL code c :
  let c' := (pollTokenOnce counted_post off baseURL code c).2 in
  (c.(cl_now) <= c'.(cl_now))%Z ∧ c'.(cl_gateway).1 = S c.(cl_gateway).1.
Proof.
  cbv zeta. unfold pollTokenOnce, PostToGateway, counted_post, bind.
  destruct (post _ _ _) as [[answer took] g]. set (c1 := mkClient _ _ _).
  assert (Hc1 : (c.(cl_now) <= c1.(cl_now))%Z ∧ c1.(cl_gateway).1 = S c.(cl_gateway).1) by (split; [cbn; lia|done]).
  clearbody c1. destruct answer as [|s|s body]; [done..|].
  destruct (s =? 425)%Z; [done|]. destruct (s =? 410)%Z; [done|]. destruct (s =? 403)%Z; [done|].
  destruct (negb (s =? 200)%Z); [done|].
  unfold saveTokenResponse. destruct (_ ≫= _) as [r|]; [|done]. unfold bind, gets.
  match goal with |- context [in_context ?ctx (on_disk ?m) c1] => pose proof (in_disk_frame m ctx c1) as [Hn Hg] end.
  destruct (in_context _ _ c1) as [[e|[]] c2]; unfold ret; cbn [snd] in *; rewrite Hn, Hg; done.
Qed.

Lemma poll_interval_least n : (5 * second <= poll_interval n)%Z.
Proof. unfold poll_interval. destruct (_ <? _)%Z eqn:E; [lia|]. by apply Z.ltb_ge in E. Qed.

Definition slept {G'} (d : Z) (c : ClientWorld G') : ClientWorld G' :=
  mkClient (c.(cl_now) + Z.max 0 d) c.(cl_disk) c.(cl_gateway).

(** One round of the loop. *)
Lemma poll_step {G'} (post' : string → form → G' → HttpAnswer * Z * G') fuel baseURL code interval deadline c :
  poll_loop post' off (S fuel) baseURL code interval deadline c =
  if (c.(cl_now) <? deadline)%Z then
    match pollTokenOnce post' off baseURL code (slept interval c) with
    | (Ok true, c') => poll_loop post' off fuel baseURL code interval deadline c'
    | (Ok false, c') => (Ok (), c')
    | (Err e, c') => (Err e, c')
    end
  else (Err (Opaque "auth login: device code expired"), c).
Proof.
  cbn [poll_loop]. unfold bind, gets. destruct (_ <? _)%Z; cbn [negb]; [|done]. unfold sleep, slept.
  by destruct (pollTokenOnce _ _ _ _ _) as [[e|[]] c'].
Qed.

(** Enough fuel, and the number of polls. *)
Lemma poll_loop_bounded fuel extra baseURL code interval deadline c :
  (5 * second <= interval)%Z → (deadline - c.(cl_now) <= Z.of_nat fuel * (5 * second))%Z →
  poll_loop counted_post off (fuel + extra) baseURL code interval deadline c =
    poll_loop counted_post off fuel baseURL code interval deadline c ∧
  ∃ polls : nat, (poll_loop counted_post off fuel baseURL code interval deadline c).2.(cl_gateway).1 = polls + c.(cl_gateway).1 ∧
    (0 < polls → ((Z.of_nat polls - 1) * interval < deadline - c.(cl_now))%Z).
Proof.
  intros Hi. revert c. induction fuel as [|fuel IH]; intros c Hf.
  - assert (Hdone : (c.(cl_now) <? deadline)%Z = false) by (apply Z.ltb_ge; lia).
    split; [|exists 0; split; [|lia]]; destruct extra; cbn [poll_loop Nat.add]; unfold bind, gets; by rewrite Hdone.
  - cbn [Nat.add]. rewrite !poll_step.
    destruct (c.(cl_now) <? deadline)%Z eqn:E; [|split; [done|]; exists 0; split; [done|lia]].
    apply Z.ltb_lt in E. pose proof (poll_once_cost baseURL code (slept interval c)) as [Hnow Hcount].
    destruct (pollTokenOnce _ _ _ _ _) as [[e|pending] c2]; cbn [snd] in *.
    + split; [done|]. exists 1. split; [done|lia].
    + destruct pending; [|split; [done|]; exists 1; split; [done|lia]].
      destruct (IH c2) as [Hsame (polls & Hp & Hb)]; [cbn in Hnow; lia|]. split; [done|].
      exists (S polls). rewrite Hp. split; [rewrite Hcount; cbn; lia|]. intros _. cbn in Hnow.
      destruct (decide (polls = 0)) as [->|]; [lia|]. specialize (Hb ltac:(lia)). lia.
Qed.

(** C35: Logging in ends. Whatever the gateway answers, and however long its answers
    take, the command starts another wait for the interval (at least five seconds)
    only while the device code has not expired, and asks for the token once after
    each wait, the last time perhaps after the expiry; so it polls at most once more
    than the lifetime of the code holds intervals, and then stops. *)
Theorem login_terminates extra baseURL r c :
  let deadline := in_seconds c.(cl_now) r.(dc_ExpiresIn) in
  let interval := poll_interval r.(dc_Interval) in
  let c' := (pollForToken counted_post off baseURL r c).2 in
  (5 * second <= interval)%Z ∧
  poll_loop counted_post off (poll_fuel c.(cl_now) deadline + extra) baseURL r.(dc_DeviceCode) interval deadline c =
    pollForToken counted_post off baseURL r c ∧
  ∃ polls : nat, c'.(cl_gateway).1 = polls + c.(cl_gateway).1 ∧
    (0 < polls → ((Z.of_nat polls - 1) * interval < deadline - c.(cl_now))%Z).
Proof.
  cbv zeta. split; [apply poll_interval_least|].
  unfold pollForToken, bind, gets. apply poll_loop_bounded; [apply poll_interval_least|].
  unfold poll_fuel. generalize (in_seconds c.(cl_now) r.(dc_ExpiresIn) - c.(cl_now))%Z. intros z.
  assert (0 < 5 * second)%Z by done. pose proof (Z.mod_pos_bound z (5 * second)) as Hm.
  pose proof (Z.div_mod z (5 * second)) as Hd. nia.
Qed.
End polling.

(** ** The command, the gateway and the provider together *)

(** A provider that gives the answers of a list, and keeps what it was asked. *)
Record Provider := mkProvider { pv_answers : list HttpAnswer; pv_asked : list (string * form) }.
Definition provider_post (url : string) (f : form) (p : Provider) : HttpAnswer * Provider :=
  (default NoAnswer (head p.(pv_answers)), mkProvider (tail p.(pv_answers)) (p.(pv_asked) ++ [(url, f)])).

Section login.
Context `{UnicodeTables} (cfg : Config) (baseURL : string) (took off : Z).

(** The gateway at [baseURL], with the routes of the device flow. *)
Definition gateway_post (url : string) (f : form) (p : Provider) : HttpAnswer * Z * Provider :=
  let reply :=
    if bool_decide (url = baseURL +:+ "/device/code") then Some (handleDeviceCode provider_post cfg (posted f) p)
    else if bool_decide (url = baseURL +:+ "/device/token") then Some (handleDeviceToken provider_post cfg (posted f) p)
    else None in
  match reply with
  | Some ((status, body), p) => (Answer status body, took, p)
  | None => (Answer 404 (to_bytes "404 page not found" ++ line_break), took, p)
  end.

(** What the provider is asked. *)
Definition code_request : string * form :=
  (cfg.(c_DeviceFlowIDPDeviceURL), <["client_id" := cfg.(c_DeviceFlowClientID)]> (<["scope" := "openid profile email"]> ∅)).
Definition token_request (code : string) : string * form :=
  let f := <["client_id" := cfg.(c_DeviceFlowClientID)]> (<["grant_type" := deviceGrantType]> (<["device_code" := code]> ∅)) in
  (cfg.(c_DeviceFlowIDPTokenURL),
   if bool_decide (TrimSpace cfg.(c_DeviceFlowClientSecret) = "") then f
   else <["client_secret" := cfg.(c_DeviceFlowClientSecret)]> f).

Definition poll_form (code : string) : form := <["grant_type" := deviceGrantType]> (<["device_code" := code]> ∅).

(** A device code that goes through unchanged: trimmed, and not too long. *)
Definition code_ok (code : string) : Prop :=
  TrimSpace code = code ∧ code ≠ "" ∧ (N.of_nat (length (Encode (poll_form code))) <= deviceFlowMaxBodyBytes)%N.

Lemma urls_differ : baseURL +:+ "/device/token" ≠ baseURL +:+ "/device/code".
Proof.
  intros E%(f_equal to_bytes). rewrite !to_bytes_app in E. by apply app_inv_head in E.
Qed.

Lemma code_answered p :
  gateway_post (baseURL +:+ "/device/code") (<["scope" := "openid profile email"]> ∅) p =
  let '(answer, p') := provider_post code_request.1 code_request.2 p in
  let reply := relay (λ status _, status) answer in (Answer reply.1 reply.2, took, p').
Proof.
  unfold gateway_post. rewrite bool_decide_eq_true_2 by done. unfold handleDeviceCode.
  destruct (form_read deviceFlowMaxBodyBytes (<["scope" := "openid profile email"]> ∅)) as (pairs & -> & Hval);
    [by vm_compute|].
  rewrite Hval. rewrite lookup_insert_eq. cbn [default from_option id].
  change (TrimSpace "openid profile email") with "openid profile email".
  change (bool_decide ("openid profile email" = "") || negb (Contains "openid profile email" "openid")) with false.
  cbv iota. unfold provider_post, code_request. cbn [fst snd]. by destruct (relay _ _).
Qed.

Lemma token_answered code p : code_ok code →
  gateway_post (baseURL +:+ "/device/token") (poll_form code) p =
  let '(answer, p') := provider_post (token_request code).1 (token_request code).2 p in
  let reply := relay token_status answer in (Answer reply.1 reply.2, took, p').
Proof.
  intros (Htrim & Hne & Hlen). unfold gateway_post. rewrite bool_decide_eq_false_2 by apply urls_differ.
  rewrite bool_decide_eq_true_2 by done. unfold handleDeviceToken.
  destruct (form_read deviceFlowMaxBodyBytes (poll_form code) Hlen) as (pairs & -> & Hval).
  unfold token_form. rewrite !Hval. unfold poll_form. rewrite lookup_insert_eq, lookup_insert_ne, lookup_insert_eq by done.
  cbn [default from_option id]. change (TrimSpace deviceGrantType) with deviceGrantType.
  rewrite bool_decide_eq_true_2 by done. rewrite Htrim, (bool_decide_eq_false_2 (code = "")) by done.
  unfold provider_post, token_request. cbn [fst snd]. by destruct (relay _ _).
Qed.

Definition small (body : bytes) : Prop := (N.of_nat (length body) <= deviceFlowMaxIdPResponseBytes)%N.

(** The provider asks to wait. *)
Definition pending_answer (a : HttpAnswer) : Prop :=
  ∃ body e, a = Answer 400 body ∧ small body ∧ error_field body = Some e ∧ e ∈ ["authorization_pending"; "slow_down"].

Lemma relay_small remap status body : small body → relay remap (Answer status body) = (remap status body, body).
Proof. intros Hs. unfold relay. by rewrite (proj2 (N.ltb_ge _ _)). Qed.

Lemma relay_pending a : pending_answer a → ∃ body, relay token_status a = (425%Z, body).
Proof.
  intros (body & e & -> & Hs & He & Hin). exists body. rewrite relay_small by done. unfold token_status.
  change (400 =? 400)%Z with true. cbv iota. rewrite He. by rewrite bool_decide_eq_true_2.
Qed.

Definition after_polls (n : nat) (interval : Z) (code : string) (rest : list HttpAnswer) (c : ClientWorld Provider) : ClientWorld Provider :=
  mkClient (c.(cl_now) + Z.of_nat n * (interval + Z.max 0 took)) c.(cl_disk)
    (mkProvider rest (c.(cl_gateway).(pv_asked) ++ replicate n (token_request code))).

Lemma poll_once code interval a rest c : code_ok code → (0 <= interval)%Z → c.(cl_gateway).(pv_answers) = a :: rest →
  pollTokenOnce gateway_post off baseURL code (slept interval c) =
  (let '(status, body) := relay token_status a in
   if (status =? 425)%Z then ret true
   else if (status =? 410)%Z then throw (Opaque "auth login: device code expired — please restart the login flow")
   else if (status =? 403)%Z then throw (Opaque "auth login: access denied by the identity provider")
   else if negb (status =? 200)%Z then
     let msg := parseErrorDescription body in
     let msg := if bool_decide (msg = "") then of_bytes body else msg in
     throw (Opaque ("auth login: token request failed with status " +:+ pretty status +:+ ": " +:+ msg))
   else saveTokenResponse off body baseURL ;; ret false) (after_polls 1 interval code rest c).
Proof.
  intros Hcode Hi Ha. unfold pollTokenOnce, PostToGateway, bind at 1. fold (poll_form code).
  rewrite token_answered by done. unfold provider_post. cbn [slept cl_gateway]. rewrite Ha. cbn [head tail default from_option id].
  destruct (relay token_status a) as [status body]. cbn [fst snd].
  replace (mkClient _ _ _) with (after_polls 1 interval code rest c); [done|].
  unfold after_polls, slept. cbn [cl_now cl_disk replicate]. rewrite <- surjective_pairing. f_equal. lia.
Qed.

Lemma poll_succeeds pend code interval deadline body rest fuel c :
  code_ok code → (0 <= interval)%Z → Forall pending_answer pend → small body →
  c.(cl_gateway).(pv_answers) = pend ++ Answer 200 body :: rest →
  (c.(cl_now) + Z.of_nat (length pend) * (interval + Z.max 0 took) < deadline)%Z → length pend < fuel →
  poll_loop gateway_post off fuel baseURL code interval deadline c =
  saveTokenResponse off body baseURL (after_polls (S (length pend)) interval code rest c).
Proof.
  intros Hcode Hi Hp Hb. revert fuel c. induction Hp as [|a pend Ha Hp IH]; intros fuel c Hans Htime Hfuel;
    (destruct fuel as [|fuel]; [lia|]); rewrite poll_step;
    (rewrite (proj2 (Z.ltb_lt _ _)) by (cbn [length] in Htime; lia)); cbn [app length] in *.
  - rewrite (poll_once code interval (Answer 200 body) rest) by done. rewrite relay_small by done.
    change (token_status 200 body) with 200%Z. cbv iota. unfold bind, ret. cbn [negb Z.eqb Pos.eqb].
    by destruct (saveTokenResponse _ _ _ _) as [[e|[]] c'].
  - rewrite (poll_once code interval a (pend ++ Answer 200 body :: rest)) by done.
    destruct (relay_pending a Ha) as [b ->]. change (425 =? 425)%Z with true. cbv iota. unfold ret.
    rewrite IH; [|done|unfold after_polls; cbn [cl_now]; lia|lia]. f_equal. unfold after_polls. cbn [cl_now cl_disk cl_gateway pv_asked].
    rewrite <- (assoc_L (++)), <- replicate_add. f_equal. lia.
Qed.

(** C34: Logging in, from the command to the provider and back. When the provider
    gives a device code, asks to wait any number of times that fit into the
    lifetime of the code, and then gives tokens, the command ends with those tokens
    in the file, for this gateway and with the time they expire; and the provider
    was asked for the code and then for the token of that code, as the client of
    the gateway's configuration. *)
Theorem login_succeeds code_body r pend body tr rest c :
  let interval := poll_interval r.(dc_Interval) in
  let delay := (interval + Z.max 0 took)%Z in
  let now' := (c.(cl_now) + Z.max 0 took + Z.of_nat (S (length pend)) * delay)%Z in
  let t := mkTokens tr.(tr_AccessToken) tr.(tr_RefreshToken) tr.(tr_IDToken) tr.(tr_TokenType)
             (in_seconds now' tr.(tr_ExpiresIn)) baseURL in
  c.(cl_gateway).(pv_answers) = Answer 200 code_body :: pend ++ Answer 200 body :: rest →
  small code_body → (v ← json_first (of_bytes code_body); unmarshal d_code_response v no_code) = Some r →
  code_ok r.(dc_DeviceCode) → Forall pending_answer pend →
  small body → (v ← json_parse (of_bytes body); unmarshal d_token_response v no_response) = Some tr →
  (Z.of_nat (length pend) * delay < wrap_i64 (r.(dc_ExpiresIn) * second))%Z →
  c.(cl_disk).(td_home) = true → c.(cl_disk).(td_faults) = [] → writable off t →
  ∃ c', performLogin gateway_post off baseURL c = (Ok (), c') ∧ (LoadTokens c'.(cl_disk)).1 = Ok t ∧
    c'.(cl_gateway).(pv_asked) = c.(cl_gateway).(pv_asked) ++ code_request :: replicate (S (length pend)) (token_request r.(dc_DeviceCode)).
Proof.
  intros interval delay now' t Hans Hsmall Hr Hcode Hpend Hb Htr Htime Hhome Hfaults Hw.
  pose proof (poll_interval_least r.(dc_Interval)) as Hi. fold interval in Hi. change (5 * second)%Z with 5000000000%Z in Hi.
  set (c1 := mkClient (c.(cl_now) + Z.max 0 took) c.(cl_disk)
     (mkProvider (pend ++ Answer 200 body :: rest) (c.(cl_gateway).(pv_asked) ++ [code_request]))).
  assert (Hcodereq : requestDeviceCode gateway_post baseURL c = (Ok r, c1)).
  { unfold requestDeviceCode, PostToGateway, bind at 1. rewrite code_answered. unfold provider_post. rewrite Hans.
    cbn [head tail default from_option id]. rewrite relay_small by done. cbn [fst snd]. change (negb (200 =? 200)%Z) with false.
    cbv iota zeta. rewrite Hr. done. }
  assert (Hpoll : pollForToken gateway_post off baseURL r c1 =
    saveTokenResponse off body baseURL (after_polls (S (length pend)) interval r.(dc_DeviceCode) rest c1)).
  { unfold pollForToken, bind, gets. apply poll_succeeds; [done|fold interval; lia|done|done|done| |].
    - fold interval. unfold in_seconds. fold delay. lia.
    - unfold poll_fuel, in_seconds. replace (c1.(cl_now) + _ - c1.(cl_now))%Z with (wrap_i64 (r.(dc_ExpiresIn) * second)) by lia.
      change (5 * second)%Z with 5000000000%Z. unfold delay in Htime. Z.div_mod_to_equations. nia. }
  destruct Hw as (Hw1 & Hw2 & Hw3 & [expires Hexp]).
  set (data := marshal_indent (tokens_members t expires)).
  exists (mkClient now' (mkDisk true (Some data) None []) (after_polls (S (length pend)) interval r.(dc_DeviceCode) rest c1).(cl_gateway)).
  split_and!.
  - unfold performLogin, bind. rewrite Hcodereq, Hpoll. unfold saveTokenResponse. rewrite Htr. unfold bind, gets.
    unfold in_context, on_disk, after_polls. cbn [cl_disk cl_now c1].
    destruct c.(cl_disk) as [home file tmp faults]. cbn [td_home td_faults] in Hhome, Hfaults. subst home faults.
    fold delay. fold now'. fold t. rewrite (save_works off t expires) by done. done.
  - cbn [cl_disk]. by rewrite (load_file t data None (tokens_read off t expires ltac:(by split_and!) Hexp)).
  - unfold after_polls. cbn [cl_gateway pv_asked c1]. by rewrite <- (assoc_L (++)).
Qed.
End login.

(** ** Instances *)

#[local] Existing Instance ascii_tables.

Definition example_tokens : CachedTokens := mkTokens "a" "r" "" "Bearer" (90 * second) "https://gw".

Lemma save_tokens_atomic_witness :
  writable 3600 example_tokens ∧
  (SaveTokens 3600 example_tokens (mkDisk true (Some []) None [None; Some (FailAfter 7)])).2.(td_file) = Some [].
Proof.
  assert (Hw : writable 3600 example_tokens).
  { split_and!; [by_evaluation|done..|]. vm_compute. by eexists. }
  split; [done|]. set (d := mkDisk true (Some []) None [None; Some (FailAfter 7)]).
  pose proof (save_tokens_atomic 3600 example_tokens d Hw) as H.
  assert (E : is_ok (SaveTokens 3600 example_tokens d).1 = false) by (by vm_compute).
  destruct (SaveTokens 3600 example_tokens d) as [[e|[]] d']; [|done]. exact (proj1 H).
Defined.

(** A provider that asks to wait once. *)
Definition example_code_body : bytes := json_print (AObj
  [("device_code", AStr "d"); ("user_code", AStr "u"); ("expires_in", ANum "600"); ("interval", ANum "5")]).
Definition example_pending : HttpAnswer := Answer 400 (json_print (AObj [("error", AStr "slow_down")])).
Definition example_token_body : bytes := json_print (AObj
  [("access_token", AStr "a"); ("token_type", AStr "Bearer"); ("expires_in", ANum "3600")]).
Definition example_provider : Provider := mkProvider [Answer 200 example_code_body; example_pending; Answer 200 example_token_body] [].

Lemma login_succeeds_witness :
  ∃ c', performLogin (gateway_post example_loaded "https://gw" second) 0 "https://gw"
          (mkClient 0 (mkDisk true None None []) example_provider) = (Ok (), c') ∧
        (LoadTokens c'.(cl_disk)).1 = Ok (mkTokens "a" "" "" "Bearer" (3613 * second) "https://gw") ∧
        c'.(cl_gateway).(pv_asked) = code_request example_loaded :: replicate 2 (token_request example_loaded "d").
Proof.
  apply (login_succeeds example_loaded "https://gw" second 0 example_code_body (mkCodeResponse "d" "u" "" "" 600 5)
           [example_pending] example_token_body (mkTokenResponse "a" "" "" "Bearer" 3600) []
           (mkClient 0 (mkDisk true None None []) example_provider)).
  - done.
  - by vm_compute.
  - by vm_compute.
  - split_and!; by vm_compute.
  - repeat constructor. exists (json_print (AObj [("error", AStr "slow_down")])), "slow_down".
    split_and!; [done|by vm_compute..|]. right. left.
  - by vm_compute.
  - by vm_compute.
  - by vm_compute.
  - done.
  - done.
  - split_and!; [by_evaluation|done..|]. vm_compute. by eexists.
Defined.
