(* ===== verification/ClientProps.v ===== *)
(** * Correctness of the client

    - [requests_bounded]: what a request to the gateway can become.
    - [rejected_token_kept]: a token the gateway rejects is sent again;
      [token_for_any_gateway]: the cached token goes to any gateway.
    - [sse_read_back]: events that are written are read back, up to a line that is
      too long. *)

From S2P Require Import Prelude GoStrings Encoding GoNet Json GoParse Document JsonText Codec Config ConfigProps AdminAuth AdminAuthProps Forms DeviceFlow DeviceFlowProps Client.

#[local] Open Scope string_scope.
#[local] Open Scope list_scope.
#[local] Open Scope nat_scope.
#[local] Open Scope go_scope.

(** ** Events *)

Lemma raw_lines_app x rest : "010"%char ∉ x → raw_lines (x ++ "010"%char :: rest) = x :: raw_lines rest.
Proof.
  induction x as [|a x IH]; intros Hx; cbn [app raw_lines].
  - by rewrite bool_decide_eq_true_2.
  - apply not_elem_of_cons in Hx as [Ha Hx]. rewrite bool_decide_eq_false_2 by congruence. by rewrite IH.
Qed.

(** A line of data: not blank, and without white space around it. *)
Definition data_line (p : bytes) : Prop := p ≠ [] ∧ TrimSpace (of_bytes p) = of_bytes p.
Definition fits (p : bytes) : Prop := (N.of_nat (length p) + 6 < max_line)%N.

Lemma trim_space_front p : TrimSpace (of_bytes (" "%char :: p)) = TrimSpace (of_bytes p).
Proof. unfold TrimSpace. by rewrite !to_of_bytes. Qed.

Lemma data_line_no_cr p : data_line p → drop_cr (to_bytes "data: " ++ p) = to_bytes "data: " ++ p.
Proof.
  intros [Hne Ht]. unfold drop_cr. destruct (last (to_bytes "data: " ++ p)) as [a|] eqn:E; [|done].
  case_bool_decide as Ha; [|done]. subst a. exfalso.
  apply (f_equal to_bytes) in Ht. unfold TrimSpace in Ht. rewrite !to_of_bytes in Ht.
  assert (Hl : last p = Some "013"%char) by (rewrite last_app in E; by destruct (last p)).
  apply last_Some in Hl as [q Hq].
  pose proof (drop_space_leading space1 (flip space2) (flip3 space3) (reverse (trim_left p))) as Hlead.
  assert (Hr : drop_space space1 (flip space2) (flip3 space3) (reverse (trim_left p)) = reverse p).
  { rewrite <- Ht at 2. unfold trim_right. by rewrite reverse_involutive. }
  rewrite Hr, Hq, reverse_snoc in Hlead. done.
Qed.

Lemma sse_data_line p : data_line p → sse_data (to_bytes "data: " ++ p) = Some p.
Proof.
  intros [Hne Ht]. unfold sse_data. change (strip_prefix (to_bytes "data:") (to_bytes "data: " ++ p)) with (Some (" "%char :: p)).
  cbv iota zeta. rewrite trim_space_front, Ht, to_of_bytes. by rewrite bool_decide_eq_false_2.
Qed.

(** What [WriteEvent] sends. *)
Definition data_text (p : bytes) : bytes := to_bytes "data: " ++ p ++ line_break.
Definition event_text (event : string) (ps : list bytes) : bytes :=
  (if bool_decide (TrimSpace event = "") then [] else to_bytes "event: " ++ to_bytes event ++ line_break) ++
  mjoin (data_text <$> ps) ++ line_break.

Lemma write_all ps out :
  for_each (λ line, stream_context "sse writer: write data" (stream_write (to_bytes "data: " ++ line ++ line_break))) ps
    (mkStream out []) = (Ok (), mkStream (out ++ mjoin (data_text <$> ps)) []).
Proof.
  revert out. induction ps as [|p ps IH]; intros out; [by rewrite app_nil_r|].
  cbn [for_each]. unfold bind. change (stream_context _ (stream_write ?d) (mkStream out [])) with (Ok () : result (), mkStream (out ++ d) []).
  cbv iota. rewrite IH, <- (assoc_L (++)). done.
Qed.

Lemma WriteEvent_text event data :
  WriteEvent event data (mkStream [] []) = (Ok (), mkStream (event_text event (pieces "010" (to_bytes data))) []).
Proof.
  unfold WriteEvent, event_text, bind. destruct (bool_decide (TrimSpace event = "")).
  - unfold ret at 1. rewrite write_all. done.
  - change (stream_context _ (stream_write ?d) (mkStream [] [])) with (Ok () : result (), mkStream ([] ++ d) []).
    cbv iota. rewrite write_all. change (stream_context _ (stream_write ?d) (mkStream ?o [])) with (Ok () : result (), mkStream (o ++ d) []).
    by rewrite <- (assoc_L (++)).
Qed.

(** The lines of data that are read: those before the first that does not fit. *)
Fixpoint fitting (ps : list bytes) : list bytes :=
  match ps with
  | [] => []
  | p :: ps' => if (N.of_nat (length p) + 6 <? max_line)%N then p :: fitting ps' else []
  end.

Lemma data_read ps : Forall data_line ps → Forall (λ p, "010"%char ∉ p) ps →
  omap sse_data (scan_lines max_line (raw_lines (mjoin (data_text <$> ps) ++ line_break))).1 = fitting ps.
Proof.
  intros Hd Hn. induction Hd as [|p ps Hp Hd IH]; [by vm_compute|]. apply Forall_cons in Hn as [Hn Hns].
  change (mjoin (data_text <$> p :: ps) ++ line_break) with ((data_text p ++ mjoin (data_text <$> ps)) ++ line_break).
  unfold data_text at 1. rewrite <- !(assoc_L (++)), (assoc_L (++) (to_bytes "data: ") p).
  change (line_break ++ ?t) with ("010"%char :: t) at 1. rewrite raw_lines_app.
  2:{ rewrite elem_of_app. intros [Hin|]; [|done]. revert Hin. by_evaluation. }
  cbn [scan_lines fitting]. rewrite length_app. change (length (to_bytes "data: ")) with 6.
  replace (N.of_nat (6 + length p)) with (N.of_nat (length p) + 6)%N by lia.
  destruct (_ <? _)%N; [|done]. destruct (scan_lines _ _) as [xs ok] eqn:E. cbn [fst]. cbn [omap list_omap].
  rewrite data_line_no_cr, sse_data_line by done. by rewrite <- IH.
Qed.

Lemma fitting_all ps : Forall fits ps → fitting ps = ps.
Proof.
  induction 1 as [|p ps Hp Hps IH]; [done|]. cbn [fitting]. by rewrite (proj2 (N.ltb_lt _ _) Hp), IH.
Qed.

Lemma fitting_cut before long after : Forall fits before → ¬ fits long → fitting (before ++ long :: after) = before.
Proof.
  intros Hb Hl. induction Hb as [|p ps Hp Hps IH]; cbn [app fitting].
  - destruct (_ <? _)%N eqn:E; [|done]. destruct Hl. by apply N.ltb_lt.
  - by rewrite (proj2 (N.ltb_lt _ _) Hp), IH.
Qed.

Lemma pieces_some c l : ∃ x xs, pieces c l = x :: xs.
Proof. destruct l as [|a l]; cbn [pieces]; [eauto|]. case_bool_decide; [eauto|]. destruct (pieces c l); eauto. Qed.

Lemma join_pieces c l : join_bytes c (pieces c l) = l.
Proof.
  induction l as [|a l IH]; [done|]. cbn [pieces]. destruct (pieces_some c l) as (x & xs & E). rewrite E in *.
  case_bool_decide as Ha; [subst a; by rewrite <- IH|]. destruct xs; by rewrite <- IH.
Qed.

Lemma pieces_clean c l : Forall (λ p, c ∉ p) (pieces c l).
Proof.
  induction l as [|a l IH]; [repeat constructor; by intros ?%elem_of_nil|]. cbn [pieces]. case_bool_decide as E.
  - constructor; [by intros ?%elem_of_nil|done].
  - destruct (pieces_some c l) as (x & xs & E'). rewrite E' in *. apply Forall_cons in IH as [Hx Hxs].
    constructor; [set_solver|done].
Qed.

Lemma event_line_no_data l : sse_data (drop_cr (to_bytes "event: " ++ l)) = None.
Proof.
  unfold drop_cr. destruct (last _) as [a|]; [|done]. case_bool_decide; [|done].
  rewrite length_app. change (length (to_bytes "event: ")) with 7.
  replace (7 + length l - 1) with (S (5 + length l)) by lia. done.
Qed.

(** The events the gateway writes are what the client reads. An event whose
    data has no blank lines and no white space around its lines is read back as the
    same data when each of its lines is shorter than a mebibyte (with the prefix);
    at the first longer line the client stops without an error, and what it
    returns is the data before that line. *)
Theorem sse_read_back event data :
  "010"%char ∉ to_bytes event → (N.of_nat (len event) + 7 < max_line)%N →
  let ps := pieces "010" (to_bytes data) in
  Forall data_line ps →
  let sent := (WriteEvent event data (mkStream [] [])).2.(so_out) in
  (Forall fits ps → extractSSEData sent = to_bytes data) ∧
  (∀ before long after, ps = before ++ long :: after → Forall fits before → ¬ fits long →
     extractSSEData sent = join_bytes "010" before).
Proof.
  intros Hev Hlen ps Hps sent.
  assert (Hread : extractSSEData sent = join_bytes "010" (fitting ps)).
  { unfold sent. rewrite WriteEvent_text. cbn [snd so_out]. fold ps. unfold extractSSEData, event_text. f_equal.
    rewrite <- (data_read ps Hps (pieces_clean _ _)). case_bool_decide; [done|].
    rewrite <- !(assoc_L (++)), (assoc_L (++) (to_bytes "event: ")).
    change (line_break ++ ?t) with ("010"%char :: t) at 1. rewrite raw_lines_app.
    2:{ rewrite elem_of_app. intros [Hin|]; [|done]. revert Hin. by_evaluation. }
    cbn [scan_lines]. rewrite length_app. change (length (to_bytes "event: ")) with 7. unfold len in Hlen.
    rewrite (proj2 (N.ltb_lt _ _)) by lia. destruct (scan_lines _ _) as [xs ok]. cbn [fst omap list_omap].
    rewrite event_line_no_data. done. }
  rewrite Hread. split.
  - intros Hf. rewrite fitting_all by done. apply join_pieces.
  - intros before long after -> Hb Hl. by rewrite fitting_cut.
Qed.

(** ** Requests *)

Section requests.
Context `{UnicodeTables} {G : Type}.
Context (post : string → form → G → HttpAnswer * Z * G).
Context (call : McpRequest → G → option McpResponse * Z * G).
Context (off : Z) (cancelled : option Z).

(** The gateway with the list of the requests it was sent. *)
Definition logged_post (url : string) (f : form) (g : list McpRequest * G) : HttpAnswer * Z * (list McpRequest * G) :=
  let '(answer, took, g') := post url f g.2 in (answer, took, (g.1, g')).
Definition logged_call (r : McpRequest) (g : list McpRequest * G) : option McpResponse * Z * (list McpRequest * G) :=
  let '(answer, took, g') := call r g.2 in (answer, took, (g.1 ++ [r], g')).

Definition sent_so_far (log : list McpRequest) (c : ClientWorld (list McpRequest * G)) : Prop := c.(cl_gateway).1 = log.

Section frame.
Context (log : list McpRequest).
Abbreviation keeps_log := (preserves (sent_so_far log)).

Lemma log_on_disk {A} (m : ST TokenDisk A) : keeps_log (on_disk m).
Proof. intros c Hc. unfold on_disk. by destruct (m _). Qed.
Lemma log_in_context {A} ctx (m : ST (ClientWorld (list McpRequest * G)) A) : keeps_log m → keeps_log (in_context ctx m).
Proof. intros Hm c Hc. specialize (Hm c Hc). unfold in_context. by destruct (m c) as [[|] ?]. Qed.
Lemma log_post url f : keeps_log (PostToGateway logged_post url f).
Proof. intros c Hc. unfold PostToGateway, logged_post. by destruct (post _ _ _) as [[? ?] ?]. Qed.
Lemma log_sleep d : keeps_log (sleep d).
Proof. by intros c Hc. Qed.
Lemma log_wait d : keeps_log (wait_for cancelled d).
Proof. intros c Hc. unfold wait_for. by destruct (is_cancelled _ _). Qed.
#[local] Hint Resolve log_on_disk log_in_context log_post log_sleep log_wait : gateway.

Lemma log_refresh t url id : keeps_log (RefreshAccessToken logged_post off t url id).
Proof. unfold RefreshAccessToken. preserve. Qed.
Lemma log_poll_once baseURL code : keeps_log (pollTokenOnce logged_post off baseURL code).
Proof. unfold pollTokenOnce, saveTokenResponse. preserve. Qed.
#[local] Hint Resolve log_refresh log_poll_once : gateway.

Lemma log_poll_loop fuel baseURL code interval deadline :
  keeps_log (poll_loop logged_post off fuel baseURL code interval deadline).
Proof. induction fuel as [|fuel IH]; cbn [poll_loop]; preserve. Qed.
#[local] Hint Resolve log_poll_loop : gateway.

Lemma log_login baseURL : keeps_log (performLogin logged_post off baseURL).
Proof. unfold performLogin, requestDeviceCode, pollForToken. preserve. Qed.
#[local] Hint Resolve log_login : gateway.

Lemma log_ensure baseURL : keeps_log (ensureValidToken logged_post off baseURL).
Proof. unfold ensureValidToken, loadAndRefreshToken. preserve. Qed.
#[local] Hint Resolve log_ensure : gateway.

Lemma log_response resp baseURL : keeps_log (handleMCPResponse logged_post off cancelled resp baseURL).
Proof. unfold handleMCPResponse, waitForRetryAfter. preserve. Qed.
End frame.

(** The requests of the attempts that are left. *)
Definition requests_of (todo : nat) (baseURL token session : string) (body : bytes) (sent : list McpRequest) : Prop :=
  length sent <= todo ∧ Forall (λ r, r.(mr_Endpoint) = baseURL +:+ "/mcp" ∧ r.(mr_Body) = body) sent ∧
  ∀ r, head sent = Some r → r.(mr_Token) = token ∧ r.(mr_Session) = session.

Lemma requests_cons todo baseURL token token' session session' body sent :
  requests_of todo baseURL token' session' body sent →
  requests_of (S todo) baseURL token session body (mkMcpRequest (baseURL +:+ "/mcp") token session body :: sent).
Proof.
  intros (Hl & Hs & _). split_and!; [cbn; lia|by constructor|]. by intros r [= <-].
Qed.

Lemma attempts_logged todo attempt baseURL token session body lastErr c :
  ∃ sent, (send_attempts logged_post logged_call off cancelled todo attempt baseURL token session body lastErr c).2.(cl_gateway).1 =
            c.(cl_gateway).1 ++ sent ∧ requests_of todo baseURL token session body sent.
Proof.
  assert (Hnone : ∀ (log : list McpRequest) n t s, ∃ sent, log = log ++ sent ∧ requests_of n baseURL t s body sent).
  { intros log n t s. exists []. split; [by rewrite app_nil_r|]. split_and!; [cbn; lia|done|done]. }
  revert attempt token session lastErr c. induction todo as [|todo IH]; intros attempt token session lastErr c; cbn [send_attempts]; [done|].
  assert (Hw : sent_so_far c.(cl_gateway).1 (if attempt =? 0 then (Ok true, c) else wait_for cancelled (Z.of_nat attempt * second) c).2).
  { destruct (attempt =? 0); [done|]. by apply log_wait. }
  destruct (if attempt =? 0 then _ else _) as [[e|[]] c1]; cbn [snd] in Hw; unfold sent_so_far in Hw; [by rewrite <- Hw..| |by rewrite <- Hw].
  case_bool_decide; [by rewrite <- Hw|]. rewrite <- Hw. clear Hw c. unfold CallGateway, logged_call.
  destruct (call _ _) as [[answer took] g]. set (c2 := mkClient _ _ _).
  assert (Hc2 : c2.(cl_gateway).1 = c1.(cl_gateway).1 ++ [mkMcpRequest (baseURL +:+ "/mcp") token session body]) by done.
  assert (Hstep : ∀ n t s e c', c'.(cl_gateway).1 = c2.(cl_gateway).1 → ∃ sent,
    (send_attempts logged_post logged_call off cancelled todo n baseURL t s body e c').2.(cl_gateway).1 = c1.(cl_gateway).1 ++ sent ∧
    requests_of (S todo) baseURL token session body sent).
  { intros n t s e c' Hc'. destruct (IH n t s e c') as (sent & Hs & Hr). eexists. split; [|by eapply requests_cons].
    rewrite Hs, Hc', Hc2, <- (assoc_L (++)). done. }
  assert (Hstop : ∀ c' : ClientWorld (list McpRequest * G), c'.(cl_gateway).1 = c2.(cl_gateway).1 → ∃ sent, c'.(cl_gateway).1 = c1.(cl_gateway).1 ++ sent ∧
    requests_of (S todo) baseURL token session body sent).
  { intros c' Hc'. exists [mkMcpRequest (baseURL +:+ "/mcp") token session body].
    split; [by rewrite Hc'|]. split_and!; [cbn; lia|by repeat constructor|by intros r [= <-]]. }
  clearbody c2. destruct answer as [resp|]; [|by apply Hstep].
  pose proof (log_response c2.(cl_gateway).1 resp baseURL c2 eq_refl) as Hl. unfold sent_so_far in Hl.
  destruct (handleMCPResponse _ _ _ _ _ _) as [[fatal|[result|newToken err]] c3]; cbn [snd] in Hl; [by apply Hstop..|by apply Hstep].
Qed.

(** A line becomes at most three requests, all with the line as their body and
    all to the endpoint of the gateway that was named, whatever the gateway answers
    and wherever a login goes in between; the first carries the token and the
    session given. *)
Theorem requests_bounded baseURL token session body c :
  ∃ sent, (sendMCPRequest logged_post logged_call off cancelled baseURL token session body c).2.(cl_gateway).1 =
            c.(cl_gateway).1 ++ sent ∧ requests_of 3 baseURL token session body sent.
Proof. apply attempts_logged. Qed.

(** *** The cached token *)

(** The file holds tokens that are good for a while. *)
Definition cached_until (t : CachedTokens) (until : Z) (d : TokenDisk) : Prop :=
  LoadTokens d = (Ok t, d) ∧ (until + tokenRefreshWindow <= t.(tk_ExpiresAt))%Z.

Lemma ensure_cached {G'} (post' : string → form → G' → HttpAnswer * Z * G') t until baseURL c :
  cached_until t until c.(cl_disk) → (c.(cl_now) <= until)%Z → ensureValidToken post' off baseURL c = (Ok t, c).
Proof.
  intros [Hload Hexp] Hnow. unfold ensureValidToken, loadAndRefreshToken, attempt, bind, in_context, on_disk.
  rewrite Hload. unfold gets. destruct c as [now disk g]. cbn [cl_now cl_disk cl_gateway] in *.
  assert (Hn : NeedsRefresh now t = false) by (unfold NeedsRefresh; apply Z.ltb_ge; lia).
  by rewrite Hn.
Qed.

Lemma log_grows_lines baseURL lines session c :
  ∃ sent, (proxy_lines logged_post logged_call off cancelled baseURL session lines c).2.(cl_gateway).1 = c.(cl_gateway).1 ++ sent.
Proof.
  revert session c. induction lines as [|line lines IH]; intros session c; cbn [proxy_lines]; [exists []; by rewrite app_nil_r|].
  destruct (is_cancelled _ _); [exists []; by rewrite app_nil_r|]. case_bool_decide; [apply IH|].
  pose proof (log_ensure c.(cl_gateway).1 baseURL c eq_refl) as He. unfold sent_so_far in He.
  destruct (ensureValidToken _ _ _ c) as [[e|t] c1]; cbn [snd] in He; [exists []; by rewrite app_nil_r|].
  destruct (attempts_logged 3 0 baseURL t.(tk_AccessToken) session line None c1) as (sent & Hs & _).
  unfold sendMCPRequest. destruct (send_attempts _ _ _ _ _ _ _ _ _ _ _ _) as [[answer s'] c2]. cbn [snd] in Hs.
  destruct answer as [e|body].
  - destruct (IH session c2) as [more Hm]. exists (sent ++ more). by rewrite Hm, Hs, He, <- (assoc_L (++)).
  - destruct (IH (if bool_decide (s' = "") then session else s') c2) as [more Hm].
    destruct (proxy_lines _ _ _ _ _ _ _ _) as [[out e] c3]. cbn [snd] in *. exists (sent ++ more).
    by rewrite Hm, Hs, He, <- (assoc_L (++)).
Qed.

Lemma first_request baseURL token session body c :
  url_Parse (baseURL +:+ "/mcp") ≠ None → ∃ sent,
  (sendMCPRequest logged_post logged_call off cancelled baseURL token session body c).2.(cl_gateway).1 =
    c.(cl_gateway).1 ++ mkMcpRequest (baseURL +:+ "/mcp") token session body :: sent.
Proof.
  intros Hurl. unfold sendMCPRequest. remember 2 as todo eqn:E. cbn [send_attempts Nat.eqb]. rewrite bool_decide_eq_false_2 by done.
  unfold CallGateway, logged_call at 1. destruct (call _ _) as [[answer took] g]. set (c2 := mkClient _ _ _).
  assert (Hc2 : c2.(cl_gateway).1 = c.(cl_gateway).1 ++ [mkMcpRequest (baseURL +:+ "/mcp") token session body]) by done.
  assert (Happ : ∀ (c' : ClientWorld (list McpRequest * G)) sent, c'.(cl_gateway).1 = c2.(cl_gateway).1 ++ sent → ∃ sent,
    c'.(cl_gateway).1 = c.(cl_gateway).1 ++ mkMcpRequest (baseURL +:+ "/mcp") token session body :: sent).
  { intros c' sent ->. exists sent. by rewrite Hc2, <- (assoc_L (++)). }
  clearbody c2. destruct answer as [resp|].
  - pose proof (log_response c2.(cl_gateway).1 resp baseURL c2 eq_refl) as Hl. unfold sent_so_far in Hl.
    destruct (handleMCPResponse _ _ _ _ _ _) as [[fatal|[result|newToken err]] c3]; cbn [snd] in Hl;
      [apply (Happ _ []); by rewrite app_nil_r..|].
    match goal with |- context [send_attempts _ _ _ _ todo 1 _ ?t ?s _ ?e c3] =>
      destruct (attempts_logged todo 1 baseURL t s body e c3) as (sent & Hs & _) end.
    apply (Happ _ sent). by rewrite Hs, Hl.
  - match goal with |- context [send_attempts _ _ _ _ todo 1 _ ?t ?s _ ?e c2] =>
      destruct (attempts_logged todo 1 baseURL t s body e c2) as (sent & Hs & _) end.
    by apply (Happ _ sent).
Qed.

(** The cached token goes to any gateway. The command sends the first line of
    its input to the gateway it was given with the access token in the file, when
    that is good for a while, whichever gateway the token was issued for. *)
Theorem token_for_any_gateway t baseURL line lines c :
  cached_until t c.(cl_now) c.(cl_disk) → url_Parse (baseURL +:+ "/mcp") ≠ None →
  is_cancelled cancelled c.(cl_now) = false → TrimSpace (of_bytes line) ≠ "" →
  ∃ sent, (proxy_lines logged_post logged_call off cancelled baseURL "" (line :: lines) c).2.(cl_gateway).1 =
    c.(cl_gateway).1 ++ mkMcpRequest (baseURL +:+ "/mcp") t.(tk_AccessToken) "" line :: sent.
Proof.
  intros Ht Hurl Hc Hline. cbn [proxy_lines]. rewrite Hc, bool_decide_eq_false_2 by done.
  rewrite (ensure_cached _ t c.(cl_now)) by (done || lia).
  destruct (first_request baseURL t.(tk_AccessToken) "" line c Hurl) as [sent Hs].
  destruct (sendMCPRequest _ _ _ _ _ _ _ _ _) as [[answer s'] c2]. cbn [snd] in Hs. destruct answer as [e|body].
  - destruct (log_grows_lines baseURL lines "" c2) as [more Hm]. exists (sent ++ more). by rewrite Hm, Hs, <- (assoc_L (++)).
  - destruct (log_grows_lines baseURL lines (if bool_decide (s' = "") then "" else s') c2) as [more Hm].
    destruct (proxy_lines _ _ _ _ _ _ _ _) as [[out e] c3]. cbn [snd] in *. exists (sent ++ more).
    by rewrite Hm, Hs, <- (assoc_L (++)).
Qed.
End requests.

Section rejected.
Context `{UnicodeTables} {G : Type} (post : string → form → G → HttpAnswer * Z * G) (off took : Z).

(** A gateway that answers every request with 401. *)
Definition rejecting (_ : McpRequest) (g : G) : option McpResponse * Z * G :=
  (Some (mkMcpResponse 401 "" "" "" (Some [])), took, g).

Definition with_request (d : Z) (r : McpRequest) (c : ClientWorld (list McpRequest * G)) : ClientWorld (list McpRequest * G) :=
  mkClient (c.(cl_now) + d + Z.max 0 took) c.(cl_disk) (c.(cl_gateway).1 ++ [r], c.(cl_gateway).2).

Lemma rejected_step todo attempt t until baseURL session body e c :
  cached_until t until c.(cl_disk) → url_Parse (baseURL +:+ "/mcp") ≠ None →
  (c.(cl_now) + Z.of_nat attempt * second + Z.max 0 took <= until)%Z →
  send_attempts (logged_post post) (logged_call rejecting) off None (S todo) attempt baseURL t.(tk_AccessToken) session body e c =
  send_attempts (logged_post post) (logged_call rejecting) off None todo (S attempt) baseURL t.(tk_AccessToken) session body
    (Some (Opaque "unauthorized"))
    (with_request (Z.of_nat attempt * second) (mkMcpRequest (baseURL +:+ "/mcp") t.(tk_AccessToken) session body) c).
Proof.
  intros Ht Hurl Hnow. cbn [send_attempts].
  set (c' := with_request _ _ _).
  set (c1 := mkClient (c.(cl_now) + Z.of_nat attempt * second) c.(cl_disk) c.(cl_gateway)).
  replace (if attempt =? 0 then (Ok true, c) else wait_for None (Z.of_nat attempt * second) c) with (Ok true : result bool, c1).
  2:{ unfold c1, wait_for, is_cancelled. destruct (Nat.eqb_spec attempt 0) as [->|Hne].
      - destruct c as [now disk g]. cbn [cl_now cl_disk cl_gateway]. do 2 f_equal. lia.
      - do 2 f_equal. unfold second. lia. }
  rewrite bool_decide_eq_false_2 by done. unfold CallGateway, logged_call at 1, rejecting at 1.
  change (mkClient _ _ _) with c'. cbn [ms_Session]. unfold handleMCPResponse at 1. cbn [ms_Body ms_Status].
  change (401 =? 200)%Z with false. change (401 =? 202)%Z with false. change (401 =? 401)%Z with true. cbv iota.
  unfold bind at 1, in_context at 1. rewrite (ensure_cached off _ t until) by done.
  rewrite bool_decide_eq_true_2 by done. unfold ret at 1. by destruct (bool_decide _).
Qed.

(** A token the gateway rejects is not renewed while the client thinks it is
    good: when the gateway answers 401 every time, and the token in the file does
    not expire soon, all three attempts carry that token, nothing is asked for a new
    one, even with a refresh token in the file, and the request fails. *)
Theorem rejected_token_kept t baseURL session body c :
  cached_until t (c.(cl_now) + 3 * second + 3 * Z.max 0 took) c.(cl_disk) → url_Parse (baseURL +:+ "/mcp") ≠ None →
  let request := mkMcpRequest (baseURL +:+ "/mcp") t.(tk_AccessToken) session body in
  let '((answer, session'), c') :=
    sendMCPRequest (logged_post post) (logged_call rejecting) off None baseURL t.(tk_AccessToken) session body c in
  answer = Err (Wrap "after retries" (Opaque "unauthorized")) ∧ session' = session ∧
  c'.(cl_gateway) = (c.(cl_gateway).1 ++ replicate 3 request, c.(cl_gateway).2) ∧ c'.(cl_disk) = c.(cl_disk).
Proof.
  intros Ht Hurl request. unfold sendMCPRequest.
  do 3 (rewrite (rejected_step _ _ t (c.(cl_now) + 3 * second + 3 * Z.max 0 took)); [|done|done|unfold with_request, second; cbn [cl_now]; lia]).
  cbn [send_attempts with_request cl_gateway cl_disk fst snd]. fold request. split_and!; [done..| |done].
  by rewrite <- !(assoc_L (++)).
Qed.
End rejected.

(** ** Instances *)

#[local] Existing Instance ascii_tables.

Lemma sse_read_back_witness :
  extractSSEData (WriteEvent "tool_result" "{}" (mkStream [] [])).2.(so_out) = to_bytes "{}".
Proof.
  assert (Hd : Forall data_line (pieces "010" (to_bytes "{}"))).
  { apply Forall_singleton. split; by vm_compute. }
  assert (Hf : Forall fits (pieces "010" (to_bytes "{}"))) by (apply Forall_singleton; by vm_compute).
  exact (proj1 (sse_read_back "tool_result" "{}" ltac:(by_evaluation) ltac:(by vm_compute) Hd) Hf).
Defined.

(** A file with tokens of one gateway, and the command run against another. *)
Definition home_tokens : CachedTokens := mkTokens "secret" "renew" "" "Bearer" (3600 * second) "https://home.example".
Definition home_disk : TokenDisk := (SaveTokens 0 home_tokens (mkDisk true None None [])).2.
Definition home_client : ClientWorld (list McpRequest * ()) := mkClient 0 home_disk ([], ()).
Definition silent_post (_ : string) (_ : form) (g : ()) : HttpAnswer * Z * () := (NoAnswer, 0%Z, g).

Lemma home_cached until : (until <= 3300 * second)%Z → cached_until home_tokens until home_disk.
Proof. intros Hu. split; [by vm_compute|]. unfold home_tokens, tokenRefreshWindow, minute, second in *. cbn [tk_ExpiresAt]. lia. Qed.

Lemma token_for_any_gateway_witness : ∃ sent,
  (proxy_lines (logged_post silent_post) (logged_call (rejecting 0)) 0 None "https://other.example" "" [to_bytes "{}"] home_client).2.(cl_gateway).1 =
  mkMcpRequest "https://other.example/mcp" "secret" "" (to_bytes "{}") :: sent.
Proof.
  destruct (token_for_any_gateway silent_post (rejecting 0) 0 None home_tokens "https://other.example" (to_bytes "{}") [] home_client)
    as [sent Hs]; [by apply home_cached|by vm_compute..|]. exists sent. exact Hs.
Defined.

Lemma rejected_token_kept_witness :
  (sendMCPRequest (logged_post silent_post) (logged_call (rejecting 0)) 0 None "https://home.example"
     home_tokens.(tk_AccessToken) "" (to_bytes "{}") home_client).2.(cl_gateway).1 =
  replicate 3 (mkMcpRequest "https://home.example/mcp" "secret" "" (to_bytes "{}")).
Proof.
  assert (Ht : cached_until home_tokens (home_client.(cl_now) + 3 * second + 3 * Z.max 0 0) home_client.(cl_disk)).
  { apply home_cached. by vm_compute. }
  pose proof (rejected_token_kept silent_post 0 0 home_tokens "https://home.example" "" (to_bytes "{}") home_client
    Ht ltac:(by vm_compute)) as H.
  destruct (sendMCPRequest _ _ _ _ _ _ _ _ _) as [[answer session] c']. destruct H as (_ & _ & Hg & _). cbn [snd].
  rewrite Hg. reflexivity.
Defined.
