(* ===== verification/Flags.v ===== *)
(** * Command-line flags: the package [flag]

    [strconv.ParseInt] with base 0, which reads the values of integer flags, and
    [FlagSet.Parse], with the order in which it looks at the arguments: flags up to
    the first argument that is none, or up to [--]. At the end: arguments written
    in the documented forms are read back. *)

From S2P Require Import Prelude GoStrings GoNet GoParse.

#[local] Open Scope string_scope.
#[local] Open Scope list_scope.
#[local] Open Scope nat_scope.
#[local] Open Scope go_scope.

(** ** [strconv.ParseInt (s, 0, 64)] *)

(** [lower]: the bit that tells the cases apart is set. *)
Definition lower_bit (a : ascii) : N := N.lor (code a) 32.
Definition underscore_char : ascii := "_".
Definition zero_char : ascii := "0".

(** The digits after the prefix; underscores are skipped. *)
Fixpoint digits_in (base acc : N) (l : bytes) : option N :=
  match l with
  | [] => Some acc
  | a :: l' =>
      if bool_decide (a = underscore_char) then digits_in base acc l'
      else
        let d :=
          if in_range 48 (code a) 57 then Some (code a - 48)%N
          else if in_range 97 (lower_bit a) 122 then Some (lower_bit a - 97 + 10)%N
          else None in
        match d with
        | Some d => if (d <? base)%N then digits_in base (acc * base + d)%N l' else None
        | None => None
        end
  end.

(** The base a prefix stands for, and what follows it. *)
Definition base_of (l : bytes) : N * bytes :=
  match l with
  | z :: (b :: rest) as l' =>
      if bool_decide (z = zero_char) then
        if negb (bool_decide (rest = [])) && (lower_bit b =? 98)%N then (2%N, rest)
        else if negb (bool_decide (rest = [])) && (lower_bit b =? 111)%N then (8%N, rest)
        else if negb (bool_decide (rest = [])) && (lower_bit b =? 120)%N then (16%N, rest)
        else (8%N, l')
      else (10%N, l)
  | [z] => if bool_decide (z = zero_char) then (8%N, []) else (10%N, l)
  | [] => (10%N, [])
  end.

(** [underscoreOK], after the sign: underscores stand between digits, or between
    the prefix and a digit. [seen] is the last character: a digit, an underscore,
    or neither. *)
Inductive seen := SeenDigit | SeenUnderscore | SeenOther.
Fixpoint underscores_between (hex : bool) (saw : seen) (l : bytes) : bool :=
  match l with
  | [] => match saw with SeenUnderscore => false | _ => true end
  | a :: l' =>
      if in_range 48 (code a) 57 || hex && in_range 97 (lower_bit a) 102 then underscores_between hex SeenDigit l'
      else if bool_decide (a = underscore_char) then
        match saw with SeenDigit => underscores_between hex SeenUnderscore l' | _ => false end
      else match saw with SeenUnderscore => false | _ => underscores_between hex SeenOther l' end
  end.
Definition underscoreOK (l : bytes) : bool :=
  match l with
  | z :: b :: rest =>
      if bool_decide (z = zero_char)
         && ((lower_bit b =? 98)%N || (lower_bit b =? 111)%N || (lower_bit b =? 120)%N)
      then underscores_between (lower_bit b =? 120)%N SeenDigit rest
      else underscores_between false SeenOther l
  | _ => underscores_between false SeenOther l
  end.

Definition ParseInt0 (s : string) : option Z :=
  let magnitude l :=
    match l with
    | [] => None
    | _ =>
        let '(base, rest) := base_of l in
        match digits_in base 0 rest with
        | Some n => if bool_decide (underscore_char ∈ l) && negb (underscoreOK l) then None else Some (Z.of_N n)
        | None => None
        end
    end in
  let v :=
    match to_bytes s with
    | [] => None
    | a :: rest =>
        if bool_decide (a = "+"%char) then magnitude rest
        else if bool_decide (a = "-"%char) then Z.opp <$> magnitude rest
        else magnitude (a :: rest)
    end in
  match v with
  | Some z => if (min_int64 <=? z)%Z && (z <=? max_int64)%Z then Some z else None
  | None => None
  end.

Lemma ParseInt0_range s z : ParseInt0 s = Some z → int64_range z.
Proof.
  unfold ParseInt0. destruct (match to_bytes s with [] => _ | _ :: _ => _ end) as [v|]; [|done].
  destruct (_ && _) eqn:E; [|done]. intros [= <-]. apply andb_true_iff in E as [? ?].
  unfold int64_range. lia.
Qed.

Example parse_int_bases :
  ParseInt0 <$> ["12"; "-0x1F"; "0b101"; "017"; "0"; "1_000"; "0x_f"; "+7"] =
  [Some 12%Z; Some (-31)%Z; Some 5%Z; Some 15%Z; Some 0%Z; Some 1000%Z; Some 15%Z; Some 7%Z].
Proof. by vm_compute. Qed.
Example parse_int_errors :
  ParseInt0 <$> [""; "-"; "0x"; "08"; "1__0"; "_1"; "1_"; "9223372036854775808"; "1e3"; " 1"] =
  replicate 10 None.
Proof. by vm_compute. Qed.
Example parse_int_least : ParseInt0 "-9223372036854775808" = Some min_int64.
Proof. by vm_compute. Qed.

(** ** [FlagSet.Parse] *)

Inductive FlagValue := FString (s : string) | FInt (z : Z) | FBool (b : bool).

(** The flags that are defined, with their values so far. *)
Definition flags : Type := gmap string FlagValue.

(** [Value.Set]: the kind of a flag stays. *)
Definition flag_set (v : FlagValue) (text : string) : option FlagValue :=
  match v with
  | FString _ => Some (FString text)
  | FInt _ => FInt <$> ParseInt0 text
  | FBool _ => FBool <$> ParseBool text
  end.

Definition is_bool_flag (v : FlagValue) : bool := match v with FBool _ => true | _ => false end.

(** [flag.ErrHelp]. *)
Definition ErrHelp : error := Sentinel "flag: help requested".

(** How [parseOne] reads an argument. *)
Inductive argument :=
| NoFlag
| Terminator
| BadSyntax
| AFlag (name : string) (value : option string).

Definition minus : ascii := "-".
Definition equals : ascii := "=".

Definition read_argument (s : string) : argument :=
  match to_bytes s with
  | a :: b :: rest =>
      if negb (bool_decide (a = minus)) then NoFlag
      else if bool_decide (b = minus) && bool_decide (rest = []) then Terminator
      else
        let name := if bool_decide (b = minus) then rest else b :: rest in
        match name with
        | c :: more =>
            if bool_decide (c = minus) || bool_decide (c = equals) then BadSyntax
            else
              match cut [equals] more with
              | Some (n, v) => AFlag (of_bytes (c :: n)) (Some (of_bytes v))
              | None => AFlag (of_bytes name) None
              end
        | [] => BadSyntax
        end
  | _ => NoFlag
  end.

(** The flags after all of them are read, and the other arguments. *)
Fixpoint Parse (fs : flags) (args : list string) : result (flags * list string) :=
  match args with
  | [] => Ok (fs, [])
  | s :: args' =>
      match read_argument s with
      | NoFlag => Ok (fs, args)
      | Terminator => Ok (fs, args')
      | BadSyntax => Err (Opaque ("bad flag syntax: " +:+ s))
      | AFlag name value =>
          match fs !! name with
          | None =>
              if bool_decide (name = "help") || bool_decide (name = "h") then Err ErrHelp
              else Err (Opaque ("flag provided but not defined: -" +:+ name))
          | Some old =>
              if is_bool_flag old then
                match flag_set old (default "true" value) with
                | Some v => Parse (<[name := v]> fs) args'
                | None => Err (Opaque ("invalid boolean value for -" +:+ name))
                end
              else
                match value, args' with
                | Some text, _ =>
                    match flag_set old text with
                    | Some v => Parse (<[name := v]> fs) args'
                    | None => Err (Opaque ("invalid value for flag -" +:+ name))
                    end
                | None, text :: args'' =>
                    match flag_set old text with
                    | Some v => Parse (<[name := v]> fs) args''
                    | None => Err (Opaque ("invalid value for flag -" +:+ name))
                    end
                | None, [] => Err (Opaque ("flag needs an argument: -" +:+ name))
                end
          end
      end
  end.

(** The values of the flags, as the variables of a command. *)
Definition get_string (fs : flags) (name : string) : string :=
  match fs !! name with Some (FString s) => s | _ => "" end.
Definition get_int (fs : flags) (name : string) : Z :=
  match fs !! name with Some (FInt z) => z | _ => 0%Z end.
Definition get_bool (fs : flags) (name : string) : bool :=
  match fs !! name with Some (FBool b) => b | _ => false end.

(** ** Arguments are read back

    The three documented forms, with one or two hyphens. *)
Inductive written := Joined (name text : string) | Apart (name text : string) | Switch (name : string).

Definition w_name (w : written) : string := match w with Joined n _ | Apart n _ | Switch n => n end.
Definition w_text (w : written) : string := match w with Joined _ t | Apart _ t => t | Switch _ => "true" end.

Definition write_flag (dashes : string) (w : written) : list string :=
  match w with
  | Joined n t => [dashes +:+ n +:+ "=" +:+ t]
  | Apart n t => [dashes +:+ n; t]
  | Switch n => [dashes +:+ n]
  end.

(** A name as it can be written: it does not start with a hyphen and has no [=]. *)
Definition flag_name (n : string) : bool :=
  match to_bytes n with
  | [] => false
  | a :: _ => negb (bool_decide (a = minus)) && negb (bool_decide (equals ∈ to_bytes n))
  end.

(** A switch is how a boolean flag is set without a value, and the only kind of
    flag that cannot take the next argument. *)
Definition form_fits (w : written) (v : FlagValue) : bool :=
  match w with Joined _ _ => true | Apart _ _ => negb (is_bool_flag v) | Switch _ => is_bool_flag v end.

(** The effect of the flags, one after the other. *)
Fixpoint apply_flags (fs : flags) (l : list written) : option flags :=
  match l with
  | [] => Some fs
  | w :: l' =>
      match fs !! w_name w with
      | Some old =>
          if form_fits w old then
            match flag_set old (w_text w) with Some v => apply_flags (<[w_name w := v]> fs) l' | None => None end
          else None
      | None => None
      end
  end.

Definition dashes_ok (d : string) : Prop := d = "-" ∨ d = "--".

(** The bytes of a name. *)
Lemma flag_name_bytes n : flag_name n = true →
  ∃ a l, to_bytes n = a :: l ∧ a ≠ minus ∧ a ≠ equals ∧ equals ∉ l.
Proof.
  unfold flag_name. destruct (to_bytes n) as [|a l]; [done|]. intros [Ha He]%andb_true_iff.
  apply negb_true_iff, bool_decide_eq_false in Ha. apply negb_true_iff, bool_decide_eq_false in He.
  apply not_elem_of_cons in He as [He Hl]. exists a, l. split_and!; [done|done|congruence|done].
Qed.

Lemma read_dashes d n a l : dashes_ok d → to_bytes n = a :: l → a ≠ minus → a ≠ equals →
  read_argument (d +:+ n) =
    match cut [equals] l with
    | Some (x, v) => AFlag (of_bytes (a :: x)) (Some (of_bytes v))
    | None => AFlag n None
    end.
Proof.
  intros Hd En Ha He. unfold read_argument. rewrite to_bytes_app, En.
  assert (Hn : of_bytes (a :: l) = n) by (by rewrite <- En, of_to_bytes).
  destruct Hd as [-> | ->]; cbn [to_bytes String.list_ascii_of_string app].
  - rewrite (bool_decide_eq_true_2 (_ = minus)) by done. rewrite (bool_decide_eq_false_2 (a = minus)) by done.
    cbn [negb andb orb]. rewrite ?(bool_decide_eq_false_2 (a = minus)) by done. rewrite (bool_decide_eq_false_2 (a = equals)) by done. cbn [orb]. by rewrite Hn.
  - rewrite !(bool_decide_eq_true_2 ("-"%char = minus)) by done. rewrite (bool_decide_eq_false_2 (a = minus)) by done.
    cbn [negb andb orb]. rewrite ?(bool_decide_eq_false_2 (a = minus)) by done. rewrite (bool_decide_eq_false_2 (a :: l = [])), (bool_decide_eq_false_2 (a = equals)) by done.
    cbn [orb]. by rewrite Hn.
Qed.

Lemma read_plain d n : dashes_ok d → flag_name n = true → read_argument (d +:+ n) = AFlag n None.
Proof.
  intros Hd (a & l & En & Ha & He & Hl)%flag_name_bytes. rewrite (read_dashes d n a l) by done.
  by rewrite cut_absent.
Qed.

Lemma read_joined d n t : dashes_ok d → flag_name n = true → read_argument (d +:+ n +:+ "=" +:+ t) = AFlag n (Some t).
Proof.
  intros Hd (a & l & En & Ha & He & Hl)%flag_name_bytes.
  rewrite (read_dashes d _ a (l ++ equals :: to_bytes t)) by (by rewrite ?to_bytes_app, ?En).
  rewrite cut_at by done. by rewrite <- En, !of_to_bytes.
Qed.

(** What stops the flags, and what is left. *)
Definition stops (rest : list string) : Prop :=
  match rest with [] => True | s :: _ => s = "--" ∨ read_argument s = NoFlag end.
Definition positional (rest : list string) : list string :=
  match rest with s :: more => if bool_decide (s = "--") then more else rest | [] => [] end.

Lemma Parse_stops fs rest : stops rest → Parse fs rest = Ok (fs, positional rest).
Proof.
  destruct rest as [|s more]; [done|]. intros [-> | Hs]; [done|]. cbn [Parse positional]. rewrite Hs.
  case_bool_decide; [|done]. by subst s.
Qed.

Lemma Parse_written fs d w old v rest : dashes_ok d → flag_name (w_name w) = true →
  fs !! w_name w = Some old → form_fits w old = true → flag_set old (w_text w) = Some v →
  Parse fs (write_flag d w ++ rest) = Parse (<[w_name w := v]> fs) rest.
Proof.
  intros Hd Hn Hold Hfit Hv. destruct w as [n t|n t|n]; cbn [write_flag app w_name w_text form_fits Parse] in *.
  - rewrite read_joined, Hold by done. cbn [default from_option id]. rewrite Hv. by destruct (is_bool_flag old).
  - rewrite read_plain, Hold by done. apply negb_true_iff in Hfit. by rewrite Hfit, Hv.
  - rewrite read_plain, Hold, Hfit by done. cbn [default from_option id]. by rewrite Hv.
Qed.

(** Command lines are read as they are documented. Flags written as [-name=text],
    [-name text] or, for switches, [-name], with one or two hyphens, in any number and
    order, take effect in that order, and the arguments after them are the positional
    ones: what starts with no hyphen, or follows [--]. *)
Theorem flags_read_back fs fs' (l : list (string * written)) rest :
  Forall (λ p, dashes_ok p.1 ∧ flag_name (w_name p.2) = true) l →
  apply_flags fs (snd <$> l) = Some fs' → stops rest →
  Parse fs (mjoin ((λ p, write_flag p.1 p.2) <$> l) ++ rest) = Ok (fs', positional rest).
Proof.
  intros Hl. revert fs. induction Hl as [|[d w] l [Hd Hn] _ IH]; intros fs Ha Hs.
  - injection Ha as <-. by apply Parse_stops.
  - cbn in Ha, Hd, Hn |- *. destruct (fs !! w_name w) as [old|] eqn:Hold; [|done].
    destruct (form_fits w old) eqn:Hfit; [|done]. destruct (flag_set old (w_text w)) as [v|] eqn:Hv; [|done].
    rewrite <- (assoc_L (++)). rewrite (Parse_written fs d w old v) by done. by apply IH.
Qed.

Lemma flags_read_back_witness :
  Parse {[ "rate-limit" := FInt 0; "mode" := FString ""; "force" := FBool false ]}
    ["--rate-limit"; "0x20"; "-mode=a=b"; "--force"; "--"; "-x"] =
  Ok (<["force" := FBool true]> (<["mode" := FString "a=b"]> (<["rate-limit" := FInt 32]>
        {[ "rate-limit" := FInt 0; "mode" := FString ""; "force" := FBool false ]})), ["-x"]).
Proof.
  apply (flags_read_back _ _ [("--", Apart "rate-limit" "0x20"); ("-", Joined "mode" "a=b"); ("--", Switch "force")] ["--"; "-x"]).
  - repeat apply Forall_cons_2; [split; [by right|done]|split; [by left|done]|split; [by right|done]|by apply Forall_nil_2].
  - reflexivity.
  - by left.
Defined.
