(* ===== verification/RemoteKeys.v ===== *)
(** * API keys over HTTP: [cmd/mcpgw/apikey_remote.go], [internal/server/apikey_api.go]

    Both ends of the requests with which the command line manages the keys of a
    remote gateway: the bodies the endpoint reads and writes, the list of the keys,
    and the commands that send the requests and print the answers. *)

From stdpp Require Import pretty.
From S2P Require Import Prelude GoStrings Encoding GoNet Json GoParse Document JsonText Codec Types Store AccessStore Auth.
From S2P Require Import Forms DeviceFlow Client.

#[local] Open Scope string_scope.
#[local] Open Scope list_scope.
#[local] Open Scope nat_scope.
#[local] Open Scope go_scope.

(** ** The endpoint *)

(** [ORDER BY created_at DESC]. *)
Definition newer_key (a b : APIKey) : Prop := (b.(ak_CreatedAt) <= a.(ak_CreatedAt))%Z.
#[export] Instance newer_key_dec : RelDecision newer_key.
Proof. unfold newer_key. intros a b. apply _. Defined.
#[export] Instance newer_key_total : Total newer_key.
Proof. intros a b. unfold newer_key. lia. Qed.

(** [PostgresAPIKeyStore.List]: expired and revoked keys too. *)
Definition KeyList : ST AccessDB (list APIKey) :=
  AccessStore.in_context "api key store" (AccessStore.exec (λ db, (Ok (merge_sort newer_key (map_to_list db.(ac_keys)).*2), db))).

(** [t.UTC().Format(time.RFC3339)] and [formatTimePtr]. *)
Definition utc_text (t : Z) : string := FormatRFC3339 false 0 t.
Definition formatTimePtr (t : option Z) : option string := utc_text <$> t.

(** [apiKeyView]. *)
Record apiKeyView := mkKeyView {
  kv_ID : string;
  kv_Name : string;
  kv_ClientID : string;
  kv_Scopes : list string;
  kv_PolicyProfile : string;
  kv_ServerScope : list string;
  kv_ExpiresAt : option string;
  kv_CreatedAt : string;
}.

Definition key_view (k : APIKey) : apiKeyView :=
  mkKeyView k.(ak_ID) k.(ak_Name) k.(ak_ClientID) k.(ak_Scopes) k.(ak_PolicyProfile) k.(ak_ServerScope)
    (formatTimePtr k.(ak_ExpiresAt)) (utc_text k.(ak_CreatedAt)).

(** [handleList]: the views, or the error it answers. *)
Definition handleList (db : AccessDB) : result (list apiKeyView) * AccessDB :=
  match KeyList db with
  | (Ok keys, db) => (Ok (key_view <$> keys), db)
  | (Err _, db) => (Err (Opaque "failed to list api keys"), db)
  end.

(** The members of the documents, in the order of the fields. *)
Definition texts (l : list string) : document := AArr (AStr <$> l).
Definition nullable (t : option string) : document := match t with Some s => AStr s | None => ANil end.
Definition view_members (v : apiKeyView) : list (string * document) :=
  [("id", AStr v.(kv_ID)); ("name", AStr v.(kv_Name)); ("client_id", AStr v.(kv_ClientID));
   ("scopes", texts v.(kv_Scopes)); ("profile", AStr v.(kv_PolicyProfile)); ("server_scope", texts v.(kv_ServerScope));
   ("expires_at", nullable v.(kv_ExpiresAt)); ("created_at", AStr v.(kv_CreatedAt))].
Definition created_document (r : createAPIKeyAPIResponse) : document :=
  AObj (view_members (key_view r.(ca_Record)) ++ [("api_key", AStr r.(ca_APIKey))]).

(** [writeJSON]: the encoder ends the document with a line break. *)
Definition write_json (v : document) : bytes := json_print v ++ line_break.

Definition encode_answer (a : KeyAnswer) : Z * bytes :=
  match a with
  | KeyError code message => (code, write_json (AObj [("error", AStr message)]))
  | KeyCreated resp => (201%Z, write_json (created_document resp))
  | KeyRevoked id => (200%Z, write_json (AObj [("id", AStr id); ("status", AStr "revoked")]))
  end.
Definition encode_list (r : result (list apiKeyView)) : Z * bytes :=
  match r with
  | Ok views => (200%Z, write_json (AArr ((λ v, AObj (view_members v)) <$> views)))
  | Err _ => (500%Z, write_json (AObj [("error", AStr "failed to list api keys")]))
  end.

Section decode.
Context `{UnicodeTables}.

(** The body of a request for a key: [json.NewDecoder(r.Body).Decode]. *)
Definition no_request : createAPIKeyAPIRequest := mkCreateRequest "" [] "" "" "" [].
Definition request_fields : list (string * decoder_of string createAPIKeyAPIRequest) :=
  [("name", field cr_Name (λ x r, mkCreateRequest x r.(cr_Scopes) r.(cr_Expires) r.(cr_ClientID) r.(cr_Profile) r.(cr_ServerScope)) d_string);
   ("scopes", field cr_Scopes (λ x r, mkCreateRequest r.(cr_Name) x r.(cr_Expires) r.(cr_ClientID) r.(cr_Profile) r.(cr_ServerScope)) (d_slice d_string ""));
   ("expires", field cr_Expires (λ x r, mkCreateRequest r.(cr_Name) r.(cr_Scopes) x r.(cr_ClientID) r.(cr_Profile) r.(cr_ServerScope)) d_string);
   ("client_id", field cr_ClientID (λ x r, mkCreateRequest r.(cr_Name) r.(cr_Scopes) r.(cr_Expires) x r.(cr_Profile) r.(cr_ServerScope)) d_string);
   ("profile", field cr_Profile (λ x r, mkCreateRequest r.(cr_Name) r.(cr_Scopes) r.(cr_Expires) r.(cr_ClientID) x r.(cr_ServerScope)) d_string);
   ("server_scope", field cr_ServerScope (λ x r, mkCreateRequest r.(cr_Name) r.(cr_Scopes) r.(cr_Expires) r.(cr_ClientID) r.(cr_Profile) x) (d_slice d_string ""))].
Definition decode_request (body : bytes) : option createAPIKeyAPIRequest :=
  v ← json_first (of_bytes body); unmarshal (d_struct request_fields) v no_request.

End decode.

(** [Routes], and [MountAPIKeyAPI], which puts the authentication of the proxy in front:
    the answers of the endpoint. *)
Inductive KeyRoute := RouteCreate (body : bytes) | RouteList | RouteRevoke (id : string).

Definition MountAPIKeyAPI `{UnicodeTables} `{Bcrypt} `{Postgres} (opts : AuthOptions) (now : Z) (random : option bytes)
    (salt : nat) (req : AuthRequest) (route : KeyRoute) (db : AccessDB) : (Z * bytes) * AccessDB :=
  match AuthMiddleware opts now req db with
  | (AuthReject code message, db) => ((code, write_json (AObj [("error", AStr message)])), db)
  | (AuthNext _ _ _, db) =>
      match route with
      | RouteCreate body => let '(a, db) := handleCreate now random salt (decode_request body) db in (encode_answer a, db)
      | RouteList => let '(l, db) := handleList db in (encode_list l, db)
      | RouteRevoke id => let '(a, db) := handleRevoke id db in (encode_answer a, db)
      end
  end.

(** ** The commands *)

(** What a command prints: lines, the cells of a table that [tabwriter] aligns, and
    values the JSON encoder writes with indentation. A nil slice is the empty list. *)
Record remoteKeyView := mkRemoteView {
  rv_ID : string;
  rv_Name : string;
  rv_ClientID : string;
  rv_Scopes : list string;
  rv_PolicyProfile : string;
  rv_ExpiresAt : option string;
  rv_CreatedAt : string;
}.
Inductive output :=
| Line (text : string)
| Table (rows : list (list string))
| Json (v : document)
| RemoteViews (l : list remoteKeyView)
| RecordsJSON (l : list ServerRecord)
| RecordJSON (r : ServerRecord)
| ClassificationsJSON (l : list ToolClassification).

(** [parseScopes]: the loop is that of [dedupeScopes]. *)
Definition parseScopes (raw : string) : list string := merge_scopes [] (Split raw ",").

(** [remoteCreateRequest]: its document. *)
Record remoteCreateRequest := mkRemoteCreate {
  rq_Name : string;
  rq_Scopes : list string;
  rq_Expires : string;
  rq_ClientID : string;
  rq_Profile : string;
}.
Definition remote_document (r : remoteCreateRequest) : document :=
  AObj ([("name", AStr r.(rq_Name)); ("scopes", texts r.(rq_Scopes))] ++ omitempty "expires" r.(rq_Expires) ++
        omitempty "client_id" r.(rq_ClientID) ++ omitempty "profile" r.(rq_Profile)).

(** A pointer to a text: [null] makes it nil. *)
Definition d_text_ptr {N} : decoder_of N (option string) := λ v cur,
  match v with AStr s => (Some s, true) | ANil => (None, true) | _ => (cur, false) end.

(** [remoteCreateResponse] is a view and the key. *)
Record remoteCreateResponse := mkRemoteResponse { rr_View : remoteKeyView; rr_APIKey : string }.
Definition no_view : remoteKeyView := mkRemoteView "" "" "" [] "" None "".

Section views.
Context `{UnicodeTables}.

Definition remote_view_fields : list (string * decoder_of string remoteKeyView) :=
  [("id", field rv_ID (λ x v, mkRemoteView x v.(rv_Name) v.(rv_ClientID) v.(rv_Scopes) v.(rv_PolicyProfile) v.(rv_ExpiresAt) v.(rv_CreatedAt)) d_string);
   ("name", field rv_Name (λ x v, mkRemoteView v.(rv_ID) x v.(rv_ClientID) v.(rv_Scopes) v.(rv_PolicyProfile) v.(rv_ExpiresAt) v.(rv_CreatedAt)) d_string);
   ("client_id", field rv_ClientID (λ x v, mkRemoteView v.(rv_ID) v.(rv_Name) x v.(rv_Scopes) v.(rv_PolicyProfile) v.(rv_ExpiresAt) v.(rv_CreatedAt)) d_string);
   ("scopes", field rv_Scopes (λ x v, mkRemoteView v.(rv_ID) v.(rv_Name) v.(rv_ClientID) x v.(rv_PolicyProfile) v.(rv_ExpiresAt) v.(rv_CreatedAt)) (d_slice d_string ""));
   ("profile", field rv_PolicyProfile (λ x v, mkRemoteView v.(rv_ID) v.(rv_Name) v.(rv_ClientID) v.(rv_Scopes) x v.(rv_ExpiresAt) v.(rv_CreatedAt)) d_string);
   ("expires_at", field rv_ExpiresAt (λ x v, mkRemoteView v.(rv_ID) v.(rv_Name) v.(rv_ClientID) v.(rv_Scopes) v.(rv_PolicyProfile) x v.(rv_CreatedAt)) d_text_ptr);
   ("created_at", field rv_CreatedAt (λ x v, mkRemoteView v.(rv_ID) v.(rv_Name) v.(rv_ClientID) v.(rv_Scopes) v.(rv_PolicyProfile) v.(rv_ExpiresAt) x) d_string)].
Definition remote_response_fields : list (string * decoder_of string remoteCreateResponse) :=
  ((λ p, (p.1, field rr_View (λ x r, mkRemoteResponse x r.(rr_APIKey)) p.2)) <$> remote_view_fields) ++
  [("api_key", field rr_APIKey (λ x r, mkRemoteResponse r.(rr_View) x) d_string)].
Definition d_remote_response : decoder_of string remoteCreateResponse := d_struct remote_response_fields.
Definition d_remote_views : decoder_of string (list remoteKeyView) := d_slice (d_struct remote_view_fields) no_view.

(** [json.Unmarshal] of a body. *)
Definition unmarshal_body {A} (d : decoder_of string A) (zero : A) (body : bytes) : option A :=
  v ← json_parse (of_bytes body); unmarshal d v zero.

End views.

(** A request to the gateway, and what comes back: nothing, or a status and the body
    unless reading it fails. *)
Record KeyRequest := mkKeyRequest {
  kq_Method : string;
  kq_URL : string;
  kq_Token : string;
  kq_Body : option bytes;
}.
Definition KeyResponse : Type := option (Z * option bytes).

Section remote.
Context `{UnicodeTables} {G : Type}.
Context (post : string → form → G → HttpAnswer * Z * G).
Context (send : KeyRequest → G → KeyResponse * Z * G).
Context (off : Z).
Abbreviation Client := (ClientWorld G).

(** [apiKeyHTTPRequest]. *)
Definition apiKeyHTTPRequest (method url : string) (body : option bytes) : ST Client (Z * option bytes) :=
  let* t := DeviceFlow.in_context "load auth tokens" (loadAndRefreshToken post off) in
  if bool_decide (url_Parse url = None) then throw (Opaque "build request")
  else λ c,
    let '(answer, took, g) := send (mkKeyRequest method url t.(tk_AccessToken) body) c.(cl_gateway) in
    (match answer with
     | None => Err (Opaque "request failed")
     | Some (status, body) =>
         if (status =? 401)%Z then Err (Opaque "unauthorized: access token may be expired (run 'mcpgw auth login')")
         else Ok (status, body)
     end, mkClient (c.(cl_now) + Z.max 0 took) c.(cl_disk) g).

(** The body of an answer that has the expected status. *)
Definition expect_status (what : string) (code : Z) (resp : Z * option bytes) : result bytes :=
  match resp.2 with
  | None => Err (Opaque "read response")
  | Some body =>
      if negb (resp.1 =? code)%Z
      then Err (Opaque (what +:+ ": server returned " +:+ pretty resp.1 +:+ ": " +:+ of_bytes body))
      else Ok body
  end.

(** [remoteAPIKeyCreate]. *)
Definition remoteAPIKeyCreate (baseURL name scopesRaw expires clientID profile : string) : ST Client (list output) :=
  let trimmedName := TrimSpace name in
  if bool_decide (trimmedName = "") then throw (Opaque "apikey create requires --name")
  else
    let scopes := parseScopes scopesRaw in
    if bool_decide (scopes = []) then throw (Opaque "apikey create requires at least one scope")
    else
      let reqBody := mkRemoteCreate trimmedName scopes (TrimSpace expires) (TrimSpace clientID) (TrimSpace profile) in
      let* resp := apiKeyHTTPRequest "POST" (baseURL +:+ "/v1/apikeys") (Some (json_print (remote_document reqBody))) in
      let* respBody := of_result (expect_status "create api key" 201 resp) in
      match unmarshal_body d_remote_response (mkRemoteResponse no_view "") respBody with
      | None => throw (Opaque "decode create response")
      | Some result =>
          ret [Line ("ID: " +:+ result.(rr_View).(rv_ID)); Line ("Name: " +:+ result.(rr_View).(rv_Name));
               Line ("Client ID: " +:+ result.(rr_View).(rv_ClientID));
               Line ("Expires At: " +:+ default "never" result.(rr_View).(rv_ExpiresAt));
               Line ("API Key: " +:+ result.(rr_APIKey))]
      end.

(** [remoteAPIKeyListTable]: the cells of the table. *)
Definition remoteAPIKeyListTable (keys : list remoteKeyView) : list (list string) :=
  ["ID"; "NAME"; "CLIENT_ID"; "SCOPES"; "EXPIRES_AT"; "CREATED_AT"] ::
  ((λ k, [k.(rv_ID); k.(rv_Name); k.(rv_ClientID); String.concat "," k.(rv_Scopes);
          default "never" k.(rv_ExpiresAt); k.(rv_CreatedAt)]) <$> keys).

(** [remoteAPIKeyList]. *)
Definition remoteAPIKeyList (baseURL format : string) : ST Client (list output) :=
  let* resp := apiKeyHTTPRequest "GET" (baseURL +:+ "/v1/apikeys") None in
  let* respBody := of_result (expect_status "list api keys" 200 resp) in
  match unmarshal_body d_remote_views [] respBody with
  | None => throw (Opaque "decode list response")
  | Some keys =>
      let f := ToLower (TrimSpace format) in
      if bool_decide (f = "json") then ret [RemoteViews keys]
      else if bool_decide (f = "table") || bool_decide (f = "") then ret [Table (remoteAPIKeyListTable keys)]
      else throw (Opaque ("invalid format " +:+ format +:+ ": expected table or json"))
  end.

(** [remoteAPIKeyRevoke]. *)
Definition remoteAPIKeyRevoke (baseURL id : string) : ST Client (list output) :=
  let* resp := apiKeyHTTPRequest "DELETE" (baseURL +:+ "/v1/apikeys/" +:+ id) None in
  let* _ := of_result (expect_status "revoke api key" 200 resp) in
  ret [Line ("revoked api key " +:+ id)].

End remote.
