(* ===== verification/Commands.v ===== *)
(** * The commands of the operator: [cmd/mcpgw]

    [main.go], [db_helpers.go], [apikey.go], [server.go], [tool.go], [policy.go] and
    [migrate.go]: the global flags and the dispatch, and the commands that work on the
    tables of the gateway. A command is a function of its arguments on a [Cli] world:
    the environment, the tables, what the client of a remote gateway has, and what has
    been printed. *)

From stdpp Require Import pretty.
From S2P Require Import Prelude GoStrings Encoding GoNet Json GoParse Document JsonText Codec Types RegTypes Store AccessStore Auth.
From S2P Require Import Classification GoFloat Registration Policy RateLimit Events Config AdminStore AdminOps.
From S2P Require Import Forms DeviceFlow Client RemoteKeys Flags.

#[local] Open Scope string_scope.
#[local] Open Scope list_scope.
#[local] Open Scope nat_scope.
#[local] Open Scope go_scope.

(** ** The world of a command *)

Record Cli (G : Type) := mkCli {
  cli_env : gmap string string;
  cli_db : DB;
  cli_access : AccessDB;
  cli_config : ConfigStore;
  cli_client : ClientWorld G;
  cli_out : list output;
}.
Arguments mkCli {_}.
Arguments cli_env {_}.
Arguments cli_db {_}.
Arguments cli_access {_}.
Arguments cli_config {_}.
Arguments cli_client {_}.
Arguments cli_out {_}.

(** What the outside answers during the run of a command: the time, the draws of
    crypto/rand for the id of the gateway and for a key, the salt of bcrypt, the
    standard input up to a failure to read it, and whether the database opens. *)
Record Outside := mkOutside {
  ou_now : Z;
  ou_id : option bytes;
  ou_key : option bytes;
  ou_salt : nat;
  ou_stdin : bytes;
  ou_stdin_fails : bool;
  ou_opens : bool;
}.

(** ** db_helpers.go *)

(** The text of an error. *)
Fixpoint error_text (e : error) : string :=
  match e with
  | Sentinel s | Opaque s => s
  | Wrap ctx inner => ctx +:+ ": " +:+ error_text inner
  | NetError _ msg | StatusError _ msg => msg
  | URLError op inner => op +:+ ": " +:+ error_text inner
  | Errno n => "errno " +:+ pretty n
  end.

Section helpers.
Context `{UnicodeTables} {G : Type}.
Context (x : Outside).

Definition on_db {A} (m : ST DB A) : ST (Cli G) A := λ w,
  let '(r, db) := m w.(cli_db) in
  (r, mkCli w.(cli_env) db w.(cli_access) w.(cli_config) w.(cli_client) w.(cli_out)).
Definition on_access {A} (m : ST AccessDB A) : ST (Cli G) A := λ w,
  let '(r, db) := m w.(cli_access) in
  (r, mkCli w.(cli_env) w.(cli_db) db w.(cli_config) w.(cli_client) w.(cli_out)).
Definition on_config {A} (m : ST ConfigStore A) : ST (Cli G) A := λ w,
  let '(r, s) := m w.(cli_config) in
  (r, mkCli w.(cli_env) w.(cli_db) w.(cli_access) s w.(cli_client) w.(cli_out)).
Definition on_client {A} (m : ST (ClientWorld G) A) : ST (Cli G) A := λ w,
  let '(r, c) := m w.(cli_client) in
  (r, mkCli w.(cli_env) w.(cli_db) w.(cli_access) w.(cli_config) c w.(cli_out)).
Definition print (o : output) : ST (Cli G) () :=
  modify (λ w, mkCli w.(cli_env) w.(cli_db) w.(cli_access) w.(cli_config) w.(cli_client) (w.(cli_out) ++ [o])).
Definition cli_context {A} (ctx : string) (m : ST (Cli G) A) : ST (Cli G) A := λ w,
  match m w with (Err e, w') => (Err (Wrap ctx e), w') | r => r end.

(** [os.Getenv]. *)
Definition getenv (env : gmap string string) (key : string) : string := default "" (env !! key).

(** [loadServerStore], [loadAPIKeyStore], [loadConfigStore] and
    [loadToolClassificationStore]: the configuration loads, and the database opens. *)
Definition loadStore (what : string) : ST (Cli G) () := λ w,
  match Load (getenv w.(cli_env)) x.(ou_id) with
  | Err e => (Err (Wrap ("load " +:+ what +:+ " store: load config") e), w)
  | Ok _ =>
      if x.(ou_opens) then (Ok (), w)
      else (Err (Wrap ("load " +:+ what +:+ " store: open database") (Opaque "ping postgres")), w)
  end.

(** [bufio.Reader.ReadString('\n')]: the line with what ends it, and whether a failure
    that is not the end of the input came first. *)
Definition newline : ascii := "010".
Definition read_line : bytes * bool :=
  match cut [newline] x.(ou_stdin) with
  | Some (line, _) => (line ++ [newline], false)
  | None => (x.(ou_stdin), x.(ou_stdin_fails))
  end.

(** [confirmAction]. *)
Definition confirmAction (prompt : string) (force : bool) : ST (Cli G) bool :=
  if force then ret true
  else
    print (Line (TrimSpace prompt +:+ " [y/N]: ")) ;;
    let '(line, failed) := read_line in
    if failed : bool then throw (Opaque "read confirmation")
    else
      let answer := ToLower (TrimSpace (of_bytes line)) in
      ret (bool_decide (answer = "y") || bool_decide (answer = "yes")).

(** [sqlNoRows], and the test its callers make. *)
Definition sqlNoRows (e : error) : bool := Contains (ToLower (error_text e)) (ToLower "sql: no rows in result set").
Definition no_rows (e : error) : bool := errors_is e ErrNoRows || sqlNoRows e.

(** The flags of a command: [fs.Parse] with the error of the command. *)
Definition parse_flags (what : string) (defs : flags) (args : list string) : ST (Cli G) (flags * list string) :=
  cli_context ("parse " +:+ what +:+ " flags") (of_result (Parse defs args)).

(** The base URL of a remote gateway; empty for the tables of this one. *)
Definition remote_url (fs : flags) : string := TrimRightByte (TrimSpace (get_string fs "gateway-url")) "/".

(** The choice of an output format. *)
Definition formatted (format : string) (json table : output) : ST (Cli G) () :=
  let f := ToLower (TrimSpace format) in
  if bool_decide (f = "json") then print json
  else if bool_decide (f = "table") || bool_decide (f = "") then print table
  else throw (Opaque ("invalid format " +:+ format +:+ ": expected table or json")).

End helpers.

(** ** apikey.go *)

(** [parseExtendedDuration]. *)
Definition parseExtendedDuration (raw : string) : option Z :=
  let trimmed := TrimSpace raw in
  match CutSuffix trimmed "d" with
  | Some number =>
      match Atoi (TrimSpace number) with
      | Some days => Some (wrap_i64 (wrap_i64 (days * 24) * (60 * minute)))
      | None => None
      end
  | None => ParseDuration trimmed
  end.

(** [parseExpiry], at [now]; [None] for an error. *)
Definition parseExpiry (now : Z) (raw : string) : option (option Z) :=
  let trimmed := TrimSpace raw in
  if bool_decide (trimmed = "") then Some None
  else
    match parseExtendedDuration trimmed with
    | Some d => if (d <=? 0)%Z then None else Some (Some (now + d)%Z)
    | None => None
    end.

(** [safeAPIKeyView]: the document of the map, its keys in order. *)
Definition safeAPIKeyView (key : APIKey) : document :=
  AObj [("client_id", AStr key.(ak_ClientID)); ("created_at", AStr (utc_text key.(ak_CreatedAt)));
        ("expires_at", nullable (formatTimePtr key.(ak_ExpiresAt))); ("id", AStr key.(ak_ID));
        ("name", AStr key.(ak_Name)); ("scopes", texts key.(ak_Scopes)); ("server_scope", texts key.(ak_ServerScope))].

(** [apikeyListTable]: the cells. *)
Definition apikeyListTable (keys : list APIKey) : list (list string) :=
  ["ID"; "NAME"; "CLIENT_ID"; "SCOPES"; "SERVER_SCOPE"; "EXPIRES_AT"; "CREATED_AT"] ::
  ((λ k, [k.(ak_ID); k.(ak_Name); k.(ak_ClientID); String.concat "," k.(ak_Scopes);
          (if bool_decide (k.(ak_ServerScope) = []) then "*" else String.concat "," k.(ak_ServerScope));
          default "never" (formatTimePtr k.(ak_ExpiresAt)); utc_text k.(ak_CreatedAt)]) <$> keys).

Section apikey.
Context `{UnicodeTables} `{Bcrypt} `{Postgres} {G : Type}.
Context (post : string → form → G → HttpAnswer * Z * G).
Context (send : KeyRequest → G → KeyResponse * Z * G).
Context (off : Z).
Context (x : Outside).

Definition create_flags : flags := list_to_map
  [("name", FString ""); ("scopes", FString "read"); ("expires", FString ""); ("client-id", FString "");
   ("profile", FString "default"); ("server-scope", FString ""); ("gateway-url", FString "")].

(** Prints what a remote command answers. *)
Definition print_all (l : list output) : ST (Cli G) () := for_each print l.

(** The part of [apikeyCreateCommand] for the tables of this gateway. *)
Definition create_local (fs : flags) : ST (Cli G) () :=
  let trimmedName := TrimSpace (get_string fs "name") in
  if bool_decide (trimmedName = "") then throw (Opaque "apikey create requires --name")
  else
    let scopes := parseScopes (get_string fs "scopes") in
    if bool_decide (scopes = []) then throw (Opaque "apikey create requires at least one scope")
    else
      match parseExpiry x.(ou_now) (get_string fs "expires") with
      | None => throw (Opaque "parse expires")
      | Some expiresAt =>
          match GenerateAPIKey x.(ou_key) x.(ou_salt) with
          | None => throw (Opaque "generate api key")
          | Some (plaintext, lookupHash, bcryptHash) =>
              let clientID := TrimSpace (get_string fs "client-id") in
              let effectiveClientID := if bool_decide (clientID = "") then trimmedName else clientID in
              let profile := TrimSpace (get_string fs "profile") in
              let effectiveProfile := if bool_decide (profile = "") then "default" else profile in
              let serverScope := parseScopes (get_string fs "server-scope") in
              let record := mkAPIKey "" lookupHash bcryptHash trimmedName scopes effectiveClientID effectiveProfile
                              serverScope expiresAt zero_time in
              loadStore x "apikey" ;;
              cli_context "create api key" (on_access (KeyCreate record)) ;;
              let* stored := attempt (on_access (GetByLookupHash lookupHash)) in
              let id := match stored with Ok s => s.(ak_ID) | Err _ => "" end in
              print_all ([Line ("ID: " +:+ id); Line ("Name: " +:+ trimmedName); Line ("Client ID: " +:+ effectiveClientID)] ++
                (if bool_decide (serverScope = []) then [] else [Line ("Server Scope: " +:+ String.concat "," serverScope)]) ++
                [Line ("Expires At: " +:+ default "never" (formatTimePtr expiresAt)); Line ("API Key: " +:+ plaintext)])
          end
      end.

(** [apikeyCreateCommand]. *)
Definition apikeyCreateCommand (args : list string) : ST (Cli G) () :=
  let* (fs, rest) := parse_flags "apikey create" create_flags args in
  if negb (bool_decide (rest = [])) then throw (Opaque "apikey create does not accept positional arguments")
  else
    let baseURL := remote_url fs in
    if negb (bool_decide (baseURL = "")) then
      let* out := on_client (remoteAPIKeyCreate post send off baseURL (get_string fs "name") (get_string fs "scopes")
                     (get_string fs "expires") (get_string fs "client-id") (get_string fs "profile")) in
      print_all out
    else create_local fs.

(** [apikeyListCommand]. *)
Definition apikeyListCommand (args : list string) : ST (Cli G) () :=
  let* (fs, rest) := parse_flags "apikey list" (list_to_map [("format", FString "table"); ("gateway-url", FString "")]) args in
  if negb (bool_decide (rest = [])) then throw (Opaque "apikey list does not accept positional arguments")
  else
    let baseURL := remote_url fs in
    if negb (bool_decide (baseURL = "")) then
      let* out := on_client (remoteAPIKeyList post send off baseURL (get_string fs "format")) in print_all out
    else
      loadStore x "apikey" ;;
      let* keys := cli_context "list api keys" (on_access KeyList) in
      formatted (get_string fs "format") (Json (AArr (safeAPIKeyView <$> keys))) (Table (apikeyListTable keys)).

(** [apikeyRevokeCommand]. *)
Definition revoke_flags : flags := list_to_map [("force", FBool false); ("gateway-url", FString "")].
Definition apikeyRevokeCommand (args : list string) : ST (Cli G) () :=
  let* (fs, rest) := parse_flags "apikey revoke" revoke_flags args in
  match rest with
  | [arg] =>
      let id := TrimSpace arg in
      let baseURL := remote_url fs in
      if negb (bool_decide (baseURL = "")) then
        let* out := on_client (remoteAPIKeyRevoke post send off baseURL id) in print_all out
      else
        let* ok := confirmAction x ("Revoke API key " +:+ id) (get_bool fs "force") in
        if negb ok then throw (Opaque "operation cancelled")
        else
          loadStore x "apikey" ;;
          cli_context ("revoke api key " +:+ id) (on_access (Revoke id)) ;;
          print (Line ("revoked api key " +:+ id))
  | _ => throw (Opaque "apikey revoke requires exactly one argument: <id>")
  end.

(** [apikeyCommand]. *)
Definition apikeyCommand (args : list string) : ST (Cli G) () :=
  match args with
  | [] => throw (Opaque "apikey command requires a subcommand: create, list, revoke")
  | sub :: rest =>
      let sub := TrimSpace sub in
      if bool_decide (sub = "create") then apikeyCreateCommand rest
      else if bool_decide (sub = "list") then apikeyListCommand rest
      else if bool_decide (sub = "revoke") then apikeyRevokeCommand rest
      else throw (Opaque ("unknown apikey subcommand " +:+ sub))
  end.

End apikey.

(** ** server.go *)

(** [PostgresServerStore.GetByName]: names are not unique; the first row of the query. *)
Definition GetByName (name : string) : ST DB ServerRecord :=
  wrap_error "server store" (statement (λ db,
    match find_row (λ r, bool_decide (r.(Name) = name)) db.(db_servers) with
    | Some row => (Ok row, db)
    | None => (Err ErrNoRows, db)
    end)).

(** [writeServerTable]: the cells. *)
Definition server_row (r : ServerRecord) : list string :=
  [r.(ID); r.(Name); ServerStatus_String r.(Status); r.(SPIFFEID); default "-" (formatTimePtr r.(LastHeartbeat));
   "tools=" +:+ pretty (length r.(Capabilities).(Tools)) +:+ " resources=" +:+ pretty (length r.(Capabilities).(Resources))
   +:+ " prompts=" +:+ pretty (length r.(Capabilities).(Prompts))].
Definition writeServerTable (records : list ServerRecord) : list (list string) :=
  ["ID"; "NAME"; "STATUS"; "SPIFFE_ID"; "LAST_HEARTBEAT"; "CAPABILITIES"] :: (server_row <$> records).

Section servers.
Context `{UnicodeTables} `{Postgres} `{PgText} {G : Type}.
Context (x : Outside).

(** [parseServerStatus]. *)
Definition parseServerStatus (raw : string) : option ServerStatus :=
  let s := ToLower (TrimSpace raw) in
  List.find (λ st, bool_decide (ServerStatus_String st = s))
    [StatusPending; StatusApproved; StatusActive; StatusStale; StatusExpired].

(** [resolveServerRecord]. *)
Definition resolveServerRecord (idOrName : string) : ST (Cli G) ServerRecord :=
  let key := TrimSpace idOrName in
  if bool_decide (key = "") then throw (Opaque "server id or name is required")
  else
    let* byID := attempt (on_db (Get key)) in
    match byID with
    | Ok record => ret record
    | Err e =>
        if negb (no_rows e) then throw (Wrap ("lookup server " +:+ key +:+ " by id") e)
        else
          let* byName := attempt (on_db (GetByName key)) in
          match byName with
          | Ok record => ret record
          | Err e =>
              if no_rows e then throw (Opaque ("server " +:+ key +:+ " not found"))
              else throw (Wrap ("lookup server " +:+ key +:+ " by name") e)
          end
    end.

(** [serverListCommand]. *)
Definition serverListCommand (args : list string) : ST (Cli G) () :=
  let* (fs, _) := parse_flags "server list" (list_to_map [("status", FString ""); ("format", FString "table")]) args in
  let statusFlag := get_string fs "status" in
  let list_with status :=
    loadStore x "server" ;;
    let* records := cli_context "list servers" (on_db (ServerList (RegHandlers.mkServerFilter status "" 0 0))) in
    formatted (get_string fs "format") (RecordsJSON records) (Table (writeServerTable records)) in
  if bool_decide (TrimSpace statusFlag = "") then list_with None
  else
    match parseServerStatus statusFlag with
    | None => throw (Opaque ("invalid status " +:+ statusFlag))
    | Some status => list_with (Some status)
    end.

(** [serverInspectCommand]. *)
Definition serverInspectCommand (args : list string) : ST (Cli G) () :=
  let* (_, rest) := parse_flags "server inspect" ∅ args in
  match rest with
  | [arg] =>
      loadStore x "server" ;;
      let* record := resolveServerRecord arg in
      print (RecordJSON record)
  | _ => throw (Opaque "server inspect requires exactly one argument: <id-or-name>")
  end.

(** [serverDeregisterCommand]. *)
Definition deregister_flags : flags := list_to_map [("force", FBool false)].
Definition serverDeregisterCommand (args : list string) : ST (Cli G) () :=
  let* (fs, rest) := parse_flags "server deregister" deregister_flags args in
  match rest with
  | [idOrName] =>
      let* ok := confirmAction x ("Deregister server " +:+ idOrName) (get_bool fs "force") in
      if negb ok then throw (Opaque "operation cancelled")
      else
        loadStore x "server" ;;
        let* record := resolveServerRecord idOrName in
        cli_context ("deregister server " +:+ idOrName) (on_db (Delete record.(ID))) ;;
        print (Line ("deregistered server " +:+ record.(Name) +:+ " (" +:+ record.(ID) +:+ ")"))
  | _ => throw (Opaque "server deregister requires exactly one argument: <id-or-name>")
  end.

(** [serverCommand]. *)
Definition serverCommand (args : list string) : ST (Cli G) () :=
  match args with
  | [] => throw (Opaque "server command requires a subcommand: list, inspect, deregister")
  | sub :: rest =>
      let sub := TrimSpace sub in
      if bool_decide (sub = "list") then serverListCommand rest
      else if bool_decide (sub = "inspect") then serverInspectCommand rest
      else if bool_decide (sub = "deregister") then serverDeregisterCommand rest
      else throw (Opaque ("unknown server subcommand " +:+ sub))
  end.

End servers.

(** ** tool.go *)

Section tools.
Context `{UnicodeTables} `{PgText} {G : Type}.
Context (x : Outside).

(** [PostgresToolClassificationStore.GetByRiskLevel]. *)
Definition GetByRiskLevel (level : RiskLevel) : ST DB (list ToolClassification) :=
  wrap_error "tool classification store: get by risk level" (statement (λ db,
    (Ok (merge_sort (by_text tc_ToolName)
           (List.filter (λ c, bool_decide (c.(tc_RiskLevel) = level)) (map_to_list db.(db_classifications)).*2)), db))).

Definition tool_table (l : list ToolClassification) : list (list string) :=
  ["TOOL_NAME"; "RISK_LEVEL"; "REASON"; "AUTO"; "UPDATED_BY"; "UPDATED_AT"] ::
  ((λ c, [c.(tc_ToolName); RiskLevel_String c.(tc_RiskLevel); c.(tc_Reason);
          (if c.(tc_AutoClassified) then "true" else "false"); c.(tc_UpdatedBy); utc_text c.(tc_UpdatedAt)]) <$> l).

(** [toolListCommand]. *)
Definition toolListCommand (args : list string) : ST (Cli G) () :=
  let* (fs, rest) := parse_flags "tool list" (list_to_map [("risk-level", FString ""); ("format", FString "table")]) args in
  if negb (bool_decide (rest = [])) then throw (Opaque "tool list does not accept positional arguments")
  else
    loadStore x "tool classification" ;;
    let level := TrimSpace (get_string fs "risk-level") in
    let* query :=
      if bool_decide (level = "") then ret ClassificationGetAll
      else
        match risk_of level with
        | None => throw (Opaque ("invalid risk level " +:+ level +:+ ": expected read_only, write, destructive, or unknown"))
        | Some rl => ret (GetByRiskLevel rl)
        end in
    let* classifications := cli_context "list tool classifications" (on_db query) in
    formatted (get_string fs "format") (ClassificationsJSON classifications) (Table (tool_table classifications)).

(** [toolClassifyCommand]. *)
Definition toolClassifyCommand (args : list string) : ST (Cli G) () :=
  let* (fs, rest) := parse_flags "tool classify" (list_to_map [("risk-level", FString ""); ("reason", FString "")]) args in
  match rest with
  | [arg] =>
      let toolName := TrimSpace arg in
      if bool_decide (toolName = "") then throw (Opaque "tool name is required")
      else
        let level := TrimSpace (get_string fs "risk-level") in
        if bool_decide (level = "") then throw (Opaque "--risk-level is required")
        else
          match risk_of level with
          | None => throw (Opaque ("invalid risk level " +:+ level +:+ ": expected read_only, write, destructive, or unknown"))
          | Some rl =>
              loadStore x "tool classification" ;;
              cli_context "classify tool" (on_db (ClassificationUpsert
                (mkToolClassification toolName rl (TrimSpace (get_string fs "reason")) false "admin" x.(ou_now)))) ;;
              print (Line ("classified " +:+ toolName +:+ " as " +:+ RiskLevel_String rl))
          end
  | _ => throw (Opaque "tool classify requires exactly one argument: <tool-name>")
  end.

(** The loop of [toolAutoClassifyCommand]: how many rows it has replaced. *)
Definition reclassified (tc : ToolClassification) : ToolClassification :=
  let '(level, reason) := AutoClassify tc.(tc_ToolName) "" in
  mkToolClassification tc.(tc_ToolName) level reason true "auto-reclassify" x.(ou_now).
Fixpoint reclassify (l : list ToolClassification) (updated : nat) : ST (Cli G) nat :=
  match l with
  | [] => ret updated
  | tc :: l' =>
      if negb tc.(tc_AutoClassified) then reclassify l' updated
      else
        cli_context ("reclassify tool " +:+ tc.(tc_ToolName)) (on_db (ClassificationUpsert (reclassified tc))) ;;
        reclassify l' (S updated)
  end.

(** [toolAutoClassifyCommand]. *)
Definition toolAutoClassifyCommand (args : list string) : ST (Cli G) () :=
  let* _ := parse_flags "tool auto-classify" ∅ args in
  loadStore x "tool classification" ;;
  let* all := cli_context "list classifications" (on_db ClassificationGetAll) in
  let* updated := reclassify all 0 in
  print (Line ("auto-reclassified " +:+ pretty updated +:+ " tools")).

(** [toolCommand]. *)
Definition toolCommand (args : list string) : ST (Cli G) () :=
  match args with
  | [] => throw (Opaque "tool command requires a subcommand: list, classify, auto-classify")
  | sub :: rest =>
      let sub := TrimSpace sub in
      if bool_decide (sub = "list") then toolListCommand rest
      else if bool_decide (sub = "classify") then toolClassifyCommand rest
      else if bool_decide (sub = "auto-classify") then toolAutoClassifyCommand rest
      else throw (Opaque ("unknown tool subcommand " +:+ sub))
  end.

End tools.

(** ** policy.go *)

Definition mode_text (m : EnforcementMode) : string :=
  match m with ModeEnforce => "enforce" | ModeAudit => "audit" | ModeRaw s => s end.

(** [defaultPolicyProfiles]. *)
Definition cliDefaultProfiles : gmap string PolicyProfile := list_to_map
  [("default", mkPolicyProfile "default" 10 20 [] [] ModeEnforce);
   ("premium", mkPolicyProfile "premium" 50 100 [] [] ModeEnforce);
   ("admin", mkPolicyProfile "admin" 100 200 [] [] ModeEnforce)].

(** [sortedProfileNames]. *)
Definition sortedProfileNames (profiles : gmap string PolicyProfile) : list string :=
  sort_strings (map_to_list profiles).*1.

(** [json.Marshal] of the message; [clonePolicyProfile] turns an empty list into nil,
    which is written as [null]. *)
Definition nil_texts (l : list string) : document := match l with [] => ANil | _ => texts l end.
Definition profile_document (p : PolicyProfile) : document :=
  AObj [("name", AStr p.(pp_Name)); ("rate_limit", ANum (pretty p.(pp_RateLimit))); ("rate_burst", ANum (pretty p.(pp_RateBurst)));
        ("tool_allowlist", nil_texts p.(pp_ToolAllowlist)); ("tool_denylist", nil_texts p.(pp_ToolDenylist));
        ("enforcement_mode", AStr (mode_text p.(pp_EnforcementMode)))].
Definition policy_document (l : list PolicyProfile) : document := AObj [("profiles", AArr (profile_document <$> l))].
(** The stored bytes, as the readers of the table decode them. *)
Definition stored_bytes (b : bytes) : payload := mkPayload (json_parse (of_bytes b)) false.

Section policies.
Context `{UnicodeTables} {G : Type}.
Context (x : Outside).

(** [loadPolicyProfiles]. *)
Definition loadPolicyProfiles : ST (Cli G) (gmap string PolicyProfile) :=
  let* raw := attempt (on_config (ConfigLoad configCachePolicyKey)) in
  match raw with
  | Err e => if no_rows e then ret cliDefaultProfiles else throw (Wrap "load policy profiles" e)
  | Ok raw =>
      let '(message, ok) := unmarshal_whole d_policy_message [] raw in
      if negb ok then throw (Opaque "load policy profiles: decode payload")
      else
        let loaded := foldl (λ m p, if bool_decide (TrimSpace p.(pp_Name) = "") then m else <[p.(pp_Name) := p]> m)
                        (∅ : gmap string PolicyProfile) message in
        ret (if bool_decide (loaded = ∅) then cliDefaultProfiles else loaded)
  end.

(** [persistPolicyProfiles]. *)
Definition persistPolicyProfiles (profiles : gmap string PolicyProfile) : ST (Cli G) () :=
  let ordered := omap (λ name, profiles !! name) (sortedProfileNames profiles) in
  cli_context "persist policy profiles"
    (on_config (ConfigSave configCachePolicyKey (stored_bytes (json_print (policy_document ordered))))).

(** [resolveOrDefaultProfile]. *)
Definition resolveOrDefaultProfile (name : string) (existing : gmap string PolicyProfile) : PolicyProfile :=
  match existing !! name with
  | Some p => p
  | None => default (mkPolicyProfile name 10 20 [] [] ModeEnforce) (cliDefaultProfiles !! name)
  end.

(** [policyListCommand]: the cells of its table. *)
Definition policy_table (profiles : gmap string PolicyProfile) : list (list string) :=
  ["NAME"; "RATE_LIMIT"; "RATE_BURST"; "ENFORCEMENT_MODE"; "ALLOWLIST"; "DENYLIST"] ::
  ((λ p, [p.(pp_Name); pretty p.(pp_RateLimit); pretty p.(pp_RateBurst); mode_text p.(pp_EnforcementMode);
          pretty (length p.(pp_ToolAllowlist)); pretty (length p.(pp_ToolDenylist))]) <$>
   omap (λ name, profiles !! name) (sortedProfileNames profiles)).
Definition policyListCommand (args : list string) : ST (Cli G) () :=
  let* (_, rest) := parse_flags "policy list" ∅ args in
  if negb (bool_decide (rest = [])) then throw (Opaque "policy list does not accept positional arguments")
  else
    loadStore x "config" ;;
    let* profiles := loadPolicyProfiles in
    print (Table (policy_table profiles)).

(** The changes [policySetCommand] makes to a profile; [None] for an invalid mode. *)
Definition policy_flags : flags := list_to_map
  [("rate-limit", FInt 0); ("rate-burst", FInt 0); ("enforcement-mode", FString "");
   ("tool-allowlist", FString ""); ("tool-denylist", FString "")].
Definition changed_profile (fs : flags) (p : PolicyProfile) : option PolicyProfile :=
  let limit := get_int fs "rate-limit" in
  let burst := get_int fs "rate-burst" in
  let mode := ToLower (TrimSpace (get_string fs "enforcement-mode")) in
  let allowRaw := get_string fs "tool-allowlist" in
  let denyRaw := get_string fs "tool-denylist" in
  let finish m :=
    Some (mkPolicyProfile p.(pp_Name)
      (if (0 <? limit)%Z then limit else p.(pp_RateLimit)) (if (0 <? burst)%Z then burst else p.(pp_RateBurst))
      (if bool_decide (TrimSpace allowRaw = "") then p.(pp_ToolAllowlist) else parseScopes allowRaw)
      (if bool_decide (TrimSpace denyRaw = "") then p.(pp_ToolDenylist) else parseScopes denyRaw) m) in
  if bool_decide (TrimSpace (get_string fs "enforcement-mode") = "") then finish p.(pp_EnforcementMode)
  else if bool_decide (mode = "enforce") then finish ModeEnforce
  else if bool_decide (mode = "audit") then finish ModeAudit
  else None.

(** [policySetCommand]. *)
Definition policySetCommand (args : list string) : ST (Cli G) () :=
  let* (fs, rest) := parse_flags "policy set" policy_flags args in
  match rest with
  | [arg] =>
      let name := TrimSpace arg in
      if bool_decide (name = "") then throw (Opaque "policy name is required")
      else
        loadStore x "config" ;;
        let* profiles := loadPolicyProfiles in
        match changed_profile fs (resolveOrDefaultProfile name profiles) with
        | None => throw (Opaque ("invalid enforcement mode " +:+ get_string fs "enforcement-mode"))
        | Some profile =>
            persistPolicyProfiles (<[name := profile]> profiles) ;;
            print (Line ("updated policy profile " +:+ name))
        end
  | _ => throw (Opaque "policy set requires exactly one argument: <name>")
  end.

(** [policyResetCommand]. *)
Definition policyResetCommand (args : list string) : ST (Cli G) () :=
  let* (_, rest) := parse_flags "policy reset" ∅ args in
  match rest with
  | [arg] =>
      let name := TrimSpace arg in
      match cliDefaultProfiles !! name with
      | None => throw (Opaque ("no default profile exists for " +:+ name))
      | Some defaultProfile =>
          loadStore x "config" ;;
          let* profiles := loadPolicyProfiles in
          persistPolicyProfiles (<[name := defaultProfile]> profiles) ;;
          print (Line ("reset policy profile " +:+ name))
      end
  | _ => throw (Opaque "policy reset requires exactly one argument: <name>")
  end.

(** [policyCommand]. *)
Definition policyCommand (args : list string) : ST (Cli G) () :=
  match args with
  | [] => throw (Opaque "policy command requires a subcommand: list, set, reset")
  | sub :: rest =>
      let sub := TrimSpace sub in
      if bool_decide (sub = "list") then policyListCommand rest
      else if bool_decide (sub = "set") then policySetCommand rest
      else if bool_decide (sub = "reset") then policyResetCommand rest
      else throw (Opaque ("unknown policy subcommand " +:+ sub))
  end.

End policies.

(** ** main.go *)

Section main.
Context `{UnicodeTables} `{Bcrypt} `{Postgres} `{PgText} {G : Type}.
Context (post : string → form → G → HttpAnswer * Z * G).
Context (send : KeyRequest → G → KeyResponse * Z * G).
Context (off : Z).
Context (x : Outside).
(** The build information, and the commands that are not in this file. *)
Context (version commit buildDate : string).
Context (serve health migrate auth proxy : list string → ST (Cli G) ()).

Definition printVersion : ST (Cli G) () :=
  print (Line ("version=" +:+ version +:+ " commit=" +:+ commit +:+ " build_date=" +:+ buildDate)).
Definition printUsage : ST (Cli G) () := for_each print (Line <$>
  ["Usage: mcpgw [global flags] <command> [args]"; ""; "Commands:"; "  serve       Start gateway server";
   "  server      Manage registered servers"; "  apikey      Manage API keys"; "  policy      Manage policy profiles";
   "  health      Check gateway health"; "  tool        Manage tool classifications";
   "  auth        Authenticate via device code flow"; "  mcp-proxy   Stdio-to-HTTP MCP bridge for IDEs";
   "  migrate     Run database migrations"; "  version     Print build version information"; ""; "Global flags:";
   "  --config      Reserved for future config file support"; "  --log-level   Override MCPGW_LOG_LEVEL";
   "  --log-format  Override MCPGW_LOG_FORMAT"]).

(** [parseGlobalFlags]. *)
Definition global_flags : flags := list_to_map [("config", FString ""); ("log-level", FString ""); ("log-format", FString "")].

(** [os.Setenv], for the names used here: a value with a NUL is refused. *)
Definition setenv (key value : string) : ST (Cli G) () := λ w,
  if existsb (λ a, (code a =? 0)%N) (to_bytes value) then (Err (Opaque "setenv: invalid argument"), w)
  else (Ok (), mkCli (<[key := value]> w.(cli_env)) w.(cli_db) w.(cli_access) w.(cli_config) w.(cli_client) w.(cli_out)).

(** [applyGlobalOptions]. *)
Definition apply_option (flag key : string) (fs : flags) : ST (Cli G) () :=
  let value := TrimSpace (get_string fs flag) in
  if bool_decide (value = "") then ret () else cli_context ("apply global " +:+ flag) (setenv key value).
Definition applyGlobalOptions (fs : flags) : ST (Cli G) () :=
  apply_option "log-level" "MCPGW_LOG_LEVEL" fs ;; apply_option "log-format" "MCPGW_LOG_FORMAT" fs.

(** The commands by their names. *)
Definition dispatch (command : string) (args : list string) : ST (Cli G) () :=
  if bool_decide (command = "serve") then serve args
  else if bool_decide (command = "server") then serverCommand x args
  else if bool_decide (command = "apikey") then apikeyCommand post send off x args
  else if bool_decide (command = "policy") then policyCommand x args
  else if bool_decide (command = "health") then health args
  else if bool_decide (command = "migrate") then migrate args
  else if bool_decide (command = "tool") then toolCommand x args
  else if bool_decide (command = "auth") then auth args
  else if bool_decide (command = "mcp-proxy") then proxy args
  else throw (Opaque ("unknown command " +:+ command)).

(** [run]; the usage that goes to the standard error is left out. *)
Definition run (args : list string) : ST (Cli G) () :=
  let first := TrimSpace (default "" (head args)) in
  if bool_decide (first ∈ ["--version"; "version"]) then printVersion
  else if bool_decide (first ∈ ["--help"; "-h"; "help"]) then printUsage
  else
    let* (opts, remaining) := cli_context "parse flags" (of_result (Parse global_flags args)) in
    applyGlobalOptions opts ;;
    match remaining with
    | [] => serve []
    | command :: commandArgs => dispatch (TrimSpace command) commandArgs
    end.

End main.

(** ** migrate.go *)

(** [migrateRunner], the interface of the migration library, on a state of its own. *)
Record migrateRunner (M : Type) := mkRunner {
  mr_Up : ST M ();
  mr_Down : ST M ();
  mr_Steps : Z → ST M ();
  mr_Version : M → result (N * bool);
}.
Arguments mr_Up {_}.
Arguments mr_Down {_}.
Arguments mr_Steps {_}.
Arguments mr_Version {_}.

(** [migrate.ErrNoChange] and [migrate.ErrNilVersion]. *)
Definition ErrNoChange : error := Sentinel "no change".
Definition ErrNilVersion : error := Sentinel "no migration".

Section migrations.
Context `{UnicodeTables} {M : Type}.
Context (runner : migrateRunner M).

(** [applyMigrations]. *)
Definition applyMigrations (direction : string) (steps : Z) : ST M () :=
  if (steps <? 0)%Z then throw (Opaque "apply migrations: steps must be non-negative")
  else if bool_decide (direction = "up") then
    if (0 <? steps)%Z then runner.(mr_Steps) steps else runner.(mr_Up)
  else if bool_decide (direction = "down") then
    if (0 <? steps)%Z then runner.(mr_Steps) (- steps) else runner.(mr_Down)
  else throw (Opaque ("apply migrations: unsupported direction " +:+ direction)).

(** [reportMigrationVersion]: what it prints. *)
Definition reportMigrationVersion (m : M) : result (list string) :=
  match runner.(mr_Version) m with
  | Err e => if bool_decide (e = ErrNilVersion) then Ok ["migration version: none"] else Err (Wrap "read migration version" e)
  | Ok (version, dirty) =>
      Ok ["migration version: " +:+ pretty version; "dirty: " +:+ (if dirty : bool then "true" else "false")]
  end.

(** [resolveMigrateDBURL]. *)
Definition resolveMigrateDBURL (env : string → string) (random : option bytes) (override : string) : result string :=
  if negb (bool_decide (TrimSpace override = "")) then Ok override
  else match Load env random with Ok c => Ok c.(c_DBURL) | Err e => Err (Wrap "resolve migrate db url: load config" e) end.

(** [migrateCommand]: what it prints, and the state it leaves. [opens] tells whether the
    library gets a runner on the database of an address. *)
Definition migrateCommand (opens : string → bool) (env : string → string) (random : option bytes) (args : list string) :
    ST M (list string) :=
  match Parse (list_to_map [("direction", FString "up"); ("steps", FInt 0); ("db-url", FString "")]) args with
  | Err e => throw (Wrap "parse migrate flags" e)
  | Ok (fs, rest) =>
      if negb (bool_decide (rest = [])) then throw (Opaque "migrate command does not accept positional arguments")
      else
        let direction := ToLower (TrimSpace (get_string fs "direction")) in
        if negb (bool_decide (direction = "up")) && negb (bool_decide (direction = "down"))
        then throw (Opaque ("invalid migrate direction " +:+ get_string fs "direction"))
        else
          let* url := of_result (resolveMigrateDBURL env random (TrimSpace (get_string fs "db-url"))) in
          if negb (opens url) then throw (Opaque "initialize migrator")
          else
            let* r := attempt (applyMigrations direction (get_int fs "steps")) in
            match r with
            | Err e =>
                if bool_decide (e = ErrNoChange) then
                  let* lines := λ m, (reportMigrationVersion m, m) in ret ("no migrations to apply" :: lines)
                else throw e
            | Ok _ => λ m, (reportMigrationVersion m, m)
            end
  end.

End migrations.
