(* ===== verification/CommandsProps.v ===== *)
(** * Correctness of the operator's commands

    - [changes_confirmed]: nothing in the tables of this gateway is revoked or
      deregistered without consent; a key of a remote one is.
    - [name_never_resolved]: a server is not found by its name.
    - [policy_set_read_back], [policy_set_ineffective]: profiles are stored, and no
      gateway reads them.
    - [auto_classify_correct]: what reclassification does to each row. *)

From stdpp Require Import pretty.
From S2P Require Import Prelude GoStrings Encoding GoNet Json GoParse Document JsonText Codec Types RegTypes Store AccessStore Auth.
From S2P Require Import Classification GoFloat Registration Policy RateLimit Discovery Search Events EventsProps Config AdminStore AdminOps AdminData AdminWitness AuthProps.
From S2P Require Import Forms DeviceFlow Client RemoteKeys Flags Commands.

#[local] Open Scope string_scope.
#[local] Open Scope list_scope.
#[local] Open Scope nat_scope.
#[local] Open Scope go_scope.

(** ** What a step leaves alone *)

Section frames.
Context `{UnicodeTables} {G : Type}.
Context (x : Outside).
Context (P : Cli G → Prop).

Lemma cli_keeps_context {A} ctx (m : ST (Cli G) A) : preserves P m → preserves P (cli_context ctx m).
Proof. intros Hm w Hw. specialize (Hm w Hw). unfold cli_context. by destruct (m w) as [[e|r] w']. Qed.

Lemma cli_keeps_parse what defs args : preserves P (parse_flags what defs args).
Proof. apply cli_keeps_context. apply preserves_read. Qed.

Lemma cli_keeps_load what : preserves P (loadStore x what).
Proof. intros w Hw. unfold loadStore. by destruct (Load _ _); [|destruct (ou_opens x)]. Qed.

End frames.

#[export] Hint Resolve cli_keeps_context cli_keeps_parse cli_keeps_load : gateway.

(** A command starts with its flags. *)
Lemma bind_parse {G A} what defs args (k : flags * list string → ST (Cli G) A) w :
  bind (parse_flags what defs args) k w =
  match Parse defs args with
  | Ok p => k p w
  | Err e => (Err (Wrap ("parse " +:+ what +:+ " flags") e), w)
  end.
Proof. unfold bind, parse_flags, cli_context, of_result. by destruct (Parse defs args). Qed.

(** The parts of the world that the steps of a command act on. *)
Section parts.
Context `{UnicodeTables} {G : Type}.
Context (x : Outside) (a : AccessDB) (t : gmap string ServerRecord).

Definition keeps_access (w : Cli G) : Prop := w.(cli_access) = a.
Definition keeps_servers (w : Cli G) : Prop := w.(cli_db).(db_servers) = t.

Lemma access_on_db {A} (m : ST DB A) : preserves keeps_access (on_db m).
Proof. intros w Hw. unfold on_db. by destruct (m _). Qed.
Lemma access_on_client {A} (m : ST (ClientWorld G) A) : preserves keeps_access (on_client m).
Proof. intros w Hw. unfold on_client. by destruct (m _). Qed.
Lemma access_print o : preserves keeps_access (print o).
Proof. by intros w Hw. Qed.
Lemma servers_print o : preserves keeps_servers (print o).
Proof. by intros w Hw. Qed.

(** Reading the table of servers. *)
Lemma servers_on_db {A} (m : ST DB A) :
  preserves (λ db, db.(db_servers) = t) m → preserves keeps_servers (on_db m).
Proof. intros Hm w Hw. specialize (Hm w.(cli_db) Hw). unfold on_db. by destruct (m _). Qed.

Lemma servers_statement {A} ctx (f : ST DB A) :
  preserves (λ db, db.(db_servers) = t) f → preserves (λ db, db.(db_servers) = t) (wrap_error ctx (statement f)).
Proof.
  intros Hf db Hdb. unfold wrap_error, statement.
  destruct db.(db_faults) as [|[] fs]; [|done|];
    match goal with |- context [f ?d] => pose proof (Hf d Hdb); by destruct (f d) as [[]] end.
Qed.

End parts.

#[export] Hint Resolve access_on_db access_on_client access_print servers_print servers_on_db servers_statement : gateway.

(** ** Consent *)

Section consent.
Context `{UnicodeTables} `{Bcrypt} `{Postgres} `{PgText} {G : Type}.
Context (post : string → form → G → HttpAnswer * Z * G).
Context (send : KeyRequest → G → KeyResponse * Z * G).
Context (off : Z).
Context (x : Outside).

(** The operator answered the question with yes. *)
Definition confirmed : Prop :=
  (read_line x).2 = false ∧ ToLower (TrimSpace (of_bytes (read_line x).1)) ∈ ["y"; "yes"].

#[export] Instance confirmed_dec : Decision confirmed.
Proof. unfold confirmed. apply _. Defined.

(** A command that asks first does nothing else when the answer is not yes. *)
Lemma ask_first {A} (P : Cli G → Prop) prompt force (k : ST (Cli G) A) :
  (∀ o, preserves P (print o)) → ¬ (force = true ∨ confirmed) →
  preserves P (let* ok := confirmAction x prompt force in if negb ok then throw (Opaque "operation cancelled") else k).
Proof.
  intros Hp Hno w Hw. unfold bind at 1, confirmAction. destruct force; [by destruct Hno; left|].
  unfold bind. pose proof (Hp (Line (TrimSpace prompt +:+ " [y/N]: ")) w Hw) as Hw'.
  unfold print, modify in *. cbn [fst snd] in *. destruct (read_line x) as [line failed] eqn:E.
  destruct failed; [done|]. unfold ret.
  assert (Hb : bool_decide (ToLower (TrimSpace (of_bytes line)) = "y") || bool_decide (ToLower (TrimSpace (of_bytes line)) = "yes") = false).
  { apply orb_false_iff. split; apply bool_decide_eq_false; intros Heq; apply Hno; right; unfold confirmed; rewrite E; cbn [fst snd];
      rewrite Heq; (split; [done|]); [left|right; left]. }
  by rewrite Hb.
Qed.

Lemma print_all_keeps (P : Cli G → Prop) l : (∀ o, preserves P (print o)) → preserves P (print_all l).
Proof. intros Hp. unfold print_all. apply preserves_for_each. intros o. apply Hp. Qed.

(** On the tables of this gateway, revoking leaves the remote one alone. *)
Lemma local_revoke_client fs id c :
  preserves (λ w : Cli G, w.(cli_client) = c)
    (let* ok := confirmAction x ("Revoke API key " +:+ id) (get_bool fs "force") in
     if negb ok then throw (Opaque "operation cancelled")
     else loadStore x "apikey" ;; cli_context ("revoke api key " +:+ id) (on_access (Revoke id)) ;;
       print (Line ("revoked api key " +:+ id))).
Proof.
  apply preserves_bind.
  - unfold confirmAction. destruct (get_bool fs "force"); [by intros w|]. apply preserves_bind; [by intros w|].
    intros [] w Hw. destruct (read_line x) as [line []]; done.
  - intros []; [|by intros w]. apply preserves_bind; [auto with gateway|]. intros []. apply preserves_bind; [|by intros [] w].
    apply cli_keeps_context. intros w Hw. unfold on_access. by destruct (Revoke _ _).
Qed.

(** Without exactly one argument nothing happens. *)
Lemma revoke_one args (w : Cli G) :
  (∃ fs id, Parse revoke_flags args = Ok (fs, [id])) ∨ (apikeyRevokeCommand post send off x args w).2 = w.
Proof.
  unfold apikeyRevokeCommand. rewrite bind_parse. destruct (Parse _ args) as [e|[fs [|id [|]]]]; eauto.
Qed.

Lemma deregister_one args (w : Cli G) :
  (∃ fs name, Parse deregister_flags args = Ok (fs, [name])) ∨ (serverDeregisterCommand x args w).2 = w.
Proof.
  unfold serverDeregisterCommand. rewrite bind_parse. destruct (Parse _ args) as [e|[fs [|name [|]]]]; eauto.
Qed.

Lemma revoke_remote args fs id (w : Cli G) : Parse revoke_flags args = Ok (fs, [id]) → remote_url fs ≠ "" →
  apikeyRevokeCommand post send off x args w =
    (let* out := on_client (remoteAPIKeyRevoke post send off (remote_url fs) (TrimSpace id)) in print_all out) w.
Proof. intros E Hr. unfold apikeyRevokeCommand. by rewrite bind_parse, E, (bool_decide_eq_false_2 _ Hr). Qed.

(** C33: Consent of the operator. When [apikey revoke] changes the keys of this
    gateway, or [server deregister] its servers, the arguments named exactly one of
    them, and the operator passed [--force] or answered the question with yes. The
    keys of a remote gateway are not protected so: with [--gateway-url] the command
    is the request to that gateway, whatever [--force] and the standard input say,
    and nothing else that [apikey revoke] does reaches a remote gateway. *)
Theorem changes_confirmed args (w : Cli G) :
  ((apikeyRevokeCommand post send off x args w).2.(cli_access) ≠ w.(cli_access) →
   ∃ fs id, Parse revoke_flags args = Ok (fs, [id]) ∧ remote_url fs = "" ∧ (get_bool fs "force" = true ∨ confirmed)) ∧
  ((serverDeregisterCommand x args w).2.(cli_db).(db_servers) ≠ w.(cli_db).(db_servers) →
   ∃ fs name, Parse deregister_flags args = Ok (fs, [name]) ∧ (get_bool fs "force" = true ∨ confirmed)) ∧
  ((apikeyRevokeCommand post send off x args w).2.(cli_client) ≠ w.(cli_client) →
   ∃ fs id, Parse revoke_flags args = Ok (fs, [id]) ∧ remote_url fs ≠ "") ∧
  (∀ fs id, Parse revoke_flags args = Ok (fs, [id]) → remote_url fs ≠ "" →
   apikeyRevokeCommand post send off x args w =
     (let* out := on_client (remoteAPIKeyRevoke post send off (remote_url fs) (TrimSpace id)) in print_all out) w).
Proof.
  split_and!; [| | |intros fs id; apply revoke_remote].
  - intros Hch. destruct (revoke_one args w) as [(fs & id & E)|He]; [|by rewrite He in Hch].
    exists fs, id. split; [done|].
    destruct (decide (remote_url fs = "" ∧ (get_bool fs "force" = true ∨ confirmed))) as [|Hno]; [done|].
    exfalso. apply Hch. destruct (decide (remote_url fs = "")) as [Hr|Hr].
    + unfold apikeyRevokeCommand. rewrite bind_parse, E, (bool_decide_eq_true_2 _ Hr).
      apply (ask_first (keeps_access w.(cli_access))); [apply access_print|tauto|done].
    + rewrite (revoke_remote args fs id) by done.
      apply (preserves_bind (keeps_access w.(cli_access))); [apply access_on_client| |done].
      intros out. apply print_all_keeps, access_print.
  - intros Hch. destruct (deregister_one args w) as [(fs & name & E)|He]; [|by rewrite He in Hch].
    exists fs, name. split; [done|]. destruct (decide (get_bool fs "force" = true ∨ confirmed)) as [|Hno]; [done|].
    exfalso. apply Hch. unfold serverDeregisterCommand. rewrite bind_parse, E.
    by apply (ask_first (keeps_servers w.(cli_db).(db_servers))); [apply servers_print|..].
  - intros Hch. destruct (revoke_one args w) as [(fs & id & E)|He]; [|by rewrite He in Hch].
    exists fs, id. split; [done|]. intros Hr. apply Hch. unfold apikeyRevokeCommand.
    rewrite bind_parse, E, (bool_decide_eq_true_2 _ Hr). by apply local_revoke_client.
Qed.

End consent.

(** ** Servers by name *)

Section names.
Context `{UnicodeTables} `{Postgres} `{PgText} {G : Type}.
Context (x : Outside).

(** The errors of a statement that are not about missing rows. *)
Lemma Get_invalid key db : uuid_in key = None →
  ∃ m db', Get key db = (Err (Wrap "server store" (Opaque m)), db') ∧ db'.(db_servers) = db.(db_servers) ∧
    m ∈ ["connection failed"; "invalid input syntax for type uuid"].
Proof.
  intros Hu. unfold Get, wrap_error, statement. rewrite Hu.
  destruct db.(db_faults) as [|[] fs]; eexists _, _; (split; [reflexivity|split; [reflexivity|]]);
    [right; left|left|right; left].
Qed.

Lemma not_no_rows m : m ∈ ["connection failed"; "invalid input syntax for type uuid"] →
  no_rows (Wrap "server store" (Opaque m)) = false.
Proof. intros [->|[->|[]%elem_of_nil]%elem_of_cons]%elem_of_cons; vm_compute; reflexivity. Qed.

Lemma resolve_invalid key (w : Cli G) : uuid_in (TrimSpace key) = None →
  ∃ e w', resolveServerRecord key w = (Err e, w') ∧ w'.(cli_db).(db_servers) = w.(cli_db).(db_servers) ∧
    w'.(cli_out) = w.(cli_out).
Proof.
  intros Hu. unfold resolveServerRecord. case_bool_decide; [by eexists _, _|].
  destruct (Get_invalid _ w.(cli_db) Hu) as (m & db' & Hg & Hs & Hm).
  unfold bind, attempt, on_db. rewrite Hg. cbn [negb]. rewrite (not_no_rows m Hm). cbn [negb].
  eexists _, _. split; [reflexivity|]. by split.
Qed.

Lemma loadStore_same what (w : Cli G) : (loadStore x what w).2 = w.
Proof. unfold loadStore. by destruct (Load _ _); [|destruct (ou_opens x)]. Qed.

(** A server is found by its id only. The commands [server inspect] and
    [server deregister] take an id or a name, but they look for the id first, in a column
    whose type makes any other text an error instead of no row. So for every name that
    does not happen to read as an id, with a server of that name or without, they fail,
    deregister nothing and show nothing. *)
Theorem name_never_resolved args fs name (w : Cli G) :
  uuid_in (TrimSpace name) = None →
  (Parse ∅ args = Ok (fs, [name]) →
   is_ok (serverInspectCommand x args w).1 = false ∧ (serverInspectCommand x args w).2.(cli_out) = w.(cli_out)) ∧
  (Parse deregister_flags args = Ok (fs, [name]) →
   is_ok (serverDeregisterCommand x args w).1 = false ∧
   (serverDeregisterCommand x args w).2.(cli_db).(db_servers) = w.(cli_db).(db_servers)).
Proof.
  intros Hu. split; intros E; unfold serverInspectCommand, serverDeregisterCommand; rewrite bind_parse, E; unfold bind.
  - pose proof (loadStore_same "server" w) as Hl. destruct (loadStore x "server" w) as [[e|[]] w1]; cbn [snd] in Hl; subst w1; [done|].
    destruct (resolve_invalid name w Hu) as (e & w' & -> & _ & Ho). done.
  - assert (Hc : keeps_servers w.(cli_db).(db_servers) (confirmAction x ("Deregister server " +:+ name) (get_bool fs "force") w).2).
    { unfold confirmAction. destruct (get_bool fs "force"); [done|]. unfold bind, print, modify.
      destruct (read_line x) as [line []]; done. }
    destruct (confirmAction _ _ _ w) as [[e|[]] w1]; cbn [snd negb] in *; [done| |done].
    pose proof (loadStore_same "server" w1) as Hl. destruct (loadStore x "server" w1) as [[e|[]] w2]; cbn [snd] in Hl; subst w2; [done|].
    destruct (resolve_invalid name w1 Hu) as (e & w' & -> & Hs & _). cbn [snd]. split; [done|]. by rewrite Hs.
Qed.

End names.

(** ** Policy profiles and the gateway *)

Section ineffective.
Context `{UnicodeTables} `{TokenBuckets} `{Postgres} `{Entropy} {E : Type} `{SearchEngine E} {G : Type}.

(** What decides about calls: the profiles of the policy, the defaults of the limits, and
    the profiles the limits are resolved with. *)
Definition decides (w : EventsWorld E) : Engine * MemoryBackend * DefaultProfileResolver :=
  (w.(ew_engine), w.(ew_memory), w.(ew_resolver)).

Lemma start_nats_decides o env service store store' :
  decides (initNATS (E := E) o env (initPolicyAndRateLimit o service store)) =
  decides (initNATS o env (initPolicyAndRateLimit o service store')).
Proof.
  unfold initNATS. destruct (_ || _); [done|]. destruct (negb _); [done|]. destruct (NewClient _ _ _); [|done].
  unfold initEventSubscriber. by destruct (ne_Subscribe env).
Qed.

Lemma fallback_decides o (w : EventsWorld E) : decides (initDegradationFallback o w) = decides w.
Proof.
  unfold initDegradationFallback. destruct (negb _); [done|]. destruct (ew_degradation _); [done|].
  set (m := NewDegradationManager None o.(so_Database) false).
  destruct (load_without_subscriber m (ew_set_degradation (Some m) w) eq_refl) as (He & Hm & Hr & _).
  unfold decides. by rewrite He, Hm, Hr.
Qed.

(** [policy set] and [policy reset] change nothing a gateway does. Whatever they write
    to the table, a gateway that is started afterwards, with NATS or without, decides
    with the same profiles, rates and defaults as one started before: those of its
    environment and the built-in ones. *)
Theorem policy_set_ineffective x args (w : Cli G) o env service :
  let start store := decides (NewServer (E := E) o env service store) in
  start (policySetCommand x args w).2.(cli_config) = start w.(cli_config) ∧
  start (policyResetCommand x args w).2.(cli_config) = start w.(cli_config).
Proof. cbv zeta. unfold NewServer. rewrite !fallback_decides. split; apply start_nats_decides. Qed.

End ineffective.

(** ** Policy profiles are stored *)

(** A number that is written is a literal. *)
Lemma pretty_start x s : (0 < x)%N → ∃ a l, to_bytes (pretty_N_go x s) = a :: l ∧ one_of "0" a = false.
Proof.
  revert s. induction (N.lt_wf_0 x) as [x _ IH]; intros s Hx. rewrite pretty_N_go_step by done.
  destruct (decide (0 < x / 10)%N) as [Hd|Hd]; [apply IH; [apply N.div_lt; lia|done]|].
  assert ((x / 10)%N = 0%N) as -> by (apply N.le_0_r, N.nlt_ge, Hd). rewrite pretty_N_go_0.
  assert (Hs : (0 < x < 10)%N).
  { split; [done|]. destruct (N.lt_ge_cases x 10) as [|Hge]; [done|]. exfalso. apply Hd. by apply N.div_str_pos. }
  rewrite N.mod_small by lia. eexists _, _. split; [reflexivity|].
  destruct x as [|p]; [lia|]. do 4 (destruct p as [p|p|]; try reflexivity; try lia).
Qed.

Lemma digit_byte_digit a : digit_byte a = true → is_digit a = true ∧ one_of "-" a = false.
Proof. revert a. refine (every_byte _ _). by_evaluation. Qed.

Lemma literal_written z : (0 <= z)%Z → literal_ok (pretty z) = true.
Proof.
  intros Hz. destruct z as [|p|p]; [by vm_compute| |lia]. change (pretty (Z.pos p)) with (pretty_N_go (N.pos p) "").
  unfold literal_ok. apply bool_decide_eq_true.
  pose proof (pretty_N_go_digits (N.pos p) "" eq_refl) as Hd.
  destruct (pretty_start (N.pos p) "") as (a & l & E & Ha); [lia|]. rewrite E in *.
  assert (Hall : forallb is_digit (a :: l) = true).
  { rewrite forallb_forall in *. intros b Hb. by apply digit_byte_digit, Hd. }
  assert (Hm : one_of "-" a = false).
  { rewrite forallb_forall in Hd. apply digit_byte_digit, Hd. by left. }
  pose proof (digits_all (a :: l) [] Hall I) as Hdig. rewrite app_nil_r in Hdig.
  unfold number_text. rewrite Hm. unfold whole_text. rewrite Ha. unfold digits1. rewrite Hdig. cbn.
  by rewrite app_nil_r.
Qed.

(** A member of a document and the field that takes it. *)
Lemma member_found `{UnicodeTables} {N A B} (fields : list (string * decoder_of N A)) (get : A → B) set d k k' v (r : A) ok y ok' :
  List.find (λ f, EqualFold f.1 k) fields = Some (k', field get set d) → d v (get r) = (y, ok') →
  d_member fields (r, ok) (k, v) = (set y r, ok && ok').
Proof. intros Hf Hd. unfold d_member. cbn [fst snd]. rewrite Hf. cbn [fst snd]. unfold field. by rewrite Hd. Qed.

Ltac decode_members tac := repeat (erewrite member_found; [|reflexivity|tac]; cbn [andb]).

Section read_back.
Context `{UnicodeTables} {G : Type}.
Context (x : Outside).

(** Profiles as the table can hold them. *)
Record profile_ok (name : string) (p : PolicyProfile) : Prop := {
  po_name : p.(pp_Name) = name;
  po_nonblank : TrimSpace name ≠ "";
  po_limit : (0 <= p.(pp_RateLimit) <= max_int64)%Z;
  po_burst : (0 <= p.(pp_RateBurst) <= max_int64)%Z;
  po_texts : Forall (λ s, valid_utf8 s = true) (name :: p.(pp_ToolAllowlist) ++ p.(pp_ToolDenylist));
  po_mode : p.(pp_EnforcementMode) = ModeEnforce ∨ p.(pp_EnforcementMode) = ModeAudit;
}.

Lemma texts_decoded l cur : d_slice (N := string) d_string "" (texts l) cur = (l, true).
Proof.
  unfold d_slice, texts. revert cur. induction l as [|s l IH]; intros cur; [done|]. cbn [fmap list_fmap d_elements d_string].
  by rewrite IH.
Qed.

Lemma nil_texts_decoded l cur : d_slice (N := string) d_string "" (nil_texts l) cur = (l, true).
Proof. destruct l as [|s l]; [done|]. apply texts_decoded. Qed.

Lemma mode_decoded m cur : m = ModeEnforce ∨ m = ModeAudit → d_mode (AStr (mode_text m)) cur = (m, true).
Proof. by intros [-> | ->]. Qed.

Lemma int_decoded z cur : (0 <= z <= max_int64)%Z → d_int (ANum (pretty z)) cur = (z, true).
Proof. intros Hz. unfold d_int. by destruct (Atoi_written z Hz) as [-> _]. Qed.

Lemma texts_ok l : Forall (λ s, valid_utf8 s = true) l → document_ok (texts l) = true.
Proof. intros Hl. cbn. induction Hl as [|s l Hs _ IH]; [done|]. cbn. by rewrite Hs. Qed.

Lemma nil_texts_ok l : Forall (λ s, valid_utf8 s = true) l → document_ok (nil_texts l) = true.
Proof. destruct l; [done|]. apply texts_ok. Qed.

Lemma profile_decoded name p cur : profile_ok name p → d_struct profile_fields (profile_document p) cur = (p, true).
Proof.
  intros [Hn _ Hl Hb _ Hm]. unfold d_struct, profile_document. cbn [foldl].
  decode_members ltac:(first [by apply mode_decoded|by apply int_decoded|apply nil_texts_decoded|reflexivity]).
  by destruct p.
Qed.

Lemma texts_depth l : (document_depth (nil_texts l) <= 1)%N.
Proof.
  destruct l as [|s l]; [done|]. unfold nil_texts, texts. cbn [document_depth].
  enough (foldr (λ y d, N.max (document_depth y) d) 0%N (AStr <$> s :: l) = 0%N) as -> by done.
  induction (s :: l) as [|s' l' IH]; [done|]. cbn. by rewrite IH.
Qed.

Lemma profile_document_ok name p : profile_ok name p →
  document_ok (profile_document p) = true ∧ (document_depth (profile_document p) <= 2)%N.
Proof.
  intros [Hn _ Hl Hb Ht Hm]. apply Forall_cons in Ht as [Hname Ht]. apply Forall_app in Ht as [Ha Hd].
  split.
  - unfold profile_document. cbn [document_ok forallb fst snd]. rewrite !nil_texts_ok, Hn, Hname by done.
    rewrite !literal_written by lia. by destruct Hm as [-> | ->].
  - pose proof (texts_depth (pp_ToolAllowlist p)). pose proof (texts_depth (pp_ToolDenylist p)).
    unfold profile_document. cbn [document_depth foldr snd]. lia.
Qed.

Definition named_ok (p : PolicyProfile) : Prop := profile_ok p.(pp_Name) p.

Lemma policy_document_ok l : Forall named_ok l →
  document_ok (policy_document l) = true ∧ (document_depth (policy_document l) <= maxNestingDepth)%N.
Proof.
  intros Hl. unfold policy_document. cbn [document_ok document_depth forallb foldr fst snd].
  assert (forallb document_ok (profile_document <$> l) = true ∧
    (foldr (λ y d, N.max (document_depth y) d) 0 (profile_document <$> l) <= 2)%N) as [-> Hd].
  { induction Hl as [|p l Hp _ [IH1 IH2]]; [done|]. destruct (profile_document_ok _ p Hp) as [Hok Hdep].
    rewrite fmap_cons. cbn [forallb foldr]. rewrite Hok, IH1. split; [done|]. lia. }
  split; [done|]. unfold maxNestingDepth. lia.
Qed.

(** The list of the message. *)
Lemma profiles_decoded l : Forall named_ok l → d_policy_message (policy_document l) [] = (l, true).
Proof.
  intros Hl. unfold d_policy_message, policy_document, d_struct at 1. cbn [foldl].
  change (d_member _ _ _) with
    (let '(y, ok) := d_slice (d_struct profile_fields) zero_profile (AArr (profile_document <$> l)) [] in (y, true && ok)).
  enough (∀ cur, d_slice (d_struct profile_fields) zero_profile (AArr (profile_document <$> l)) cur = (l, true)) as ->; [done|].
  induction Hl as [|p l Hp _ IH]; intros cur; [done|]. cbn [fmap list_fmap d_slice d_elements].
  rewrite (profile_decoded _ p) by exact Hp. specialize (IH (tail cur)). cbn [d_slice] in IH. by rewrite IH.
Qed.

Lemma profiles_stored l : Forall named_ok l →
  unmarshal_whole d_policy_message [] (stored_bytes (json_print (policy_document l))) = (l, true).
Proof.
  intros Hl. destruct (policy_document_ok l Hl) as [Hok Hd]. unfold unmarshal_whole, stored_bytes. cbn [pd_first pd_trailing].
  rewrite json_roundtrip by done. by apply profiles_decoded.
Qed.

(** The map that is built from a list with a profile for each name. *)
Definition built (l : list PolicyProfile) : gmap string PolicyProfile :=
  foldl (λ m p, if bool_decide (TrimSpace p.(pp_Name) = "") then m else <[p.(pp_Name) := p]> m) ∅ l.

Lemma built_lookup l name : NoDup (pp_Name <$> l) → Forall (λ p, TrimSpace p.(pp_Name) ≠ "") l →
  built l !! name = List.find (λ p, bool_decide (p.(pp_Name) = name)) l.
Proof.
  unfold built. intros Hn Hb.
  enough (∀ m : gmap string PolicyProfile, (∀ p, p ∈ l → m !! p.(pp_Name) = None) →
    foldl (λ m p, if bool_decide (TrimSpace p.(pp_Name) = "") then m else <[p.(pp_Name) := p]> m) m l !! name =
    match List.find (λ p, bool_decide (p.(pp_Name) = name)) l with Some p => Some p | None => m !! name end) as Hg.
  { rewrite Hg by (intros; apply lookup_empty). rewrite lookup_empty. by destruct (List.find _ l). }
  induction l as [|p l IH]; intros m Hm; [done|]. cbn [foldl List.find].
  apply NoDup_cons in Hn as [Hp Hn]. apply Forall_cons in Hb as [Hbp Hb].
  rewrite (bool_decide_eq_false_2 _ Hbp). rewrite (IH Hn Hb).
  2: { intros q Hq. rewrite lookup_insert_ne; [by apply Hm; right|]. intros He. apply Hp. rewrite He. by apply list_elem_of_fmap_2. }
  case_bool_decide as He.
  - rewrite He. destruct (List.find _ l) as [q|] eqn:Hf.
    + apply List.find_some in Hf as [Hin%list_elem_of_In Hq%bool_decide_eq_true]. exfalso. apply Hp.
      rewrite He, <- Hq. by apply list_elem_of_fmap_2.
    + by rewrite lookup_insert_eq.
  - by rewrite lookup_insert_ne.
Qed.

Lemma names_complete (m : gmap string PolicyProfile) name : name ∈ sortedProfileNames m ↔ is_Some (m !! name).
Proof.
  unfold sortedProfileNames, sort_strings. rewrite merge_sort_Permutation, list_elem_of_fmap. split.
  - intros ([k v] & -> & Hin%elem_of_map_to_list). by exists v.
  - intros [v Hv]. exists (name, v). split; [done|]. by apply elem_of_map_to_list.
Qed.

Lemma names_NoDup (m : gmap string PolicyProfile) : NoDup (sortedProfileNames m).
Proof. unfold sortedProfileNames, sort_strings. rewrite merge_sort_Permutation. apply NoDup_fst_map_to_list. Qed.

(** The profiles in the order of their names. *)
Definition ordered (m : gmap string PolicyProfile) : list PolicyProfile := omap (λ name, m !! name) (sortedProfileNames m).

Lemma ordered_elem m p : map_Forall profile_ok m → p ∈ ordered m ↔ m !! p.(pp_Name) = Some p.
Proof.
  intros Hm. unfold ordered. rewrite list_elem_of_omap. split.
  - intros (name & _ & Hl). destruct (Hm name p Hl) as [Hn _ _ _ _ _]. by rewrite Hn.
  - intros Hl. exists p.(pp_Name). split; [|done]. apply names_complete. by exists p.
Qed.

Lemma ordered_names m : map_Forall profile_ok m → pp_Name <$> ordered m = sortedProfileNames m.
Proof.
  intros Hm. unfold ordered. assert (Hall : Forall (λ n, is_Some (m !! n)) (sortedProfileNames m)).
  { apply Forall_forall. intros n. apply names_complete. }
  induction Hall as [|n l [p Hp] _ IH]; [done|]. cbn [omap list_omap]. rewrite Hp. cbn [fmap list_fmap].
  f_equal; [|exact IH]. by destruct (Hm n p Hp).
Qed.

Lemma ordered_ok m : map_Forall profile_ok m → Forall named_ok (ordered m).
Proof.
  intros Hm. apply Forall_forall. intros p Hp. apply (ordered_elem m p Hm) in Hp. by apply Hm.
Qed.

Lemma built_back m : map_Forall profile_ok m → built (ordered m) = m.
Proof.
  intros Hm. apply map_eq. intros name. rewrite built_lookup.
  - destruct (List.find _ _) as [p|] eqn:Hf.
    + apply List.find_some in Hf as [Hin%list_elem_of_In Hn%bool_decide_eq_true]. subst name.
      symmetry. by apply ordered_elem.
    + destruct (m !! name) as [p|] eqn:Hl; [|done]. exfalso. pose proof (Hm name p Hl) as Hok.
      assert (Hp : p ∈ ordered m) by (apply (ordered_elem m p Hm); by rewrite (po_name _ _ Hok)).
      apply list_elem_of_In in Hp. pose proof (List.find_none _ _ Hf p Hp) as Hne. cbn in Hne.
      rewrite (po_name _ _ Hok), bool_decide_eq_true_2 in Hne; done.
  - rewrite ordered_names by done. apply names_NoDup.
  - eapply Forall_impl; [by apply ordered_ok|]. intros p Hp. apply (po_nonblank _ _ Hp).
Qed.

(** Loading does not change the table when nothing fails. *)
Lemma bind_load {A} (w : Cli G) m (k : gmap string PolicyProfile → ST (Cli G) A) :
  w.(cli_config).(cs_faults) = [] → (loadPolicyProfiles w).1 = Ok m → bind loadPolicyProfiles k w = k m w.
Proof.
  intros Hf Hm. assert (Hs : (loadPolicyProfiles w).2 = w).
  { unfold loadPolicyProfiles, bind, attempt, on_config, ConfigLoad, cs_context, cs_statement. rewrite Hf.
    assert (Hw : mkCli w.(cli_env) w.(cli_db) w.(cli_access) (mkConfigStore w.(cli_config).(cs_rows) (tail [])) w.(cli_client) w.(cli_out) = w).
    { destruct w as [env db a [rows faults] c o]. cbn in Hf |- *. by rewrite Hf. }
    destruct (_ !! _) as [raw|]; rewrite Hw.
    - destruct (unmarshal_whole _ _ _) as [message []]; done.
    - by destruct (no_rows _). }
  unfold bind. destruct (loadPolicyProfiles w) as [r w1]. cbn in Hm, Hs. by subst.
Qed.

(** C38: Profiles are stored. When [policy set] succeeds, the profiles that a later
    [policy] command loads are those that were there before, with the changed one in
    its place: written as JSON, kept in the table, and read back. *)
Theorem policy_set_read_back args fs arg (w : Cli G) cfg m p :
  let name := TrimSpace arg in
  Parse policy_flags args = Ok (fs, [arg]) → name ≠ "" →
  Load (getenv w.(cli_env)) x.(ou_id) = Ok cfg → x.(ou_opens) = true → w.(cli_config).(cs_faults) = [] →
  (loadPolicyProfiles w).1 = Ok m → changed_profile fs (resolveOrDefaultProfile name m) = Some p →
  map_Forall profile_ok (<[name := p]> m) →
  ∃ w', policySetCommand x args w = (Ok (), w') ∧ loadPolicyProfiles w' = (Ok (<[name := p]> m), w').
Proof.
  intros name Hparse Hne Hload Hopen Hf Hm Hp Hok. set (m' := <[name := p]> m) in *.
  set (saved := stored_bytes (json_print (policy_document (ordered m')))).
  set (rows := <[configCachePolicyKey := saved]> w.(cli_config).(cs_rows)).
  set (w' := mkCli w.(cli_env) w.(cli_db) w.(cli_access) (mkConfigStore rows []) w.(cli_client)
               (w.(cli_out) ++ [Line ("updated policy profile " +:+ name)])).
  exists w'. split.
  - unfold policySetCommand. rewrite bind_parse, Hparse. rewrite (bool_decide_eq_false_2 _ Hne).
    fold name. unfold bind at 1, loadStore. rewrite Hload, Hopen. rewrite (bind_load w m) by done. rewrite Hp.
    unfold bind, persistPolicyProfiles, cli_context, on_config, ConfigSave, cs_context, cs_statement. rewrite Hf. reflexivity.
  - unfold loadPolicyProfiles, bind, attempt, on_config, ConfigLoad, cs_context, cs_statement.
    cbn [cli_config cs_faults cs_rows w' tail]. unfold rows at 1. rewrite lookup_insert_eq.
    unfold saved at 1. rewrite (profiles_stored (ordered m')) by (by apply ordered_ok). cbn [negb].
    fold (built (ordered m')). rewrite built_back by done. unfold ret. rewrite bool_decide_eq_false_2; [done|].
    apply insert_non_empty.
Qed.

End read_back.

(** ** Reclassification *)

Section reclassification.
Context `{UnicodeTables} `{PgText} {G : Type}.
Context (x : Outside).

(** Rows are kept under the names of their tools, without white space around. *)
Definition names_kept (m : gmap string ToolClassification) : Prop :=
  map_Forall (λ k c, c.(tc_ToolName) = k ∧ trimmed k) m.

Definition with_classifications (m : gmap string ToolClassification) (w : Cli G) : Cli G :=
  mkCli w.(cli_env) (set_classifications m w.(cli_db)) w.(cli_access) w.(cli_config) w.(cli_client) w.(cli_out).

Definition replaced (m : gmap string ToolClassification) (c : ToolClassification) : gmap string ToolClassification :=
  if c.(tc_AutoClassified) then <[c.(tc_ToolName) := reclassified x c]> m else m.

Lemma reclassified_name c : tc_ToolName (reclassified x c) = c.(tc_ToolName).
Proof. unfold reclassified. by destruct (AutoClassify _ _). Qed.

Lemma reclassified_upsert c db : db.(db_faults) = [] → trimmed c.(tc_ToolName) →
  ClassificationUpsert (reclassified x c) db = (Ok (), set_classifications (<[c.(tc_ToolName) := reclassified x c]> db.(db_classifications)) db).
Proof.
  intros Hf Ht. unfold ClassificationUpsert, wrap_error, statement. rewrite Hf, reclassified_name, Ht.
  unfold reclassified. by destruct (AutoClassify _ _).
Qed.

Lemma reclassify_run l u (w : Cli G) : w.(cli_db).(db_faults) = [] → Forall (λ c, trimmed c.(tc_ToolName)) l →
  ∃ n, reclassify x l u w = (Ok n, with_classifications (foldl replaced w.(cli_db).(db_classifications) l) w).
Proof.
  intros Hf Hl. revert u w Hf. induction Hl as [|c l Hc _ IH]; intros u w Hf.
  - exists u. by destruct w as [env [now servers cls faults next] a cfg cl out].
  - cbn [reclassify foldl]. unfold replaced at 2. destruct (tc_AutoClassified c); cbn [negb].
    + unfold bind, cli_context, on_db. rewrite reclassified_upsert by done.
      match goal with |- context [reclassify x l _ ?v] => destruct (IH (S u) v Hf) as [n ->] end. by exists n.
    + by apply IH.
Qed.

Lemma replaced_all l m k : NoDup (tc_ToolName <$> l) → (∀ c, c ∈ l → m !! c.(tc_ToolName) = Some c) →
  foldl replaced m l !! k =
  if bool_decide (k ∈ tc_ToolName <$> l)
  then (λ c, if c.(tc_AutoClassified) then reclassified x c else c) <$> m !! k else m !! k.
Proof.
  revert m. induction l as [|c l IH]; intros m Hn Hm; [done|]. cbn [fmap list_fmap foldl].
  apply NoDup_cons in Hn as [Hc Hn].
  assert (Hkeep : ∀ k', k' ≠ c.(tc_ToolName) → replaced m c !! k' = m !! k').
  { intros k' Hk. unfold replaced. destruct (tc_AutoClassified c); [|done]. by rewrite lookup_insert_ne. }
  rewrite IH; [|done|].
  2: { intros d Hd. rewrite Hkeep; [by apply Hm; right|]. intros He. apply Hc. rewrite <- He. by apply list_elem_of_fmap_2. }
  destruct (decide (k = c.(tc_ToolName))) as [->|Hk].
  - rewrite (bool_decide_eq_false_2 _ Hc), (bool_decide_eq_true_2 (_ ∈ _ :: _)) by left.
    rewrite (Hm c) by left. cbn [fmap option_fmap option_map]. unfold replaced.
    destruct (tc_AutoClassified c); [by rewrite lookup_insert_eq|by apply Hm; left].
  - rewrite (Hkeep k Hk). apply (f_equal (λ b : bool, if b then _ else _)). apply bool_decide_ext. rewrite elem_of_cons. tauto.
Qed.

(** [tool auto-classify] touches the rows it may touch. Every row that was classified
    automatically is classified again from the name of the tool alone, every row an
    administrator has set stays as it is, and no row comes or goes. *)
Theorem auto_classify_correct args rest (w : Cli G) cfg :
  let m := w.(cli_db).(db_classifications) in
  Parse ∅ args = Ok rest → Load (getenv w.(cli_env)) x.(ou_id) = Ok cfg → x.(ou_opens) = true →
  w.(cli_db).(db_faults) = [] → names_kept m →
  ∃ w', toolAutoClassifyCommand x args w = (Ok (), w') ∧
    ∀ k, w'.(cli_db).(db_classifications) !! k = (λ c, if c.(tc_AutoClassified) then reclassified x c else c) <$> m !! k.
Proof.
  intros m Hparse Hload Hopen Hf Hm.
  unfold toolAutoClassifyCommand. rewrite bind_parse, Hparse. unfold bind at 1, loadStore. rewrite Hload, Hopen.
  set (l := merge_sort (by_text tc_ToolName) (map_to_list m).*2).
  assert (Hall : cli_context "list classifications" (on_db ClassificationGetAll) w = (Ok l, w)).
  { unfold cli_context, on_db, ClassificationGetAll, wrap_error, statement. rewrite Hf. by destruct w. }
  assert (Hin : ∀ c, c ∈ l ↔ m !! c.(tc_ToolName) = Some c).
  { intros c. unfold l. rewrite merge_sort_Permutation, list_elem_of_fmap. split.
    - intros ([k c'] & -> & Hk%elem_of_map_to_list). cbn. by rewrite (proj1 (Hm k c' Hk)).
    - intros Hk. exists (c.(tc_ToolName), c). split; [done|]. by apply elem_of_map_to_list. }
  assert (Hnames : tc_ToolName <$> l ≡ₚ (map_to_list m).*1).
  { unfold l. rewrite merge_sort_Permutation, <- list_fmap_compose. apply reflexive_eq, list_fmap_ext.
    intros i [k c] Hk. apply list_elem_of_lookup_2, elem_of_map_to_list in Hk. by destruct (Hm k c Hk). }
  destruct (reclassify_run l 0 w Hf) as [n Hrun].
  { apply Forall_forall. intros c Hc%Hin. by destruct (Hm _ _ Hc) as [_ ?]. }
  unfold bind at 1. rewrite Hall. unfold bind. rewrite Hrun. eexists. split; [reflexivity|]. intros k.
  cbn [cli_db with_classifications set_classifications db_classifications]. fold m. rewrite replaced_all.
  - case_bool_decide as Hk; [done|]. destruct (m !! k) as [c|] eqn:E; [|done]. exfalso. apply Hk.
    rewrite Hnames. apply list_elem_of_fmap. exists (k, c). split; [done|]. by apply elem_of_map_to_list.
  - rewrite Hnames. apply NoDup_fst_map_to_list.
  - intros c. apply Hin.
Qed.

End reclassification.

(** ** Instances *)

Section examples.
#[local] Existing Instance ascii_tables.
#[local] Existing Instance example_pg.
#[local] Existing Instance example_bcrypt.
#[local] Existing Instance example_text.

(** The standard input of the operator, and a world with one server. *)
Definition example_outside (stdin : string) : Outside :=
  mkOutside 500 (Some (replicate 16 "x"%char)) (Some (replicate 32 "k"%char)) 0 (to_bytes stdin) false true.
Definition cli_server : ServerRecord :=
  mkServerRecord "d1" "git" "spiffe://td/git" "" "10.0.0.1" 8443 "https" (mkCapability ["log"] [] []) StatusActive "default" None 1 ""
    SyncStateUnacked "" None None None "" 0 0.
Definition example_cli (classifications : gmap string ToolClassification) : Cli () :=
  mkCli {[ "MCPGW_DB_URL" := "postgres://db/mcpgw" ]} (mkDB 500 {[ "d1" := cli_server ]} classifications [] 2)
    (mkAccessDB 500 ∅ ∅ ∅ [] 0) (mkConfigStore ∅ []) (mkClient 500 (mkDisk true None None []) ()) [].
Definition no_post (url : string) (f : form) (g : ()) : HttpAnswer * Z * () := (NoAnswer, 0%Z, g).
Definition no_send (r : KeyRequest) (g : ()) : KeyResponse * Z * () := (None, 0%Z, g).

Lemma changes_confirmed_witness :
  ((serverDeregisterCommand (example_outside "Yes
") ["d1"] (example_cli ∅)).2.(cli_db).(db_servers) = ∅ ∧ confirmed (example_outside "Yes
")) ∧
  (∃ fs, apikeyRevokeCommand no_post no_send 0 (example_outside "no") ["--gateway-url=http://gw"; "k1"] (example_cli ∅) =
     (let* out := on_client (remoteAPIKeyRevoke no_post no_send 0 (remote_url fs) "k1") in print_all out) (example_cli ∅) ∧
     remote_url fs = "http://gw").
Proof.
  split.
  - set (x := example_outside "Yes
"). assert (He : (serverDeregisterCommand x ["d1"] (example_cli ∅)).2.(cli_db).(db_servers) = ∅) by (vm_compute; reflexivity).
    split; [exact He|].
    destruct (changes_confirmed no_post no_send 0 x ["d1"] (example_cli ∅)) as (_ & Hs & _).
    destruct Hs as (fs & name & Hp & [Hf|Hc]); [by rewrite He| |exact Hc].
    assert (Hd : Parse deregister_flags ["d1"] = Ok (deregister_flags, ["d1"])) by reflexivity.
    rewrite Hd in Hp. injection Hp as <- _. discriminate Hf.
  - destruct (changes_confirmed no_post no_send 0 (example_outside "no") ["--gateway-url=http://gw"; "k1"] (example_cli ∅))
      as (_ & _ & _ & Hr).
    exists (<["gateway-url" := FString "http://gw"]> revoke_flags). split; [|reflexivity].
    apply (Hr _ "k1"); [reflexivity|]. vm_compute. discriminate.
Defined.

Lemma name_never_resolved_witness :
  (∃ r, GetByName "git" (example_cli ∅).(cli_db) = (Ok r, (example_cli ∅).(cli_db))) ∧
  is_ok (serverInspectCommand (example_outside "") ["git"] (example_cli ∅)).1 = false.
Proof.
  split; [eexists; vm_compute; reflexivity|].
  assert (Hu : uuid_in (TrimSpace "git") = None) by (vm_compute; reflexivity).
  destruct (name_never_resolved (example_outside "") ["git"] ∅ "git" (example_cli ∅) Hu) as [Hi _].
  exact (proj1 (Hi eq_refl)).
Defined.

Definition example_args : list string := ["--rate-limit"; "0x20"; "--tool-denylist=rm, rm,,git.push"; "premium"].
Definition example_flags : flags :=
  <["tool-denylist" := FString "rm, rm,,git.push"]> (<["rate-limit" := FInt 32]> policy_flags).
Definition example_profile : PolicyProfile := mkPolicyProfile "premium" 32 100 [] ["rm"; "git.push"] ModeEnforce.

Lemma policy_set_read_back_witness :
  ∃ w', policySetCommand (example_outside "") example_args (example_cli ∅) = (Ok (), w') ∧
    loadPolicyProfiles w' = (Ok (<["premium" := example_profile]> cliDefaultProfiles), w').
Proof.
  destruct (Load (getenv (example_cli ∅).(cli_env)) (example_outside "").(ou_id)) as [e|cfg] eqn:Hl;
    [exfalso; revert Hl; vm_compute; discriminate|].
  assert (H1 : Parse policy_flags example_args = Ok (example_flags, ["premium"])) by reflexivity.
  assert (H2 : (loadPolicyProfiles (example_cli ∅)).1 = Ok cliDefaultProfiles) by reflexivity.
  assert (H3 : changed_profile example_flags (resolveOrDefaultProfile "premium" cliDefaultProfiles) = Some example_profile)
    by (vm_compute; reflexivity).
  apply (policy_set_read_back (example_outside "") example_args example_flags "premium" (example_cli ∅) cfg cliDefaultProfiles example_profile
           H1 ltac:(discriminate) Hl eq_refl eq_refl H2 H3).
  intros name p Hin. apply elem_of_map_to_list in Hin. revert Hin.
  assert (Hall : Forall (λ q, profile_ok q.1 q.2) (map_to_list (<["premium" := example_profile]> cliDefaultProfiles))).
  { vm_compute. repeat constructor; by_evaluation. }
  rewrite Forall_forall in Hall. intros Hin. exact (Hall _ Hin).
Defined.

(** A tool that its description classified, and one an administrator classified. *)
Definition example_rows : gmap string ToolClassification :=
  <["frob" := mkToolClassification "frob" (AutoClassify "frob" "deletes everything").1 "" true "auto" 0]>
    {[ "nuke" := mkToolClassification "nuke" RiskDestructive "known" false "admin" 0 ]}.

(** The tool that its description called destructive is unknown afterwards. *)
Lemma auto_classify_correct_witness :
  (tc_RiskLevel <$> example_rows !! "frob") = Some RiskDestructive ∧
  ∃ w', toolAutoClassifyCommand (example_outside "") [] (example_cli example_rows) = (Ok (), w') ∧
    (tc_RiskLevel <$> w'.(cli_db).(db_classifications) !! "frob") = Some RiskUnknown ∧
    w'.(cli_db).(db_classifications) !! "nuke" = Some (mkToolClassification "nuke" RiskDestructive "known" false "admin" 0).
Proof.
  split; [vm_compute; reflexivity|].
  destruct (Load (getenv (example_cli example_rows).(cli_env)) (example_outside "").(ou_id)) as [e|cfg] eqn:Hl;
    [exfalso; revert Hl; vm_compute; discriminate|].
  destruct (auto_classify_correct (example_outside "") [] (∅, []) (example_cli example_rows) cfg eq_refl Hl eq_refl eq_refl) as (w' & Hrun & Hk).
  { intros k c Hin. apply elem_of_map_to_list in Hin. revert Hin.
    assert (Hall : Forall (λ q, q.2.(tc_ToolName) = q.1 ∧ trimmed q.1) (map_to_list example_rows)) by by_evaluation.
    rewrite Forall_forall in Hall. intros Hin. exact (Hall _ Hin). }
  exists w'. split; [exact Hrun|]. rewrite !Hk. split; vm_compute; reflexivity.
Defined.

End examples.
