(* ===== verification/RemoteProps.v ===== *)
(** * Keys of a remote gateway

    - [remote_create_correct]: the command, the request and the endpoint together, next
      to the command on the tables themselves: they store the same key, but for the
      servers it may reach.
    - [remote_revoke_unconfirmed]: no question is asked. *)

From stdpp Require Import pretty.
From S2P Require Import Prelude GoStrings Encoding GoNet Json GoParse Document JsonText Codec Types RegTypes Store AccessStore Auth AuthProps.
From S2P Require Import Classification GoFloat Registration Policy RateLimit Events Config AdminStore AdminOps AdminData GatewayProps.
From S2P Require Import AdminAuthProps Forms DeviceFlow DeviceFlowProps Client RemoteKeys Flags Commands CommandsProps.

#[local] Open Scope string_scope.
#[local] Open Scope list_scope.
#[local] Open Scope nat_scope.
#[local] Open Scope go_scope.
#[local] Opaque LookupHashAPIKey.

(** ** Scopes and times of expiry, here and there *)

Lemma merge_scopes_idem acc l :
  Forall (λ s, TrimSpace s = s ∧ s ≠ "") l → NoDup (acc ++ l) → merge_scopes acc l = acc ++ l.
Proof.
  intros Hl. revert acc. induction Hl as [|s l [Ht Hs] _ IH]; intros acc Hn; cbn [merge_scopes]; [by rewrite app_nil_r|].
  rewrite Ht, (bool_decide_eq_false_2 _ Hs). rewrite bool_decide_eq_false_2.
  2: { apply NoDup_app in Hn as (_ & Hd & _). intros Hin. by apply (Hd s Hin); left. }
  cbn [orb]. rewrite IH; rewrite <- (assoc_L (++)); [done|exact Hn].
Qed.

Lemma parseScopes_trimmed raw s : s ∈ parseScopes raw → TrimSpace s = s ∧ s ≠ "".
Proof.
  unfold parseScopes. rewrite merge_scopes_elem. intros [[]%elem_of_nil|[Hs (t & -> & _)%list_elem_of_fmap]].
  split; [apply TrimSpace_idemp|done].
Qed.

(** The endpoint does nothing to scopes that the command has read. *)
Lemma scopes_agree raw : dedupeScopes (parseScopes raw) = parseScopes raw.
Proof.
  unfold dedupeScopes. apply (merge_scopes_idem []).
  - apply Forall_forall. intros s. apply parseScopes_trimmed.
  - apply merge_scopes_NoDup, NoDup_nil_2.
Qed.

(** A time of expiry the endpoint accepts is the one the command computes. *)
Lemma expiry_agrees now raw e : parseAPIKeyExpiry now raw = Some e → parseExpiry now raw = Some e.
Proof.
  unfold parseAPIKeyExpiry, parseExpiry, parseExtendedDuration. case_bool_decide; [done|].
  rewrite TrimSpace_idemp. destruct (CutSuffix _ _) as [number|]; [|done].
  destruct (Atoi _) as [days|]; [|done]. by destruct (days <=? 0)%Z.
Qed.

(** ** The request *)

Section request.
Context `{UnicodeTables}.

Definition request_texts (r : remoteCreateRequest) : list string :=
  r.(rq_Name) :: r.(rq_Expires) :: r.(rq_ClientID) :: r.(rq_Profile) :: r.(rq_Scopes).

Lemma omitempty_ok key s : valid_utf8 key = true → valid_utf8 s = true →
  forallb (λ p, valid_utf8 p.1 && document_ok p.2) (omitempty key s) = true.
Proof. intros Hk Hs. unfold omitempty. case_bool_decide; [done|]. cbn [forallb fst snd document_ok]. by rewrite Hk, Hs. Qed.

Lemma texts_flat l : (document_depth (texts l) <= 1)%N.
Proof. destruct l as [|s l]; [done|]. apply (texts_depth (s :: l)). Qed.

Lemma remote_document_ok r : Forall (λ s, valid_utf8 s = true) (request_texts r) →
  document_ok (remote_document r) = true ∧ (document_depth (remote_document r) <= maxNestingDepth)%N.
Proof.
  unfold request_texts. rewrite !Forall_cons. intros (Hn & He & Hc & Hp & Hs). unfold remote_document. split.
  - cbn [document_ok]. rewrite !forallb_app, !omitempty_ok by done. cbn [forallb fst snd]. rewrite texts_ok by done.
    cbn [document_ok]. by rewrite Hn.
  - pose proof (texts_flat r.(rq_Scopes)). unfold omitempty, maxNestingDepth.
    repeat case_bool_decide; cbn [app document_depth foldr snd]; cbn [document_depth] in *; lia.
Qed.

(** What the endpoint reads of the request: everything the command has put in, and no
    servers. *)
Definition received (r : remoteCreateRequest) : createAPIKeyAPIRequest :=
  mkCreateRequest r.(rq_Name) r.(rq_Scopes) r.(rq_Expires) r.(rq_ClientID) r.(rq_Profile) [].

Lemma remote_decoded r : unmarshal (d_struct request_fields) (remote_document r) no_request = Some (received r).
Proof.
  unfold unmarshal, d_struct, remote_document, omitempty, received. destruct r as [name scopes expires client profile].
  cbn [rq_Name rq_Scopes rq_Expires rq_ClientID rq_Profile].
  repeat case_bool_decide; subst; cbn [app foldl];
    decode_members ltac:(first [apply texts_decoded|reflexivity]); reflexivity.
Qed.

Lemma first_of_parse s v : json_parse s = Some v → json_first s = Some v.
Proof.
  unfold json_parse, json_first. destruct (value _ _ _) as [[v' rest]|]; [|done]. by destruct (skip_space rest).
Qed.

Lemma request_received r : Forall (λ s, valid_utf8 s = true) (request_texts r) →
  decode_request (json_print (remote_document r)) = Some (received r).
Proof.
  intros Ht. destruct (remote_document_ok r Ht) as [Hok Hd]. unfold decode_request.
  rewrite (first_of_parse _ (remote_document r)) by (by apply json_roundtrip). apply remote_decoded.
Qed.

End request.

(** ** The answer *)

Section answer.
Context `{UnicodeTables}.

Lemma member_missing {N A} (fields : list (string * decoder_of N A)) acc k v :
  List.find (λ f, EqualFold f.1 k) fields = None → d_member fields acc (k, v) = acc.
Proof. intros Hf. unfold d_member. cbn [fst snd]. by rewrite Hf. Qed.

Lemma field_decoded {N R A} (get : R → A) set (d : decoder_of N A) v r y ok :
  d v (get r) = (y, ok) → field get set d v r = (set y r, ok).
Proof. intros Hd. unfold field. by rewrite Hd. Qed.

(** What the command sees of a key. *)
Definition remote_view (v : apiKeyView) : remoteKeyView :=
  mkRemoteView v.(kv_ID) v.(kv_Name) v.(kv_ClientID) v.(kv_Scopes) v.(kv_PolicyProfile) v.(kv_ExpiresAt) v.(kv_CreatedAt).

Lemma nullable_decoded t cur : d_text_ptr (N := string) (nullable t) cur = (t, true).
Proof. by destruct t. Qed.

Lemma created_decoded resp :
  unmarshal d_remote_response (created_document resp) (mkRemoteResponse no_view "") =
  Some (mkRemoteResponse (remote_view (key_view resp.(ca_Record))) resp.(ca_APIKey)).
Proof.
  unfold unmarshal, d_remote_response, d_struct, created_document, view_members. destruct resp as [k key]. cbn [ca_Record ca_APIKey].
  generalize (key_view k). intros [id name client scopes profile servers expires created].
  cbn [kv_ID kv_Name kv_ClientID kv_Scopes kv_PolicyProfile kv_ServerScope kv_ExpiresAt kv_CreatedAt app foldl].
  repeat (first [erewrite member_found;
                   [|reflexivity|cbn [snd]; first [apply field_decoded, texts_decoded|apply field_decoded, nullable_decoded|reflexivity]]
                |rewrite (member_missing remote_response_fields (_, _) "server_scope") by reflexivity];
          cbn [andb rr_View rr_APIKey rv_ID rv_Name rv_ClientID rv_Scopes rv_PolicyProfile rv_ExpiresAt rv_CreatedAt]).
  reflexivity.
Qed.

Definition view_texts (v : apiKeyView) : list string :=
  v.(kv_ID) :: v.(kv_Name) :: v.(kv_ClientID) :: v.(kv_PolicyProfile) :: v.(kv_CreatedAt) :: default "" v.(kv_ExpiresAt) :: v.(kv_Scopes) ++ v.(kv_ServerScope).

Lemma view_members_ok v : Forall (λ s, valid_utf8 s = true) (view_texts v) →
  forallb (λ p, valid_utf8 p.1 && document_ok p.2) (view_members v) = true ∧
  (foldr (λ p n, N.max (document_depth p.2) n) 0 (view_members v) <= 1)%N.
Proof.
  unfold view_texts, view_members. destruct v as [id name client scopes profile servers expires created].
  cbn [kv_ID kv_Name kv_ClientID kv_Scopes kv_PolicyProfile kv_ServerScope kv_ExpiresAt kv_CreatedAt].
  rewrite !Forall_cons, Forall_app. intros (Hid & Hn & Hc & Hp & Hcr & He & Hs & Hss). split.
  - cbn [forallb fst snd]. rewrite !texts_ok by done. cbn [document_ok]. rewrite Hid, Hn, Hc, Hp, Hcr.
    destruct expires as [s|]; [change (valid_utf8 s = true) in He; cbn [nullable document_ok]; by rewrite He|done].
  - pose proof (texts_flat scopes). pose proof (texts_flat servers).
    assert (document_depth (nullable expires) = 0%N) by (by destruct expires).
    cbn [document_depth foldr snd]. cbn [document_depth] in *. lia.
Qed.

Lemma created_document_ok resp :
  Forall (λ s, valid_utf8 s = true) (resp.(ca_APIKey) :: view_texts (key_view resp.(ca_Record))) →
  document_ok (created_document resp) = true ∧ (document_depth (created_document resp) <= maxNestingDepth)%N.
Proof.
  intros [Hk Hv]%Forall_cons. destruct (view_members_ok _ Hv) as [Hok Hd]. unfold created_document.
  cbn [document_ok document_depth]. rewrite forallb_app, Hok, foldr_app. cbn [forallb foldr fst snd document_ok document_depth].
  rewrite Hk. split; [done|]. change (N.max 0 0) with 0%N. unfold maxNestingDepth. lia.
Qed.

(** The answer is read back, with the line break after it. *)
Lemma written_json v : document_ok v = true → (document_depth v <= maxNestingDepth)%N →
  json_parse (of_bytes (write_json v)) = Some v.
Proof.
  intros Hok Hd. unfold json_parse, write_json. rewrite to_of_bytes.
  rewrite (reads_all v _ maxNestingDepth line_break Hok); [done|by split|done|]. unfold enough. lia.
Qed.

Lemma answer_read resp :
  Forall (λ s, valid_utf8 s = true) (resp.(ca_APIKey) :: view_texts (key_view resp.(ca_Record))) →
  unmarshal_body d_remote_response (mkRemoteResponse no_view "") (write_json (created_document resp)) =
  Some (mkRemoteResponse (remote_view (key_view resp.(ca_Record))) resp.(ca_APIKey)).
Proof.
  intros Ht. destruct (created_document_ok resp Ht) as [Hok Hd]. unfold unmarshal_body. rewrite written_json by done.
  apply created_decoded.
Qed.

End answer.

(** ** The command, the gateway, and the tables *)

Section create.
Context `{UnicodeTables} `{Bcrypt} `{Postgres}.
Context (post : string → form → AccessDB → HttpAnswer * Z * AccessDB).
Context (off : Z) (opts : AuthOptions) (x : Outside) (took : Z).

(** The route of a request to the gateway at [base]. *)
Definition route_of (base : string) (r : KeyRequest) : option KeyRoute :=
  if bool_decide (r.(kq_URL) = base +:+ "/v1/apikeys") then
    if bool_decide (r.(kq_Method) = "POST") then Some (RouteCreate (default [] r.(kq_Body)))
    else if bool_decide (r.(kq_Method) = "GET") then Some RouteList else None
  else
    match GoStrings.strip_prefix (to_bytes (base +:+ "/v1/apikeys/")) (to_bytes r.(kq_URL)) with
    | Some id => if bool_decide (r.(kq_Method) = "DELETE") then Some (RouteRevoke (of_bytes id)) else None
    | None => None
    end.

(** The gateway at [base], with the clock and the draws of [x]. *)
Definition key_server (base : string) (r : KeyRequest) (db : AccessDB) : KeyResponse * Z * AccessDB :=
  match route_of base r with
  | None => (Some (404%Z, Some []), took, db)
  | Some route =>
      let '((status, body), db) := MountAPIKeyAPI opts x.(ou_now) x.(ou_key) x.(ou_salt) (bearer r.(kq_Token)) route db in
      (Some (status, Some body), took, db)
  end.

(** The row that the flags ask for, with the servers it may reach. *)
Definition flag_key (fs : flags) (serverScope : list string) (h b : string) (expires : option Z) (db : AccessDB) : APIKey :=
  let name := TrimSpace (get_string fs "name") in
  let client := TrimSpace (get_string fs "client-id") in
  let profile := TrimSpace (get_string fs "profile") in
  mkAPIKey (gen_random_uuid db.(ac_next)) h b name (parseScopes (get_string fs "scopes"))
    (if bool_decide (client = "") then name else client) (if bool_decide (profile = "") then "default" else profile)
    serverScope expires db.(ac_now).

Definition with_key (k : APIKey) (db : AccessDB) : AccessDB :=
  set_ac_next (S db.(ac_next)) (set_ac_keys (<[gen_random_uuid db.(ac_next) := k]> db.(ac_keys)) db).

(** The insertion, for both. *)
Lemma KeyCreate_stores fs scope h b e db :
  db.(ac_faults) = [] → find_key db.(ac_keys) h = None →
  let k := flag_key fs scope h b e db in
  KeyCreate (mkAPIKey "" h b k.(ak_Name) k.(ak_Scopes) k.(ak_ClientID) k.(ak_PolicyProfile) scope e zero_time) db =
  (Ok (), with_key k db).
Proof.
  intros Hf Hn k. unfold KeyCreate, AccessStore.in_context, AccessStore.exec. rewrite Hf. cbn [ak_KeyLookupHash]. rewrite Hn.
  cbn [ak_PolicyProfile ak_KeyBcryptHash ak_Name ak_Scopes ak_ClientID ak_ServerScope ak_ExpiresAt].
  rewrite (bool_decide_eq_false_2 (_ = "")); [done|]. unfold k, flag_key. cbn [ak_PolicyProfile]. by case_bool_decide.
Qed.

Lemma lookup_after h db : db.(ac_faults) = [] → ∃ r, GetByLookupHash h db = (r, db) ∧
  match r with Ok k => find_key db.(ac_keys) h = Some k | Err _ => True end.
Proof.
  intros Hf. unfold GetByLookupHash, AccessStore.in_context, AccessStore.exec. rewrite Hf.
  destruct (find_key _ h) as [k|]; [|by eexists]. destruct (key_live _ k); by eexists.
Qed.

(** The endpoint on the request of the command. *)
Lemma handleCreate_received fs h b key e db :
  let r := mkRemoteCreate (TrimSpace (get_string fs "name")) (parseScopes (get_string fs "scopes")) (TrimSpace (get_string fs "expires"))
             (TrimSpace (get_string fs "client-id")) (TrimSpace (get_string fs "profile")) in
  GenerateAPIKey x.(ou_key) x.(ou_salt) = Some (key, h, b) → db.(ac_faults) = [] → find_key db.(ac_keys) h = None →
  TrimSpace (get_string fs "name") ≠ "" → parseScopes (get_string fs "scopes") ≠ [] →
  parseAPIKeyExpiry x.(ou_now) (get_string fs "expires") = Some e →
  let k := flag_key fs [] h b e db in
  ∃ id created, handleCreate x.(ou_now) x.(ou_key) x.(ou_salt) (Some (received r)) db =
    (KeyCreated (mkCreateResponse (mkAPIKey id h b k.(ak_Name) k.(ak_Scopes) k.(ak_ClientID) k.(ak_PolicyProfile) [] e created) key),
     with_key k db) ∧ (id = "" ∨ id = gen_random_uuid db.(ac_next)).
Proof.
  intros r Hg Hf Hnone Hname Hscopes He k. unfold handleCreate, received.
  cbn [cr_Name cr_Scopes cr_Expires cr_ClientID cr_Profile cr_ServerScope r rq_Name rq_Scopes rq_Expires rq_ClientID rq_Profile].
  rewrite !TrimSpace_idemp, scopes_agree, (bool_decide_eq_false_2 _ Hname).
  assert (Hexp : (if bool_decide (TrimSpace (get_string fs "expires") = "") then Some None
                  else parseAPIKeyExpiry x.(ou_now) (TrimSpace (get_string fs "expires"))) = Some e).
  { revert He. unfold parseAPIKeyExpiry. rewrite TrimSpace_idemp. by case_bool_decide. }
  rewrite Hexp, Hg.
  pose proof (KeyCreate_stores fs [] h b e db Hf Hnone) as Hk. cbv zeta in Hk. fold k in Hk.
  assert (Hs : match parseScopes (get_string fs "scopes") with [] => ["read"] | s :: l => s :: l end = k.(ak_Scopes)).
  { change (ak_Scopes k) with (parseScopes (get_string fs "scopes")). by destruct (parseScopes _). }
  change (dedupeScopes []) with (@nil string). cbv zeta. rewrite Hs.
  change (TrimSpace (get_string fs "name")) with k.(ak_Name).
  change (if bool_decide (TrimSpace (get_string fs "client-id") = "") then _ else _) with k.(ak_ClientID).
  change (if bool_decide (TrimSpace (get_string fs "profile") = "") then _ else _) with k.(ak_PolicyProfile).
  rewrite Hk. destruct (lookup_after h (with_key k db) Hf) as ([err|stored] & Hl & Hstored); rewrite Hl.
  - exists "", zero_time. split; [reflexivity|by left].
  - exists stored.(ak_ID), stored.(ak_CreatedAt). split; [reflexivity|]. right.
    apply find_key_Some in Hstored as (i & Hi & Hh). cbn [with_key ac_keys set_ac_next set_ac_keys] in Hi.
    apply lookup_insert_Some in Hi as [[_ <-]|[_ Hi]]; [done|]. by destruct (find_key_None _ _ _ _ Hnone Hi).
Qed.

(** A request with the token of the file, when it does not have to be renewed. *)
Lemma authorized_request send method url body (c : ClientWorld AccessDB) t d :
  LoadTokens c.(cl_disk) = (Ok t, d) → NeedsRefresh c.(cl_now) t = false → url_Parse url ≠ None →
  apiKeyHTTPRequest post send off method url body c =
  let '(answer, took, g) := send (mkKeyRequest method url t.(tk_AccessToken) body) c.(cl_gateway) in
  (match answer with
   | None => Err (Opaque "request failed")
   | Some (status, body) =>
       if (status =? 401)%Z then Err (Opaque "unauthorized: access token may be expired (run 'mcpgw auth login')")
       else Ok (status, body)
   end, mkClient (c.(cl_now) + Z.max 0 took) d g).
Proof.
  intros Hl Hr Hu. unfold apiKeyHTTPRequest, bind at 1, DeviceFlow.in_context at 1, loadAndRefreshToken, bind at 1.
  unfold DeviceFlow.in_context at 1, on_disk. rewrite Hl. unfold bind, gets. cbn [cl_now]. rewrite Hr. cbn [negb ret].
  rewrite (bool_decide_eq_false_2 _ Hu). reflexivity.
Qed.

(** What the outside has to provide for a request of the command. *)
Record key_ready (fs : flags) (c : ClientWorld AccessDB) (t : CachedTokens) (d : TokenDisk) (db : AccessDB) (key h b : string)
    (e : option Z) : Prop := {
  kr_url : url_Parse (remote_url fs +:+ "/v1/apikeys") ≠ None;
  kr_tokens : LoadTokens c.(cl_disk) = (Ok t, d);
  kr_fresh : NeedsRefresh c.(cl_now) t = false;
  kr_auth : ∃ id scope reg, AuthMiddleware opts x.(ou_now) (bearer t.(tk_AccessToken)) c.(cl_gateway) = (AuthNext id scope reg, db);
  kr_key : GenerateAPIKey x.(ou_key) x.(ou_salt) = Some (key, h, b);
  kr_faults : db.(ac_faults) = [];
  kr_new : find_key db.(ac_keys) h = None;
  kr_name : TrimSpace (get_string fs "name") ≠ "";
  kr_scopes : parseScopes (get_string fs "scopes") ≠ [];
  kr_expires : parseAPIKeyExpiry x.(ou_now) (get_string fs "expires") = Some e;
  kr_texts : Forall (λ s, valid_utf8 s = true)
    (gen_random_uuid db.(ac_next) :: TrimSpace (get_string fs "name") :: TrimSpace (get_string fs "expires") ::
     TrimSpace (get_string fs "client-id") :: TrimSpace (get_string fs "profile") :: parseScopes (get_string fs "scopes"));
}.

Lemma key_valid key h b : GenerateAPIKey x.(ou_key) x.(ou_salt) = Some (key, h, b) → valid_utf8 key = true.
Proof.
  intros (Hu & _)%generated_key_url. apply ascii_valid. unfold is_ascii. apply forallb_forall.
  intros a Ha%list_elem_of_In. unfold url_text in Hu. rewrite Forall_forall in Hu. specialize (Hu a Ha).
  destruct (url_char_graphic a Hu) as [Hg _]. revert Hg. unfold graphic, in_range. rewrite andb_true_iff, !N.leb_le, N.ltb_lt. lia.
Qed.

Lemma create_remotely fs c t d db key h b e :
  key_ready fs c t d db key h b e →
  ∃ out id, remoteAPIKeyCreate post (key_server (remote_url fs)) off (remote_url fs) (get_string fs "name") (get_string fs "scopes")
      (get_string fs "expires") (get_string fs "client-id") (get_string fs "profile") c =
    (Ok (out ++ [Line ("API Key: " +:+ key)]),
     mkClient (c.(cl_now) + Z.max 0 took) d (with_key (flag_key fs [] h b e db) db)) ∧ head out = Some (Line ("ID: " +:+ id)) ∧
    (id = "" ∨ id = gen_random_uuid db.(ac_next)).
Proof.
  intros [Hurl Htok Hfresh (caller & scope & reg & Hauth) Hkey Hf Hnew Hname Hscopes He Ht].
  unfold remoteAPIKeyCreate. rewrite (bool_decide_eq_false_2 _ Hname), (bool_decide_eq_false_2 _ Hscopes).
  unfold bind at 1. rewrite (authorized_request _ _ _ _ _ t d) by done.
  unfold key_server at 1, route_of. cbn [kq_URL kq_Method kq_Body kq_Token]. rewrite !(bool_decide_eq_true_2 (_ = _)) by done.
  cbn [default from_option id]. unfold MountAPIKeyAPI. rewrite Hauth.
  rewrite !Forall_cons in Ht. destruct Ht as (Hid & Hn & Hx & Hc & Hp & Hs).
  rewrite request_received by (unfold request_texts; rewrite !Forall_cons; by split_and!).
  destruct (handleCreate_received fs h b key e db Hkey Hf Hnew Hname Hscopes He) as (nid & created & Hcr & Hnid).
  rewrite Hcr. cbn [encode_answer]. unfold of_result, expect_status, bind. cbn [fst snd Z.eqb Pos.eqb negb].
  match goal with |- context [created_document ?r] => set (resp := r) end.
  rewrite (answer_read resp).
  - cbn [rr_View rr_APIKey]. eexists [_; _; _; _], nid. split_and!; [reflexivity|reflexivity|done].
  - unfold view_texts, key_view. cbn [ca_Record ca_APIKey resp kv_ID kv_Name kv_ClientID kv_PolicyProfile kv_CreatedAt kv_ExpiresAt kv_Scopes kv_ServerScope
      ak_ID ak_Name ak_ClientID ak_PolicyProfile ak_CreatedAt ak_ExpiresAt ak_Scopes ak_ServerScope flag_key].
    rewrite app_nil_r, !Forall_cons. split_and!; [by eapply key_valid|by destruct Hnid as [-> | ->]|done| | | | |done].
    + by case_bool_decide.
    + by case_bool_decide.
    + apply ascii_valid, format_ascii.
    + destruct e as [z|]; [apply ascii_valid, format_ascii|done].
Qed.

Lemma print_all_run {G} l (w : Cli G) :
  print_all l w = (Ok (), mkCli w.(cli_env) w.(cli_db) w.(cli_access) w.(cli_config) w.(cli_client) (w.(cli_out) ++ l)).
Proof.
  revert w. induction l as [|o l IH]; intros w; [rewrite app_nil_r; by destruct w|].
  unfold print_all in *. cbn [for_each]. unfold bind, print, modify. rewrite IH. cbn [cli_env cli_db cli_access cli_config cli_client cli_out].
  by rewrite <- (assoc_L (++)).
Qed.

Lemma create_locally {G} fs (w : Cli G) db cfg key h b e :
  w.(cli_access) = db → Load (getenv w.(cli_env)) x.(ou_id) = Ok cfg → x.(ou_opens) = true →
  GenerateAPIKey x.(ou_key) x.(ou_salt) = Some (key, h, b) → db.(ac_faults) = [] → find_key db.(ac_keys) h = None →
  TrimSpace (get_string fs "name") ≠ "" → parseScopes (get_string fs "scopes") ≠ [] →
  parseExpiry x.(ou_now) (get_string fs "expires") = Some e →
  ∃ w', create_local x fs w = (Ok (), w') ∧
    w'.(cli_access) = with_key (flag_key fs (parseScopes (get_string fs "server-scope")) h b e db) db ∧
    last w'.(cli_out) = Some (Line ("API Key: " +:+ key)).
Proof.
  intros Hw Hload Hopen Hkey Hf Hnew Hname Hscopes He. unfold create_local.
  rewrite (bool_decide_eq_false_2 _ Hname), (bool_decide_eq_false_2 _ Hscopes), He, Hkey.
  unfold bind at 1, loadStore. rewrite Hload, Hopen. unfold bind at 1, cli_context, on_access at 1. rewrite Hw.
  set (k := flag_key fs (parseScopes (get_string fs "server-scope")) h b e db).
  pose proof (KeyCreate_stores fs (parseScopes (get_string fs "server-scope")) h b e db Hf Hnew) as Hk. cbv zeta in Hk. fold k in Hk.
  change (TrimSpace (get_string fs "name")) with k.(ak_Name) at 1.
  change (parseScopes (get_string fs "scopes")) with k.(ak_Scopes).
  change (if bool_decide (TrimSpace (get_string fs "client-id") = "") then _ else _) with k.(ak_ClientID).
  change (if bool_decide (TrimSpace (get_string fs "profile") = "") then _ else _) with k.(ak_PolicyProfile).
  rewrite Hk. unfold bind, attempt, on_access. cbn [cli_access].
  destruct (lookup_after h (with_key k db) Hf) as (r & -> & _). rewrite print_all_run. cbn [cli_access cli_out].
  eexists. split; [reflexivity|]. cbn [cli_access cli_out]. split; [done|].
  match goal with |- last (_ ++ (?l1 ++ ?l2 ++ [?u; ?v])) = _ =>
    replace (w.(cli_out) ++ l1 ++ l2 ++ [u; v]) with ((w.(cli_out) ++ l1 ++ l2 ++ [u]) ++ [v]) by (by rewrite <- !(assoc_L (++))) end.
  apply last_snoc.
Qed.

(** C32: Creating a key, on a remote gateway and on the tables. With a base URL the
    command sends a request that the endpoint of that gateway answers with a new key;
    without one it writes to the table itself. Both print the key and store the same
    row, with one exception: the table gets the servers of [--server-scope], and the
    remote gateway none at all, since the request has no place for them, so that the
    key, made to reach some servers, reaches every one. *)
Theorem remote_create_correct args fs (w : Cli AccessDB) t d db key h b e :
  Parse create_flags args = Ok (fs, []) → remote_url fs ≠ "" → key_ready fs w.(cli_client) t d db key h b e →
  (∃ w', apikeyCreateCommand post (key_server (remote_url fs)) off x args w = (Ok (), w') ∧
    w'.(cli_client).(cl_gateway) = with_key (flag_key fs [] h b e db) db ∧
    last w'.(cli_out) = Some (Line ("API Key: " +:+ key)) ∧
    ∀ server, ServerScopeMiddleware (flag_key fs [] h b e db).(ak_ServerScope) server = HandOn) ∧
  (∀ (v : Cli AccessDB) cfg, v.(cli_access) = db → Load (getenv v.(cli_env)) x.(ou_id) = Ok cfg → x.(ou_opens) = true →
   ∃ v', create_local x fs v = (Ok (), v') ∧
    v'.(cli_access) = with_key (flag_key fs (parseScopes (get_string fs "server-scope")) h b e db) db ∧
    last v'.(cli_out) = Some (Line ("API Key: " +:+ key))).
Proof.
  intros Hparse Hurl Hr. split.
  - destruct (create_remotely fs _ t d db key h b e Hr) as (out & id & Hrun & _ & _).
    unfold apikeyCreateCommand. rewrite bind_parse, Hparse. rewrite (bool_decide_eq_true_2 ([] = [])) by done.
    rewrite (bool_decide_eq_false_2 _ Hurl). cbn [negb]. unfold bind, on_client. rewrite Hrun, print_all_run.
    eexists. split; [reflexivity|]. cbn [cli_client cl_gateway cli_out]. split_and!; [done| |done].
    rewrite (assoc_L (++)). apply last_snoc.
  - intros v cfg Hv Hload Hopen. destruct Hr. eapply create_locally; try done. by apply expiry_agrees.
Qed.

(** Revoking a key on a remote gateway. The key expires at once, and the command
    says so; whatever the standard input holds, and with [--force] or without, no
    question is asked first. *)
Theorem remote_revoke_correct args fs arg (w : Cli AccessDB) t d db c caller scope reg :
  let id := TrimSpace arg in
  Parse revoke_flags args = Ok (fs, [arg]) → remote_url fs ≠ "" →
  url_Parse (remote_url fs +:+ "/v1/apikeys/" +:+ id) ≠ None →
  LoadTokens w.(cli_client).(cl_disk) = (Ok t, d) → NeedsRefresh w.(cli_client).(cl_now) t = false →
  AuthMiddleware opts x.(ou_now) (bearer t.(tk_AccessToken)) w.(cli_client).(cl_gateway) = (AuthNext caller scope reg, db) →
  db.(ac_faults) = [] → id ≠ "" → uuid_in id = Some c →
  ∃ w', apikeyRevokeCommand post (key_server (remote_url fs)) off x args w = (Ok (), w') ∧
    w'.(cli_client).(cl_gateway) = set_ac_keys (alter (set_expires (Some db.(ac_now))) c db.(ac_keys)) db ∧
    w'.(cli_out) = w.(cli_out) ++ [Line ("revoked api key " +:+ id)].
Proof.
  intros id Hparse Hurl Hu Htok Hfresh Hauth Hf Hid Hc.
  unfold apikeyRevokeCommand. rewrite bind_parse, Hparse. fold id. rewrite (bool_decide_eq_false_2 _ Hurl). cbn [negb].
  unfold bind at 1, on_client, remoteAPIKeyRevoke, bind at 1. rewrite (authorized_request _ _ _ _ _ t d) by done.
  unfold key_server, route_of. cbn [kq_URL kq_Method kq_Token]. rewrite bool_decide_eq_false_2.
  2: { intros He%(f_equal to_bytes)%(f_equal length). rewrite !to_bytes_app, !length_app in He. cbn in He. lia. }
  assert (Hs : GoStrings.strip_prefix (to_bytes (remote_url fs +:+ "/v1/apikeys/")) (to_bytes (remote_url fs +:+ "/v1/apikeys/" +:+ id)) = Some (to_bytes id)).
  { apply strip_prefix_Some. by rewrite !to_bytes_app, (assoc_L (++)). }
  rewrite Hs, (bool_decide_eq_true_2 (_ = "DELETE")) by done. unfold MountAPIKeyAPI. rewrite Hauth, of_to_bytes.
  assert (Ht : TrimSpace id = id) by apply TrimSpace_idemp.
  unfold handleRevoke. rewrite Ht, (bool_decide_eq_false_2 _ Hid).
  unfold Revoke, AccessStore.in_context, AccessStore.exec. rewrite Hf, Hc. unfold of_result, bind. cbn [encode_answer fst snd Z.eqb Pos.eqb expect_status negb ret].
  rewrite print_all_run. eexists. split; [reflexivity|]. done.
Qed.

End create.

(** ** The list *)

Section listing.
Context `{UnicodeTables}.

Lemma view_decoded v cur : d_struct remote_view_fields (AObj (view_members v)) cur = (remote_view v, true).
Proof.
  unfold d_struct, view_members. destruct v as [id name client scopes profile servers expires created].
  cbn [kv_ID kv_Name kv_ClientID kv_Scopes kv_PolicyProfile kv_ServerScope kv_ExpiresAt kv_CreatedAt foldl].
  repeat (first [erewrite member_found; [|reflexivity|first [apply texts_decoded|apply nullable_decoded|reflexivity]]
                |rewrite (member_missing remote_view_fields (_, _) "server_scope") by reflexivity];
          cbn [andb rv_ID rv_Name rv_ClientID rv_Scopes rv_PolicyProfile rv_ExpiresAt rv_CreatedAt]).
  reflexivity.
Qed.

Lemma views_decoded l cur : d_remote_views (AArr ((λ v, AObj (view_members v)) <$> l)) cur = (remote_view <$> l, true).
Proof.
  unfold d_remote_views. revert cur. induction l as [|v l IH]; intros cur; [done|]. rewrite !fmap_cons.
  cbn [d_slice d_elements]. rewrite view_decoded. specialize (IH (tail cur)). cbn [d_slice] in IH. by rewrite IH.
Qed.

Lemma views_ok l : Forall (λ v, Forall (λ s, valid_utf8 s = true) (view_texts v)) l →
  let doc := AArr ((λ v, AObj (view_members v)) <$> l) in
  document_ok doc = true ∧ (document_depth doc <= maxNestingDepth)%N.
Proof.
  intros Hl. cbv zeta. cbn [document_ok document_depth].
  assert (forallb document_ok ((λ v, AObj (view_members v)) <$> l) = true ∧
    (foldr (λ y n, N.max (document_depth y) n) 0 ((λ v, AObj (view_members v)) <$> l) <= 2)%N) as [-> Hd].
  { induction Hl as [|v l Hv _ [IH1 IH2]]; [done|]. destruct (view_members_ok v Hv) as [Hok Hdep].
    rewrite fmap_cons. cbn [forallb foldr]. rewrite IH1.
    change (document_ok (AObj (view_members v))) with (forallb (λ p, valid_utf8 p.1 && document_ok p.2) (view_members v)).
    rewrite Hok. split; [done|].
    change (document_depth (AObj (view_members v))) with (1 + foldr (λ p n, N.max (document_depth p.2) n) 0 (view_members v))%N. lia. }
  split; [done|]. unfold maxNestingDepth. lia.
Qed.

(** The texts of a row of the table. *)
Definition row_ok (k : APIKey) : Prop :=
  Forall (λ s, valid_utf8 s = true) (k.(ak_ID) :: k.(ak_Name) :: k.(ak_ClientID) :: k.(ak_PolicyProfile) :: k.(ak_Scopes) ++ k.(ak_ServerScope)).

Lemma row_texts k : row_ok k → Forall (λ s, valid_utf8 s = true) (view_texts (key_view k)).
Proof.
  unfold row_ok, view_texts, key_view. rewrite !Forall_cons.
  cbn [kv_ID kv_Name kv_ClientID kv_Scopes kv_PolicyProfile kv_ServerScope kv_ExpiresAt kv_CreatedAt].
  intros (Hid & Hn & Hc & Hp & Hs). split_and!; [done..| | |done].
  - apply ascii_valid, format_ascii.
  - destruct (ak_ExpiresAt k); [apply ascii_valid, format_ascii|done].
Qed.

(** The column of the servers, which the remote list does not have. *)
Definition without_servers (row : list string) : list string := take 4 row ++ drop 5 row.

Lemma tables_agree keys :
  remoteAPIKeyListTable ((λ k, remote_view (key_view k)) <$> keys) = without_servers <$> apikeyListTable keys.
Proof.
  unfold remoteAPIKeyListTable, apikeyListTable. rewrite fmap_cons. f_equal. rewrite <- !list_fmap_compose.
  by apply list_fmap_ext.
Qed.

End listing.

Section lists_agree.
Context `{UnicodeTables} `{Bcrypt} `{Postgres}.
Context (post : string → form → AccessDB → HttpAnswer * Z * AccessDB).
Context (off : Z) (opts : AuthOptions) (x : Outside) (took : Z).

(** The lists agree. The table that [apikey list] prints for a remote gateway has the
    keys of that gateway in the order of the table that it prints on the spot, with the
    same cells except for the column of servers, which is missing; what is sent
    contains no hash of a key. *)
Theorem remote_list_correct base (c : ClientWorld AccessDB) t d db caller scope reg :
  url_Parse (base +:+ "/v1/apikeys") ≠ None →
  LoadTokens c.(cl_disk) = (Ok t, d) → NeedsRefresh c.(cl_now) t = false →
  AuthMiddleware opts x.(ou_now) (bearer t.(tk_AccessToken)) c.(cl_gateway) = (AuthNext caller scope reg, db) →
  db.(ac_faults) = [] → map_Forall (λ _ k, row_ok k) db.(ac_keys) →
  ∃ c' keys, remoteAPIKeyList post (key_server opts x took base) off base "table" c = (Ok [Table (without_servers <$> apikeyListTable keys)], c') ∧
    keys ≡ₚ (map_to_list db.(ac_keys)).*2 ∧ Sorted newer_key keys ∧ c'.(cl_gateway) = db.
Proof.
  intros Hu Htok Hfresh Hauth Hf Hrows. set (keys := merge_sort newer_key (map_to_list db.(ac_keys)).*2).
  exists (mkClient (c.(cl_now) + Z.max 0 took) d db), keys.
  split_and!; [|apply merge_sort_Permutation|apply (Sorted_merge_sort _)|done].
  unfold remoteAPIKeyList, bind at 1. rewrite (authorized_request _ _ _ _ _ _ _ t d) by done.
  unfold key_server at 1, route_of. cbn [kq_URL kq_Method kq_Token]. rewrite (bool_decide_eq_true_2 (_ = base +:+ _)) by done.
  change (bool_decide ("GET" = "POST")) with false. change (bool_decide ("GET" = "GET")) with true. cbv iota.
  unfold MountAPIKeyAPI. rewrite Hauth. unfold handleList, KeyList, AccessStore.in_context, AccessStore.exec. rewrite Hf.
  fold keys. cbn [encode_list fst snd]. unfold of_result, expect_status, bind. cbn [fst snd Z.eqb Pos.eqb negb].
  assert (Hok : Forall (λ v, Forall (λ s, valid_utf8 s = true) (view_texts v)) (key_view <$> keys)).
  { apply Forall_fmap, Forall_forall. intros k Hk. apply row_texts. unfold keys in Hk. rewrite merge_sort_Permutation in Hk.
    apply list_elem_of_fmap in Hk as ([i k'] & -> & Hi%elem_of_map_to_list). by apply (Hrows i). }
  unfold unmarshal_body. destruct (views_ok _ Hok) as [Hd1 Hd2]. rewrite written_json by done.
  cbn [mbind option_bind]. unfold unmarshal. rewrite views_decoded. rewrite <- list_fmap_compose.
  change (remote_view ∘ key_view) with (λ k, remote_view (key_view k)).
  change (bool_decide (ToLower (TrimSpace "table") = "json")) with false.
  change (bool_decide (ToLower (TrimSpace "table") = "table")) with true. cbn [orb]. rewrite tables_agree. done.
Qed.

End lists_agree.

(** ** Instances *)

Section examples.
#[local] Existing Instance ascii_tables.
#[local] Existing Instance example_bcrypt.
#[local] Existing Instance example_pg_ids.

(** A file with a token that the gateway accepts, and a gateway without keys. *)
Definition token_file : bytes := json_print (AObj
  [("access_token", AStr "h.p.s"); ("token_type", AStr "Bearer"); ("expires_at", AStr "1970-01-01T01:00:00Z")]).
Definition file_tokens : CachedTokens := mkTokens "h.p.s" "" "" "Bearer" (3600 * second) "".
Definition remote_disk : TokenDisk := mkDisk true (Some token_file) None [].
Definition remote_client (db : AccessDB) : ClientWorld AccessDB := mkClient 500 remote_disk db.
Definition remote_cli (db : AccessDB) : Cli AccessDB :=
  mkCli {[ "MCPGW_DB_URL" := "postgres://db/mcpgw" ]} (mkDB 500 ∅ ∅ [] 0) (example_access []) (mkConfigStore ∅ []) (remote_client db) [].
Definition no_device (url : string) (f : form) (db : AccessDB) : HttpAnswer * Z * AccessDB := (NoAnswer, 0%Z, db).
Definition create_args : list string := ["--name= ci "; "--server-scope"; "git"; "--gateway-url"; "https://gw/"].
Definition created_flags : flags :=
  <["gateway-url" := FString "https://gw/"]> (<["server-scope" := FString "git"]> (<["name" := FString " ci "]> create_flags)).

Lemma tokens_loaded : LoadTokens remote_disk = (Ok file_tokens, remote_disk).
Proof. vm_compute. reflexivity. Qed.

Lemma token_accepted (db : AccessDB) :
  ∃ caller scope reg, AuthMiddleware example_options (example_outside "").(ou_now) (bearer "h.p.s") db = (AuthNext caller scope reg, db).
Proof. eexists _, _, _. vm_compute. reflexivity. Qed.

Lemma remote_create_correct_witness :
  ∃ key h b w', GenerateAPIKey (example_outside "").(ou_key) 0 = Some (key, h, b) ∧
    apikeyCreateCommand no_device (key_server example_options (example_outside "") 0 (remote_url created_flags)) 0 (example_outside "")
      create_args (remote_cli (example_access [])) = (Ok (), w') ∧
    w'.(cli_client).(cl_gateway).(ac_keys) =
      {[ "row" := mkAPIKey "row" h b "ci" ["read"] "ci" "default" [] None 100 ]} ∧
    parseScopes (get_string created_flags "server-scope") = ["git"].
Proof.
  destruct (GenerateAPIKey (example_outside "").(ou_key) 0) as [[[key h] b]|] eqn:Hg; [|discriminate Hg].
  assert (Hu : remote_url created_flags ≠ "") by discriminate.
  assert (Hr : key_ready example_options (example_outside "") created_flags (remote_client (example_access [])) file_tokens remote_disk
                 (example_access []) key h b None).
  { split; [vm_compute; discriminate|exact tokens_loaded|vm_compute; reflexivity|exact (token_accepted _)|exact Hg|
      reflexivity|reflexivity|discriminate|discriminate|vm_compute; reflexivity|by_evaluation]. }
  destruct (remote_create_correct no_device 0 example_options (example_outside "") 0 create_args created_flags
    (remote_cli (example_access [])) file_tokens remote_disk (example_access []) key h b None eq_refl Hu Hr)
    as [(w' & Hrun & Hkeys & _) _].
  exists key, h, b, w'. split; [done|]. split; [exact Hrun|]. rewrite Hkeys. split; [|vm_compute; reflexivity].
  unfold with_key. cbn [ac_keys set_ac_next set_ac_keys]. reflexivity.
Defined.

Definition git_key : APIKey := mkAPIKey "row" "h" "b" "ci" ["read"] "ci" "default" ["git"] None 100.
Definition one_key : AccessDB := set_ac_keys {[ "row" := git_key ]} (example_access []).

(** Nothing is on the standard input, and the key is revoked. *)
Lemma remote_revoke_correct_witness :
  ∃ w', apikeyRevokeCommand no_device (key_server example_options (example_outside "") 0 "https://gw") 0 (example_outside "")
      ["-gateway-url=https://gw"; "row"] (remote_cli one_key) = (Ok (), w') ∧
    (ak_ExpiresAt <$> w'.(cli_client).(cl_gateway).(ac_keys) !! "row") = Some (Some 100%Z) ∧
    w'.(cli_out) = [Line "revoked api key row"].
Proof.
  set (fs := <["gateway-url" := FString "https://gw"]> revoke_flags).
  assert (Hu : url_Parse (remote_url fs +:+ "/v1/apikeys/" +:+ TrimSpace "row") ≠ None) by (vm_compute; discriminate).
  destruct (token_accepted one_key) as (caller & scope & reg & Ha).
  destruct (remote_revoke_correct no_device 0 example_options (example_outside "") 0 ["-gateway-url=https://gw"; "row"] fs "row"
    (remote_cli one_key) file_tokens remote_disk one_key "row" caller scope reg eq_refl ltac:(discriminate) Hu tokens_loaded
    eq_refl Ha eq_refl ltac:(discriminate) eq_refl) as (w' & Hrun & Hk & Ho).
  exists w'. split; [exact Hrun|]. rewrite Hk, Ho. split; reflexivity.
Defined.

(** The key is limited to one server, and the table does not say so. *)
Lemma remote_list_correct_witness :
  ∃ c', remoteAPIKeyList no_device (key_server example_options (example_outside "") 0 "https://gw") 0 "https://gw" "table"
      (remote_client one_key) =
    (Ok [Table [["ID"; "NAME"; "CLIENT_ID"; "SCOPES"; "EXPIRES_AT"; "CREATED_AT"];
                ["row"; "ci"; "ci"; "read"; "never"; "1970-01-01T00:00:00Z"]]], c') ∧ c'.(cl_gateway) = one_key.
Proof.
  assert (Hu : url_Parse ("https://gw" +:+ "/v1/apikeys") ≠ None) by (vm_compute; discriminate).
  assert (Hrows : map_Forall (λ _ k, row_ok k) one_key.(ac_keys)).
  { apply map_Forall_singleton. unfold row_ok. cbn. by repeat constructor. }
  destruct (token_accepted one_key) as (caller & scope & reg & Ha).
  destruct (remote_list_correct no_device 0 example_options (example_outside "") 0 "https://gw" (remote_client one_key)
    file_tokens remote_disk one_key caller scope reg Hu tokens_loaded eq_refl Ha eq_refl Hrows) as (c' & keys & Hrun & Hp & _ & Hg).
  exists c'. split; [|exact Hg]. rewrite Hrun. change ((map_to_list one_key.(ac_keys)).*2) with [git_key] in Hp.
  apply Permutation_singleton_r in Hp as ->. reflexivity.
Defined.

End examples.
