(* ===== verification/Health.v ===== *)
(** * The public endpoints and the health command: [internal/server/server.go], [cmd/mcpgw/health.go]

    [/healthz], [/readyz] and [/meta] with the limiter of the last and the address it
    limits by, the formatting of addresses of package net, and the command that asks
    the first two. *)

From stdpp Require Import pretty.
From S2P Require Import Prelude GoStrings Encoding GoNet GoFloat Json GoParse Document JsonText Types Registration RateLimit Events Config.
From S2P Require Import DeviceFlow RemoteKeys Flags.

#[local] Open Scope string_scope.
#[local] Open Scope list_scope.
#[local] Open Scope nat_scope.
#[local] Open Scope go_scope.

(** ** Addresses: package net *)

(** [net.SplitHostPort]: the host, when it is one with a port. *)
Definition SplitHost (hostport : string) : option string :=
  let l := to_bytes hostport in
  match cut_last colon l with
  | None => None
  | Some (before, _) =>
      match l with
      | a :: rest =>
          if bool_decide (a = open_bracket) then
            match cut [close_bracket] rest with
            | None => None
            | Some (host, after) =>
                if negb (length host + 2 =? length before) then None
                else if bool_decide (open_bracket ∈ rest) || bool_decide (close_bracket ∈ after) then None
                else Some (of_bytes host)
            end
          else if bool_decide (colon ∈ before) then None
          else if bool_decide (open_bracket ∈ l) || bool_decide (close_bracket ∈ l) then None
          else Some (of_bytes before)
      | [] => None
      end
  end.

(** Hexadecimal digits without leading zeros. *)
Definition hex_char (n : N) : ascii := ascii_of_N (if (n <? 10)%N then 48 + n else 87 + n)%N.
Definition hex16 (n : N) : bytes :=
  hex_char <$>
  (if (n <? 16)%N then [n]
   else if (n <? 256)%N then [n / 16; n mod 16]
   else if (n <? 4096)%N then [n / 256; n / 16 mod 16; n mod 16]
   else [n / 4096; n / 256 mod 16; n / 16 mod 16; n mod 16])%N.

Fixpoint groups16 (l : list N) : list N :=
  match l with a :: b :: l' => (a * 256 + b)%N :: groups16 l' | _ => [] end.

(** The first of the longest runs of zeros, from the left: its place and length. *)
Fixpoint zeros (l : list N) : nat := match l with g :: l' => if (g =? 0)%N then S (zeros l') else 0 | [] => 0 end.
Fixpoint longest_zeros (i : nat) (best : nat * nat) (l : list N) : nat * nat :=
  match l with
  | [] => best
  | _ :: l' =>
      let n := zeros l in
      longest_zeros (S i) (if (2 <=? n) && (best.2 <? n) then (i, n) else best) l'
  end.

(** [net.IP.String]. *)
Definition ip_String (ip : list N) : string :=
  match To4 ip with
  | Some v4 => of_bytes (join_bytes (to_bytes ".") ((λ n, to_bytes (pretty n)) <$> v4))
  | None =>
      let gs := groups16 ip in
      let sep := to_bytes ":" in
      let '(i, n) := longest_zeros 0 (0, 0) gs in
      of_bytes
        (if n =? 0 then join_bytes sep (hex16 <$> gs)
         else join_bytes sep (hex16 <$> take i gs) ++ to_bytes "::" ++ join_bytes sep (hex16 <$> drop (i + n) gs))
  end.

(** [net.IP.IsPrivate]. *)
Definition IsPrivate (ip : list N) : bool :=
  match To4 ip with
  | Some v4 =>
      (octet v4 0 =? 10)%N || ((octet v4 0 =? 172)%N && (N.land (octet v4 1) 240 =? 16)%N)
      || ((octet v4 0 =? 192)%N && (octet v4 1 =? 168)%N)
  | None => (length ip =? 16) && (N.land (octet ip 0) 254 =? 252)%N
  end.

Example ip_texts :
  (λ s, ip_String <$> ParseIP s) <$> ["10.0.0.1"; "::ffff:1.2.3.4"; "2001:DB8:0:0:1:0:0:1"; "::"; "1:0:3:4:5:6:7:8"] =
  [Some "10.0.0.1"; Some "1.2.3.4"; Some "2001:db8::1:0:0:1"; Some "::"; Some "1:0:3:4:5:6:7:8"].
Proof. by vm_compute. Qed.
Example split_hosts :
  SplitHost <$> ["1.2.3.4:80"; "[::1]:80"; "::1"; "[::1]"; "a"; "[::1]x:80"; ":80"] =
  [Some "1.2.3.4"; Some "::1"; None; None; None; None; Some ""].
Proof. by vm_compute. Qed.

(** ** The client of a request *)

Definition bracket (a : ascii) : bool := bool_decide (a = open_bracket) || bool_decide (a = close_bracket).
Fixpoint drop_brackets (l : bytes) : bytes := match l with a :: l' => if bracket a then drop_brackets l' else l | [] => [] end.
Definition trim_brackets (s : string) : string := of_bytes (rev (drop_brackets (rev (drop_brackets (to_bytes s))))).

(** [parseIPToken]. *)
Definition parseIPToken (raw : string) : string :=
  let token := TrimSpace raw in
  if bool_decide (token = "") then ""
  else
    let token := default token (SplitHost token) in
    match ParseIP (trim_brackets (TrimSpace token)) with
    | None => ""
    | Some ip => ip_String ip
    end.

(** [firstForwardedIP]. *)
Fixpoint first_ip (tokens : list string) : string :=
  match tokens with
  | [] => ""
  | t :: tokens' => let ip := parseIPToken t in if bool_decide (ip = "") then first_ip tokens' else ip
  end.
Definition firstForwardedIP (forwardedFor : string) : string := first_ip (Split forwardedFor ",").

(** [isTrustedProxyIP]. *)
Definition isTrustedProxyIP (ipRaw : string) : bool :=
  match ParseIP (TrimSpace ipRaw) with
  | None => false
  | Some ip => IsLoopback ip || IsPrivate ip
  end.

(** [clientIPFromRequest]: the address of the connection and the two headers. *)
Record ClientAddress := mkClientAddress { ca_RemoteAddr : string; ca_ForwardedFor : string; ca_RealIP : string }.
Definition clientIPFromRequest (r : ClientAddress) : string :=
  let remoteIP := parseIPToken r.(ca_RemoteAddr) in
  let remoteIP := if bool_decide (remoteIP = "") then "unknown" else remoteIP in
  if negb (bool_decide (remoteIP = "unknown")) && isTrustedProxyIP remoteIP then
    let forwarded := firstForwardedIP r.(ca_ForwardedFor) in
    if negb (bool_decide (forwarded = "")) then forwarded
    else
      let realIP := parseIPToken r.(ca_RealIP) in
      if negb (bool_decide (realIP = "")) then realIP else remoteIP
  else remoteIP.

(** ** The limiter of [/meta] *)

Record metaRateLimiter := mkMetaLimiter {
  ml_rate : spec_float;
  ml_burst : spec_float;
  ml_maxEntries : nat;
  ml_tokens : gmap string spec_float;
  ml_last : gmap string Z;
}.

(** [newMetaRateLimiter]; [None] for nil. *)
Definition f_positive (f : spec_float) : bool := SFltb f_zero f.
Definition newMetaRateLimiter (ratePerSecond burst : spec_float) (maxEntries : Z) : option metaRateLimiter :=
  if negb (f_positive ratePerSecond) || negb (f_positive burst) || (maxEntries <=? 0)%Z then None
  else Some (mkMetaLimiter ratePerSecond burst (Z.to_nat maxEntries) ∅ ∅).

(** [evictOldestLocked]: the loop over the map in some order, which [order] gives. *)
Fixpoint oldest (found : option (string * Z)) (l : list (string * Z)) : option (string * Z) :=
  match l with
  | [] => found
  | (key, ts) :: l' =>
      oldest (match found with
              | None => Some (key, ts)
              | Some (k, t) =>
                  if bool_decide (k = "") || (ts <? t)%Z then Some (key, ts) else found
              end) l'
  end.
Definition evictOldestLocked (order : gmap string Z → list (string * Z)) (l : metaRateLimiter) : metaRateLimiter :=
  match oldest None (order l.(ml_last)) with
  | None => l
  | Some (key, _) =>
      if bool_decide (key = "") then l
      else mkMetaLimiter l.(ml_rate) l.(ml_burst) l.(ml_maxEntries) (delete key l.(ml_tokens)) (delete key l.(ml_last))
  end.

Definition minFloat (a b : spec_float) : spec_float := if SFltb a b then a else b.

(** [Allow] at [now]; the zero time stands for a key that is not there. *)
Definition MetaAllow (order : gmap string Z → list (string * Z)) (now : Z) (key : string) (l : metaRateLimiter) :
    bool * metaRateLimiter :=
  let key := if bool_decide (TrimSpace key = "") then "unknown" else key in
  let prev := l.(ml_last) !! key in
  let l := if bool_decide (prev = None) && (l.(ml_maxEntries) <=? size l.(ml_last)) then evictOldestLocked order l else l in
  let tokens :=
    match prev with
    | None => l.(ml_burst)
    | Some t =>
        if (t =? zero_time)%Z then l.(ml_burst)
        else minFloat l.(ml_burst) (f_add (default f_zero (l.(ml_tokens) !! key)) (f_mul (Seconds (time_sub now t)) l.(ml_rate)))
    end in
  let record left :=
    mkMetaLimiter l.(ml_rate) l.(ml_burst) l.(ml_maxEntries) (<[key := left]> l.(ml_tokens)) (<[key := now]> l.(ml_last)) in
  if SFltb tokens f_one then (false, record tokens) else (true, record (f_sub tokens f_one)).

(** ** The endpoints *)

(** [handleMeta]: the status and the document. *)
Definition handleMeta (order : gmap string Z → list (string * Z)) (cfg : option Config) (buildVersion : string) (now : Z)
    (r : ClientAddress) (limiter : option metaRateLimiter) : (Z * document) * option metaRateLimiter :=
  let '(allowed, limiter) :=
    match limiter with
    | None => (true, None)
    | Some l => let '(ok, l) := MetaAllow order now (clientIPFromRequest r) l in (ok, Some l)
    end in
  if negb allowed then ((429%Z, AObj [("status", AStr "rate_limited")]), limiter)
  else
    let mode := match cfg with
      | Some c => if bool_decide (TrimSpace c.(c_AdminMode) = "integrated") then "integrated" else "standalone"
      | None => "standalone"
      end in
    let gatewayID := match cfg with Some c => TrimSpace c.(c_GatewayID) | None => "" end in
    ((200%Z, AObj [("admin_mode", AStr mode); ("gateway_id", AStr gatewayID); ("version", AStr buildVersion)]), limiter).

Record SearchStatus := mkSearchStatus {
  se_Engine : string;
  se_Embedder : string;
  se_IndexedTools : Z;
  se_Ready : bool;
  se_VectorReady : option bool;
  se_VectorSearchFallbacks : N;
  se_VectorIndexFallbacks : N;
  se_EngineErrorFallbacks : N;
}.

(** [addSearchStatus]: the keys of a map are written in order. *)
Definition ok_or_degraded (b : bool) : string := if b then "ok" else "degraded".
Definition search_members (s : SearchStatus) : list (string * document) :=
  omitempty "embedder" s.(se_Embedder) ++ [("engine", AStr s.(se_Engine))] ++
  (if (0 <? s.(se_VectorSearchFallbacks))%N || (0 <? s.(se_VectorIndexFallbacks))%N || (0 <? s.(se_EngineErrorFallbacks))%N
   then [("fallbacks", AObj [("engine_error", ANum (pretty s.(se_EngineErrorFallbacks)));
          ("vector_index", ANum (pretty s.(se_VectorIndexFallbacks))); ("vector_search", ANum (pretty s.(se_VectorSearchFallbacks)))])]
   else []) ++
  (if (0 <? s.(se_IndexedTools))%Z then [("indexed_tools", ANum (pretty s.(se_IndexedTools)))] else []) ++
  [("status", AStr (ok_or_degraded s.(se_Ready)))] ++
  match s.(se_VectorReady) with Some b => [("vector_status", AStr (ok_or_degraded b))] | None => [] end.

(** The document of [handleReady], from what it decided, the number of tools and the
    status of the search when they are wired. *)
Definition ready_document (r : Readiness) (tools : option Z) (search : option SearchStatus) : document :=
  AObj
    (match tools with Some n => [("active_tools", ANum (pretty n))] | None => [] end ++
     match r.(rd_nats) with Some s => [("nats", AStr s)] | None => [] end ++
     match search with Some s => [("search", AObj (search_members s))] | None => [] end ++
     match r.(rd_settings) with
     | Some (sync, version) =>
         (if (0 <? version)%Z then [("settings_config_version", ANum (pretty version))] else []) ++
         omitempty "settings_sync_status" sync
     | None => []
     end ++ [("status", AStr r.(rd_status))]).

(** [handleHealth]. *)
Definition handleHealth : Z * document := (200%Z, AObj [("status", AStr "ok")]).

(** ** health.go *)

Record healthStatusResult := mkHealthResult {
  hs_HealthCode : Z;
  hs_HealthState : string;
  hs_ReadyCode : Z;
  hs_ReadyState : string;
  hs_NATS : string;
  hs_Version : string;
  hs_Uptime : string;
  hs_RegisteredServers : Z;
}.

(** Whether [url.Parse] finds user information. *)
Definition url_has_user (raw : string) : bool :=
  let u := cut_before (to_bytes "#") (to_bytes raw) in
  match getScheme u with
  | None => false
  | Some (scheme, rest) =>
      match strip_prefix (to_bytes "//") (cut_before (to_bytes "?") rest) with
      | None => false
      | Some authority =>
          if bool_decide (scheme = []) && bool_decide (head authority = Some slash) then false
          else bool_decide (at_sign ∈ cut_before [slash] authority)
      end
  end.

Section health_command.
Context `{UnicodeTables}.
(** A GET request: the status and the body, unless it fails. *)
Context (get : string → option (Z * bytes)).

(** [validateHealthBaseURL]. *)
Definition validateHealthBaseURL (scheme host : string) (user : bool) : result () :=
  let s := ToLower (TrimSpace scheme) in
  if negb (bool_decide (s = "http")) && negb (bool_decide (s = "https"))
  then Err (Opaque ("unsupported scheme " +:+ scheme))
  else if bool_decide (TrimSpace host = "") then Err (Opaque "host is required")
  else if user then Err (Opaque "user info is not allowed")
  else Ok ().

(** [getJSON]: the decoder reads the first value. *)
Definition getJSON (endpoint : string) : result (Z * list (string * any)) :=
  if bool_decide (url_Parse endpoint = None) then Err (Opaque "build request")
  else
    match get endpoint with
    | None => Err (Opaque "execute request")
    | Some (status, body) =>
        match (v ← json_first (of_bytes body); unmarshal d_object v []) with
        | None => Err (Opaque "decode response")
        | Some m => Ok (status, m)
        end
    end.

Definition string_member (m : list (string * any)) (key : string) : string :=
  match lookup_key m key with Some (AStr s) => s | _ => "" end.

(** [fetchHealth]. *)
Definition fetchHealth (baseURL : string) : result healthStatusResult :=
  if bool_decide (TrimSpace baseURL = "") then Err (Opaque "health check URL is required")
  else
    match url_Parse baseURL with
    | None => Err (Opaque "parse health URL")
    | Some u =>
        let scheme := if bool_decide (u.(url_Scheme) = "") then "https" else u.(url_Scheme) in
        match validateHealthBaseURL scheme u.(url_Host) (url_has_user baseURL) with
        | Err e => Err (Wrap "validate health URL" e)
        | Ok _ =>
            match getJSON (url_String scheme u.(url_Host) +:+ "/healthz") with
            | Err e => Err (Wrap "healthz request" e)
            | Ok (healthCode, healthBody) =>
                match getJSON (url_String scheme u.(url_Host) +:+ "/readyz") with
                | Err e => Err (Wrap "readyz request" e)
                | Ok (readyCode, readyBody) =>
                    Ok (mkHealthResult healthCode (string_member healthBody "status") readyCode (string_member readyBody "status")
                          (string_member readyBody "nats") (string_member readyBody "version") (string_member readyBody "uptime")
                          (match lookup_key readyBody "registered_servers" with Some (ANum f) => f_to_i64 f | _ => (-1)%Z end))
                end
            end
        end
    end.

(** [healthCommand]: what it prints, and its error. *)
Definition labelled (label value : string) : list string := if bool_decide (value = "") then [] else [label +:+ ": " +:+ value].
Definition health_lines (s : healthStatusResult) : list string :=
  ["Health: " +:+ s.(hs_HealthState) +:+ " (" +:+ pretty s.(hs_HealthCode) +:+ ")";
   "Ready: " +:+ s.(hs_ReadyState) +:+ " (" +:+ pretty s.(hs_ReadyCode) +:+ ")"] ++
  labelled "NATS" s.(hs_NATS) ++ labelled "Version" s.(hs_Version) ++ labelled "Uptime" s.(hs_Uptime) ++
  (if (0 <=? s.(hs_RegisteredServers))%Z then ["Registered Servers: " +:+ pretty s.(hs_RegisteredServers)] else []).
Definition healthCommand (args : list string) : list string * option error :=
  match Parse (list_to_map [("url", FString "https://localhost:8443")]) args with
  | Err e => ([], Some (Wrap "parse health flags" e))
  | Ok (fs, rest) =>
      if negb (bool_decide (rest = [])) then ([], Some (Opaque "health command does not accept positional arguments"))
      else
        match fetchHealth (TrimSpace (get_string fs "url")) with
        | Err e => ([], Some e)
        | Ok status =>
            (health_lines status,
             if negb (status.(hs_HealthCode) =? 200)%Z || negb (status.(hs_ReadyCode) =? 200)%Z
             then Some (Opaque "gateway is unhealthy") else None)
        end
  end.

End health_command.
