(* ===== verification/HealthProps.v ===== *)
(** * The public endpoints and the health command: correctness

    - [meta_limiter_bounded]: the memory of the limiter of [/meta].
    - [meta_limited_by_address]: whom it limits, and who gets around it.
    - [health_command_correct]: what the command says about a gateway. *)

From stdpp Require Import pretty.
From S2P Require Import Prelude GoStrings Encoding GoNet GoFloat Json GoParse Document JsonText Types Events Config Flags RemoteKeys RemoteProps Health.

#[local] Open Scope string_scope.
#[local] Open Scope list_scope.
#[local] Open Scope nat_scope.
#[local] Open Scope go_scope.

(** ** The limiter *)

Section limiter.
(** The order in which a loop meets the entries of a map. *)
Context (order : gmap string Z → list (string * Z)) (order_all : ∀ m, order m ≡ₚ map_to_list m).

(** What the loop of [evictOldestLocked] finds. *)
Lemma oldest_in found l r : oldest found l = Some r → found = Some r ∨ r ∈ l.
Proof.
  revert found. induction l as [|[k t] l IH]; intros found; cbn [oldest]; [by left|]. intros [Hf|Hr]%IH.
  - destruct found as [[k' t']|]; [destruct (_ || _); [|by left]|]; injection Hf as <-; right; left.
  - right. by right.
Qed.

Lemma oldest_found found l : (found ≠ None ∨ l ≠ []) → oldest found l ≠ None.
Proof.
  revert found. induction l as [|[k t] l IH]; intros found [Hf|Hl]; cbn [oldest]; try done; apply IH; left;
    destruct found as [[k' t']|]; try destruct (_ || _); done.
Qed.

(** The entry found is as old as any. *)
Lemma oldest_least found l k t :
  Forall (λ p, p.1 ≠ "") l → (∀ p, found = Some p → p.1 ≠ "") →
  oldest found l = Some (k, t) → (∀ p, found = Some p → t ≤ p.2)%Z ∧ Forall (λ p, t ≤ p.2)%Z l.
Proof.
  intros Hl. revert found. induction Hl as [|[k1 t1] l Hk Hl IH]; intros found Hf; cbn [oldest]; intros Ho.
  - split; [|done]. intros p Hp. rewrite Hp in Ho. injection Ho as ->. cbn. lia.
  - apply IH in Ho as [Hs Hrest].
    + destruct found as [[k2 t2]|].
      * pose proof (Hf _ eq_refl) as Hk2. cbn in Hk2. rewrite (bool_decide_eq_false_2 (k2 = "")) in Hs by done. cbn [orb] in Hs.
        destruct (Z.ltb_spec t1 t2); specialize (Hs _ eq_refl); cbn in Hs; split; try (constructor; [cbn; lia|done]);
          intros p [= <-]; cbn; lia.
      * specialize (Hs _ eq_refl). split; [done|]. by constructor.
    + intros p. destruct found as [[k2 t2]|]; [destruct (_ || _)|]; intros [= <-]; [done|by apply Hf|done].
Qed.

(** No key is blank, the two maps have the same keys, and there are not too many. *)
Record limiter_ok (l : metaRateLimiter) : Prop := {
  lo_keys : dom l.(ml_tokens) = dom l.(ml_last);
  lo_named : "" ∉ dom l.(ml_last);
  lo_size : size l.(ml_last) <= l.(ml_maxEntries);
  lo_room : 0 < l.(ml_maxEntries);
}.

Lemma evicted l : limiter_ok l → l.(ml_last) ≠ ∅ →
  ∃ k t, l.(ml_last) !! k = Some t ∧ map_Forall (λ _ t', t ≤ t')%Z l.(ml_last) ∧
    evictOldestLocked order l =
      mkMetaLimiter l.(ml_rate) l.(ml_burst) l.(ml_maxEntries) (delete k l.(ml_tokens)) (delete k l.(ml_last)).
Proof.
  intros [_ Hn _ _] He. unfold evictOldestLocked. destruct (oldest None (order (ml_last l))) as [[k t]|] eqn:Ho.
  2: { exfalso. refine (oldest_found _ _ _ Ho). right. intros Hnil. apply He, map_to_list_empty_iff.
       apply Permutation_nil_r. by rewrite <- Hnil, order_all. }
  assert (Hnamed : Forall (λ p, p.1 ≠ "") (order (ml_last l))).
  { apply Forall_forall. intros [k' t'] Hin Hk. cbn in Hk. subst k'. rewrite order_all in Hin. apply elem_of_map_to_list, elem_of_dom_2 in Hin. done. }
  destruct (oldest_least None _ k t Hnamed ltac:(done) Ho) as [_ Hall].
  assert (Hk : ml_last l !! k = Some t).
  { apply oldest_in in Ho as [|Hin]; [done|]. rewrite order_all in Hin. by apply elem_of_map_to_list in Hin. }
  exists k, t. split_and!; [done| |].
  - intros k' t' Hk'. rewrite Forall_forall in Hall. apply (Hall (k', t')). rewrite order_all. by apply elem_of_map_to_list.
  - rewrite bool_decide_eq_false_2; [done|]. intros ->. apply Hn. by apply elem_of_dom_2 in Hk.
Qed.

Definition limiter_key (key : string) : string := if bool_decide (TrimSpace key = "") then "unknown" else key.

Lemma limiter_key_named key : limiter_key key ≠ "".
Proof. unfold limiter_key. case_bool_decide as Hb; [done|]. by intros ->. Qed.

(** The state after a call, up to the number that is left: an entry is made room for
    when the key is new and the table is full. *)
Definition made_room (key : string) (l : metaRateLimiter) : metaRateLimiter :=
  if bool_decide (l.(ml_last) !! limiter_key key = None) && (l.(ml_maxEntries) <=? size l.(ml_last))
  then evictOldestLocked order l else l.

Lemma allow_state now key l :
  ∃ left, (MetaAllow order now key l).2 =
    mkMetaLimiter (made_room key l).(ml_rate) (made_room key l).(ml_burst) (made_room key l).(ml_maxEntries)
      (<[limiter_key key := left]> (made_room key l).(ml_tokens)) (<[limiter_key key := now]> (made_room key l).(ml_last)).
Proof.
  unfold MetaAllow. fold (limiter_key key). fold (made_room key l). destruct (SFltb _ _); cbn [snd]; by eexists.
Qed.

Lemma made_room_cases key l : limiter_ok l →
  (made_room key l = l ∧ (is_Some (l.(ml_last) !! limiter_key key) ∨ size l.(ml_last) < l.(ml_maxEntries))) ∨
  (∃ k t, l.(ml_last) !! limiter_key key = None ∧ size l.(ml_last) = l.(ml_maxEntries) ∧
     l.(ml_last) !! k = Some t ∧ map_Forall (λ _ t', t ≤ t')%Z l.(ml_last) ∧
     made_room key l = mkMetaLimiter l.(ml_rate) l.(ml_burst) l.(ml_maxEntries) (delete k l.(ml_tokens)) (delete k l.(ml_last))).
Proof.
  intros Hl. unfold made_room. destruct (ml_last l !! limiter_key key) as [t|] eqn:E.
  - left. split; [done|]. left. by eexists.
  - rewrite bool_decide_eq_true_2 by done. cbn [andb]. destruct (Nat.leb_spec (ml_maxEntries l) (size (ml_last l))); [|by left; split; [|right]].
    right. destruct (evicted l Hl) as (k & t & Hk & Hall & He).
    + intros Hz. rewrite Hz, map_size_empty in *. destruct Hl. lia.
    + exists k, t. split_and!; try done. destruct Hl. lia.
Qed.

Lemma allow_ok now key l : limiter_ok l → limiter_ok (MetaAllow order now key l).2.
Proof.
  intros Hl. destruct (allow_state now key l) as [left ->]. pose proof (limiter_key_named key) as Hk.
  destruct (made_room_cases key l Hl) as [(-> & Hroom)|(k & t & Hnew & Hfull & Hin & _ & ->)];
    destruct Hl as [Hd Hn Hs Hp]; split; cbn [ml_tokens ml_last ml_maxEntries]; try done; rewrite ?dom_insert_L, ?dom_delete_L.
  - by rewrite Hd.
  - set_solver.
  - destruct Hroom as [[t Ht]|Hlt]; [by rewrite map_size_insert_Some|].
    rewrite map_size_insert. destruct (_ !! _); cbn; lia.
  - by rewrite Hd.
  - set_solver.
  - rewrite map_size_insert, map_size_delete, Hin. destruct (delete _ _ !! _); cbn; lia.
Qed.

(** C39: The memory of the limiter. Whatever addresses ask, at whatever times and in
    whatever order the loop over the map meets its entries, the limiter keeps at most
    [maxEntries] of them, with a count for exactly those that it has a time for. A
    call forgets an entry only when the table is full and its own address is new, and
    no entry that is kept was seen longer ago than the one forgotten. *)
Theorem meta_limiter_bounded rate burst n l0 (calls : list (Z * string)) :
  newMetaRateLimiter rate burst n = Some l0 →
  let l := foldl (λ l c, (MetaAllow order c.1 c.2 l).2) l0 calls in
  (Z.of_nat (size l.(ml_tokens)) <= n)%Z ∧ dom l.(ml_tokens) = dom l.(ml_last) ∧
  ∀ now key k t, let l' := (MetaAllow order now key l).2 in
    l.(ml_last) !! k = Some t → l'.(ml_last) !! k = None →
    Z.of_nat (size l.(ml_last)) = n ∧ l.(ml_last) !! limiter_key key = None ∧
    map_Forall (λ _ t', t ≤ t')%Z l.(ml_last) ∧ size l'.(ml_last) = size l.(ml_last).
Proof.
  intros Hnew l. unfold newMetaRateLimiter in Hnew. destruct (_ || _) eqn:Hb; [done|]. reflect_bools. injection Hnew as <-.
  assert (Hl : limiter_ok l ∧ l.(ml_maxEntries) = Z.to_nat n).
  { unfold l. induction calls as [|c calls IH] using rev_ind.
    - split; [|done]. split; cbn; [done|set_solver|rewrite map_size_empty; lia|lia].
    - rewrite foldl_app. cbn [foldl]. destruct IH as [IH1 IH2]. split; [by apply allow_ok|].
      destruct (allow_state c.1 c.2 (foldl (λ l c, (MetaAllow order c.1 c.2 l).2)
        (mkMetaLimiter rate burst (Z.to_nat n) ∅ ∅) calls)) as [left ->]. cbn [ml_maxEntries].
      destruct (made_room_cases c.2 _ IH1) as [(-> & _)|(k & t & _ & _ & _ & _ & ->)]; done. }
  clearbody l. destruct Hl as [Hl Hn]. split_and!.
  - rewrite <- size_dom, (lo_keys l Hl), size_dom. pose proof (lo_size l Hl). lia.
  - apply lo_keys, Hl.
  - intros now key k t l' Hk Hgone. pose proof (allow_ok now key l Hl) as Hok. subst l'.
    destruct (allow_state now key l) as [left Hs]. rewrite Hs in *. cbn [ml_last] in *.
    apply lookup_insert_None in Hgone as [Hgone Hne].
    destruct (made_room_cases key l Hl) as [(He & _)|(k1 & t1 & Hnone & Hfull & Hin & Hall & He)]; rewrite He in *; [by rewrite Hk in Hgone|].
    cbn [ml_last] in *. apply lookup_delete_None in Hgone as [->|Hgone]; [|by rewrite Hk in Hgone]. rewrite Hin in Hk. injection Hk as ->.
    split_and!; [lia|done|done|]. rewrite map_size_insert_None; [|rewrite lookup_delete_ne by done; done]. rewrite map_size_delete_Some by done.
    pose proof (lo_room l Hl). lia.
Qed.

(** ** Whom it limits *)

(** An address that the limiter has not seen has its whole burst. *)
Lemma new_allowed now key l :
  SFltb l.(ml_burst) f_one = false → l.(ml_last) !! limiter_key key = None → (MetaAllow order now key l).1 = true.
Proof.
  intros Hb Hn. unfold MetaAllow. fold (limiter_key key). fold (made_room key l). rewrite Hn.
  assert (ml_burst (made_room key l) = ml_burst l) as ->; [|by rewrite Hb].
  unfold made_room, evictOldestLocked. destruct (_ && _); [|done]. destruct (oldest _ _) as [[? ?]|]; [|done]. by case_bool_decide.
Qed.

Lemma forwarded_first a rest :
  ","%char ∉ to_bytes a → parseIPToken a ≠ "" → firstForwardedIP (a +:+ "," +:+ rest) = parseIPToken a.
Proof.
  intros Hc Ha. unfold firstForwardedIP, Split, SplitN, len. rewrite !to_bytes_app, !length_app.
  change (to_bytes ",") with [","%char]. replace (S _) with (S (S (length (to_bytes a) + length (to_bytes rest)))) by (cbn [length]; lia).
  cbn [split_n app]. rewrite cut_at by done. cbn [fmap list_fmap first_ip]. rewrite of_to_bytes. by rewrite bool_decide_eq_false_2.
Qed.

(** A request through a proxy that adds to the header what it was sent. *)
Definition through (proxy added real a : string) : ClientAddress := mkClientAddress proxy (a +:+ "," +:+ added) real.

(** A text of an address as [net.IP.String] writes it. *)
Definition address (a : string) : Prop := parseIPToken a = a ∧ a ≠ "" ∧ ","%char ∉ to_bytes a.

Lemma through_client proxy added real a : isTrustedProxyIP (parseIPToken proxy) = true → address a → clientIPFromRequest (through proxy added real a) = a.
Proof.
  intros Ht (Ha & He & Hc).
  assert (parseIPToken proxy ≠ "") by (intros E; by rewrite E in Ht).
  assert (parseIPToken proxy ≠ "unknown") by (intros E; by rewrite E in Ht).
  unfold clientIPFromRequest, through. cbn [ca_RemoteAddr ca_ForwardedFor ca_RealIP].
  rewrite (bool_decide_eq_false_2 (parseIPToken proxy = "")) by done.
  rewrite (bool_decide_eq_false_2 (parseIPToken proxy = "unknown")), Ht by done. cbn [negb andb].
  rewrite forwarded_first by (try done; by rewrite Ha). rewrite Ha. by rewrite bool_decide_eq_false_2.
Qed.

Lemma address_key a : address a → limiter_key a = a.
Proof.
  intros (Ha & He & _). unfold limiter_key. rewrite bool_decide_eq_false_2; [done|]. intros Ht.
  unfold parseIPToken in Ha. rewrite Ht in Ha. by rewrite bool_decide_eq_true_2 in Ha.
Qed.

Lemma unseen_stays now key l k :
  k ≠ limiter_key key → l.(ml_last) !! k = None → (MetaAllow order now key l).2.(ml_last) !! k = None.
Proof.
  intros Hne Hk. destruct (allow_state now key l) as [left ->]. cbn [ml_last]. rewrite lookup_insert_ne by done.
  unfold made_room, evictOldestLocked. destruct (_ && _); [|done]. destruct (oldest _ _) as [[k' ?]|]; [|done].
  case_bool_decide; [done|]. cbn [ml_last]. rewrite lookup_delete_None. by right.
Qed.

Lemma burst_stays now key l : (MetaAllow order now key l).2.(ml_burst) = l.(ml_burst).
Proof.
  destruct (allow_state now key l) as [left ->]. cbn [ml_burst]. unfold made_room, evictOldestLocked.
  destruct (_ && _); [|done]. destruct (oldest _ _) as [[? ?]|]; [|done]. by case_bool_decide.
Qed.

(** The status codes of requests to [/meta], one after the other. *)
Fixpoint meta_codes (cfg : option Config) (version : string) (rs : list (Z * ClientAddress)) (l : option metaRateLimiter) : list Z :=
  match rs with
  | [] => []
  | (now, r) :: rs' =>
      let '((code, _), l) := handleMeta order cfg version now r l in code :: meta_codes cfg version rs' l
  end.

(** Whom [/meta] limits. From an address that is neither private nor local the two
    headers have no influence on the answer. Through a proxy on such an address,
    which adds the address of its client to the header that the client sent, a client
    gets around the limit: when each of its requests names another address in the header,
    every one of them is answered, however many there are. *)
Theorem meta_limited_by_address cfg version l :
  SFltb l.(ml_burst) f_one = false →
  (∀ now addr f1 r1 f2 r2, isTrustedProxyIP (parseIPToken addr) = false →
     handleMeta order cfg version now (mkClientAddress addr f1 r1) (Some l) =
     handleMeta order cfg version now (mkClientAddress addr f2 r2) (Some l)) ∧
  ∀ proxy added real (named : list (Z * string)),
    isTrustedProxyIP (parseIPToken proxy) = true → Forall address named.*2 → NoDup named.*2 → Forall (λ a, l.(ml_last) !! a = None) named.*2 →
    Forall (.= 200%Z) (meta_codes cfg version (prod_map id (through proxy added real) <$> named) (Some l)).
Proof.
  intros Hb. split.
  - intros now addr f1 r1 f2 r2 Ht. unfold handleMeta.
    assert (∀ f r, clientIPFromRequest (mkClientAddress addr f r) = if bool_decide (parseIPToken addr = "") then "unknown" else parseIPToken addr) as Hc;
      [|by rewrite !Hc].
    intros f r. unfold clientIPFromRequest. cbn [ca_RemoteAddr]. destruct (decide (parseIPToken addr = "")) as [->|E]; [done|].
    rewrite (bool_decide_eq_false_2 _ E), Ht. by rewrite andb_false_r.
  - intros proxy added real named Hp. revert l Hb. induction named as [|[now a] named IH]; intros l Hb Ha Hnd Hn; [constructor|].
    cbn [fmap list_fmap snd] in Ha, Hnd, Hn. apply Forall_cons in Ha as [Ha Has]. apply NoDup_cons in Hnd as [Hni Hnd]. apply Forall_cons in Hn as [Hn Hns].
    cbn [fmap list_fmap prod_map fst snd meta_codes id]. unfold handleMeta at 1. rewrite through_client by done.
    pose proof (new_allowed now a l Hb) as Hok. rewrite address_key in Hok by done. specialize (Hok Hn).
    destruct (MetaAllow order now a l) as [ok l'] eqn:E. cbn in Hok. subst ok. cbn [negb]. constructor; [done|].
    assert (l' = (MetaAllow order now a l).2) as -> by (by rewrite E). apply IH; [by rewrite burst_stays|done|done|].
    apply Forall_forall. intros k Hk. rewrite Forall_forall in Hns. apply unseen_stays; [|by apply Hns].
    rewrite address_key by done. intros ->. done.
Qed.

End limiter.

(** ** The health command *)

Section command.
Context `{UnicodeTables}.
Context (get : string → option (Z * bytes)).

Lemma first_written v : document_ok v = true → (document_depth v <= maxNestingDepth)%N →
  json_first (of_bytes (write_json v)) = Some v.
Proof.
  intros Hok Hd. unfold json_first, write_json. rewrite to_of_bytes.
  rewrite (reads_all v _ maxNestingDepth DeviceFlow.line_break Hok); [done|by split|done|]. unfold enough. lia.
Qed.

(** An answer that is an object reaches the command with all of its members. *)
Lemma json_received url code m :
  url_Parse url ≠ None → get url = Some (code, write_json (AObj m)) →
  document_ok (AObj m) = true → numbers_ok (AObj m) = true → (document_depth (AObj m) <= maxNestingDepth)%N →
  getJSON get url = Ok (code, foldl (λ acc p, assign acc p.1 (to_any p.2)) [] m).
Proof.
  intros Hu Hg Hok Hn Hd. unfold getJSON. rewrite (bool_decide_eq_false_2 _ Hu), Hg, first_written by done.
  cbn [mbind option_bind]. unfold unmarshal, d_object. by rewrite Hn.
Qed.

Definition received (v : document) : list (string * any) :=
  match v with AObj m => foldl (λ acc p, assign acc p.1 (to_any p.2)) [] m | _ => [] end.

(** What the command looks for in the answer of [/readyz]. *)
Lemma ready_received r tools search :
  let m := received (ready_document r tools search) in
  lookup_key m "status" = Some (AStr r.(rd_status)) ∧ lookup_key m "nats" = AStr <$> r.(rd_nats) ∧
  lookup_key m "version" = None ∧ lookup_key m "uptime" = None ∧ lookup_key m "registered_servers" = None.
Proof.
  destruct r as [code status [nats|] [[sync version]|]], tools as [n|], search as [s|];
    unfold ready_document, DeviceFlow.omitempty; cbn [rd_nats rd_settings rd_status]; try destruct (0 <? version)%Z; try case_bool_decide;
    split_and!; reflexivity.
Qed.

Lemma ready_depth r tools search : (document_depth (ready_document r tools search) <= maxNestingDepth)%N.
Proof.
  assert (Hs : ∀ s, (document_depth (AObj (search_members s)) <= 3)%N).
  { intros s. unfold search_members, DeviceFlow.omitempty. destruct (se_VectorReady s), (_ || _), (0 <? _)%Z; case_bool_decide;
      cbn [app document_depth foldr snd]; lia. }
  unfold maxNestingDepth, ready_document, DeviceFlow.omitempty.
  destruct r as [code status [nats|] [[sync version]|]], tools as [n|], search as [s|]; cbn [rd_nats rd_settings rd_status];
    try destruct (0 <? version)%Z; try case_bool_decide; try specialize (Hs s); cbn [app document_depth foldr snd] in *; lia.
Qed.

(** C40: The health command against a gateway. When both endpoints of the gateway answer,
    the command prints that it is healthy, whether it is ready and, in the integrated
    mode, whether it is connected to NATS; it fails exactly when the gateway is not
    ready. It prints nothing else: the version, the uptime and the number of
    servers that it looks for are in no answer of the gateway. *)
Theorem health_command_correct `{RateLimit.TokenBuckets} {E} (o : ServerOptions) (w : EventsWorld E) tools search args fs u :
  let raw := TrimSpace (get_string fs "url") in
  let scheme := if bool_decide (u.(url_Scheme) = "") then "https" else u.(url_Scheme) in
  let base := url_String scheme u.(url_Host) in
  let r := handleReady o w in
  Parse (list_to_map [("url", FString "https://localhost:8443")]) args = Ok (fs, []) →
  raw ≠ "" → url_Parse raw = Some u → validateHealthBaseURL scheme u.(url_Host) (url_has_user raw) = Ok () →
  url_Parse (base +:+ "/healthz") ≠ None → url_Parse (base +:+ "/readyz") ≠ None →
  get (base +:+ "/healthz") = Some (handleHealth.1, write_json handleHealth.2) →
  get (base +:+ "/readyz") = Some (r.(rd_code), write_json (ready_document r tools search)) →
  document_ok (ready_document r tools search) = true → numbers_ok (ready_document r tools search) = true →
  healthCommand get args =
    (["Health: ok (200)"; "Ready: " +:+ r.(rd_status) +:+ " (" +:+ pretty r.(rd_code) +:+ ")"] ++
       match r.(rd_nats) with Some s => labelled "NATS" s | None => [] end,
     if (r.(rd_code) =? 200)%Z then None else Some (Opaque "gateway is unhealthy")) ∧
  (r.(rd_code) = 200%Z ↔ r.(rd_status) ≠ "not_ready") ∧
  (r.(rd_nats) = None ↔ o.(so_CruveroEnabled) = false).
Proof.
  intros raw scheme base r Hp Hraw Hu Hv Hh Hr Hgh Hgr Hok Hn. split; [|split].
  - assert (Ht : TrimSpace raw ≠ "") by (unfold raw; by rewrite TrimSpace_idemp).
    unfold healthCommand. rewrite Hp, (bool_decide_eq_true_2 ([] = [])) by done. cbn [negb]. fold raw. unfold fetchHealth.
    rewrite (bool_decide_eq_false_2 _ Ht), Hu. fold scheme. rewrite Hv. fold base.
    rewrite (json_received _ 200 [("status", AStr "ok")]) by done.
    rewrite (json_received (base +:+ "/readyz") (rd_code r) _ Hr Hgr Hok Hn) by apply ready_depth.
    destruct (ready_received r tools search) as (H1 & H2 & H3 & H4 & H5). cbn [received ready_document] in H1, H2, H3, H4, H5.
    unfold health_lines, string_member. cbn [hs_HealthCode hs_HealthState hs_ReadyCode hs_ReadyState hs_NATS hs_Version hs_Uptime hs_RegisteredServers].
    rewrite H1, H2, H3, H4, H5.
    destruct (rd_nats r), (rd_code r =? 200)%Z; cbn [fmap option_fmap option_map]; f_equal; cbn [app]; by rewrite ?app_nil_r.
  - unfold r, handleReady. destruct (negb _); [done|].
    destruct (ew_degradation w) as [m|]; [destruct (dg_status m), (_ || _)|]; done.
  - unfold r, handleReady. destruct (so_CruveroEnabled o); [|done]. cbn [negb].
    destruct (ew_degradation w) as [m|]; [destruct (dg_status m), (_ || _)|]; done.
Qed.

End command.

(** ** Instances *)

Section examples.
#[local] Existing Instance ascii_tables.
#[local] Existing Instance EventsProps.counting_buckets.

Definition ten_per_second (n : nat) : metaRateLimiter := mkMetaLimiter (f_of_Z 10) (f_of_Z 10) n ∅ ∅.

(** The third address takes the place of the one that was seen longest ago. *)
Lemma meta_limiter_bounded_witness :
  let l := foldl (λ l c, (MetaAllow map_to_list c.1 c.2 l).2) (ten_per_second 2) [(1%Z, "::1"); (2%Z, "10.0.0.1"); (3%Z, "::1")] in
  let l' := (MetaAllow map_to_list 4 "10.0.0.2" l).2 in
  (Z.of_nat (size l.(ml_tokens)) <= 2)%Z ∧ l'.(ml_last) !! "10.0.0.1" = None ∧ size l'.(ml_last) = size l.(ml_last).
Proof.
  intros l l'. destruct (meta_limiter_bounded map_to_list (λ _, reflexivity _) (f_of_Z 10) (f_of_Z 10) 2 (ten_per_second 2)
    [(1%Z, "::1"); (2%Z, "10.0.0.1"); (3%Z, "::1")] eq_refl) as (Hs & _ & Hg).
  split_and!; [exact Hs|vm_compute; reflexivity|].
  by destruct (Hg 4%Z "10.0.0.2" "10.0.0.1" 2%Z ltac:(vm_compute; reflexivity) ltac:(vm_compute; reflexivity)) as (_ & _ & _ & Hz).
Defined.

(** Twelve requests in the same instant, where ten are allowed to one address. *)
Definition twelve : list (Z * string) := (λ i, (7%Z, "203.0.113." +:+ pretty i)) <$> seq 1 12.

Lemma meta_limited_by_address_witness :
  Forall (.= 200%Z) (meta_codes map_to_list None "v1" (prod_map id (through "10.0.0.2:4000" " 198.51.100.7" "") <$> twelve)
    (Some (ten_per_second 100))) ∧
  meta_codes map_to_list None "v1" (prod_map id (λ _, mkClientAddress "198.51.100.7:4000" "" "") <$> twelve) (Some (ten_per_second 100)) =
    replicate 10 200%Z ++ [429; 429]%Z.
Proof.
  split; [|vm_compute; reflexivity].
  assert (Hb : SFltb (ten_per_second 100).(ml_burst) f_one = false) by (vm_compute; reflexivity).
  destruct (meta_limited_by_address map_to_list None "v1" (ten_per_second 100) Hb) as [_ Ht].
  assert (Hp : isTrustedProxyIP (parseIPToken "10.0.0.2:4000") = true) by (vm_compute; reflexivity).
  assert (Ha : Forall address twelve.*2).
  { vm_compute twelve. repeat (apply Forall_cons; split; [split_and!; [by vm_compute|done|by_evaluation]|]). done. }
  assert (Hd : NoDup twelve.*2) by by_evaluation.
  assert (Hn : Forall (λ a, (ten_per_second 100).(ml_last) !! a = None) twelve.*2) by (apply Forall_true; done).
  exact (Ht "10.0.0.2:4000" " 198.51.100.7" "" twelve Hp Ha Hd Hn).
Defined.

(** A gateway that lost its connection to NATS, on the default address. *)
Definition lost_nats : EventsWorld () := EventsProps.run_events [EventsProps.EvDisconnected].
Definition lost_get (url : string) : option (Z * bytes) :=
  let r := handleReady EventsProps.example_options lost_nats in
  if bool_decide (url = "https://localhost:8443/healthz") then Some (handleHealth.1, write_json handleHealth.2)
  else if bool_decide (url = "https://localhost:8443/readyz")
  then Some (r.(rd_code), write_json (ready_document r (Some 3%Z) (Some (mkSearchStatus "hybrid" "" 3 true None 0 1 0))))
  else None.

Lemma health_command_correct_witness :
  healthCommand lost_get [] = (["Health: ok (200)"; "Ready: degraded (200)"; "NATS: disconnected"], None).
Proof.
  destruct (health_command_correct lost_get EventsProps.example_options lost_nats (Some 3%Z)
    (Some (mkSearchStatus "hybrid" "" 3 true None 0 1 0)) [] (list_to_map [("url", FString "https://localhost:8443")])
    (mkURL "https" "localhost:8443" "") eq_refl) as [-> _]; [by vm_compute..|]. vm_compute. reflexivity.
Defined.

End examples.
