(* ===== verification/Backend.v ===== *)
(** * The client of a backend: [internal/proxy/client.go]

    A [BackendClient] keeps one session of the MCP library with one server: it makes the
    client of the library on the first call, starts and initialises it, and passes
    calls on. The library is a parameter, [McpLibrary]; what it answers is brought into
    the form the gateway uses. Spans and their names are left out. *)

From stdpp Require Import pretty.
From S2P Require Import Prelude GoStrings Json Types Routing Listings.

#[local] Open Scope string_scope.
#[local] Open Scope list_scope.
#[local] Open Scope nat_scope.
#[local] Open Scope go_scope.

(** ** What the library answers *)

(** The content of a result: a text, or something whose encoding as JSON is given,
    when it has one. *)
Inductive McpContent := TextContent (type text : string) | OtherContent (json : option string).
Record CallToolResult := mkCallToolResult { cr_Content : list McpContent; cr_IsError : bool }.

Record ToolAnnotation := mkToolAnnotation {
  an_Title : string;
  an_ReadOnlyHint : option bool;
  an_DestructiveHint : option bool;
  an_IdempotentHint : option bool;
  an_OpenWorldHint : option bool;
}.

Record McpResource := mkMcpResource { mr_URI : string; mr_Name : string; mr_Description : string; mr_MIMEType : string }.
Inductive McpResourceContents :=
| TextResourceContents (uri mime text : string)
| BlobResourceContents (uri mime blob : string)
| OtherResourceContents.

Section tools.
(** Types of the library that are only passed on. *)
Context {Icon Execution Meta : Type}.

(** A tool; of the two structured schemas, their encodings as JSON. *)
Record McpTool := mkMcpTool {
  mt_Name : string;
  mt_Description : string;
  mt_RawInputSchema : string;
  mt_InputSchema : option string;
  mt_RawOutputSchema : string;
  mt_OutputType : string;
  mt_OutputSchema : option string;
  mt_Annotations : ToolAnnotation;
  mt_DeferLoading : bool;
  mt_Icons : list Icon;
  mt_Execution : option Execution;
  mt_Meta : option Meta;
}.

(** [ToolDefinition] with all of its fields. *)
Record BackendTool := mkBackendTool {
  bt_Name : string;
  bt_Description : string;
  bt_InputSchema : string;
  bt_OutputSchema : string;
  bt_Annotations : option ToolAnnotation;
  bt_DeferLoading : bool;
  bt_Icons : list Icon;
  bt_Execution : option Execution;
  bt_Meta : option Meta;
}.

(** [toolInputSchemaJSON]. *)
Definition toolInputSchemaJSON (tool : McpTool) : option string :=
  if negb (bool_decide (tool.(mt_RawInputSchema) = "")) then Some tool.(mt_RawInputSchema)
  else
    json ← tool.(mt_InputSchema);
    if bool_decide (json = "") || bool_decide (json = "null") then Some "{}" else Some json.

(** [toolOutputSchemaJSON]; the empty text for nil. *)
Definition toolOutputSchemaJSON (tool : McpTool) : option string :=
  if negb (bool_decide (tool.(mt_RawOutputSchema) = "")) then Some tool.(mt_RawOutputSchema)
  else if negb (bool_decide (tool.(mt_OutputType) = "")) then tool.(mt_OutputSchema)
  else Some "".

(** [annotationsFromTool]. *)
Definition annotationsFromTool (tool : McpTool) : option ToolAnnotation :=
  let a := tool.(mt_Annotations) in
  if bool_decide (a.(an_Title) = "") && bool_decide (a.(an_ReadOnlyHint) = None) && bool_decide (a.(an_DestructiveHint) = None)
     && bool_decide (a.(an_IdempotentHint) = None) && bool_decide (a.(an_OpenWorldHint) = None)
  then None else Some a.

(** The loop of [ListTools]. *)
Fixpoint tool_definitions (tools : list McpTool) : result (list BackendTool) :=
  match tools with
  | [] => Ok []
  | tool :: tools' =>
      match toolInputSchemaJSON tool with
      | None => Err (Wrap ("list tools: encode schema for " +:+ tool.(mt_Name)) (Opaque "json"))
      | Some schema =>
          match toolOutputSchemaJSON tool with
          | None => Err (Wrap ("list tools: encode output schema for " +:+ tool.(mt_Name)) (Opaque "json"))
          | Some outSchema =>
              match tool_definitions tools' with
              | Err e => Err e
              | Ok defs =>
                  Ok (mkBackendTool tool.(mt_Name) tool.(mt_Description) schema outSchema (annotationsFromTool tool)
                        tool.(mt_DeferLoading) tool.(mt_Icons) tool.(mt_Execution) tool.(mt_Meta) :: defs)
              end
          end
      end
  end.

(** The fields of a definition that the aggregation of tools looks at. *)
Definition listed_definition (t : BackendTool) : ToolDefinition :=
  mkToolDefinition t.(bt_Name) t.(bt_Description) t.(bt_InputSchema).

End tools.
Arguments McpTool : clear implicits.
Arguments BackendTool : clear implicits.

(** The loop of [CallTool] over the content. *)
Fixpoint content_blocks (content : list McpContent) : result (list ContentBlock) :=
  match content with
  | [] => Ok []
  | item :: content' =>
      match (match item with
             | TextContent type text => Some (mkContentBlock type text)
             | OtherContent json => mkContentBlock "json" <$> json
             end) with
      | None => Err (Wrap "call tool: marshal content block" (Opaque "json"))
      | Some block => match content_blocks content' with Err e => Err e | Ok blocks => Ok (block :: blocks) end
      end
  end.

(** ** The library *)

(** The operations of the library on a state of its own; clients are known by numbers. *)
Class McpLibrary (I X M E : Type) := {
  NewStreamableHttpClient : string → ST E nat;
  lib_Start : nat → ST E ();
  lib_Initialize : nat → ST E ();
  lib_CallTool : nat → string → list (string * any) → ST E CallToolResult;
  lib_ListTools : nat → ST E (list (McpTool I X M));
  lib_ListResources : nat → ST E (list McpResource);
  lib_ReadResource : nat → string → ST E (list McpResourceContents);
  lib_Close : nat → ST E ();
}.

(** ** The client *)

Record BackendClient := mkBackendClient {
  bc_record : ServerRecord;
  bc_baseURL : string;
  bc_client : option nat;
  bc_initialized : bool;
}.
Definition set_session (client : option nat) (initialized : bool) (c : BackendClient) : BackendClient :=
  mkBackendClient c.(bc_record) c.(bc_baseURL) client initialized.

(** [NewBackendClient]. *)
Definition NewBackendClient `{UnicodeTables} (record : ServerRecord) : BackendClient := mkBackendClient record (client_url record) None false.

Record ResourceContent := mkResourceContent { rc_URI : string; rc_MimeType : string; rc_Text : string }.

Section client.
Context {I X M E : Type} {library : McpLibrary I X M E}.

(** A call of the library, and the error of its caller around it. *)
Definition in_library {A} (ctx : string) (m : ST E A) : ST (BackendClient * E) A := λ w,
  match m w.2 with
  | (Ok x, e) => (Ok x, (w.1, e))
  | (Err err, e) => (Err (Wrap ctx err), (w.1, e))
  end.

(** [ensureInitialized], under the lock of the client. *)
Definition made_client : ST (BackendClient * E) nat := λ w,
  match w.1.(bc_client) with
  | Some h => (Ok h, w)
  | None =>
      (let* h := in_library "create streamable http client" (NewStreamableHttpClient w.1.(bc_baseURL)) in
       modify (λ w, (set_session (Some h) w.1.(bc_initialized) w.1, w.2)) ;; ret h) w
  end.
Definition ensureInitialized : ST (BackendClient * E) nat := λ w,
  if bool_decide (TrimSpace w.1.(bc_record).(Host) = "") || (w.1.(bc_record).(Port) <=? 0)%Z
  then (Err (Opaque "invalid backend address"), w)
  else
    (let* h := made_client in
     let* initialized := gets (λ w, w.1.(bc_initialized)) in
     if negb initialized then
       in_library "start mcp client" (lib_Start h) ;;
       in_library "initialize mcp client" (lib_Initialize h) ;;
       modify (λ w, (set_session w.1.(bc_client) true w.1, w.2)) ;;
       ret h
     else ret h) w.

(** The error of [ensureInitialized], with the name of the operation. *)
Definition session (what : string) : ST (BackendClient * E) nat := λ w,
  match ensureInitialized w with
  | (Ok h, w) => (Ok h, w)
  | (Err e, w) => (Err (Wrap what e), w)
  end.

(** [CallTool]. *)
Definition BackendCallTool (name : string) (args : list (string * any)) : ST (BackendClient * E) ToolResult :=
  let* h := session "call tool" in
  let* r := in_library "call tool: backend call" (lib_CallTool h name args) in
  let* blocks := of_result (content_blocks r.(cr_Content)) in
  ret (mkToolResult blocks r.(cr_IsError)).

(** [ListTools]. *)
Definition BackendListTools : ST (BackendClient * E) (list (BackendTool I X M)) :=
  let* h := session "list tools" in
  let* tools := in_library "list tools: backend call" (lib_ListTools h) in
  of_result (tool_definitions tools).

(** [ListResources]. *)
Definition BackendListResources : ST (BackendClient * E) (list ResourceDefinition) :=
  let* h := session "list resources" in
  let* resources := in_library "list resources: backend call" (lib_ListResources h) in
  ret ((λ r, mkResource r.(mr_URI) r.(mr_Name) r.(mr_Description) r.(mr_MIMEType)) <$> resources).

(** [ReadResource]: the first of the contents. *)
Definition BackendReadResource (uri : string) : ST (BackendClient * E) ResourceContent :=
  let* h := session "read resource" in
  let* contents := in_library "read resource: backend call" (lib_ReadResource h (TrimSpace uri)) in
  match contents with
  | [] => throw (Opaque "read resource: empty content")
  | TextResourceContents uri mime text :: _ => ret (mkResourceContent uri mime text)
  | BlobResourceContents uri mime blob :: _ => ret (mkResourceContent uri mime blob)
  | OtherResourceContents :: _ => throw (Opaque "read resource: unsupported resource content type")
  end.

(** [Close]. *)
Definition BackendClose : ST (BackendClient * E) () := λ w,
  match w.1.(bc_client) with
  | None => (Ok (), w)
  | Some h =>
      (in_library "close backend client" (lib_Close h) ;;
       modify (λ w, (set_session None false w.1, w.2))) w
  end.

End client.
