(* ===== verification/BackendProps.v ===== *)
(** * The client of a backend: correctness

    - [backend_protocol]: the calls of the library that any use of a client makes, against
      an automaton of sessions.
    - [backend_results]: what the gateway gets of the answers of a server. *)

From S2P Require Import Prelude GoStrings Json Types Routing Listings Backend.

#[local] Open Scope string_scope.
#[local] Open Scope list_scope.
#[local] Open Scope nat_scope.
#[local] Open Scope go_scope.

(** ** Calls of the library, and the automaton *)

(** A call and whether it succeeded; [CallUse] for a request that needs a session. *)
Inductive LibraryCall :=
| CallNew (url : string) (client : option nat)
| CallStart (client : nat) (ok : bool)
| CallInitialize (client : nat) (ok : bool)
| CallUse (client : nat)
| CallClose (client : nat) (ok : bool).

(** A library that writes down the calls it gets. *)
Section logged.
Context {I X M E : Type} (library : McpLibrary I X M E).

Definition log {A} (call : result A → LibraryCall) (m : ST E A) : ST (E * list LibraryCall) A := λ w,
  let '(r, e) := m w.1 in (r, (e, w.2 ++ [call r])).
Definition logged : McpLibrary I X M (E * list LibraryCall) := {|
  NewStreamableHttpClient url := log (λ r, CallNew url (match r with Ok h => Some h | Err _ => None end)) (NewStreamableHttpClient url);
  lib_Start h := log (λ r, CallStart h (is_ok r)) (lib_Start h);
  lib_Initialize h := log (λ r, CallInitialize h (is_ok r)) (lib_Initialize h);
  lib_CallTool h name args := log (λ _, CallUse h) (lib_CallTool h name args);
  lib_ListTools h := log (λ _, CallUse h) (lib_ListTools h);
  lib_ListResources h := log (λ _, CallUse h) (lib_ListResources h);
  lib_ReadResource h uri := log (λ _, CallUse h) (lib_ReadResource h uri);
  lib_Close h := log (λ r, CallClose h (is_ok r)) (lib_Close h);
|}.
End logged.

(** The protocol. A client is made for the address of the server when there is none,
    started, and initialised directly after a start that succeeded; requests are made
    on an initialised client only, and it is not initialised again. A client that was
    closed is not used any more. *)
Inductive Session := NoClient | Made (client : nat) | Started (client : nat) | Ready (client : nat).

Definition protocol (url : string) (s : Session) (call : LibraryCall) : option Session :=
  match s, call with
  | NoClient, CallNew url' r => if bool_decide (url' = url) then Some (match r with Some h => Made h | None => NoClient end) else None
  | Made h, CallStart h' ok => if bool_decide (h' = h) then Some (if ok then Started h else Made h) else None
  | Started h, CallInitialize h' ok => if bool_decide (h' = h) then Some (if ok then Ready h else Made h) else None
  | Ready h, CallUse h' => if bool_decide (h' = h) then Some (Ready h) else None
  | Made h, CallClose h' ok => if bool_decide (h' = h) then Some (if ok then NoClient else Made h) else None
  | Ready h, CallClose h' ok => if bool_decide (h' = h) then Some (if ok then NoClient else Ready h) else None
  | _, _ => None
  end.
Definition follows (url : string) (s : option Session) (calls : list LibraryCall) : option Session :=
  foldl (λ s call, s ← s; protocol url s call) s calls.

Lemma follows_snoc url s calls call :
  follows url s (calls ++ [call]) = (s ← follows url s calls; protocol url s call).
Proof. unfold follows. by rewrite foldl_app. Qed.

Section protocol.
Context `{UnicodeTables} {I X M E : Type} (library : McpLibrary I X M E).
#[local] Existing Instance logged.
#[local] Abbreviation World := (BackendClient * (E * list LibraryCall))%type.

(** The uses of a client, one after the other. The code takes the mutex of the
    client to prepare the session and again to close it, not for the request in
    between; the router closes only a client that it has not handed to anybody. *)
Inductive Use := UseCall (name : string) (args : list (string * any)) | UseTools | UseResources | UseRead (uri : string) | UseClose.
Definition use (u : Use) (w : World) : World :=
  match u with
  | UseCall name args => (BackendCallTool (library := logged library) name args w).2
  | UseTools => (BackendListTools (library := logged library) w).2
  | UseResources => (BackendListResources (library := logged library) w).2
  | UseRead uri => (BackendReadResource (library := logged library) uri w).2
  | UseClose => (BackendClose (library := logged library) w).2
  end.

(** The session that the fields of a client stand for. *)
Definition session_of (c : BackendClient) : Session :=
  match c.(bc_client) with None => NoClient | Some h => if c.(bc_initialized) then Ready h else Made h end.

Record client_ok (record : ServerRecord) (w : World) : Prop := {
  co_record : w.1.(bc_record) = record;
  co_url : w.1.(bc_baseURL) = client_url record;
  co_fresh : w.1.(bc_client) = None → w.1.(bc_initialized) = false;
  co_log : follows (client_url record) (Some NoClient) w.2.2 = Some (session_of w.1);
}.

Definition valid_address (r : ServerRecord) : bool := negb (bool_decide (TrimSpace r.(Host) = "") || (r.(Port) <=? 0)%Z).

(** A step of the log that the protocol allows. *)
Lemma log_step record (c c' : BackendClient) e e' calls call :
  client_ok record (c, (e, calls)) → c'.(bc_record) = c.(bc_record) → c'.(bc_baseURL) = c.(bc_baseURL) →
  (c'.(bc_client) = None → c'.(bc_initialized) = false) →
  protocol (client_url record) (session_of c) call = Some (session_of c') →
  client_ok record (c', (e', calls ++ [call])).
Proof.
  intros [Hr Hu _ Hl] Hr' Hu' Hf Hp. cbn [fst snd] in *. split; cbn [fst snd]; [congruence..|done|].
  rewrite follows_snoc, Hl. exact Hp.
Qed.

Lemma made_ok record (w : World) : client_ok record w →
  let r := made_client (library := logged library) w in
  client_ok record r.2 ∧ ∀ h, r.1 = Ok h → r.2.1.(bc_client) = Some h.
Proof.
  destruct w as [c [e calls]]. intros Hw. unfold made_client. cbn [fst]. destruct (bc_client c) as [h|] eqn:Ec.
  { split; [done|]. by intros h' [= <-]. }
  unfold bind, in_library. cbn [NewStreamableHttpClient logged fst snd]. unfold log. cbn [fst snd].
  assert (Hs : session_of c = NoClient) by (unfold session_of; by rewrite Ec).
  assert (Hi : bc_initialized c = false) by exact (co_fresh _ _ Hw Ec).
  assert (Hp : ∀ r, protocol (client_url record) (session_of c) (CallNew (bc_baseURL c) r) = Some (match r with Some h => Made h | None => NoClient end)).
  { intros r. rewrite Hs. cbn [protocol]. by rewrite bool_decide_eq_true_2 by exact (co_url _ _ Hw). }
  destruct (NewStreamableHttpClient (bc_baseURL c) e) as [[err|h] e'] eqn:En; cbn [fst snd modify ret].
  - split; [|done]. apply (log_step _ _ _ _ _ _ _ Hw); [done..|exact (co_fresh _ _ Hw)|]. by rewrite Hp, Hs.
  - split; [|by intros h' [= <-]]. apply (log_step _ _ _ _ _ _ _ Hw); [done..|]. rewrite Hp. unfold session_of, set_session. cbn. by rewrite Hi.
Qed.

(** The handshake on a client that is made. *)
Definition handshake (h : nat) : ST World nat :=
  in_library "start mcp client" (lib_Start (McpLibrary := logged library) h) ;;
  in_library "initialize mcp client" (lib_Initialize (McpLibrary := logged library) h) ;;
  modify (λ w, (set_session w.1.(bc_client) true w.1, w.2)) ;; ret h.

Lemma handshake_ok record h (w : World) :
  client_ok record w → w.1.(bc_client) = Some h → w.1.(bc_initialized) = false →
  client_ok record (handshake h w).2 ∧ ∀ h', (handshake h w).1 = Ok h' → session_of (handshake h w).2.1 = Ready h'.
Proof.
  destruct w as [c [e calls]]. cbn [fst]. intros Hw Hc Hi.
  assert (Hs : session_of c = Made h) by (unfold session_of; by rewrite Hc, Hi).
  assert (Hf : ∀ calls' s', follows (client_url record) (Some NoClient) (calls ++ calls') = Some s' ↔
    follows (client_url record) (Some (Made h)) calls' = Some s').
  { intros calls' s'. unfold follows. rewrite foldl_app. fold (follows (client_url record) (Some NoClient) calls).
    pose proof (co_log _ _ Hw) as Hl. cbn [fst snd] in Hl. by rewrite Hl, Hs. }
  assert (Hok : ∀ c' e' calls', c'.(bc_record) = c.(bc_record) → c'.(bc_baseURL) = c.(bc_baseURL) → c'.(bc_client) = Some h →
    follows (client_url record) (Some (Made h)) calls' = Some (session_of c') → client_ok record (c', (e', calls ++ calls'))).
  { intros c' e' calls' Hr Hu Hcl Hl. destruct Hw as [Hr0 Hu0 _ _]. split; cbn [fst snd] in *; [congruence..|by rewrite Hcl|].
    by apply Hf. }
  unfold handshake, bind, in_library. cbn [lib_Start lib_Initialize logged]. unfold log. cbn [fst snd].
  destruct (lib_Start h e) as [[err|[]] e1]; cbn [fst snd is_ok].
  { split; [|done]. apply Hok; try done. rewrite Hs. cbn. by rewrite bool_decide_eq_true_2. }
  destruct (lib_Initialize h e1) as [[err|[]] e2]; cbn [fst snd is_ok modify ret]; rewrite <- app_assoc; cbn [app].
  - split; [|done]. apply Hok; try done. rewrite Hs. cbn. rewrite bool_decide_eq_true_2 by done. cbn. by rewrite bool_decide_eq_true_2.
  - split.
    + apply Hok; try done. cbn. rewrite bool_decide_eq_true_2 by done. cbn. rewrite bool_decide_eq_true_2 by done. unfold session_of. cbn. by rewrite Hc.
    + intros h' [= <-]. unfold session_of. cbn. by rewrite Hc.
Qed.

Lemma ensure_ok record (w : World) : client_ok record w →
  let r := ensureInitialized (library := logged library) w in
  client_ok record r.2 ∧ (∀ h, r.1 = Ok h → session_of r.2.1 = Ready h) ∧
  (valid_address record = false → r.2 = w ∧ ∃ err, r.1 = Err err).
Proof.
  intros Hw. unfold ensureInitialized. rewrite (co_record _ _ Hw). destruct (_ || _) eqn:Ha.
  { split; [done|]. split; [done|]. intros _. split; [done|]. by eexists. }
  assert (Hv : valid_address record = true) by (unfold valid_address; by rewrite Ha). rewrite Hv.
  pose proof (made_ok record w Hw) as [Hm Hh]. remember (bind made_client _ w) as r eqn:Er. unfold bind at 1 in Er.
  destruct (made_client w) as [[err|h] w1]; cbn [fst snd] in *; [by subst r|].
  specialize (Hh h eq_refl). unfold bind at 1, gets in Er. destruct (bc_initialized w1.1) eqn:Hi; cbn [negb] in Er; subst r.
  - cbn [ret fst snd]. split_and!; [done| |done]. intros h' [= <-]. unfold session_of. by rewrite Hh, Hi.
  - pose proof (handshake_ok record h w1 Hm Hh Hi) as [H1 H2]. split; [exact H1|]. split; [exact H2|done].
Qed.

(** A request after [ensureInitialized]. *)
Lemma request_ok {A B} record what ctx (call : nat → ST E A) (k : A → ST World B) (w : World) :
  client_ok record w → (∀ x w, (k x w).2 = w) →
  let m := let* h := session (library := logged library) what in let* x := in_library ctx (log (λ _, CallUse h) (call h)) in k x in
  client_ok record (m w).2 ∧ (valid_address record = false → (m w).2 = w).
Proof.
  intros Hw Hk m. subst m. unfold bind, session. pose proof (ensure_ok record w Hw) as (H1 & H2 & H3).
  destruct (ensureInitialized w) as [[err|h] [c [e calls]]]; cbn [fst snd] in *.
  { split; [done|]. intros Hv. by apply H3. }
  specialize (H2 h eq_refl). unfold in_library, log. cbn [fst snd].
  assert (Hu : ∀ e', client_ok record (c, (e', calls ++ [CallUse h]))).
  { intros e'. apply (log_step _ _ _ _ _ _ _ H1); [done..|exact (co_fresh _ _ H1)|]. rewrite H2. cbn. by rewrite bool_decide_eq_true_2. }
  split; [|intros Hv; by destruct (H3 Hv) as [_ [err ?]]].
  destruct (call h e) as [[err|x] e']; cbn [fst snd]; [done|]. by rewrite Hk.
Qed.

Lemma use_ok record u (w : World) : client_ok record w →
  client_ok record (use u w) ∧ (valid_address record = false → w.1.(bc_client) = None → use u w = w).
Proof.
  intros Hw. destruct u; cbn [use].
  - destruct (request_ok record "call tool" "call tool: backend call" (λ h, lib_CallTool h name args)
      (λ r, let* blocks := of_result (content_blocks r.(cr_Content)) in ret (mkToolResult blocks r.(cr_IsError))) w Hw) as [H1 H2];
      [|by split; [exact H1|intros; apply H2]].
    intros r w'. unfold bind, of_result. by destruct (content_blocks _).
  - destruct (request_ok record "list tools" "list tools: backend call" lib_ListTools (λ t, of_result (tool_definitions t)) w Hw) as [H1 H2];
      [done|by split; [exact H1|intros; apply H2]].
  - destruct (request_ok record "list resources" "list resources: backend call" lib_ListResources
      (λ l, ret ((λ r, mkResource r.(mr_URI) r.(mr_Name) r.(mr_Description) r.(mr_MIMEType)) <$> l)) w Hw) as [H1 H2];
      [done|by split; [exact H1|intros; apply H2]].
  - destruct (request_ok record "read resource" "read resource: backend call" (λ h, lib_ReadResource h (TrimSpace uri))
      (λ contents, match contents with
         | [] => throw (Opaque "read resource: empty content")
         | TextResourceContents uri mime text :: _ => ret (mkResourceContent uri mime text)
         | BlobResourceContents uri mime blob :: _ => ret (mkResourceContent uri mime blob)
         | OtherResourceContents :: _ => throw (Opaque "read resource: unsupported resource content type")
         end) w Hw) as [H1 H2]; [|by split; [exact H1|intros; apply H2]].
    intros [|[] ?] w'; done.
  - destruct w as [c [e calls]]. unfold BackendClose. cbn [fst] in *. destruct (bc_client c) as [h|] eqn:Ec; [|done].
    split; [|done]. unfold bind, in_library. cbn [lib_Close logged fst snd]. unfold log. cbn [fst snd].
    assert (Hp : ∀ ok, protocol (client_url record) (session_of c) (CallClose h ok) = Some (if ok then NoClient else session_of c)).
    { intros ok. unfold session_of. rewrite Ec. by destruct (bc_initialized c); cbn; rewrite bool_decide_eq_true_2. }
    destruct (lib_Close h e) as [[err|[]] e']; cbn [fst snd is_ok modify]; (apply (log_step _ _ _ _ _ _ _ Hw); [done..| |by rewrite Hp]); [by rewrite Ec|done].
Qed.

(** C31: The session of a client. Whatever the gateway does with the client of a server,
    and whatever the library answers, the calls that the library gets follow the
    protocol: a client is made for the address of the server, started, and initialised
    once before any request; after a handshake that failed it is started and
    initialised again, and after a successful close a new one is made. For a
    server without a host or a port the library is never called. *)
Theorem backend_protocol record (e : E) (uses : list Use) :
  let w := foldl (λ w u, use u w) (NewBackendClient record, (e, [])) uses in
  follows (client_url record) (Some NoClient) w.2.2 = Some (session_of w.1) ∧
  (valid_address record = false → w.2.2 = []).
Proof.
  intros w. assert (Hw : client_ok record w ∧ (valid_address record = false → w = (NewBackendClient record, (e, [])))).
  { unfold w. clear w. induction uses as [|u uses IH] using rev_ind; [by repeat split|].
    rewrite foldl_app. cbn [foldl]. destruct IH as [IH1 IH2]. destruct (use_ok record u _ IH1) as [H1 H2].
    split; [done|]. intros Hv. specialize (IH2 Hv). rewrite H2; [done|done|by rewrite IH2]. }
  destruct Hw as [Hw Hv]. split; [exact (co_log _ _ Hw)|]. intros Ha. by rewrite (Hv Ha).
Qed.

End protocol.

(** ** Results *)

(** A block shows an item of content. *)
Inductive shows : McpContent → ContentBlock → Prop :=
| shows_text type text : shows (TextContent type text) (mkContentBlock type text)
| shows_json json : shows (OtherContent (Some json)) (mkContentBlock "json" json).

Lemma blocks_show content :
  match content_blocks content with
  | Ok blocks => Forall2 shows content blocks
  | Err _ => OtherContent None ∈ content
  end.
Proof.
  induction content as [|[type text|[json|]] content IH]; cbn [content_blocks fmap option_fmap option_map]; [constructor| | |left];
    (destruct (content_blocks content); [by right|by repeat constructor]).
Qed.

Section definitions.
Context {I X M : Type}.

(** A definition that describes a tool: an input schema that is never missing and is
    passed on as it is when the server sent one, an output schema only when the tool
    has one, annotations only when one is set, and everything else as it was. *)
Record describes (t : McpTool I X M) (d : BackendTool I X M) : Prop := {
  ds_same : (d.(bt_Name), d.(bt_Description), d.(bt_DeferLoading), d.(bt_Icons), d.(bt_Execution), d.(bt_Meta)) =
            (t.(mt_Name), t.(mt_Description), t.(mt_DeferLoading), t.(mt_Icons), t.(mt_Execution), t.(mt_Meta));
  ds_input : d.(bt_InputSchema) ≠ "" ∧ (t.(mt_RawInputSchema) ≠ "" → d.(bt_InputSchema) = t.(mt_RawInputSchema));
  ds_output : (t.(mt_RawOutputSchema) ≠ "" → d.(bt_OutputSchema) = t.(mt_RawOutputSchema)) ∧
              (t.(mt_RawOutputSchema) = "" → t.(mt_OutputType) = "" → d.(bt_OutputSchema) = "");
  ds_annotations : default (mkToolAnnotation "" None None None None) d.(bt_Annotations) = t.(mt_Annotations);
}.

(** A tool one of whose schemas cannot be encoded. *)
Definition unencodable (t : McpTool I X M) : Prop :=
  (t.(mt_RawInputSchema) = "" ∧ t.(mt_InputSchema) = None) ∨
  (t.(mt_RawOutputSchema) = "" ∧ t.(mt_OutputType) ≠ "" ∧ t.(mt_OutputSchema) = None).

Lemma definitions_describe tools :
  match tool_definitions tools with
  | Ok defs => Forall2 describes tools defs
  | Err _ => Exists unencodable tools
  end.
Proof.
  induction tools as [|t tools IH]; cbn [tool_definitions]; [constructor|].
  destruct (toolInputSchemaJSON t) as [schema|] eqn:Hin; unfold toolInputSchemaJSON in Hin.
  2: { left. left. case_bool_decide; [|done]. by destruct (mt_InputSchema t); [cbn in Hin; destruct (_ || _)|]. }
  destruct (toolOutputSchemaJSON t) as [out|] eqn:Ho; unfold toolOutputSchemaJSON in Ho.
  2: { clear Hin. left. right. repeat case_bool_decide; done. }
  destruct (tool_definitions tools) as [err|defs]; [by right|]. constructor; [|done]. split; cbn; [done|..].
  - clear Ho. case_bool_decide; cbn in Hin; [|by injection Hin as <-]. split; [|done].
    destruct (mt_InputSchema t) as [json|]; [|done]. cbn in Hin. destruct (_ || _) eqn:Hj; injection Hin as <-; [done|].
    by reflect_bools.
  - clear Hin. split; intros; repeat case_bool_decide; try done; by injection Ho as <-.
  - unfold annotationsFromTool. destruct (_ && _) eqn:Hb; [|done]. reflect_bools. destruct (mt_Annotations t). cbn in *. by subst.
Qed.

End definitions.

Section results.
Context {I X M E : Type} {library : McpLibrary I X M E}.

Lemma session_ready what (c : BackendClient) (e : E) h :
  valid_address c.(bc_record) = true → session_of c = Ready h → session what (c, e) = (Ok h, (c, e)).
Proof.
  unfold valid_address, session_of. intros Hv Hs. unfold session, ensureInitialized, made_client, bind, gets. cbn [fst].
  apply negb_true_iff in Hv. rewrite Hv. destruct (bc_client c) as [h'|] eqn:Ec; [|done].
  cbv beta iota zeta. cbn [fst negb]. destruct (bc_initialized c) eqn:Ei; [|done]. injection Hs as ->. done.
Qed.

(** What the gateway gets. On a session that is ready, the answer of the server
    arrives whole: every item of a result in its order, a text as it was and anything
    else as its JSON, with the mark of an error; every tool in its order with its
    fields. The answer is refused only for an item or a schema that has no JSON, and
    the session stays. *)
Theorem backend_results (c : BackendClient) (e e' : E) h :
  valid_address c.(bc_record) = true → session_of c = Ready h →
  (∀ name args content is_error, lib_CallTool h name args e = (Ok (mkCallToolResult content is_error), e') →
     let r := BackendCallTool name args (c, e) in r.2 = (c, e') ∧
     match r.1 with
     | Ok out => Forall2 shows content out.(tr_Content) ∧ out.(tr_IsError) = is_error
     | Err _ => OtherContent None ∈ content
     end) ∧
  (∀ tools, lib_ListTools h e = (Ok tools, e') →
     let r := BackendListTools (c, e) in r.2 = (c, e') ∧
     match r.1 with Ok defs => Forall2 describes tools defs | Err _ => Exists unencodable tools end).
Proof.
  intros Hv Hs. split.
  - intros name args content is_error Hc. unfold BackendCallTool, bind. rewrite (session_ready _ c e h) by done.
    unfold in_library. cbn [fst snd]. rewrite Hc. cbn [cr_Content cr_IsError]. unfold of_result.
    pose proof (blocks_show content) as Hb. by destruct (content_blocks content).
  - intros tools Hl. unfold BackendListTools, bind. rewrite (session_ready _ c e h) by done.
    unfold in_library. cbn [fst snd]. rewrite Hl. unfold of_result. cbn [fst snd]. split; [done|]. apply definitions_describe.
Qed.

End results.

(** ** Instances *)

(** A library whose calls all succeed, with a tool that has a schema and a result of
    a text and an image. *)
Definition example_tool : McpTool () () () :=
  mkMcpTool "log" "Shows the log." "" (Some "null") "" "" None (mkToolAnnotation "" (Some true) None None None) false [] None None.
Definition example_library : McpLibrary () () () () := {|
  NewStreamableHttpClient _ := ret 7;
  lib_Start _ := ret ();
  lib_Initialize _ := ret ();
  lib_CallTool _ _ _ := ret (mkCallToolResult [TextContent "text" "a"; OtherContent (Some "{}")] false);
  lib_ListTools _ := ret [example_tool];
  lib_ListResources _ := ret [];
  lib_ReadResource _ _ := ret [];
  lib_Close _ := ret ();
|}.
Definition example_backend : ServerRecord := example_server "1" "git" StatusActive ["log"] [].

Lemma backend_results_witness :
  (BackendCallTool (library := example_library) "log" [] (mkBackendClient example_backend "http://10.0.0.1:8080/mcp" (Some 7) true, ())).1 =
    Ok (mkToolResult [mkContentBlock "text" "a"; mkContentBlock "json" "{}"] false) ∧
  ∃ d, (BackendListTools (library := example_library) (mkBackendClient example_backend "http://10.0.0.1:8080/mcp" (Some 7) true, ())).1 = Ok [d] ∧
    describes example_tool d ∧ d.(bt_InputSchema) = "{}".
Proof.
  assert (Hv : valid_address example_backend = true) by (vm_compute; reflexivity).
  destruct (backend_results (library := example_library) (mkBackendClient example_backend "http://10.0.0.1:8080/mcp" (Some 7) true)
    () () 7 Hv eq_refl) as [_ Ht].
  destruct (Ht [example_tool] eq_refl) as [_ Hd]. split; [vm_compute; reflexivity|]. eexists. split; [vm_compute; reflexivity|].
  split; [|reflexivity]. by apply Forall2_cons in Hd as [Hd _].
Defined.
