(* ===== verification/Serve.v ===== *)
(** * The start of a gateway: [cmd/mcpgw/serve.go], [internal/server/server.go]

    What [serveWithContext] builds from a configuration: the backend of the rate limits,
    the broadcaster, the routing index, and the routes with the middlewares in front of
    them. The fields of the server that later calls read are a state, so that the order
    of the calls matters. What the calls to the outside give is a [StartEnv]. *)

From S2P Require Import Prelude GoStrings Types AdminOps CapIndex Events Config.

#[local] Open Scope string_scope.
#[local] Open Scope list_scope.
#[local] Open Scope nat_scope.
#[local] Open Scope go_scope.

(** ** Routes *)

Inductive RateBackend := RateMemory | RateDragonfly | RateNATS.

(** A middleware in front of a handler. *)
Inductive Guard :=
| GuardMTLS (prefixes : list string)
| GuardAuth (oidc : bool)
| GuardScope
| GuardRate (backend : RateBackend)
| GuardPolicy.

(** What protects the dashboard: a token of the platform, sessions of a login, or
    nothing. *)
Inductive AdminAccess := AdminPlatform (token : string) | AdminSessions | AdminOpen.

Inductive RouteHandler :=
| HealthHandler
| ReadyHandler
| MetaHandler
| RegistrationHandler
| ProxyHandler
| PerServerHandler
| AdminRouter (access : AdminAccess) (rate : RateBackend)
| CatalogRoutes
| DeviceFlowRoutes
| APIKeyRoutes
| WellKnownHandler
| ServerListRoute.
Record Route := mkRoute { rt_Pattern : string; rt_Guards : list Guard; rt_Handler : RouteHandler }.

(** ** The server: internal/server/server.go *)

Record Server := mkServer {
  sv_cfg : Config;
  sv_rateLimitBackend : RateBackend;
  sv_proxyAuthMW : option Guard;
  sv_serverScopeMW : option Guard;
  sv_proxyPolicyMW : option Guard;
  sv_eventsClient : option Client;
  sv_routes : list Route;
}.
Definition add_route (r : Route) (s : Server) : Server :=
  mkServer s.(sv_cfg) s.(sv_rateLimitBackend) s.(sv_proxyAuthMW) s.(sv_serverScopeMW) s.(sv_proxyPolicyMW) s.(sv_eventsClient) (s.(sv_routes) ++ [r]).

(** [setupRoutes]. *)
Definition setupRoutes (s : Server) : Server :=
  add_route (mkRoute "/meta" [] MetaHandler)
    (add_route (mkRoute "/readyz" [] ReadyHandler) (add_route (mkRoute "/healthz" [] HealthHandler) s)).

(** [SetRateLimitBackend], [SetProxyAuthMiddleware] and [SetServerScopeMiddleware]. *)
Definition SetRateLimitBackend (b : RateBackend) (s : Server) : Server :=
  mkServer s.(sv_cfg) b s.(sv_proxyAuthMW) s.(sv_serverScopeMW) s.(sv_proxyPolicyMW) s.(sv_eventsClient) s.(sv_routes).
Definition SetProxyAuthMiddleware (g : Guard) (s : Server) : Server :=
  mkServer s.(sv_cfg) s.(sv_rateLimitBackend) (Some g) s.(sv_serverScopeMW) s.(sv_proxyPolicyMW) s.(sv_eventsClient) s.(sv_routes).
Definition SetServerScopeMiddleware (g : Guard) (s : Server) : Server :=
  mkServer s.(sv_cfg) s.(sv_rateLimitBackend) s.(sv_proxyAuthMW) (Some g) s.(sv_proxyPolicyMW) s.(sv_eventsClient) s.(sv_routes).

Definition guard (g : option Guard) : list Guard := match g with Some g => [g] | None => [] end.
Definition call_guards (s : Server) : list Guard :=
  guard s.(sv_proxyAuthMW) ++ guard s.(sv_serverScopeMW) ++ [GuardRate s.(sv_rateLimitBackend)] ++ guard s.(sv_proxyPolicyMW).

(** [MountRegistrationRoutes]. *)
Definition MountRegistrationRoutes (s : Server) : Server :=
  add_route (mkRoute "/v1/registrations" [GuardMTLS s.(sv_cfg).(c_SPIFFEAllowList)] RegistrationHandler) s.

(** [MountProxyRoutes] and [MountPerServerRoutes]. *)
Definition MountProxyRoutes (s : Server) : Server := add_route (mkRoute "/mcp" (call_guards s) ProxyHandler) s.
Definition MountPerServerRoutes (s : Server) : Server :=
  add_route (mkRoute "/mcp/servers/{serverName}" (call_guards s) PerServerHandler) s.

(** [MountAdmin]. *)
Definition MountAdmin (access : AdminAccess) (s : Server) : Server :=
  add_route (mkRoute "/admin" [] (AdminRouter access s.(sv_rateLimitBackend))) s.

(** [MountCatalog]. *)
Definition MountCatalog (platformPrefixes : list string) (s : Server) : Server :=
  if bool_decide (platformPrefixes = []) then s
  else add_route (mkRoute "/admin/api/tools/catalog" [GuardMTLS platformPrefixes] CatalogRoutes) s.

(** [MountDeviceFlowRoutes], [Server.MountAPIKeyAPI] and [MountDiscoveryRoutes]. *)
Definition MountDeviceFlowRoutes (s : Server) : Server := add_route (mkRoute "/device" [] DeviceFlowRoutes) s.
Definition MountAPIKeyRoutes (s : Server) : Server :=
  add_route (mkRoute "/v1/apikeys" (guard s.(sv_proxyAuthMW)) APIKeyRoutes) s.
Definition MountDiscoveryRoutes (s : Server) : Server :=
  add_route (mkRoute "/mcp/servers" [] ServerListRoute)
    (if s.(sv_cfg).(c_WellKnownEnabled) then add_route (mkRoute "/.well-known/mcp.json" [] WellKnownHandler) s else s).

(** ** The outside *)

Record StartEnv := mkStartEnv {
  se_tracer : bool;
  se_database : bool;
  se_active : result (list ServerRecord);
  se_nats : NatsEnv;
  se_nats_up : bool;
  se_jetstream : bool;
  se_nats_bucket : bool;
  se_dragonfly : bool;
  se_client_tls : bool;
  se_oidc : bool;
  se_per_server_tls : bool;
  se_admin_oidc : bool;
  se_server_tls : bool;
}.

Section start.
Context `{UnicodeTables}.

(** The client of NATS that [initNATS] leaves. *)
Definition start_client (cfg : Config) (env : NatsEnv) : option Client :=
  if negb cfg.(c_CruveroEnabled) || bool_decide (TrimSpace cfg.(c_NATSURL) = "") then None
  else if cfg.(c_NATSTLSEnabled) && negb env.(ne_TLS) then None
  else NewClient cfg.(c_NATSURL) cfg.(c_GatewayID) env.(ne_Connect).

(** [New]: the fields that the mounts read. Its policy engine, memory backend and
    subscriber are [NewServer] of [Events]. *)
Definition NewGateway (cfg : Config) (env : NatsEnv) : Server :=
  setupRoutes (mkServer cfg RateMemory None None (Some GuardPolicy) (start_client cfg env) []).

(** Whether the client is there and connected when it is asked. *)
Definition nats_connected (env : StartEnv) (gw : Server) : bool := bool_decide (is_Some gw.(sv_eventsClient)) && env.(se_nats_up).

(** ** serve.go *)

(** [initRateLimitBackend], with [initDragonflyBackend] and [initNATSRateLimitBackend]:
    the server, and whether there is a client of DragonflyDB. *)
Definition initRateLimitBackend (cfg : Config) (env : StartEnv) (gw : Server) : result (Server * bool) :=
  if bool_decide (cfg.(c_RateLimitBackend) = "dragonfly") then
    if env.(se_dragonfly) then Ok (SetRateLimitBackend RateDragonfly gw, true)
    else Err (Opaque "serve command: create dragonfly rate limit backend")
  else if bool_decide (cfg.(c_RateLimitBackend) = "nats") then
    if negb (nats_connected env gw) then Err (Opaque "serve command: nats rate limit backend requires active NATS connection")
    else if negb env.(se_jetstream) then Err (Opaque "serve command: get jetstream context")
    else if negb env.(se_nats_bucket) then Err (Opaque "serve command: create nats rate limit backend")
    else Ok (SetRateLimitBackend RateNATS gw, false)
  else Ok (gw, false).

(** [buildProxyTLSConfig]: without a CA there is nothing to read. *)
Definition buildProxyTLSConfig (cfg : Config) (reads : bool) : result () :=
  if bool_decide (TrimSpace cfg.(c_TLSCAPath) = "") || reads then Ok () else Err (Opaque "build client tls config").

(** [maybeBuildOIDCValidator]: whether there is a validator. *)
Definition maybeBuildOIDCValidator (cfg : Config) (discovers : bool) : result bool :=
  if bool_decide (TrimSpace cfg.(c_OIDCIssuer) = "") || bool_decide (TrimSpace cfg.(c_OIDCAudience) = "") then Ok false
  else if discovers then Ok true
  else Err (Opaque "initialize oidc validator").

(** [initProxyServer]: whether there is a validator. *)
Definition initProxyServer (cfg : Config) (env : StartEnv) : result bool :=
  match buildProxyTLSConfig cfg env.(se_client_tls) with
  | Err e => Err (Wrap "serve command: build proxy tls config" e)
  | Ok _ =>
      match maybeBuildOIDCValidator cfg env.(se_oidc) with
      | Err e => Err (Wrap "serve command: build oidc validator" e)
      | Ok v => Ok v
      end
  end.

(** [buildAdminAuth]: whether there is an [AdminAuth]. *)
Definition buildAdminAuth (cfg : Config) (discovers : bool) : result bool :=
  if bool_decide (TrimSpace cfg.(c_AdminMode) = "integrated") then Ok false
  else if cfg.(c_AdminDevMode) then Ok false
  else if discovers then Ok true
  else Err (Opaque "new admin auth: discover oidc provider").

(** [admin.NewRouter]: its panic is an error here. *)
Definition normalizeAdminMode (raw : string) : string :=
  if bool_decide (ToLower (TrimSpace raw) = "integrated") then "integrated" else "standalone".
Definition NewAdminRouter (cfg : Config) (auth : bool) : result AdminAccess :=
  let mode := normalizeAdminMode cfg.(c_AdminMode) in
  if bool_decide (mode = "standalone") && negb auth && negb cfg.(c_AdminDevMode)
  then Err (Opaque "panic: admin: Auth must not be nil when DevMode is false")
  else if bool_decide (mode = "integrated") then Ok (AdminPlatform cfg.(c_PlatformServiceToken))
  else if auth && negb cfg.(c_AdminDevMode) then Ok AdminSessions
  else Ok AdminOpen.

(** [mountAdmin]. *)
Definition mountAdmin (cfg : Config) (env : StartEnv) (gw : Server) : result Server :=
  match buildAdminAuth cfg env.(se_admin_oidc) with
  | Err e => Err (Wrap "serve command: initialize admin auth" e)
  | Ok auth => match NewAdminRouter cfg auth with Err e => Err e | Ok access => Ok (MountAdmin access gw) end
  end.

(** [mountOptionalRoutes]. *)
Definition mountOptionalRoutes (cfg : Config) (env : StartEnv) (gw : Server) : result Server :=
  let gw := if cfg.(c_DeviceFlowEnabled) then MountDeviceFlowRoutes gw else gw in
  match (if cfg.(c_AdminEnabled) || bool_decide (TrimSpace cfg.(c_AdminMode) = "integrated") then mountAdmin cfg env gw else Ok gw) with
  | Err e => Err e
  | Ok gw => Ok (if negb (bool_decide (cfg.(c_PlatformSPIFFEPrefixes) = [])) then MountCatalog cfg.(c_PlatformSPIFFEPrefixes) gw else gw)
  end.

(** [listenAndServe]: whether the server listens with TLS. *)
Definition listenAndServe (cfg : Config) (env : StartEnv) : result bool :=
  if IsTLSConfigured cfg then
    if bool_decide (TrimSpace cfg.(c_TLSCAPath) = "") then
      Err (Wrap "start server: build inbound tls config" (Opaque "MCPGW_TLS_CA is required when TLS is enabled"))
    else if env.(se_server_tls) then Ok true
    else Err (Wrap "start server: build inbound tls config" (Opaque "tls"))
  else Ok false.

(** A gateway that listens. *)
Record Started := mkStarted {
  st_index : CapabilityIndex;
  st_server : Server;
  st_broadcaster : Bus;
  st_limiter : RateBackend;
  st_TLS : bool;
}.

(** [serveWithContext] up to the listening, with the configuration loaded. [st_limiter]
    is what the router limits servers with. The calls in between that cannot fail are in
    the files of what they start: the service of [Registration] with its subscriber and
    sweeper, the search, the orchestrator and the retention of the audit log. *)
Definition serveWithContext (cfg : Config) (env : StartEnv) : result Started :=
  if negb env.(se_tracer) then Err (Opaque "serve command: initialize tracer")
  else if negb env.(se_database) then Err (Opaque "serve command: open database")
  else
    match env.(se_active) with
    | Err e => Err (Wrap "serve command: list active servers" e)
    | Ok activeServers =>
        let index := Rebuild activeServers NewCapabilityIndex in
        match initRateLimitBackend cfg env (NewGateway cfg env.(se_nats)) with
        | Err e => Err e
        | Ok (gw, dragonfly) =>
            let broadcaster := selectBroadcaster cfg.(c_CruveroEnabled) (nats_connected env gw) dragonfly in
            match initProxyServer cfg env with
            | Err e => Err e
            | Ok oidc =>
                let limiter := gw.(sv_rateLimitBackend) in
                let gw := SetProxyAuthMiddleware (GuardAuth oidc) gw in
                let gw := if cfg.(c_ServerScopeEnforcement) then SetServerScopeMiddleware GuardScope gw else gw in
                let gw := MountProxyRoutes (MountRegistrationRoutes gw) in
                match (if cfg.(c_PerServerEndpoints) then
                         match buildProxyTLSConfig cfg env.(se_per_server_tls) with
                         | Err e => Err (Wrap "serve command: per-server tls config" e)
                         | Ok _ => Ok (MountPerServerRoutes gw)
                         end
                       else Ok gw) with
                | Err e => Err e
                | Ok gw =>
                    match mountOptionalRoutes cfg env (MountAPIKeyRoutes (MountDiscoveryRoutes gw)) with
                    | Err e => Err e
                    | Ok gw =>
                        match listenAndServe cfg env with
                        | Err e => Err (Wrap "serve command: start gateway" (Wrap "start server" e))
                        | Ok tls => Ok (mkStarted index gw broadcaster limiter tls)
                        end
                    end
                end
            end
        end
    end.

End start.
