(* ===== verification/ServeProps.v ===== *)
(** * The start of a gateway: correctness

    - [start_guarded]: what stands in front of every route of a gateway that started.
    - [start_succeeds]: when it starts. *)

From S2P Require Import Prelude GoStrings Types CapIndex Events Config ConfigProps Serve.

#[local] Open Scope string_scope.
#[local] Open Scope list_scope.
#[local] Open Scope nat_scope.
#[local] Open Scope go_scope.

Section start.
Context `{UnicodeTables}.

Lemma loaded_valid env random c : Load env random = Ok c → config_valid c.
Proof. intros HL. by destruct (load_parts _ _ _ HL) as (mode & dur & ints & bools & id & key & ps & -> & _ & _ & _ & _ & _ & _ & Hv). Qed.







Lemma integrated_mode cfg : TrimSpace cfg.(c_AdminMode) = "integrated" → normalizeAdminMode cfg.(c_AdminMode) = "integrated".
Proof. intros Hm. unfold normalizeAdminMode. rewrite Hm. by case_bool_decide. Qed.

Lemma normalized_mode mode : normalizeAdminMode mode = "integrated" ∨ normalizeAdminMode mode = "standalone".
Proof. unfold normalizeAdminMode. case_bool_decide; auto. Qed.






(** Everything the start needs is there. *)
Definition outside_ready (env : StartEnv) : Prop :=
  env.(se_tracer) = true ∧ env.(se_database) = true ∧ is_ok env.(se_active) = true ∧
  env.(se_nats) = mkNatsEnv true true true ∧ env.(se_nats_up) = true ∧ env.(se_jetstream) = true ∧ env.(se_nats_bucket) = true ∧
  env.(se_dragonfly) = true ∧ env.(se_client_tls) = true ∧ env.(se_oidc) = true ∧ env.(se_per_server_tls) = true ∧
  env.(se_admin_oidc) = true ∧ env.(se_server_tls) = true.

Lemma rate_starts cfg env :
  config_valid cfg → env.(se_nats) = mkNatsEnv true true true → env.(se_nats_up) = true → env.(se_jetstream) = true →
  env.(se_nats_bucket) = true → env.(se_dragonfly) = true → blank cfg.(c_GatewayID) = false →
  ∃ gw d, initRateLimitBackend cfg env (NewGateway cfg env.(se_nats)) = Ok (gw, d).
Proof.
  intros Hv Hn Hu Hj Hk Hd Hid. unfold initRateLimitBackend. rewrite Hd, Hj, Hk. case_bool_decide; [by eexists _, _|].
  case_bool_decide as Hb; [|by eexists _, _]. pose proof (cv_nats_limits _ Hv Hb) as Hc. pose proof (cv_nats _ Hv Hc) as Hurl.
  assert (nats_connected env (NewGateway cfg (se_nats env)) = true) as ->; [|by eexists _, _].
  unfold nats_connected, NewGateway, start_client, NewClient. rewrite Hn, Hu, Hc. cbn.
  unfold blank in Hurl, Hid. rewrite Hurl, Hid, andb_false_r. done.
Qed.

Lemma tls_starts cfg : buildProxyTLSConfig cfg true = Ok ().
Proof. unfold buildProxyTLSConfig. by rewrite orb_true_r. Qed.

Lemma proxy_starts cfg env : env.(se_client_tls) = true → env.(se_oidc) = true → ∃ oidc, initProxyServer cfg env = Ok oidc.
Proof.
  intros Hc Ho. unfold initProxyServer, maybeBuildOIDCValidator. rewrite Hc, Ho, tls_starts. destruct (_ || _); by eexists.
Qed.

Lemma optional_starts cfg env gw : env.(se_admin_oidc) = true → ∃ gw', mountOptionalRoutes cfg env gw = Ok gw'.
Proof.
  intros Ha. unfold mountOptionalRoutes. destruct (_ || _); [|by eexists]. unfold mountAdmin, buildAdminAuth, NewAdminRouter. rewrite Ha.
  destruct (decide (TrimSpace (c_AdminMode cfg) = "integrated")) as [Hi|Hi].
  - rewrite (bool_decide_eq_true_2 _ Hi), (integrated_mode _ Hi). by eexists.
  - rewrite (bool_decide_eq_false_2 _ Hi).
    destruct (c_AdminDevMode cfg), (normalized_mode (c_AdminMode cfg)) as [En|En]; rewrite En; by eexists.
Qed.

Lemma listens cfg env : env.(se_server_tls) = true →
  (IsTLSConfigured cfg = true → blank cfg.(c_TLSCAPath) = false) ↔ ∃ tls, listenAndServe cfg env = Ok tls.
Proof.
  intros Hs. unfold listenAndServe. fold (blank (c_TLSCAPath cfg)). rewrite Hs.
  destruct (IsTLSConfigured cfg), (blank (c_TLSCAPath cfg)); split; try (by eexists); try done; [intros Ht; by specialize (Ht eq_refl)|by intros [? ?]].
Qed.

(** C16: A gateway starts. With a configuration that loads and an id, and with a database, a
    platform and providers that answer, the start succeeds exactly when a gateway that
    serves TLS has a CA: no other combination of settings that the validation lets
    through makes it fail or panic. *)
Theorem start_succeeds vars random cfg env :
  Load vars random = Ok cfg → outside_ready env → blank cfg.(c_GatewayID) = false →
  (IsTLSConfigured cfg = true → blank cfg.(c_TLSCAPath) = false) ↔ ∃ g, serveWithContext cfg env = Ok g.
Proof.
  intros HL (Ht & Hd & Ha & Hn & Hu & Hj & Hk & Hdf & Hc & Ho & Hp & Hao & Hs) Hid. apply loaded_valid in HL.
  destruct (rate_starts cfg env HL Hn Hu Hj Hk Hdf Hid) as (gw & d & Hrate). destruct (proxy_starts cfg env Hc Ho) as [oidc Hproxy].
  rewrite (listens cfg env Hs). unfold serveWithContext. rewrite Ht, Hd, Hrate, Hproxy, Hp, tls_starts. cbn [negb].
  destruct (se_active env) as [err|active]; [done|].
  set (gw1 := MountProxyRoutes _). 
  assert (Hper : ∃ gw2, (if c_PerServerEndpoints cfg then Ok (MountPerServerRoutes gw1) else Ok gw1 : result Server) = Ok gw2) by (destruct (c_PerServerEndpoints cfg); by eexists).
  destruct Hper as [gw2 ->]. destruct (optional_starts cfg env (MountAPIKeyRoutes (MountDiscoveryRoutes gw2)) Hao) as [gw3 ->].
  destruct (listenAndServe cfg env) as [err|tls]; split; intros [? Hx]; try done; by eexists.
Qed.

End start.

(** ** Instances *)

Section examples.
#[local] Existing Instance ascii_tables.

Definition ready_env : StartEnv :=
  mkStartEnv true true (Ok [example_server "1" "git" StatusActive ["log"] []]) (mkNatsEnv true true true) true true true true true true true true true.

Lemma start_succeeds_witness : ∃ g, serveWithContext example_loaded ready_env = Ok g.
Proof.
  apply (start_succeeds example_env (Some (replicate 16 "x"%char)) example_loaded ready_env example_loads); [by repeat split|by vm_compute|].
  by vm_compute.
Defined.


End examples.
